(* ===== verification/_CoqProject ===== *)
-Q . S2P
Prelude.v
RingBuffer.v
Storage.v
StorageView.v
FlashStorage.v
FlashLog.v
FlashSpec.v
FlashProperties.v
HalStorage.v
HalStorageSpec.v
Routing.v
Float32.v
Crc.v
RCDecoders.v
SerialRC.v
SBusOut.v
SBusSpec.v
RCSpec.v
Mission.v
MissionDemo.v
MissionSpec.v
MissionRun.v
Param.v
ParamLog.v
ParamTables.v
ParamSpec.v
ParamDemo.v
ParamCrash.v
ParamProperties.v
ParamStack.v
Scheduler.v
SchedulerSpec.v
SerialRCSpec.v
RingBufferSPSC.v
LogWriter.v
LogWriterSpec.v
RemoteLog.v
RemoteLogSpec.v
RemoteLogSession.v
RemoteLogOps.v
RemoteLogProperties.v
Float32Spec.v
MissionItem.v
MissionItemSpec.v
MissionProtocol.v
MissionProtocolSpec.v
ParamNames.v
ParamNamesSpec.v
ParamList.v
ParamListProperties.v
ParamSet.v
ParamSetSpec.v
ParamSetFloat.v
ParamSetProperties.v
SmartRTL.v
SmartRTLSpec.v
SmartRTLSimplify.v
SmartRTLPrune.v
SmartRTLLoops.v
SmartRTLSafety.v
SmartRTLProgress.v
