(* ===== verification/Prelude.v ===== *)
(** * A verification library for the URUS flight stack

    URUS is a fork of ArduPilot: vehicle programs (ArduCopter, ArduPlane, ...)
    over a set of libraries (src/libraries) and a hardware layer per board
    (one AP_HAL library each).  This library models the parts whose correctness is a matter of
    the program alone: what is kept in storage and how it survives a loss of
    power, what is received and sent on serial lines, what runs when, the
    execution of a mission and its exchange with a ground station, and the path
    that brings a vehicle home the way it came.

    ** The parts, and how they interact

    Storage.  AP_Mission and AP_Param keep their records through StorageManager,
    which divides the bytes of the board between its clients; the ChibiOS driver
    keeps these bytes in memory, marks lines of them dirty, and writes them behind
    through AP_FlashStorage, which makes a byte storage of two sectors of flash.
    - Storage.v: class [HalStorage] (what a board offers) with its laws
      [HalStorageLaws] (an array of bytes); Module [StorageManager]
      (StorageManager/StorageManager.cpp): [layout_default], [layout_copter],
      [read_block], [write_block], [erase].
    - StorageView.v: the bytes of one client and sequences of writes to them.
    - FlashStorage.v: class [FlashDevice] (the four callbacks of the flash),
      [FlashLaws] (bits are only cleared; a write cut by a loss of power has
      written its first half-words), Module [FlashStorage]
      (AP_FlashStorage/AP_FlashStorage.cpp, a function each), and the flash of the
      library's test as an instance.  FlashLog.v: a sector as a list of blocks.
      FlashSpec.v: the invariant between calls and what [write] does to it.
      FlashProperties.v: the theorems.
    - HalStorage.v: Modules [Bitmask] (AP_Common/Bitmask.h) and [ChibiOS]
      (AP_HAL_ChibiOS/Storage.cpp); HalStorageSpec.v: the driver keeps
      [HalStorageLaws], so every theorem on a client holds on it.
    - Param.v: Module [AP_Param] (AP_Param/AP_Param.cpp: the tables, their check,
      the record of headers and values, save, load, load_all); ParamLog.v: the
      record as a list of entries; ParamTables.v: what an accepted table
      guarantees; ParamSpec.v, ParamCrash.v, ParamProperties.v: the theorems;
      ParamStack.v: the four layers together, from a variable to the flash.
      ParamNames.v: Module [ParamNames], the names of the variables ([find],
      [copy_name_token]) and the walk over them ([first], [next], [next_scalar]);
      ParamNamesSpec.v: the tables flattened to a list of [entries], and each
      recursive search as a [pick] of that list; ParamList.v: the list that the walk
      goes through and its scalars; ParamListProperties.v: the theorems.
      ParamSet.v: Module [ParamSet], setting by name, conversions of old parameters,
      the defaults embedded or in a file, objects loaded later; ParamSetSpec.v: the
      defaults as a list, and a conversion as one of a few outcomes;
      ParamSetFloat.v: [set_float] on SpecFloat; ParamSetProperties.v: the theorems.
    - Mission.v: Module [Mission] (AP_Mission/AP_Mission.cpp) with the vehicle's
      callbacks as class [Vehicle]; MissionDemo.v: an instance; MissionSpec.v: the
      commands in storage as a list; MissionRun.v: the running mission.

    Communication.
    - RingBuffer.v: [ByteBuffer], [ObjectBuffer], [ObjectArray]
      (AP_HAL/utility/RingBuffer.cpp, .h), under every serial port.
      RingBufferSPSC.v: Module [SPSC], a writing and a reading thread on one
      [ByteBuffer], as a step relation whose steps are the single accesses to the
      shared head and tail and to the bytes.
    - Routing.v: the routing table of the MAVLink links
      (GCS_MAVLink/MAVLink_routing.cpp); the generated MAVLink code is class
      [Mavlink], the links are class [Links].
    - MissionItem.v: Module [MissionItem], the conversions between MAVLink items
      and the commands of a mission (AP_Mission.cpp), on the bytes of a command,
      with the generated numbers as class [MavNumbers] (laws: [MavNumberLaws]);
      MissionItemSpec.v: what an accepted item makes, and that it comes back.
      MissionProtocol.v: Module [MissionProtocol], the handlers of the mission
      messages and the queue of deferred messages (GCS_MAVLink/GCS_Common.cpp),
      with the link and the vehicle as class [Ground]; MissionProtocolSpec.v: an
      upload as a sequence of steps ([steps]) and its invariant [uploading].
    - RCDecoders.v: PPM-sum, SBUS, DSM and the front end of AP_RCProtocol, from
      pulse widths; SBusOut.v: AP_SBusOut; SBusSpec.v and RCSpec.v: the theorems,
      with the round trip from the output driver to the decoder.
    - Crc.v: AP_Math/crc.cpp and the checksums of the serial receivers; SerialRC.v:
      Modules [ST24], [SUMD], [SRXL] (AP_HAL/utility); SerialRCSpec.v.

    Logging.
    - LogWriter.v: the writers of the startup messages of a log
      (DataFlash/DFMessageWriter.cpp), state machines that call a backend, which
      is class [LogBackend]; LogWriterSpec.v: what they have written.
    - RemoteLog.v: Module [Blocks] (the linked lists of blocks) and Module
      [RemoteLog] (DataFlash/DataFlash_MAVLink.cpp and the parts of
      DataFlash_Backend.cpp it uses), the log sent to a remote system in
      numbered blocks that it acknowledges.  RemoteLogSpec.v: the lists as lists
      of blocks, [rep].  RemoteLogSession.v: a session, its calls as steps, and
      the invariant [inv].  RemoteLogOps.v: every operation keeps it.
      RemoteLogProperties.v: the theorems.

    The way home.
    - SmartRTL.v: Module [Vector3] (AP_Math/vector3.cpp) and Module [SmartRTL]
      (AP_SmartRTL/AP_SmartRTL.cpp), the path flown, which a background thread
      simplifies (Ramer, Douglas and Peucker, with a stack of its own) and prunes
      of loops while the vehicle adds and pops points.  SmartRTLSpec.v: the
      recursive algorithm as the reference of the simplification.
      SmartRTLSimplify.v: its theorems.  SmartRTLPrune.v: cutting the loops out of
      a path; SmartRTLLoops.v: the search for loops.  SmartRTLSafety.v: the
      invariant of the whole state, that every operation keeps.  SmartRTLProgress.v:
      what each call of the thread achieves, while the vehicle waits.

    Time.
    - Scheduler.v: AP_Scheduler and its statistics (AP_Scheduler.cpp,
      PerfInfo.cpp), with the clock, the tasks and the fast loop as class
      [Board]; SchedulerSpec.v.
    - Float32.v: single-precision arithmetic, on the Standard Library's SpecFloat;
      Float32Spec.v: correct rounding, and what the products and quotients by 100
      of the mission items give.

    ** Conventions

    An integer is its value in [Z]; the conversions to a width ([u8] ... [i32]) are
    written where the source has the type.  State is a record passed along; a
    method is a function from the state (and arguments) to its result and the new
    state.  Undefined behaviour (an access outside an array, a conversion or a
    division out of range) is [None], or [Undefined] in [outcome], which also has
    [OutOfFuel] for a loop that did not end.  A pointer into an array is an
    offset; a pointer to a parameter is its address in a memory of bytes.
    The content of an uninitialised local is an argument (often [junk]).  Debug
    and console output is left out.

    ** Fuel

    The theorems say that the fuel is enough, never that a result is right if
    there is one.  A block of [len] bytes is written by AP_FlashStorage within
    [len + 3]; the driver writes 8 bytes and gives 16.  The scan of the parameters
    moves by 4 bytes at least and has [size / 4 + 2].  The tables of the parameters
    nest to 3 levels, as 3 times 6 bits are the 18 bits of an id; [find] and [next]
    have [3 + n].  A loop over the parameters has more rounds than [positions] has
    elements.  A loop over the
    lines of a text has a round for each character and one more.  The search for
    the next mission command follows at most 64 jumps, as the code does, and the
    advance of a mission has 258 rounds, more than the 255 that the code allows.
    [st24_bits] has 9 rounds, one more than the bits of a byte.  A walk along a
    list of blocks has as many rounds as there are blocks in the pool and one
    more.  [_WritePrioritisedBlock] calls itself through the startup messages at
    most once, as the code marks that it is writing them, and has depth 2.  A path
    has at most 500 points: its simplification has 1000 rounds, two for each
    segment, and the search for loops 2^18, more than its pairs of segments.  The
    loop over the deferred messages has a round for each of them.  The
    numbers of the blocks are 32 bits wide: the theorems on a remote log hold up
    to [log_limit] bytes, 200 bytes a block.  Where a loop of the code need not
    end there is a theorem that it does not:
    [mission_set_current_hangs], [flash_switch_power_failure].

    ** What the theorems show

    - Durability: a write to flash is atomic and comes back after a boot
      ([flash_write_atomic], [flash_write_persists]); the driver loses no
      clean line between its calls and cleans every line ([hal_storage_contract],
      [hal_storage_flush]); adding a parameter leaves a readable record whatever
      byte the power is lost at ([param_crash]); a parameter saved is in flash
      ([param_in_flash]); every block of a remote log is held until it is
      acknowledged ([remote_log_delivery]); a log starts with its formats,
      parameters and commands ([log_start_written]); commands and parameters read
      back as written ([storage_roundtrip], [mission_roundtrip], [param_reload]).
    - The mission of a ground station: an item that is accepted makes a command
      that fits in storage ([mission_item_valid]) and is sent back as it came, up
      to a listed rounding ([mission_item_reloaded], [mission_download]); an upload
      that is acknowledged is in storage ([mission_upload]), and an upload without
      faults is acknowledged ([mission_upload_completes]).
    - Refinement: the queue ([bytebuffer_fifo]), also between two threads
      ([spsc_queue], and no thread ever waits for the other, [spsc_wait_free]), the
      stream of bytes of a log in numbered blocks ([remote_log_stream]), the list
      of commands ([mission_edits]), the map of parameters ([param_save]), the
      array of bytes ([hal_storage_contract]).
    - Invariants: the parameter tables ([param_lookup]), the storage layouts
      ([storage_layouts]), the routing table ([routing_table]), the selected
      receiver ([rc_detection]), the load ([scheduler_load]).
    - The parameters of a ground station: the walk over the tables is the list of
      all variables, once each ([param_walk]), its count and its indices are those
      of the listed scalars ([param_count]), and a parameter is found again by the
      name it is listed with, the elements of the vehicle's own vectors excepted
      ([param_names]); an integer that is set is read back
      ([param_set_float]).  At a start the defaults of the firmware are given to what
      is not recorded ([param_defaults]), and old parameters are converted once
      ([param_convert]).
    - The way home: no sequence of calls of the vehicle and of the thread leads
      outside the arrays of the path, but for the stack of the simplification, which
      is too short for some ([smart_rtl_safe]); the simplification is the
      recursive one ([simplification_reference]) and removes only points near the
      path it leaves ([simplification_kept]); the loops recorded are apart and are
      cut out together ([pruning_cuts]), and a complete search misses none
      ([pruning_finds]); a thorough cleanup that is requested is completed,
      always with a stack that is long enough ([thorough_cleanup_completes]).
    - Functional behaviour: who gets a message ([routing_delivery]), what a frame
      of each receiver protocol delivers (round trips and receptions), which tasks
      run ([scheduler_runs_due]) within which time ([scheduler_budget]), what a
      mission executes ([mission_update], [mission_leg], [mission_jump_times]).
    - Faults: the cases in which the code does not do what it means to have
      theorems too, and are listed with the findings of the development.

    ** Not modelled, and why

    The vehicles, control and estimation code are floating-point dynamics; the
    sensor drivers depend on data sheets; the packing and unpacking of MAVLink
    messages is generated code that is not in the tree, and those that are not
    about the mission are handled by the vehicles; the file and chip backends of DataFlash, telemetry and the other boards
    are input and output; SITL is the simulator.  Of the parts modelled, left out
    are: of AP_Param the messages of [save] and the printing of all the variables,
    which is compiled out; of the
    ChibiOS driver the FRAM chip and the processor's flash registers, and the
    re-initialisation started inside a failed write; of DataFlash_MAVLink the
    statistics it logs; of the mission protocol what a vehicle does with a guided
    request; of AP_SmartRTL the messages, the log and the example mode.  A call of
    the vehicle is a step of the model, and one of the thread is two steps, between
    which the vehicle may act; the accuracy is fixed during a flight.

    This file holds what all the others share: integers of a width, bit
    operations, arrays with bounds, [outcome], little-endian integers, and the
    tactics [wrap_simpl], [zcases], [zlia]. *)
From stdpp Require Export base numbers list option sets.
From Stdlib Require Export ZArith Lia.
#[export] Set Default Goal Selector "!".

(** * Machine integers

    A C value of an unsigned w-bit type is its value in [Z], between 0 and
    [2^w - 1]; the conversion of a result to the type is one of the functions
    below, written where the source has the type. *)
Declare Scope urus_scope.
Delimit Scope urus_scope with urus.
Open Scope Z_scope.

Definition u8 (x : Z) : Z := x mod 256.
Definition u16 (x : Z) : Z := x mod 65536.
Definition u32 (x : Z) : Z := x mod 4294967296.
Definition u64 (x : Z) : Z := x mod 18446744073709551616.
Definition i8 (x : Z) : Z := (x + 128) mod 256 - 128.
Definition i16 (x : Z) : Z := (x + 32768) mod 65536 - 32768.
Definition i32 (x : Z) : Z := (x + 2147483648) mod 4294967296 - 2147483648.

(** A C condition on an integer: any non-zero value is true. *)
Definition nz (x : Z) : bool := negb (x =? 0).

Notation "x &&& y" := (Z.land x y) (at level 40, left associativity) : urus_scope.
Notation "x ||| y" := (Z.lor x y) (at level 50, left associativity) : urus_scope.
Notation "x ^^^ y" := (Z.lxor x y) (at level 50, left associativity) : urus_scope.
Notation "x << y" := (Z.shiftl x y) (at level 45, left associativity) : urus_scope.
Notation "x >> y" := (Z.shiftr x y) (at level 45, left associativity) : urus_scope.

(** [zlia] is [lia] after the euclidean equations of every division and
    remainder of the goal. *)
Ltac zlia := Z.to_euclidean_division_equations; lia.

Create HintDb wrap discriminated.

Lemma u8_small x : 0 <= x < 256 -> u8 x = x.
Proof. apply Z.mod_small. Qed.
Lemma u16_small x : 0 <= x < 65536 -> u16 x = x.
Proof. apply Z.mod_small. Qed.
Lemma u32_small x : 0 <= x < 4294967296 -> u32 x = x.
Proof. apply Z.mod_small. Qed.
Lemma u64_small x : 0 <= x < 18446744073709551616 -> u64 x = x.
Proof. apply Z.mod_small. Qed.
Lemma i8_small x : -128 <= x < 128 -> i8 x = x.
Proof. intros H. unfold i8. rewrite Z.mod_small; lia. Qed.
Lemma i16_small x : -32768 <= x < 32768 -> i16 x = x.
Proof. intros H. unfold i16. rewrite Z.mod_small; lia. Qed.
Lemma i32_small x : -2147483648 <= x < 2147483648 -> i32 x = x.
Proof. intros H. unfold i32. rewrite Z.mod_small; lia. Qed.

Lemma u8_range x : 0 <= u8 x < 256.
Proof. by apply Z.mod_pos_bound. Qed.
Lemma u16_range x : 0 <= u16 x < 65536.
Proof. by apply Z.mod_pos_bound. Qed.
Lemma u32_range x : 0 <= u32 x < 4294967296.
Proof. by apply Z.mod_pos_bound. Qed.
Lemma u64_range x : 0 <= u64 x < 18446744073709551616.
Proof. by apply Z.mod_pos_bound. Qed.
Lemma i16_range x : -32768 <= i16 x < 32768.
Proof. unfold i16. pose proof (Z.mod_pos_bound (x + 32768) 65536). lia. Qed.
#[export] Hint Resolve u8_range u16_range u32_range u64_range i16_range : wrap.

(** Rewrites away every conversion whose argument [lia] bounds. *)
Ltac wrap_simpl :=
  repeat match goal with
  | |- context [u8 ?x] => rewrite (u8_small x) by lia
  | |- context [u16 ?x] => rewrite (u16_small x) by lia
  | |- context [u32 ?x] => rewrite (u32_small x) by lia
  | |- context [u64 ?x] => rewrite (u64_small x) by lia
  | |- context [i8 ?x] => rewrite (i8_small x) by lia
  | |- context [i16 ?x] => rewrite (i16_small x) by lia
  | |- context [i32 ?x] => rewrite (i32_small x) by lia
  end.

(** Case analysis on every integer comparison of the goal. *)
Ltac zcases :=
  repeat match goal with
  | |- context [?x >? ?y] => rewrite (Z.gtb_ltb x y)
  | |- context [?x >=? ?y] => rewrite (Z.geb_leb x y)
  | |- context [?x <? ?y] => destruct (Z.ltb_spec x y)
  | |- context [?x <=? ?y] => destruct (Z.leb_spec x y)
  | |- context [?x =? ?y] => destruct (Z.eqb_spec x y)
  end; simpl.

(** The remainder of a sum that overflows its modulus at most once. *)
Lemma mod_wrap x s : 0 <= x < 2 * s -> x mod s = if x <? s then x else x - s.
Proof.
  intros Hx. destruct (Z.ltb_spec x s).
  - apply Z.mod_small; lia.
  - rewrite <- (Z.mod_add x (-1) s) by lia.
    replace (x + -1 * s) with (x - s) by lia. apply Z.mod_small; lia.
Qed.

Lemma land_ones_mod x n : 0 <= n -> Z.land x (Z.ones n) = x mod 2 ^ n.
Proof. apply Z.land_ones. Qed.

Lemma nz_true x : nz x = true <-> x <> 0.
Proof. unfold nz. destruct (Z.eqb_spec x 0); simpl; split; congruence. Qed.
Lemma nz_false x : nz x = false <-> x = 0.
Proof. unfold nz. destruct (Z.eqb_spec x 0); simpl; split; congruence. Qed.

(** * Arrays

    A C array is a list; an access outside of it is undefined behaviour,
    the value [None] of these functions. *)
Abbreviation zlen l := (Z.of_nat (length l)).

Section arrays.
Context {A : Type}.
Implicit Types (l bs : list A) (i o n : Z).

(** [l[i]] *)
Definition arr_get l i : option A :=
  if (0 <=? i) then l !! Z.to_nat i else None.

(** [l[i] = x] *)
Definition arr_set l i (x : A) : option (list A) :=
  if (0 <=? i) && (i <? zlen l) then Some (<[Z.to_nat i := x]> l) else None.

(** [memcpy(dst, &l[o], n)]: the bytes read *)
Definition blk_get l o n : option (list A) :=
  if (0 <=? o) && (0 <=? n) && (o + n <=? zlen l)
  then Some (take (Z.to_nat n) (drop (Z.to_nat o) l)) else None.

(** [memcpy(&l[o], bs, |bs|)]: the array after the copy *)
Definition blk_set l o bs : option (list A) :=
  if (0 <=? o) && (o + zlen bs <=? zlen l)
  then Some (list_inserts (Z.to_nat o) bs l) else None.

Lemma arr_get_Some l i : 0 <= i < zlen l -> is_Some (arr_get l i).
Proof.
  intros H. unfold arr_get. rewrite (proj2 (Z.leb_le 0 i)) by lia.
  apply lookup_lt_is_Some_2. lia.
Qed.

Lemma arr_get_lookup l i : 0 <= i -> arr_get l i = l !! Z.to_nat i.
Proof. intros H. unfold arr_get. by rewrite (proj2 (Z.leb_le 0 i)). Qed.

Lemma arr_get_inv l i x : arr_get l i = Some x -> 0 <= i < zlen l.
Proof.
  unfold arr_get. destruct (Z.leb_spec 0 i); [|done].
  intros ?%lookup_lt_Some. lia.
Qed.

Lemma arr_set_Some l i x :
  0 <= i < zlen l -> arr_set l i x = Some (<[Z.to_nat i := x]> l).
Proof.
  intros H. unfold arr_set.
  by rewrite (proj2 (Z.leb_le 0 i)), (proj2 (Z.ltb_lt i _)) by lia.
Qed.

Lemma arr_set_inv l i x l' :
  arr_set l i x = Some l' ->
  0 <= i < zlen l /\ l' = <[Z.to_nat i := x]> l.
Proof.
  unfold arr_set. destruct (Z.leb_spec 0 i), (Z.ltb_spec i (zlen l)); simpl;
    naive_solver lia.
Qed.

Lemma arr_set_None l i x : ~ 0 <= i < zlen l -> arr_set l i x = None.
Proof.
  intros H. unfold arr_set.
  destruct (Z.leb_spec 0 i), (Z.ltb_spec i (zlen l)); simpl; done || lia.
Qed.

Lemma blk_get_Some l o n :
  0 <= o -> 0 <= n -> o + n <= zlen l ->
  blk_get l o n = Some (take (Z.to_nat n) (drop (Z.to_nat o) l)).
Proof.
  intros. unfold blk_get.
  by rewrite !(proj2 (Z.leb_le _ _)) by lia.
Qed.

Lemma blk_get_inv l o n r :
  blk_get l o n = Some r ->
  0 <= o /\ 0 <= n /\ o + n <= zlen l /\
  r = take (Z.to_nat n) (drop (Z.to_nat o) l).
Proof.
  unfold blk_get.
  destruct (Z.leb_spec 0 o), (Z.leb_spec 0 n), (Z.leb_spec (o + n) (zlen l));
    simpl; naive_solver.
Qed.

Lemma blk_get_length l o n r : blk_get l o n = Some r -> zlen r = n.
Proof.
  intros (?&?&?&->)%blk_get_inv. rewrite length_take, length_drop. lia.
Qed.

(** The copy, element by element. *)
Lemma blk_get_spec l o n :
  0 <= o -> 0 <= n -> o + n <= zlen l ->
  exists r, blk_get l o n = Some r /\ zlen r = n /\
    forall k : nat, Z.of_nat k < n -> r !! k = l !! Z.to_nat (o + Z.of_nat k).
Proof.
  intros Ho Hn Hl. rewrite blk_get_Some by done. eexists. split; [done|].
  split; [rewrite length_take, length_drop; lia|].
  intros k Hk. rewrite lookup_take_lt, lookup_drop by lia. f_equal. lia.
Qed.

Lemma blk_set_Some l o bs :
  0 <= o -> o + zlen bs <= zlen l ->
  blk_set l o bs = Some (list_inserts (Z.to_nat o) bs l).
Proof.
  intros. unfold blk_set. by rewrite !(proj2 (Z.leb_le _ _)) by lia.
Qed.

Lemma blk_set_inv l o bs l' :
  blk_set l o bs = Some l' ->
  0 <= o /\ o + zlen bs <= zlen l /\ l' = list_inserts (Z.to_nat o) bs l.
Proof.
  unfold blk_set.
  destruct (Z.leb_spec 0 o), (Z.leb_spec (o + zlen bs) (zlen l)); simpl;
    naive_solver.
Qed.

Lemma lookup_inserts_dec k bs l j :
  list_inserts k bs l !! j =
    if decide (k <= j < k + length bs)%nat
    then (if decide (j < length l)%nat then bs !! (j - k)%nat else None)
    else l !! j.
Proof.
  destruct (decide (k <= j < k + length bs)%nat) as [H|H].
  - destruct (decide (j < length l)%nat).
    + by rewrite list_lookup_inserts by lia.
    + apply lookup_ge_None_2. rewrite length_inserts. lia.
  - destruct (decide (j < k)%nat).
    + by rewrite list_lookup_inserts_lt by lia.
    + by rewrite list_lookup_inserts_ge by lia.
Qed.

Lemma inserts_after_app k l1 l2 bs : length l1 = k ->
  list_inserts k bs (l1 ++ l2) = l1 ++ list_inserts 0 bs l2.
Proof. intros <-. by rewrite <- list_inserts_app_r, Nat.add_0_r. Qed.

Lemma inserts_before_app l1 l2 bs k : (k + length bs <= length l1)%nat ->
  list_inserts k bs (l1 ++ l2) = list_inserts k bs l1 ++ l2.
Proof.
  intros Hl. apply list_eq. intros j.
  destruct (decide (j < length l1)%nat).
  - rewrite lookup_app_l by (rewrite length_inserts; lia).
    rewrite !lookup_inserts_dec, length_app, lookup_app_l by lia.
    repeat case_decide; done || lia.
  - rewrite lookup_app_r by (rewrite length_inserts; lia).
    rewrite lookup_inserts_dec, decide_False, lookup_app_r, length_inserts by lia.
    done.
Qed.
Lemma take_inserts_app (n : nat) (src l : list A) : (n + length src <= length l)%nat ->
  take (n + length src) (list_inserts n src l) = take n l ++ src.
Proof.
  intros Hn. apply list_eq. intros j. destruct (decide (j < n + length src)%nat).
  - rewrite lookup_take_lt by done. rewrite lookup_inserts_dec.
    destruct (decide (j < n)%nat).
    + rewrite decide_False by lia. rewrite lookup_app_l by (rewrite length_take; lia).
      by rewrite lookup_take_lt.
    + rewrite decide_True by lia.
      rewrite decide_True by lia.
      rewrite lookup_app_r, length_take by (rewrite length_take; lia). f_equal. lia.
  - rewrite !lookup_ge_None_2; [done|rewrite length_app, length_take; lia|].
    rewrite length_take. lia.
Qed.
End arrays.

(** * Outcomes of code that may loop

    [Undefined] is undefined behaviour; [OutOfFuel] says that the bound on the
    number of steps was too small. *)
Inductive outcome (A : Type) :=
| Done (a : A)
| Undefined
| OutOfFuel.
Arguments Done {A} a.
Arguments Undefined {A}.
Arguments OutOfFuel {A}.

#[export] Instance outcome_ret : MRet outcome := @Done.
#[export] Instance outcome_bind : MBind outcome := fun A B f m =>
  match m with Done a => f a | Undefined => Undefined | OutOfFuel => OutOfFuel end.

(** An access of the code: outside of the array it is undefined. *)
Definition access {A} (x : option A) : outcome A :=
  match x with Some a => Done a | None => Undefined end.

(** * Little-endian integers, as the compiler lays them out in memory *)
Fixpoint le_bytes (n : nat) (v : Z) : list Z :=
  match n with
  | O => []
  | S n => v mod 256 :: le_bytes n (v / 256)
  end.

Fixpoint le_val (bs : list Z) : Z :=
  match bs with
  | [] => 0
  | b :: bs => b + 256 * le_val bs
  end.

(** A list of bytes. *)
Definition bytes (l : list Z) : Prop := Forall (fun b => 0 <= b < 256) l.

Lemma le_bytes_length n v : length (le_bytes n v) = n.
Proof. revert v. induction n; intros; simpl; auto. Qed.

Lemma le_bytes_bytes n v : bytes (le_bytes n v).
Proof.
  revert v. induction n; intros v; simpl; constructor; [|apply IHn].
  by apply Z.mod_pos_bound.
Qed.

Lemma le_val_bytes n v : 0 <= v < 256 ^ Z.of_nat n -> le_val (le_bytes n v) = v.
Proof.
  revert v. induction n as [|n IH]; intros v Hv; simpl le_bytes; simpl le_val.
  - change (256 ^ Z.of_nat 0) with 1 in Hv. lia.
  - rewrite Nat2Z.inj_succ, Z.pow_succ_r in Hv by lia.
    rewrite IH by (split; [apply Z.div_pos | apply Z.div_lt_upper_bound]; lia).
    pose proof (Z.div_mod v 256). lia.
Qed.

Lemma le_val_mod n v : le_val (le_bytes n v) = v mod 256 ^ Z.of_nat n.
Proof.
  revert v. induction n as [|n IH]; intros v; [by rewrite Z.mod_1_r|]. cbn [le_bytes le_val].
  rewrite IH, Nat2Z.inj_succ, Z.pow_succ_r, Z.rem_mul_r by lia. done.
Qed.

Lemma le_val_range bs : bytes bs -> 0 <= le_val bs < 256 ^ zlen bs.
Proof.
  induction 1 as [|b bs Hb _ IH]; simpl le_val; simpl length.
  - change (256 ^ Z.of_nat 0) with 1. lia.
  - rewrite Nat2Z.inj_succ, Z.pow_succ_r by lia. lia.
Qed.

Lemma le_bytes_val bs : bytes bs -> le_bytes (length bs) (le_val bs) = bs.
Proof.
  induction 1 as [|b bs Hb Hbs IH]; simpl; [done|].
  rewrite (Z.mul_comm 256), Z.mod_add, Z.div_add, Z.mod_small, Z.div_small by lia.
  by rewrite Z.add_0_l, IH.
Qed.

Lemma bytes_lookup l i b : bytes l -> l !! i = Some b -> 0 <= b < 256.
Proof. intros Hl. by apply (Forall_lookup_1 _ _ _ _ Hl). Qed.

(** The bits of a number below a power of two. *)
Lemma testbit_above v k n : 0 <= v < 2 ^ k -> k <= n -> Z.testbit v n = false.
Proof.
  intros Hv Hn. destruct (decide (v = 0)) as [->|]; [apply Z.bits_0|].
  apply Z.bits_above_log2; [lia|]. apply Z.lt_le_trans with k; [|done].
  apply Z.log2_lt_pow2; lia.
Qed.

Lemma lor_bound a b k : 0 <= k -> 0 <= a < 2 ^ k -> 0 <= b < 2 ^ k -> 0 <= Z.lor a b < 2 ^ k.
Proof.
  intros Hk Ha Hb. replace (Z.lor a b) with (Z.lor a b mod 2 ^ k).
  { apply Z.mod_pos_bound. apply Z.pow_pos_nonneg; lia. }
  apply Z.bits_inj'. intros n Hn. destruct (decide (n < k)).
  - by rewrite Z.mod_pow2_bits_low by lia.
  - rewrite Z.mod_pow2_bits_high, Z.lor_spec by lia.
    by rewrite !(testbit_above _ k n) by lia.
Qed.

(** A bit of a little-endian integer is a bit of one of its bytes. *)
Lemma le_val_testbit l n : bytes l -> 0 <= n ->
  Z.testbit (le_val l) n = Z.testbit (nth (Z.to_nat (n / 8)) l 0) (n mod 8).
Proof.
  intros Hl. revert n. induction Hl as [|b l Hb Hl IH]; intros n Hn; simpl le_val.
  { rewrite Z.bits_0. destruct (Z.to_nat (n / 8)); by rewrite Z.bits_0. }
  replace (b + 256 * le_val l) with (Z.lor b (Z.shiftl (le_val l) 8)).
  2:{ rewrite Z.shiftl_mul_pow2 by lia. pose proof (Z.add_lor_land b (le_val l * 2 ^ 8)) as H.
      replace (Z.land b (le_val l * 2 ^ 8)) with 0 in H; [lia|].
      symmetry. apply Z.bits_inj'. intros i Hi.
      rewrite Z.land_spec, Z.bits_0, Z.mul_pow2_bits by lia.
      destruct (decide (i < 8)); [rewrite (Z.testbit_neg_r _ (i - 8)) by lia; apply andb_false_r|].
      by rewrite (testbit_above b 8 i) by lia. }
  rewrite Z.lor_spec, Z.shiftl_spec by done. destruct (decide (n < 8)).
  - rewrite Z.div_small, Z.mod_small, (Z.testbit_neg_r _ (n - 8)), orb_false_r by lia. done.
  - rewrite (testbit_above b 8 n), IH by lia.
    replace (n / 8) with ((n - 8) / 8 + 1) by zlia.
    replace (n mod 8) with ((n - 8) mod 8) by zlia.
    rewrite Z2Nat.inj_add, Nat.add_1_r by zlia. done.
Qed.

(** The [w]-bit field of [x] at bit [o]. *)
Lemma field_testbit x o w j : 0 <= o -> 0 <= j -> 0 <= w ->
  Z.testbit (x / 2 ^ o mod 2 ^ w) j = (j <? w) && Z.testbit x (o + j).
Proof.
  intros Ho Hj Hw. destruct (Z.ltb_spec j w).
  - rewrite Z.mod_pow2_bits_low, Z.div_pow2_bits by lia. simpl. f_equal. lia.
  - by rewrite Z.mod_pow2_bits_high by lia.
Qed.

#[export] Hint Resolve le_bytes_bytes le_bytes_length : wrap.
