(* ===== verification/RingBuffer.v ===== *)
(** The ring buffers of libraries/AP_HAL/utility/RingBuffer.{h,cpp}:
    [ByteBuffer], the queue of bytes under every UART driver of the HALs;
    [ObjectBuffer], fixed-size objects over a [ByteBuffer]; and
    [ObjectArray], an indexable queue of objects.

    A pointer into the storage of a buffer is its offset.  [None] is undefined
    behaviour of the C++ code: a [memcpy] outside the storage, or the
    remainder by a zero [size]. *)
From S2P Require Import Prelude.

(** * ByteBuffer *)
Module ByteBuffer.

Record t := mk {
  buf : list Z;
  size : Z;
  head : Z;   (* where to read data *)
  tail : Z    (* where to write data *)
}.

(** [struct IoVec]: [data] is the offset of the pointer in [buf]. *)
Record IoVec := iovec { data : Z; len : Z }.

Definition set_head (b : t) (h : Z) : t := mk (buf b) (size b) h (tail b).
Definition set_tail (b : t) (x : Z) : t := mk (buf b) (size b) (head b) x.
Definition set_buf (b : t) (l : list Z) : t := mk l (size b) (head b) (tail b).

(** The constructor; [alloc] says whether [calloc] returned memory. *)
Definition create (alloc : bool) (_size : Z) : t :=
  if alloc then mk (replicate (Z.to_nat _size) 0) _size 0 0
  else mk [] 0 0 0.

Definition set_size (alloc : bool) (_size : Z) (b : t) : bool * t :=
  if negb (_size =? size b) then
    if alloc
    then (true, mk (replicate (Z.to_nat _size) 0) _size 0 0)
    else (false, mk [] 0 0 0)
  else (true, mk (buf b) (size b) 0 0).

Definition available (b : t) : Z :=
  if head b >? tail b
  then u32 (u32 (size b - head b) + tail b)
  else u32 (tail b - head b).

Definition clear (b : t) : t := mk (buf b) (size b) 0 0.

Definition space (b : t) : Z :=
  if size b =? 0 then 0
  else
    let ret := if head b <=? tail b then size b else 0 in
    u32 (ret + u32 (u32 (head b - tail b) - 1)).

Definition empty (b : t) : bool := head b =? tail b.

(** [reserve]: the parts of the storage where [len] bytes may be written. *)
Definition reserve (b : t) (n : Z) : list IoVec :=
  let sp := space b in
  let n := if n >? sp then sp else n in
  if n =? 0 then []
  else
    let first := u32 (size b - tail b) in
    if n <=? first then [iovec (tail b) n]
    else [iovec (tail b) first; iovec 0 (u32 (n - first))].

(** [x % size] on [uint32_t], undefined for a zero [size]. *)
Definition rem_size (b : t) (x : Z) : option Z :=
  if size b =? 0 then None else Some (u32 x mod size b).

Definition commit (b : t) (n : Z) : option (bool * t) :=
  if n >? space b then Some (false, b)
  else
    x ← rem_size b (tail b + n);
    Some (true, set_tail b x).

(** The loop of [write] over the reserved parts: [ret] bytes of [d] are
    already stored. *)
Fixpoint write_vec (l : list Z) (d : list Z) (ret : Z) (vec : list IoVec)
  : option (list Z * Z) :=
  match vec with
  | [] => Some (l, ret)
  | v :: vec =>
    src ← blk_get d ret (len v);
    l ← blk_set l (data v) src;
    write_vec l d (u32 (ret + len v)) vec
  end.

Definition write (b : t) (d : list Z) : option (Z * t) :=
  '(l, ret) ← write_vec (buf b) d 0 (reserve b (zlen d));
  '(_, b) ← commit (set_buf b l) ret;
  Some (ret, b).

(** [update]: bytes at the read pointer, without popping them. *)
Definition update (b : t) (d : list Z) : option (bool * t) :=
  let n := zlen d in
  if n >? available b then Some (false, b)
  else
    let first := u32 (size b - head b) in
    let first := if first >? n then n else first in
    src ← blk_get d 0 first;
    l ← blk_set (buf b) (head b) src;
    if n >? first then
      src ← blk_get d first (u32 (n - first));
      l ← blk_set l 0 src;
      Some (true, set_buf b l)
    else Some (true, set_buf b l).

Definition advance (b : t) (n : Z) : option (bool * t) :=
  if n >? available b then Some (false, b)
  else
    x ← rem_size b (head b + n);
    Some (true, set_head b x).

(** [readptr]: the length of the contiguous data at the read pointer. *)
Definition readptr (b : t) : Z :=
  if head b >? tail b then u32 (size b - head b) else u32 (tail b - head b).

Definition peekiovec (b : t) (n : Z) : list IoVec :=
  let av := available b in
  let n := if n >? av then av else n in
  if n =? 0 then []
  else
    let first := readptr b in
    let first := if first >? n then n else first in
    if n <=? first then [iovec (head b) first]
    else [iovec (head b) first; iovec 0 (u32 (n - first))].

(** The loop of [peekbytes]: [acc] is what is already copied out. *)
Fixpoint peek_vec (l : list Z) (acc : list Z) (vec : list IoVec)
  : option (list Z) :=
  match vec with
  | [] => Some acc
  | v :: vec =>
    src ← blk_get l (data v) (len v);
    peek_vec l (acc ++ src) vec
  end.

Definition peekbytes (b : t) (n : Z) : option (list Z) :=
  peek_vec (buf b) [] (peekiovec b n).

Definition read (b : t) (n : Z) : option (list Z * t) :=
  d ← peekbytes b n;
  '(_, b) ← advance b (zlen d);
  Some (d, b).

(** [peek] returns the byte, or -1. *)
Definition peek (b : t) (ofs : Z) : option Z :=
  if ofs >=? available b then Some (-1)
  else
    x ← rem_size b (head b + ofs);
    arr_get (buf b) x.

Definition read_byte (b : t) : option (option Z * t) :=
  ret ← peek b 0;
  if ret <? 0 then Some (None, b)
  else
    '(ok, b) ← advance b 1;
    Some (if (ok : bool) then (Some ret, b) else (None, b)).

(** ** Invariant and contents *)

(** A buffer with storage; offsets are kept below [size], and a sum of
    two of them does not wrap a [uint32_t]. *)
Record wf (b : t) : Prop := {
  wf_size : 0 < size b <= 2147483648;
  wf_buf : zlen (buf b) = size b;
  wf_head : 0 <= head b < size b;
  wf_tail : 0 <= tail b < size b
}.

(** The abstract queue: the bytes written and not yet read, oldest first. *)
Definition contents (b : t) : list Z :=
  take (Z.to_nat (available b)) (drop (Z.to_nat (head b)) (buf b ++ buf b)).

(** ** Lemmas *)

Lemma available_eq b : wf b ->
  available b = if head b <=? tail b then tail b - head b
                else size b - head b + tail b.
Proof.
  intros [Hs _ Hh Ht]. unfold available. zcases; try lia; wrap_simpl; lia.
Qed.

Lemma available_range b : wf b -> 0 <= available b < size b.
Proof. intros H. rewrite available_eq by done. destruct H. zcases; lia. Qed.

Lemma space_available b : wf b -> space b + available b = size b - 1.
Proof.
  intros H. rewrite available_eq by done. destruct H as [Hs _ Hh Ht].
  unfold space. zcases; try lia.
  - unfold u32. zlia.
  - unfold u32. zlia.
Qed.

Lemma space_range b : wf b -> 0 <= space b < size b.
Proof.
  intros H. pose proof (space_available b H). pose proof (available_range b H).
  lia.
Qed.

Lemma rem_size_wf b x : wf b -> 0 <= x < 2 * size b ->
  rem_size b x = Some (if x <? size b then x else x - size b).
Proof.
  intros [Hs _ _ _] Hx. unfold rem_size.
  rewrite (proj2 (Z.eqb_neq _ _)), u32_small, mod_wrap by lia. done.
Qed.

Lemma contents_length b : wf b -> zlen (contents b) = available b.
Proof.
  intros H. pose proof (available_range b H). destruct H as [_ Hb Hh _].
  unfold contents. rewrite length_take, length_drop, length_app. lia.
Qed.

Lemma contents_lookup b i : wf b ->
  contents b !! i =
    if decide (Z.of_nat i < available b)
    then buf b !! (if decide (head b + Z.of_nat i < size b)
                   then Z.to_nat (head b + Z.of_nat i)
                   else Z.to_nat (head b + Z.of_nat i - size b))
    else None.
Proof.
  intros H. pose proof (available_range b H). destruct H as [_ Hb Hh _].
  unfold contents. case_decide as Ha.
  - rewrite lookup_take_lt, lookup_drop by lia. case_decide.
    + rewrite lookup_app_l by lia. f_equal; lia.
    + rewrite lookup_app_r by lia. f_equal; lia.
  - apply lookup_take_ge. lia.
Qed.

Lemma contents_ext b l : wf b -> zlen l = available b ->
  (forall i, Z.of_nat i < available b ->
     l !! i = buf b !! (if decide (head b + Z.of_nat i < size b)
                        then Z.to_nat (head b + Z.of_nat i)
                        else Z.to_nat (head b + Z.of_nat i - size b))) ->
  contents b = l.
Proof.
  intros H Hl Hi. apply list_eq. intros i. rewrite contents_lookup by done.
  case_decide.
  - symmetry. by apply Hi.
  - symmetry. apply lookup_ge_None_2. lia.
Qed.

(** What the storage holds after [n] bytes of [d] were stored at the write
    pointer, wrapping around the end of the storage. *)
Definition stored (b : t) (d : list Z) (n : Z) (l : list Z) : Prop :=
  zlen l = size b /\
  forall k, Z.of_nat k < size b ->
    l !! k = if decide (tail b <= Z.of_nat k < tail b + n)
             then d !! Z.to_nat (Z.of_nat k - tail b)
             else if decide (Z.of_nat k + size b < tail b + n)
             then d !! Z.to_nat (Z.of_nat k + size b - tail b)
             else buf b !! k.

Ltac lookups :=
  repeat first
    [ rewrite lookup_inserts_dec | rewrite length_inserts
    | rewrite length_take | rewrite length_drop
    | rewrite lookup_take_lt by lia
    | rewrite lookup_drop ].

Lemma write_vec_spec b d n : wf b -> zlen d < 4294967296 ->
  n = Z.min (zlen d) (space b) ->
  exists l, write_vec (buf b) d 0 (reserve b (zlen d)) = Some (l, n) /\
            stored b d n l.
Proof.
  intros H Hd Hn. pose proof (space_range b H) as Hsp.
  destruct H as [Hs Hb Hh Ht]. unfold reserve.
  replace (if zlen d >? space b then space b else zlen d) with n
    by (zcases; lia).
  rewrite u32_small by lia.
  destruct (Z.eqb_spec n 0) as [Hn0|Hn0];
    [|destruct (Z.leb_spec n (size b - tail b))]; cbn [write_vec len data].
  - exists (buf b). split; [by rewrite Hn0|]. split; [done|]. intros k Hk.
    rewrite !decide_False by lia. done.
  - rewrite blk_get_Some by lia. cbn [mbind option_bind].
    rewrite blk_set_Some by (lookups; lia). cbn [mbind option_bind].
    rewrite u32_small by lia. eexists; split; [done|].
    split; [lookups; lia|]. intros k Hk. lookups.
    repeat case_decide; try lia; try done.
    rewrite lookup_take_lt, lookup_drop by lia. f_equal. lia.
  - wrap_simpl. rewrite !blk_get_Some by lia. cbn [mbind option_bind].
    rewrite blk_set_Some by (lookups; lia). cbn [mbind option_bind].
    rewrite blk_set_Some by (lookups; lia). cbn [mbind option_bind].
    eexists; split; [do 2 f_equal; lia|].
    split; [lookups; lia|]. intros k Hk. lookups.
    repeat case_decide; try lia; try done;
      rewrite lookup_take_lt, lookup_drop by lia; f_equal; lia.
Qed.

Lemma commit_spec b l n : wf b -> zlen l = size b -> 0 <= n <= space b ->
  exists b', commit (set_buf b l) n = Some (true, b') /\ wf b' /\
    size b' = size b /\ head b' = head b /\ buf b' = l /\
    available b' = available b + n /\
    tail b' = (if tail b + n <? size b then tail b + n
               else tail b + n - size b).
Proof.
  intros H Hl Hn. pose proof (space_available b H) as Hsa.
  assert (Hb' : wf (set_buf b l)) by (by destruct H; constructor).
  pose proof (space_range b H). unfold commit.
  change (space (set_buf b l)) with (space b).
  rewrite Z.gtb_ltb, (proj2 (Z.ltb_ge _ _)) by lia.
  pose proof (wf_tail b H). rewrite rem_size_wf by (try done; simpl; lia).
  cbn [mbind option_bind]. eexists. split; [done|]. simpl.
  assert (Hw : wf (set_tail (set_buf b l)
    (if tail b + n <? size b then tail b + n else tail b + n - size b))).
  { destruct H; constructor; simpl; try done. zcases; lia. }
  split; [done|]. repeat split; try done.
  revert Hsa. rewrite (available_eq b H), (available_eq _ Hw). simpl.
  destruct H. zcases; lia.
Qed.

Lemma write_spec b d : wf b -> zlen d < 4294967296 ->
  exists b', write b d = Some (Z.min (zlen d) (space b), b') /\ wf b' /\
    size b' = size b /\
    contents b' = contents b ++ take (Z.to_nat (space b)) d.
Proof.
  intros H Hd. set (n := Z.min (zlen d) (space b)).
  pose proof (space_range b H). pose proof (space_available b H).
  destruct (write_vec_spec b d n) as (l & Hw & Hl & Hk); [done..|].
  destruct (commit_spec b l n) as (b' & Hc & Hwf & Hs & Hh & Hb & Ha & Ht);
    [done|done|lia|].
  exists b'. unfold write. rewrite Hw. cbn [mbind option_bind].
  rewrite Hc. cbn [mbind option_bind]. split; [done|]. split; [done|].
  split; [done|].
  apply contents_ext; [done|..].
  { rewrite length_app, length_take. pose proof (contents_length b H). lia. }
  intros i Hi. rewrite Ha in Hi. rewrite Hh, Hs, Hb.
  pose proof (contents_length b H) as Hcl. pose proof (available_eq b H) as Hav.
  destruct H as [Hsz Hbl Hhd Htl].
  destruct (decide (Z.of_nat i < available b)).
  - rewrite lookup_app_l by lia. rewrite contents_lookup by done.
    rewrite decide_True by lia. revert Hav. zcases; intros;
    repeat case_decide; rewrite Hk by lia; rewrite !decide_False by lia; done.
  - rewrite lookup_app_r, lookup_take_lt by lia.
    revert Hav. zcases; intros; repeat case_decide; rewrite Hk by lia;
      repeat case_decide; try lia; f_equal; lia.
Qed.

(** The two parts that [peekiovec] returns cover the first [m] bytes. *)
Lemma peek_vec_spec b m first : wf b -> 0 < m <= available b ->
  first = Z.min m (if head b <=? tail b then available b else size b - head b) ->
  exists l,
    peek_vec (buf b) []
      (if m <=? first then [iovec (head b) first]
       else [iovec (head b) first; iovec 0 (u32 (m - first))]) = Some l /\
    zlen l = m /\ forall i, Z.of_nat i < m -> l !! i = contents b !! i.
Proof.
  intros H Hm Hf. pose proof (available_range b H) as Har.
  pose proof (available_eq b H) as Hav. pose proof H as [Hs Hb Hh Ht].
  assert (Hfb : 0 <= first <= m /\ head b + first <= size b /\
                m - first <= size b /\ (first < m -> head b + first = size b)).
  { revert Hf Hav. zcases; lia. }
  destruct (blk_get_spec (buf b) (head b) first) as (r & Hr & Hrl & Hri);
    [lia..|].
  destruct (Z.leb_spec m first); cbn [peek_vec len data]; rewrite Hr;
    cbn [mbind option_bind app].
  - exists r. split; [done|]. split; [lia|]. intros i Hi.
    rewrite Hri, contents_lookup, decide_True by (done || lia).
    rewrite decide_True by lia. done.
  - rewrite u32_small by lia.
    destruct (blk_get_spec (buf b) 0 (m - first)) as (r2 & Hr2 & Hrl2 & Hri2);
      [lia..|].
    rewrite Hr2. cbn [mbind option_bind app]. exists (r ++ r2).
    split; [done|]. split; [rewrite length_app; lia|]. intros i Hi.
    rewrite contents_lookup, decide_True by (done || lia).
    destruct (decide (Z.of_nat i < first)).
    + rewrite lookup_app_l, Hri, decide_True by lia. done.
    + rewrite lookup_app_r, Hri2, decide_False by lia. f_equal. lia.
Qed.

Lemma readptr_eq b : wf b ->
  readptr b = if head b <=? tail b then available b else size b - head b.
Proof.
  intros H. rewrite available_eq by done. destruct H. unfold readptr.
  zcases; try lia; wrap_simpl; lia.
Qed.

Lemma peekbytes_spec b n : wf b -> 0 <= n < 4294967296 ->
  peekbytes b n = Some (take (Z.to_nat n) (contents b)).
Proof.
  intros H Hn. pose proof (available_range b H) as Har.
  pose proof (contents_length b H) as Hcl.
  pose proof (available_eq b H) as Hav.
  unfold peekbytes, peekiovec.
  set (m := if n >? available b then available b else n).
  assert (Hm : m = Z.min n (available b)) by (unfold m; zcases; lia).
  clearbody m. destruct (Z.eqb_spec m 0) as [Hm0|Hm0].
  { cbn [peek_vec]. destruct (decide (n = 0)) as [->|]; [done|].
    destruct (contents b); [by rewrite take_nil|simpl in *; lia]. }
  destruct (peek_vec_spec b m (if readptr b >? m then m else readptr b))
    as (l & Hl & Hlen & Hi); [done|lia| |].
  { rewrite readptr_eq by done. zcases; lia. }
  rewrite Hl. f_equal. apply list_eq. intros i.
  destruct (decide (Z.of_nat i < m)).
  - rewrite lookup_take_lt by lia. by apply Hi.
  - rewrite lookup_ge_None_2 by lia. symmetry. apply lookup_ge_None_2.
    rewrite length_take. lia.
Qed.

Lemma advance_spec b n : wf b -> 0 <= n <= available b ->
  exists b', advance b n = Some (true, b') /\ wf b' /\ size b' = size b /\
    contents b' = drop (Z.to_nat n) (contents b).
Proof.
  intros H Hn. pose proof (available_range b H) as Har.
  pose proof (contents_length b H) as Hcl.
  pose proof (available_eq b H) as Hav. pose proof (wf_head b H) as Hhd.
  unfold advance. rewrite Z.gtb_ltb, (proj2 (Z.ltb_ge _ _)) by lia.
  rewrite rem_size_wf by (done || lia). cbn [mbind option_bind].
  set (h := if head b + n <? size b then head b + n else head b + n - size b).
  assert (Hw : wf (set_head b h)).
  { destruct H; constructor; simpl; try done. unfold h. zcases; lia. }
  assert (Ha : available (set_head b h) = available b - n).
  { rewrite (available_eq _ Hw), Hav. simpl. unfold h. destruct H.
    revert Hav. zcases; lia. }
  eexists. split; [done|]. split; [done|]. split; [done|].
  apply contents_ext; [done|rewrite length_drop; lia|].
  intros i Hi. rewrite Ha in Hi. rewrite lookup_drop, contents_lookup by done.
  rewrite decide_True by lia. simpl. unfold h. destruct H.
  destruct (Z.ltb_spec (head b + n) (size b));
    repeat case_decide; try lia; f_equal; lia.
Qed.

Lemma advance_fail b n : available b < n -> advance b n = Some (false, b).
Proof.
  intros H. unfold advance. by rewrite Z.gtb_ltb, (proj2 (Z.ltb_lt _ _)) by lia.
Qed.

Lemma read_spec b n : wf b -> 0 <= n < 4294967296 ->
  exists b', read b n = Some (take (Z.to_nat n) (contents b), b') /\ wf b' /\
    size b' = size b /\ contents b' = drop (Z.to_nat n) (contents b).
Proof.
  intros H Hn. pose proof (contents_length b H) as Hcl.
  unfold read. rewrite peekbytes_spec by done. cbn [mbind option_bind].
  destruct (advance_spec b (zlen (take (Z.to_nat n) (contents b))))
    as (b' & Hadv & Hw & Hs & Hc); [done|rewrite length_take; lia|].
  rewrite Hadv. cbn [mbind option_bind]. exists b'.
  split; [done|]. split; [done|]. split; [done|]. rewrite Hc, length_take.
  destruct (decide (n <= available b)).
  - f_equal. lia.
  - rewrite !drop_ge by lia. done.
Qed.

Lemma peek_spec b ofs : wf b -> 0 <= ofs < 4294967296 ->
  peek b ofs = Some (default (-1) (contents b !! Z.to_nat ofs)).
Proof.
  intros H Ho. pose proof (available_range b H) as Har.
  unfold peek. rewrite Z.geb_leb, contents_lookup by done.
  destruct (Z.leb_spec (available b) ofs).
  - rewrite decide_False by lia. done.
  - rewrite decide_True by lia. pose proof (wf_head b H).
    rewrite rem_size_wf by (done || lia). cbn [mbind option_bind].
    destruct H as [Hs Hb Hh Ht].
    destruct (Z.ltb_spec (head b + ofs) (size b)).
    + rewrite arr_get_lookup, decide_True by lia. rewrite Z2Nat.id by lia.
      destruct (buf b !! Z.to_nat (head b + ofs)) eqn:E; [done|].
      apply lookup_ge_None_1 in E. lia.
    + rewrite arr_get_lookup, decide_False by lia. rewrite Z2Nat.id by lia.
      destruct (buf b !! Z.to_nat (head b + ofs - size b)) eqn:E; [done|].
      apply lookup_ge_None_1 in E. lia.
Qed.

(** What the storage holds after the front of the queue was overwritten
    by [d]. *)
Lemma update_contents b d l : wf b -> zlen d <= available b ->
  zlen l = size b ->
  (forall k, Z.of_nat k < size b ->
    l !! k = if decide (head b <= Z.of_nat k < head b + zlen d)
             then d !! Z.to_nat (Z.of_nat k - head b)
             else if decide (Z.of_nat k + size b < head b + zlen d)
             then d !! Z.to_nat (Z.of_nat k + size b - head b)
             else buf b !! k) ->
  wf (set_buf b l) /\ size (set_buf b l) = size b /\
  contents (set_buf b l) = d ++ drop (length d) (contents b).
Proof.
  intros H Hd Hl Hk. pose proof (available_range b H) as Har.
  pose proof (contents_length b H) as Hcl.
  pose proof (available_eq b H) as Hav. pose proof H as [Hs Hb Hh Ht].
  assert (Hw : wf (set_buf b l)) by (constructor; done).
  split; [done|]. split; [done|]. apply contents_ext; [done|..].
  { rewrite length_app, length_drop. change (available _) with (available b).
    lia. }
  change (available _) with (available b). simpl. intros i Hi.
  destruct (decide (Z.of_nat i < zlen d)).
  - rewrite lookup_app_l by lia.
    case_decide; rewrite Hk by lia; repeat case_decide; try lia; f_equal; lia.
  - rewrite lookup_app_r, lookup_drop, contents_lookup by done || lia.
    rewrite decide_True by lia.
    revert Hav. zcases; intros; repeat case_decide; try lia; rewrite Hk by lia;
      repeat case_decide; try lia; f_equal; lia.
Qed.

Lemma update_spec b d : wf b -> zlen d <= available b ->
  exists b', update b d = Some (true, b') /\ wf b' /\ size b' = size b /\
    contents b' = d ++ drop (length d) (contents b).
Proof.
  intros H Hd. pose proof (available_range b H) as Har.
  pose proof H as [Hs Hb Hh Ht].
  unfold update. rewrite Z.gtb_ltb, (proj2 (Z.ltb_ge _ _)) by lia.
  rewrite (u32_small (size b - head b)) by lia.
  set (first := if _ >? _ then _ else _).
  assert (Hf : first = Z.min (size b - head b) (zlen d))
    by (unfold first; zcases; lia).
  clearbody first.
  destruct (blk_get_spec d 0 first) as (r & Hr & Hrl & Hri); [lia..|].
  rewrite Hr. cbn [mbind option_bind]. rewrite blk_set_Some by lia.
  cbn [mbind option_bind]. rewrite Z.gtb_ltb.
  destruct (Z.ltb_spec first (zlen d)).
  - rewrite u32_small by lia.
    destruct (blk_get_spec d first (zlen d - first)) as (r2 & Hr2 & Hrl2 & Hri2);
      [lia..|].
    rewrite Hr2. cbn [mbind option_bind].
    rewrite blk_set_Some by (rewrite ?length_inserts; lia).
    cbn [mbind option_bind]. eexists; split; [done|].
    apply update_contents; try done; [by rewrite !length_inserts|].
    intros k Hk. rewrite !lookup_inserts_dec, !length_inserts.
    repeat case_decide; try lia; try done;
      rewrite ?Hri2, ?Hri by lia; f_equal; lia.
  - eexists; split; [done|].
    apply update_contents; try done; [by rewrite !length_inserts|].
    intros k Hk. rewrite !lookup_inserts_dec.
    repeat case_decide; try lia; try done;
      rewrite ?Hri by lia; f_equal; lia.
Qed.

Lemma empty_spec b : wf b -> empty b = bool_decide (contents b = []).
Proof.
  intros H. pose proof (contents_length b H) as Hl.
  rewrite available_eq in Hl by done. unfold empty.
  destruct (Z.eqb_spec (head b) (tail b)) as [E|E]; symmetry.
  - apply bool_decide_eq_true_2. destruct (contents b); [done|].
    revert Hl. zcases; simpl; lia.
  - apply bool_decide_eq_false_2. intros E2. rewrite E2 in Hl. destruct H.
    revert Hl. zcases; simpl; lia.
Qed.

Lemma set_size_wf alloc n b : 0 < n <= 2147483648 -> wf b ->
  (alloc = true \/ n = size b) ->
  fst (set_size alloc n b) = true /\ wf (snd (set_size alloc n b)) /\
  size (snd (set_size alloc n b)) = n /\
  contents (snd (set_size alloc n b)) = [].
Proof.
  intros Hn H Ha. unfold set_size.
  destruct (Z.eqb_spec n (size b)) as [->|Hne]; cbn [negb].
  - simpl. destruct H. split; [done|]. split; [|done]. constructor; simpl; lia.
  - destruct Ha as [->|]; [|done]. simpl. split; [done|]. split; [|done].
    constructor; simpl; rewrite ?length_replicate; lia.
Qed.

End ByteBuffer.

(** * The interface of a byte queue

    What [ByteBuffer] promises to its clients. *)
Class ByteQueue (Q : Type) := {
  bq_available : Q -> Z;
  bq_space : Q -> Z;
  bq_empty : Q -> bool;
  bq_clear : Q -> Q;
  bq_write : Q -> list Z -> option (Z * Q);
  bq_read : Q -> Z -> option (list Z * Q);
  bq_peekbytes : Q -> Z -> option (list Z);
  bq_advance : Q -> Z -> option (bool * Q);
  bq_update : Q -> list Z -> option (bool * Q);
  bq_wf : Q -> Prop;
  bq_contents : Q -> list Z;
  bq_capacity : Q -> Z
}.

Class ByteQueueLaws (Q : Type) `{ByteQueue Q} : Prop := {
  bq_capacity_law q : bq_wf q -> 0 <= bq_capacity q < 2147483648;
  bq_available_law q : bq_wf q -> bq_available q = zlen (bq_contents q);
  bq_space_law q : bq_wf q ->
    0 <= bq_space q /\ bq_space q = bq_capacity q - zlen (bq_contents q);
  bq_empty_law q : bq_wf q -> bq_empty q = bool_decide (bq_contents q = []);
  bq_clear_law q : bq_wf q ->
    bq_wf (bq_clear q) /\ bq_capacity (bq_clear q) = bq_capacity q /\
    bq_contents (bq_clear q) = [];
  bq_write_law q d : bq_wf q -> zlen d < 4294967296 ->
    exists q', bq_write q d = Some (Z.min (zlen d) (bq_space q), q') /\
      bq_wf q' /\ bq_capacity q' = bq_capacity q /\
      bq_contents q' = bq_contents q ++ take (Z.to_nat (bq_space q)) d;
  bq_read_law q n : bq_wf q -> 0 <= n < 4294967296 ->
    exists q', bq_read q n = Some (take (Z.to_nat n) (bq_contents q), q') /\
      bq_wf q' /\ bq_capacity q' = bq_capacity q /\
      bq_contents q' = drop (Z.to_nat n) (bq_contents q);
  bq_peekbytes_law q n : bq_wf q -> 0 <= n < 4294967296 ->
    bq_peekbytes q n = Some (take (Z.to_nat n) (bq_contents q));
  bq_advance_law q n : bq_wf q -> 0 <= n <= bq_available q ->
    exists q', bq_advance q n = Some (true, q') /\ bq_wf q' /\
      bq_capacity q' = bq_capacity q /\
      bq_contents q' = drop (Z.to_nat n) (bq_contents q);
  bq_advance_fail_law q n : bq_available q < n ->
    bq_advance q n = Some (false, q);
  bq_update_law q d : bq_wf q -> zlen d <= bq_available q ->
    exists q', bq_update q d = Some (true, q') /\ bq_wf q' /\
      bq_capacity q' = bq_capacity q /\
      bq_contents q' = d ++ drop (length d) (bq_contents q)
}.

#[export] Instance ByteBuffer_queue : ByteQueue ByteBuffer.t := {
  bq_available := ByteBuffer.available;
  bq_space := ByteBuffer.space;
  bq_empty := ByteBuffer.empty;
  bq_clear := ByteBuffer.clear;
  bq_write := ByteBuffer.write;
  bq_read := ByteBuffer.read;
  bq_peekbytes := ByteBuffer.peekbytes;
  bq_advance := ByteBuffer.advance;
  bq_update := ByteBuffer.update;
  bq_wf := ByteBuffer.wf;
  bq_contents := ByteBuffer.contents;
  bq_capacity q := ByteBuffer.size q - 1
}.

#[export] Instance ByteBuffer_queue_laws : ByteQueueLaws ByteBuffer.t.
Proof.
  constructor; simpl.
  - intros q H. destruct H. lia.
  - intros q H. by rewrite ByteBuffer.contents_length.
  - intros q H. rewrite ByteBuffer.contents_length by done.
    pose proof (ByteBuffer.space_available q H).
    pose proof (ByteBuffer.space_range q H). lia.
  - apply ByteBuffer.empty_spec.
  - intros q H. pose proof H as [Hs Hb Hh Ht].
    split; [constructor; simpl; lia|]. done.
  - intros q d H Hd. destruct (ByteBuffer.write_spec q d H Hd) as (q'&?&?&Hsz&?).
    exists q'. by rewrite Hsz.
  - intros q d H Hd. destruct (ByteBuffer.read_spec q d H Hd) as (q'&?&?&Hsz&?).
    exists q'. by rewrite Hsz.
  - apply ByteBuffer.peekbytes_spec.
  - intros q n H Hn. destruct (ByteBuffer.advance_spec q n H Hn) as (q'&?&?&Hsz&?).
    exists q'. by rewrite Hsz.
  - apply ByteBuffer.advance_fail.
  - intros q d H Hd. destruct (ByteBuffer.update_spec q d H Hd) as (q'&?&?&Hsz&?).
    exists q'. by rewrite Hsz.
Qed.

(** * ObjectBuffer

    The template over a [ByteBuffer]: [sizeofT] is [sizeof(T)], an object is
    the list of its bytes.  [size_t] has 32 bits. *)
Module ObjectBuffer.
Section object_buffer.
Context {Q : Type} `{HL : ByteQueueLaws Q} (sizeofT : Z).
Implicit Types (q : Q) (o : list Z) (os : list (list Z)) (k : Z).

Definition clear (q : Q) : Q := bq_clear q.
Definition available (q : Q) : Z := bq_available q / sizeofT.
Definition space (q : Q) : Z := bq_space q / sizeofT.
Definition empty (q : Q) : bool := bq_empty q.

Definition push (q : Q) (object : list Z) : option (bool * Q) :=
  if bq_space q <? sizeofT then Some (false, q)
  else
    '(n, q) ← bq_write q object;
    Some (n =? sizeofT, q).

(** [push(const T *object, uint32_t n)] *)
Definition push_n (q : Q) (objects : list (list Z)) : option (bool * Q) :=
  let bytes := u32 (zlen objects * sizeofT) in
  if bq_space q <? bytes then Some (false, q)
  else
    '(n, q) ← bq_write q (concat objects);
    Some (n =? bytes, q).

(** [pop(void)] *)
Definition discard (q : Q) : option (bool * Q) := bq_advance q sizeofT.

(** [pop(T &object)] *)
Definition pop (q : Q) : option (option (list Z) * Q) :=
  if bq_available q <? sizeofT then Some (None, q)
  else
    '(d, q) ← bq_read q sizeofT;
    Some (if zlen d =? sizeofT then Some d else None, q).

Definition push_force (q : Q) (object : list Z) : option (bool * Q) :=
  q ← (if bq_space q <? sizeofT
       then '(_, q) ← bq_advance q sizeofT; Some q
       else Some q);
  push q object.

(** [push_force(const T *object, uint32_t n)] *)
Definition push_force_n (q : Q) (objects : list (list Z)) : option (bool * Q) :=
  let n := zlen objects in
  let _space := bq_space q in
  q ← (if _space <? u32 (sizeofT * n)
       then '(_, q) ← bq_advance q (u32 (sizeofT * u32 (n - _space))); Some q
       else Some q);
  push_n q objects.

Definition peek (q : Q) : option (option (list Z)) :=
  d ← bq_peekbytes q sizeofT;
  Some (if zlen d =? sizeofT then Some d else None).

Definition update (q : Q) (object : list Z) : option (bool * Q) :=
  bq_update q object.

(** ** Abstraction: the queue [q] of capacity [k] objects holds [os]. *)
Record holds (k : Z) (q : Q) (os : list (list Z)) : Prop := mk_holds {
  holds_wf : bq_wf q;
  holds_cap : bq_capacity q = k * sizeofT;
  holds_bytes : bq_contents q = concat os;
  holds_size : Forall (fun o => zlen o = sizeofT) os
}.

Hypothesis sizeofT_pos : 0 < sizeofT.

Lemma concat_size os : Forall (fun o => zlen o = sizeofT) os ->
  zlen (concat os) = zlen os * sizeofT.
Proof.
  induction 1 as [|o os Ho _ IH]; [done|]. simpl concat. simpl length.
  rewrite length_app. lia.
Qed.

Lemma holds_space k q os : holds k q os ->
  0 <= bq_space q /\ bq_space q = (k - zlen os) * sizeofT /\
  bq_available q = zlen os * sizeofT /\ sizeofT * k < 2147483648 /\ zlen os <= k.
Proof.
  intros [Hw Hc Hb Hs]. pose proof (concat_size os Hs) as Hl.
  pose proof (bq_space_law q Hw). pose proof (bq_capacity_law q Hw).
  rewrite bq_available_law by done. rewrite Hb in *. nia.
Qed.

Lemma holds_available k q os : holds k q os ->
  available q = zlen os /\ space q = k - zlen os.
Proof.
  intros Hh. pose proof (holds_space k q os Hh) as (?&Hs&Ha&?&?).
  unfold available, space. rewrite Hs, Ha, !Z.div_mul by lia. done.
Qed.

Lemma push_room k q os o : holds k q os -> zlen o = sizeofT -> zlen os < k ->
  exists q', push q o = Some (true, q') /\ holds k q' (os ++ [o]).
Proof.
  intros Hh Ho Hk. pose proof (holds_space k q os Hh) as (?&Hs&Ha&?&?).
  destruct Hh as [Hw Hc Hb Hsz]. assert (sizeofT <= bq_space q) by nia.
  unfold push. rewrite (proj2 (Z.ltb_ge _ _)) by done.
  destruct (bq_write_law q o Hw) as (q' & Hq & Hw' & Hc' & Hb'); [nia|].
  rewrite Hq. cbn [mbind option_bind]. exists q'. split.
  { do 2 f_equal. apply Z.eqb_eq. lia. }
  constructor; [done|congruence| |by apply Forall_app; auto].
  rewrite Hb', Hb, concat_app, take_ge by lia. simpl. by rewrite app_nil_r.
Qed.

Lemma push_full k q os o : holds k q os -> k <= zlen os ->
  push q o = Some (false, q).
Proof.
  intros Hh Hk. pose proof (holds_space k q os Hh) as (?&Hs&Ha&?&?).
  unfold push. rewrite (proj2 (Z.ltb_lt _ _)); [done|nia].
Qed.

Lemma take_first o os : zlen o = sizeofT ->
  take (Z.to_nat sizeofT) (concat (o :: os)) = o /\
  drop (Z.to_nat sizeofT) (concat (o :: os)) = concat os.
Proof.
  intros Ho. simpl. rewrite <- Ho, Nat2Z.id.
  by rewrite take_app_length, drop_app_length.
Qed.

Lemma ob_discard_spec k q o os : holds k q (o :: os) ->
  exists q', discard q = Some (true, q') /\ holds k q' os.
Proof.
  intros Hh. pose proof (holds_space k q _ Hh) as (?&Hs&Ha&?&?).
  destruct Hh as [Hw Hc Hb Hsz]. apply Forall_cons_1 in Hsz as [Ho Hsz].
  simpl length in *.
  destruct (bq_advance_law q sizeofT Hw) as (q' & Hq & Hw' & Hc' & Hb'); [nia|].
  exists q'. split; [done|]. constructor; [done|congruence| |done].
  rewrite Hb', Hb. by apply (take_first o os).
Qed.

Lemma pop_spec k q os : holds k q os -> sizeofT < 4294967296 ->
  match os with
  | [] => pop q = Some (None, q)
  | o :: os' => exists q', pop q = Some (Some o, q') /\ holds k q' os'
  end.
Proof.
  intros Hh Hlt. pose proof (holds_space k q os Hh) as (?&Hs&Ha&?&?).
  destruct Hh as [Hw Hc Hb Hsz]. unfold pop. rewrite Ha.
  destruct os as [|o os]; simpl length.
  - rewrite (proj2 (Z.ltb_lt _ _)); [done|lia].
  - rewrite (proj2 (Z.ltb_ge _ _)) by nia.
    destruct (bq_read_law q sizeofT Hw) as (q' & Hq & Hw' & Hc' & Hb'); [lia|].
    apply Forall_cons_1 in Hsz as [Ho Hsz].
    destruct (take_first o os Ho) as [Ht Hd]. rewrite <- Hb in Ht, Hd.
    rewrite Hq, Ht. cbn [mbind option_bind].
    rewrite (proj2 (Z.eqb_eq _ _)) by done. exists q'. split; [done|].
    constructor; [done|congruence|congruence|done].
Qed.
End object_buffer.
End ObjectBuffer.

(** * ObjectArray *)
Module ObjectArray.
Section object_array.
Context {T : Type}.

Record t := mk {
  _buffer : list T;
  _size : Z;    (* total buffer size *)
  _count : Z;   (* number in buffer now *)
  _head : Z     (* first element *)
}.
Implicit Types (a : t) (x : T).

(** The constructor; [init] is what [new T\[size_\]] leaves in an element. *)
Definition create (init : T) (size_ : Z) : t :=
  mk (replicate (Z.to_nat size_) init) size_ 0 0.

Definition available a : Z := _count a.
Definition space a : Z := u16 (_size a - _count a).
Definition empty a : bool := _count a =? 0.
Definition clear a : t := mk (_buffer a) (_size a) 0 0.

(** [i % _size], undefined for a zero [_size]. *)
Definition slot a (i : Z) : option Z :=
  if _size a =? 0 then None else Some (i mod _size a).

Definition push a x : option (bool * t) :=
  if space a =? 0 then Some (false, a)
  else
    i ← slot a (_head a + _count a);
    l ← arr_set (_buffer a) i x;
    Some (true, mk l (_size a) (u16 (_count a + 1)) (_head a)).

(** [pop(void)] *)
Definition discard a : option (bool * t) :=
  if empty a then Some (false, a)
  else
    h ← slot a (_head a + 1);
    Some (true, mk (_buffer a) (_size a) (u16 (_count a - 1)) (u16 h)).

(** [pop(T &object)] *)
Definition pop a : option (option T * t) :=
  if empty a then Some (None, a)
  else
    x ← arr_get (_buffer a) (_head a);
    '(ok, a) ← discard a;
    Some (if (ok : bool) then Some x else None, a).

Definition push_force a x : option (bool * t) :=
  a ← (if space a =? 0 then '(_, a) ← discard a; Some a else Some a);
  push a x.

(** [operator\[\]]: [None] is [nullptr], [Some i] points to [_buffer\[i\]]. *)
Definition at_ a (i : Z) : option Z :=
  if i >=? _count a then None else slot a (_head a + i).

(** The loop of [remove]: [n] more elements to shift from index [i]. *)
Fixpoint shift (n : nat) a (i : Z) : option t :=
  match n with
  | O => Some a
  | S n =>
    dst ← at_ a i;
    src ← at_ a (i + 1);
    x ← arr_get (_buffer a) src;
    l ← arr_set (_buffer a) dst x;
    shift n (mk l (_size a) (_count a) (_head a)) (u16 (i + 1))
  end.

Definition remove a (n : Z) : option (bool * t) :=
  if n >=? _count a then Some (false, a)
  else if n =? _count a - 1 then
    Some (true, mk (_buffer a) (_size a) (u16 (_count a - 1)) (_head a))
  else if n =? 0 then discard a
  else
    a ← shift (Z.to_nat (_count a - 1 - n)) a n;
    Some (true, mk (_buffer a) (_size a) (u16 (_count a - 1)) (_head a)).

Record wf a : Prop := {
  wf_size : 0 <= _size a < 65536;
  wf_buffer : zlen (_buffer a) = _size a;
  wf_count : 0 <= _count a <= _size a;
  wf_head : 0 <= _head a < Z.max 1 (_size a)
}.

(** The position of the [i]-th object of the queue. *)
Definition pos a (i : Z) : Z :=
  if _head a + i <? _size a then _head a + i else _head a + i - _size a.

Definition contents a : list T :=
  take (Z.to_nat (_count a)) (drop (Z.to_nat (_head a)) (_buffer a ++ _buffer a)).

Lemma oa_contents_length a : wf a -> zlen (contents a) = _count a.
Proof.
  intros []. unfold contents. rewrite length_take, length_drop, length_app. lia.
Qed.

Lemma oa_contents_lookup a (i : nat) : wf a -> Z.of_nat i < _count a ->
  contents a !! i = _buffer a !! Z.to_nat (pos a (Z.of_nat i)).
Proof.
  intros [] Hi. unfold contents, pos.
  rewrite lookup_take_lt, lookup_drop by lia. zcases.
  - rewrite lookup_app_l by lia. f_equal. lia.
  - rewrite lookup_app_r by lia. f_equal. lia.
Qed.

Lemma oa_contents_ext a l : wf a -> zlen l = _count a ->
  (forall i : nat, Z.of_nat i < _count a ->
    l !! i = _buffer a !! Z.to_nat (pos a (Z.of_nat i))) ->
  contents a = l.
Proof.
  intros Hw Hl Hi. pose proof (oa_contents_length a Hw). apply list_eq. intros i.
  destruct (decide (Z.of_nat i < _count a)).
  - rewrite oa_contents_lookup by done. symmetry. by apply Hi.
  - rewrite !lookup_ge_None_2 by lia. done.
Qed.

Lemma slot_pos a i : wf a -> 0 < _size a -> 0 <= i <= _size a ->
  slot a (_head a + i) = Some (pos a i).
Proof.
  intros [] Hs Hi. unfold slot, pos.
  rewrite (proj2 (Z.eqb_neq _ _)), mod_wrap by lia. done.
Qed.

Lemma pos_range a i : wf a -> 0 < _size a -> 0 <= i < _size a ->
  0 <= pos a i < _size a.
Proof. intros [] Hs Hi. unfold pos. zcases; lia. Qed.

Lemma pos_inj a i j : wf a -> 0 <= i < _size a -> 0 <= j < _size a ->
  pos a i = pos a j -> i = j.
Proof. intros [] Hi Hj. unfold pos. zcases; lia. Qed.

Lemma space_eq a : wf a -> space a = _size a - _count a.
Proof. intros []. unfold space. apply u16_small. lia. Qed.

Lemma push_spec a x : wf a ->
  if _count a =? _size a then push a x = Some (false, a)
  else exists a', push a x = Some (true, a') /\ wf a' /\
         _size a' = _size a /\ contents a' = contents a ++ [x].
Proof.
  intros Hw. pose proof (oa_contents_length a Hw) as Hcl. pose proof Hw as [Hs Hb Hc Hh].
  unfold push. rewrite space_eq by done.
  destruct (Z.eqb_spec (_count a) (_size a)) as [E|E];
    destruct (Z.eqb_spec (_size a - _count a) 0); try lia; [done|].
  rewrite slot_pos by (done || lia). cbn [mbind option_bind].
  pose proof (pos_range a (_count a) Hw).
  rewrite arr_set_Some by lia. cbn [mbind option_bind].
  rewrite u16_small by lia. eexists; split; [done|].
  set (a' := mk _ _ _ _).
  assert (Hw' : wf a').
  { constructor; simpl; rewrite ?length_insert; lia. }
  split; [done|]. split; [done|].
  apply oa_contents_ext; [done|rewrite length_app; simpl; lia|].
  simpl. intros i Hi. change (pos a' (Z.of_nat i)) with (pos a (Z.of_nat i)).
  pose proof (pos_range a (Z.of_nat i) Hw).
  destruct (decide (Z.of_nat i = _count a)) as [Ei|Ei].
  - rewrite lookup_app_r, Ei by lia. rewrite list_lookup_insert_eq by lia.
    replace (i - length (contents a))%nat with 0%nat by lia. done.
  - rewrite lookup_app_l, oa_contents_lookup by (done || lia).
    rewrite list_lookup_insert_ne; [done|].
    intros Hp. apply Ei. apply (pos_inj a); try lia; done || lia.
Qed.

Lemma oa_discard_spec a : wf a ->
  match contents a with
  | [] => discard a = Some (false, a)
  | _ :: os => exists a', discard a = Some (true, a') /\ wf a' /\
         _size a' = _size a /\ contents a' = os
  end.
Proof.
  intros Hw. pose proof (oa_contents_length a Hw) as Hcl. pose proof Hw as [Hs Hb Hc Hh].
  unfold discard, empty. destruct (contents a) as [|o os] eqn:Eo; simpl length in Hcl.
  - rewrite (proj2 (Z.eqb_eq _ _)) by lia. done.
  - rewrite (proj2 (Z.eqb_neq _ _)) by lia.
    rewrite slot_pos by (done || lia). cbn [mbind option_bind].
    pose proof (pos_range a 1 Hw).
    assert (Hp1 : 0 <= pos a 1 < _size a) by (unfold pos; zcases; lia).
    rewrite !u16_small by lia. eexists; split; [done|].
    set (a' := mk _ _ _ _).
    assert (Hw' : wf a') by (constructor; simpl; lia).
    split; [done|]. split; [done|].
    apply oa_contents_ext; [done|simpl; lia|]. simpl. intros i Hi.
    change (os !! i) with ((o :: os) !! S i).
    rewrite <- Eo, oa_contents_lookup by (done || lia). do 2 f_equal.
    unfold pos. simpl. unfold pos. zcases; lia.
Qed.

(** One iteration of the loop of [remove]. *)
Lemma shift_step n a i : wf a -> 0 <= i -> i + 1 < _count a ->
  exists a1, shift (S n) a i = shift n a1 (i + 1) /\ wf a1 /\
    _size a1 = _size a /\ _count a1 = _count a /\
    forall j : nat, Z.of_nat j < _count a ->
      contents a1 !! j = contents a !! (if decide (Z.of_nat j = i) then S j else j).
Proof.
  intros Hw Hi0 Hi. pose proof Hw as [Hs Hb Hc Hh].
  cbn [shift]. unfold at_. rewrite !Z.geb_leb, !(proj2 (Z.leb_gt _ _)) by lia.
  rewrite !slot_pos by (done || lia). cbn [mbind option_bind].
  pose proof (pos_range a i Hw). pose proof (pos_range a (i + 1) Hw).
  rewrite arr_get_lookup by lia.
  destruct (_buffer a !! Z.to_nat (pos a (i + 1))) as [x|] eqn:Ex;
    [|apply lookup_ge_None_1 in Ex; lia].
  cbn [mbind option_bind]. rewrite arr_set_Some by lia. cbn [mbind option_bind].
  rewrite u16_small by lia. eexists; split; [done|].
  set (a1 := mk _ _ _ _).
  assert (Hw1 : wf a1) by (constructor; simpl; rewrite ?length_insert; lia).
  split; [done|]. split; [done|]. split; [done|]. intros j Hj.
  rewrite oa_contents_lookup by done.
  change (pos a1 (Z.of_nat j)) with (pos a (Z.of_nat j)). simpl.
  pose proof (pos_range a (Z.of_nat j) Hw). case_decide as Ej.
  - rewrite oa_contents_lookup, Ej by (done || lia).
    rewrite list_lookup_insert_eq, <- Ex by lia.
    replace (Z.of_nat (S j)) with (i + 1) by lia. done.
  - rewrite oa_contents_lookup by (done || lia). rewrite list_lookup_insert_ne; [done|].
    intros Hp. apply Ej. symmetry. apply (pos_inj a); try lia; done || lia.
Qed.

Lemma shift_spec n : forall a i, wf a -> 0 <= i -> i + Z.of_nat n < _count a ->
  exists a', shift n a i = Some a' /\ wf a' /\
    _size a' = _size a /\ _count a' = _count a /\
    forall j : nat, Z.of_nat j < _count a ->
      contents a' !! j =
      contents a !! (if decide (i <= Z.of_nat j < i + Z.of_nat n) then S j else j).
Proof.
  induction n as [|n IH]; intros a i Hw Hi Hn.
  - exists a. do 4 (split; [done|]). intros j Hj. by rewrite decide_False by lia.
  - destruct (shift_step n a i) as (a1 & -> & Hw1 & Hs1 & Hc1 & Hj1);
      [done|lia..|].
    destruct (IH a1 (i + 1)) as (a' & -> & Hw' & Hs' & Hc' & Hj'); [done|lia..|].
    exists a'. split; [done|]. split; [done|]. split; [lia|]. split; [lia|].
    intros j Hj. rewrite Hj' by lia.
    repeat case_decide; rewrite Hj1 by lia; repeat case_decide; try lia; done.
Qed.

Lemma shrink_spec a : wf a -> 0 < _count a ->
  let a' := mk (_buffer a) (_size a) (u16 (_count a - 1)) (_head a) in
  wf a' /\ contents a' = take (Z.to_nat (_count a - 1)) (contents a).
Proof.
  intros Hw Hc a'. pose proof (oa_contents_length a Hw) as Hcl.
  pose proof Hw as [Hs Hb Hcn Hh].
  assert (Hc' : _count a' = _count a - 1) by (apply u16_small; lia).
  assert (Hw' : wf a') by (constructor; rewrite ?Hc'; simpl; lia).
  split; [done|]. apply oa_contents_ext; [done|rewrite length_take; lia|].
  intros i Hi. rewrite lookup_take_lt, oa_contents_lookup by (done || lia). done.
Qed.

Lemma remove_spec a n : wf a -> 0 <= n ->
  if n <? _count a
  then exists a', remove a n = Some (true, a') /\ wf a' /\
         _size a' = _size a /\ contents a' = delete (Z.to_nat n) (contents a)
  else remove a n = Some (false, a).
Proof.
  intros Hw Hn. pose proof (oa_contents_length a Hw) as Hcl.
  unfold remove. rewrite Z.geb_leb.
  destruct (Z.ltb_spec n (_count a)), (Z.leb_spec (_count a) n); try lia; [|done].
  destruct (Z.eqb_spec n (_count a - 1)) as [E|E];
    [|destruct (Z.eqb_spec n 0) as [E0|E0]].
  - destruct (shrink_spec a) as [Hw' Hc']; [done|lia|].
    eexists. split; [done|]. split; [done|]. split; [done|].
    rewrite Hc', delete_take_drop, (drop_ge _ (S _)), app_nil_r by lia.
    by rewrite E.
  - pose proof (oa_discard_spec a Hw) as Hd. destruct (contents a) as [|o os].
    + simpl in Hcl. lia.
    + destruct Hd as (a' & ? & ? & ? & ?). exists a'. by rewrite E0.
  - destruct (shift_spec (Z.to_nat (_count a - 1 - n)) a n)
      as (a1 & -> & Hw1 & Hs1 & Hc1 & Hj1); [done|lia|lia|].
    cbn [mbind option_bind]. destruct (shrink_spec a1) as [Hw' Hc']; [done|lia|].
    eexists. split; [done|]. split; [done|]. split; [done|].
    rewrite Hc', Hc1. apply list_eq. intros j. rewrite list_lookup_delete.
    destruct (decide (Z.of_nat j < _count a - 1)).
    + rewrite lookup_take_lt, Hj1 by lia. repeat case_decide; done || lia.
    + rewrite lookup_take_ge by lia. case_decide; [lia|].
      rewrite lookup_ge_None_2 by lia. done.
Qed.
End object_array.
End ObjectArray.

(** * Properties *)

(** The calls a client makes on a byte queue. *)
Inductive queue_op :=
| OpWrite (d : list Z)
| OpRead (n : Z)
| OpAdvance (n : Z).

(** A client's run: the bytes the queue accepted and the bytes that left it. *)
Fixpoint run_ops (b : ByteBuffer.t) (ops : list queue_op)
  : option (list Z * list Z * ByteBuffer.t) :=
  match ops with
  | [] => Some ([], [], b)
  | OpWrite d :: ops =>
    '(n, b) ← ByteBuffer.write b d;
    '(i, o, b) ← run_ops b ops;
    Some (take (Z.to_nat n) d ++ i, o, b)
  | OpRead n :: ops =>
    '(d, b) ← ByteBuffer.read b n;
    '(i, o, b) ← run_ops b ops;
    Some (i, d ++ o, b)
  | OpAdvance n :: ops =>
    d ← ByteBuffer.peekbytes b n;
    '(ok, b) ← ByteBuffer.advance b n;
    '(i, o, b) ← run_ops b ops;
    Some (i, (if (ok : bool) then d else []) ++ o, b)
  end.

Definition op_ok (o : queue_op) : Prop :=
  match o with
  | OpWrite d => zlen d < 4294967296
  | OpRead n | OpAdvance n => 0 <= n < 4294967296
  end.

(** A ByteBuffer is a FIFO under every sequence of calls: none of them is
    undefined, and the bytes that left it followed by the bytes it still holds
    are the bytes it held at first followed by the bytes it accepted. *)
Theorem bytebuffer_fifo b ops : ByteBuffer.wf b -> Forall op_ok ops ->
  exists i o b', run_ops b ops = Some (i, o, b') /\ ByteBuffer.wf b' /\
    ByteBuffer.size b' = ByteBuffer.size b /\
    o ++ ByteBuffer.contents b' = ByteBuffer.contents b ++ i.
Proof.
  intros Hw Hops. revert b Hw.
  induction Hops as [|op ops Hop _ IH]; intros b Hw.
  { exists [], [], b. by rewrite app_nil_r. }
  destruct op as [d|n|n]; simpl in Hop |- *.
  - destruct (ByteBuffer.write_spec b d Hw Hop) as (b1 & -> & Hw1 & Hs1 & Hc1).
    pose proof (ByteBuffer.space_range b Hw).
    destruct (IH b1 Hw1) as (i & o & b' & Hr & Hw' & Hs' & Hc').
    cbn [mbind option_bind]. rewrite Hr. simpl. do 3 eexists. split; [done|].
    split; [done|]. split; [congruence|].
    rewrite Hc', Hc1, <- app_assoc. f_equal. f_equal.
    destruct (decide (zlen d <= ByteBuffer.space b)).
    + rewrite !take_ge by lia. done.
    + f_equal. lia.
  - destruct (ByteBuffer.read_spec b n Hw Hop) as (b1 & -> & Hw1 & Hs1 & Hc1).
    destruct (IH b1 Hw1) as (i & o & b' & Hr & Hw' & Hs' & Hc').
    cbn [mbind option_bind]. rewrite Hr. simpl. do 3 eexists. split; [done|].
    split; [done|]. split; [congruence|].
    by rewrite <- app_assoc, Hc', Hc1, app_assoc, take_drop.
  - rewrite ByteBuffer.peekbytes_spec by done. cbn [mbind option_bind].
    destruct (Z.le_gt_cases n (ByteBuffer.available b)).
    + destruct (ByteBuffer.advance_spec b n Hw) as (b1 & -> & Hw1 & Hs1 & Hc1); [lia|].
      destruct (IH b1 Hw1) as (i & o & b' & Hr & Hw' & Hs' & Hc').
      cbn [mbind option_bind]. rewrite Hr. simpl. do 3 eexists. split; [done|].
      split; [done|]. split; [congruence|].
      by rewrite <- app_assoc, Hc', Hc1, app_assoc, take_drop.
    + rewrite ByteBuffer.advance_fail by lia. cbn [mbind option_bind].
      destruct (IH b Hw) as (i & o & b' & Hr & Hw' & Hs' & Hc').
      rewrite Hr. simpl. by do 3 eexists.
Qed.

Lemma bytebuffer_fifo_witness :
  exists i o b',
    run_ops (ByteBuffer.create true 5)
      [OpWrite [1; 2; 3]; OpRead 2; OpWrite [4; 5; 6; 7]; OpAdvance 1] =
      Some (i, o, b') /\ ByteBuffer.wf b' /\ ByteBuffer.size b' = 5 /\
    o ++ ByteBuffer.contents b' = [] ++ i.
Proof.
  apply (bytebuffer_fifo (ByteBuffer.create true 5)).
  - constructor; vm_compute; intuition congruence.
  - repeat constructor; vm_compute; intuition congruence.
Defined.

Example fifo_wraps :
  run_ops (ByteBuffer.create true 5)
    [OpWrite [1; 2; 3]; OpRead 2; OpWrite [4; 5; 6; 7]; OpRead 9] =
  Some ([1; 2; 3; 4; 5; 6], [1; 2; 3; 4; 5; 6], ByteBuffer.mk [6; 2; 3; 4; 5] 5 1 1).
Proof. reflexivity. Qed.

(** After [set_size] failed to allocate, [write] and [read] of any bytes
    compute a remainder by the zero size: they are undefined, while [space],
    [available], [peek] and [set_size] itself stay defined. *)
Theorem bytebuffer_unallocated_write b n d : ByteBuffer.size b <> n ->
  let '(ok, b') := ByteBuffer.set_size false n b in
  ok = false /\ ByteBuffer.write b' d = None /\
  ByteBuffer.read b' (zlen d) = None /\
  ByteBuffer.space b' = 0 /\ ByteBuffer.available b' = 0 /\
  ByteBuffer.peek b' 0 = Some (-1) /\
  forall m, 0 < m <= 2147483648 -> ByteBuffer.wf (ByteBuffer.set_size true m b').2.
Proof.
  intros Hn. unfold ByteBuffer.set_size at 1. rewrite (proj2 (Z.eqb_neq n _)) by done.
  simpl. split; [done|]. split.
  { unfold ByteBuffer.write, ByteBuffer.reserve. simpl.
    change (ByteBuffer.space _) with 0.
    destruct (Z.gtb_spec (zlen d) 0); [done|].
    rewrite (proj2 (Z.eqb_eq _ _)) by lia. done. }
  split.
  { unfold ByteBuffer.read, ByteBuffer.peekbytes, ByteBuffer.peekiovec.
    change (ByteBuffer.available _) with 0.
    destruct (Z.gtb_spec (zlen d) 0); [done|].
    rewrite (proj2 (Z.eqb_eq _ _)) by lia. done. }
  do 3 (split; [done|]). intros m Hm. unfold ByteBuffer.set_size. simpl.
  destruct (Z.eqb_spec m 0); simpl; [lia|].
  constructor; simpl; rewrite ?length_replicate; lia.
Qed.

Lemma bytebuffer_unallocated_write_witness :
  ByteBuffer.size (ByteBuffer.create true 16) <> 64 /\
  ByteBuffer.write (ByteBuffer.set_size false 64 (ByteBuffer.create true 16)).2 [7] = None.
Proof.
  split; [vm_compute; congruence|].
  apply (bytebuffer_unallocated_write (ByteBuffer.create true 16) 64 [7]).
  vm_compute. congruence.
Defined.

(** [push_force] on a queue of capacity [k] over any lawful byte queue
    always stores the object: it is appended, and the oldest object is dropped
    exactly when the queue was full. *)
Theorem objectbuffer_push_force {Q} `{ByteQueueLaws Q} sizeofT k (q : Q) os o :
  0 < sizeofT -> 0 < k -> ObjectBuffer.holds sizeofT k q os -> zlen o = sizeofT ->
  exists q', ObjectBuffer.push_force sizeofT q o = Some (true, q') /\
    ObjectBuffer.holds sizeofT k q' (drop (length os + 1 - Z.to_nat k) (os ++ [o])).
Proof.
  intros Hp Hk Hh Ho.
  pose proof (ObjectBuffer.holds_space _ Hp k q os Hh) as (? & Hs & ? & ? & ?).
  unfold ObjectBuffer.push_force.
  destruct (decide (zlen os < k)) as [Hlt|Hge].
  - rewrite (proj2 (Z.ltb_ge _ _)) by nia. cbn [mbind option_bind].
    replace (length os + 1 - Z.to_nat k)%nat with 0%nat by lia.
    by apply ObjectBuffer.push_room.
  - rewrite (proj2 (Z.ltb_lt _ _)) by nia. destruct os as [|o1 os]; simpl length in *; [lia|].
    destruct (ObjectBuffer.ob_discard_spec _ Hp k q o1 os Hh) as (q1 & Hq1 & Hh1).
    unfold ObjectBuffer.discard in Hq1. rewrite Hq1. cbn [mbind option_bind].
    replace (S (length os) + 1 - Z.to_nat k)%nat with 1%nat by lia. simpl.
    apply ObjectBuffer.push_room; done || lia.
Qed.

Lemma objectbuffer_push_force_witness :
  exists q', ObjectBuffer.push_force 2 (ByteBuffer.mk [1; 2; 3; 4; 0] 5 0 4) [5; 6]
               = Some (true, q') /\
    ObjectBuffer.holds 2 2 q' [[3; 4]; [5; 6]].
Proof.
  apply (objectbuffer_push_force 2 2 (ByteBuffer.mk [1; 2; 3; 4; 0] 5 0 4)
           [[1; 2]; [3; 4]] [5; 6]); [lia|lia| |done].
  constructor; [|done|done|by repeat constructor].
  constructor; vm_compute; intuition congruence.
Defined.

(** The N-object [push_force] does not make room: with fewer objects to
    push than bytes of free space, [n - _space] wraps around, nothing is
    discarded and the push is refused, although [n] objects would fit in the
    queue. *)
Theorem objectbuffer_push_force_n_refuses {Q} `{ByteQueueLaws Q} sizeofT k (q : Q) os new :
  0 < sizeofT -> ObjectBuffer.holds sizeofT k q os ->
  zlen new <= k -> k - zlen os < zlen new -> zlen new < bq_space q ->
  sizeofT * bq_space q + sizeofT * k < 4294967296 ->
  ObjectBuffer.push_force_n sizeofT q new = Some (false, q).
Proof.
  intros Hp Hh Hk Hroom Hsp Hbig.
  pose proof (ObjectBuffer.holds_space _ Hp k q os Hh) as (? & Hs & Ha & ? & ?).
  unfold ObjectBuffer.push_force_n, ObjectBuffer.push_n.
  rewrite (u32_small (sizeofT * zlen new)) by nia.
  rewrite (u32_small (zlen new * sizeofT)) by nia.
  assert (Hlt : bq_space q < sizeofT * zlen new) by nia.
  rewrite (proj2 (Z.ltb_lt _ _)) by done.
  assert (Hwrap : u32 (zlen new - bq_space q) = zlen new - bq_space q + 4294967296).
  { unfold u32. rewrite <- (Z.mod_add _ 1) by done. apply Z.mod_small. nia. }
  assert (Hadv : u32 (sizeofT * u32 (zlen new - bq_space q)) =
                 sizeofT * (zlen new - bq_space q) + 4294967296).
  { rewrite Hwrap. unfold u32.
    replace (sizeofT * (zlen new - bq_space q + 4294967296)) with
      (sizeofT * (zlen new - bq_space q) + 4294967296 + (sizeofT - 1) * 4294967296)
      by lia.
    rewrite Z.mod_add by done. apply Z.mod_small. nia. }
  rewrite Hadv, bq_advance_fail_law by nia. cbn [mbind option_bind].
  by rewrite (proj2 (Z.ltb_lt _ _)) by nia.
Qed.

Lemma objectbuffer_push_force_n_refuses_witness :
  ObjectBuffer.push_force_n 4 (ByteBuffer.mk [1; 1; 1; 1; 0; 0; 0; 0; 0; 0; 0; 0; 0] 13 0 4)
    [[2; 2; 2; 2]; [3; 3; 3; 3]; [4; 4; 4; 4]] =
  Some (false, ByteBuffer.mk [1; 1; 1; 1; 0; 0; 0; 0; 0; 0; 0; 0; 0] 13 0 4).
Proof.
  apply (objectbuffer_push_force_n_refuses 4 3 _ [[1; 1; 1; 1]]);
    [lia| |vm_compute; congruence..].
  constructor; [|done|done|by repeat constructor].
  constructor; vm_compute; intuition congruence.
Defined.

(** [ObjectArray::remove] deletes exactly the n-th object of the queue,
    wherever the queue starts in its storage, and refuses an index past the
    end; the other objects keep their order. *)
Theorem objectarray_remove {T} (a : @ObjectArray.t T) n :
  ObjectArray.wf a -> 0 <= n ->
  if n <? zlen (ObjectArray.contents a)
  then exists a', ObjectArray.remove a n = Some (true, a') /\ ObjectArray.wf a' /\
         ObjectArray.contents a' = delete (Z.to_nat n) (ObjectArray.contents a)
  else ObjectArray.remove a n = Some (false, a).
Proof.
  intros Hw Hn. rewrite ObjectArray.oa_contents_length by done.
  pose proof (ObjectArray.remove_spec a n Hw Hn) as Hr.
  destruct (n <? ObjectArray._count a); [|done].
  destruct Hr as (a' & ? & ? & _ & ?). by exists a'.
Qed.

Lemma objectarray_remove_witness :
  exists a', ObjectArray.remove (ObjectArray.mk [3; 4; 0; 1; 2] 5 4 3) 1
               = Some (true, a') /\
    ObjectArray.wf a' /\ ObjectArray.contents a' = [1; 3; 4].
Proof.
  apply (objectarray_remove (ObjectArray.mk [3; 4; 0; 1; 2] 5 4 3) 1); [|lia].
  constructor; vm_compute; intuition congruence.
Defined.
