(* ===== verification/Storage.v ===== *)
(** The StorageManager of libraries/StorageManager/StorageManager.{h,cpp}: the
    division of the board's non-volatile storage into areas, and
    [StorageAccess], which presents all the areas of one type as one range of
    bytes.

    [hal.storage] (libraries/AP_HAL/Storage.h) is an interface with several
    drivers: the class [HalStorage] has its operations and [HalStorageLaws]
    what StorageManager relies on, for accesses inside the storage. *)
From S2P Require Import Prelude.

(** * hal.storage *)
Class HalStorage (S : Type) := {
  hs_read_block : S -> Z -> Z -> list Z;
  hs_write_block : S -> Z -> list Z -> S
}.

(** [hs_img]: the bytes of the storage; [hs_ok]: the driver works.  A write
    inside the storage changes exactly the bytes written. *)
Class HalStorageLaws (S : Type) `{HalStorage S} := {
  hs_img : S -> list Z;
  hs_ok : S -> Prop;
  hs_read_law s o n : hs_ok s -> 0 <= o -> 0 <= n -> o + n <= zlen (hs_img s) ->
    hs_read_block s o n = take (Z.to_nat n) (drop (Z.to_nat o) (hs_img s));
  hs_write_law s o bs : hs_ok s -> bytes bs -> 0 <= o -> o + zlen bs <= zlen (hs_img s) ->
    hs_ok (hs_write_block s o bs) /\
    hs_img (hs_write_block s o bs) = list_inserts (Z.to_nat o) bs (hs_img s)
}.

(** A storage that is an array of bytes, as the simulator's. *)
#[export] Instance array_storage : HalStorage (list Z) := {
  hs_read_block s o n := take (Z.to_nat n) (drop (Z.to_nat o) s);
  hs_write_block s o bs := list_inserts (Z.to_nat o) bs s
}.
#[export] Instance array_storage_laws : HalStorageLaws (list Z).
Proof. refine {| hs_img s := s; hs_ok _ := True |}; done. Defined.

Module StorageManager.

(** [enum StorageType] *)
Inductive StorageType :=
| StorageParam
| StorageFence
| StorageRally
| StorageMission
| StorageKeys
| StorageBindInfo.

#[export] Instance StorageType_eq_dec : EqDecision StorageType.
Proof. solve_decision. Defined.

Record StorageArea := area { type : StorageType; offset : Z; length : Z }.

(** [STORAGE_NUM_AREAS]; [None] is the [#error] of an unsupported size. *)
Definition num_areas (HAL_STORAGE_SIZE : Z) : option Z :=
  if HAL_STORAGE_SIZE >=? 16384 then Some 14
  else if HAL_STORAGE_SIZE >=? 8192 then Some 10
  else if HAL_STORAGE_SIZE >=? 4096 then Some 4
  else None.

Definition layout_default (STORAGE_NUM_AREAS : Z) : list StorageArea :=
  [ area StorageParam 0 1280;
    area StorageMission 1280 2506;
    area StorageRally 3786 150;
    area StorageFence 3936 160 ] ++
  (if STORAGE_NUM_AREAS >=? 8 then
  [ area StorageParam 4096 1280;
    area StorageRally 5376 300;
    area StorageFence 5676 256;
    area StorageMission 5932 2132;
    area StorageKeys 8064 64;
    area StorageBindInfo 8128 56 ] else []) ++
  (if STORAGE_NUM_AREAS >=? 12 then
  [ area StorageParam 8192 1280;
    area StorageRally 9472 300;
    area StorageFence 9772 256;
    area StorageMission 10028 6228 ] else []).

Definition layout_copter (STORAGE_NUM_AREAS : Z) : list StorageArea :=
  [ area StorageParam 0 1536;
    area StorageMission 1536 2422;
    area StorageRally 3958 90;
    area StorageFence 4048 48 ] ++
  (if STORAGE_NUM_AREAS >=? 8 then
  [ area StorageParam 4096 1280;
    area StorageRally 5376 300;
    area StorageFence 5676 256;
    area StorageMission 5932 2132;
    area StorageKeys 8064 64;
    area StorageBindInfo 8128 56 ] else []) ++
  (if STORAGE_NUM_AREAS >=? 12 then
  [ area StorageParam 8192 1280;
    area StorageRally 9472 300;
    area StorageFence 9772 256;
    area StorageMission 10028 6228 ] else []).

Section manager.
Context {S : Type} `{HalStorage S}.

(** The inner loop of [erase] over one area, from offset [ofs] of it; [fuel]
    bounds the iterations. *)
Fixpoint erase_area (fuel : nat) (s : S) (a : StorageArea) (ofs : Z) : S :=
  match fuel with
  | O => s
  | Datatypes.S fuel =>
    if ofs <? length a then
      let n := 16 in
      let n := if ofs + n >? length a then u8 (length a - ofs) else n in
      let s := hs_write_block s (u16 (offset a + ofs)) (replicate (Z.to_nat n) 0) in
      erase_area fuel s a (u16 (ofs + 16))
    else s
  end.

Definition erase (layout : list StorageArea) (s : S) : S :=
  fold_left (fun s a => erase_area (Datatypes.S (Z.to_nat (length a))) s a 0) layout s.

(** ** StorageAccess *)

(** The constructor: the [total_size] of a type. *)
Definition total_size (layout : list StorageArea) (ty : StorageType) : Z :=
  fold_left (fun sz a => if decide (type a = ty) then u16 (sz + length a) else sz)
            layout 0.

(** The number of bytes of [n] that an area of [length] bytes takes at
    [addr]: [n] goes through a [uint8_t]. *)
Definition area_count (len addr n : Z) : Z :=
  let count := u8 n in
  if count + addr >? len then u8 (len - addr) else count.

(** [read_block]: [acc] is what was copied to [data] so far; the result has
    the returned flag and all the bytes copied. *)
Fixpoint read_block (layout : list StorageArea) (ty : StorageType) (s : S)
    (acc : list Z) (addr n : Z) : bool * list Z :=
  match layout with
  | [] => (n =? 0, acc)
  | a :: areas =>
    if decide (type a <> ty) then read_block areas ty s acc addr n
    else if addr >=? length a then
      read_block areas ty s acc (u16 (addr - length a)) n
    else
      let count := area_count (length a) addr n in
      let acc := acc ++ hs_read_block s (u16 (addr + offset a)) count in
      let n := n - count in
      if n =? 0 then (true, acc) else read_block areas ty s acc 0 n
  end.

(** [write_block] of the bytes [b] (so [n] is their number). *)
Fixpoint write_block (layout : list StorageArea) (ty : StorageType) (s : S)
    (addr : Z) (b : list Z) : bool * S :=
  match layout with
  | [] => (zlen b =? 0, s)
  | a :: areas =>
    if decide (type a <> ty) then write_block areas ty s addr b
    else if addr >=? length a then
      write_block areas ty s (u16 (addr - length a)) b
    else
      let count := area_count (length a) addr (zlen b) in
      let s := hs_write_block s (u16 (addr + offset a)) (take (Z.to_nat count) b) in
      let n := zlen b - count in
      if n =? 0 then (true, s)
      else write_block areas ty s 0 (drop (Z.to_nat count) b)
  end.

(** The scalar reads; [v] is the content of the uninitialised local, of which
    [read_block] overwrites the first bytes. *)
Definition read_scalar (layout : list StorageArea) (ty : StorageType) (s : S)
    (v : list Z) (loc : Z) : Z :=
  let '(_, bs) := read_block layout ty s [] loc (zlen v) in
  le_val (bs ++ drop (Datatypes.length bs) v).

Definition read_byte layout ty s (v : Z) loc : Z :=
  read_scalar layout ty s (le_bytes 1 v) loc.
Definition read_uint16 layout ty s (v : Z) loc : Z :=
  read_scalar layout ty s (le_bytes 2 v) loc.
Definition read_uint32 layout ty s (v : Z) loc : Z :=
  read_scalar layout ty s (le_bytes 4 v) loc.

Definition write_byte layout ty s loc value : S :=
  (write_block layout ty s loc (le_bytes 1 value)).2.
Definition write_uint16 layout ty s loc value : S :=
  (write_block layout ty s loc (le_bytes 2 value)).2.
Definition write_uint32 layout ty s loc value : S :=
  (write_block layout ty s loc (le_bytes 4 value)).2.
End manager.

(** ** The bytes of a type *)

(** The addresses in [hal.storage] of an area, and of all the areas of a type,
    in the order in which StorageAccess numbers them. *)
Definition area_cells (a : StorageArea) : list nat :=
  seq (Z.to_nat (offset a)) (Z.to_nat (length a)).

Fixpoint cells (layout : list StorageArea) (ty : StorageType) : list nat :=
  match layout with
  | [] => []
  | a :: areas => (if decide (type a = ty) then area_cells a else []) ++ cells areas ty
  end.

(** The areas are inside a storage of [size] bytes. *)
Definition fits (size : Z) (layout : list StorageArea) : Prop :=
  Forall (fun a => 0 <= offset a /\ 0 <= length a /\
                   offset a + length a <= size /\ size <= 65536) layout.

(** The contents of the cells [cs] of [img], and the storage after the bytes
    [bs] went to the cells [cs]. *)
Definition view (img : list Z) (cs : list nat) : list Z := (fun c => img !!! c) <$> cs.
Fixpoint poke (img : list Z) (cs : list nat) (bs : list Z) : list Z :=
  match cs, bs with
  | c :: cs, b :: bs => poke (<[c := b]> img) cs bs
  | _, _ => img
  end.

Lemma poke_length img cs bs : Datatypes.length (poke img cs bs) = Datatypes.length img.
Proof.
  revert img bs. induction cs as [|c cs IH]; intros img [|b bs]; simpl; try done.
  by rewrite IH, length_insert.
Qed.

Lemma poke_app img cs1 cs2 bs1 bs2 :
  Datatypes.length cs1 = Datatypes.length bs1 ->
  poke img (cs1 ++ cs2) (bs1 ++ bs2) = poke (poke img cs1 bs1) cs2 bs2.
Proof.
  revert img bs1. induction cs1 as [|c cs1 IH]; intros img [|b bs1]; simpl; try done.
  intros [= Hl]. by apply IH.
Qed.

Lemma poke_seq o bs : forall img n,
  (Datatypes.length bs <= n)%nat -> (o + Datatypes.length bs <= Datatypes.length img)%nat ->
  poke img (seq o n) bs = list_inserts o bs img.
Proof.
  revert o. induction bs as [|b bs IH]; intros o img n Hn Hl; simpl in *.
  { by destruct (seq o n). }
  destruct n as [|n]; [lia|]. simpl. rewrite IH by (rewrite ?length_insert; lia).
  symmetry. apply list_insert_inserts_lt. lia.
Qed.

Lemma poke_drop k : forall img cs bs,
  poke img cs bs = poke (poke img (take k cs) (take k bs)) (drop k cs) (drop k bs).
Proof.
  induction k as [|k IH]; intros img cs bs; [done|].
  destruct cs as [|c cs], bs as [|b bs]; simpl; try done.
  - by destruct (drop k cs).
Qed.

Lemma poke_lookup_ne cs : forall img bs c, c ∉ cs -> poke img cs bs !! c = img !! c.
Proof.
  induction cs as [|c' cs IH]; intros img [|b bs] c Hc; simpl; try done.
  rewrite IH by set_solver. apply list_lookup_insert_ne. set_solver.
Qed.

Lemma view_length img cs : Datatypes.length (view img cs) = Datatypes.length cs.
Proof. apply length_fmap. Qed.

Lemma view_app img cs1 cs2 : view img (cs1 ++ cs2) = view img cs1 ++ view img cs2.
Proof. apply fmap_app. Qed.

Lemma view_ext img img' cs :
  (forall c, c ∈ cs -> img !! c = img' !! c) ->
  view img cs = view img' cs.
Proof.
  intros H. apply list_fmap_ext. intros i c Hc%list_elem_of_lookup_2.
  rewrite !list_lookup_total_alt. by rewrite H.
Qed.

Lemma view_seq img o n : (o + n <= Datatypes.length img)%nat ->
  view img (seq o n) = take n (drop o img).
Proof.
  intros Hl. apply list_eq. intros i. unfold view. rewrite list_lookup_fmap.
  destruct (decide (i < n)%nat).
  - rewrite lookup_seq_lt, lookup_take_lt, lookup_drop by lia. simpl.
    rewrite list_lookup_total_alt.
    by destruct (lookup_lt_is_Some_2 img (o + i)) as [x ->]; [lia|].
  - rewrite lookup_seq_ge, lookup_take_ge by lia. done.
Qed.

Lemma view_poke cs : forall img bs, NoDup cs ->
  Forall (fun c => (c < Datatypes.length img)%nat) cs ->
  (Datatypes.length bs <= Datatypes.length cs)%nat ->
  view (poke img cs bs) cs = bs ++ drop (Datatypes.length bs) (view img cs).
Proof.
  induction cs as [|c cs IH]; intros img [|b bs] Hnd Hin Hl; simpl in *;
    try done; [lia|].
  apply NoDup_cons in Hnd as [Hc Hnd]. apply Forall_cons_1 in Hin as [Hci Hin].
  f_equal.
  - rewrite list_lookup_total_alt, poke_lookup_ne by done.
    by rewrite list_lookup_insert_eq.
  - rewrite IH; [|done|by rewrite length_insert|lia]. do 2 f_equal.
    apply view_ext. intros c' Hc'. apply list_lookup_insert_ne. set_solver.
Qed.

(** Storing bytes at position [addr] of a type changes its view like an array
    of consecutive bytes. *)
Lemma view_poke_at img cs addr bs : NoDup cs ->
  Forall (fun c => (c < Datatypes.length img)%nat) cs ->
  (addr + Datatypes.length bs <= Datatypes.length cs)%nat ->
  view (poke img (drop addr cs) bs) cs = list_inserts addr bs (view img cs).
Proof.
  intros Hnd Hin Hl. rewrite <- (take_drop addr cs) in Hnd, Hin.
  apply NoDup_app in Hnd as (Hn1 & Hd & Hn2). apply Forall_app in Hin as [Hi1 Hi2].
  rewrite <- (take_drop addr cs) at 2 3. rewrite !view_app, view_poke;
    [|done|done|rewrite length_drop; lia].
  rewrite inserts_after_app by (rewrite view_length, length_take; lia). f_equal.
  - apply view_ext. intros c Hc. apply poke_lookup_ne. intros ?. by eapply Hd.
  - apply list_eq. intros i. rewrite lookup_inserts_dec, view_length, length_drop.
    case_decide as Hb.
    + rewrite lookup_app_l, decide_True by lia. f_equal. lia.
    + rewrite lookup_app_r, lookup_drop by lia. f_equal. lia.
Qed.

(** ** Reading and writing a block *)
Lemma fits_cells size layout ty : fits size layout ->
  Forall (fun c => (c < Z.to_nat size)%nat) (cells layout ty).
Proof.
  induction 1 as [|a areas Ha _ IH]; simpl; [done|].
  apply Forall_app; split; [|done]. case_decide; [|done].
  apply Forall_seq. lia.
Qed.

Lemma area_count_eq len addr n : 0 <= addr < len -> len <= 65536 -> 0 <= n < 256 ->
  area_count len addr n = Z.min n (len - addr).
Proof.
  intros Ha Hl Hn. unfold area_count. wrap_simpl. zcases; [|lia]. wrap_simpl. lia.
Qed.

Lemma read_block_spec {S} `{HalStorageLaws S} (s : S) ty : hs_ok s ->
  forall layout acc addr n, fits (zlen (hs_img s)) layout ->
  0 <= addr < 65536 -> 0 < n < 256 ->
  read_block layout ty s acc addr n =
  (addr + n <=? zlen (cells layout ty),
   acc ++ take (Z.to_nat n) (drop (Z.to_nat addr) (view (hs_img s) (cells layout ty)))).
Proof.
  intros Hok layout. induction layout as [|a areas IH]; intros acc addr n Hf Haddr Hn.
  { simpl. rewrite drop_nil, take_nil, app_nil_r.
    by rewrite (proj2 (Z.eqb_neq _ _)), (proj2 (Z.leb_gt _ _)) by lia. }
  apply Forall_cons_1 in Hf as [Ha Hf]. cbn [read_block cells].
  case_decide as Hty.
  { rewrite decide_False by done. by apply IH. }
  rewrite decide_True by done.
  rewrite Z.geb_leb, length_app, view_app, drop_app. unfold area_cells.
  rewrite view_length, !length_seq.
  destruct (Z.leb_spec (length a) addr).
  - rewrite u16_small, IH by (done || lia). f_equal.
    + zcases; lia || done.
    + rewrite (drop_ge (view _ (seq _ _))) by (rewrite view_length, length_seq; lia).
      rewrite app_nil_l. do 3 f_equal. lia.
  - rewrite area_count_eq, u16_small by lia.
    rewrite hs_read_law by (done || lia).
    rewrite view_seq by lia.
    set (v := take (Z.to_nat (length a)) (drop (Z.to_nat (offset a)) (hs_img s))).
    assert (Hv : Datatypes.length v = Z.to_nat (length a))
      by (unfold v; rewrite length_take, length_drop; lia).
    replace (take _ (drop _ (hs_img s))) with (take (Z.to_nat n) (drop (Z.to_nat addr) v)).
    2:{ unfold v. rewrite skipn_firstn_comm, take_take, drop_drop.
        f_equal; [lia|f_equal; lia]. }
    replace (Z.to_nat addr - Z.to_nat (length a))%nat with 0%nat by lia.
    rewrite drop_0. destruct (Z.eqb_spec (n - Z.min n (length a - addr)) 0).
    + rewrite take_app_le by (rewrite length_drop; lia).
      by rewrite (proj2 (Z.leb_le _ _)) by lia.
    + rewrite IH by (done || lia). f_equal; [zcases; lia || done|].
      rewrite take_app_ge, (take_ge (drop _ v)), drop_0, app_assoc
        by (rewrite length_drop; lia).
      do 2 f_equal. rewrite length_drop. lia.
Qed.

Lemma poke_nil_r img cs : poke img cs [] = img.
Proof. by destruct cs. Qed.

Lemma poke_split img cs1 cs2 bs :
  poke img (cs1 ++ cs2) bs =
  poke (poke img cs1 (take (Datatypes.length cs1) bs)) cs2 (drop (Datatypes.length cs1) bs).
Proof. by rewrite (poke_drop (Datatypes.length cs1)), take_app_length, drop_app_length. Qed.

Lemma write_block_spec {S} `{HalStorageLaws S} ty : forall layout (s : S) addr b,
  hs_ok s -> fits (zlen (hs_img s)) layout ->
  bytes b -> 0 <= addr < 65536 -> 0 < zlen b < 256 ->
  exists s', write_block layout ty s addr b =
      (addr + zlen b <=? zlen (cells layout ty), s') /\ hs_ok s' /\
    hs_img s' = poke (hs_img s) (drop (Z.to_nat addr) (cells layout ty)) b.
Proof.
  intros layout. induction layout as [|a areas IH]; intros s addr b Hok Hf Hbytes Haddr Hn.
  { exists s. simpl. rewrite drop_nil, (proj2 (Z.eqb_neq _ _)), (proj2 (Z.leb_gt _ _)) by lia.
    done. }
  apply Forall_cons_1 in Hf as [Ha Hf]. cbn [write_block cells].
  case_decide as Hty.
  { rewrite decide_False by done. by apply IH. }
  rewrite decide_True by done.
  rewrite Z.geb_leb, length_app, drop_app. unfold area_cells.
  rewrite !length_seq. destruct (Z.leb_spec (length a) addr).
  - destruct (IH s (u16 (addr - length a)) b) as (s' & -> & Hok' & Hi');
      [done|done|done|rewrite u16_small by lia; lia|done|].
    exists s'. rewrite Hi', u16_small by lia. split; [|split; [done|]].
    + f_equal. zcases; lia || done.
    + rewrite (drop_ge (seq _ _)) by (rewrite length_seq; lia).
      rewrite app_nil_l. do 2 f_equal. lia.
  - rewrite area_count_eq, u16_small by lia.
    set (c := Z.min (zlen b) (length a - addr)).
    destruct (hs_write_law s (addr + offset a) (take (Z.to_nat c) b)) as [Hok1 Hi1];
      [done|by apply Forall_take|lia|rewrite length_take; lia|].
    set (s1 := hs_write_block s _ _) in *.
    replace (Z.to_nat addr - Z.to_nat (length a))%nat with 0%nat by lia.
    rewrite drop_0, drop_seq.
    assert (Hp : hs_img s1 = poke (hs_img s)
      (seq (Z.to_nat (offset a) + Z.to_nat addr) (Z.to_nat (length a) - Z.to_nat addr))
      (take (Z.to_nat c) b)).
    { rewrite Hi1, poke_seq by (rewrite length_take; lia). f_equal. lia. }
    destruct (Z.eqb_spec (zlen b - c) 0).
    + exists s1. split; [|split; [done|]].
      * by rewrite (proj2 (Z.leb_le _ _)) by lia.
      * rewrite Hp, poke_split, length_seq, !take_ge, drop_ge by lia.
        by rewrite poke_nil_r.
    + destruct (IH s1 0 (drop (Z.to_nat c) b)) as (s' & -> & Hok' & Hi');
        [done|by rewrite Hp, poke_length|by apply Forall_drop|lia|rewrite length_drop; lia|].
      exists s'. rewrite length_drop. split; [f_equal; zcases; lia || done|].
      split; [done|]. rewrite Hi', Hp, poke_split, length_seq, drop_0.
      replace (Z.to_nat c) with (Z.to_nat (length a) - Z.to_nat addr)%nat by lia.
      done.
Qed.

(** ** The layouts and erase *)

(** Every area of the layouts, for each supported size. *)
Definition all_cells (layout : list StorageArea) : list nat := layout ≫= area_cells.

(** The areas follow each other, from address [last] on. *)
Fixpoint ordered (last : Z) (layout : list StorageArea) : bool :=
  match layout with
  | [] => true
  | a :: areas => (0 <=? last) && (last <=? offset a) && (0 <=? length a) &&
                  ordered (offset a + length a) areas
  end.

Lemma ordered_NoDup layout : ordered 0 layout = true -> NoDup (all_cells layout).
Proof.
  unfold all_cells.
  assert (Hgo : forall layout last, ordered last layout = true ->
    NoDup (layout ≫= area_cells) /\
    Forall (fun c => last <= Z.of_nat c) (layout ≫= area_cells)).
  { clear layout. induction layout as [|a layout IH]; intros last Hl.
    { simpl. split; constructor. }
    simpl in Hl. rewrite !andb_true_iff, !Z.leb_le in Hl.
    destruct Hl as [[[? ?] ?] [Hnd Hge]%IH]. cbn [mbind list_bind]. split.
    - apply NoDup_app. split; [apply NoDup_seq|]. split; [|done].
      intros c Hc Hc'. unfold area_cells in Hc. apply elem_of_seq in Hc.
      rewrite Forall_forall in Hge. specialize (Hge c Hc'). lia.
    - apply Forall_app. split.
      + apply Forall_seq. lia.
      + eapply Forall_impl; [done|]. simpl. lia. }
  intros Hl. by apply (Hgo layout 0).
Qed.

Lemma cells_sublist layout ty : cells layout ty `sublist_of` all_cells layout.
Proof.
  unfold all_cells. induction layout as [|a areas IH]; simpl; [done|].
  case_decide; [by apply sublist_app|by apply sublist_inserts_l].
Qed.

Lemma cells_NoDup layout ty : NoDup (all_cells layout) -> NoDup (cells layout ty).
Proof. intros Hnd. eapply sublist_NoDup; [done|apply cells_sublist]. Qed.

Lemma cells_disjoint layout ty1 ty2 c : NoDup (all_cells layout) -> ty1 <> ty2 ->
  c ∈ cells layout ty1 -> c ∉ cells layout ty2.
Proof.
  unfold all_cells. intros Hnd Hne.
  induction layout as [|a areas IH]; simpl; [set_solver|].
  cbn [mbind list_bind] in Hnd. apply NoDup_app in Hnd as (_ & Hd & Hnd).
  specialize (IH Hnd).
  assert (Hsub : forall ty, c ∈ cells areas ty -> c ∈ all_cells areas).
  { intros ty Hc. eapply elem_of_sublist; [done|apply cells_sublist]. }
  specialize (Hd c). pose proof (Hsub ty1). pose proof (Hsub ty2).
  unfold all_cells in *. rewrite !elem_of_app.
  repeat case_decide; subst; rewrite ?elem_of_nil; intuition congruence.
Qed.

Lemma erase_area_spec {S} `{HalStorageLaws S} a : forall fuel (s : S) ofs,
  hs_ok s -> 0 <= offset a -> length a <= 65520 -> 0 <= ofs ->
  offset a + length a <= zlen (hs_img s) <= 65536 ->
  length a - ofs < 16 * Z.of_nat fuel ->
  hs_ok (erase_area fuel s a ofs) /\
  hs_img (erase_area fuel s a ofs) =
    list_inserts (Z.to_nat (offset a + ofs))
      (replicate (Z.to_nat (length a - ofs)) 0) (hs_img s).
Proof.
  induction fuel as [|fuel IH]; intros s ofs Hok Ho Hlen Hofs Hsz Hf.
  { simpl. by replace (Z.to_nat (length a - ofs)) with 0%nat by lia. }
  cbn [erase_area]. destruct (Z.ltb_spec ofs (length a)).
  2:{ by replace (Z.to_nat (length a - ofs)) with 0%nat by lia. }
  set (n := if ofs + 16 >? length a then u8 (length a - ofs) else 16).
  assert (Hn : n = Z.min 16 (length a - ofs)) by (unfold n; zcases; try wrap_simpl; lia).
  clearbody n. rewrite !u16_small by lia.
  destruct (hs_write_law s (offset a + ofs) (replicate (Z.to_nat n) 0))
    as [Hok1 Hi1]; [done|by apply Forall_replicate|lia|rewrite length_replicate; lia|].
  destruct (IH (hs_write_block s (offset a + ofs) (replicate (Z.to_nat n) 0)) (ofs + 16))
    as [Hok2 Hi2]; [done|lia|lia|lia|rewrite Hi1, length_inserts; lia|lia|].
  split; [done|]. rewrite Hi2, Hi1. apply list_eq. intros i.
  rewrite !lookup_inserts_dec, length_inserts, !length_replicate.
  repeat case_decide; try lia; try done; rewrite !lookup_replicate_2 by lia; done.
Qed.

Lemma erase_spec {S} `{HalStorageLaws S} layout (s : S) : hs_ok s ->
  fits (zlen (hs_img s)) layout -> Forall (fun a => length a <= 65520) layout ->
  hs_ok (erase layout s) /\ zlen (hs_img (erase layout s)) = zlen (hs_img s) /\
  forall c, hs_img (erase layout s) !! c =
    if decide (c ∈ all_cells layout) then Some 0 else hs_img s !! c.
Proof.
  unfold erase, all_cells. intros Hok Hf Hl. revert s Hok Hf.
  induction Hl as [|a areas Ha Hl IH]; intros s Hok Hf; cbn [fold_left mbind list_bind].
  { split; [done|]. split; [done|]. intros c. rewrite decide_False; [done|set_solver]. }
  apply Forall_cons_1 in Hf as [(? & ? & ? & ?) Hf].
  destruct (erase_area_spec a (Datatypes.S (Z.to_nat (length a))) s 0)
    as [Hok1 Hi1]; [done|lia..|].
  set (s1 := erase_area _ _ _ _) in *.
  assert (Hl1 : zlen (hs_img s1) = zlen (hs_img s)) by (by rewrite Hi1, length_inserts).
  destruct (IH s1 Hok1) as (Hok2 & Hl2 & Hc2); [by rewrite Hl1|].
  split; [done|]. split; [lia|]. intros c. rewrite Hc2, Hi1, lookup_inserts_dec.
  rewrite length_replicate, Z.add_0_r, Z.sub_0_r.
  destruct (decide (c ∈ area_cells a ++ _)) as [Hc|Hc]; rewrite elem_of_app in Hc;
    unfold area_cells in Hc; rewrite elem_of_seq in Hc;
    repeat case_decide; try tauto; try lia; try done.
  by rewrite lookup_replicate_2 by lia.
Qed.

(** A layout usable on a storage of [size] bytes. *)
Definition layout_ok (size : Z) (layout : list StorageArea) : Prop :=
  fits size layout /\ NoDup (all_cells layout).

(** What a write inside a type does to the storage. *)
Lemma write_block_view {S} `{HalStorageLaws S} layout ty (s : S) addr b :
  hs_ok s -> layout_ok (zlen (hs_img s)) layout -> bytes b ->
  0 <= addr -> 0 < zlen b < 256 -> addr + zlen b <= zlen (cells layout ty) ->
  addr < 65536 ->
  exists s', write_block layout ty s addr b = (true, s') /\ hs_ok s' /\
    zlen (hs_img s') = zlen (hs_img s) /\
    view (hs_img s') (cells layout ty) =
      list_inserts (Z.to_nat addr) b (view (hs_img s) (cells layout ty)) /\
    forall c, c ∉ cells layout ty -> hs_img s' !! c = hs_img s !! c.
Proof.
  intros Hok [Hf Hnd] Hb Ha Hn Hin Hlt.
  destruct (write_block_spec ty layout s addr b) as (s' & -> & Hok' & Hi'); try done.
  exists s'. rewrite (proj2 (Z.leb_le _ _)) by done. split; [done|]. split; [done|].
  rewrite Hi', poke_length. split; [done|]. split.
  - apply view_poke_at; [by apply cells_NoDup| |lia].
    eapply Forall_impl; [by apply fits_cells|]. simpl. lia.
  - intros c Hc. apply poke_lookup_ne. intros Hd. apply Hc.
    eapply elem_of_sublist; [done|apply sublist_drop].
Qed.

(** What a read inside a type returns. *)
Lemma read_block_view {S} `{HalStorageLaws S} layout ty (s : S) addr n :
  hs_ok s -> fits (zlen (hs_img s)) layout ->
  0 <= addr < 65536 -> 0 < n < 256 -> addr + n <= zlen (cells layout ty) ->
  read_block layout ty s [] addr n =
  (true, take (Z.to_nat n) (drop (Z.to_nat addr) (view (hs_img s) (cells layout ty)))).
Proof.
  intros. rewrite read_block_spec by done. by rewrite (proj2 (Z.leb_le _ _)) by done.
Qed.

Lemma read_scalar_view {S} `{HalStorageLaws S} layout ty (s : S) v addr :
  hs_ok s -> fits (zlen (hs_img s)) layout ->
  0 <= addr < 65536 -> 0 < zlen v < 256 -> addr + zlen v <= zlen (cells layout ty) ->
  read_scalar layout ty s v addr =
  le_val (take (Datatypes.length v) (drop (Z.to_nat addr) (view (hs_img s) (cells layout ty)))).
Proof.
  intros. unfold read_scalar. rewrite read_block_view by done.
  cbn iota. rewrite (drop_ge v) by (rewrite length_take, length_drop, view_length; lia).
  rewrite app_nil_r. do 2 f_equal. lia.
Qed.

(** Every pass of the loops takes at most 255 bytes: what is left of a block
    of 256 bytes or more never gets below 256. *)
Lemma area_count_range len addr n : 0 <= addr < len -> 0 <= n ->
  0 <= area_count len addr n <= n /\ (256 <= n -> 256 <= n - area_count len addr n).
Proof.
  intros Ha Hn. unfold area_count.
  assert (Hm : u8 n = n - 256 * (n / 256)) by (unfold u8; pose proof (Z.div_mod n 256); lia).
  pose proof (u8_range n).
  assert (0 <= n / 256) by (apply Z.div_pos; lia).
  assert (256 <= n -> 1 <= n / 256) by (intros; apply Z.div_le_lower_bound; lia).
  destruct (Z.gtb_spec (u8 n + addr) len); [|lia].
  rewrite (u8_small (len - addr)) by lia. lia.
Qed.
End StorageManager.

(** * Properties *)
Import StorageManager.

(** C8. A block of up to 255 bytes written inside a type of storage reads back
    unchanged, even when it crosses from one area of the type to another; no
    other byte of the type, no byte of another type and no byte outside the
    areas changes. *)
Theorem storage_roundtrip {S} `{HalStorageLaws S} layout ty (s : S) addr b :
  hs_ok s -> layout_ok (zlen (hs_img s)) layout -> bytes b ->
  0 <= addr < 65536 -> 0 < zlen b < 256 -> addr + zlen b <= zlen (cells layout ty) ->
  exists s', write_block layout ty s addr b = (true, s') /\ hs_ok s' /\
    read_block layout ty s' [] addr (zlen b) = (true, b) /\
    view (hs_img s') (cells layout ty) =
      list_inserts (Z.to_nat addr) b (view (hs_img s) (cells layout ty)) /\
    (forall ty', ty' <> ty ->
      view (hs_img s') (cells layout ty') = view (hs_img s) (cells layout ty')) /\
    (forall c, c ∉ all_cells layout -> hs_img s' !! c = hs_img s !! c).
Proof.
  intros Hok Hl Hb Ha Hn Hin. pose proof Hl as [Hf Hnd].
  destruct (write_block_view layout ty s addr b)
    as (s' & Hw & Hok' & Hlen & Hv & Hother); try done; [lia..|].
  exists s'. split; [done|]. split; [done|]. split; [|split; [done|split]].
  - rewrite read_block_view by (done || lia || by rewrite Hlen). f_equal.
    rewrite Hv. apply list_eq. intros i. destruct (decide (Z.of_nat i < zlen b)).
    + rewrite lookup_take_lt, lookup_drop, lookup_inserts_dec, view_length by lia.
      rewrite !decide_True by lia. f_equal. lia.
    + rewrite lookup_take_ge, lookup_ge_None_2 by lia. done.
  - intros ty' Hne. apply view_ext. intros c Hc. apply Hother.
    by apply (cells_disjoint layout ty' ty).
  - intros c Hc. apply Hother. intros Hin'. apply Hc.
    eapply elem_of_sublist; [done|apply cells_sublist].
Qed.

Lemma layouts_ok N : N ∈ [4; 10; 14] -> forall layout,
  layout ∈ [layout_default N; layout_copter N] ->
  ordered 0 layout = true /\
  fits (if N =? 4 then 4096 else if N =? 10 then 8192 else 16384) layout /\
  Forall (fun a => StorageManager.length a <= 65520) layout.
Proof.
  intros HN layout Hl. revert HN. rewrite !elem_of_cons in *.
  intros [->|[->|[->|[]%elem_of_nil]]];
    (destruct Hl as [->|[->|[]%elem_of_nil]]);
    (split; [reflexivity|split; repeat constructor; vm_compute; congruence]).
Qed.

Lemma num_areas_cases sz N : num_areas sz = Some N -> N ∈ [4; 10; 14] /\
  (if N =? 4 then 4096 else if N =? 10 then 8192 else 16384) <= sz.
Proof.
  unfold num_areas. rewrite !elem_of_cons.
  zcases; intros [= <-]; simpl; split; (lia || auto).
Qed.

Lemma fits_mono sz sz' layout : sz <= sz' <= 65536 -> fits sz layout -> fits sz' layout.
Proof. intros Hs Hf. eapply Forall_impl; [exact Hf|]. simpl. intros a. lia. Qed.

Lemma storage_roundtrip_witness :
  let b := [1; 2; 3; 4; 5; 6; 7; 8; 9; 10; 11; 12; 13; 14; 15] in
  exists s', write_block (layout_default 10) StorageMission
               (replicate (Z.to_nat 8192) 0) 2500 b
               = (true, s') /\
    read_block (layout_default 10) StorageMission s' [] 2500 15 = (true, b).
Proof.
  intros b.
  destruct (storage_roundtrip (layout_default 10) StorageMission
    (replicate (Z.to_nat 8192) 0) 2500 b) as (s' & Hw & _ & Hr & _); [done| |by repeat (constructor; [lia|])|lia|done| |].
  - destruct (layouts_ok 10) with (layout := layout_default 10) as (Ho & Hf & _);
      [set_solver|set_solver|].
    split; [exact Hf|by apply ordered_NoDup].
  - vm_compute. congruence.
  - by exists s'.
Defined.

(** For every supported storage size, both layouts keep their areas
    disjoint and inside the storage, and StorageAccess computes the number of
    bytes of each type without overflow of its 16 bits. *)
Theorem storage_layouts sz N layout ty :
  num_areas sz = Some N -> layout ∈ [layout_default N; layout_copter N] ->
  NoDup (all_cells layout) /\
  Forall (fun c => Z.of_nat c < sz) (all_cells layout) /\
  (forall ty', ty <> ty' -> forall c, c ∈ cells layout ty -> c ∉ cells layout ty') /\
  total_size layout ty = zlen (cells layout ty).
Proof.
  intros HN Hl.
  destruct (num_areas_cases _ _ HN) as [HN' Hsz]. destruct (layouts_ok N HN' layout Hl) as (Ho & Hf & _).
  pose proof (ordered_NoDup _ Ho) as Hnd. split; [done|]. split.
  { unfold all_cells. clear -Hf Hsz. induction Hf as [|a areas Ha _ IH]; [constructor|].
    apply Forall_app. split; [|done]. apply Forall_seq. lia. }
  split; [intros ty' Hne c Hc; by apply (cells_disjoint layout ty ty')|].
  clear -HN' Hl. revert HN'. rewrite !elem_of_cons in *.
  intros [->|[->|[->|[]%elem_of_nil]]];
    (destruct Hl as [->|[->|[]%elem_of_nil]]); destruct ty; vm_compute; reflexivity.
Qed.

Lemma storage_layouts_witness :
  num_areas 16384 = Some 14 /\
  total_size (layout_copter 14) StorageMission = zlen (cells (layout_copter 14) StorageMission).
Proof.
  split; [reflexivity|].
  apply (storage_layouts 16384 14); [reflexivity|set_solver].
Defined.

(** The number of bytes of a block goes through a [uint8_t]: a read or a
    write of 256 bytes or more never completes and returns false, whatever the
    room in the areas. *)
Theorem storage_block_limit {S} `{HalStorage S} layout ty (s : S) addr n b acc :
  0 <= addr < 65536 -> 256 <= n -> zlen b = n ->
  (read_block layout ty s acc addr n).1 = false /\
  (write_block layout ty s addr b).1 = false.
Proof.
  intros Ha Hn Hb. split.
  - clear b Hb. revert acc addr n Ha Hn.
    induction layout as [|a areas IH]; intros acc addr n Ha Hn.
    { apply Z.eqb_neq. lia. }
    cbn [read_block]. case_decide; [by apply IH|]. rewrite Z.geb_leb.
    destruct (Z.leb_spec (StorageManager.length a) addr).
    + apply IH; [apply u16_range|done].
    + pose proof (area_count_range (StorageManager.length a) addr n).
      rewrite (proj2 (Z.eqb_neq _ _)) by lia. apply IH; lia.
  - revert s addr n b Ha Hn Hb.
    induction layout as [|a areas IH]; intros s addr n b Ha Hn Hb.
    { apply Z.eqb_neq. lia. }
    cbn [write_block]. case_decide; [by eapply IH|]. rewrite Z.geb_leb.
    destruct (Z.leb_spec (StorageManager.length a) addr).
    + eapply IH; [apply u16_range|done|done].
    + pose proof (area_count_range (StorageManager.length a) addr (zlen b)).
      rewrite (proj2 (Z.eqb_neq _ _)) by lia.
      eapply IH; [lia| |reflexivity]. rewrite length_drop. lia.
Qed.

Lemma storage_block_limit_witness :
  (write_block (layout_default 4) StorageParam (replicate (Z.to_nat 4096) 0) 0
     (replicate (Z.to_nat 256) 7)).1 = false.
Proof.
  apply (storage_block_limit (layout_default 4) StorageParam (replicate (Z.to_nat 4096) 0) 0 256
           (replicate (Z.to_nat 256) 7) []); vm_compute; intuition congruence.
Defined.

(** [erase] clears every byte of every area of the layout and leaves the
    bytes between the areas alone. *)
Theorem storage_erase {S} `{HalStorageLaws S} (s : S) N layout :
  hs_ok s -> num_areas (zlen (hs_img s)) = Some N -> zlen (hs_img s) <= 65536 ->
  layout ∈ [layout_default N; layout_copter N] ->
  hs_ok (erase layout s) /\ zlen (hs_img (erase layout s)) = zlen (hs_img s) /\
  forall c, hs_img (erase layout s) !! c =
    if decide (c ∈ all_cells layout) then Some 0 else hs_img s !! c.
Proof.
  intros Hok HN Hsz Hl.
  destruct (num_areas_cases _ _ HN) as [HN' Hle]. destruct (layouts_ok N HN' layout Hl) as (_ & Hf & Hlen).
  apply erase_spec; [done| |done]. by eapply fits_mono.
Qed.

Lemma storage_erase_witness :
  exists s : list Z, zlen s = 4096 /\ num_areas (zlen s) = Some 4 /\
  zlen (erase (layout_default 4) s) = zlen s /\
  forall c, erase (layout_default 4) s !! c =
    if decide (c ∈ all_cells (layout_default 4)) then Some 0 else s !! c.
Proof.
  assert (Hs : exists s : list Z, zlen s = 4096)
    by (exists (replicate (Z.to_nat 4096) 255); rewrite length_replicate; lia).
  destruct Hs as [s Hs]. exists s.
  assert (HN : num_areas (zlen s) = Some 4) by (by rewrite Hs).
  split; [exact Hs|]. split; [exact HN|].
  refine (proj2 (storage_erase s 4 (layout_default 4) I HN _ _)); [simpl; lia|set_solver].
Defined.
