(* ===== verification/StorageView.v ===== *)
(** The bytes of one type of storage, as the clients of StorageManager use them:
    the state of a working storage, and what a sequence of writes leaves. *)
From S2P Require Import Prelude Storage.
Import StorageManager.
#[local] Abbreviation length := (@Datatypes.length _).

Section area.
Context {S : Type} `{HL : HalStorageLaws S}.
Context (layout : list StorageArea) (ty : StorageType).
Implicit Types (st : S).

(** The bytes of the type. *)
Definition aview st : list Z := view (hs_img st) (cells layout ty).

(** A working storage with the layout; [StorageManager] computes its size. *)
Definition area_ok st : Prop :=
  hs_ok st /\ layout_ok (zlen (hs_img st)) layout /\
  total_size layout ty = zlen (cells layout ty) /\
  4 <= zlen (cells layout ty) < 65536.

(** [b] went to address [a] of the type, and nothing else changed. *)
Definition area_wrote st (a : Z) (b : list Z) st' : Prop :=
  area_ok st' /\ aview st' = list_inserts (Z.to_nat a) b (aview st) /\
  forall c, c ∉ cells layout ty -> hs_img st' !! c = hs_img st !! c.

Lemma aview_length st : length (aview st) = length (cells layout ty).
Proof. apply view_length. Qed.

Lemma area_write st a b : area_ok st -> bytes b -> 0 <= a -> 0 < zlen b < 256 ->
  a + zlen b <= zlen (cells layout ty) ->
  area_wrote st a b (write_block layout ty st a b).2.
Proof.
  intros (Hok&Hl&Ht&Hs) Hbytes Ha Hb Hin.
  destruct (write_block_view layout ty st a b) as (st'&Hw&Hok'&Hlen&Hv&Ho);
    [done|done|done|done|done|done|lia|].
  rewrite Hw. simpl. split; [|done]. split; [done|]. by rewrite Hlen.
Qed.

Lemma inserts_inserts {A} a (b c l : list A) :
  list_inserts (a + length b) c (list_inserts a b l) = list_inserts a (b ++ c) l.
Proof.
  apply list_eq. intros i. rewrite !lookup_inserts_dec, length_inserts, length_app.
  repeat case_decide; try lia; try done.
  - rewrite lookup_app_r by lia. f_equal. lia.
  - by rewrite lookup_app_l by lia.
Qed.

Lemma area_wrote_trans st1 a b st2 a' c st3 : 0 <= a -> a' = a + zlen b ->
  area_wrote st1 a b st2 -> area_wrote st2 a' c st3 -> area_wrote st1 a (b ++ c) st3.
Proof.
  intros Ha -> (_&A2&A3) (A4&A5&A6). split; [done|]. split.
  - rewrite A5, A2, Z2Nat.inj_add, Nat2Z.id by lia. apply inserts_inserts.
  - intros d Hd. by rewrite A6, A3.
Qed.

(** One more write, next to what was written. *)
Lemma area_wrote_app st0 st a b c x : area_wrote st0 a b st -> bytes c -> 0 <= a -> x = a + zlen b ->
  0 < zlen c < 256 -> a + zlen b + zlen c <= zlen (cells layout ty) ->
  area_wrote st0 a (b ++ c) (write_block layout ty st x c).2.
Proof.
  intros Hw Hbytes Ha -> Hc Hin. eapply area_wrote_trans; [done|reflexivity|exact Hw|].
  apply area_write; [apply Hw|done|lia|done|done].
Qed.

(** Reading back. *)
Lemma area_read st a n : area_ok st -> 0 <= a -> 0 < n < 256 ->
  a + n <= zlen (cells layout ty) ->
  read_block layout ty st [] a n = (true, take (Z.to_nat n) (drop (Z.to_nat a) (aview st))).
Proof.
  intros (Hok&[Hf _]&_&Hs) Ha Hn Hin. by rewrite read_block_view by (done || lia).
Qed.
End area.
