(* ===== verification/FlashStorage.v ===== *)
(** Emulation of byte storage in two flash sectors:
    libraries/AP_FlashStorage/AP_FlashStorage.{h,cpp}.

    Each sector starts with a header (a state and a signature) and holds a log
    of blocks, each a 16-bit header and 8 to 64 bytes of [mem_buffer].  Flash
    bits can only be cleared, except by the erase of a whole sector.

    The four functors given to the constructor are the class [FlashDevice];
    [FlashLaws] is the flash rule they obey.  The device of the library's own
    test, examples/FlashTest/FlashTest.cpp, is an instance. *)
From S2P Require Import Prelude.

(** * The flash device *)
Class FlashDevice (F : Type) := {
  flash_write : F -> Z -> Z -> list Z -> bool * F;
  flash_read : F -> Z -> Z -> Z -> bool * list Z;
  flash_erase : F -> Z -> bool * F;
  flash_erase_ok : F -> bool
}.

(** Programming [bs] at offset [o] of a sector clears bits. *)
Definition program (img : list Z) (o : Z) (bs : list Z) : list Z :=
  list_inserts (Z.to_nat o)
    (zip_with Z.land (take (length bs) (drop (Z.to_nat o) img)) bs) img.

(** [flash_img f s] is the content of sector [s], of a device in a state
    [flash_ok].  A write inside a sector programs it; when it fails (a power
    failure, say) it has programmed the first half-words only.  Reads succeed.
    An erase that fails leaves the sector with unknown contents.  No operation
    touches the other sector. *)
Class FlashLaws (F : Type) `{FlashDevice F} (sector_size : Z) := {
  flash_img : F -> Z -> list Z;
  flash_ok : F -> Prop;
  flash_img_length f s : flash_ok f -> 0 <= s < 2 -> zlen (flash_img f s) = sector_size;
  flash_write_law f s o bs :
    flash_ok f -> 0 <= s < 2 -> 0 <= o -> o + zlen bs <= sector_size ->
    flash_ok (flash_write f s o bs).2 /\
    flash_img (flash_write f s o bs).2 (1 - s) = flash_img f (1 - s) /\
    exists k, flash_img (flash_write f s o bs).2 s =
                program (flash_img f s) o (take (2 * k) bs) /\
      ((flash_write f s o bs).1 = true -> (length bs <= 2 * k)%nat);
  flash_read_law f s o n :
    flash_ok f -> 0 <= s < 2 -> 0 <= o -> 0 <= n -> o + n <= sector_size ->
    flash_read f s o n =
    (true, take (Z.to_nat n) (drop (Z.to_nat o) (flash_img f s)));
  flash_erase_law f s : flash_ok f -> 0 <= s < 2 ->
    flash_ok (flash_erase f s).2 /\
    flash_img (flash_erase f s).2 (1 - s) = flash_img f (1 - s) /\
    ((flash_erase f s).1 = true ->
     flash_img (flash_erase f s).2 s = replicate (Z.to_nat sector_size) 255)
}.

(** A device on which no write and no erase fails. *)
Class FlashReliable (F : Type) `{FlashLaws F sector_size} : Prop := {
  flash_write_reliable f s o bs :
    flash_ok f -> 0 <= s < 2 -> 0 <= o -> o + zlen bs <= sector_size ->
    (flash_write f s o bs).1 = true;
  flash_erase_reliable f s : flash_ok f -> 0 <= s < 2 -> (flash_erase f s).1 = true
}.

Lemma program_length img o bs : length (program img o bs) = length img.
Proof. apply length_inserts. Qed.

(** The device of examples/FlashTest/FlashTest.cpp: two arrays. *)
Module FlashTest.
Record t := mk { flash0 : list Z; flash1 : list Z; erase_ok : bool }.

Definition sector_of (f : t) (sector : Z) : list Z :=
  if sector =? 0 then flash0 f else flash1 f.
Definition set_sector (f : t) (sector : Z) (l : list Z) : t :=
  if sector =? 0 then mk l (flash1 f) (erase_ok f) else mk (flash0 f) l (erase_ok f).

(** The loop [b[i] &= data[i]]. *)
Fixpoint and_bytes (b data : list Z) : list Z :=
  match b, data with
  | x :: b, y :: data => Z.land x y :: and_bytes b data
  | _, _ => b
  end.

(** The accesses outside a sector, on which the code panics, are not used. *)
Definition flash_write (f : t) (sector offset : Z) (data : list Z) : bool * t :=
  let b := sector_of f sector in
  (true, set_sector f sector (take (Z.to_nat offset) b ++
                              and_bytes (drop (Z.to_nat offset) b) data)).
Definition flash_read (f : t) (sector offset length : Z) : bool * list Z :=
  (true, take (Z.to_nat length) (drop (Z.to_nat offset) (sector_of f sector))).
Definition flash_erase (f : t) (sector : Z) : bool * t :=
  (true, set_sector f sector (replicate (length (sector_of f sector)) 0xFF)).
Definition flash_erase_ok (f : t) : bool := erase_ok f.

#[global] Instance device : FlashDevice t := {
  flash_write := flash_write;
  flash_read := flash_read;
  flash_erase := flash_erase;
  flash_erase_ok := flash_erase_ok
}.

Lemma and_bytes_program b data : (length data <= length b)%nat ->
  and_bytes b data = program b 0 data.
Proof.
  unfold program. rewrite drop_0. revert data.
  induction b as [|x b IH]; intros [|y data] Hl; simpl in *; try done.
  rewrite IH by lia. apply list_eq. intros [|j]; simpl.
  - by rewrite list_lookup_insert_eq by (rewrite length_inserts; simpl; lia).
  - rewrite list_lookup_insert_ne by done.
    rewrite (lookup_inserts_dec 1), (lookup_inserts_dec 0). simpl.
    repeat case_decide; try lia; done.
Qed.

Lemma program_drop img o data : 0 <= o -> o + zlen data <= zlen img ->
  program img o data =
  take (Z.to_nat o) img ++ program (drop (Z.to_nat o) img) 0 data.
Proof.
  intros Ho Hl. unfold program.
  rewrite <- (take_drop (Z.to_nat o) img) at 2.
  rewrite inserts_after_app by (rewrite length_take; lia).
  by rewrite drop_0.
Qed.

#[global] Instance laws sector_size : FlashLaws t sector_size.
Proof.
  refine {| flash_img := sector_of;
            flash_ok f := zlen (flash0 f) = sector_size /\ zlen (flash1 f) = sector_size |}.
  - intros f s [? ?] Hs. unfold sector_of. by destruct (s =? 0).
  - intros f s o bs [H0 H1] Hs Ho Hl. simpl.
    assert (Hlen : zlen (sector_of f s) = sector_size)
      by (unfold sector_of; by destruct (s =? 0)).
    rewrite and_bytes_program, <- program_drop by (rewrite ?length_drop; lia).
    split; [|split].
    + unfold set_sector. destruct (s =? 0) eqn:E; simpl; split; try done;
        rewrite program_length; done.
    + unfold set_sector, sector_of. destruct (Z.eqb_spec s 0); simpl.
      * subst. done.
      * by replace (1 - s) with 0 by lia.
    + exists (length bs). rewrite take_ge by lia. split; [|lia].
      unfold set_sector, sector_of. by destruct (s =? 0).
  - done.
  - intros f s [H0 H1] Hs. simpl. unfold set_sector.
    assert (Hlen : zlen (sector_of f s) = sector_size)
      by (unfold sector_of; by destruct (s =? 0)).
    destruct (Z.eqb_spec s 0) as [->|]; simpl; (split; [|split]);
      rewrite ?length_replicate; auto.
    + intros _. unfold sector_of in *. simpl in *. f_equal. lia.
    + by replace (1 - s) with 0 by lia.
    + intros _. unfold sector_of in *. destruct (Z.eqb_spec s 0); [lia|].
      simpl in *. f_equal. lia.
Defined.

#[global] Instance reliable sector_size : @FlashReliable t device sector_size (laws sector_size).
Proof. constructor; done. Qed.
End FlashTest.

(** A device whose power fails after a number of writes: from then on a write
    does nothing and fails. *)
Module PowerFail.
Section device.
Context {F : Type} `{FlashLaws F sector_size}.
#[global] Instance device : FlashDevice (F * nat) := {
  flash_write f s o bs :=
    match f with
    | (f, O) => (false, (f, O))
    | (f, S k) => let '(ok, f) := flash_write f s o bs in (ok, (f, k))
    end;
  flash_read f := flash_read f.1;
  flash_erase f s := let '(ok, f') := flash_erase f.1 s in (ok, (f', f.2));
  flash_erase_ok f := flash_erase_ok f.1
}.
#[global] Instance laws : FlashLaws (F * nat) sector_size.
Proof.
  refine {| flash_img f := flash_img f.1; flash_ok f := flash_ok f.1 |}.
  - intros f. exact (flash_img_length f.1).
  - intros [f [|k]] s o bs Hok Hs Ho Hl; simpl in *.
    + split; [done|]. split; [done|]. exists 0%nat. split; [|done].
      unfold program. simpl. done.
    + pose proof (flash_write_law f s o bs Hok Hs Ho Hl) as Hw.
      by destruct (flash_write f s o bs).
  - intros f. exact (flash_read_law f.1).
  - intros f s Hok Hs. pose proof (flash_erase_law f.1 s Hok Hs) as He. simpl.
    by destruct (flash_erase f.1 s).
Defined.
End device.
End PowerFail.

Module FlashStorage.

(** ** Constants *)
Definition block_size : Z := 8.
Definition max_write : Z := 64.
Definition signature : Z := 0x51685B.

Definition SECTOR_STATE_AVAILABLE : Z := 0xFF.
Definition SECTOR_STATE_IN_USE : Z := 0xFE.
Definition SECTOR_STATE_FULL : Z := 0xFC.

Definition BLOCK_STATE_AVAILABLE : Z := 3.
Definition BLOCK_STATE_WRITING : Z := 1.
Definition BLOCK_STATE_VALID : Z := 0.

(** [struct sector_header], bit fields of a 32-bit word *)
Record sector_header := SectorHeader { sh_state : Z; sh_signature : Z }.
Definition sector_header_bytes (h : sector_header) : list Z :=
  le_bytes 4 (sh_state h mod 2 ^ 8 + 2 ^ 8 * (sh_signature h mod 2 ^ 24)).
Definition sector_header_of (bs : list Z) : sector_header :=
  SectorHeader (le_val bs mod 2 ^ 8) (le_val bs / 2 ^ 8 mod 2 ^ 24).
Definition sizeof_sector_header : Z := 4.

(** [struct block_header], bit fields of a 16-bit word *)
Record block_header :=
  BlockHeader { bh_state : Z; block_num : Z; num_blocks_minus_one : Z }.
Definition block_header_bytes (h : block_header) : list Z :=
  le_bytes 2 (bh_state h mod 2 ^ 2 + 2 ^ 2 * (block_num h mod 2 ^ 11) +
              2 ^ 13 * (num_blocks_minus_one h mod 2 ^ 3)).
Definition block_header_of (bs : list Z) : block_header :=
  BlockHeader (le_val bs mod 2 ^ 2) (le_val bs / 2 ^ 2 mod 2 ^ 11)
              (le_val bs / 2 ^ 13 mod 2 ^ 3).
Definition sizeof_block_header : Z := 2.

Section flash.
Context {F : Type} `{FlashDevice F}.
(** [HAL_STORAGE_SIZE / block_size * block_size] and the size of a sector *)
Context (storage_size flash_sector_size : Z).

Record t := mk {
  mem_buffer : list Z;
  current_sector : Z;
  write_offset : Z;
  reserved_space : Z;
  write_error : bool;
  flash : F
}.

Definition set_mem_buffer (st : t) m :=
  mk m (current_sector st) (write_offset st) (reserved_space st) (write_error st) (flash st).
Definition set_current_sector (st : t) s :=
  mk (mem_buffer st) s (write_offset st) (reserved_space st) (write_error st) (flash st).
Definition set_write_offset (st : t) o :=
  mk (mem_buffer st) (current_sector st) o (reserved_space st) (write_error st) (flash st).
Definition set_reserved_space (st : t) r :=
  mk (mem_buffer st) (current_sector st) (write_offset st) r (write_error st) (flash st).
Definition set_write_error (st : t) e :=
  mk (mem_buffer st) (current_sector st) (write_offset st) (reserved_space st) e (flash st).
Definition set_flash (st : t) f :=
  mk (mem_buffer st) (current_sector st) (write_offset st) (reserved_space st) (write_error st) f.

(** A call of the [flash_write] and [flash_erase] functors. *)
Definition call_write (st : t) (sector offset : Z) (data : list Z) : bool * t :=
  let '(ok, f) := flash_write (flash st) sector offset data in (ok, set_flash st f).
Definition call_erase (st : t) (sector : Z) : bool * t :=
  let '(ok, f) := flash_erase (flash st) sector in (ok, set_flash st f).

Definition reserve_size : Z :=
  (storage_size / max_write) * (sizeof_block_header + max_write) + max_write.

(** ** Sectors *)
Definition erase_sector (st : t) (sector : Z) : bool * t :=
  let '(ok, st) := call_erase st sector in
  if negb ok then (false, st)
  else call_write st sector 0
         (sector_header_bytes (SectorHeader SECTOR_STATE_AVAILABLE signature)).

Definition erase_all (st : t) : bool * t :=
  let st := set_write_error st false in
  let st := set_current_sector st 0 in
  let st := set_write_offset st sizeof_sector_header in
  let '(ok, st) := erase_sector st 0 in
  if negb ok then (false, st)
  else
    let '(ok, st) := erase_sector st 1 in
    if negb ok then (false, st)
    else call_write st (current_sector st) 0
           (sector_header_bytes (SectorHeader SECTOR_STATE_IN_USE signature)).

Definition switch_sectors (st : t) : bool * t :=
  if negb (reserved_space st =? 0) then (false, st)
  else
    let new_sector := Z.lxor (current_sector st) 1 in
    let '(ok, bs) := flash_read (flash st) new_sector 0 sizeof_sector_header in
    if negb ok then (false, st)
    else
      let header := sector_header_of bs in
      if negb (sh_signature header =? signature) then (false, set_write_error st true)
      else if negb (SECTOR_STATE_AVAILABLE =? sh_state header)
      then (false, set_write_error st true)
      else
        let '(ok, st) := call_write st (current_sector st) 0
          (sector_header_bytes (SectorHeader SECTOR_STATE_FULL (sh_signature header))) in
        if negb ok then (false, st)
        else
          let '(ok, st) := call_write st new_sector 0
            (sector_header_bytes (SectorHeader SECTOR_STATE_IN_USE (sh_signature header))) in
          if negb ok then (false, st)
          else
            let st := set_current_sector st new_sector in
            let st := set_reserved_space st reserve_size in
            (true, set_write_offset st sizeof_sector_header).

(** ** Loading a sector *)
Fixpoint load_blocks (fuel : nat) (st : t) (sector ofs : Z) : outcome (bool * t) :=
  match fuel with
  | O => OutOfFuel
  | S fuel =>
    if ofs <? u32 (flash_sector_size - sizeof_block_header) then
      let '(ok, bs) := flash_read (flash st) sector ofs sizeof_block_header in
      if negb ok then Done (false, st)
      else
        let header := block_header_of bs in
        let block_nbytes := u16 ((num_blocks_minus_one header + 1) * block_size) in
        let block_ofs := u16 (block_num header * block_size) in
        if bh_state header =? BLOCK_STATE_AVAILABLE then
          Done (true, set_write_offset st ofs)
        else if bh_state header =? BLOCK_STATE_WRITING then
          load_blocks fuel st sector (u32 (ofs + block_nbytes + sizeof_block_header))
        else if bh_state header =? BLOCK_STATE_VALID then
          if block_ofs + block_nbytes >? storage_size then Done (false, st)
          else
            let '(ok, data) := flash_read (flash st) sector
                                 (ofs + sizeof_block_header) block_nbytes in
            if negb ok then Done (false, st)
            else
              m ← access (blk_set (mem_buffer st) block_ofs data);
              load_blocks fuel (set_mem_buffer st m) sector
                (u32 (ofs + block_nbytes + sizeof_block_header))
        else Done (false, st)
    else Done (true, set_write_offset st ofs)
  end.

(** Every pass moves at least one byte forward. *)
Definition load_sector (st : t) (sector : Z) : outcome (bool * t) :=
  load_blocks (S (Z.to_nat flash_sector_size)) st sector sizeof_sector_header.

(** ** Writing *)

(** [all_zero]: [size] bytes of [mem_buffer] at [ofs]. *)
Definition all_zero (st : t) (ofs size : Z) : outcome bool :=
  bs ← access (blk_get (mem_buffer st) ofs size);
  Done (forallb (Z.eqb 0) bs).

(** [write_all], given the function [write] it calls; [k] bounds the passes of
    its loop. *)
Fixpoint write_all_loop (write : t -> Z -> Z -> outcome (bool * t)) (k : nat)
    (st : t) (ofs : Z) : outcome (bool * t) :=
  match k with
  | O => OutOfFuel
  | S k =>
    if ofs <? storage_size then
      z ← all_zero st ofs max_write;
      '(ok, st) ← (if negb z then write st ofs max_write else Done (true, st));
      if negb ok then Done (false, st)
      else write_all_loop write k st (u16 (ofs + max_write))
    else Done (true, st)
  end.
Definition write_all_with write (st : t) : outcome (bool * t) :=
  write_all_loop write (S (Z.to_nat storage_size)) st 0.

Definition switch_full_sector_with write (st : t) : outcome (bool * t) :=
  let st := set_write_error st false in
  let st := set_reserved_space st 0 in
  '(ok, st) ← write_all_with write st;
  if negb ok then Done (false, st)
  else
    let '(ok, st) := erase_sector st (Z.lxor (current_sector st) 1) in
    if negb ok then Done (false, st)
    else Done (switch_sectors st).

(** The block of [write] that makes room, and the three flash writes of a
    block header and its data. *)
Definition make_room write (st : t) : outcome (bool * t) :=
  if write_offset st >?
     u32 (flash_sector_size - (sizeof_block_header + max_write + reserved_space st))
  then
    let '(ok, st) := switch_sectors st in
    if ok then Done (true, st)
    else if negb (flash_erase_ok (flash st)) then Done (false, st)
    else switch_full_sector_with write st
  else Done (true, st).

Definition write_one (st : t) (num nb : Z) (data : list Z) : bool * t :=
  let header := BlockHeader BLOCK_STATE_WRITING num nb in
  let '(ok, st) := call_write st (current_sector st) (write_offset st)
                     (block_header_bytes header) in
  if negb ok then (false, st)
  else
    let '(ok, st) := call_write st (current_sector st)
                       (u32 (write_offset st + sizeof_block_header)) data in
    if negb ok then (false, st)
    else
      let header := BlockHeader BLOCK_STATE_VALID num nb in
      let '(ok, st) := call_write st (current_sector st) (write_offset st)
                         (block_header_bytes header) in
      if negb ok then (false, st)
      else (true, set_write_offset st
                    (u32 (write_offset st + (sizeof_block_header + zlen data)))).

(** The loop of [write]; the calls below it take the remaining [fuel]. *)
Fixpoint write_loop (fuel : nat) (st : t) (offset length : Z)
  : outcome (bool * t) :=
  match fuel with
  | O => OutOfFuel
  | S fuel =>
    if length >? 0 then
      let n := if length <? max_write then u8 length else max_write in
      '(ok, st) ← make_room
        (fun st offset length =>
           if write_error st then Done (false, st)
           else write_loop fuel st offset length) st;
      if negb ok then Done (false, st)
      else
        let num := (offset / block_size) mod 2 ^ 11 in
        let nb := ((n + (block_size - 1)) / block_size - 1) mod 2 ^ 3 in
        let block_ofs := u16 (num * block_size) in
        let block_nbytes := u16 ((nb + 1) * block_size) in
        data ← access (blk_get (mem_buffer st) block_ofs block_nbytes);
        let '(ok, st) := write_one st num nb data in
        if negb ok then Done (false, st)
        else
          let n2 := u8 (block_nbytes - offset mod block_size) in
          if n2 >? length then Done (true, st)
          else write_loop fuel st (u16 (offset + n2)) (u16 (length - n2))
    else Done (true, st)
  end.

Definition write (fuel : nat) (st : t) (offset length : Z) : outcome (bool * t) :=
  if write_error st then Done (false, st) else write_loop fuel st offset length.

Definition write_all (fuel : nat) (st : t) : outcome (bool * t) :=
  write_all_with (write fuel) st.
Definition switch_full_sector (fuel : nat) (st : t) : outcome (bool * t) :=
  switch_full_sector_with (write fuel) st.

(** ** Initialisation *)

(** The two first loops of [init]: the header of sector [i], or [None] for a
    bad one; the [inl] result is a read error. *)
Definition read_header (st : t) (i : Z) : unit + option sector_header :=
  let '(ok, bs) := flash_read (flash st) i 0 sizeof_sector_header in
  if negb ok then inl tt
  else
    let h := sector_header_of bs in
    if (sh_signature h =? signature) &&
       ((sh_state h =? SECTOR_STATE_AVAILABLE) || (sh_state h =? SECTOR_STATE_IN_USE)
        || (sh_state h =? SECTOR_STATE_FULL))
    then inr (Some h) else inr None.

Definition first_sector (s0 s1 : Z) : Z :=
  if s0 =? s1 then 0
  else if s0 =? SECTOR_STATE_FULL then 0
  else if s1 =? SECTOR_STATE_FULL then 1
  else if s0 =? SECTOR_STATE_IN_USE then 0
  else if s1 =? SECTOR_STATE_IN_USE then 1
  else 0.

(** Loads a sector that has data. *)
Definition load_if (st : t) (state sector : Z) : outcome (bool * t) :=
  if (state =? SECTOR_STATE_IN_USE) || (state =? SECTOR_STATE_FULL)
  then load_sector st sector else Done (true, st).

Definition erase_if (st : t) (state sector : Z) : bool * t :=
  if state =? SECTOR_STATE_FULL then erase_sector st sector else (true, st).

(** [init] once both headers are good and the states are not equal used ones. *)
Definition init_load (fuel : nat) (st : t) (s0 s1 : Z) : outcome (bool * t) :=
  let state i := if i =? 0 then s0 else s1 in
  let first := first_sector s0 s1 in
  let second := Z.land (first + 1) 1 in
  '(ok, st) ← load_if st (state first) first;
  if negb ok then Done (erase_all st)
  else
    '(ok, st) ← load_if st (state second) second;
    if negb ok then Done (erase_all st)
    else
      let st := set_write_error st false in
      let st := set_reserved_space st 0 in
      '(ok, st) ←
        (if state first =? SECTOR_STATE_FULL
         then write_all fuel (set_current_sector st (Z.lxor first 1))
         else Done (true, st));
      if negb ok then Done (erase_all st)
      else
        let '(ok, st) := erase_if st s0 0 in
        if negb ok then Done (false, st)
        else
          let '(ok, st) := erase_if st s1 1 in
          if negb ok then Done (false, st)
          else Done (true, set_reserved_space st 0).

Definition init (fuel : nat) (st : t) : outcome (bool * t) :=
  let st := set_mem_buffer st (replicate (Z.to_nat storage_size) 0) in
  match read_header st 0 with
  | inl _ => Done (false, st)
  | inr None => Done (erase_all st)
  | inr (Some h0) =>
    match read_header st 1 with
    | inl _ => Done (false, st)
    | inr None => Done (erase_all st)
    | inr (Some h1) =>
      if (sh_state h0 =? sh_state h1) && negb (sh_state h0 =? SECTOR_STATE_AVAILABLE)
      then Done (erase_all st)
      else init_load fuel st (sh_state h0) (sh_state h1)
    end
  end.

Definition re_initialise (fuel : nat) (st : t) : outcome (bool * t) :=
  if negb (flash_erase_ok (flash st)) then Done (false, st)
  else
    let '(ok, st) := erase_all st in
    if negb ok then Done (false, st) else write_all fuel st.
End flash.
Arguments t F : clear implicits.
End FlashStorage.
