(* ===== verification/FlashLog.v ===== *)
(** The log of blocks of a flash sector, as an abstract list: encoding, replay,
    and what [load_sector], [write_one], [erase_sector] and the sector headers
    of AP_FlashStorage do to it. *)
From S2P Require Import Prelude FlashStorage.
Import FlashStorage.

(** * Bytes *)
Lemma zip_land_255 n bs : bytes bs -> (length bs <= n)%nat ->
  zip_with Z.land (take (length bs) (replicate n 255)) bs = bs.
Proof.
  intros Hb. revert n. induction Hb as [|b bs Hb _ IH]; intros n Hl; [done|].
  destruct n as [|n]; simpl in *; [lia|]. rewrite IH by lia. f_equal.
  rewrite Z.land_comm. change 255 with (Z.ones 8). rewrite Z.land_ones by lia.
  by apply Z.mod_small.
Qed.

(** Programming the bytes [mid] found after [pre]. *)
Lemma program_app pre mid post bs : length mid = length bs ->
  program (pre ++ mid ++ post) (zlen pre) bs = pre ++ zip_with Z.land mid bs ++ post.
Proof.
  intros Hl. unfold program. rewrite Nat2Z.id.
  rewrite inserts_after_app by done. f_equal.
  rewrite drop_app_length, <- Hl, take_app_length.
  by rewrite list_inserts_0_r by (rewrite length_zip_with; lia).
Qed.

(** Programming erased flash stores the bytes. *)
Lemma program_erased pre n bs : bytes bs -> (length bs <= n)%nat ->
  program (pre ++ replicate n 255) (zlen pre) bs =
  pre ++ bs ++ replicate (n - length bs) 255.
Proof.
  intros Hb Hl. replace n with (length bs + (n - length bs))%nat at 1 by lia.
  rewrite replicate_add, program_app by by rewrite length_replicate.
  f_equal. f_equal. rewrite <- (zip_land_255 (length bs) bs) at 3 by done.
  f_equal. rewrite take_ge by (rewrite length_replicate; lia). done.
Qed.

Lemma program_nil img o : program img o [] = img.
Proof. done. Qed.

(** The bytes read after [pre]. *)
Lemma slice_app (pre xs post : list Z) n : n = zlen xs ->
  take (Z.to_nat n) (drop (Z.to_nat (zlen pre)) (pre ++ xs ++ post)) = xs.
Proof. intros ->. by rewrite !Nat2Z.id, drop_app_length, take_app_length. Qed.

(** * Headers *)
Lemma sector_header_bytes_length h : length (sector_header_bytes h) = 4%nat.
Proof. apply le_bytes_length. Qed.
Lemma block_header_bytes_length h : length (block_header_bytes h) = 2%nat.
Proof. apply le_bytes_length. Qed.

Lemma sector_header_roundtrip st sig : 0 <= st < 2 ^ 8 -> 0 <= sig < 2 ^ 24 ->
  sector_header_of (sector_header_bytes (SectorHeader st sig)) = SectorHeader st sig.
Proof.
  intros Hs Hg. unfold sector_header_of, sector_header_bytes. simpl sh_state.
  simpl sh_signature. rewrite !(Z.mod_small st), !(Z.mod_small sig) by lia.
  rewrite le_val_bytes by (change (256 ^ _) with (2 ^ 32); lia).
  rewrite !(Z.mul_comm (2 ^ 8)), Z_div_plus, Z_mod_plus, (Z.mod_small st),
    (Z.div_small st), Z.mod_small by lia. done.
Qed.

Lemma block_header_roundtrip st num nb :
  0 <= st < 4 -> 0 <= num < 2048 -> 0 <= nb < 8 ->
  block_header_of (block_header_bytes (BlockHeader st num nb)) = BlockHeader st num nb.
Proof.
  intros Hs Hn Hb. unfold block_header_of, block_header_bytes. simpl bh_state.
  simpl block_num. simpl num_blocks_minus_one.
  change (2 ^ 2) with 4. change (2 ^ 11) with 2048. change (2 ^ 3) with 8.
  change (2 ^ 13) with 8192.
  rewrite !(Z.mod_small st 4), !(Z.mod_small num 2048), !(Z.mod_small nb 8) by lia.
  rewrite le_val_bytes by (change (256 ^ _) with 65536; lia).
  f_equal; zlia.
Qed.

(** Marking a block valid clears its state bits only. *)
Lemma block_header_valid num nb : 0 <= num < 2048 -> 0 <= nb < 8 ->
  zip_with Z.land (block_header_bytes (BlockHeader BLOCK_STATE_WRITING num nb))
                  (block_header_bytes (BlockHeader BLOCK_STATE_VALID num nb)) =
  block_header_bytes (BlockHeader BLOCK_STATE_VALID num nb).
Proof.
  intros Hn Hb. unfold block_header_bytes. simpl.
  change (2 ^ 2) with 4. change (2 ^ 11) with 2048. change (2 ^ 3) with 8.
  change (2 ^ 13) with 8192. change (BLOCK_STATE_WRITING mod 4) with 1.
  change (BLOCK_STATE_VALID mod 4) with 0.
  rewrite !(Z.mod_small num 2048), !(Z.mod_small nb 8) by lia.
  set (v := 0 + 4 * num + 8192 * nb).
  replace (1 + 4 * num + 8192 * nb) with (v + 1) by (unfold v; lia).
  assert (Hd : (v + 1) / 256 = v / 256) by (unfold v; zlia).
  rewrite Hd, !Z.land_diag. f_equal.
  assert (Hm : (v + 1) mod 256 = v mod 256 + 1) by (unfold v; zlia).
  assert (Hq : exists q, v mod 256 = 2 * q) by (exists (v mod 256 / 2); unfold v; zlia).
  destruct Hq as [q Hq]. rewrite Hm, Hq. apply Z.bits_inj'. intros n Hn0.
  rewrite Z.land_spec. destruct (Z.eq_dec n 0) as [->|].
  - rewrite Z.testbit_even_0. by rewrite andb_false_r.
  - replace n with (Z.succ (n - 1)) by lia.
    rewrite Z.testbit_odd_succ, Z.testbit_even_succ by lia. by rewrite andb_diag.
Qed.

(** [header.state] with the signature of the library. *)
Definition hdr (state : Z) : list Z := sector_header_bytes (SectorHeader state signature).

Definition good_state (s : Z) : Prop :=
  s = SECTOR_STATE_AVAILABLE \/ s = SECTOR_STATE_IN_USE \/ s = SECTOR_STATE_FULL.

Lemma hdr_roundtrip s : good_state s -> sector_header_of (hdr s) = SectorHeader s signature.
Proof. by intros [->|[->| ->]]. Qed.

(** A sector header only moves from available to in use to full. *)
Lemma hdr_program s s' k : good_state s -> good_state s' -> s' <= s ->
  program (hdr s) 0 (take (2 * k) (hdr s')) = if decide (k = 0%nat) then hdr s else hdr s'.
Proof.
  intros Hs Hs' Hle. destruct k as [|k]; [apply program_nil|].
  rewrite decide_False by done.
  destruct k as [|k].
  - destruct Hs as [->|[->| ->]], Hs' as [->|[->| ->]]; done || reflexivity.
  - rewrite take_ge by (unfold hdr; rewrite sector_header_bytes_length; lia).
    destruct Hs as [->|[->| ->]], Hs' as [->|[->| ->]]; done || reflexivity.
Qed.

(** * Logs *)

(** A block of the log: [b_valid] when its header was marked valid, and at
    least [WRITING] otherwise. *)
Record blk := Blk { b_valid : bool; b_num : Z; b_data : list Z }.

Definition b_header (b : blk) : block_header :=
  BlockHeader (if b_valid b then BLOCK_STATE_VALID else BLOCK_STATE_WRITING)
    (b_num b) (zlen (b_data b) / block_size - 1).

Definition enc (b : blk) : list Z := block_header_bytes (b_header b) ++ b_data b.
Definition log_bytes (L : list blk) : list Z := concat (enc <$> L).

(** What a block does to the storage when the log is loaded. *)
Definition apply (m : list Z) (b : blk) : list Z :=
  if b_valid b then list_inserts (Z.to_nat (b_num b * block_size)) (b_data b) m else m.
Definition replay (L : list blk) (m : list Z) : list Z := fold_left apply L m.

Section log.
Context {F : Type} {sector_size : Z} `{FlashLaws F sector_size}.
Context (storage_size : Z).

Definition blk_ok (b : blk) : Prop :=
  0 <= b_num b < 2048 /\ bytes (b_data b) /\
  (exists m, zlen (b_data b) = 8 * m /\ 1 <= m <= 8) /\
  (b_valid b = true -> b_num b * block_size + zlen (b_data b) <= storage_size).

(** Sector [s] has state [st] and the log [L], and is erased after it. *)
Record sector_is (f : F) (s st : Z) (L : list blk) : Prop := {
  si_img : exists n,
    flash_img f s = hdr st ++ log_bytes L ++ replicate n 255;
  si_state : good_state st;
  si_ok : Forall blk_ok L
}.

Lemma enc_length b : zlen (enc b) = 2 + zlen (b_data b).
Proof. unfold enc. rewrite length_app, block_header_bytes_length. lia. Qed.

Lemma log_bytes_app L1 L2 : log_bytes (L1 ++ L2) = log_bytes L1 ++ log_bytes L2.
Proof. unfold log_bytes. by rewrite fmap_app, concat_app. Qed.
Lemma log_bytes_cons b L : log_bytes (b :: L) = enc b ++ log_bytes L.
Proof. done. Qed.
Lemma log_bytes_one b : log_bytes [b] = enc b.
Proof. unfold log_bytes. simpl. by rewrite app_nil_r. Qed.

Lemma replay_length L m : length (replay L m) = length m.
Proof.
  revert m. induction L as [|b L IH]; intros m; simpl; [done|].
  rewrite IH. unfold apply. destruct (b_valid b); [apply length_inserts|done].
Qed.
Lemma replay_app L1 L2 m : replay (L1 ++ L2) m = replay L2 (replay L1 m).
Proof. apply fold_left_app. Qed.

(** A byte of the result comes from the log, or from the base if no block of
    the log covers it. *)
Lemma replay_base L m1 m2 j : length m1 = length m2 ->
  replay L m1 !! j = replay L m2 !! j \/
  (replay L m1 !! j = m1 !! j /\ replay L m2 !! j = m2 !! j).
Proof.
  revert m1 m2. induction L as [|b L IH]; intros m1 m2 Hl; simpl; [by right|].
  assert (Hl' : length (apply m1 b) = length (apply m2 b))
    by (unfold apply; destruct (b_valid b); rewrite ?length_inserts; done).
  destruct (IH _ _ Hl') as [?|[E1 E2]]; [by left|].
  rewrite E1, E2. unfold apply. destruct (b_valid b); [|by right].
  rewrite !lookup_inserts_dec, Hl. case_decide; [by left|by right].
Qed.

Lemma blk_nb b : blk_ok b ->
  0 <= zlen (b_data b) / block_size - 1 < 8 /\
  u16 ((zlen (b_data b) / block_size - 1 + 1) * block_size) = zlen (b_data b) /\
  8 <= zlen (b_data b) <= 64.
Proof.
  intros (_ & _ & (m & Hm & Hr) & _). unfold block_size. rewrite Hm.
  rewrite Z.mul_comm, Z.div_mul by lia. rewrite u16_small by lia. lia.
Qed.

Lemma b_header_of b : blk_ok b ->
  block_header_of (block_header_bytes (b_header b)) = b_header b.
Proof.
  intros Hb. destruct (blk_nb b Hb) as (? & _). destruct Hb as (? & _).
  apply block_header_roundtrip; [|done|done].
  unfold BLOCK_STATE_VALID, BLOCK_STATE_WRITING. destruct (b_valid b); lia.
Qed.

Lemma blk_header_bytes_bytes h : bytes (block_header_bytes h).
Proof. apply le_bytes_bytes. Qed.

Lemma erased_header : block_header_of [255; 255] = BlockHeader 3 2047 7.
Proof. reflexivity. Qed.

(** Reading after a prefix of the image. *)
Lemma read_after f s pre xs post : flash_ok f -> 0 <= s < 2 ->
  flash_img f s = pre ++ xs ++ post ->
  flash_read f s (zlen pre) (zlen xs) = (true, xs).
Proof.
  intros Hok Hs Himg. pose proof (flash_img_length f s Hok Hs) as Hl.
  rewrite Himg, !length_app in Hl.
  rewrite flash_read_law, Himg by (done || lia). by rewrite slice_app.
Qed.

(** ** Loading *)
Context (Hstorage : 0 <= storage_size <= 16384).
Context (Hsector : 64 <= sector_size < 2147483648).

(** The state after a sector with log [L] was loaded. *)
Definition loaded (st : t F) (L : list blk) (ofs : Z) : t F :=
  set_write_offset (set_mem_buffer st (replay L (mem_buffer st))) ofs.

Lemma load_blocks_end fuel st s ofs pre n : flash_ok (flash st) -> 0 <= s < 2 ->
  flash_img (flash st) s = pre ++ replicate n 255 -> ofs = zlen pre ->
  load_blocks storage_size sector_size (S fuel) st s ofs =
  Done (true, set_write_offset st ofs).
Proof.
  intros Hok Hs Himg ->. pose proof (flash_img_length _ s Hok Hs) as Hl.
  rewrite Himg, length_app, length_replicate in Hl.
  cbn [load_blocks]. unfold sizeof_block_header. rewrite u32_small by lia.
  destruct (Z.ltb_spec (zlen pre) (sector_size - 2)); [|done].
  destruct n as [|[|n]]; [lia..|]. change 2 with (zlen [255; 255]).
  rewrite (read_after _ _ pre [255; 255] (replicate n 255)) by done.
  cbn [negb]. by rewrite erased_header.
Qed.

(** One pass of the loop, over the block [b]. *)
Lemma load_blocks_step s fuel st pre b post : 0 <= s < 2 ->
  flash_ok (flash st) -> flash_img (flash st) s = pre ++ enc b ++ post ->
  blk_ok b -> zlen (mem_buffer st) = storage_size ->
  load_blocks storage_size sector_size (S fuel) st s (zlen pre) =
  load_blocks storage_size sector_size fuel
    (set_mem_buffer st (apply (mem_buffer st) b)) s (zlen (pre ++ enc b)).
Proof.
  intros Hs Hok Himg Hb Hm.
  pose proof (flash_img_length _ s Hok Hs) as Hl.
  rewrite Himg, !length_app in Hl. pose proof (enc_length b) as He.
  destruct (blk_nb b Hb) as (Hnb & Hnb' & Hlen).
  cbn [load_blocks]. unfold sizeof_block_header. rewrite u32_small by lia.
  destruct (Z.ltb_spec (zlen pre) (sector_size - 2)); [|lia].
  assert (Hh : flash_read (flash st) s (zlen pre) 2 =
               (true, block_header_bytes (b_header b))).
  { apply (read_after _ _ pre (block_header_bytes (b_header b)) (b_data b ++ post));
      [done..|]. rewrite Himg. unfold enc. by rewrite <- !app_assoc. }
  assert (Hd : flash_read (flash st) s (zlen pre + 2) (zlen (b_data b)) = (true, b_data b)).
  { pose proof (read_after (flash st) s (pre ++ block_header_bytes (b_header b))
      (b_data b) post Hok Hs) as Hr.
    rewrite length_app, block_header_bytes_length, Nat2Z.inj_add in Hr.
    apply Hr. rewrite Himg. unfold enc. by rewrite <- !app_assoc. }
  rewrite Hh. cbn [negb]. rewrite b_header_of by done.
  cbn [b_header bh_state block_num num_blocks_minus_one]. rewrite Hnb'.
  replace (u32 (zlen pre + zlen (b_data b) + 2)) with (zlen (pre ++ enc b))
    by (rewrite length_app, u32_small; lia).
  destruct Hb as (Hnum & _ & _ & Hfit). unfold apply.
  destruct b as [[|] num data]; cbn [b_valid b_num b_data] in *.
  - specialize (Hfit eq_refl). unfold block_size in *. rewrite u16_small by lia.
    simpl (BLOCK_STATE_VALID =? _). cbn [negb].
    rewrite Z.gtb_ltb, (proj2 (Z.ltb_ge storage_size (num * 8 + zlen data))) by lia.
    rewrite Hd. cbn [negb].
    rewrite blk_set_Some by lia. done.
  - by destruct st.
Qed.

Lemma apply_length m b : length (apply m b) = length m.
Proof. unfold apply. destruct (b_valid b); rewrite ?length_inserts; done. Qed.

Lemma load_blocks_spec s L : 0 <= s < 2 -> forall fuel st pre n,
  flash_ok (flash st) -> flash_img (flash st) s = pre ++ log_bytes L ++ replicate n 255 ->
  Forall blk_ok L -> zlen (mem_buffer st) = storage_size -> (length L < fuel)%nat ->
  load_blocks storage_size sector_size fuel st s (zlen pre) =
  Done (true, loaded st L (zlen pre + zlen (log_bytes L))).
Proof.
  intros Hs. induction L as [|b L IH]; intros fuel st pre n Hok Himg HL Hm Hf;
    (destruct fuel as [|fuel]; [simpl in Hf; lia|]).
  { rewrite (load_blocks_end fuel st s (zlen pre) pre n) by done.
    unfold loaded. simpl. by rewrite Z.add_0_r. }
  apply Forall_cons in HL as [Hb HL]. rewrite log_bytes_cons in *.
  rewrite <- app_assoc in Himg. simpl in Hf.
  rewrite (load_blocks_step s fuel st pre b (log_bytes L ++ replicate n 255)) by done.
  rewrite (IH fuel _ (pre ++ enc b) n);
    [|done|by rewrite <- app_assoc|done|simpl; by rewrite apply_length|lia].
  replace (zlen (pre ++ enc b) + _) with (zlen pre + zlen (enc b ++ log_bytes L))
    by (rewrite !length_app; lia).
  done.
Qed.

(** [load_sector] replays the log of the sector on [mem_buffer] and finds its
    end. *)
Lemma load_sector_spec st s state L : 0 <= s < 2 -> flash_ok (flash st) ->
  sector_is (flash st) s state L -> zlen (mem_buffer st) = storage_size ->
  load_sector storage_size sector_size st s =
  Done (true, loaded st L (4 + zlen (log_bytes L))).
Proof.
  intros Hs Hok [[n Himg] _ HL] Hm. unfold load_sector.
  change sizeof_sector_header with (zlen (hdr state)).
  assert (Hlen : (2 * length L <= length (log_bytes L))%nat).
  { clear -L. induction L as [|b L IH]; [done|]. rewrite log_bytes_cons, length_app.
    pose proof (enc_length b). simpl. lia. }
  pose proof (flash_img_length _ s Hok Hs) as Hl.
  rewrite Himg, !length_app in Hl.
  rewrite (load_blocks_spec s L Hs _ st (hdr state) n); try done; lia.
Qed.

(** ** Writing a block *)

(** A flash write of the code: it changes the flash only, at most the bytes
    written, and only a prefix of them when it fails. *)
Lemma call_write_spec (st : t F) s o bs : flash_ok (flash st) -> 0 <= s < 2 ->
  0 <= o -> o + zlen bs <= sector_size ->
  exists ok f', call_write st s o bs = (ok, set_flash st f') /\ flash_ok f' /\
    flash_img f' (1 - s) = flash_img (flash st) (1 - s) /\
    exists k, flash_img f' s = program (flash_img (flash st) s) o (take (2 * k) bs) /\
      (ok = true -> (length bs <= 2 * k)%nat).
Proof.
  intros Hok Hs Ho Hl. pose proof (flash_write_law _ s o bs Hok Hs Ho Hl) as Hw.
  unfold call_write. destruct (flash_write (flash st) s o bs) as [ok f'].
  exists ok, f'. split; [done|]. exact Hw.
Qed.

(** The block header goes to erased flash. *)
Lemma write_header_spec (st : t F) s pre n h : flash_ok (flash st) -> 0 <= s < 2 ->
  flash_img (flash st) s = pre ++ replicate n 255 -> (2 <= n)%nat ->
  exists ok f', call_write st s (zlen pre) (block_header_bytes h) = (ok, set_flash st f') /\
    flash_ok f' /\ flash_img f' (1 - s) = flash_img (flash st) (1 - s) /\
    (flash_img f' s = pre ++ block_header_bytes h ++ replicate (n - 2) 255 \/
     (ok = false /\ flash_img f' s = flash_img (flash st) s)).
Proof.
  intros Hok Hs Himg Hn. pose proof (flash_img_length _ s Hok Hs) as Hl.
  rewrite Himg, length_app, length_replicate in Hl.
  pose proof (block_header_bytes_length h) as Hh.
  destruct (call_write_spec st s (zlen pre) (block_header_bytes h))
    as (ok & f' & Hc & Hok' & Ho' & k & Hi & Hk); [done|done|lia|lia|].
  exists ok, f'. split; [done|]. split; [done|]. split; [done|].
  destruct k as [|k].
  - right. destruct ok; [specialize (Hk eq_refl); lia|done].
  - left. rewrite Hi, Himg, take_ge, program_erased by (lia || apply le_bytes_bytes).
    by rewrite Hh.
Qed.

(** What can be in the log after the attempt to append a block. *)
Definition appended (ok : bool) (L L' : list blk) (num : Z) (data : list Z) : Prop :=
  L' = L ++ [Blk true num data] \/
  (ok = false /\ (L' = L \/ exists junk, L' = L ++ [Blk false num junk])).

Lemma blk_ok_junk num data junk : blk_ok (Blk true num data) ->
  length junk = length data -> bytes junk -> blk_ok (Blk false num junk).
Proof.
  intros (Hn & _ & Hm & _) Hl Hj. unfold blk_ok. simpl in *. rewrite Hl.
  split; [done|]. split; [done|]. split; [done|]. done.
Qed.

Lemma sector_is_snoc f s state L v num data d n : good_state state -> Forall blk_ok L ->
  blk_ok (Blk true num data) -> length d = length data -> bytes d ->
  (v = true -> d = data) ->
  flash_img f s = (hdr state ++ log_bytes L) ++
    block_header_bytes (BlockHeader (if v then BLOCK_STATE_VALID else BLOCK_STATE_WRITING)
                          num (zlen data / block_size - 1)) ++
    d ++ replicate n 255 ->
  sector_is f s state (L ++ [Blk v num d]).
Proof.
  intros Hst HL Hb Hl Hd Hv Himg. constructor; [|done|].
  - exists n. rewrite Himg, log_bytes_app, log_bytes_one. unfold enc, b_header.
    cbn [b_valid b_num b_data]. by rewrite Hl, <- !app_assoc.
  - apply Forall_app_2, Forall_singleton; [done|]. destruct v.
    + by rewrite Hv.
    + by eapply blk_ok_junk.
Qed.

Lemma write_data_spec (st : t F) s pre n data : flash_ok (flash st) -> 0 <= s < 2 ->
  flash_img (flash st) s = pre ++ replicate n 255 -> (length data <= n)%nat ->
  bytes data ->
  exists ok f' d', call_write st s (zlen pre) data = (ok, set_flash st f') /\
    flash_ok f' /\ flash_img f' (1 - s) = flash_img (flash st) (1 - s) /\
    flash_img f' s = pre ++ d' ++ replicate (n - length data) 255 /\
    length d' = length data /\ bytes d' /\ (ok = true -> d' = data).
Proof.
  intros Hok Hs Himg Hn Hb. pose proof (flash_img_length _ s Hok Hs) as Hl.
  rewrite Himg, length_app, length_replicate in Hl.
  destruct (call_write_spec st s (zlen pre) data)
    as (ok & f' & Hc & Hok' & Ho' & k & Hi & Hk); [done|done|lia|lia|].
  exists ok, f', (take (2 * k) data ++ replicate (length data - 2 * k) 255).
  split; [done|]. split; [done|]. split; [done|]. split; [|split; [|split]].
  - rewrite Hi, Himg, program_erased; [|by apply Forall_take|rewrite length_take; lia].
    rewrite <- app_assoc, <- replicate_add, length_take. do 3 f_equal. lia.
  - rewrite length_app, length_take, length_replicate. lia.
  - apply Forall_app. split; [by apply Forall_take|]. by apply Forall_replicate.
  - intros E. specialize (Hk E). rewrite take_ge by lia.
    replace (length data - 2 * k)%nat with 0%nat by lia. apply app_nil_r.
Qed.

Lemma write_valid_spec (st : t F) s pre num nb post : flash_ok (flash st) ->
  0 <= s < 2 -> 0 <= num < 2048 -> 0 <= nb < 8 ->
  let h state := block_header_bytes (BlockHeader state num nb) in
  flash_img (flash st) s = pre ++ h BLOCK_STATE_WRITING ++ post ->
  exists ok f', call_write st s (zlen pre) (h BLOCK_STATE_VALID) = (ok, set_flash st f') /\
    flash_ok f' /\ flash_img f' (1 - s) = flash_img (flash st) (1 - s) /\
    (flash_img f' s = pre ++ h BLOCK_STATE_VALID ++ post \/
     (ok = false /\ flash_img f' s = flash_img (flash st) s)).
Proof.
  intros Hok Hs Hnum Hnb h Himg. pose proof (flash_img_length _ s Hok Hs) as Hl.
  assert (Hh : forall x, length (h x) = 2%nat) by (intros; apply le_bytes_length).
  rewrite Himg, !length_app, Hh in Hl.
  destruct (call_write_spec st s (zlen pre) (h BLOCK_STATE_VALID))
    as (ok & f' & Hc & Hok' & Ho' & k & Hi & Hk); [done|done|lia|rewrite Hh; lia|].
  exists ok, f'. split; [done|]. split; [done|]. split; [done|].
  destruct k as [|k].
  - right. destruct ok; [specialize (Hk eq_refl); rewrite Hh in Hk; lia|done].
  - left. rewrite Hi, Himg, take_ge, program_app by (rewrite ?Hh; lia).
    unfold h. by rewrite block_header_valid.
Qed.

(** [write_one] appends the block to the log of the current sector; when one of
    its three flash writes fails, the log has the block, or a block that the
    next load skips, or is unchanged. *)
Lemma write_one_spec (st : t F) state L num data : flash_ok (flash st) ->
  0 <= current_sector st < 2 -> sector_is (flash st) (current_sector st) state L ->
  write_offset st = 4 + zlen (log_bytes L) -> blk_ok (Blk true num data) ->
  write_offset st + 2 + zlen data <= sector_size ->
  exists (ok : bool) (f' : F) (L' : list blk),
    write_one st num (zlen data / block_size - 1) data =
    (ok, if ok then set_write_offset (set_flash st f') (write_offset st + 2 + zlen data)
         else set_flash st f') /\
    flash_ok f' /\
    flash_img f' (1 - current_sector st) = flash_img (flash st) (1 - current_sector st) /\
    sector_is f' (current_sector st) state L' /\ appended ok L L' num data.
Proof.
  intros Hok Hs HS Hwo Hb Hroom. pose proof HS as [[n Himg] Hst HL].
  pose proof Hb as (Hnum & Hdb & _ & _).
  destruct (blk_nb _ Hb) as (Hnb & _ & Hlen). cbn [b_num b_data] in *.
  pose proof (flash_img_length _ _ Hok Hs) as Hl. rewrite app_assoc in Himg.
  set (pre := hdr state ++ log_bytes L) in *.
  rewrite Himg, length_app, length_replicate in Hl.
  assert (Hpre : write_offset st = zlen pre)
    by (unfold pre; rewrite length_app; change (length (hdr state)) with 4%nat; lia).
  set (nb := zlen data / block_size - 1) in *.
  set (h x := block_header_bytes (BlockHeader x num nb)).
  unfold write_one. rewrite Hpre.
  destruct (write_header_spec st (current_sector st) pre n
    (BlockHeader BLOCK_STATE_WRITING num nb))
    as (ok1 & f1 & -> & Hok1 & Ho1 & Hi1); [done|done|done|lia|].
  destruct ok1; cbn [negb].
  2:{ exists false, f1. destruct Hi1 as [Hi1|[_ Hi1]].
      - exists (L ++ [Blk false num (replicate (length data) 255)]).
        do 3 (split; [done|]). split; [|right; split; [done|right; by eexists]].
        apply (sector_is_snoc f1 _ state L _ _ data _ (n - 2 - length data)); try done.
        + by rewrite length_replicate.
        + by apply Forall_replicate.
        + rewrite Hi1, <- replicate_add. unfold nb. do 3 f_equal. lia.
      - exists L. do 3 (split; [done|]). split; [|right; split; [done|by left]].
        constructor; [|done|done]. exists n. by rewrite Hi1, Himg, app_assoc. }
  destruct Hi1 as [Hi1|[? _]]; [|done]. cbn [write_offset current_sector set_flash].
  unfold sizeof_block_header. rewrite Hpre, u32_small by lia.
  destruct (write_data_spec (set_flash st f1) (current_sector st)
    (pre ++ h BLOCK_STATE_WRITING) (n - 2) data)
    as (ok2 & f2 & d' & Hc2 & Hok2 & Ho2 & Hi2 & Hd2 & Hb2 & Hv2);
    [done|done|by rewrite <- app_assoc|lia|done|].
  replace (zlen pre + 2) with (zlen (pre ++ h BLOCK_STATE_WRITING))
    by (rewrite length_app; unfold h; rewrite block_header_bytes_length; lia).
  rewrite Hc2. cbn [set_flash flash] in Ho2. rewrite <- app_assoc in Hi2.
  destruct ok2; cbn [negb].
  2:{ exists false, f2, (L ++ [Blk false num d']).
      split; [done|]. split; [done|]. split; [by rewrite Ho2|].
      split; [|right; split; [done|right; by eexists]].
      by apply (sector_is_snoc f2 _ state L false _ data _ (n - 2 - length data)). }
  rewrite (Hv2 eq_refl) in Hi2. cbn [write_offset current_sector set_flash]. rewrite Hpre.
  destruct (write_valid_spec (set_flash (set_flash st f1) f2) (current_sector st) pre num nb
    (data ++ replicate (n - 2 - length data) 255))
    as (ok3 & f3 & Hc3 & Hok3 & Ho3 & Hi3); [done..|].
  rewrite Hc3. cbn [set_flash flash] in Ho3, Hi3.
  exists ok3, f3.
  assert (Hres : forall v, flash_img f3 (current_sector st) = pre ++
            h (if v : bool then BLOCK_STATE_VALID else BLOCK_STATE_WRITING) ++
            data ++ replicate (n - 2 - length data) 255 ->
            sector_is f3 (current_sector st) state (L ++ [Blk v num data]))
    by (intros v Hi; by apply (sector_is_snoc f3 _ state L v _ data _ (n - 2 - length data))).
  destruct Hi3 as [Hi3|[-> Hi3]].
  - exists (L ++ [Blk true num data]). split; [|split; [done|split; [by rewrite Ho3, Ho2|]]].
    + destruct ok3; [|done]. cbn [negb]. unfold sizeof_block_header. do 2 f_equal.
      cbn [write_offset set_flash]. rewrite Hpre, length_app, u32_small by lia.
      change (length (h BLOCK_STATE_WRITING)) with 2%nat. lia.
    + split; [by apply (Hres true)|by left].
  - exists (L ++ [Blk false num data]). do 2 (split; [done|]). split; [by rewrite Ho3, Ho2|].
    split; [apply (Hres false); by rewrite Hi3, Hi2|].
    right. split; [done|right; by eexists].
Qed.
End log.
