(* ===== verification/FlashSpec.v ===== *)
(** The invariant of AP_FlashStorage between calls, and what [write],
    [switch_sectors], [switch_full_sector] and [write_all] do to it, on a
    device whose writes do not fail. *)
From S2P Require Import Prelude FlashStorage FlashLog.
Import FlashStorage.

(** The storage recorded by the two sectors: the log of the sector in use over
    the log of the full one. *)
Definition zeros (storage_size : Z) : list Z := replicate (Z.to_nat storage_size) 0.
Definition content (storage_size : Z) (L Lo : list blk) : list Z :=
  replay L (replay Lo (zeros storage_size)).

(** Sizes for which the library is designed: the storage is made of 64-byte
    chunks and at most 2048 blocks, and one sector can hold a full copy of the
    storage and one more write. *)
Record sizes_ok (storage_size sector_size : Z) : Prop := {
  so_chunks : exists c, storage_size = 64 * c /\ 1 <= c <= 256;
  so_sector : reserve_size storage_size + 70 <= sector_size < 2147483648
}.

Section spec.
Context {F : Type} {sector_size : Z} `{FlashLaws F sector_size}.
Context (storage_size : Z) (Hsizes : sizes_ok storage_size sector_size).

(** Sector [cur] is in use with log [L], the other one is in state [so] with log
    [Lo]. *)
Record on_flash (f : F) (cur : Z) (L : list blk) (so : Z) (Lo : list blk) : Prop := {
  of_ok : flash_ok f;
  of_cur : 0 <= cur < 2;
  of_used : sector_is storage_size f cur SECTOR_STATE_IN_USE L;
  of_other : sector_is storage_size f (1 - cur) so Lo;
  of_state : (so = SECTOR_STATE_AVAILABLE /\ Lo = []) \/ so = SECTOR_STATE_FULL
}.

Record base (st : t F) (L : list blk) (so : Z) (Lo : list blk) : Prop := {
  base_flash : on_flash (flash st) (current_sector st) L so Lo;
  base_mem : zlen (mem_buffer st) = storage_size;
  base_bytes : bytes (mem_buffer st);
  base_error : write_error st = false;
  base_offset : write_offset st = 4 + zlen (log_bytes L)
}.

(** The invariant between calls: when the other sector is full, the sector in
    use keeps room for a copy of the storage. *)
Record Inv (st : t F) (L : list blk) (so : Z) (Lo : list blk) : Prop := {
  inv_base : base st L so Lo;
  inv_reserved : (reserved_space st = 0 /\ so = SECTOR_STATE_AVAILABLE) \/
    (reserved_space st = reserve_size storage_size /\
     write_offset st <= sector_size - reserve_size storage_size)
}.

Lemma reserve_eq : exists c, storage_size = 64 * c /\ 1 <= c <= 256 /\
  reserve_size storage_size = 66 * c + 64 /\ 66 * c + 134 <= sector_size < 2147483648.
Proof.
  destruct Hsizes as [(c & -> & Hc) Hs]. exists c. revert Hs.
  unfold reserve_size, max_write, sizeof_block_header.
  rewrite (Z.mul_comm 64 c), Z.div_mul by lia. lia.
Qed.

Lemma Hstorage : 0 <= storage_size <= 16384.
Proof. destruct reserve_eq as (c & -> & ? & _). lia. Qed.
Lemma Hsector : 64 <= sector_size < 2147483648.
Proof. destruct reserve_eq as (c & _ & ? & _ & ?). lia. Qed.

Lemma lxor_1 cur : 0 <= cur < 2 -> Z.lxor cur 1 = 1 - cur.
Proof. intros Hc. assert (cur = 0 \/ cur = 1) as [-> | ->] by lia; done. Qed.

Lemma zeros_length : zlen (zeros storage_size) = storage_size.
Proof. pose proof Hstorage. unfold zeros. rewrite length_replicate. lia. Qed.

Lemma content_length L Lo : length (content storage_size L Lo) = Z.to_nat storage_size.
Proof.
  unfold content. rewrite !replay_length. pose proof zeros_length. lia.
Qed.

(** ** One block *)
Context `{!FlashReliable F}.

Lemma call_write_ok (st : t F) s o bs : flash_ok (flash st) -> 0 <= s < 2 ->
  0 <= o -> o + zlen bs <= sector_size ->
  exists f', call_write st s o bs = (true, set_flash st f') /\ flash_ok f' /\
    flash_img f' (1 - s) = flash_img (flash st) (1 - s) /\
    flash_img f' s = program (flash_img (flash st) s) o bs.
Proof.
  intros Hok Hs Ho Hl.
  destruct (call_write_spec st s o bs) as (ok & f' & Hc & Hok' & Ho' & k & Hi & Hk); try done.
  assert (ok = true) as ->.
  { pose proof (flash_write_reliable (flash st) s o bs Hok Hs Ho Hl) as Hr.
    unfold call_write in Hc. destruct (flash_write (flash st) s o bs). simpl in Hr.
    congruence. }
  exists f'. rewrite take_ge in Hi by (specialize (Hk eq_refl); lia). done.
Qed.

Lemma write_one_ok (st : t F) num nb data : flash_ok (flash st) ->
  0 <= current_sector st < 2 -> 0 <= write_offset st -> zlen data <= 64 ->
  write_offset st + 2 + zlen data <= sector_size ->
  (write_one st num nb data).1 = true.
Proof.
  intros Hok Hs Hwo Hd Hl. pose proof Hsector. unfold write_one.
  assert (Hh : forall h, zlen (block_header_bytes h) = 2)
    by (intros h; by rewrite block_header_bytes_length).
  destruct (call_write_ok st (current_sector st) (write_offset st)
    (block_header_bytes (BlockHeader BLOCK_STATE_WRITING num nb)))
    as (f1 & -> & Hok1 & _); [done|done|lia|rewrite Hh; lia|].
  cbn [negb]. cbn [set_flash write_offset current_sector]. unfold sizeof_block_header.
  rewrite (u32_small (write_offset st + 2)) by lia.
  destruct (call_write_ok (set_flash st f1) (current_sector st) (write_offset st + 2) data)
    as (f2 & Hc2 & Hok2 & _); [done|done|lia|lia|]. rewrite Hc2.
  cbn [negb]. cbn [set_flash write_offset current_sector].
  destruct (call_write_ok (set_flash (set_flash st f1) f2) (current_sector st) (write_offset st)
    (block_header_bytes (BlockHeader BLOCK_STATE_VALID num nb)))
    as (f3 & Hc3 & _); [done|done|lia|rewrite Hh; lia|]. by rewrite Hc3.
Qed.

(** The state after a block was appended. *)
Definition after_block (st : t F) (f' : F) (n : Z) : t F :=
  set_write_offset (set_flash st f') (write_offset st + 2 + n).

Lemma append_block st L so Lo num m : base st L so Lo -> 1 <= m <= 8 -> 0 <= num ->
  num * 8 + 8 * m <= storage_size -> write_offset st + 2 + 8 * m <= sector_size ->
  exists data f', blk_get (mem_buffer st) (num * 8) (8 * m) = Some data /\
    write_one st num (m - 1) data = (true, after_block st f' (8 * m)) /\
    base (after_block st f' (8 * m)) (L ++ [Blk true num data]) so Lo.
Proof.
  intros [[Hok Hcur Hused Hother Hso] Hmem Hb Herr Hwo] Hm Hnum Hfit Hroom.
  pose proof Hstorage as Hst. pose proof Hsector as Hse.
  rewrite blk_get_Some by lia. set (data := take _ _).
  assert (Hlen : zlen data = 8 * m) by (unfold data; rewrite length_take, length_drop; lia).
  assert (Hdata : bytes data) by (by apply Forall_take, Forall_drop).
  assert (Hblk : blk_ok storage_size (Blk true num data)).
  { split; [simpl; lia|]. split; [done|]. split; [by exists m|]. unfold block_size.
    simpl. lia. }
  assert (Hm1 : zlen data / block_size - 1 = m - 1).
  { rewrite Hlen, Z.mul_comm. unfold block_size. by rewrite Z.div_mul. }
  destruct (write_one_spec storage_size Hse st SECTOR_STATE_IN_USE L num data)
    as (ok & f' & L' & Hw & Hok' & Ho' & HS' & Happ); try done; [lia|].
  pose proof (write_one_ok st num (m - 1) data Hok Hcur ltac:(lia) ltac:(lia) ltac:(lia))
    as Hres.
  rewrite Hm1 in Hw. rewrite Hw in Hres. simpl in Hres. subst ok.
  destruct Happ as [-> | [? _]]; [|done].
  exists data, f'. rewrite Hw. unfold after_block. rewrite <- Hlen.
  split; [done|]. split; [done|].
  constructor; simpl; try done.
  - constructor; try done. destruct Hother as [[n Hi] Hs Hl].
    constructor; [|done|done]. exists n. by rewrite Ho'.
  - rewrite log_bytes_app, length_app, log_bytes_one. pose proof (enc_length (Blk true num data)).
    simpl in *. lia.
Qed.

(** What the appended block does to the storage recorded by the log. *)
Lemma replay_block L num n mem data m0 j :
  blk_get mem (num * 8) n = Some data -> 0 <= num -> length m0 = length mem ->
  replay (L ++ [Blk true num data]) m0 !! j =
    if decide (num * 8 <= Z.of_nat j < num * 8 + n) then mem !! j
    else replay L m0 !! j.
Proof.
  intros Hd Hnum Hlen. rewrite replay_app. cbn [replay fold_left].
  unfold apply; cbn [b_valid b_num b_data]. unfold block_size.
  pose proof (blk_get_length _ _ _ _ Hd) as Hn.
  apply blk_get_inv in Hd as (_ & ? & ? & ->).
  rewrite lookup_inserts_dec, replay_length, Hlen.
  repeat case_decide; try lia; try done.
  rewrite lookup_take_lt, lookup_drop by lia. f_equal. lia.
Qed.

(** ** [write] of a whole chunk, with room in the sector *)
Lemma make_room_skip write (st : t F) : 0 <= reserved_space st -> 0 <= write_offset st ->
  write_offset st + 66 + reserved_space st <= sector_size ->
  make_room storage_size sector_size write st = Done (true, st).
Proof.
  intros Hr Hw Hroom. pose proof Hsector. unfold make_room, sizeof_block_header, max_write.
  rewrite u32_small by lia. rewrite Z.gtb_ltb. destruct (Z.ltb_spec
    (sector_size - (2 + 64 + reserved_space st)) (write_offset st)); [lia|done].
Qed.

(** One pass of the loop of [write], once [make_room] succeeded: [write_one] of
    the block that covers [offset]; the loop goes on after it. *)
Lemma write_loop_unfold fuel st0 (st : t F) offset len :
  let m := (Z.min len 64 + 7) / 8 in
  let n2 := 8 * m - offset mod 8 in
  make_room storage_size sector_size (write storage_size sector_size fuel) st0 =
    Done (true, st) ->
  zlen (mem_buffer st) = storage_size ->
  0 <= offset -> 0 < len < 65536 -> offset + len <= storage_size ->
  exists data, blk_get (mem_buffer st) (offset / 8 * 8) (8 * m) = Some data /\
    write_loop storage_size sector_size (S fuel) st0 offset len =
      let '(ok, st) := write_one st (offset / 8) (m - 1) data in
      if negb ok then Done (false, st)
      else if n2 >? len then Done (true, st)
      else write_loop storage_size sector_size fuel st (offset + n2) (len - n2).
Proof.
  intros m n2 Hroom Hmem Ho Hlen Hfit. pose proof Hstorage as Hst.
  destruct reserve_eq as (c & Hc & _).
  assert (Hm : 1 <= m <= 8) by (unfold m; zlia).
  destruct (blk_get_spec (mem_buffer st) (offset / 8 * 8) (8 * m)) as (data & Hd & _);
    [zlia|lia|unfold m in *; zlia|].
  exists data. split; [done|].
  cbn [write_loop]. rewrite Z.gtb_ltb, (proj2 (Z.ltb_lt 0 len)) by lia.
  fold (write storage_size sector_size fuel). rewrite Hroom.
  cbn [mbind outcome_bind negb].
  assert (Hn : (if len <? max_write then u8 len else max_write) = Z.min len 64).
  { unfold max_write. destruct (Z.ltb_spec len 64); [rewrite u8_small|]; lia. }
  rewrite Hn. unfold block_size.
  assert (Hnum : (offset / 8) mod 2 ^ 11 = offset / 8)
    by (change (2 ^ 11) with 2048; apply Z.mod_small; zlia).
  assert (Hnb : ((Z.min len 64 + (8 - 1)) / 8 - 1) mod 2 ^ 3 = m - 1)
    by (change (8 - 1) with 7; fold m; change (2 ^ 3) with 8; apply Z.mod_small; lia).
  rewrite Hnum, Hnb. rewrite (u16_small (offset / 8 * 8)) by zlia.
  replace (u16 ((m - 1 + 1) * 8)) with (8 * m) by (rewrite u16_small; lia).
  rewrite Hd. cbn [access mbind outcome_bind].
  destruct (write_one st (offset / 8) (m - 1) data) as [[|] st']; cbn [negb]; [|done].
  assert (Hn2 : u8 (8 * m - offset mod 8) = n2) by (apply u8_small; unfold n2; zlia).
  rewrite Hn2, Z.gtb_ltb. destruct (Z.ltb_spec len n2); [done|].
  assert (0 < n2) by (unfold n2; zlia). by rewrite !u16_small by lia.
Qed.

Lemma write_loop_pass fuel st0 st offset len L so Lo :
  let m := (Z.min len 64 + 7) / 8 in
  let n2 := 8 * m - offset mod 8 in
  make_room storage_size sector_size (write storage_size sector_size fuel) st0 =
    Done (true, st) ->
  base st L so Lo -> 0 <= offset -> 0 < len < 65536 -> offset + len <= storage_size ->
  write_offset st + 66 <= sector_size ->
  exists data f', blk_get (mem_buffer st) (offset / 8 * 8) (8 * m) = Some data /\
    base (after_block st f' (8 * m)) (L ++ [Blk true (offset / 8) data]) so Lo /\
    write_loop storage_size sector_size (S fuel) st0 offset len =
      if n2 >? len then Done (true, after_block st f' (8 * m))
      else write_loop storage_size sector_size fuel (after_block st f' (8 * m))
             (offset + n2) (len - n2).
Proof.
  intros m n2 Hroom Hbase Ho Hlen Hfit Hw. pose proof Hstorage.
  destruct reserve_eq as (c & Hc & _).
  assert (Hm : 1 <= m <= 8) by (unfold m; zlia).
  destruct (append_block st L so Lo (offset / 8) m Hbase)
    as (data & f' & Hd & Hone & Hbase'); [lia|zlia|unfold m in *; zlia|lia|].
  destruct (write_loop_unfold fuel st0 st offset len Hroom (base_mem _ _ _ _ Hbase)
    Ho Hlen Hfit) as (data' & Hd' & Hl). fold m in Hd', Hl.
  assert (data' = data) as -> by congruence.
  exists data, f'. split; [done|]. split; [done|]. by rewrite Hl, Hone.
Qed.

Lemma write_chunk fuel st L so Lo c : base st L so Lo -> reserved_space st = 0 ->
  0 <= c -> 64 * c + 64 <= storage_size -> write_offset st + 66 <= sector_size ->
  (2 <= fuel)%nat ->
  exists data f', blk_get (mem_buffer st) (c * 8 * 8) 64 = Some data /\
    write storage_size sector_size fuel st (64 * c) 64 = Done (true, after_block st f' 64) /\
    base (after_block st f' 64) (L ++ [Blk true (c * 8) data]) so Lo.
Proof.
  intros Hbase Hres Hc Hfit Hroom Hfuel. destruct fuel as [|[|fuel]]; [lia..|].
  destruct (write_loop_pass (S fuel) st st (64 * c) 64 L so Lo)
    as (data & f' & Hd & Hb & Hw); try done; [|lia|].
  { apply make_room_skip; [lia| |lia]. pose proof (base_offset _ _ _ _ Hbase). lia. }
  exists data, f'. replace (64 * c / 8) with (c * 8) in * by zlia.
  change ((Z.min 64 64 + 7) / 8) with 8 in *. change (8 * 8) with 64 in *.
  replace (64 * c mod 8) with 0 in Hw by zlia.
  split; [done|]. split; [|done].
  unfold write. by rewrite (base_error _ _ _ _ Hbase), Hw.
Qed.

(** ** [write_all] *)

(** [st'] differs from [st] by the flash and the write offset only. *)
Record same_ram (st st' : t F) : Prop := {
  sr_mem : mem_buffer st' = mem_buffer st;
  sr_cur : current_sector st' = current_sector st;
  sr_reserved : reserved_space st' = reserved_space st
}.

Lemma all_zero_spec (st : t F) c : 0 <= c -> 64 * c + 64 <= zlen (mem_buffer st) ->
  exists z, all_zero st (64 * c) max_write = Done z /\
    (z = true -> forall j : nat, 64 * c <= Z.of_nat j < 64 * c + 64 ->
       mem_buffer st !! j = Some 0).
Proof.
  intros Hc Hl. unfold all_zero, max_write. rewrite blk_get_Some by lia.
  eexists. split; [done|]. cbn [access mbind outcome_bind].
  intros Hz j Hj. rewrite forallb_forall in Hz.
  destruct (lookup_lt_is_Some_2 (mem_buffer st) j) as [x Hx]; [lia|].
  rewrite Hx. f_equal. symmetry. apply Z.eqb_eq, Hz.
  apply list_elem_of_In, list_elem_of_lookup. exists (j - Z.to_nat (64 * c))%nat.
  rewrite lookup_take_lt, lookup_drop by lia. rewrite <- Hx. f_equal. lia.
Qed.

(** Every byte of the result is the one of [mem_buffer], or is as before, and
    then [mem_buffer] has zero. *)
Definition overlaid (mem : list Z) (L L' : list blk) (from : Z) : Prop :=
  forall m0 j, length m0 = length mem -> from <= Z.of_nat j ->
    replay L' m0 !! j = mem !! j \/
    (replay L' m0 !! j = replay L m0 !! j /\ mem !! j = Some 0).

Lemma write_all_loop_spec fuel so Lo : (2 <= fuel)%nat -> forall k st L c,
  base st L so Lo -> reserved_space st = 0 -> 0 <= c -> 64 * c <= storage_size ->
  write_offset st + 66 * (storage_size / 64 - c) <= sector_size ->
  storage_size / 64 - c < Z.of_nat k ->
  exists st' L', write_all_loop storage_size (write storage_size sector_size fuel) k st (64 * c)
      = Done (true, st') /\ base st' L' so Lo /\ same_ram st st' /\
    write_offset st' <= write_offset st + 66 * (storage_size / 64 - c) /\
    overlaid (mem_buffer st) L L' (64 * c) /\
    (forall m0 j, length m0 = length (mem_buffer st) -> Z.of_nat j < 64 * c ->
       replay L' m0 !! j = replay L m0 !! j).
Proof.
  intros Hfuel k. destruct reserve_eq as (C & HS & HC & _).
  assert (HC' : storage_size / 64 = C) by (rewrite HS, Z.mul_comm; by apply Z.div_mul).
  rewrite HC'.
  induction k as [|k IH]; intros st L c Hbase Hres Hc HcC Hroom Hk; [lia|].
  cbn [write_all_loop]. destruct (Z.ltb_spec (64 * c) storage_size).
  2:{ exists st, L. assert (c = C) by lia. split; [done|]. split; [done|].
      split; [done|]. split; [lia|]. split; [|done].
      intros m0 j Hl Hj. left. pose proof (base_mem _ _ _ _ Hbase).
      rewrite !lookup_ge_None_2 by (rewrite ?replay_length; lia). done. }
  destruct (all_zero_spec st c) as (z & Hz & Hz0); [lia|rewrite (base_mem _ _ _ _ Hbase); lia|].
  rewrite Hz. cbn [mbind outcome_bind]. rewrite (u16_small (64 * c + _)) by (unfold max_write; lia).
  replace (64 * c + max_write) with (64 * (c + 1)) by (unfold max_write; lia).
  destruct z; cbn [negb mbind outcome_bind].
  - destruct (IH st L (c + 1)) as (st' & L' & Hw & Hb' & Hsr & Hwo & Hov & Hlow);
      [done|done|lia..|].
    exists st', L'. rewrite Hw. repeat (split; [done|]). split; [lia|]. split.
    + intros m0 j Hl Hj. destruct (decide (64 * (c + 1) <= Z.of_nat j)); [by apply Hov|].
      right. split; [apply Hlow; [done|lia]|apply Hz0; [done|lia]].
    + intros m0 j Hl Hj. apply Hlow; [done|lia].
  - destruct (write_chunk fuel st L so Lo c) as (data & f' & Hd & Hw1 & Hb1); try done; [lia..|].
    change max_write with 64. rewrite Hw1. cbn [mbind outcome_bind negb].
    destruct (IH (after_block st f' 64) (L ++ [Blk true (c * 8) data]) (c + 1))
      as (st' & L' & Hw & Hb' & Hsr & Hwo & Hov & Hlow); [done|done|lia|lia|simpl; lia|lia|].
    exists st', L'. rewrite Hw. split; [done|]. split; [done|].
    split; [by destruct Hsr|]. split; [simpl in Hwo; lia|]. cbn [mem_buffer after_block] in *.
    assert (Hblk : forall m0 j, length m0 = length (mem_buffer st) -> _)
      by (intros m0 j Hl; exact (replay_block L (c * 8) 64 _ data m0 j Hd ltac:(lia) Hl)).
    split.
    + intros m0 j Hl Hj. destruct (decide (64 * (c + 1) <= Z.of_nat j)).
      * destruct (Hov m0 j) as [?|[E ?]]; [done|done|by left|right]. split; [|done].
        rewrite E, Hblk by done. rewrite decide_False by lia. done.
      * left. rewrite Hlow by (done || lia). rewrite Hblk by done.
        rewrite decide_True by lia. done.
    + intros m0 j Hl Hj. rewrite Hlow by (done || lia). rewrite Hblk by done.
      rewrite decide_False by lia. done.
Qed.

(** ** Sector headers *)
Lemma sector_is_other f f' s st L :
  flash_img f' s = flash_img f s -> sector_is storage_size f s st L ->
  sector_is storage_size f' s st L.
Proof. intros E [[n Hi] Hs Hl]. constructor; [|done|done]. exists n. by rewrite E. Qed.

Lemma read_header_bytes f s st L : flash_ok f -> 0 <= s < 2 ->
  sector_is storage_size f s st L ->
  flash_read f s 0 sizeof_sector_header = (true, hdr st).
Proof.
  intros Hok Hs [[n Hi] _ _].
  exact (read_after f s [] (hdr st) (log_bytes L ++ replicate n 255) Hok Hs Hi).
Qed.

Lemma hdr_land s0 s1 : good_state s0 -> good_state s1 -> s1 <= s0 ->
  zip_with Z.land (hdr s0) (hdr s1) = hdr s1.
Proof. intros [->|[->| ->]] [->|[->| ->]] Hle; done || reflexivity. Qed.

(** Writing a header over the header of a sector moves its state. *)
Lemma call_mark (st : t F) s s0 s1 L : flash_ok (flash st) -> 0 <= s < 2 ->
  sector_is storage_size (flash st) s s0 L -> good_state s1 -> s1 <= s0 ->
  exists f', call_write st s 0 (hdr s1) = (true, set_flash st f') /\ flash_ok f' /\
    flash_img f' (1 - s) = flash_img (flash st) (1 - s) /\
    sector_is storage_size f' s s1 L.
Proof.
  intros Hok Hs [[n Hi] Hst HL] Hs1 Hle. pose proof Hsector.
  destruct (call_write_ok st s 0 (hdr s1)) as (f' & Hc & Hok' & Ho & Hi');
    [done|done|lia|change (zlen (hdr s1)) with 4; lia|].
  exists f'. split; [done|]. split; [done|]. split; [done|].
  constructor; [|done|done]. exists n. rewrite Hi', Hi.
  rewrite <- (hdr_land s0 s1) at 2 by done.
  exact (program_app [] (hdr s0) (log_bytes L ++ replicate n 255) (hdr s1) eq_refl).
Qed.

Lemma erase_sector_ok (st : t F) s : flash_ok (flash st) -> 0 <= s < 2 ->
  exists f', erase_sector st s = (true, set_flash st f') /\ flash_ok f' /\
    flash_img f' (1 - s) = flash_img (flash st) (1 - s) /\
    sector_is storage_size f' s SECTOR_STATE_AVAILABLE [].
Proof.
  intros Hok Hs. pose proof Hsector.
  pose proof (flash_erase_law (flash st) s Hok Hs) as (Hok1 & Ho1 & Hi1).
  pose proof (flash_erase_reliable (flash st) s Hok Hs) as Hr.
  unfold erase_sector, call_erase. destruct (flash_erase (flash st) s) as [ok f1].
  cbn [fst snd] in *. subst ok. cbn [negb]. specialize (Hi1 eq_refl).
  fold (hdr SECTOR_STATE_AVAILABLE).
  destruct (call_write_ok (set_flash st f1) s 0 (hdr SECTOR_STATE_AVAILABLE))
    as (f' & Hc & Hok' & Ho & Hi'); [done|done|lia|
      change (zlen (hdr SECTOR_STATE_AVAILABLE)) with 4; lia|].
  exists f'. rewrite Hc. split; [done|]. split; [done|].
  split; [rewrite Ho; exact Ho1|].
  constructor; [|by left|by constructor].
  exists (Z.to_nat sector_size - 4)%nat. rewrite Hi'. cbn [set_flash flash].
  rewrite Hi1. apply (program_erased []); [apply le_bytes_bytes|].
  change (length (hdr SECTOR_STATE_AVAILABLE)) with 4%nat. lia.
Qed.

(** [switch_sectors] from a sector in use to an available one. *)
Lemma switch_sectors_ok st L Lo : base st L SECTOR_STATE_AVAILABLE Lo ->
  reserved_space st = 0 ->
  exists st', switch_sectors storage_size st = (true, st') /\
    base st' [] SECTOR_STATE_FULL L /\ mem_buffer st' = mem_buffer st /\
    reserved_space st' = reserve_size storage_size /\ Lo = [].
Proof.
  intros [[Hok Hcur Hused Hother Hso] Hmem Hb Herr Hwo] Hres.
  assert (Lo = []) as -> by (destruct Hso as [[_ ->]|?]; done).
  unfold switch_sectors. rewrite Hres. cbn [Z.eqb negb]. rewrite lxor_1 by done.
  rewrite (read_header_bytes _ (1 - current_sector st) _ _ Hok ltac:(lia) Hother).
  cbn [negb]. rewrite hdr_roundtrip by by left. cbn [sh_signature sh_state].
  rewrite !Z.eqb_refl. cbn [negb].
  destruct (call_mark st (current_sector st) _ SECTOR_STATE_FULL L Hok Hcur Hused)
    as (f1 & Hc1 & Hok1 & Ho1 & Hs1); [by right; right|done|].
  fold (hdr SECTOR_STATE_FULL). rewrite Hc1. cbn [negb].
  destruct (call_mark (set_flash st f1) (1 - current_sector st) SECTOR_STATE_AVAILABLE
    SECTOR_STATE_IN_USE []) as (f2 & Hc2 & Hok2 & Ho2 & Hs2);
    [done|lia|by eapply sector_is_other|by right; left|done|].
  fold (hdr SECTOR_STATE_IN_USE). rewrite Hc2. cbn [negb].
  replace (1 - (1 - current_sector st)) with (current_sector st) in Ho2 by lia.
  eexists. split; [reflexivity|]. split; [|done].
  constructor; try done. constructor; simpl; [done|lia|done| |by right].
  replace (1 - (1 - current_sector st)) with (current_sector st) by lia.
  eapply sector_is_other; [exact Ho2|done].
Qed.

(** ** Making room *)

(** No byte recorded by the logs changes, except to the value of
    [mem_buffer]. *)
Definition content_kept (mem : list Z) (L Lo L' Lo' : list blk) : Prop :=
  forall j, content storage_size L' Lo' !! j = content storage_size L Lo !! j \/
            content storage_size L' Lo' !! j = mem !! j.

Lemma content_kept_refl mem L Lo : content_kept mem L Lo L Lo.
Proof. by left. Qed.
Lemma content_kept_trans mem L0 Lo0 L1 Lo1 L2 Lo2 :
  content_kept mem L0 Lo0 L1 Lo1 -> content_kept mem L1 Lo1 L2 Lo2 ->
  content_kept mem L0 Lo0 L2 Lo2.
Proof.
  intros H1 H2 j. destruct (H2 j) as [E2|]; [|by right]. rewrite E2. apply H1.
Qed.

(** A full copy of [mem_buffer] supersedes the log of the other sector. *)
Lemma overlaid_content mem L Lo L' : zlen mem = storage_size ->
  overlaid mem L L' 0 -> content_kept mem L Lo [] L'.
Proof.
  intros Hm Ho j. unfold content. cbn [replay fold_left]. pose proof zeros_length.
  destruct (Ho (zeros storage_size) j) as [?|[E Hz]]; [lia|lia|by right|].
  rewrite E.
  destruct (replay_base L (zeros storage_size) (replay Lo (zeros storage_size)) j)
    as [?|[E1 _]]; [by rewrite replay_length|by left|].
  right. rewrite E1, Hz. apply lookup_lt_Some in Hz.
  unfold zeros. rewrite lookup_replicate_2 by lia. done.
Qed.

Lemma switch_full_sector_ok fuel st L so Lo : (2 <= fuel)%nat -> base st L so Lo ->
  write_offset st <= sector_size - reserve_size storage_size ->
  exists st' L', switch_full_sector storage_size sector_size fuel st = Done (true, st') /\
    Inv st' [] SECTOR_STATE_FULL L' /\ mem_buffer st' = mem_buffer st /\
    content_kept (mem_buffer st) L Lo [] L'.
Proof.
  intros Hfuel Hbase Hwo. destruct reserve_eq as (C & HS & HC & HR & Hse).
  assert (HC' : storage_size / 64 = C) by (rewrite HS, Z.mul_comm; by apply Z.div_mul).
  unfold switch_full_sector, switch_full_sector_with, write_all_with.
  set (st1 := set_reserved_space _ _).
  assert (Hb1 : base st1 L so Lo) by (by destruct Hbase; constructor).
  destruct (write_all_loop_spec fuel so Lo Hfuel (S (Z.to_nat storage_size)) st1 L 0)
    as (st2 & L' & Hw & Hb2 & [Hm2 Hc2 Hr2] & Hwo2 & Hov & _); try done; [simpl; lia..|].
  change (64 * 0) with 0 in Hw, Hov. rewrite Hw. cbn [mbind outcome_bind negb].
  pose proof Hb2 as [[Hok2 Hcur2 Hused2 Hother2 _] Hmem2 Hbytes2 Herr2 Hoff2].
  rewrite lxor_1 by done.
  destruct (erase_sector_ok st2 (1 - current_sector st2)) as (f3 & He & Hok3 & Ho3 & Hs3);
    [done|lia|].
  rewrite He. cbn [negb]. replace (1 - (1 - _)) with (current_sector st2) in Ho3 by lia.
  assert (Hb3 : base (set_flash st2 f3) L' SECTOR_STATE_AVAILABLE []).
  { constructor; try done. constructor; try done; [|by left]. by eapply sector_is_other. }
  destruct (switch_sectors_ok _ _ _ Hb3) as (st4 & Hsw & Hb4 & Hm4 & Hr4 & _); [done|].
  exists st4, L'. rewrite Hsw. split; [done|]. split.
  - constructor; [done|]. right. split; [done|].
    pose proof (base_offset _ _ _ _ Hb4) as Hw4. simpl in Hw4. lia.
  - split; [by rewrite Hm4|]. apply overlaid_content; [|done].
    apply (base_mem _ _ _ _ Hbase).
Qed.

Lemma make_room_ok fuel st L so Lo : (2 <= fuel)%nat -> Inv st L so Lo ->
  exists ok st' L' so' Lo',
    make_room storage_size sector_size (write storage_size sector_size fuel) st =
      Done (ok, st') /\
    Inv st' L' so' Lo' /\ mem_buffer st' = mem_buffer st /\
    content_kept (mem_buffer st) L Lo L' Lo' /\
    (ok = true -> write_offset st' + 66 + reserved_space st' <= sector_size) /\
    (ok = false -> flash_erase_ok (flash st') = false).
Proof.
  intros Hfuel [Hbase Hres]. destruct reserve_eq as (C & _ & HC & HR & Hse).
  pose proof (base_offset _ _ _ _ Hbase) as Hwo.
  destruct (decide (write_offset st + 66 + reserved_space st <= sector_size)).
  { exists true, st, L, so, Lo.
    rewrite make_room_skip by (lia || destruct Hres as [[-> _]|[-> _]]; lia).
    split; [done|]. split; [by constructor|]. split; [done|].
    split; [apply content_kept_refl|done]. }
  unfold make_room, sizeof_block_header, max_write.
  rewrite u32_small by (destruct Hres as [[-> _]|[-> _]]; lia).
  rewrite Z.gtb_ltb, (proj2 (Z.ltb_lt _ (write_offset st))) by lia.
  destruct Hres as [[Hr ->]|[Hr Hlow]].
  - destruct (switch_sectors_ok st L Lo Hbase Hr) as (st' & -> & Hb' & Hm' & Hr' & ->).
    exists true, st', [], SECTOR_STATE_FULL, L. split; [done|].
    pose proof (base_offset _ _ _ _ Hb') as Hwo'. simpl in Hwo'.
    split; [constructor; [done|right; split; [done|lia]]|]. split; [done|].
    split; [by left|]. split; [lia|done].
  - unfold switch_sectors. rewrite Hr, (proj2 (Z.eqb_neq _ 0)) by lia. cbn [negb].
    destruct (flash_erase_ok (flash st)) eqn:Ee; cbn [negb].
    + destruct (switch_full_sector_ok fuel st L so Lo Hfuel Hbase Hlow)
        as (st' & L' & Hsw & Hi & Hm & Hk).
      unfold switch_full_sector in Hsw. rewrite Hsw.
      exists true, st', [], SECTOR_STATE_FULL, L'. split; [done|]. split; [done|].
      split; [done|]. split; [done|]. split; [|done]. intros _.
      destruct Hi as [Hb' [[? ?]|[-> _]]]; [done|].
      pose proof (base_offset _ _ _ _ Hb') as Hwo'. simpl in Hwo'. lia.
    + exists false, st, L, so, Lo. split; [done|].
      split; [constructor; [done|by right]|]. split; [done|].
      split; [apply content_kept_refl|done].
Qed.

(** ** [write] *)

(** The logs record [mem] outside the [len] bytes at [offset]. *)
Definition recorded_outside (mem : list Z) (L Lo : list blk) (offset len : Z) : Prop :=
  forall j, Z.of_nat j < offset \/ offset + len <= Z.of_nat j ->
    content storage_size L Lo !! j = mem !! j.

Lemma content_block L Lo num n mem data j :
  blk_get mem (num * 8) n = Some data -> 0 <= num -> zlen mem = storage_size ->
  content storage_size (L ++ [Blk true num data]) Lo !! j =
    if decide (num * 8 <= Z.of_nat j < num * 8 + n) then mem !! j
    else content storage_size L Lo !! j.
Proof.
  intros Hd Hn Hm. unfold content. apply replay_block; [done|done|].
  rewrite replay_length. pose proof zeros_length. lia.
Qed.

Lemma Inv_after_block st L so Lo num data f' n : Inv st L so Lo ->
  base (after_block st f' n) (L ++ [Blk true num data]) so Lo ->
  n <= 64 -> write_offset st + 66 + reserved_space st <= sector_size ->
  Inv (after_block st f' n) (L ++ [Blk true num data]) so Lo.
Proof.
  intros [_ Hres] Hb Hn Hroom. constructor; [done|].
  destruct Hres as [?|[Hr Hlow]]; [by left|right]. split; [done|]. simpl. lia.
Qed.

(** [write] records the [len] bytes at [offset] when it says [true]; it says
    [false] only when an erase is needed and not allowed. *)
Lemma write_loop_range fuel : forall st L so Lo offset len,
  Inv st L so Lo -> 0 <= offset -> 0 <= len -> offset + len <= storage_size ->
  len + 3 <= Z.of_nat fuel ->
  exists ok st' L' so' Lo',
    write_loop storage_size sector_size fuel st offset len = Done (ok, st') /\
    Inv st' L' so' Lo' /\ mem_buffer st' = mem_buffer st /\
    content_kept (mem_buffer st) L Lo L' Lo' /\
    (ok = true -> forall j, offset <= Z.of_nat j < offset + len ->
       content storage_size L' Lo' !! j = mem_buffer st !! j) /\
    (ok = false -> flash_erase_ok (flash st') = false).
Proof.
  induction fuel as [|fuel IH]; intros st L so Lo offset len HI Ho Hlen Hfit Hfuel; [lia|].
  pose proof Hstorage as Hst. pose proof (base_mem _ _ _ _ (inv_base _ _ _ _ HI)) as Hmem.
  destruct (decide (len = 0)) as [->|Hne].
  { exists true, st, L, so, Lo. split; [done|]. split; [done|]. split; [done|].
    split; [apply content_kept_refl|]. split; [|done]. intros _ j. lia. }
  destruct (make_room_ok fuel st L so Lo) as
    (ok & st1 & L1 & so1 & Lo1 & Hroom & HI1 & Hm1 & Hk1 & Hok & Herr); [lia|done|].
  destruct ok.
  2:{ exists false, st1, L1, so1, Lo1. split.
      2:{ split; [exact HI1|]. split; [done|]. split; [done|]. by split. }
      cbn [write_loop]. rewrite Z.gtb_ltb, (proj2 (Z.ltb_lt 0 len)) by lia.
      unfold write in Hroom. by rewrite Hroom. }
  clear Herr. specialize (Hok eq_refl).
  pose proof (inv_base _ _ _ _ HI1) as Hb1.
  assert (Hr0 : 0 <= reserved_space st1).
  { destruct reserve_eq as (? & _ & ? & ? & _).
    destruct (inv_reserved _ _ _ _ HI1) as [[-> _]|[-> _]]; lia. }
  destruct (write_loop_pass fuel st st1 offset len L1 so1 Lo1)
    as (data & f' & Hd & Hb2 & Hw); [done|done|lia..|].
  set (m := (Z.min len 64 + 7) / 8) in *. rewrite Hm1 in Hd.
  set (n2 := 8 * m - offset mod 8) in *.
  assert (Hm : 1 <= m <= 8) by (unfold m; zlia).
  assert (Hn2 : 0 < n2) by (unfold n2; zlia).
  assert (Hend : offset / 8 * 8 + 8 * m = offset + n2) by (unfold n2; zlia).
  assert (Hstart : offset / 8 * 8 <= offset) by zlia.
  pose proof (Inv_after_block _ _ _ _ _ _ _ _ HI1 Hb2 ltac:(lia) Hok) as HI2.
  assert (Hblk : forall j, content storage_size (L1 ++ [Blk true (offset / 8) data]) Lo1 !! j =
    if decide (offset / 8 * 8 <= Z.of_nat j < offset + n2) then mem_buffer st !! j
    else content storage_size L1 Lo1 !! j).
  { intros j. rewrite <- Hend. apply content_block; [done|zlia|done]. }
  assert (Hk2 : content_kept (mem_buffer st) L Lo (L1 ++ [Blk true (offset / 8) data]) Lo1).
  { eapply content_kept_trans; [done|]. intros j. rewrite Hblk. case_decide; auto. }
  rewrite Hw, Z.gtb_ltb. destruct (Z.ltb_spec len n2).
  - eexists true, _, _, so1, Lo1. split; [reflexivity|]. split; [exact HI2|].
    split; [exact Hm1|]. split; [exact Hk2|]. split; [|done]. intros _ j Hj.
    by rewrite Hblk, decide_True by lia.
  - destruct (IH _ _ _ _ (offset + n2) (len - n2) HI2) as
      (ok & st' & L' & so' & Lo' & Hl & HI' & Hm' & Hk' & Hok' & Herr'); [lia..|].
    cbn [mem_buffer after_block set_write_offset set_flash] in *. rewrite Hm1 in *.
    exists ok, st', L', so', Lo'. split; [done|]. split; [done|]. split; [done|].
    split; [by eapply content_kept_trans|]. split; [|done]. intros Hdone j Hj.
    destruct (decide (Z.of_nat j < offset + n2)); [|apply Hok'; [done|lia]].
    destruct (Hk' j) as [E|E]; [|done]. by rewrite E, Hblk, decide_True by lia.
Qed.

Lemma write_loop_spec fuel st L so Lo offset len :
  Inv st L so Lo -> 0 <= offset -> 0 <= len -> offset + len <= storage_size ->
  len + 3 <= Z.of_nat fuel ->
  recorded_outside (mem_buffer st) L Lo offset len ->
  exists ok st' L' so' Lo',
    write_loop storage_size sector_size fuel st offset len = Done (ok, st') /\
    Inv st' L' so' Lo' /\ mem_buffer st' = mem_buffer st /\
    content_kept (mem_buffer st) L Lo L' Lo' /\
    (ok = true -> content storage_size L' Lo' = mem_buffer st) /\
    (ok = false -> flash_erase_ok (flash st') = false).
Proof.
  intros HI Ho Hlen Hfit Hfuel Hrec.
  destruct (write_loop_range fuel st L so Lo offset len HI Ho Hlen Hfit Hfuel)
    as (ok & st' & L' & so' & Lo' & Hw & HI' & Hm & Hk & Hok & Herr).
  exists ok, st', L', so', Lo'. split; [done|]. split; [done|]. split; [done|]. split; [done|].
  split; [|done]. intros ->. apply list_eq. intros j.
  destruct (decide (offset <= Z.of_nat j < offset + len)); [by apply Hok|].
  destruct (Hk j) as [E|E]; [|done]. rewrite E. apply Hrec. lia.
Qed.
End spec.
