(* ===== verification/FlashProperties.v ===== *)
(** Properties of AP_FlashStorage: writes survive a reboot, a power failure in
    the middle of a block loses at most that block, and the power failures
    after which the start-up code loses everything or does not return. *)
From S2P Require Import Prelude FlashStorage FlashLog FlashSpec.
Import FlashStorage.

Section init.
Context {F : Type} {sector_size : Z} `{FlashLaws F sector_size}.
Context (storage_size : Z) (Hsizes : sizes_ok storage_size sector_size).

Lemma apply_bytes b m : blk_ok storage_size b -> bytes m -> bytes (apply m b).
Proof.
  intros (_ & Hb & _) Hm. unfold apply. destruct (b_valid b); [|done].
  by apply Forall_inserts.
Qed.
Lemma replay_bytes L m : Forall (blk_ok storage_size) L -> bytes m -> bytes (replay L m).
Proof.
  intros HL. revert m. induction HL as [|b L Hb _ IH]; intros m Hm; simpl; [done|].
  by apply IH, apply_bytes.
Qed.
Lemma content_bytes L Lo : Forall (blk_ok storage_size) L -> Forall (blk_ok storage_size) Lo ->
  bytes (content storage_size L Lo).
Proof.
  intros HL HLo. apply replay_bytes, replay_bytes; [done|done|].
  apply Forall_replicate. lia.
Qed.

(** The header of sector [i]. *)
Definition header_is (f : F) (i state : Z) : Prop :=
  flash_read f i 0 sizeof_sector_header = (true, hdr state).

Lemma header_of_sector f i state L : flash_ok f -> 0 <= i < 2 ->
  sector_is storage_size f i state L -> header_is f i state.
Proof. apply read_header_bytes. Qed.

Lemma read_header_ok (st : t F) i state : good_state state ->
  header_is (flash st) i state ->
  read_header st i = inr (Some (SectorHeader state signature)).
Proof.
  intros Hs Hh. unfold read_header. rewrite Hh. cbn [negb].
  rewrite hdr_roundtrip by done. cbn [sh_signature sh_state]. rewrite Z.eqb_refl.
  by destruct Hs as [->|[->| ->]].
Qed.

Lemma load_if_ok (st : t F) s state L : 0 <= s < 2 -> flash_ok (flash st) ->
  sector_is storage_size (flash st) s state L -> zlen (mem_buffer st) = storage_size ->
  load_if storage_size sector_size st state s =
  Done (true, if decide (state = SECTOR_STATE_AVAILABLE) then st
              else loaded st L (4 + zlen (log_bytes L))).
Proof.
  intros Hs Hok HS Hm. unfold load_if.
  rewrite (load_sector_spec storage_size (Hstorage _ Hsizes) (Hsector _ Hsizes)
             st s state L Hs Hok HS Hm).
  destruct HS as [_ [->|[->| ->]] _]; done.
Qed.

(** The start of a boot: [mem_buffer] is cleared. *)
Definition cleared (st : t F) : t F := set_mem_buffer st (zeros storage_size).

(** [init], up to [init_load], on a flash with two good headers. *)
Lemma init_states fuel (st : t F) s0 s1 : good_state s0 -> good_state s1 ->
  header_is (flash st) 0 s0 -> header_is (flash st) 1 s1 ->
  (s0 <> s1 \/ s0 = SECTOR_STATE_AVAILABLE) ->
  init storage_size sector_size fuel st =
  init_load storage_size sector_size fuel (cleared st) s0 s1.
Proof.
  intros Hg0 Hg1 Hh0 Hh1 Hne. unfold init.
  change (set_mem_buffer st (replicate (Z.to_nat storage_size) 0)) with (cleared st).
  rewrite (read_header_ok (cleared st) 0 s0), (read_header_ok (cleared st) 1 s1) by done.
  cbn [sh_state]. destruct (Z.eqb_spec s0 s1) as [<-|]; [|done].
  destruct Hne as [?| ->]; done.
Qed.

(** [init], up to [init_load], on a flash with a sector in use. *)
Lemma init_headers fuel (st : t F) cur so : 0 <= cur < 2 ->
  header_is (flash st) cur SECTOR_STATE_IN_USE -> header_is (flash st) (1 - cur) so ->
  so = SECTOR_STATE_AVAILABLE \/ so = SECTOR_STATE_FULL ->
  init storage_size sector_size fuel st =
  init_load storage_size sector_size fuel (cleared st)
    (if cur =? 0 then SECTOR_STATE_IN_USE else so) (if cur =? 0 then so else SECTOR_STATE_IN_USE).
Proof.
  intros Hcur Hused Hother Hso.
  assert (Hgo : good_state so) by (destruct Hso as [-> | ->]; [by left|by right; right]).
  assert (Hgu : good_state SECTOR_STATE_IN_USE) by by right; left.
  assert (cur = 0 \/ cur = 1) as [-> | ->] by lia; cbn [Z.eqb Pos.eqb];
    apply init_states; try done; left; by destruct Hso as [-> | ->].
Qed.

(** The order in which the two sectors are loaded. *)
Lemma init_order cur so : 0 <= cur < 2 ->
  (so = SECTOR_STATE_AVAILABLE \/ so = SECTOR_STATE_FULL) ->
  let s0 := if cur =? 0 then SECTOR_STATE_IN_USE else so in
  let s1 := if cur =? 0 then so else SECTOR_STATE_IN_USE in
  let first := first_sector s0 s1 in
  let state i := if i =? 0 then s0 else s1 in
  (so = SECTOR_STATE_AVAILABLE -> first = cur /\ Z.land (first + 1) 1 = 1 - cur /\
     state first = SECTOR_STATE_IN_USE /\ state (1 - cur) = so) /\
  (so = SECTOR_STATE_FULL -> first = 1 - cur /\ Z.land (first + 1) 1 = cur /\
     Z.lxor first 1 = cur /\ state first = so /\ state cur = SECTOR_STATE_IN_USE).
Proof.
  intros Hcur Hso. assert (cur = 0 \/ cur = 1) as [-> | ->] by lia;
    destruct Hso as [-> | ->]; split; intros ?; done || (vm_compute; auto).
Qed.

(** A boot with the other sector available: [init] loads the log and leaves
    [current_sector] as it was. *)
Lemma init_available_header fuel (st : t F) cur L : 0 <= cur < 2 -> flash_ok (flash st) ->
  sector_is storage_size (flash st) cur SECTOR_STATE_IN_USE L ->
  header_is (flash st) (1 - cur) SECTOR_STATE_AVAILABLE ->
  init storage_size sector_size fuel st =
  Done (true, mk (content storage_size L []) (current_sector st)
                (4 + zlen (log_bytes L)) 0 false (flash st)).
Proof.
  intros Hcur Hok Hused Hother.
  rewrite (init_headers fuel st cur SECTOR_STATE_AVAILABLE Hcur);
    [|by eapply header_of_sector|done|by left].
  destruct (init_order cur SECTOR_STATE_AVAILABLE Hcur (or_introl eq_refl)) as [Hord _].
  specialize (Hord eq_refl). unfold init_load.
  set (s0 := if cur =? 0 then _ else _) in *.
  set (s1 := if cur =? 0 then SECTOR_STATE_AVAILABLE else _) in *.
  destruct Hord as (E1 & E2 & E3 & E4). cbn zeta in *. rewrite E2. rewrite E3, E4, E1.
  rewrite (load_if_ok (cleared st) cur SECTOR_STATE_IN_USE L)
    by (done || apply (zeros_length storage_size Hsizes)).
  cbn [mbind outcome_bind negb decide]. rewrite decide_False by done.
  change (load_if storage_size sector_size ?x SECTOR_STATE_AVAILABLE ?y) with (Done (true, x)).
  cbn [mbind outcome_bind negb].
  change (SECTOR_STATE_IN_USE =? SECTOR_STATE_FULL) with false. cbn iota.
  cbn [mbind outcome_bind negb].
  assert (Hnf : (s0 =? SECTOR_STATE_FULL) = false /\ (s1 =? SECTOR_STATE_FULL) = false)
    by (unfold s0, s1; by destruct (cur =? 0)).
  destruct Hnf as [Hn0 Hn1]. unfold erase_if. by rewrite Hn0, Hn1.
Qed.

Lemma init_available fuel (st : t F) cur L Lo :
  on_flash storage_size (flash st) cur L SECTOR_STATE_AVAILABLE Lo ->
  init storage_size sector_size fuel st =
  Done (true, mk (content storage_size L Lo) (current_sector st)
                (4 + zlen (log_bytes L)) 0 false (flash st)).
Proof.
  intros [Hok Hcur Hused Hother Hso].
  assert (Lo = []) as -> by (destruct Hso as [[_ ->]|?]; done).
  apply (init_available_header fuel st cur); try done.
  eapply header_of_sector; [done|lia|done].
Qed.

Context `{!FlashReliable F}.

(** [write_one] past the header of the current sector, whatever this sector
    holds. *)
Lemma write_one_elsewhere (st : t F) num nb data : flash_ok (flash st) ->
  0 <= current_sector st < 2 -> 4 <= write_offset st -> zlen data <= 64 ->
  write_offset st + 66 <= sector_size ->
  exists f', write_one st num nb data =
      (true, set_write_offset (set_flash st f') (write_offset st + 2 + zlen data)) /\
    flash_ok f' /\
    flash_img f' (1 - current_sector st) = flash_img (flash st) (1 - current_sector st) /\
    take 4 (flash_img f' (current_sector st)) = take 4 (flash_img (flash st) (current_sector st)).
Proof.
  intros Hok Hs Hwo Hd Hl. pose proof (Hsector _ Hsizes).
  assert (Htake : forall img o bs, 4 <= o -> take 4 (program img o bs) = take 4 img).
  { intros img o bs Ho. apply list_eq. intros i. destruct (decide (i < 4)%nat).
    - rewrite !lookup_take_lt by done. unfold program.
      rewrite lookup_inserts_dec, decide_False by lia. done.
    - by rewrite !lookup_take_ge by lia. }
  assert (Hh : forall h, zlen (block_header_bytes h) = 2)
    by (intros h; by rewrite block_header_bytes_length).
  unfold write_one, sizeof_block_header.
  destruct (call_write_ok (sector_size := sector_size) st (current_sector st) (write_offset st)
    (block_header_bytes (BlockHeader BLOCK_STATE_WRITING num nb)))
    as (f1 & -> & Hok1 & Ho1 & Hi1); [done|done|lia|rewrite Hh; lia|].
  cbn [negb set_flash write_offset current_sector].
  rewrite (u32_small (write_offset st + 2)) by lia.
  destruct (call_write_ok (sector_size := sector_size) (set_flash st f1) (current_sector st)
    (write_offset st + 2) data) as (f2 & Hc2 & Hok2 & Ho2 & Hi2); [done|done|lia|lia|].
  rewrite Hc2. cbn [negb set_flash write_offset current_sector].
  destruct (call_write_ok (sector_size := sector_size) (set_flash (set_flash st f1) f2)
    (current_sector st) (write_offset st)
    (block_header_bytes (BlockHeader BLOCK_STATE_VALID num nb)))
    as (f3 & Hc3 & Hok3 & Ho3 & Hi3); [done|done|lia|rewrite Hh; lia|].
  rewrite Hc3. cbn [negb set_flash write_offset current_sector flash] in *.
  exists f3. split; [|split; [done|split]].
  - rewrite u32_small by lia. by replace (write_offset st + (2 + zlen data)) with
      (write_offset st + 2 + zlen data) by lia.
  - by rewrite Ho3, Ho2.
  - by rewrite Hi3, Htake, Hi2, Htake, Hi1, Htake by lia.
Qed.

(** A boot with the other sector full: its data is copied to the sector in use
    before it is erased. *)
Lemma init_full fuel (st : t F) cur L Lo : (2 <= fuel)%nat ->
  on_flash storage_size (flash st) cur L SECTOR_STATE_FULL Lo ->
  4 + zlen (log_bytes L) <= sector_size - reserve_size storage_size ->
  exists st' L', init storage_size sector_size fuel st = Done (true, st') /\
    mem_buffer st' = content storage_size L Lo /\
    Inv storage_size st' L' SECTOR_STATE_AVAILABLE [] /\
    content storage_size L' [] = mem_buffer st'.
Proof.
  intros Hfuel Hf Hroom. pose proof Hf as [Hok Hcur Hused Hother Hso].
  rewrite (init_headers fuel st cur SECTOR_STATE_FULL Hcur);
    [|by eapply header_of_sector|eapply header_of_sector; [done|lia|done]|by right].
  destruct (reserve_eq storage_size Hsizes) as (C & HS & HC & HR & Hse).
  assert (HC' : storage_size / 64 = C) by (rewrite HS, Z.mul_comm; by apply Z.div_mul).
  destruct (init_order cur SECTOR_STATE_FULL Hcur (or_intror eq_refl)) as [_ Hord].
  specialize (Hord eq_refl). unfold init_load.
  set (s0 := if cur =? 0 then _ else _) in *.
  set (s1 := if cur =? 0 then SECTOR_STATE_FULL else _) in *.
  destruct Hord as (E1 & E2 & E3 & E4 & E5). cbn zeta in *. rewrite E2, E3, E4, E5, E1.
  pose proof (zeros_length storage_size Hsizes) as Hz.
  rewrite (load_if_ok (cleared st) (1 - cur) SECTOR_STATE_FULL Lo) by (done || lia).
  cbn [mbind outcome_bind negb]. rewrite decide_False by done.
  set (st1 := loaded (cleared st) Lo _).
  rewrite (load_if_ok st1 cur SECTOR_STATE_IN_USE L);
    [|done|done|done|simpl; rewrite replay_length; exact Hz].
  rewrite decide_False by done. cbn [mbind outcome_bind negb].
  change (SECTOR_STATE_FULL =? SECTOR_STATE_FULL) with true. cbn iota.
  set (st2 := set_current_sector _ cur).
  assert (Hm2 : mem_buffer st2 = content storage_size L Lo) by done.
  assert (Hb2 : base storage_size st2 L SECTOR_STATE_FULL Lo).
  { constructor; simpl; try done.
    - rewrite !replay_length. exact Hz.
    - apply content_bytes; [apply Hused|apply Hother]. }
  unfold write_all, write_all_with.
  destruct (write_all_loop_spec storage_size Hsizes fuel SECTOR_STATE_FULL Lo Hfuel
    (S (Z.to_nat storage_size)) st2 L 0)
    as (st3 & L' & Hw & Hb3 & [Hm3 Hc3 Hr3] & _ & Hov & _); try done; [simpl; lia..|].
  change (64 * 0) with 0 in Hw, Hov. rewrite Hw. cbn [mbind outcome_bind negb].
  pose proof (overlaid_content storage_size Hsizes (mem_buffer st2) L Lo L'
    (base_mem _ _ _ _ _ Hb2) Hov) as Hk.
  assert (Hfin : content storage_size L' [] = mem_buffer st2).
  { apply list_eq. intros j. destruct (Hk j) as [E|E]; [|exact E].
    rewrite Hm2. exact E. }
  pose proof Hb3 as [[Hok3 Hcur3 Hused3 Hother3 _] Hmem3 Hbytes3 Herr3 Hoff3].
  assert (Hcur' : current_sector st3 = cur) by (by rewrite Hc3).
  rewrite Hcur' in *.
  destruct (erase_sector_ok storage_size Hsizes st3 (1 - cur)) as (f4 & He & Hok4 & Ho4 & Hs4);
    [done|lia|].
  assert (Her : exists x, (let '(ok, st4) := erase_if st3 s0 0 in
     if negb ok then Done (false, st4)
     else let '(ok0, st5) := erase_if st4 s1 1 in
          if negb ok0 then Done (false, st5)
          else Done (true, set_reserved_space st5 0)) = Done (true, x) /\
     x = set_reserved_space (set_flash st3 f4) 0).
  { eexists. split; [|reflexivity]. unfold erase_if, s0, s1. clear -He Hcur.
    assert (cur = 0 \/ cur = 1) as [-> | ->] by lia; cbn [Z.eqb Pos.eqb].
    - change (SECTOR_STATE_IN_USE =? SECTOR_STATE_FULL) with false.
      change (SECTOR_STATE_FULL =? SECTOR_STATE_FULL) with true. cbn [negb].
      change (1 - 0) with 1 in He. by rewrite He.
    - change (SECTOR_STATE_IN_USE =? SECTOR_STATE_FULL) with false.
      change (SECTOR_STATE_FULL =? SECTOR_STATE_FULL) with true.
      change (1 - 1) with 0 in He. by rewrite He. }
  destruct Her as (x & -> & ->). eexists _, L'. split; [reflexivity|].
  split; [by rewrite <- Hm2, <- Hm3|]. split; [|by rewrite Hfin, <- Hm3].
  constructor; [|by left]. constructor; try done. simpl. rewrite Hcur'.
  constructor; try done; [|by left]. eapply sector_is_other; [|exact Hused3].
  by replace (1 - (1 - cur)) with cur in Ho4 by lia.
Qed.
End init.

(** * Properties *)


(** A small device, freshly initialised: 64 bytes of storage in two sectors of
    256 bytes. *)
Definition small_flash : FlashTest.t :=
  FlashTest.mk (hdr SECTOR_STATE_IN_USE ++ replicate 252 255)
               (hdr SECTOR_STATE_AVAILABLE ++ replicate 252 255) true.
Definition small_mem : list Z := list_inserts 9 [1; 2; 3; 4] (zeros 64).
Definition small : t FlashTest.t := mk small_mem 0 4 0 false small_flash.

Lemma small_sizes : sizes_ok 64 256.
Proof. split; [by exists 1|vm_compute; intuition congruence]. Qed.

Lemma small_Inv : Inv (sector_size := 256) 64 small [] SECTOR_STATE_AVAILABLE [].
Proof.
  constructor; [|by left]. constructor; try done.
  - constructor; try done; [| |by left]; (constructor; [by exists 252%nat| |by constructor]).
    + by right; left.
    + by left.
  - unfold small, small_mem, zeros. simpl.
    repeat (constructor; [lia|]). constructor.
Qed.

Lemma small_recorded : recorded_outside 64 (mem_buffer small) [] [] 9 4.
Proof.
  intros j Hj. change (content 64 [] []) with (zeros 64).
  change (mem_buffer small) with small_mem. unfold small_mem.
  rewrite lookup_inserts_dec. rewrite decide_False; [done|]. simpl. lia.
Qed.


Example write_reload :
  (x ← write 64 256 9 small 9 4; init 64 256 9 (mk [] 0 0 0 true (flash x.2))) =
  (x ← write 64 256 9 small 9 4; Done (true, mk small_mem 0 14 0 false (flash x.2))).
Proof. vm_compute. reflexivity. Qed.

(** C1. A write of one block is atomic whatever happens to the power: the flash
    writes of the block may fail after any number of half-words, and the log
    that the next [load_sector] replays is the old one, or the one with the
    whole block, and the latter when [write] returned true. *)
Theorem flash_write_atomic {F} `{FlashLaws F sector_size} storage_size
    fuel (st : t F) L so Lo offset len :
  sizes_ok storage_size sector_size ->
  base storage_size st L so Lo -> 0 <= reserved_space st ->
  0 <= offset -> offset mod 8 = 0 -> 0 < len <= 64 -> offset + len <= storage_size ->
  (2 <= fuel)%nat -> write_offset st + 66 + reserved_space st <= sector_size ->
  let n := 8 * ((len + 7) / 8) in
  exists ok st' L', write storage_size sector_size fuel st offset len = Done (ok, st') /\
    (forall boot, flash boot = flash st' -> zlen (mem_buffer boot) = storage_size ->
       load_sector storage_size sector_size boot (current_sector st) =
       Done (true, loaded boot L' (4 + zlen (log_bytes L')))) /\
    flash_img (flash st') (1 - current_sector st) =
      flash_img (flash st) (1 - current_sector st) /\
    forall m0, length m0 = length (mem_buffer st) ->
      (ok = false /\ replay L' m0 = replay L m0) \/
      (forall j, replay L' m0 !! j =
         if decide (offset <= Z.of_nat j < offset + n) then mem_buffer st !! j
         else replay L m0 !! j).
Proof.
  intros Hsz Hbase Hr0 Ho Hal Hlen Hfit Hfuel Hroom n.
  pose proof (Hstorage _ Hsz) as Hst. pose proof (Hsector _ Hsz) as Hse.
  pose proof Hbase as [[Hok Hcur Hused Hother Hso] Hmem Hb Herr Hwo].
  destruct fuel as [|[|fuel]]; [lia..|]. unfold write. rewrite Herr.
  destruct (write_loop_unfold storage_size Hsz (S fuel) st st offset len)
    as (data & Hd & ->); [by apply (make_room_skip storage_size Hsz); lia|done|lia..|].
  rewrite Z.min_l in * by lia. rewrite Hal, Z.sub_0_r. fold n in Hd |- *.
  assert (Hn : 8 <= n <= 64 /\ len <= n) by (unfold n; zlia).
  pose proof (blk_get_length _ _ _ _ Hd) as Hdl.
  assert (Hfull : offset / 8 * 8 = offset) by zlia.
  assert (Hfits : offset + n <= storage_size)
    by (destruct (reserve_eq _ Hsz) as (c & -> & _); unfold n; zlia).
  assert (Hblk : blk_ok storage_size (Blk true (offset / 8) data)).
  { split; [simpl; zlia|]. split; [|split; [|unfold block_size; simpl; lia]].
    - apply blk_get_inv in Hd as (_ & _ & _ & ->). by apply Forall_take, Forall_drop.
    - exists ((len + 7) / 8). simpl. unfold n in *. lia. }
  assert (Hm1 : (len + 7) / 8 - 1 = zlen data / block_size - 1)
    by (rewrite Hdl; unfold n, block_size; rewrite Z.mul_comm, Z.div_mul by lia; done).
  rewrite Hm1.
  destruct (write_one_spec storage_size Hse st SECTOR_STATE_IN_USE L (offset / 8) data)
    as (ok & f' & L' & -> & Hok' & Ho' & HS' & Happ); try done; [lia|].
  set (st' := if ok then _ else _).
  assert (Hst' : flash st' = f' /\ current_sector st' = current_sector st)
    by (unfold st'; by destruct ok). destruct Hst' as [Hfl Hcs].
  exists ok, st', L'. split; [|split; [|split; [by rewrite Hfl|]]].
  - destruct ok; cbn [negb]; [|done]. rewrite Z.gtb_ltb. destruct (Z.ltb_spec len n); [done|].
    cbn [write_loop]. by rewrite Z.gtb_ltb, (proj2 (Z.ltb_ge 0 (len - n))) by lia.
  - intros boot Hb' Hm'. apply (load_sector_spec storage_size Hst Hse boot _ SECTOR_STATE_IN_USE);
      rewrite ?Hb', ?Hfl; done.
  - intros m0 Hl0. destruct Happ as [-> |[-> Hor]].
    + right. intros j. rewrite (replay_block L _ n (mem_buffer st)) by (done || zlia).
      by rewrite Hfull.
    + left. split; [done|]. destruct Hor as [-> |[junk ->]]; [done|].
      by rewrite replay_app.
Qed.

(** The same device, losing its power after [k] more flash writes. *)
Definition small_power (k : nat) : t (FlashTest.t * nat) :=
  mk small_mem 0 4 0 false (small_flash, k).

Lemma small_power_base k :
  base (sector_size := 256) 64 (small_power k) [] SECTOR_STATE_AVAILABLE [].
Proof.
  pose proof (inv_base _ _ _ _ _ small_Inv) as [[Hok Hcur [Hi Hs Hl] [Hi' Hs' Hl'] Hso] Hm Hb He Ho].
  by constructor.
Qed.

Lemma flash_write_atomic_witness :
  exists ok st' L', write 64 256 2 (small_power 2) 8 16 = Done (ok, st') /\
    forall m0, length m0 = 64%nat ->
      (ok = false /\ replay L' m0 = replay [] m0) \/
      (forall j, replay L' m0 !! j =
         if decide (8 <= Z.of_nat j < 8 + 16) then small_mem !! j else replay [] m0 !! j).
Proof.
  destruct (flash_write_atomic (sector_size := 256) 64 2 (small_power 2) []
    SECTOR_STATE_AVAILABLE [] 8 16 small_sizes (small_power_base 2))
    as (ok & st' & L' & Hw & _ & _ & Hr);
    [vm_compute; congruence|lia|reflexivity|lia..|vm_compute; congruence|].
  exists ok, st', L'. split; [exact Hw|]. intros m0 Hm0. apply Hr. exact Hm0.
Defined.

(** The power fails before the third write: the block is not marked valid and
    the next boot ignores it. *)
Example torn_block :
  (x ← write 64 256 2 (small_power 2) 8 16; init 64 256 9 (mk [] 0 0 0 true (flash x.2))) =
  (x ← write 64 256 2 (small_power 2) 8 16;
   Done (true, mk (zeros 64) 0 22 0 false (flash x.2))).
Proof. vm_compute. reflexivity. Qed.

(** [init] does not set [current_sector] to the sector it finds in use
    when the other one is only available: an object whose [current_sector] is
    the other sector (a zero-initialised one, with sector 1 in use) then
    appends to the sector that the next boot ignores.  Its writes return true,
    and are lost. *)
Theorem flash_stale_current_sector {F} `{FlashReliable F sector_size} storage_size
    fuel (boot boot' : t F) cur L offset len mem :
  sizes_ok storage_size sector_size ->
  on_flash storage_size (flash boot) cur L SECTOR_STATE_AVAILABLE [] ->
  current_sector boot = 1 - cur -> (2 <= fuel)%nat ->
  4 + zlen (log_bytes L) + 66 <= sector_size ->
  zlen mem = storage_size -> 0 <= offset -> offset mod 8 = 0 -> 0 < len <= 8 ->
  offset + len <= storage_size ->
  exists st1 st2 st3, init storage_size sector_size fuel boot = Done (true, st1) /\
    mem_buffer st1 = content storage_size L [] /\
    write storage_size sector_size fuel (set_mem_buffer st1 mem) offset len =
      Done (true, st2) /\
    (flash boot' = flash st2 ->
     init storage_size sector_size fuel boot' = Done (true, st3) /\
     mem_buffer st3 = content storage_size L []).
Proof.
  intros Hsz Hf Hcur Hfuel Hroom Hmem Ho Hal Hlen Hfit.
  pose proof (Hsector _ Hsz) as Hse. pose proof Hf as [Hok Hc Hused Hother _].
  set (st1 := mk (content storage_size L []) (current_sector boot) (4 + zlen (log_bytes L))
                0 false (flash boot)).
  destruct fuel as [|[|fuel]]; [lia..|].
  destruct (write_loop_unfold storage_size Hsz (S fuel) (set_mem_buffer st1 mem)
    (set_mem_buffer st1 mem) offset len) as (data & Hd & Hw);
    [by apply (make_room_skip storage_size Hsz); simpl; lia|done|lia..|].
  replace (Z.min len 64 + 7) with (len + 7) in * by lia.
  replace ((len + 7) / 8) with 1 in * by zlia.
  pose proof (blk_get_length _ _ _ _ Hd) as Hdl. rewrite Hal in Hw.
  destruct (write_one_elsewhere storage_size Hsz (set_mem_buffer st1 mem) (offset / 8) (1 - 1) data)
    as (f' & Hone & Hok' & Ho' & Hi'); [done|simpl; lia|simpl; lia|lia|simpl; lia|].
  rewrite Hone in Hw. cbn [negb] in Hw. cbn [st1 set_mem_buffer current_sector flash] in Ho', Hi'.
  rewrite Hcur in Ho', Hi'. replace (1 - (1 - cur)) with cur in Ho' by lia.
  exists st1, (set_write_offset (set_flash (set_mem_buffer st1 mem) f')
                 (4 + zlen (log_bytes L) + 2 + zlen data)),
    (mk (content storage_size L []) (current_sector boot') (4 + zlen (log_bytes L)) 0 false
       (flash boot')).
  split; [by eapply init_available|]. split; [done|]. split.
  - unfold write. cbn [st1 set_mem_buffer write_error]. rewrite Hw.
    rewrite Z.gtb_ltb. destruct (Z.ltb_spec len (8 * 1 - 0)); [done|].
    replace (len - (8 * 1 - 0)) with 0 by lia. done.
  - intros Hb. split; [|done].
    assert (Hb' : flash boot' = f') by exact Hb.
    apply (init_available_header storage_size Hsz _ boot' cur); rewrite ?Hb'; try done.
    + by eapply sector_is_other.
    + unfold header_is. rewrite flash_read_law by (done || unfold sizeof_sector_header; lia).
      change (Z.to_nat 0) with 0%nat. rewrite drop_0.
      change (Z.to_nat sizeof_sector_header) with 4%nat. rewrite Hi'.
      destruct Hother as [[n Hi] _ _]. rewrite Hi. done.
Qed.

(** A device whose sector 1 is in use. *)
Definition small_flash1 : FlashTest.t :=
  FlashTest.mk (hdr SECTOR_STATE_AVAILABLE ++ replicate 252 255)
               (hdr SECTOR_STATE_IN_USE ++ replicate 252 255) true.

Lemma small_on_flash1 :
  on_flash (sector_size := 256) 64 small_flash1 1 [] SECTOR_STATE_AVAILABLE [].
Proof.
  constructor; try done; [| |by left]; (constructor; [by exists 252%nat| |by constructor]).
  - by right; left.
  - by left.
Qed.

Lemma flash_stale_current_sector_witness :
  let boot := mk [] 0 0 0 false small_flash1 in
  exists st1 st2 st3, init 64 256 3 boot = Done (true, st1) /\
    write 64 256 3 (set_mem_buffer st1 small_mem) 8 8 = Done (true, st2) /\
    init 64 256 3 (mk [] 0 0 0 false (flash st2)) = Done (true, st3) /\
    mem_buffer st3 = zeros 64.
Proof.
  intros boot.
  set (st2 := match write 64 256 3 (set_mem_buffer (mk (zeros 64) 0 4 0 false small_flash1)
                 small_mem) 8 8 with Done x => x.2 | _ => boot end).
  destruct (flash_stale_current_sector 64 3 boot (mk [] 0 0 0 false (flash st2)) 1 [] 8 8
    small_mem small_sizes small_on_flash1)
    as (st1 & st2' & st3 & Hi & Hm & Hw & Hr);
    [reflexivity|lia|vm_compute; congruence|reflexivity|lia|reflexivity|lia..|].
  exists st1, st2', st3. split; [exact Hi|]. split; [exact Hw|].
  assert (Hst1 : st1 = mk (zeros 64) 0 4 0 false small_flash1).
  { revert Hi. vm_compute. congruence. }
  assert (Hst2 : st2' = st2).
  { revert Hw. rewrite Hst1. vm_compute. congruence. }
  rewrite Hst2 in *. destruct (Hr eq_refl) as [Hi3 Hm3]. split; [exact Hi3|exact Hm3].
Defined.

Section power_failures.
Context {F : Type} {sector_size : Z} `{FlashLaws F sector_size}.
Context (storage_size : Z) (Hsizes : sizes_ok storage_size sector_size).
Context `{!FlashReliable F}.

(** [erase_all] leaves two empty sectors, the first one in use. *)
Lemma erase_all_ok (st : t F) : flash_ok (flash st) ->
  exists f', erase_all st = (true, mk (mem_buffer st) 0 4 (reserved_space st) false f') /\
    on_flash storage_size f' 0 [] SECTOR_STATE_AVAILABLE [].
Proof.
  intros Hok. unfold erase_all. set (st0 := set_write_offset _ _).
  destruct (erase_sector_ok storage_size Hsizes st0 0) as (f1 & He1 & Hok1 & Ho1 & Hs1);
    [done|lia|].
  rewrite He1. cbn [negb].
  destruct (erase_sector_ok storage_size Hsizes (set_flash st0 f1) 1)
    as (f2 & He2 & Hok2 & Ho2 & Hs2); [done|lia|].
  rewrite He2. cbn [negb].
  change (1 - 1) with 0 in Ho2.
  destruct (call_mark storage_size Hsizes (set_flash (set_flash st0 f1) f2) 0
    SECTOR_STATE_AVAILABLE SECTOR_STATE_IN_USE [])
    as (f3 & Hc3 & Hok3 & Ho3 & Hs3); [done|lia| |by right; left|done|].
  { by eapply sector_is_other. }
  exists f3. change (current_sector (set_flash (set_flash st0 f1) f2)) with 0.
  fold (hdr SECTOR_STATE_IN_USE). rewrite Hc3. split; [done|].
  change (1 - 0) with 1 in Ho3. constructor; [done|lia|done| |by left].
  by eapply sector_is_other.
Qed.

(** A header that is erased, or not the library's, makes [init] erase both
    sectors. *)
Lemma init_bad_header fuel (boot : t F) i : flash_ok (flash boot) -> 0 <= i < 2 ->
  read_header boot i = inr None ->
  (forall j, 0 <= j < 2 -> read_header boot j <> inl tt) ->
  exists f', init storage_size sector_size fuel boot =
      Done (true, mk (zeros storage_size) 0 4 (reserved_space boot) false f') /\
    on_flash storage_size f' 0 [] SECTOR_STATE_AVAILABLE [].
Proof.
  intros Hok Hi Hbad Hrd. unfold init.
  change (set_mem_buffer boot (replicate (Z.to_nat storage_size) 0))
    with (cleared storage_size boot).
  destruct (erase_all_ok (cleared storage_size boot) Hok) as (f' & He & Hf').
  exists f'. split; [|done]. rewrite He.
  change (read_header (cleared storage_size boot)) with (read_header boot).
  pose proof (Hrd 0 ltac:(lia)) as H00. pose proof (Hrd 1 ltac:(lia)) as H01.
  assert (i = 0 \/ i = 1) as [-> | ->] by lia; rewrite Hbad; [done|].
  by destruct (read_header boot 0) as [[]|[h|]].
Qed.
End power_failures.

(** [erase_sector] is not safe against a power failure: when the power
    fails between the erase of the sector and the write of its header, the next
    [init] takes the missing signature for an uninitialised device and erases
    both sectors, whatever the sector in use records. *)
Theorem flash_torn_erase {F} `{FlashReliable F sector_size} storage_size
    fuel (st boot : t F) L so Lo :
  sizes_ok storage_size sector_size -> base storage_size st L so Lo ->
  flash boot = (flash_erase (flash st) (1 - current_sector st)).2 ->
  exists f', init storage_size sector_size fuel boot =
      Done (true, mk (zeros storage_size) 0 4 (reserved_space boot) false f') /\
    on_flash storage_size f' 0 [] SECTOR_STATE_AVAILABLE [].
Proof.
  intros Hsz [[Hok Hcur Hused Hother _] _ _ _ _] Hb.
  pose proof (Hsector _ Hsz) as Hse.
  pose proof (flash_erase_law (flash st) (1 - current_sector st) Hok ltac:(lia)) as (Hok' & Ho & Hi).
  specialize (Hi (flash_erase_reliable (flash st) (1 - current_sector st) Hok ltac:(lia))). rewrite <- Hb in *.
  replace (1 - (1 - current_sector st)) with (current_sector st) in Ho by lia.
  assert (Herased : read_header boot (1 - current_sector st) = inr None).
  { unfold read_header. rewrite flash_read_law by (done || unfold sizeof_sector_header; lia).
    rewrite Hi, drop_replicate, take_replicate. change (Z.to_nat sizeof_sector_header) with 4%nat.
    replace (4 `min` (Z.to_nat sector_size - Z.to_nat 0))%nat with 4%nat by lia. done. }
  apply (init_bad_header storage_size Hsz fuel boot (1 - current_sector st)); try done; [lia|].
  intros j Hj. destruct (decide (j = current_sector st)) as [->|].
  - rewrite (read_header_ok boot _ SECTOR_STATE_IN_USE); [done|by right; left|].
    eapply header_of_sector; [done|done|]. by eapply sector_is_other.
  - assert (j = 1 - current_sector st) as -> by lia. by rewrite Herased.
Qed.

(** A device whose sector 0 has no room for another block. *)
Definition full_log : list blk := replicate 3 (Blk true 0 (replicate 64 7)).
Definition full_flash : FlashTest.t :=
  FlashTest.mk (hdr SECTOR_STATE_IN_USE ++ log_bytes full_log ++ replicate 54 255)
               (hdr SECTOR_STATE_AVAILABLE ++ replicate 252 255) true.
Definition full_state : t FlashTest.t := mk (replicate 64 7) 0 202 0 false full_flash.

Lemma full_base : base (sector_size := 256) 64 full_state full_log SECTOR_STATE_AVAILABLE [].
Proof.
  constructor; try done.
  - constructor; try done; [| |by left].
    + constructor; [by exists 54%nat|by right; left|]. apply Forall_replicate.
      split; [simpl; lia|]. split; [apply Forall_replicate; lia|].
      split; [exists 8; split; [reflexivity|lia]|vm_compute; congruence].
    + constructor; [by exists 252%nat|by left|by constructor].
  - apply Forall_replicate. lia.
Qed.

Lemma flash_torn_erase_witness :
  content 64 full_log [] = replicate 64 7 /\
  exists f', init 64 256 0 (mk [] 0 0 0 false (FlashTest.flash_erase full_flash 1).2) =
      Done (true, mk (zeros 64) 0 4 0 false f') /\
    on_flash (sector_size := 256) 64 f' 0 [] SECTOR_STATE_AVAILABLE [].
Proof.
  split; [reflexivity|].
  apply (flash_torn_erase 64 0 full_state
    (mk [] 0 0 0 false (FlashTest.flash_erase full_flash 1).2)
    full_log SECTOR_STATE_AVAILABLE []).
  - exact small_sizes.
  - exact full_base.
  - reflexivity.
Defined.

Section stuck.
Context {F : Type} {sector_size : Z} `{FlashLaws F sector_size}.
Context (storage_size : Z) (Hsizes : sizes_ok storage_size sector_size).

(** The other sector is full, there is no room in the current one, and there
    is something to write. *)
Record stuck (st : t F) : Prop := {
  stuck_cur : 0 <= current_sector st < 2;
  stuck_header : header_is (flash st) (1 - current_sector st) SECTOR_STATE_FULL;
  stuck_erase : flash_erase_ok (flash st) = true;
  stuck_mem : zlen (mem_buffer st) = storage_size;
  stuck_data : exists j x, mem_buffer st !! j = Some x /\ x <> 0;
  stuck_room : sector_size - 66 < write_offset st;
  stuck_reserved : reserved_space st = 0;
  stuck_error : write_error st = false
}.

(** [write_all] reaches the first chunk that is not zero, and [write] of it
    does not return. *)
Lemma stuck_write_all_loop write st : stuck st ->
  (forall ofs, write st ofs max_write = OutOfFuel) ->
  forall k c, 0 <= c ->
  (forall j, Z.of_nat j < 64 * c -> forall x, mem_buffer st !! j = Some x -> x = 0) ->
  write_all_loop storage_size write k st (64 * c) = OutOfFuel.
Proof.
  intros Hst Hw k. induction k as [|k IH]; intros c Hc Hz; [done|].
  destruct (reserve_eq storage_size Hsizes) as (C & HS & HC & _).
  pose proof (stuck_mem _ Hst) as Hmem. cbn [write_all_loop].
  destruct (Z.ltb_spec (64 * c) storage_size).
  2:{ destruct (stuck_data _ Hst) as (j & x & Hj & Hx). destruct Hx.
      apply (Hz j); [|done]. apply lookup_lt_Some in Hj. lia. }
  destruct (all_zero_spec st c) as (z & -> & Hz0); [lia|lia|].
  cbn [mbind outcome_bind]. destruct z; cbn [negb mbind outcome_bind]; [|by rewrite Hw].
  rewrite u16_small by (unfold max_write; lia).
  replace (64 * c + max_write) with (64 * (c + 1)) by (unfold max_write; lia).
  apply IH; [lia|]. intros j Hj x Hx. destruct (decide (Z.of_nat j < 64 * c)).
  - by apply (Hz j).
  - rewrite Hz0 in Hx by (done || lia). congruence.
Qed.

Lemma stuck_write fuel : forall st ofs, stuck st ->
  write storage_size sector_size fuel st ofs max_write = OutOfFuel.
Proof.
  induction fuel as [|fuel IH]; intros st ofs Hst; unfold write;
    rewrite (stuck_error _ Hst); [done|].
  pose proof Hst as [Hcur Hh He Hm Hd Hroom Hres Herr].
  destruct (reserve_eq storage_size Hsizes) as (C & HS & HC & HR & Hse).
  cbn [write_loop]. change (max_write >? 0) with true. cbn iota.
  fold (write storage_size sector_size fuel).
  assert (Hfullsec : (write_offset st >? u32 (sector_size -
            (sizeof_block_header + max_write + reserved_space st))) = true).
  { rewrite Hres. unfold sizeof_block_header, max_write. rewrite u32_small by lia.
    apply Z.gtb_lt. lia. }
  unfold make_room. rewrite Hfullsec.
  unfold switch_sectors. rewrite Hres. cbn [Z.eqb negb]. rewrite lxor_1 by done.
  rewrite Hh. cbn [negb]. rewrite hdr_roundtrip by by right; right.
  cbn [sh_signature sh_state]. rewrite Z.eqb_refl. cbn [negb].
  change (SECTOR_STATE_AVAILABLE =? SECTOR_STATE_FULL) with false. cbn [negb].
  change (flash (set_write_error st true)) with (flash st). rewrite He. cbn [negb].
  unfold switch_full_sector_with, write_all_with.
  set (st' := set_reserved_space _ 0).
  assert (Hst' : stuck st') by (by constructor).
  assert (Hs : forall o, write storage_size sector_size fuel st' o max_write = OutOfFuel)
    by (intros o; by apply IH).
  pose proof (stuck_write_all_loop _ st' Hst' Hs (S (Z.to_nat storage_size)) 0 ltac:(lia)
    ltac:(intros; lia)) as Hl.
  change (64 * 0) with 0 in Hl. unfold write in Hl. unfold write. rewrite Hl. done.
Qed.
End stuck.

(** C39. [switch_sectors] is not safe against a power failure between its two
    header writes, the case its comment is about: with the old sector marked
    full and the new one not yet in use, the next [init] starts to copy the data
    at the write offset of the old sector, finds no room, and [write],
    [switch_full_sector] and [write_all] call each other for ever, while erasing
    is allowed. *)
Theorem flash_switch_power_failure {F} `{FlashReliable F sector_size} storage_size
    fuel (st boot : t F) L Lo :
  sizes_ok storage_size sector_size -> base storage_size st L SECTOR_STATE_AVAILABLE Lo ->
  sector_size - 66 < write_offset st ->
  (exists j x, content storage_size L Lo !! j = Some x /\ x <> 0) ->
  flash boot = (flash_write (flash st) (current_sector st) 0 (hdr SECTOR_STATE_FULL)).2 ->
  flash_erase_ok (flash boot) = true ->
  init storage_size sector_size fuel boot = OutOfFuel.
Proof.
  intros Hsz [[Hok Hcur Hused Hother Hso] _ _ _ Hwo] Hroom Hdata Hb Herase.
  assert (Lo = []) as -> by (destruct Hso as [[_ ->]|?]; done).
  destruct (call_mark storage_size Hsz st (current_sector st) _ SECTOR_STATE_FULL L Hok Hcur Hused)
    as (f1 & Hc1 & Hok1 & Ho1 & Hs1); [by right; right|done|].
  assert (Hb' : flash boot = f1).
  { rewrite Hb. unfold call_write in Hc1.
    destruct (flash_write (flash st) (current_sector st) 0 (hdr SECTOR_STATE_FULL)) as [ok f].
    simpl. assert (E : set_flash st f = set_flash st f1) by congruence.
    by injection E. }
  clear Hb Hc1. rewrite <- Hb' in *. set (cur := current_sector st) in *.
  assert (Hh : header_is (flash boot) cur SECTOR_STATE_FULL)
    by (by eapply header_of_sector).
  assert (Hh' : header_is (flash boot) (1 - cur) SECTOR_STATE_AVAILABLE).
  { eapply header_of_sector; [done|lia|]. by eapply sector_is_other. }
  set (s0 := if cur =? 0 then SECTOR_STATE_FULL else SECTOR_STATE_AVAILABLE).
  set (s1 := if cur =? 0 then SECTOR_STATE_AVAILABLE else SECTOR_STATE_FULL).
  assert (Hinit : init storage_size sector_size fuel boot =
    init_load storage_size sector_size fuel (cleared storage_size boot) s0 s1).
  { unfold s0, s1. assert (cur = 0 \/ cur = 1) as [E|E] by lia; rewrite E in *;
      cbn [Z.eqb Pos.eqb]; (apply init_states; [first [by left|by right; right]|
        first [by left|by right; right]|done|done|by left]). }
  rewrite Hinit. unfold init_load.
  assert (Hord : first_sector s0 s1 = cur /\ Z.land (cur + 1) 1 = 1 - cur /\
    Z.lxor cur 1 = 1 - cur /\ (if cur =? 0 then s0 else s1) = SECTOR_STATE_FULL /\
    (if 1 - cur =? 0 then s0 else s1) = SECTOR_STATE_AVAILABLE).
  { unfold s0, s1. assert (cur = 0 \/ cur = 1) as [E|E] by lia; rewrite E; by vm_compute. }
  destruct Hord as (E1 & E2 & E3 & E4 & E5). rewrite E1, E2, E3, E4, E5.
  pose proof (zeros_length storage_size Hsz) as Hz.
  rewrite (load_if_ok storage_size Hsz (cleared storage_size boot) cur SECTOR_STATE_FULL L) by done.
  rewrite decide_False by done. cbn [mbind outcome_bind negb].
  change (load_if storage_size sector_size ?x SECTOR_STATE_AVAILABLE ?y) with (Done (true, x)).
  cbn [mbind outcome_bind negb]. rewrite Z.eqb_refl.
  set (st2 := set_current_sector _ _).
  assert (Hst2 : stuck (sector_size := sector_size) storage_size st2).
  { destruct Hdata as (j & x & Hj & Hx).
    constructor; simpl; try done; [lia| | |by exists j, x|lia].
    - by replace (1 - (1 - cur)) with cur by lia.
    - rewrite replay_length. exact Hz. }
  unfold write_all, write_all_with.
  pose proof (stuck_write_all_loop storage_size Hsz _ st2 Hst2
    (fun o => stuck_write storage_size Hsz fuel st2 o Hst2) (S (Z.to_nat storage_size)) 0
    ltac:(lia) ltac:(intros; lia)) as Hl.
  change (64 * 0) with 0 in Hl. by rewrite Hl.
Qed.

Lemma flash_switch_power_failure_witness :
  init 64 256 100 (mk [] 0 0 0 false
    (FlashTest.flash_write full_flash 0 0 (hdr SECTOR_STATE_FULL)).2) = OutOfFuel.
Proof.
  apply (flash_switch_power_failure 64 100 full_state
    (mk [] 0 0 0 false (FlashTest.flash_write full_flash 0 0 (hdr SECTOR_STATE_FULL)).2)
    full_log []).
  - exact small_sizes.
  - exact full_base.
  - vm_compute. reflexivity.
  - exists 0%nat, 7. split; [vm_compute; reflexivity|lia].
  - reflexivity.
  - reflexivity.
Defined.
