(* ===== verification/HalStorage.v ===== *)
(** The storage driver of the ChibiOS boards, libraries/AP_HAL_ChibiOS/Storage.cpp,
    as it is built without a FRAM chip: a copy of the storage in memory, the lines
    of it that are dirty (libraries/AP_Common/Bitmask.h), and AP_FlashStorage
    behind it.

    The copy in memory is the [mem_buffer] of AP_FlashStorage, which is a
    reference to it.  A panic has no result, as undefined behaviour. *)
From S2P Require Import Prelude FlashStorage.
Open Scope urus_scope.
#[local] Abbreviation length := (@Datatypes.length _).

Module Bitmask.
Record t := mk { numbits : Z; numwords : Z; bits : list Z }.
Definition set_bits (b : t) (l : list Z) : t := mk (numbits b) (numwords b) l.

Definition clearall (b : t) : t := set_bits b (replicate (Z.to_nat (numwords b)) 0).
Definition create (num_bits : Z) : t :=
  let numwords := u16 ((num_bits + 31) / 32) in
  clearall (mk num_bits numwords (replicate (Z.to_nat numwords) 0)).

Definition set (b : t) (bit : Z) : option t :=
  if bit >=? numbits b then Some b
  else
    let word := bit / 32 in
    let ofs := bit &&& 0x1f in
    w ← arr_get (bits b) word;
    l ← arr_set (bits b) word (w ||| (1 << ofs));
    Some (set_bits b l).

(** The shift of [1] into the sign bit, and the difference, are undefined. *)
Definition setall (b : t) : option t :=
  let l := replicate (Z.to_nat (numwords b - 1)) 0xffffffff ++ drop (Z.to_nat (numwords b - 1)) (bits b) in
  let num_valid_bits := numbits b mod 32 in
  if num_valid_bits =? 31 then None
  else
    l ← arr_set l (numwords b - 1) (u32 ((1 << num_valid_bits) - 1));
    Some (set_bits b l).

Definition clear (b : t) (bit : Z) : option t :=
  let word := bit / 32 in
  let ofs := bit &&& 0x1f in
  w ← arr_get (bits b) word;
  l ← arr_set (bits b) word (w &&& u32 (Z.lnot (1 << ofs)));
  Some (set_bits b l).

Definition get (b : t) (bit : Z) : option bool :=
  let word := bit / 32 in
  let ofs := bit &&& 0x1f in
  w ← arr_get (bits b) word;
  Some (nz (w &&& (1 << ofs))).

Definition empty (b : t) : bool := forallb (fun w => w =? 0) (bits b).

Definition popcount (w : Z) : Z := zlen (filter (fun k => Z.testbit w (Z.of_nat k) = true) (seq 0 32)).
Definition count (b : t) : Z := foldl (fun sum w => u16 (sum + popcount w)) 0 (bits b).
Definition size (b : t) : Z := numbits b.
End Bitmask.

Module ChibiOS.
Definition CH_STORAGE_LINE_SHIFT : Z := 3.
Definition CH_STORAGE_LINE_SIZE : Z := 1 << CH_STORAGE_LINE_SHIFT.

Section storage.
Context {F : Type} `{FlashDevice F}.
Context (CH_STORAGE_SIZE sector_size : Z).
Definition CH_STORAGE_NUM_LINES : Z := CH_STORAGE_SIZE / CH_STORAGE_LINE_SIZE.

Record t := mk { _initialised : bool; _dirty_mask : Bitmask.t; _flash : FlashStorage.t F }.
Definition _buffer (s : t) : list Z := FlashStorage.mem_buffer (_flash s).
Definition set_flash (s : t) f : t := mk (_initialised s) (_dirty_mask s) f.
Definition set_dirty (s : t) d : t := mk (_initialised s) d (_flash s).
Definition set_buffer (s : t) (l : list Z) : t :=
  set_flash s (FlashStorage.set_mem_buffer (_flash s) l).

(** The object at start-up, over the flash. *)
Definition create (f : F) : t :=
  mk false (Bitmask.create CH_STORAGE_NUM_LINES)
    (FlashStorage.mk (replicate (Z.to_nat CH_STORAGE_SIZE) 0) 0 0 0 false f).

(** The loops of AP_FlashStorage for one line. *)
Definition flash_fuel : nat := 16.

Definition _flash_load (s : t) : outcome t :=
  '(ok, f) ← FlashStorage.init CH_STORAGE_SIZE sector_size flash_fuel (_flash s);
  if negb ok then Undefined else Done (set_flash s f).

Definition _storage_open (s : t) : outcome t :=
  if _initialised s then Done s
  else
    let s := set_dirty s (Bitmask.clearall (_dirty_mask s)) in
    s ← _flash_load s;
    Done (mk true (_dirty_mask s) (_flash s)).

(** The lines from [loc] to [loc + length], which counts as in the range. *)
Definition _mark_dirty (s : t) (loc length : Z) : outcome t :=
  let end_ := u16 (loc + length) in
  let first := loc >> CH_STORAGE_LINE_SHIFT in
  let last := end_ >> CH_STORAGE_LINE_SHIFT in
  d ← foldl (fun d k => d ← d; access (Bitmask.set d (first + Z.of_nat k)))
        (Done (_dirty_mask s)) (seq 0 (Z.to_nat (last - first + 1)));
  Done (set_dirty s d).

(** The test at the start of [read_block] and [write_block], on 32-bit sizes. *)
Definition refused (loc n : Z) : bool := loc >=? u32 (CH_STORAGE_SIZE - u32 (n - 1)).

(** [None] leaves the destination alone. *)
Definition read_block (s : t) (loc n : Z) : outcome (option (list Z) * t) :=
  if refused loc n then Done (None, s)
  else
    s ← _storage_open s;
    bs ← access (blk_get (_buffer s) loc n);
    Done (Some bs, s).

Definition write_block (s : t) (loc : Z) (src : list Z) : outcome t :=
  let n := zlen src in
  if refused loc n then Done s
  else
    old ← access (blk_get (_buffer s) loc n);
    if decide (src = old) then Done s
    else
      s ← _storage_open s;
      l ← access (blk_set (_buffer s) loc src);
      _mark_dirty (set_buffer s l) loc n.

Definition _flash_write (s : t) (line : Z) : outcome t :=
  '(ok, f) ← FlashStorage.write CH_STORAGE_SIZE sector_size flash_fuel (_flash s)
               (u16 (line * CH_STORAGE_LINE_SIZE)) CH_STORAGE_LINE_SIZE;
  let s := set_flash s f in
  if ok : bool then
    d ← access (Bitmask.clear (_dirty_mask s) line);
    Done (set_dirty s d)
  else Done s.

(** The first dirty line from [i] on, of [n] lines. *)
Fixpoint first_dirty (n : nat) (d : Bitmask.t) (i : Z) : option (option Z) :=
  match n with
  | O => Some None
  | S n =>
    b ← Bitmask.get d i;
    if b : bool then Some (Some i) else first_dirty n d (u16 (i + 1))
  end.

Definition _timer_tick (s : t) : outcome t :=
  if negb (_initialised s) || Bitmask.empty (_dirty_mask s) then Done s
  else
    i ← access (first_dirty (Z.to_nat CH_STORAGE_NUM_LINES) (_dirty_mask s) 0);
    match i with
    | None => Done s
    | Some i => _flash_write s i
    end.
End storage.
Arguments t F : clear implicits.
End ChibiOS.
