(* ===== verification/HalStorageSpec.v ===== *)
(** The ChibiOS storage driver: a bit mask is a set of numbers; what is not dirty
    is in flash; and what the clients of the driver rely on. *)
From S2P Require Import Prelude Storage StorageView FlashStorage FlashLog FlashSpec FlashProperties HalStorage.
Open Scope urus_scope.
#[local] Abbreviation length := (@Datatypes.length _).

(** * Bit masks *)
Module BitmaskSpec.
Import Bitmask.

(** The bit of number [j]. *)
Definition bit (b : t) (j : Z) : bool :=
  Z.testbit (nth (Z.to_nat (j / 32)) (bits b) 0) (j mod 32).

Record wf (b : t) : Prop := {
  wf_numbits : 0 <= numbits b < 65536;
  wf_words : numwords b = (numbits b + 31) / 32;
  wf_length : zlen (bits b) = numwords b;
  wf_range : Forall (fun w => 0 <= w < 4294967296) (bits b);
  wf_above : forall j, numbits b <= j -> bit b j = false
}.

Lemma land_31 x : x &&& 0x1f = x mod 32.
Proof. change 0x1f with (Z.ones 5). apply Z.land_ones. lia. Qed.

Lemma bit_word b i w : arr_get (bits b) (i / 32) = Some w -> bit b i = Z.testbit w (i mod 32).
Proof.
  intros Hw. pose proof (arr_get_inv _ _ _ Hw) as Hr. rewrite arr_get_lookup in Hw by lia.
  unfold bit. by rewrite (nth_lookup_Some _ _ _ _ Hw).
Qed.

Lemma land_bound a x k : 0 <= k -> 0 <= a < 2 ^ k -> 0 <= Z.land a x < 2 ^ k.
Proof.
  intros Hk Ha. replace (Z.land a x) with (Z.land a x mod 2 ^ k).
  { apply Z.mod_pos_bound. apply Z.pow_pos_nonneg; lia. }
  apply Z.bits_inj'. intros n Hn. destruct (decide (n < k)).
  - by rewrite Z.mod_pow2_bits_low by lia.
  - rewrite Z.mod_pow2_bits_high, Z.land_spec by lia. by rewrite (testbit_above a k n) by lia.
Qed.

Lemma word_of b i : wf b -> 0 <= i < numbits b -> exists w, arr_get (bits b) (i / 32) = Some w /\
  0 <= i / 32 < zlen (bits b) /\ 0 <= w < 4294967296.
Proof.
  intros Hb Hi. pose proof (wf_length b Hb) as Hl. pose proof (wf_words b Hb) as Hw.
  assert (Hr : 0 <= i / 32 < zlen (bits b)) by (rewrite Hl, Hw; zlia).
  destruct (arr_get_Some (bits b) (i / 32) Hr) as [w Hg]. exists w. split; [done|]. split; [done|].
  rewrite arr_get_lookup in Hg by lia.
  by apply (Forall_lookup_1 _ _ _ _ (wf_range b Hb) Hg).
Qed.

(** The mask after word [i / 32] changed to [w']. *)
Lemma bit_insert b i w' j : 0 <= i / 32 < zlen (bits b) -> 0 <= j ->
  bit (set_bits b (<[Z.to_nat (i / 32) := w']> (bits b))) j =
    if decide (j / 32 = i / 32) then Z.testbit w' (j mod 32) else bit b j.
Proof.
  intros Hi Hj. unfold bit, set_bits. cbn [bits]. rewrite !nth_lookup.
  case_decide as E.
  - rewrite E, list_lookup_insert_eq by lia. done.
  - rewrite list_lookup_insert_ne by (assert (0 <= j / 32) by zlia; lia). done.
Qed.

Lemma wf_insert b i w' : wf b -> 0 <= i < numbits b -> 0 <= w' < 4294967296 ->
  (forall k, 0 <= k < 32 -> numbits b <= i / 32 * 32 + k -> Z.testbit w' k = false) ->
  wf (set_bits b (<[Z.to_nat (i / 32) := w']> (bits b))).
Proof.
  intros Hb Hi Hw Hk. destruct (word_of b i Hb Hi) as (w&_&Hr&_). constructor; cbn [numbits numwords bits set_bits].
  - apply Hb.
  - apply Hb.
  - rewrite length_insert. apply Hb.
  - apply Forall_insert; [apply Hb|done].
  - intros j Hj. rewrite bit_insert by lia. case_decide as E; [|by apply Hb].
    apply Hk; [zlia|]. rewrite <- E. zlia.
Qed.

Lemma wf_word b i k w : wf b -> 0 <= i -> arr_get (bits b) (i / 32) = Some w -> 0 <= k < 32 ->
  numbits b <= i / 32 * 32 + k -> Z.testbit w k = false.
Proof.
  intros Hb Hi Hw Hk Hn.
  assert (Ek : (i / 32 * 32 + k) mod 32 = k) by zlia.
  rewrite <- Ek at 1. rewrite <- (bit_word b (i / 32 * 32 + k)); [by apply Hb|].
  by replace ((i / 32 * 32 + k) / 32) with (i / 32) by zlia.
Qed.

Lemma set_spec b i : wf b -> 0 <= i < numbits b -> exists b', set b i = Some b' /\ wf b' /\
  numbits b' = numbits b /\ forall j, 0 <= j -> bit b' j = bit b j || (i =? j).
Proof.
  intros Hb Hi. destruct (word_of b i Hb Hi) as (w&Hw&Hr&Hw32). unfold set.
  rewrite Z.geb_leb, (proj2 (Z.leb_gt _ _)) by lia. rewrite Hw. cbn [mbind option_bind].
  rewrite (arr_set_Some _ _ _ Hr). rewrite land_31. cbn [mbind option_bind].
  assert (Hm : 0 <= i mod 32 < 32) by zlia.
  assert (E1 : 1 << i mod 32 = 2 ^ (i mod 32)) by (by rewrite Z.shiftl_mul_pow2, Z.mul_1_l by lia).
  rewrite E1. assert (Hbits : forall k, 0 <= k ->
    Z.testbit (w ||| 2 ^ (i mod 32)) k = Z.testbit w k || (i mod 32 =? k)).
  { intros k Hk. rewrite Z.lor_spec. f_equal. apply Z.pow2_bits_eqb. lia. }
  eexists. split; [reflexivity|]. split; [|split; [done|]].
  - apply wf_insert; [done|done| |].
    + apply (lor_bound w _ 32); [lia|done|]. split; [lia|]. apply Z.pow_lt_mono_r; lia.
    + intros k Hk Hn. rewrite Hbits by lia. rewrite (wf_word b i k w) by (done || lia). simpl.
      apply Z.eqb_neq. zlia.
  - intros j Hj. rewrite bit_insert by done. case_decide as E.
    + rewrite Hbits by zlia. rewrite (bit_word b j w) by by rewrite E. f_equal.
      destruct (Z.eqb_spec i j) as [->|]; [by rewrite Z.eqb_refl|]. apply Z.eqb_neq. zlia.
    + rewrite (proj2 (Z.eqb_neq i j)) by congruence. by rewrite orb_false_r.
Qed.

Lemma clear_spec b i : wf b -> 0 <= i < numbits b -> exists b', clear b i = Some b' /\ wf b' /\
  numbits b' = numbits b /\ forall j, 0 <= j -> bit b' j = bit b j && negb (i =? j).
Proof.
  intros Hb Hi. destruct (word_of b i Hb Hi) as (w&Hw&Hr&Hw32). unfold clear.
  rewrite Hw. cbn [mbind option_bind].
  rewrite (arr_set_Some _ _ _ Hr). rewrite land_31. cbn [mbind option_bind].
  assert (Hm : 0 <= i mod 32 < 32) by zlia.
  assert (E1 : 1 << i mod 32 = 2 ^ (i mod 32)) by (by rewrite Z.shiftl_mul_pow2, Z.mul_1_l by lia).
  rewrite E1. assert (Hbits : forall k, 0 <= k < 32 ->
    Z.testbit (w &&& u32 (Z.lnot (2 ^ (i mod 32)))) k = Z.testbit w k && negb (i mod 32 =? k)).
  { intros k Hk. rewrite Z.land_spec. f_equal. unfold u32. change 4294967296 with (2 ^ 32).
    rewrite Z.mod_pow2_bits_low, Z.lnot_spec by lia. f_equal. apply Z.pow2_bits_eqb. lia. }
  eexists. split; [reflexivity|]. split; [|split; [done|]].
  - apply wf_insert; [done|done| |].
    + apply (land_bound w _ 32); [lia|done].
    + intros k Hk Hn. rewrite Hbits by lia. by rewrite (wf_word b i k w) by (done || lia).
  - intros j Hj. rewrite bit_insert by done. case_decide as E.
    + rewrite Hbits by zlia. rewrite (bit_word b j w) by by rewrite E. f_equal. f_equal.
      destruct (Z.eqb_spec i j) as [->|]; [by rewrite Z.eqb_refl|]. apply Z.eqb_neq. zlia.
    + rewrite (proj2 (Z.eqb_neq i j)) by congruence. by rewrite andb_true_r.
Qed.

Lemma get_spec b i : wf b -> 0 <= i < numbits b -> get b i = Some (bit b i).
Proof.
  intros Hb Hi. destruct (word_of b i Hb Hi) as (w&Hw&Hr&Hw32). unfold get. rewrite Hw.
  cbn [mbind option_bind]. f_equal. rewrite (bit_word b i w Hw), land_31.
  assert (Hm : 0 <= i mod 32 < 32) by zlia.
  rewrite Z.shiftl_mul_pow2, Z.mul_1_l by lia. apply eq_bool_prop_intro.
  rewrite !Is_true_true, nz_true. split; intros Ht.
  - destruct (Z.testbit w (i mod 32)) eqn:E; [done|]. exfalso. apply Ht. apply Z.bits_inj'. intros n Hn.
    rewrite Z.land_spec, Z.pow2_bits_eqb, Z.bits_0 by lia.
    destruct (Z.eqb_spec (i mod 32) n) as [<-|]; [by rewrite E|by rewrite andb_false_r].
  - intros E. apply (f_equal (fun x => Z.testbit x (i mod 32))) in E.
    rewrite Z.land_spec, Z.pow2_bits_true, Ht, Z.bits_0 in E by lia. done.
Qed.

Lemma mask_empty_spec b : wf b -> empty b = true <-> forall j, 0 <= j -> bit b j = false.
Proof.
  intros Hb. unfold empty. rewrite forallb_forall. split; intros He.
  - intros j Hj. unfold bit. destruct (nth_in_or_default (Z.to_nat (j / 32)) (bits b) 0) as [Hin| ->].
    + apply He, Z.eqb_eq in Hin. by rewrite Hin, Z.bits_0.
    + apply Z.bits_0.
  - intros w Hw%list_elem_of_In. apply list_elem_of_lookup in Hw as [k Hk]. apply Z.eqb_eq.
    pose proof (Forall_lookup_1 _ _ _ _ (wf_range b Hb) Hk) as Hr. apply Z.bits_inj'. intros n Hn.
    rewrite Z.bits_0. destruct (decide (n < 32)) as [Hlt|].
    + specialize (He (32 * Z.of_nat k + n) ltac:(lia)). rewrite (bit_word b _ w) in He.
      * by replace ((32 * Z.of_nat k + n) mod 32) with n in He by zlia.
      * replace ((32 * Z.of_nat k + n) / 32) with (Z.of_nat k) by zlia.
        rewrite arr_get_lookup by lia. by rewrite Nat2Z.id.
    + apply (testbit_above w 32); [done|lia].
Qed.

Lemma clearall_spec b : 0 <= numbits b < 65536 -> numwords b = (numbits b + 31) / 32 ->
  wf (clearall b) /\ numbits (clearall b) = numbits b /\ forall j, bit (clearall b) j = false.
Proof.
  intros Hn Hw.
  assert (Hz : forall j, bit (clearall b) j = false).
  { intros j. unfold bit, clearall. cbn [bits set_bits]. rewrite nth_lookup.
    destruct (_ !! _) as [x|] eqn:E; [apply lookup_replicate in E as [-> _]|]; apply Z.bits_0. }
  split; [|done]. constructor; [done|done| | |intros; apply Hz].
  - simpl. rewrite length_replicate. zlia.
  - apply Forall_replicate. lia.
Qed.

Lemma create_spec n : 0 <= n < 65536 - 31 ->
  wf (create n) /\ numbits (create n) = n /\ forall j, bit (create n) j = false.
Proof.
  intros Hn. apply clearall_spec; simpl; [lia|]. apply u16_small. zlia.
Qed.

(** With a whole number of words [setall] leaves the last one empty: the number
    of valid bits in it is taken to be 0. *)
Lemma setall_last_word b : wf b -> numbits b mod 32 = 0 -> 0 < numbits b ->
  exists b', setall b = Some b' /\
    forall j, 0 <= j < numbits b -> bit b' j = bool_decide (j < numbits b - 32).
Proof.
  intros Hb Hm Hn. pose proof (wf_words b Hb) as Hw. pose proof (wf_length b Hb) as Hl.
  unfold setall. rewrite Hm. cbn [Z.eqb]. change (0 =? 31) with false. cbn iota.
  set (n := Z.to_nat (numwords b - 1)).
  assert (Hlen : (n < length (bits b))%nat) by (unfold n; zlia).
  set (l := replicate n 0xffffffff ++ drop n (bits b)).
  assert (Hll : length l = length (bits b)) by (unfold l; rewrite length_app, length_replicate, length_drop; lia).
  rewrite arr_set_Some by (rewrite Hll; zlia). cbn [mbind option_bind].
  eexists. split; [reflexivity|]. intros j Hj. unfold bit. cbn [set_bits bits].
  change (u32 ((1 << 0) - 1)) with 0. fold n. rewrite nth_lookup.
  destruct (decide (Z.to_nat (j / 32) = n)) as [E|Hne].
  - rewrite E, list_lookup_insert_eq by lia. rewrite Z.bits_0. symmetry. apply bool_decide_false.
    unfold n in *. zlia.
  - rewrite list_lookup_insert_ne by done. unfold l. rewrite lookup_app_l.
    2:{ rewrite length_replicate. unfold n in *. zlia. }
    rewrite lookup_replicate_2 by (unfold n in *; zlia). cbn [default].
    rewrite bool_decide_true by (unfold n in *; zlia).
    change 0xffffffff with (Z.ones 32). apply Z.ones_spec_low. zlia.
Qed.
End BitmaskSpec.

(** * The driver *)
Module ChibiOSSpec.
Import BitmaskSpec ChibiOS.

#[export] Instance chibios_storage {F} `{FlashDevice F} (CH_STORAGE_SIZE sector_size : Z) :
  HalStorage (t F) := {
  hs_read_block s o n :=
    match read_block CH_STORAGE_SIZE sector_size s o n with
    | Done (Some bs, _) => bs
    | _ => []
    end;
  hs_write_block s o bs :=
    match write_block CH_STORAGE_SIZE sector_size s o bs with
    | Done s => s
    | _ => s
    end
}.

Section driver.
Context {F : Type} {sector_size : Z} `{FlashReliable F sector_size}.
Context (CH_STORAGE_SIZE : Z) (Hsizes : sizes_ok CH_STORAGE_SIZE sector_size).
Abbreviation lines := (CH_STORAGE_NUM_LINES CH_STORAGE_SIZE).
Implicit Types (s : t F).

(** An open driver. *)
Record opened s : Prop := {
  op_init : _initialised s = true;
  op_length : zlen (_buffer s) = CH_STORAGE_SIZE;
  op_mask : wf (_dirty_mask s);
  op_lines : Bitmask.numbits (_dirty_mask s) = lines
}.

(** What is in flash is the buffer, outside the dirty lines. *)
Definition clean_in_flash s (L Lo : list blk) : Prop :=
  forall j, bit (_dirty_mask s) (Z.of_nat j / 8) = false ->
    content CH_STORAGE_SIZE L Lo !! j = _buffer s !! j.
Definition synced s : Prop := exists L so Lo,
  Inv (sector_size := sector_size) CH_STORAGE_SIZE (_flash s) L so Lo /\ clean_in_flash s L Lo.

Lemma size_eq : exists c, CH_STORAGE_SIZE = 64 * c /\ 1 <= c <= 256 /\ lines = 8 * c.
Proof.
  destruct (so_chunks _ _ Hsizes) as (c&Hc&Hr). exists c. split; [done|]. split; [done|].
  unfold CH_STORAGE_NUM_LINES, CH_STORAGE_LINE_SIZE. change (1 << CH_STORAGE_LINE_SHIFT) with 8. zlia.
Qed.

(** Accesses inside the storage are not refused. *)
Lemma not_refused loc n : 0 <= loc -> 0 <= n -> loc + n <= CH_STORAGE_SIZE ->
  refused CH_STORAGE_SIZE loc n = false.
Proof.
  intros Hl Hn Hin. destruct size_eq as (c&Hc&Hr&_). unfold refused. rewrite Z.geb_leb.
  apply Z.leb_gt. destruct (decide (n = 0)) as [->|].
  - change (u32 (0 - 1)) with 4294967295.
    replace (u32 (CH_STORAGE_SIZE - 4294967295)) with (CH_STORAGE_SIZE + 1); [lia|].
    unfold u32. rewrite <- (Z.mod_add _ 1) by lia. rewrite Z.mod_small; lia.
  - rewrite !u32_small; rewrite ?u32_small; lia.
Qed.

Lemma open_noop s : opened s -> _storage_open CH_STORAGE_SIZE sector_size s = Done s.
Proof. intros Ho. unfold _storage_open. by rewrite (op_init s Ho). Qed.

Lemma driver_read s loc n : opened s -> 0 <= loc -> 0 <= n -> loc + n <= CH_STORAGE_SIZE ->
  read_block CH_STORAGE_SIZE sector_size s loc n =
    Done (Some (take (Z.to_nat n) (drop (Z.to_nat loc) (_buffer s))), s).
Proof.
  intros Ho Hl Hn Hin. unfold read_block. rewrite not_refused, open_noop by done.
  cbn [mbind outcome_bind]. by rewrite blk_get_Some by (rewrite ?(op_length s Ho); done).
Qed.

Lemma set_any (b : Bitmask.t) i : wf b -> 0 <= i -> exists b', Bitmask.set b i = Some b' /\ wf b' /\
  Bitmask.numbits b' = Bitmask.numbits b /\
  forall j, 0 <= j < Bitmask.numbits b -> bit b' j = bit b j || (i =? j).
Proof.
  intros Hb Hi. destruct (decide (i < Bitmask.numbits b)).
  - destruct (set_spec b i Hb ltac:(lia)) as (b'&E1&E2&E3&E4). exists b'.
    split; [done|]. split; [done|]. split; [done|]. intros j Hj. apply E4. lia.
  - exists b. unfold Bitmask.set. rewrite Z.geb_leb, (proj2 (Z.leb_le _ _)) by lia.
    split; [done|]. split; [done|]. split; [done|]. intros j Hj.
    rewrite (proj2 (Z.eqb_neq i j)) by lia. by rewrite orb_false_r.
Qed.

(** The lines marked dirty. *)
Lemma mark_lines first n : 0 <= first -> forall b, wf b -> exists b',
  foldl (fun d k => d ← d; access (Bitmask.set d (first + Z.of_nat k))) (Done b) (seq 0 n) = Done b' /\
  wf b' /\ Bitmask.numbits b' = Bitmask.numbits b /\
  forall j, 0 <= j < Bitmask.numbits b ->
    bit b' j = bit b j || ((first <=? j) && (j <? first + Z.of_nat n)).
Proof.
  intros Hf. induction n as [|n IH]; intros b Hb.
  - exists b. split; [done|]. split; [done|]. split; [done|]. intros j Hj.
    zcases; simpl; rewrite ?orb_false_r; done || lia.
  - destruct (IH b Hb) as (b1&E1&Hb1&Hn1&Hj1). rewrite seq_S, foldl_app, E1. simpl.
    destruct (set_any b1 (first + Z.of_nat n) Hb1 ltac:(lia)) as (b2&->&Hb2&Hn2&Hj2).
    exists b2. split; [done|]. split; [done|]. split; [congruence|]. intros j Hj.
    rewrite Hj2, Hj1, <- orb_assoc by lia. f_equal.
    zcases; simpl; done || lia.
Qed.
Lemma mark_dirty_spec s loc n : opened s -> 0 <= loc -> 0 <= n -> loc + n <= CH_STORAGE_SIZE ->
  exists d, _mark_dirty s loc n = Done (set_dirty s d) /\ wf d /\ Bitmask.numbits d = lines /\
    forall j, 0 <= j < lines -> bit d j = bit (_dirty_mask s) j || ((loc / 8 <=? j) && (j <=? (loc + n) / 8)).
Proof.
  intros Ho Hl Hn Hin. destruct size_eq as (c&Hc&Hr&_). unfold _mark_dirty. rewrite u16_small by lia.
  unfold CH_STORAGE_LINE_SHIFT. rewrite !Z.shiftr_div_pow2 by lia. change (2 ^ 3) with 8.
  destruct (mark_lines (loc / 8) (Z.to_nat ((loc + n) / 8 - loc / 8 + 1)) ltac:(zlia) _ (op_mask s Ho))
    as (d&Hd&Hwf&Hlines&Hbits).
  exists d. rewrite Hd. cbn [mbind outcome_bind]. split; [done|]. split; [done|].
  split; [by rewrite Hlines, op_lines|]. intros j Hj. rewrite Hbits by (by rewrite op_lines). do 2 f_equal.
  assert (loc / 8 <= (loc + n) / 8) by zlia. apply eq_bool_prop_intro.
  rewrite !Is_true_true, Z.ltb_lt, Z.leb_le. lia.
Qed.

Lemma inserts_same {A} k n (l : list A) : (k + n <= length l)%nat ->
  list_inserts k (take n (drop k l)) l = l.
Proof.
  intros Hk. apply list_eq. intros i. rewrite lookup_inserts_dec, length_take, length_drop.
  case_decide; [|done]. rewrite decide_True by lia. rewrite lookup_take_lt, lookup_drop by lia.
  f_equal. lia.
Qed.

(** What the flash records does not depend on the buffer. *)
Lemma Inv_set_buffer (f : FlashStorage.t F) L so Lo m : Inv (sector_size := sector_size) CH_STORAGE_SIZE f L so Lo ->
  zlen m = CH_STORAGE_SIZE -> bytes m ->
  Inv (sector_size := sector_size) CH_STORAGE_SIZE (FlashStorage.set_mem_buffer f m) L so Lo.
Proof.
  intros [[Hf _ _ He Ho] Hr] Hm Hb. constructor; [by constructor|exact Hr].
Qed.

(** [write_block] inside the storage. *)
Lemma driver_write s loc src : opened s -> 0 <= loc -> loc + zlen src <= CH_STORAGE_SIZE ->
  exists s', write_block CH_STORAGE_SIZE sector_size s loc src = Done s' /\ opened s' /\
    _buffer s' = list_inserts (Z.to_nat loc) src (_buffer s) /\
    FlashStorage.flash (_flash s') = FlashStorage.flash (_flash s) /\
    (bytes src -> synced s -> synced s').
Proof.
  intros Ho Hl Hin. pose proof (op_length s Ho) as Hlen. unfold write_block.
  rewrite not_refused by lia. rewrite blk_get_Some by lia. cbn [access mbind outcome_bind].
  destruct (decide (src = _)) as [Heq|_].
  { exists s. split; [done|]. split; [done|]. split; [|done]. rewrite Heq at 1.
    rewrite Nat2Z.id. symmetry. apply inserts_same. lia. }
  rewrite open_noop by done. cbn [mbind outcome_bind]. rewrite blk_set_Some by lia.
  cbn [access mbind outcome_bind]. set (m := list_inserts _ _ _).
  assert (Hm : zlen m = CH_STORAGE_SIZE) by (unfold m; by rewrite length_inserts).
  assert (Ho1 : opened (set_buffer s m)) by (destruct Ho; by constructor).
  destruct (mark_dirty_spec (set_buffer s m) loc (zlen src) Ho1 Hl ltac:(lia) Hin) as (d&->&Hwf&Hnb&Hbits).
  eexists. split; [reflexivity|]. split; [destruct Ho; by constructor|]. split; [done|]. split; [done|].
  intros Hsrc (L&so&Lo&Hinv&Hclean). exists L, so, Lo. split.
  - apply Inv_set_buffer; [done|done|]. unfold m.
    pose proof (base_bytes _ _ _ _ _ (inv_base _ _ _ _ _ Hinv)) as Hb.
    apply Forall_lookup. intros i x. rewrite lookup_inserts_dec. repeat case_decide; [|done|];
      intros Hx; [by apply (Forall_lookup_1 _ _ _ _ Hsrc Hx)|by apply (Forall_lookup_1 _ _ _ _ Hb Hx)].
  - intros j Hj. cbn [set_dirty set_buffer set_flash _dirty_mask] in Hj.
    destruct (decide (Z.of_nat j < CH_STORAGE_SIZE)) as [Hjs|].
    + destruct size_eq as (c&Hc&Hr&Hlines). rewrite Hbits in Hj by zlia.
      apply orb_false_iff in Hj as [Hj Hout]. cbn [set_buffer set_flash _dirty_mask] in Hj.
      rewrite (Hclean j Hj). change (_buffer (set_dirty (set_buffer s m) d)) with m. unfold m.
      rewrite lookup_inserts_dec, decide_False; [done|]. intros Hrange.
      apply andb_false_iff in Hout. rewrite !Z.leb_gt in Hout. zlia.
    + rewrite !lookup_ge_None_2; [done| |].
      * change (_buffer (set_dirty (set_buffer s m) d)) with m. lia.
      * pose proof (content_length CH_STORAGE_SIZE Hsizes L Lo). lia.
Qed.

(** The driver keeps the contract of the clients: it is an array of bytes.  The
    laws hold of any open driver, and of one whose flash is kept up. *)
Definition opened_laws : HalStorageLaws (H := chibios_storage CH_STORAGE_SIZE sector_size) (t F).
Proof.
  refine {| hs_img := _buffer; hs_ok := opened |}.
  - intros s o n Ho Hp Hn Hin. rewrite (op_length s Ho) in Hin. simpl. by rewrite driver_read.
  - intros s o bs Ho _ Hp Hin. rewrite (op_length s Ho) in Hin. simpl.
    destruct (driver_write s o bs Ho Hp Hin) as (s'&->&?&?&_). done.
Defined.

Definition chibios_laws : HalStorageLaws (H := chibios_storage CH_STORAGE_SIZE sector_size) (t F).
Proof.
  refine {| hs_img := _buffer; hs_ok s := opened s /\ synced s |}.
  - intros s o n [Ho _] Hp Hn Hin. rewrite (op_length s Ho) in Hin. simpl. by rewrite driver_read.
  - intros s o bs [Ho Hs] Hb Hp Hin. rewrite (op_length s Ho) in Hin. simpl.
    destruct (driver_write s o bs Ho Hp Hin) as (s'&->&?&?&_&Hs'). auto.
Defined.
(** * Writing the dirty lines to flash *)
Lemma first_dirty_spec (d : Bitmask.t) n : forall i, wf d -> 0 <= i -> i + Z.of_nat n <= Bitmask.numbits d ->
  match first_dirty n d i with
  | Some (Some k) => i <= k < i + Z.of_nat n /\ bit d k = true /\ forall j, i <= j < k -> bit d j = false
  | Some None => forall j, i <= j < i + Z.of_nat n -> bit d j = false
  | None => False
  end.
Proof.
  induction n as [|n IH]; intros i Hd Hi Hn; [simpl; lia|]. cbn [first_dirty].
  rewrite get_spec by (done || lia). cbn [mbind option_bind].
  destruct (bit d i) eqn:Hb; [split; [lia|]; split; [done|]; lia|].
  pose proof (wf_numbits d Hd). rewrite u16_small by lia.
  specialize (IH (i + 1) Hd ltac:(lia) ltac:(lia)).
  assert (Hhere : forall j, i <= j -> ~ i + 1 <= j -> bit d j = false).
  { intros j Hj Hj'. by replace j with i by lia. }
  destruct (first_dirty n d (i + 1)) as [[k|]|]; [|intros j Hj|done].
  - destruct IH as (Hk&Hbk&Hf). split; [lia|]. split; [done|]. intros j Hj.
    destruct (decide (i + 1 <= j)); [apply Hf; lia|apply Hhere; lia].
  - destruct (decide (i + 1 <= j)); [apply IH; lia|apply Hhere; lia].
Qed.

(** A line goes to flash, or an erase is not allowed now. *)
Lemma flash_write_spec s i : opened s -> synced s -> 0 <= i < lines ->
  exists s', _flash_write CH_STORAGE_SIZE sector_size s i = Done s' /\ opened s' /\ synced s' /\
    _buffer s' = _buffer s /\
    ((forall j, 0 <= j -> bit (_dirty_mask s') j = bit (_dirty_mask s) j && negb (i =? j)) \/
     (_dirty_mask s' = _dirty_mask s /\ flash_erase_ok (FlashStorage.flash (_flash s')) = false)).
Proof.
  intros Ho (L&so&Lo&Hinv&Hclean) Hi. destruct size_eq as (c&Hc&Hr&Hlines). unfold _flash_write.
  assert (Hline : CH_STORAGE_LINE_SIZE = 8) by reflexivity. rewrite Hline, u16_small by lia.
  destruct (write_loop_range CH_STORAGE_SIZE Hsizes flash_fuel (_flash s) L so Lo (i * 8) 8 Hinv)
    as (ok&f'&L'&so'&Lo'&Hw&Hinv'&Hm&Hk&Hok&Herr); [lia..|unfold flash_fuel; lia|].
  unfold FlashStorage.write. rewrite (base_error _ _ _ _ _ (inv_base _ _ _ _ _ Hinv)), Hw.
  cbn [mbind outcome_bind].
  assert (Hlen : forall m, m = FlashStorage.mem_buffer (_flash s) -> zlen m = CH_STORAGE_SIZE)
    by (intros ? ->; apply (op_length s Ho)).
  destruct ok.
  - destruct (clear_spec (_dirty_mask s) i (op_mask s Ho)) as (d&Hd&Hwf&Hnb&Hbits); [by rewrite op_lines|].
    cbn [set_flash _dirty_mask]. rewrite Hd. cbn [access mbind outcome_bind].
    eexists. split; [reflexivity|]. split; [|split; [|split; [exact Hm|by left]]].
    + constructor; [apply Ho|exact (Hlen _ Hm)|done|]. simpl. by rewrite Hnb, op_lines.
    + exists L', so', Lo'. split; [exact Hinv'|]. intros j Hj. cbn [set_dirty set_flash _dirty_mask] in Hj.
      change (_buffer (set_dirty (set_flash s f') d)) with (FlashStorage.mem_buffer f'). rewrite Hm.
      rewrite Hbits in Hj by zlia. apply andb_false_iff in Hj as [Hj|Hj].
      * destruct (Hk j) as [E|E]; [|done]. rewrite E. by apply Hclean.
      * apply negb_false_iff, Z.eqb_eq in Hj. apply Hok; [done|zlia].
  - eexists. split; [reflexivity|]. split; [|split; [|split; [exact Hm|by right; auto]]].
    + constructor; [apply Ho|exact (Hlen _ Hm)|apply Ho|apply Ho].
    + exists L', so', Lo'. split; [exact Hinv'|]. intros j Hj. cbn [set_flash _dirty_mask] in Hj.
      change (_buffer (set_flash s f')) with (FlashStorage.mem_buffer f'). rewrite Hm.
      destruct (Hk j) as [E|E]; [|done]. rewrite E. by apply Hclean.
Qed.

(** One tick: nothing to do, or the first dirty line. *)
Lemma tick_spec s : opened s -> synced s ->
  exists s', _timer_tick CH_STORAGE_SIZE sector_size s = Done s' /\ opened s' /\ synced s' /\
    _buffer s' = _buffer s /\
    ((Bitmask.empty (_dirty_mask s) = true /\ s' = s) \/
     exists i, 0 <= i < lines /\ bit (_dirty_mask s) i = true /\
       (forall j, 0 <= j < i -> bit (_dirty_mask s) j = false) /\
       ((forall j, 0 <= j -> bit (_dirty_mask s') j = bit (_dirty_mask s) j && negb (i =? j)) \/
        (_dirty_mask s' = _dirty_mask s /\ flash_erase_ok (FlashStorage.flash (_flash s')) = false))).
Proof.
  intros Ho Hs. destruct size_eq as (c&Hc&Hr&Hlines). unfold _timer_tick. rewrite (op_init s Ho). simpl.
  destruct (Bitmask.empty _) eqn:He; [exists s; naive_solver|].
  pose proof (first_dirty_spec (_dirty_mask s) (Z.to_nat lines) 0 (op_mask s Ho) ltac:(lia)) as Hf.
  rewrite op_lines in Hf by done. specialize (Hf ltac:(lia)). rewrite Z2Nat.id in Hf by lia.
  destruct (first_dirty _ _ 0) as [[i|]|]; [| |done].
  - destruct Hf as (Hi&Hb&Hf). cbn [access mbind outcome_bind].
    destruct (flash_write_spec s i Ho Hs ltac:(lia)) as (s'&Hw&Ho'&Hs'&Hb'&Hcase).
    exists s'. split; [done|]. split; [done|]. split; [done|]. split; [done|]. right. exists i.
    split; [lia|]. split; [done|]. split; [|done]. intros j Hj. apply Hf. lia.
  - exfalso. apply not_true_iff_false in He. apply He. apply mask_empty_spec; [apply Ho|]. intros j Hj.
    destruct (decide (j < lines)); [apply Hf; lia|]. apply (wf_above _ (op_mask s Ho)).
    rewrite op_lines; [lia|done].
Qed.

Fixpoint ticks (n : nat) s : outcome (t F) :=
  match n with
  | O => Done s
  | S n => s ← _timer_tick CH_STORAGE_SIZE sector_size s; ticks n s
  end.

(** While erases are allowed, every tick cleans one more line. *)
Lemma ticks_spec (Herase : forall f : F, flash_ok f -> flash_erase_ok f = true) n : forall s k, opened s -> synced s ->
  0 <= k -> (forall j, 0 <= j < k -> bit (_dirty_mask s) j = false) ->
  exists s', ticks n s = Done s' /\ opened s' /\ synced s' /\ _buffer s' = _buffer s /\
    forall j, 0 <= j < k + Z.of_nat n -> bit (_dirty_mask s') j = false.
Proof.
  induction n as [|n IH]; intros s k Ho Hs Hk Hcl.
  { exists s. naive_solver lia. }
  cbn [ticks]. destruct (tick_spec s Ho Hs) as (s1&Ht&Ho1&Hs1&Hb1&Hcase). rewrite Ht.
  cbn [mbind outcome_bind].
  destruct (IH s1 (k + 1) Ho1 Hs1 ltac:(lia)) as (s'&Hn&Ho'&Hs'&Hb'&Hcl').
  - intros j Hj. destruct Hcase as [(He& ->)|(i&Hi&Hbi&Hfirst&[Hbits|[_ E]])]; [| |exfalso].
    + apply (proj1 (mask_empty_spec _ (op_mask s Ho)) He). lia.
    + rewrite Hbits by lia. destruct (Z.eqb_spec i j); [by rewrite andb_false_r|].
      rewrite andb_true_r. destruct (decide (j < k)); [apply Hcl; lia|].
      destruct (decide (j < i)); [apply Hfirst; lia|]. rewrite Hcl in Hbi; [done|lia].
    + destruct Hs1 as (L&so&Lo&[[Hf _ _ _ _] _]&_). by rewrite Herase in E by apply Hf.
  - exists s'. split; [done|]. split; [done|]. split; [done|]. split; [congruence|].
    intros j Hj. apply Hcl'. lia.
Qed.

(** * Starting up again *)

(** What was clean comes back, whenever the power is lost. *)
Lemma reboot_spec s : opened s -> synced s ->
  exists s', _storage_open CH_STORAGE_SIZE sector_size
      (create CH_STORAGE_SIZE (FlashStorage.flash (_flash s))) = Done s' /\ opened s' /\
    forall j, bit (_dirty_mask s) (Z.of_nat j / 8) = false -> _buffer s' !! j = _buffer s !! j.
Proof.
  intros Ho (L&so&Lo&Hinv&Hclean). destruct size_eq as (c&Hc&Hr&Hlines).
  unfold _storage_open, _flash_load. cbn [_initialised create set_dirty _flash].
  set (boot := FlashStorage.mk _ 0 0 0 false _).
  assert (Hboot : exists f, FlashStorage.init CH_STORAGE_SIZE sector_size flash_fuel boot = Done (true, f) /\
    FlashStorage.mem_buffer f = content CH_STORAGE_SIZE L Lo).
  { destruct Hinv as [[Hf _ _ _ Hwo] Hres].
    assert (Hf' : on_flash CH_STORAGE_SIZE (FlashStorage.flash boot)
      (FlashStorage.current_sector (_flash s)) L so Lo) by exact Hf.
    destruct Hres as [[_ ->]|[_ Hroom]].
    - eexists. split; [by eapply init_available|done].
    - pose proof (of_state _ _ _ _ _ _ Hf) as [[-> _]| ->].
      + eexists. split; [by eapply init_available|done].
      + destruct (init_full CH_STORAGE_SIZE Hsizes flash_fuel boot _ L Lo ltac:(unfold flash_fuel; lia) Hf')
          as (st'' & ? & ? & ? & _); [lia|]. by exists st''. }
  destruct Hboot as (f&->&Hm). cbn [mbind outcome_bind negb].
  destruct (create_spec lines) as (Hwf&Hnb&_); [lia|].
  destruct (clearall_spec (Bitmask.create lines)) as (Hwf2&Hnb2&_); [apply Hwf|apply Hwf|].
  eexists. split; [reflexivity|]. split.
  - constructor; [done| |exact Hwf2|by etrans].
    change (zlen (FlashStorage.mem_buffer f) = CH_STORAGE_SIZE). rewrite Hm.
    pose proof (content_length CH_STORAGE_SIZE Hsizes L Lo). lia.
  - intros j Hj. change (FlashStorage.mem_buffer f !! j = _buffer s !! j). rewrite Hm. by apply Hclean.
Qed.
End driver.

Section power.
Context {F : Type} {sector_size : Z} `{FlashReliable F sector_size}.
Context (CH_STORAGE_SIZE : Z) (Hsizes : sizes_ok CH_STORAGE_SIZE sector_size).

(** The driver after the ticks that write all its lines, and a new start. *)
Definition power_cycle (d : t F) : outcome (t F) :=
  d ← ticks CH_STORAGE_SIZE (sector_size := sector_size) (Z.to_nat (CH_STORAGE_NUM_LINES CH_STORAGE_SIZE)) d;
  _storage_open CH_STORAGE_SIZE sector_size (create CH_STORAGE_SIZE (FlashStorage.flash (_flash d))).

Lemma power_cycle_spec (Herase : forall f : F, flash_ok f -> flash_erase_ok f = true) (d : t F) :
  opened CH_STORAGE_SIZE d -> synced CH_STORAGE_SIZE (sector_size := sector_size) d ->
  exists d', power_cycle d = Done d' /\ opened CH_STORAGE_SIZE d' /\ _buffer d' = _buffer d.
Proof.
  intros Ho Hs. unfold power_cycle. destruct (size_eq CH_STORAGE_SIZE Hsizes) as (c&Hc&Hr&Hlines).
  destruct (ticks_spec CH_STORAGE_SIZE Hsizes Herase
    (Z.to_nat (CH_STORAGE_NUM_LINES CH_STORAGE_SIZE)) d 0 Ho Hs) as (d1&Ht&Ho1&Hs1&Hb1&Hcl);
    [done|lia|].
  rewrite Ht. cbn [mbind outcome_bind].
  destruct (reboot_spec CH_STORAGE_SIZE Hsizes d1 Ho1 Hs1) as (d2&Hd2&Ho2&Hb2).
  exists d2. split; [done|]. split; [done|]. rewrite <- Hb1. apply list_eq. intros j.
  destruct (decide (Z.of_nat j < CH_STORAGE_SIZE)).
  - apply Hb2, Hcl. zlia.
  - rewrite !lookup_ge_None_2; [done| |].
    + pose proof (op_length _ _ Ho1). lia.
    + pose proof (op_length _ _ Ho2). lia.
Qed.
End power.
End ChibiOSSpec.

(** * Properties *)
Import BitmaskSpec ChibiOS ChibiOSSpec.



(** * A board

    The flash of the tests of AP_FlashStorage, with erases allowed: 64 bytes of
    storage in two sectors of 256 bytes. *)
Definition disarmed : FlashLaws FlashTest.t 256.
Proof.
  pose (L := FlashTest.laws 256).
  refine {| flash_img := flash_img (FlashLaws := L);
            flash_ok f := flash_ok (FlashLaws := L) f /\ FlashTest.erase_ok f = true |}.
  - intros f s [Hf _]. by apply (flash_img_length (FlashLaws := L)).
  - intros f s o bs [Hf He] Hs Ho Hl.
    destruct (flash_write_law (FlashLaws := L) f s o bs Hf Hs Ho Hl) as (H1&H2&H3).
    split; [|by split]. split; [done|]. simpl. unfold FlashTest.set_sector. by destruct (s =? 0).
  - intros f s o n [Hf _]. by apply (flash_read_law (FlashLaws := L)).
  - intros f s [Hf He] Hs. destruct (flash_erase_law (FlashLaws := L) f s Hf Hs) as (H1&H2).
    split; [|done]. split; [done|]. simpl. unfold FlashTest.set_sector. by destruct (s =? 0).
Defined.

Lemma disarmed_reliable : FlashReliable (H0 := disarmed) FlashTest.t.
Proof. constructor; done. Qed.

Definition blank_board : t FlashTest.t :=
  mk true (Bitmask.create 8) (FlashStorage.mk (zeros 64) 0 4 0 false small_flash).

Lemma blank_opened : opened 64 blank_board.
Proof. constructor; [done|reflexivity| |done]. by destruct (create_spec 8) as [? _]. Qed.

Lemma blank_synced : synced (H0 := disarmed) 64 blank_board.
Proof.
  exists [], FlashStorage.SECTOR_STATE_AVAILABLE, []. split; [|done].
  constructor; [|by left]. constructor; try done.
  - constructor; try done; [| |by left]; (constructor; [by exists 252%nat| |by constructor]).
    + by right; left.
    + by left.
  - by apply Forall_replicate.
Qed.



(** A write before the first read compares with the buffer, which is not loaded
    yet: zeros over something else in flash are lost. *)
Definition used_board : t FlashTest.t :=
  default (create 64 small_flash)
    match (s ← write_block 64 256 blank_board 0 [5]; ticks 64 (sector_size := 256) 8 s) with
    | Done s => Some (create 64 (FlashStorage.flash (_flash s)))
    | _ => None
    end.

Lemma write_before_open_lost :
  write_block 64 256 used_board 0 [0] = Done used_board /\
  exists s, read_block 64 256 used_board 0 1 = Done (Some [5], s).
Proof. split; [reflexivity|]. eexists. vm_compute. reflexivity. Qed.
