(* ===== verification/Routing.v ===== *)
(** MAVLink message routing: libraries/GCS_MAVLink/MAVLink_routing.{h,cpp}.

    The generated MAVLink headers are not part of the source tree: the message
    ids, the message table and the reading of a payload byte are parameters
    ([Mavlink]).  The links are a state [W] with the operations that the code
    calls ([Links]). *)
From S2P Require Import Prelude.

(** [mavlink_message_t]: the fields used here. *)
Record mavlink_message := Msg {
  m_sysid : Z; m_compid : Z; m_msgid : Z; m_len : Z; m_payload : list Z
}.

(** [mavlink_msg_entry_t] *)
Record msg_entry := MsgEntry {
  flags : Z; target_system_ofs : Z; target_component_ofs : Z
}.

(** What the generated headers provide. *)
Class Mavlink := {
  MAVLINK_MSG_ID_RADIO : Z;
  MAVLINK_MSG_ID_RADIO_STATUS : Z;
  MAVLINK_MSG_ID_HEARTBEAT : Z;
  MAVLINK_MSG_ID_ADSB_VEHICLE : Z;
  MAV_MSG_ENTRY_FLAG_HAVE_TARGET_SYSTEM : Z;
  MAV_MSG_ENTRY_FLAG_HAVE_TARGET_COMPONENT : Z;
  mavlink_get_msg_entry : Z -> option msg_entry;
  mav_return_uint8_t : mavlink_message -> Z -> Z;
  mavlink_msg_heartbeat_get_type : mavlink_message -> Z;
  system_sysid : Z;
  system_compid : Z
}.

(** The links: free transmit space and size of a header on a channel, sending a
    message on a channel, and the mask of the active channels. *)
Class Links (W : Type) := {
  comm_get_txspace : W -> Z -> Z;
  packet_overhead_chan : W -> Z -> Z;
  mavlink_resend_uart : W -> Z -> mavlink_message -> W;
  active_channel_mask : W -> Z
}.

Module Routing.
Section routing.
Context `{Mavlink} {W : Type} `{Links W}.

Definition MAVLINK_MAX_ROUTES : Z := 20.
Definition MAVLINK_COMM_NUM_BUFFERS : Z := 5.

(** [struct route] *)
Record route := Route { sysid : Z; compid : Z; channel : Z; mavtype : Z }.

Record t := mk { num_routes : Z; routes : list route; no_route_mask : Z }.

(** The entries [0 .. num_routes-1]. *)
Definition table (s : t) : list route := take (Z.to_nat (num_routes s)) (routes s).

(** The constructor, on zeroed storage. *)
Definition create : t := mk 0 (replicate (Z.to_nat MAVLINK_MAX_ROUTES) (Route 0 0 0 0)) 0.

(** ** learn_route *)

(** The loop: the index of the first route of the sender on this channel. *)
Fixpoint route_index (rs : list route) (in_channel : Z) (m : mavlink_message) (i : Z)
  : option Z :=
  match rs with
  | [] => None
  | r :: rs =>
    if (sysid r =? m_sysid m) && (compid r =? m_compid m) && (channel r =? in_channel)
    then Some i else route_index rs in_channel m (i + 1)
  end.

Definition learn_route (s : t) (in_channel : Z) (m : mavlink_message) : t :=
  if (m_sysid m =? 0) ||
     ((m_sysid m =? system_sysid) && (m_compid m =? system_compid))
  then s
  else
    match route_index (table s) in_channel m 0 with
    | Some i =>
      match routes s !! Z.to_nat i with
      | Some r =>
        if (mavtype r =? 0) && (m_msgid m =? MAVLINK_MSG_ID_HEARTBEAT)
        then mk (num_routes s)
               (<[Z.to_nat i := Route (sysid r) (compid r) (channel r)
                                  (mavlink_msg_heartbeat_get_type m)]> (routes s))
               (no_route_mask s)
        else s
      | None => s
      end
    | None =>
      if num_routes s <? MAVLINK_MAX_ROUTES then
        let old := match routes s !! Z.to_nat (num_routes s) with
                   | Some r => mavtype r | None => 0 end in
        let ty := if m_msgid m =? MAVLINK_MSG_ID_HEARTBEAT
                  then mavlink_msg_heartbeat_get_type m else old in
        mk (u8 (num_routes s + 1))
           (<[Z.to_nat (num_routes s) := Route (m_sysid m) (m_compid m) in_channel ty]>
              (routes s))
           (no_route_mask s)
      else s
    end.

(** ** Sending *)

(** Resends the message when the channel has room; also the list of the
    channels it went to. *)
Definition send_if_space (w : W) (c : Z) (m : mavlink_message) : bool * W * list Z :=
  if comm_get_txspace w c >=? m_len m + packet_overhead_chan w c
  then (true, mavlink_resend_uart w c m, [c]) else (false, w, []).

(** [get_targets]: -1 for a target that the message does not have. *)
Definition get_targets (m : mavlink_message) : Z * Z :=
  match mavlink_get_msg_entry (m_msgid m) with
  | None => (-1, -1)
  | Some e =>
    (if nz (Z.land (flags e) MAV_MSG_ENTRY_FLAG_HAVE_TARGET_SYSTEM)
     then mav_return_uint8_t m (target_system_ofs e) else -1,
     if nz (Z.land (flags e) MAV_MSG_ENTRY_FLAG_HAVE_TARGET_COMPONENT)
     then mav_return_uint8_t m (target_component_ofs e) else -1)
  end.

(** The loop of [check_and_forward] over the routes; [fwd] is its condition on
    a route, [sent] is [sent_to_chan]. *)
Fixpoint forward_loop (rs : list route) (fwd : route -> bool) (m : mavlink_message)
    (in_channel : Z) (sent : list bool) (forwarded : bool) (w : W) (out : list Z)
  : option (bool * W * list Z) :=
  match rs with
  | [] => Some (forwarded, w, out)
  | r :: rs =>
    if fwd r && negb (in_channel =? channel r) then
      s ← arr_get sent (channel r);
      if negb s then
        let '(_, w, c) := send_if_space w (channel r) m in
        sent ← arr_set sent (channel r) true;
        forward_loop rs fwd m in_channel sent true w (out ++ c)
      else forward_loop rs fwd m in_channel sent forwarded w out
    else forward_loop rs fwd m in_channel sent forwarded w out
  end.

(** The loop of [send_to_components]. *)
Fixpoint components_loop (rs : list route) (m : mavlink_message) (sent : list bool)
    (w : W) (out : list Z) : option (W * list Z) :=
  match rs with
  | [] => Some (w, out)
  | r :: rs =>
    if sysid r =? system_sysid then
      s ← arr_get sent (channel r);
      if negb s then
        let '(ok, w, c) := send_if_space w (channel r) m in
        sent ← (if ok : bool then arr_set sent (channel r) true else Some sent);
        components_loop rs m sent w (out ++ c)
      else components_loop rs m sent w out
    else components_loop rs m sent w out
  end.

Definition no_channel : list bool := replicate (Z.to_nat MAVLINK_COMM_NUM_BUFFERS) false.

Definition send_to_components (s : t) (w : W) (m : mavlink_message)
  : option (W * list Z) :=
  components_loop (table s) m no_channel w [].

(** [find_by_mavtype]: sysid, compid and channel of the first match. *)
Fixpoint find_loop (rs : list route) (ty : Z) : option (Z * Z * Z) :=
  match rs with
  | [] => None
  | r :: rs => if mavtype r =? ty then Some (sysid r, compid r, channel r)
               else find_loop rs ty
  end.
Definition find_by_mavtype (s : t) (ty : Z) : option (Z * Z * Z) :=
  find_loop (table s) ty.

(** ** handle_heartbeat *)
Fixpoint mask_sources (rs : list route) (m : mavlink_message) (mask : Z) : Z :=
  match rs with
  | [] => mask
  | r :: rs =>
    let mask := if (sysid r =? m_sysid m) && (compid r =? m_compid m)
                then u16 (Z.ldiff mask (Z.shiftl 1 (channel r))) else mask in
    mask_sources rs m mask
  end.

Fixpoint heartbeat_loop (n : nat) (i : Z) (m : mavlink_message) (mask : Z)
    (w : W) (out : list Z) : W * list Z :=
  match n with
  | O => (w, out)
  | S n =>
    if nz (Z.land mask (Z.shiftl 1 i)) then
      let '(_, w, c) := send_if_space w i m in
      heartbeat_loop n (i + 1) m mask w (out ++ c)
    else heartbeat_loop n (i + 1) m mask w out
  end.

Definition heartbeat_mask (s : t) (w : W) (in_channel : Z) (m : mavlink_message) : Z :=
  let mask := u16 (active_channel_mask w) in
  let mask := u16 (Z.ldiff mask (Z.shiftl 1 in_channel)) in
  let mask := u16 (Z.ldiff mask (no_route_mask s)) in
  mask_sources (table s) m mask.

Definition handle_heartbeat (s : t) (w : W) (in_channel : Z) (m : mavlink_message)
  : W * list Z :=
  let mask := heartbeat_mask s w in_channel m in
  if mask =? 0 then (w, [])
  else heartbeat_loop (Z.to_nat MAVLINK_COMM_NUM_BUFFERS) 0 m mask w [].

(** ** check_and_forward *)

(** The targets of a message, as the conditions of the code. *)
Record targets := Targets {
  target_system : Z; target_component : Z;
  broadcast_system : bool; broadcast_component : bool;
  match_system : bool; match_component : bool
}.

Definition targets_of (m : mavlink_message) : targets :=
  let '(ts, tc) := get_targets m in
  let bs := (ts =? 0) || (ts =? -1) in
  let bc := (tc =? 0) || (tc =? -1) in
  let ms := bs || (ts =? system_sysid) in
  let mc := ms && (bc || (tc =? system_compid)) in
  Targets ts tc bs bc ms mc.

Definition fwd_cond (g : targets) (r : route) : bool :=
  broadcast_system g ||
  ((target_system g =? sysid r) &&
   (broadcast_component g || (target_component g =? compid r) || negb (match_system g))).

(** [check_and_forward]: whether to process the message locally, and the
    channels it was sent to. *)
Definition check_and_forward (s : t) (w : W) (in_channel : Z) (m : mavlink_message)
  : option (bool * t * W * list Z) :=
  if (m_sysid m =? system_sysid) && (m_compid m =? system_compid)
  then Some (true, s, w, [])
  else
    let s := learn_route s in_channel m in
    if (m_msgid m =? MAVLINK_MSG_ID_RADIO) || (m_msgid m =? MAVLINK_MSG_ID_RADIO_STATUS)
    then Some (true, s, w, [])
    else if m_msgid m =? MAVLINK_MSG_ID_HEARTBEAT then
      let '(w, out) := handle_heartbeat s w in_channel m in Some (true, s, w, out)
    else if m_msgid m =? MAVLINK_MSG_ID_ADSB_VEHICLE then Some (true, s, w, [])
    else
      let g := targets_of m in
      let process_locally := match_system g && match_component g in
      if process_locally && negb (broadcast_system g) && negb (broadcast_component g)
      then Some (true, s, w, [])
      else
        '(forwarded, w, out) ←
          forward_loop (table s) (fwd_cond g) m in_channel no_channel false w [];
        Some ((if negb forwarded && match_system g then true else process_locally), s, w, out).

(** ** Invariant *)

(** The senders of the routes: distinct, not this vehicle's own component, with
    a system id; their channels exist. *)
Definition key (r : route) : Z * Z * Z := (sysid r, compid r, channel r).

Definition valid_channel (c : Z) : Prop := 0 <= c < MAVLINK_COMM_NUM_BUFFERS.

Record ok (s : t) : Prop := {
  ok_num : 0 <= num_routes s <= MAVLINK_MAX_ROUTES;
  ok_routes : zlen (routes s) = MAVLINK_MAX_ROUTES;
  ok_keys : NoDup (key <$> table s);
  ok_route : Forall (fun r => sysid r <> 0 /\ valid_channel (channel r) /\
               (sysid r, compid r) <> (system_sysid, system_compid)) (table s)
}.

Lemma create_ok : ok create.
Proof. by constructor; [..|constructor|constructor]. Qed.

Lemma route_index_spec rs c m : forall i,
  match route_index rs c m i with
  | Some k => exists j r, k = i + Z.of_nat j /\ rs !! j = Some r /\
      key r = (m_sysid m, m_compid m, c)
  | None => forall r, r ∈ rs -> key r <> (m_sysid m, m_compid m, c)
  end.
Proof.
  induction rs as [|r rs IH]; intros i; simpl; [by intros r ?%elem_of_nil|].
  destruct (Z.eqb_spec (sysid r) (m_sysid m)) as [E1|E1], (Z.eqb_spec (compid r) (m_compid m)) as [E2|E2],
    (Z.eqb_spec (channel r) c) as [E3|E3]; simpl.
  1:{ exists 0%nat, r. unfold key. rewrite E1, E2, E3. split; [lia|done]. }
  all: specialize (IH (i + 1)); destruct (route_index rs c m (i + 1)) as [k|].
  all: try (destruct IH as (j & r' & -> & Hj & Hk); exists (S j), r'; split; [lia|done]).
  all: intros r' [->|Hr]%elem_of_cons; [unfold key; congruence|by apply IH].
Qed.

(** The sender of a message that can be learned. *)
Definition learnable (m : mavlink_message) : Prop :=
  m_sysid m <> 0 /\ (m_sysid m, m_compid m) <> (system_sysid, system_compid).

Definition heartbeat_type (m : mavlink_message) (old : Z) : Z :=
  if m_msgid m =? MAVLINK_MSG_ID_HEARTBEAT then mavlink_msg_heartbeat_get_type m else old.

Lemma table_length s : ok s -> zlen (table s) = num_routes s.
Proof.
  intros [Hn Hr _ _]. unfold table, MAVLINK_MAX_ROUTES in *. rewrite length_take. lia.
Qed.

(** What [learn_route] does to the table: nothing, the type of a known sender,
    or a new last entry. *)
Inductive learned (rs rs' : list route) (c : Z) (m : mavlink_message) : Prop :=
| learned_same : rs' = rs ->
    (learnable m -> (exists r, r ∈ rs /\ key r = (m_sysid m, m_compid m, c)) \/
                    zlen rs = MAVLINK_MAX_ROUTES) -> learned rs rs' c m
| learned_type j r : rs !! j = Some r -> key r = (m_sysid m, m_compid m, c) ->
    mavtype r = 0 -> m_msgid m = MAVLINK_MSG_ID_HEARTBEAT ->
    rs' = <[j := Route (sysid r) (compid r) (channel r)
                   (mavlink_msg_heartbeat_get_type m)]> rs -> learned rs rs' c m
| learned_new ty : learnable m -> (forall r, r ∈ rs -> key r <> (m_sysid m, m_compid m, c)) ->
    zlen rs < MAVLINK_MAX_ROUTES -> rs' = rs ++ [Route (m_sysid m) (m_compid m) c ty] ->
    learned rs rs' c m.

Lemma learn_route_spec s c m : ok s ->
  learned (table s) (table (learn_route s c m)) c m /\
  no_route_mask (learn_route s c m) = no_route_mask s /\
  0 <= num_routes (learn_route s c m) <= MAVLINK_MAX_ROUTES /\
  zlen (routes (learn_route s c m)) = MAVLINK_MAX_ROUTES.
Proof.
  intros Hok. pose proof (table_length s Hok) as Htl. pose proof Hok as [Hn Hr _ _].
  unfold learn_route. destruct (_ || _) eqn:Eself.
  { split; [|done]. apply learned_same; [done|]. intros [H0' Hown].
    apply orb_true_iff in Eself as [?%Z.eqb_eq|[?%Z.eqb_eq ?%Z.eqb_eq]%andb_true_iff];
      congruence. }
  assert (Hlearn : learnable m).
  { apply orb_false_iff in Eself as [?%Z.eqb_neq Hs]. split; [done|]. intros [= E1 E2].
    rewrite E1, E2, !Z.eqb_refl in Hs. done. }
  pose proof (route_index_spec (table s) c m 0) as Hri.
  destruct (route_index (table s) c m 0) as [k|].
  - destruct Hri as (j & r & -> & Hj & Hk). rewrite Z.add_0_l, Nat2Z.id.
    pose proof (lookup_lt_Some _ _ _ Hj) as Hlt.
    assert (Hr' : routes s !! j = Some r)
      by (unfold table in Hj; by apply lookup_take_Some in Hj as [? _]).
    rewrite Hr'. destruct ((mavtype r =? 0) && _) eqn:Ety.
    + apply andb_true_iff in Ety as [Ety%Z.eqb_eq Ehb%Z.eqb_eq].
      split; [|split; [done|split; [done|simpl; by rewrite length_insert]]].
      eapply learned_type; [exact Hj|done..|].
      unfold table. simpl. rewrite take_insert_lt; [done|lia].
    + split; [|done]. apply learned_same; [done|]. intros _. left. exists r.
      split; [by eapply list_elem_of_lookup_2|done].
  - destruct (Z.ltb_spec (num_routes s) MAVLINK_MAX_ROUTES).
    2:{ split; [|done]. apply learned_same; [done|]. intros _. right. lia. }
    unfold MAVLINK_MAX_ROUTES in *. rewrite u8_small by lia. cbn [num_routes routes no_route_mask].
    split; [|split; [done|split; [lia|by rewrite length_insert]]].
    eapply learned_new; [done|done|unfold MAVLINK_MAX_ROUTES; lia|].
    unfold table. cbn [num_routes routes].
    replace (Z.to_nat (num_routes s + 1)) with (S (Z.to_nat (num_routes s))) by lia.
    erewrite take_S_r by (apply list_lookup_insert_eq; lia). f_equal.
    rewrite take_insert_ge by lia. done.
Qed.

Lemma learn_route_ok s c m : ok s -> valid_channel c -> ok (learn_route s c m).
Proof.
  intros Hok Hc. destruct (learn_route_spec s c m Hok) as (Hl & _ & Hn & Hr).
  pose proof Hok as [_ _ Hk Hf]. constructor; [done|done|..].
  - destruct Hl as [-> _|j r Hj Hkey _ _ ->|ty Hm Hnew _ ->]; [done|..].
    + rewrite list_fmap_insert. rewrite list_insert_id; [done|].
      rewrite list_lookup_fmap, Hj. by destruct r.
    + rewrite fmap_app. apply NoDup_app. split; [done|]. split; [|apply NoDup_singleton].
      intros k (r & -> & Hr')%list_elem_of_fmap Hin%list_elem_of_singleton.
      by apply (Hnew r Hr').
  - destruct Hl as [-> _|j r Hj Hkey _ _ ->|ty Hm Hnew _ ->]; [done|..].
    + apply Forall_insert; [done|]. by apply (Forall_lookup_1 _ _ _ _ Hf Hj).
    + apply Forall_app. split; [done|]. apply Forall_singleton. simpl.
      destruct Hm as [? ?]. done.
Qed.

(** Once learned, a sender is never forgotten. *)
Lemma learn_route_keeps s c m r : ok s -> r ∈ table s ->
  exists r', r' ∈ table (learn_route s c m) /\ key r' = key r.
Proof.
  intros Hok Hr. destruct (learn_route_spec s c m Hok) as (Hl & _).
  destruct Hl as [-> _|j r0 Hj Hkey _ _ ->|ty Hm Hnew _ ->].
  - by exists r.
  - apply list_elem_of_lookup in Hr as [i Hi]. destruct (decide (i = j)) as [->|Hne].
    + assert (r0 = r) as -> by congruence.
      exists (Route (sysid r) (compid r) (channel r) (mavlink_msg_heartbeat_get_type m)).
      split; [|done].
      apply list_elem_of_lookup. exists j. apply list_lookup_insert_eq.
      by eapply lookup_lt_Some.
    + exists r. split; [|done]. apply list_elem_of_lookup. exists i.
      by rewrite list_lookup_insert_ne.
  - exists r. split; [|done]. apply elem_of_app. by left.
Qed.

(** ** Sending on several channels *)

(** The channels [cs] are tried in order; [out] are those with room. *)
Inductive sends (m : mavlink_message) : W -> list Z -> W -> list Z -> Prop :=
| sends_nil w : sends m w [] w []
| sends_sent w c cs w' out :
    m_len m + packet_overhead_chan w c <= comm_get_txspace w c ->
    sends m (mavlink_resend_uart w c m) cs w' out -> sends m w (c :: cs) w' (c :: out)
| sends_skipped w c cs w' out :
    comm_get_txspace w c < m_len m + packet_overhead_chan w c ->
    sends m w cs w' out -> sends m w (c :: cs) w' out.

Lemma send_if_space_cases w c m :
  (m_len m + packet_overhead_chan w c <= comm_get_txspace w c /\
   send_if_space w c m = (true, mavlink_resend_uart w c m, [c])) \/
  (comm_get_txspace w c < m_len m + packet_overhead_chan w c /\
   send_if_space w c m = (false, w, [])).
Proof.
  unfold send_if_space. rewrite Z.geb_leb.
  destruct (Z.leb_spec (m_len m + packet_overhead_chan w c) (comm_get_txspace w c)); auto.
Qed.

Lemma sends_sublist m w cs w' out : sends m w cs w' out -> out `sublist_of` cs.
Proof. induction 1; by constructor. Qed.

(** [sent_to_chan] marks the channels [seen]. *)
Definition marks (sent : list bool) (seen : list Z) : Prop :=
  zlen sent = MAVLINK_COMM_NUM_BUFFERS /\
  forall c, valid_channel c -> arr_get sent c = Some (bool_decide (c ∈ seen)).

Lemma marks_none : marks no_channel [].
Proof.
  split; [done|]. intros c Hc. unfold arr_get. rewrite (proj2 (Z.leb_le 0 c)) by apply Hc.
  unfold no_channel. rewrite lookup_replicate_2; [done|].
  unfold valid_channel, MAVLINK_COMM_NUM_BUFFERS in *. lia.
Qed.

Lemma marks_set sent seen c : marks sent seen -> valid_channel c ->
  exists sent', arr_set sent c true = Some sent' /\ marks sent' (c :: seen).
Proof.
  intros [Hl Hm] Hc. rewrite arr_set_Some by (unfold valid_channel in Hc; lia).
  eexists. split; [done|]. split; [by rewrite length_insert|]. intros d Hd.
  unfold arr_get. rewrite (proj2 (Z.leb_le 0 d)) by apply Hd.
  destruct (decide (d = c)) as [->|Hne].
  - rewrite list_lookup_insert_eq by (unfold valid_channel in Hc; lia).
    by rewrite bool_decide_true by (by left).
  - rewrite list_lookup_insert_ne by (unfold valid_channel in *; lia).
    specialize (Hm d Hd). unfold arr_get in Hm. rewrite (proj2 (Z.leb_le 0 d)) in Hm by apply Hd.
    rewrite Hm. f_equal. apply bool_decide_ext. rewrite elem_of_cons. tauto.
Qed.

Lemma forward_loop_spec fwd m in_c rs : Forall (fun r => valid_channel (channel r)) rs ->
  forall sent seen forwarded w out, marks sent seen ->
  exists cs w' out', forward_loop rs fwd m in_c sent forwarded w out =
      Some (forwarded || bool_decide (cs <> []), w', out ++ out') /\
    sends m w cs w' out' /\ NoDup cs /\
    forall d, (d ∈ cs) <-> (d ∉ seen) /\ d <> in_c /\
      exists r, r ∈ rs /\ channel r = d /\ fwd r = true.
Proof.
  induction 1 as [|r rs Hr Hrs IH]; intros sent seen forwarded w out Hm; cbn [forward_loop].
  { exists [], w, []. rewrite orb_false_r, app_nil_r. split; [done|].
    split; [constructor|]. split; [constructor|]. intros d. split; [by intros ?%elem_of_nil|].
    by intros (_ & _ & r & ?%elem_of_nil & _). }
  assert (Hskip : (fwd r = true -> channel r <> in_c -> channel r ∈ seen) ->
    exists cs w' out', forward_loop rs fwd m in_c sent forwarded w out =
        Some (forwarded || bool_decide (cs <> []), w', out ++ out') /\
      sends m w cs w' out' /\ NoDup cs /\
      forall d, d ∈ cs <-> (d ∉ seen) /\ d <> in_c /\
        exists r', r' ∈ r :: rs /\ channel r' = d /\ fwd r' = true).
  { intros Hno. destruct (IH sent seen forwarded w out Hm) as (cs & w' & out' & E & Hs & Hnd & Hc).
    exists cs, w', out'. split; [done|]. split; [done|]. split; [done|]. intros d. rewrite Hc.
    split; intros (Hd & Hi & r' & Hr' & Hch & Hf); (split; [done|split; [done|]]).
    - exists r'. split; [by right|done].
    - apply elem_of_cons in Hr' as [->|Hr']; [|by exists r'].
      destruct Hd. rewrite <- Hch. apply Hno; congruence. }
  destruct (fwd r) eqn:Ef; [|by apply Hskip].
  destruct (Z.eqb_spec in_c (channel r)) as [Ei|Ei]; cbn [negb andb];
    [apply Hskip; congruence|].
  destruct Hm as [Hl Hm]. rewrite (Hm _ Hr). cbn [mbind option_bind].
  destruct (bool_decide_reflect (channel r ∈ seen)) as [Hin|Hnin]; cbn [negb];
    [by apply Hskip|].
  destruct (marks_set sent seen (channel r) (conj Hl Hm) Hr) as (sent' & Hset & Hm').
  assert (Hrest : forall w1 o, exists cs w' out',
    forward_loop rs fwd m in_c sent' true w1 (out ++ o) = Some (true, w', (out ++ o) ++ out') /\
    sends m w1 cs w' out' /\ NoDup (channel r :: cs) /\
    forall d, d ∈ channel r :: cs <-> (d ∉ seen) /\ d <> in_c /\
        exists r', r' ∈ r :: rs /\ channel r' = d /\ fwd r' = true).
  { intros w1 o. destruct (IH sent' _ true w1 (out ++ o) Hm') as (cs & w' & out' & E & Hs & Hnd & Hc).
    exists cs, w', out'. split; [done|]. split; [done|]. split.
    - constructor; [|done]. rewrite Hc. intros [Hd _]. apply Hd. by left.
    - intros d. rewrite elem_of_cons, Hc, elem_of_cons.
      split.
      + intros [->|(Hd & Hi & r' & Hr' & Hch & Hf)].
        * split; [done|]. split; [congruence|]. exists r. split; [by left|done].
        * split; [tauto|]. split; [done|]. exists r'. split; [by right|done].
      + intros (Hd & Hi & r' & Hr' & Hch & Hf). destruct (decide (d = channel r)); [by left|right].
        split; [tauto|]. split; [done|]. exists r'.
        apply elem_of_cons in Hr' as [->|Hr']; [congruence|done]. }
  destruct (send_if_space_cases w (channel r) m) as [[Hsp ->]|[Hsp ->]]; rewrite Hset;
    cbn [mbind option_bind].
  - destruct (Hrest (mavlink_resend_uart w (channel r) m) [channel r])
      as (cs & w' & out' & E & Hs & Hnd & Hc).
    exists (channel r :: cs), w', (channel r :: out'). rewrite E, <- app_assoc.
    split; [by rewrite orb_true_r|]. split; [by constructor|done].
  - destruct (Hrest w []) as (cs & w' & out' & E & Hs & Hnd & Hc).
    exists (channel r :: cs), w', out'. rewrite E, app_nil_r.
    split; [by rewrite orb_true_r|]. split; [by constructor|done].
Qed.

(** ** The heartbeat mask *)
Lemma u16_testbit x i : 0 <= i < 16 -> Z.testbit (u16 x) i = Z.testbit x i.
Proof.
  intros Hi. unfold u16. change 65536 with (2 ^ 16). apply Z.mod_pow2_bits_low. lia.
Qed.

Lemma mask_clear mask c i : 0 <= c -> 0 <= i < 16 ->
  Z.testbit (u16 (Z.ldiff mask (Z.shiftl 1 c))) i = Z.testbit mask i && negb (i =? c).
Proof.
  intros Hc Hi. rewrite u16_testbit, Z.ldiff_spec by done. f_equal. f_equal.
  rewrite Z.shiftl_1_l, Z.pow2_bits_eqb by done. apply Z.eqb_sym.
Qed.

Lemma mask_sources_spec rs m : Forall (fun r => valid_channel (channel r)) rs ->
  forall mask i, 0 <= i < 16 ->
  Z.testbit (mask_sources rs m mask) i = true <->
  Z.testbit mask i = true /\
  forall r, r ∈ rs -> (sysid r, compid r) = (m_sysid m, m_compid m) -> channel r <> i.
Proof.
  induction 1 as [|r rs Hr Hrs IH]; intros mask i Hi; cbn [mask_sources].
  { split; [|tauto]. intros ?. split; [done|]. by intros r ?%elem_of_nil. }
  rewrite IH by done. destruct ((sysid r =? m_sysid m) && _) eqn:E.
  - apply andb_true_iff in E as [E1%Z.eqb_eq E2%Z.eqb_eq].
    rewrite mask_clear by (done || apply Hr).
    rewrite andb_true_iff, negb_true_iff, Z.eqb_neq. split.
    + intros [[? ?] Hn]. split; [done|]. intros r' [->|Hr']%elem_of_cons; [auto|by apply Hn].
    + intros [? Hn]. split; [split; [done|]|].
      * apply not_eq_sym, (Hn r); [by left|congruence].
      * intros r' Hr'. apply Hn. by right.
  - split; intros [? Hn]; (split; [done|]); intros r' Hr'.
    + apply elem_of_cons in Hr' as [->|Hr']; [|by apply Hn].
      intros [= E1 E2]. rewrite E1, E2, !Z.eqb_refl in E. done.
    + apply Hn. by right.
Qed.

(** A channel that [handle_heartbeat] tries: active, not the incoming one, not
    blocked, and not one on which the sender was seen. *)
Definition heartbeat_channel (s : t) (w : W) (in_c : Z) (m : mavlink_message) (d : Z) : Prop :=
  Z.testbit (active_channel_mask w) d = true /\ d <> in_c /\
  Z.testbit (no_route_mask s) d = false /\
  forall r, r ∈ table s -> (sysid r, compid r) = (m_sysid m, m_compid m) -> channel r <> d.

Lemma heartbeat_mask_spec s w in_c m d : ok s -> valid_channel in_c -> valid_channel d ->
  Z.testbit (heartbeat_mask s w in_c m) d = true <-> heartbeat_channel s w in_c m d.
Proof.
  intros [_ _ _ Hf] Hin Hd. unfold valid_channel, MAVLINK_COMM_NUM_BUFFERS in *.
  unfold heartbeat_mask, heartbeat_channel. rewrite mask_sources_spec;
    [|by eapply Forall_impl; [exact Hf|]; simpl; intros r (_ & ? & _)|lia].
  rewrite u16_testbit, Z.ldiff_spec, mask_clear, u16_testbit by lia.
  rewrite !andb_true_iff, !negb_true_iff, Z.eqb_neq. tauto.
Qed.

Lemma heartbeat_loop_spec m mask n : forall i w out, 0 <= i ->
  exists cs w' out', heartbeat_loop n i m mask w out = (w', out ++ out') /\
    sends m w cs w' out' /\ NoDup cs /\
    forall d, (d ∈ cs) <-> i <= d < i + Z.of_nat n /\ Z.testbit mask d = true.
Proof.
  induction n as [|n IH]; intros i w out Hi; cbn [heartbeat_loop].
  { exists [], w, []. rewrite app_nil_r. split; [done|]. split; [constructor|].
    split; [constructor|]. intros d. rewrite elem_of_nil. lia. }
  assert (Hbit : nz (Z.land mask (Z.shiftl 1 i)) = Z.testbit mask i).
  { apply eq_bool_prop_intro. rewrite !Is_true_true, nz_true. split.
    - intros Hnz. destruct (Z.testbit mask i) eqn:E; [done|]. destruct Hnz.
      apply Z.bits_inj'. intros k Hk. rewrite Z.land_spec, Z.shiftl_1_l, Z.pow2_bits_eqb, Z.bits_0 by done.
      destruct (Z.eqb_spec i k) as [<-|]; [by rewrite E|apply andb_false_r].
    - intros E Hz. assert (Ht : Z.testbit (Z.land mask (Z.shiftl 1 i)) i = false)
        by (rewrite Hz; apply Z.bits_0).
      rewrite Z.land_spec, Z.shiftl_1_l, Z.pow2_bits_true, E in Ht by done. done. }
  rewrite Hbit. destruct (Z.testbit mask i) eqn:Eb.
  - assert (Hrest : forall w1 o, exists cs w' out',
      heartbeat_loop n (i + 1) m mask w1 (out ++ o) = (w', (out ++ o) ++ out') /\
      sends m w1 cs w' out' /\ NoDup (i :: cs) /\
      forall d, (d ∈ i :: cs) <-> i <= d < i + Z.of_nat (S n) /\ Z.testbit mask d = true).
    { intros w1 o. destruct (IH (i + 1) w1 (out ++ o) ltac:(lia)) as (cs & w' & out' & E & Hs & Hnd & Hc).
      exists cs, w', out'. split; [done|]. split; [done|]. split.
      - constructor; [|done]. rewrite Hc. lia.
      - intros d. rewrite elem_of_cons, Hc. split.
        + intros [->|?]; [split; [lia|done]|split; [lia|tauto]].
        + intros [? ?]. destruct (decide (d = i)); [by left|right]. split; [lia|done]. }
    destruct (send_if_space_cases w i m) as [[Hsp ->]|[Hsp ->]].
    + destruct (Hrest (mavlink_resend_uart w i m) [i]) as (cs & w' & out' & E & Hs & Hnd & Hc).
      exists (i :: cs), w', (i :: out'). rewrite E, <- app_assoc. split; [done|].
      split; [by constructor|done].
    + destruct (Hrest w []) as (cs & w' & out' & E & Hs & Hnd & Hc).
      exists (i :: cs), w', out'. rewrite E, app_nil_r. split; [done|].
      split; [by constructor|done].
  - destruct (IH (i + 1) w out ltac:(lia)) as (cs & w' & out' & E & Hs & Hnd & Hc).
    exists cs, w', out'. split; [done|]. split; [done|]. split; [done|].
    intros d. rewrite Hc. split; intros [? Hb]; (split; [|done]); [lia|].
    assert (d <> i) by (intros ->; congruence). lia.
Qed.

Lemma handle_heartbeat_spec s w in_c m : ok s -> valid_channel in_c ->
  exists cs w' out, handle_heartbeat s w in_c m = (w', out) /\
    sends m w cs w' out /\ NoDup cs /\
    forall d, (d ∈ cs) <-> valid_channel d /\ heartbeat_channel s w in_c m d.
Proof.
  intros Hok Hin. unfold handle_heartbeat.
  destruct (Z.eqb_spec (heartbeat_mask s w in_c m) 0) as [E|].
  - exists [], w, []. split; [done|]. split; [constructor|]. split; [constructor|].
    intros d. rewrite elem_of_nil. split; [done|]. intros [Hd Hh].
    apply (heartbeat_mask_spec s w in_c m d) in Hh; [|done..].
    rewrite E, Z.bits_0 in Hh. done.
  - destruct (heartbeat_loop_spec m (heartbeat_mask s w in_c m)
      (Z.to_nat MAVLINK_COMM_NUM_BUFFERS) 0 w []) as (cs & w' & out & E & Hs & Hnd & Hc); [lia|].
    exists cs, w', out. split; [done|]. split; [done|]. split; [done|].
    intros d. rewrite Hc. change (0 + Z.of_nat (Z.to_nat MAVLINK_COMM_NUM_BUFFERS)) with 5.
    split; intros [Hd Hh]; (split; [done|]); by apply heartbeat_mask_spec.
Qed.

(** ** Delivery, as the rules of the header comment state it *)

(** Rules 2a to 2d: a message with targets [ts] and [tc] goes to a link with
    route [r]; -1 is an absent target. *)
Definition deliverable (ts tc : Z) (r : route) : Prop :=
  (ts = -1 \/ ts = 0) \/
  (ts <> system_sysid /\ sysid r = ts) \/
  (ts = system_sysid /\ sysid r = ts /\ (tc = -1 \/ tc = 0 \/ compid r = tc)).

(** The message can be for this vehicle, and for this component of it. *)
Definition for_system (ts : Z) : Prop := ts = -1 \/ ts = 0 \/ ts = system_sysid.
Definition for_component (tc : Z) : Prop := tc = -1 \/ tc = 0 \/ tc = system_compid.

Lemma targets_of_spec m : let '(ts, tc) := get_targets m in let g := targets_of m in
  (match_system g = true <-> for_system ts) /\
  (match_component g = true <-> for_system ts /\ for_component tc) /\
  (broadcast_system g = true <-> ts = -1 \/ ts = 0) /\
  (broadcast_component g = true <-> tc = -1 \/ tc = 0) /\
  forall r, fwd_cond g r = true <-> deliverable ts tc r.
Proof.
  unfold fwd_cond, targets_of, deliverable, for_system, for_component.
  destruct (get_targets m) as [ts tc]. cbn.
  rewrite !andb_true_iff, !orb_true_iff, !Z.eqb_eq.
  split; [tauto|]. split; [tauto|]. split; [tauto|]. split; [tauto|]. intros r.
  rewrite !orb_true_iff, !andb_true_iff, !orb_true_iff, negb_true_iff, !orb_false_iff,
    !Z.eqb_eq, !Z.eqb_neq.
  destruct (decide (ts = -1)), (decide (ts = 0)), (decide (ts = system_sysid)); subst;
    intuition congruence.
Qed.

(** The messages that [check_and_forward] routes by their targets. *)
Definition routed (m : mavlink_message) : Prop :=
  (m_sysid m, m_compid m) <> (system_sysid, system_compid) /\
  m_msgid m <> MAVLINK_MSG_ID_RADIO /\ m_msgid m <> MAVLINK_MSG_ID_RADIO_STATUS /\
  m_msgid m <> MAVLINK_MSG_ID_HEARTBEAT /\ m_msgid m <> MAVLINK_MSG_ID_ADSB_VEHICLE.

Lemma not_own m : (m_sysid m, m_compid m) <> (system_sysid, system_compid) ->
  (m_sysid m =? system_sysid) && (m_compid m =? system_compid) = false.
Proof.
  intros Hne. apply not_true_iff_false.
  intros [?%Z.eqb_eq ?%Z.eqb_eq]%andb_true_iff. congruence.
Qed.

Lemma ok_channels s : ok s -> Forall (fun r => valid_channel (channel r)) (table s).
Proof. intros [_ _ _ Hf]. eapply Forall_impl; [exact Hf|]. by intros r (_ & ? & _). Qed.

Lemma check_and_forward_routed s w in_c m : routed m ->
  let s' := learn_route s in_c m in let g := targets_of m in
  check_and_forward s w in_c m =
    if match_system g && match_component g && negb (broadcast_system g) &&
       negb (broadcast_component g)
    then Some (true, s', w, [])
    else '(forwarded, w, out) ← forward_loop (table s') (fwd_cond g) m in_c no_channel false w [];
         Some ((if negb forwarded && match_system g then true
                else match_system g && match_component g), s', w, out).
Proof.
  intros (Hown & H1 & H2 & H3 & H4). unfold check_and_forward. rewrite not_own by done.
  rewrite !(proj2 (Z.eqb_neq _ _)) by done. done.
Qed.

(** The channels that [send_to_components] uses. *)
Lemma components_loop_spec m rs : Forall (fun r => valid_channel (channel r)) rs ->
  forall sent seen w out, marks sent seen ->
  exists w' out', components_loop rs m sent w out = Some (w', out ++ out') /\ NoDup out' /\
    forall d, d ∈ out' -> (d ∉ seen) /\ exists r, r ∈ rs /\ channel r = d /\ sysid r = system_sysid.
Proof.
  induction 1 as [|r rs Hr Hrs IH]; intros sent seen w out Hm; cbn [components_loop].
  { exists w, []. rewrite app_nil_r. split; [done|]. split; [constructor|].
    by intros d ?%elem_of_nil. }
  assert (Hskip : exists w' out', components_loop rs m sent w out = Some (w', out ++ out') /\
    NoDup out' /\ forall d, d ∈ out' -> (d ∉ seen) /\
      exists r', r' ∈ r :: rs /\ channel r' = d /\ sysid r' = system_sysid).
  { destruct (IH sent seen w out Hm) as (w' & out' & E & Hnd & Hc). exists w', out'.
    split; [done|]. split; [done|]. intros d Hd. destruct (Hc d Hd) as (? & r' & ? & ?).
    split; [done|]. exists r'. split; [by right|done]. }
  destruct (Z.eqb_spec (sysid r) system_sysid); [|done].
  rewrite (proj2 Hm _ Hr). cbn [mbind option_bind].
  destruct (bool_decide_reflect (channel r ∈ seen)) as [Hin|Hnin]; cbn [negb]; [done|].
  destruct (send_if_space_cases w (channel r) m) as [[Hsp ->]|[Hsp ->]].
  2:{ cbn [mbind option_bind]. rewrite app_nil_r. done. }
  destruct (marks_set sent seen (channel r) Hm Hr) as (sent' & -> & Hm').
  cbn [mbind option_bind].
  destruct (IH sent' _ (mavlink_resend_uart w (channel r) m) (out ++ [channel r]) Hm')
    as (w' & out' & E & Hnd & Hc).
  exists w', (channel r :: out'). rewrite E, <- app_assoc. split; [done|]. split.
  - constructor; [|done]. intros Hd. destruct (Hc _ Hd) as [Hd' _]. apply Hd'. by left.
  - intros d [->|Hd]%elem_of_cons.
    + split; [done|]. exists r. split; [by left|done].
    + destruct (Hc d Hd) as (Hd' & r' & ? & ?). split; [intros ?; apply Hd'; by right|].
      exists r'. split; [by right|done].
Qed.
End routing.
End Routing.

(** * Properties *)


(** Concrete parameters: messages 76 have both targets in their first two bytes,
    the vehicle is system 1, component 1; the links log what they send. *)
Module Demo.
#[export] Instance mavlink : Mavlink := {
  MAVLINK_MSG_ID_RADIO := 166;
  MAVLINK_MSG_ID_RADIO_STATUS := 109;
  MAVLINK_MSG_ID_HEARTBEAT := 0;
  MAVLINK_MSG_ID_ADSB_VEHICLE := 246;
  MAV_MSG_ENTRY_FLAG_HAVE_TARGET_SYSTEM := 1;
  MAV_MSG_ENTRY_FLAG_HAVE_TARGET_COMPONENT := 2;
  mavlink_get_msg_entry id := if id =? 76 then Some (MsgEntry 3 0 1) else None;
  mav_return_uint8_t m o := nth (Z.to_nat o) (m_payload m) 0;
  mavlink_msg_heartbeat_get_type m := nth 4 (m_payload m) 0;
  system_sysid := 1;
  system_compid := 1
}.
#[export] Instance links : Links (list (Z * mavlink_message)) := {
  comm_get_txspace w c := if c =? 3 then 0 else 200;
  packet_overhead_chan w c := 8;
  mavlink_resend_uart w c m := (c, m) :: w;
  active_channel_mask w := 31
}.
(** A ground station on link 0, a gimbal of this vehicle on link 1, another
    vehicle on links 2 and 3. *)
Definition state : Routing.t :=
  Routing.mk 4 ([Routing.Route 255 190 0 6; Routing.Route 1 154 1 26; Routing.Route 2 1 2 2;
                 Routing.Route 2 1 3 2] ++ replicate 16 (Routing.Route 0 0 0 0)) 0.
Definition to (system component : Z) : mavlink_message :=
  Msg 255 190 76 33 [system; component].
End Demo.
Import Demo.

Lemma demo_ok : Routing.ok Demo.state.
Proof.
  constructor; [by vm_compute|done| |].
  - apply (bool_decide_unpack _). by vm_compute.
  - repeat (apply Forall_cons; split; [by vm_compute|]). constructor.
Qed.


(** To another vehicle; to the gimbal; to system 0 but another component: the
    last one is not processed locally, although its target system is zero. *)
Example to_vehicle :
  (fun x => (x.1.1.1, x.2)) <$> Routing.check_and_forward Demo.state [] 0 (Demo.to 2 1)
  = Some (false, [2]).
Proof. reflexivity. Qed.
Example to_gimbal :
  (fun x => (x.1.1.1, x.2)) <$> Routing.check_and_forward Demo.state [] 0 (Demo.to 1 154)
  = Some (false, [1]).
Proof. reflexivity. Qed.
Example to_all_component_7 :
  (fun x => (x.1.1.1, x.2)) <$> Routing.check_and_forward Demo.state [] 0 (Demo.to 0 7)
  = Some (false, [1; 2]).
Proof. reflexivity. Qed.

(** The routing table: whatever arrives on a link, [check_and_forward] is
    defined and keeps the table well formed, with at most 20 routes and no two
    for the same sender and link; no learned sender is forgotten, and the
    sender of the message is learned unless the table is full. *)
Theorem routing_table `{Mavlink} {W} `{Links W} (s : Routing.t) (w : W) in_c m :
  Routing.ok s -> Routing.valid_channel in_c ->
  exists local s' w' out,
    Routing.check_and_forward s w in_c m = Some (local, s', w', out) /\ Routing.ok s' /\
    (forall r, r ∈ Routing.table s ->
       exists r', r' ∈ Routing.table s' /\ Routing.key r' = Routing.key r) /\
    (Routing.learnable m ->
       (exists r, r ∈ Routing.table s' /\ Routing.key r = (m_sysid m, m_compid m, in_c)) \/
       Routing.num_routes s = Routing.MAVLINK_MAX_ROUTES).
Proof.
  intros Hok Hin. set (s1 := Routing.learn_route s in_c m).
  assert (Hok1 : Routing.ok s1) by by apply Routing.learn_route_ok.
  assert (Hres : (exists local w' out,
      Routing.check_and_forward s w in_c m = Some (local, s1, w', out)) \/
    (~ Routing.learnable m /\ Routing.check_and_forward s w in_c m = Some (true, s, w, []))).
  { unfold Routing.check_and_forward. destruct (_ && _) eqn:Eown.
    - right. split; [|done]. intros [_ Hne].
      apply andb_true_iff in Eown as [?%Z.eqb_eq ?%Z.eqb_eq]. congruence.
    - left. fold s1. destruct (_ || _); [by do 3 eexists|].
      destruct (_ =? MAVLINK_MSG_ID_HEARTBEAT).
      { destruct (Routing.handle_heartbeat s1 w in_c m). by do 3 eexists. }
      destruct (_ =? MAVLINK_MSG_ID_ADSB_VEHICLE); [by do 3 eexists|].
      cbv zeta. destruct (_ && _ && _ && _); [by do 3 eexists|].
      destruct (Routing.forward_loop_spec (Routing.fwd_cond (Routing.targets_of m)) m in_c
        (Routing.table s1) (Routing.ok_channels s1 Hok1) Routing.no_channel [] false w []
        Routing.marks_none) as (cs & w' & out & -> & _). cbn [mbind option_bind].
      do 3 eexists. reflexivity. }
  destruct Hres as [(local & w' & out & ->)|[Hno ->]].
  - exists local, s1, w', out. split; [done|]. split; [done|].
    split; [intros r Hr; by apply Routing.learn_route_keeps|].
    intros Hlearn. destruct (Routing.learn_route_spec s in_c m Hok) as (Hl & _). fold s1 in Hl.
    pose proof (Routing.table_length s Hok) as Hlen.
    destruct Hl as [-> Hknown|j r Hj Hkey _ _ ->|ty _ Hnew _ ->].
    + destruct (Hknown Hlearn) as [?|?]; [by left|right; lia].
    + left. eexists (Routing.Route (Routing.sysid r) (Routing.compid r)
        (Routing.channel r) _). split; [|exact Hkey]. apply list_elem_of_lookup.
      exists j. apply list_lookup_insert_eq. by eapply lookup_lt_Some.
    + left. eexists. split; [apply elem_of_app; right; by apply list_elem_of_singleton|done].
  - exists true, s, w, []. split; [done|]. split; [done|]. split; [intros r Hr; by exists r|].
    done.
Qed.

Lemma routing_table_witness :
  exists local s' w' out,
    Routing.check_and_forward Demo.state [] 4 (Demo.to 2 1) = Some (local, s', w', out) /\
    Routing.ok s' /\
    exists r, r ∈ Routing.table s' /\ Routing.key r = (255, 190, 4).
Proof.
  destruct (routing_table Demo.state [] 4 (Demo.to 2 1) demo_ok)
    as (local & s' & w' & out & Hc & Hok & _ & Hl); [by vm_compute|].
  exists local, s', w', out. split; [exact Hc|]. split; [exact Hok|].
  destruct Hl as [Hr|Hfull]; [by split; vm_compute|exact Hr|discriminate Hfull].
Defined.

(** A heartbeat is always processed locally, and is tried once on every
    active link except the one it came from, the blocked ones, and those on
    which its sender was seen. *)
Theorem routing_heartbeat `{Mavlink} {W} `{Links W} (s : Routing.t) (w : W) in_c m :
  Routing.ok s -> Routing.valid_channel in_c ->
  (m_sysid m, m_compid m) <> (system_sysid, system_compid) ->
  m_msgid m = MAVLINK_MSG_ID_HEARTBEAT ->
  MAVLINK_MSG_ID_HEARTBEAT <> MAVLINK_MSG_ID_RADIO ->
  MAVLINK_MSG_ID_HEARTBEAT <> MAVLINK_MSG_ID_RADIO_STATUS ->
  let s' := Routing.learn_route s in_c m in
  exists cs w' out,
    Routing.check_and_forward s w in_c m = Some (true, s', w', out) /\
    Routing.sends m w cs w' out /\ NoDup cs /\
    forall d, (d ∈ cs) <-> Routing.valid_channel d /\
      Z.testbit (active_channel_mask w) d = true /\ d <> in_c /\
      Z.testbit (Routing.no_route_mask s) d = false /\
      forall r, r ∈ Routing.table s' ->
        (Routing.sysid r, Routing.compid r) = (m_sysid m, m_compid m) -> Routing.channel r <> d.
Proof.
  intros Hok Hin Hown Hhb Hr1 Hr2 s'.
  assert (Hok' : Routing.ok s') by by apply Routing.learn_route_ok.
  destruct (Routing.handle_heartbeat_spec s' w in_c m Hok' Hin)
    as (cs & w' & out & E & Hs & Hnd & Hc).
  exists cs, w', out. split; [|split; [done|split; [done|]]].
  - unfold Routing.check_and_forward. rewrite Routing.not_own by done. fold s'.
    rewrite Hhb, !(proj2 (Z.eqb_neq MAVLINK_MSG_ID_HEARTBEAT _)) by done.
    cbn [orb]. by rewrite Z.eqb_refl, E.
  - intros d. rewrite Hc. unfold Routing.heartbeat_channel.
    destruct (Routing.learn_route_spec s in_c m Hok) as (_ & Hmask & _). fold s' in Hmask.
    by rewrite Hmask.
Qed.

Lemma routing_heartbeat_witness :
  let m := Msg 2 1 0 9 [0; 0; 0; 0; 2] in
  exists cs w' out,
    Routing.check_and_forward Demo.state [] 2 m = Some (true, Demo.state, w', out) /\
    Routing.sends m [] cs w' out /\ NoDup cs.
Proof.
  intros m.
  destruct (routing_heartbeat Demo.state [] 2 m demo_ok)
    as (cs & w' & out & Hc & Hs & Hnd & _); [by vm_compute|by vm_compute|reflexivity|by vm_compute..|].
  exists cs, w', out. split; [exact Hc|]. split; [exact Hs|exact Hnd].
Defined.
