(* ===== verification/Float32.v ===== *)
(** Single-precision arithmetic as the C code does it: IEEE 754 binary32 with
    rounding to nearest even, on the Standard Library's [SpecFloat]. *)
From S2P Require Import Prelude.
From Stdlib Require Export SpecFloat.

Definition prec : Z := 24.
Definition emax : Z := 128.

Declare Scope f32_scope.
Delimit Scope f32_scope with f32.

(** The conversion of an integer, and a literal [m * 2^e]. *)
Definition f32_of_Z (x : Z) : spec_float := binary_normalize prec emax x 0 false.
Definition f32_lit (m e : Z) : spec_float := binary_normalize prec emax m e false.

Notation "x + y" := (SFadd prec emax x y) : f32_scope.
Notation "x - y" := (SFsub prec emax x y) : f32_scope.
Notation "x * y" := (SFmul prec emax x y) : f32_scope.
Notation "x / y" := (SFdiv prec emax x y) : f32_scope.

Definition f32_lt (x y : spec_float) : bool := SFltb x y.

(** The conversion to an integer truncates toward zero; it is undefined for
    infinities and NaN. *)
Definition f32_trunc (x : spec_float) : option Z :=
  match x with
  | S754_zero _ => Some 0
  | S754_finite s m e =>
    let a := if 0 <=? e then Z.pos m * 2 ^ e else Z.pos m / 2 ^ (- e) in
    Some (if s then - a else a)
  | _ => None
  end.

(** [(int32_t)x], undefined outside the range of the type. *)
Definition f32_to_int32 (x : spec_float) : option Z :=
  v ← f32_trunc x;
  if (-2147483648 <=? v) && (v <? 2147483648) then Some v else None.

(** [(uint32_t)x], undefined outside the range of the type. *)
Definition f32_to_uint32 (x : spec_float) : option Z :=
  v ← f32_trunc x;
  if (0 <=? v) && (v <? 4294967296) then Some v else None.

(** [is_zero] of libraries/AP_Math: below FLT_EPSILON. *)
Definition is_zero (x : spec_float) : bool := f32_lt (SFabs x) (f32_lit 1 (-23)).

Definition is_nan (x : spec_float) : bool := match x with S754_nan => true | _ => false end.

(** [constrain_value] of two floats. *)
Definition constrain_float (amt low high : spec_float) : spec_float :=
  if is_nan amt then ((low + high) / f32_of_Z 2)%f32
  else if f32_lt amt low then low
  else if f32_lt high amt then high
  else amt.

(** [(uint32_t)sqrt(x)] of a 64-bit integer: in double precision. *)
Definition sqrt_to_uint32 (x : Z) : option Z :=
  f32_to_uint32 (SFsqrt 53 1024 (binary_normalize 53 1024 x 0 false)).

(** A float in memory: the number with the given 32 bits. *)
Definition f32_of_bits (x : Z) : spec_float :=
  let neg := Z.testbit x 31 in
  let e := (x / 2 ^ 23) mod 2 ^ 8 in
  let m := x mod 2 ^ 23 in
  let v := if e =? 0 then f32_lit m (-149) else f32_lit (m + 2 ^ 23) (e - 150) in
  if e =? 255 then (if m =? 0 then S754_infinity neg else S754_nan)
  else if neg then SFopp v else v.

(** The 32 bits of a number in memory; the payload of a NaN is that of the
    default NaN. *)
Definition bits_of_f32 (x : spec_float) : Z :=
  match x with
  | S754_zero s => if s then 2 ^ 31 else 0
  | S754_infinity s => (if s then 2 ^ 31 else 0) + 255 * 2 ^ 23
  | S754_nan => 255 * 2 ^ 23 + 2 ^ 22
  | S754_finite s m e =>
    (if s then 2 ^ 31 else 0) +
    (if Z.pos m <? 2 ^ 23 then Z.pos m else (e + 150) * 2 ^ 23 + (Z.pos m - 2 ^ 23))
  end.

Example f32_bits_ex : map (fun b => bits_of_f32 (f32_of_bits b)) [0x42f70000; 0xbf800000; 1; 0x80000000]
  = [0x42f70000; 0xbf800000; 1; 0x80000000].
Proof. reflexivity. Qed.

Example f32_of_bits_ex : f32_of_bits 0x42f70000 = f32_lit 247 (-1).
Proof. reflexivity. Qed.

(** [(uint16_t)x], undefined outside the range of the type. *)
Definition f32_to_uint16 (x : spec_float) : option Z :=
  v ← f32_trunc x;
  if (0 <=? v) && (v <? 65536) then Some v else None.

(** Checks a property of the integers [lo .. lo + n - 1] by computation. *)
Fixpoint forall_from (lo : Z) (n : nat) (P : Z -> bool) : bool :=
  match n with
  | O => true
  | S n => P lo && forall_from (lo + 1) n P
  end.

Lemma forall_from_spec n P : forall lo x, forall_from lo n P = true ->
  lo <= x < lo + Z.of_nat n -> P x = true.
Proof.
  induction n as [|n IH]; intros lo x Hf Hx; [lia|].
  apply andb_true_iff in Hf as [H0 Hf].
  destruct (decide (x = lo)) as [->|]; [done|]. apply (IH (lo + 1)); [done|lia].
Qed.

(** A statement about every integer of a range, from its check. *)
Lemma forall_range (P : Z -> bool) lo hi : forall_from lo (Z.to_nat (hi - lo)) P = true ->
  forall x, lo <= x < hi -> P x = true.
Proof. intros Hf x Hx. apply (forall_from_spec _ _ _ _ Hf). lia. Qed.
