(* ===== verification/Crc.v ===== *)
(** Cyclic redundancy checks: libraries/AP_Math/crc.cpp and the checksums of the
    serial receivers (libraries/AP_HAL/utility), as one shift register each, with
    what the theorems on the receivers need of them: linearity, injectivity and
    the detection of bursts. *)
From S2P Require Import Prelude Float32.
Open Scope urus_scope.

(** * The shift register

    One step of a register of [w] bits with the polynomial [poly]. *)
Section register.
Variables (w poly : Z).
Hypothesis Hw : 0 < w.
Hypothesis Hpoly : 0 <= poly < 2 ^ w.

Definition lfsr (x : Z) : Z :=
  Z.lxor (Z.shiftl x 1 mod 2 ^ w) (if Z.testbit x (w - 1) then poly else 0).

Definition lfsr_n (n : nat) (x : Z) : Z := Nat.iter n lfsr x.

#[local] Lemma lxor_mod a b : Z.lxor a b mod 2 ^ w = Z.lxor (a mod 2 ^ w) (b mod 2 ^ w).
Proof.
  rewrite <- !Z.land_ones by lia. apply Z.bits_inj'. intros n Hn.
  rewrite !Z.land_spec, !Z.lxor_spec, !Z.land_spec.
  by destruct (Z.testbit a n), (Z.testbit b n), (Z.testbit (Z.ones w) n).
Qed.

Lemma lfsr_lxor x y : lfsr (Z.lxor x y) = Z.lxor (lfsr x) (lfsr y).
Proof.
  unfold lfsr. rewrite Z.shiftl_lxor, lxor_mod, Z.lxor_spec.
  apply Z.bits_inj'. intros n Hn. rewrite !Z.lxor_spec.
  destruct (Z.testbit x (w - 1)), (Z.testbit y (w - 1)); simpl xorb; rewrite ?Z.bits_0;
    destruct (Z.testbit poly n), (Z.testbit (Z.shiftl x 1 mod 2 ^ w) n),
      (Z.testbit (Z.shiftl y 1 mod 2 ^ w) n); done.
Qed.

Lemma lfsr_range x : 0 <= lfsr x < 2 ^ w.
Proof.
  assert (Hp : 0 < 2 ^ w) by (apply Z.pow_pos_nonneg; lia).
  assert (E : lfsr x = lfsr x mod 2 ^ w).
  { unfold lfsr. rewrite lxor_mod, Z.mod_mod by lia. f_equal.
    symmetry. apply Z.mod_small. destruct (Z.testbit x (w - 1)); lia. }
  rewrite E. by apply Z.mod_pos_bound.
Qed.

(** Nothing but zero is sent to zero, since the polynomial is odd. *)
Lemma lfsr_zero x : Z.odd poly = true -> 0 <= x < 2 ^ w -> lfsr x = 0 -> x = 0.
Proof.
  intros Ho Hx. unfold lfsr. destruct (Z.testbit x (w - 1)) eqn:E; intros H.
  - apply Z.lxor_eq in H. rewrite <- Z.bit0_odd, <- H in Ho.
    rewrite Z.mod_pow2_bits_low, Z.shiftl_spec_low in Ho by lia. done.
  - rewrite Z.lxor_0_r in H. apply Z.bits_inj'. intros n Hn. rewrite Z.bits_0.
    destruct (decide (n < w - 1)).
    + assert (Hb : Z.testbit (Z.shiftl x 1 mod 2 ^ w) (n + 1) = false) by (rewrite H; apply Z.bits_0).
      rewrite Z.mod_pow2_bits_low, Z.shiftl_spec in Hb by lia.
      by replace (n + 1 - 1) with n in Hb by lia.
    + destruct (decide (n = w - 1)) as [->|]; [done|]. apply testbit_above with w; lia.
Qed.

Lemma lxor_pow2_range x y : 0 <= x < 2 ^ w -> 0 <= y < 2 ^ w -> 0 <= Z.lxor x y < 2 ^ w.
Proof.
  intros Hx Hy. rewrite <- (Z.mod_small x (2 ^ w)), <- (Z.mod_small y (2 ^ w)), <- lxor_mod by done.
  apply Z.mod_pos_bound. apply Z.pow_pos_nonneg; lia.
Qed.

Lemma lfsr_n_lxor n x y : lfsr_n n (Z.lxor x y) = Z.lxor (lfsr_n n x) (lfsr_n n y).
Proof. induction n as [|n IH]; [done|]. simpl. by rewrite IH, lfsr_lxor. Qed.

Lemma lfsr_n_range n x : 0 <= x < 2 ^ w -> 0 <= lfsr_n n x < 2 ^ w.
Proof. intros Hx. destruct n; [done|]. apply lfsr_range. Qed.

Lemma lfsr_n_0 n : lfsr_n n 0 = 0.
Proof.
  induction n as [|n IH]; [done|]. simpl. rewrite IH. unfold lfsr.
  by rewrite Z.bits_0, Z.shiftl_0_l, Z.mod_0_l by (apply Z.pow_nonzero; lia).
Qed.

Lemma lfsr_n_inj n x y : Z.odd poly = true -> 0 <= x < 2 ^ w -> 0 <= y < 2 ^ w ->
  lfsr_n n x = lfsr_n n y -> x = y.
Proof.
  intros Ho Hx Hy H. apply Z.lxor_eq.
  assert (Hz : lfsr_n n (Z.lxor x y) = 0) by (by rewrite lfsr_n_lxor, H, Z.lxor_nilpotent).
  clear H. pose proof (lxor_pow2_range x y Hx Hy) as Hr.
  induction n as [|n IH]; [done|]. apply IH. by apply lfsr_zero; [|apply lfsr_n_range|].
Qed.

Lemma lfsr_n_add n m x : lfsr_n n (lfsr_n m x) = lfsr_n (n + m) x.
Proof. unfold lfsr_n. by rewrite Nat.iter_add. Qed.

(** A number that fits below is only shifted. *)
Lemma lfsr_n_shift n x : Z.of_nat n <= w -> 0 <= x < 2 ^ (w - Z.of_nat n) ->
  lfsr_n n x = Z.shiftl x (Z.of_nat n).
Proof.
  induction n as [|n IH]; intros Hn Hx; [done|]. simpl.
  assert (Hle : 2 ^ (w - Z.of_nat (S n)) <= 2 ^ (w - Z.of_nat n)) by (apply Z.pow_le_mono_r; lia).
  rewrite IH by lia. unfold lfsr. rewrite Z.shiftl_shiftl by lia.
  replace (Z.of_nat n + 1) with (Z.of_nat (S n)) by lia.
  rewrite Z.shiftl_spec by lia. rewrite (testbit_above x (w - Z.of_nat (S n))) by lia.
  rewrite Z.lxor_0_r. apply Z.mod_small. rewrite Z.shiftl_mul_pow2 by lia.
  pose proof (Z.pow_pos_nonneg 2 (Z.of_nat (S n))).
  assert (E : 2 ^ w = 2 ^ (w - Z.of_nat (S n)) * 2 ^ Z.of_nat (S n)).
  { rewrite <- Z.pow_add_r by lia. f_equal. lia. }
  rewrite E. nia.
Qed.
End register.
Arguments lfsr_n : simpl never.

(** * The checksums of the code *)
Definition crc8_table : list Z := [
  0x00; 0x07; 0x0e; 0x09; 0x1c; 0x1b; 0x12; 0x15; 0x38; 0x3f; 0x36; 0x31;
  0x24; 0x23; 0x2a; 0x2d; 0x70; 0x77; 0x7e; 0x79; 0x6c; 0x6b; 0x62; 0x65;
  0x48; 0x4f; 0x46; 0x41; 0x54; 0x53; 0x5a; 0x5d; 0xe0; 0xe7; 0xee; 0xe9;
  0xfc; 0xfb; 0xf2; 0xf5; 0xd8; 0xdf; 0xd6; 0xd1; 0xc4; 0xc3; 0xca; 0xcd;
  0x90; 0x97; 0x9e; 0x99; 0x8c; 0x8b; 0x82; 0x85; 0xa8; 0xaf; 0xa6; 0xa1;
  0xb4; 0xb3; 0xba; 0xbd; 0xc7; 0xc0; 0xc9; 0xce; 0xdb; 0xdc; 0xd5; 0xd2;
  0xff; 0xf8; 0xf1; 0xf6; 0xe3; 0xe4; 0xed; 0xea; 0xb7; 0xb0; 0xb9; 0xbe;
  0xab; 0xac; 0xa5; 0xa2; 0x8f; 0x88; 0x81; 0x86; 0x93; 0x94; 0x9d; 0x9a;
  0x27; 0x20; 0x29; 0x2e; 0x3b; 0x3c; 0x35; 0x32; 0x1f; 0x18; 0x11; 0x16;
  0x03; 0x04; 0x0d; 0x0a; 0x57; 0x50; 0x59; 0x5e; 0x4b; 0x4c; 0x45; 0x42;
  0x6f; 0x68; 0x61; 0x66; 0x73; 0x74; 0x7d; 0x7a; 0x89; 0x8e; 0x87; 0x80;
  0x95; 0x92; 0x9b; 0x9c; 0xb1; 0xb6; 0xbf; 0xb8; 0xad; 0xaa; 0xa3; 0xa4;
  0xf9; 0xfe; 0xf7; 0xf0; 0xe5; 0xe2; 0xeb; 0xec; 0xc1; 0xc6; 0xcf; 0xc8;
  0xdd; 0xda; 0xd3; 0xd4; 0x69; 0x6e; 0x67; 0x60; 0x75; 0x72; 0x7b; 0x7c;
  0x51; 0x56; 0x5f; 0x58; 0x4d; 0x4a; 0x43; 0x44; 0x19; 0x1e; 0x17; 0x10;
  0x05; 0x02; 0x0b; 0x0c; 0x21; 0x26; 0x2f; 0x28; 0x3d; 0x3a; 0x33; 0x34;
  0x4e; 0x49; 0x40; 0x47; 0x52; 0x55; 0x5c; 0x5b; 0x76; 0x71; 0x78; 0x7f;
  0x6a; 0x6d; 0x64; 0x63; 0x3e; 0x39; 0x30; 0x37; 0x22; 0x25; 0x2c; 0x2b;
  0x06; 0x01; 0x08; 0x0f; 0x1a; 0x1d; 0x14; 0x13; 0xae; 0xa9; 0xa0; 0xa7;
  0xb2; 0xb5; 0xbc; 0xbb; 0x96; 0x91; 0x98; 0x9f; 0x8a; 0x8d; 0x84; 0x83;
  0xde; 0xd9; 0xd0; 0xd7; 0xc2; 0xc5; 0xcc; 0xcb; 0xe6; 0xe1; 0xe8; 0xef;
  0xfa; 0xfd; 0xf4; 0xf3].

(** AP_Math's [crc_crc8]; [None] is an access outside of the table. *)
Fixpoint crc8_loop (p : list Z) (crc : Z) : option Z :=
  match p with
  | [] => Some (crc &&& 0xFF)
  | b :: p =>
    let i := (crc ^^^ b) &&& 0xFF in
    x ← arr_get crc8_table i;
    crc8_loop p ((x ^^^ u16 (crc << 8)) &&& 0xFF)
  end.
Definition crc_crc8 (p : list Z) : option Z := crc8_loop p 0.

(** [for (i = 0x80; i != 0; i >>= 1)] of [st24_common_crc8], of at most [n]
    rounds. *)
Fixpoint st24_bits (n : nat) (i b crc : Z) : Z :=
  match n with
  | O => crc
  | S n =>
    if i =? 0 then crc
    else
      let crc := if nz (crc &&& 0x80) then u8 (crc << 1) ^^^ 0x07 else u8 (crc << 1) in
      let crc := if nz (b &&& i) then crc ^^^ 0x07 else crc in
      st24_bits n (i >> 1) b crc
  end.
Definition st24_common_crc8 (p : list Z) : Z := foldl (fun crc b => st24_bits 9 0x80 b crc) 0 p.

(** The 8 rounds of the loop shared by [sumd_crc16] and [srxl_crc16]. *)
Fixpoint crc16_bits (n : nat) (crc : Z) : Z :=
  match n with
  | O => crc
  | S n => crc16_bits n (if nz (crc &&& 0x8000) then u16 ((crc << 1) ^^^ 0x1021) else u16 (crc << 1))
  end.
Definition sumd_crc16 (crc value : Z) : Z := crc16_bits 8 (crc ^^^ u16 (value << 8)).
Definition sumd_crc8 (crc value : Z) : Z := u8 (crc + value).
Definition srxl_crc16 (crc new_byte : Z) : Z := crc16_bits 8 (crc ^^^ u16 (new_byte << 8)).

(** ** The 8-bit checksum *)
Section crc8.
Implicit Types (b crc : Z) (p : list Z).

(** The register of a byte: the reference both implementations are compared to. *)
Definition crc8_step crc b : Z := lfsr_n 8 0x07 8 (crc ^^^ b).

Lemma crc8_step_eq crc b : crc8_step crc b = lfsr_n 8 0x07 8 (crc ^^^ b).
Proof. unfold crc8_step. reflexivity. Qed.

Lemma table_step : forall i, 0 <= i < 256 -> arr_get crc8_table i = Some (lfsr_n 8 0x07 8 i).
Proof.
  intros i Hi. apply (bool_decide_unpack (arr_get crc8_table i = Some (lfsr_n 8 7 8 i))).
  apply Is_true_true. revert i Hi.
  apply (forall_range (fun i => bool_decide (arr_get crc8_table i = Some (lfsr_n 8 7 8 i))) 0 256).
  vm_compute. reflexivity.
Qed.

Lemma nz_land_pow x k : 0 <= k -> nz (x &&& 2 ^ k) = Z.testbit x k.
Proof.
  intros Hk. unfold nz. destruct (Z.testbit x k) eqn:E.
  - destruct (Z.eqb_spec (x &&& 2 ^ k) 0) as [H|]; [|done].
    assert (Hb : Z.testbit (x &&& 2 ^ k) k = false) by (rewrite H; apply Z.bits_0).
    by rewrite Z.land_spec, E, Z.pow2_bits_true in Hb by done.
  - assert (H : x &&& 2 ^ k = 0); [|by rewrite H].
    apply Z.bits_inj'. intros n Hn. rewrite Z.land_spec, Z.bits_0.
    destruct (decide (n = k)) as [->|]; [by rewrite E|].
    by rewrite Z.pow2_bits_false, andb_false_r by congruence.
Qed.

Lemma byte_lxor x y : 0 <= x < 256 -> 0 <= y < 256 -> 0 <= x ^^^ y < 256.
Proof. apply (lxor_pow2_range 8). lia. Qed.

Lemma byte_mask x : 0 <= x < 256 -> x &&& 0xFF = x.
Proof. intros Hx. change 0xFF with (Z.ones 8). rewrite Z.land_ones by lia. by apply Z.mod_small. Qed.

Lemma crc8_step_range crc b : 0 <= crc < 256 -> 0 <= b < 256 -> 0 <= crc8_step crc b < 256.
Proof. intros. apply (lfsr_n_range 8); [lia|lia|]. by apply byte_lxor. Qed.

Lemma low_byte x c : 0 <= x < 256 -> (x ^^^ u16 (c << 8)) &&& 0xFF = x.
Proof.
  intros Hx. change 0xFF with (Z.ones 8). rewrite Z.land_ones by lia.
  apply Z.bits_inj'. intros n Hn. destruct (decide (n < 8)).
  - rewrite Z.mod_pow2_bits_low, Z.lxor_spec by lia. unfold u16. change 65536 with (2 ^ 16).
    rewrite (Z.mod_pow2_bits_low _ 16), Z.shiftl_spec_low by lia. by rewrite xorb_false_r.
  - rewrite Z.mod_pow2_bits_high by lia. symmetry. apply (testbit_above _ 8); [exact Hx|lia].
Qed.

Lemma crc8_loop_cons b p crc : 0 <= crc < 256 -> 0 <= b < 256 ->
  crc8_loop (b :: p) crc = crc8_loop p (crc8_step crc b).
Proof.
  intros Hc Hb. unfold crc8_loop at 1; fold crc8_loop. rewrite byte_mask by by apply byte_lxor.
  rewrite table_step by by apply byte_lxor. pose proof (crc8_step_range crc b Hc Hb) as Hr.
  rewrite <- crc8_step_eq. revert Hr. generalize (crc8_step crc b). intros x Hx.
  cbn [mbind option_bind]. by rewrite low_byte.
Qed.

(** The table-driven checksum of AP_Math is the register. *)
Lemma crc8_loop_register p : bytes p -> forall crc, 0 <= crc < 256 ->
  crc8_loop p crc = Some (foldl crc8_step crc p).
Proof.
  induction 1 as [|b p Hb _ IH]; intros crc Hc; cbn [foldl].
  - unfold crc8_loop. by rewrite byte_mask.
  - rewrite crc8_loop_cons by done. apply IH. by apply crc8_step_range.
Qed.

(** A round of the receiver's loop is linear. *)
Lemma st24_bits_lxor n : forall i b c d, 0 <= i -> 0 <= c < 256 -> 0 <= d < 256 ->
  st24_bits n i b (c ^^^ d) = st24_bits n i 0 c ^^^ st24_bits n i b d.
Proof.
  assert (Hstep : forall c, (if nz (c &&& 0x80) then u8 (c << 1) ^^^ 0x07 else u8 (c << 1)) = lfsr 8 7 c).
  { intros c. unfold lfsr, u8. change 0x80 with (2 ^ 7). rewrite nz_land_pow by lia.
    change (2 ^ 8) with 256. change (8 - 1) with 7. destruct (Z.testbit c 7); [done|]. by rewrite Z.lxor_0_r. }
  induction n as [|n IH]; intros i b c d Hi Hc Hd; [done|]. cbn [st24_bits].
  destruct (i =? 0); [done|]. rewrite !Hstep, Z.land_0_l. change (nz 0) with false. cbn iota.
  pose proof (lfsr_range 8 7 ltac:(lia) ltac:(lia) c). pose proof (lfsr_range 8 7 ltac:(lia) ltac:(lia) d).
  rewrite (lfsr_lxor 8 7) by lia. rewrite <- IH.
  - destruct (nz (b &&& i)); [by rewrite Z.lxor_assoc|done].
  - by apply Z.shiftr_nonneg.
  - done.
  - destruct (nz (b &&& i)); [apply byte_lxor; lia|done].
Qed.

Lemma st24_bits_register crc b : 0 <= crc < 256 -> 0 <= b < 256 ->
  st24_bits 9 0x80 b crc = crc8_step crc b.
Proof.
  intros Hc Hb. pose proof (st24_bits_lxor 9 0x80 b crc 0 ltac:(lia) Hc ltac:(lia)) as E.
  rewrite Z.lxor_0_r in E. rewrite E, crc8_step_eq, lfsr_n_lxor by lia. clear E. f_equal.
  - apply Z.eqb_eq. revert crc Hc. apply (forall_range (fun c => st24_bits 9 128 0 c =? lfsr_n 8 7 8 c)).
    vm_compute. reflexivity.
  - apply Z.eqb_eq. revert b Hb. apply (forall_range (fun b => st24_bits 9 128 b 0 =? lfsr_n 8 7 8 b)).
    vm_compute. reflexivity.
Qed.

Lemma crc8_fold_range p : bytes p -> forall crc, 0 <= crc < 256 ->
  0 <= foldl crc8_step crc p < 256.
Proof.
  induction 1 as [|b p Hb _ IH]; intros crc Hc; [exact Hc|]. apply (IH (crc8_step crc b)).
  by apply crc8_step_range.
Qed.

Lemma st24_crc8_fold p : bytes p -> forall crc, 0 <= crc < 256 ->
  foldl (fun crc b => st24_bits 9 0x80 b crc) crc p = foldl crc8_step crc p.
Proof.
  induction 1 as [|b p Hb _ IH]; intros crc Hc; cbn [foldl]; [reflexivity|].
  rewrite (st24_bits_register crc b) by done. apply (IH (crc8_step crc b)).
  by apply crc8_step_range.
Qed.

(** A change of one byte changes the register. *)
Lemma crc8_fold_inj p : bytes p -> forall c d, 0 <= c < 256 -> 0 <= d < 256 ->
  foldl crc8_step c p = foldl crc8_step d p -> c = d.
Proof.
  induction 1 as [|b p Hb _ IH]; intros c d Hc Hd E; [done|]. simpl in E.
  apply IH in E; [|by apply crc8_step_range..].
  rewrite !crc8_step_eq in E. apply (lfsr_n_inj 8 7) in E; [|lia|lia|done|by apply byte_lxor..].
  rewrite <- (Z.lxor_0_r c), <- (Z.lxor_nilpotent b), <- Z.lxor_assoc, E.
  by rewrite Z.lxor_assoc, Z.lxor_nilpotent, Z.lxor_0_r.
Qed.

Lemma crc8_byte_inj crc a b : 0 <= crc < 256 -> 0 <= a < 256 -> 0 <= b < 256 ->
  crc8_step crc a = crc8_step crc b -> a = b.
Proof.
  intros Hc Ha Hb E. rewrite !crc8_step_eq in E. apply (lfsr_n_inj 8 7) in E; [|lia|lia|done|by apply byte_lxor..].
  rewrite <- (Z.lxor_0_l a), <- (Z.lxor_nilpotent crc), Z.lxor_assoc, E.
  by rewrite <- Z.lxor_assoc, Z.lxor_nilpotent, Z.lxor_0_l.
Qed.
End crc8.

(** ** The 16-bit checksum *)
Section crc16.
Implicit Types (b crc : Z) (p : list Z).

Lemma crc16_bits_register n : forall crc, 0 <= crc < 65536 ->
  crc16_bits n crc = lfsr_n 16 0x1021 n crc.
Proof.
  induction n as [|n IH]; intros crc Hc; [done|]. unfold lfsr_n. rewrite Nat.iter_succ_r.
  fold (lfsr_n 16 0x1021 n (lfsr 16 0x1021 crc)). cbn [crc16_bits].
  rewrite <- IH by (apply (lfsr_range 16); lia). f_equal. unfold lfsr, u16.
  change 0x8000 with (2 ^ 15). rewrite nz_land_pow by lia. change (16 - 1) with 15.
  change 65536 with (2 ^ 16). destruct (Z.testbit crc 15); [|by rewrite Z.lxor_0_r].
  by rewrite lxor_mod by lia.
Qed.

Definition crc16_step crc b : Z := lfsr_n 16 0x1021 8 (crc ^^^ (b << 8)).

Lemma crc16_step_eq crc b : crc16_step crc b = lfsr_n 16 0x1021 8 (crc ^^^ (b << 8)).
Proof. unfold crc16_step. reflexivity. Qed.

Lemma word_lxor x y : 0 <= x < 65536 -> 0 <= y < 65536 -> 0 <= x ^^^ y < 65536.
Proof. apply (lxor_pow2_range 16). lia. Qed.

Lemma byte_shift b : 0 <= b < 256 -> 0 <= b << 8 < 65536.
Proof. intros Hb. rewrite Z.shiftl_mul_pow2 by lia. lia. Qed.

Lemma sumd_crc16_register crc b : 0 <= crc < 65536 -> 0 <= b < 256 ->
  sumd_crc16 crc b = crc16_step crc b.
Proof.
  intros Hc Hb. unfold sumd_crc16. pose proof (byte_shift b Hb). rewrite u16_small by done.
  rewrite crc16_step_eq. apply crc16_bits_register. by apply word_lxor.
Qed.

Lemma crc16_step_range crc b : 0 <= crc < 65536 -> 0 <= b < 256 -> 0 <= crc16_step crc b < 65536.
Proof. intros. apply (lfsr_n_range 16); [lia|lia|]. apply word_lxor; [done|by apply byte_shift]. Qed.

Lemma crc16_fold_range p : bytes p -> forall crc, 0 <= crc < 65536 ->
  0 <= foldl crc16_step crc p < 65536.
Proof. induction 1 as [|b p Hb _ IH]; intros crc Hc; [done|]. apply IH. by apply crc16_step_range. Qed.

Lemma sumd_crc16_fold p : bytes p -> forall crc, 0 <= crc < 65536 ->
  foldl sumd_crc16 crc p = foldl crc16_step crc p.
Proof.
  induction 1 as [|b p Hb _ IH]; intros crc Hc; [done|]. simpl.
  rewrite sumd_crc16_register by done. apply IH. by apply crc16_step_range.
Qed.

(** Two bytes at once. *)
Lemma crc16_two crc a b : 0 <= crc < 65536 -> 0 <= a < 256 -> 0 <= b < 256 ->
  crc16_step (crc16_step crc a) b = lfsr_n 16 0x1021 16 (crc ^^^ (a * 256 + b)).
Proof.
  intros Hc Ha Hb. rewrite !crc16_step_eq.
  assert (E : a * 256 + b = (a << 8) ^^^ b).
  { pose proof (Z.add_lor_land (a << 8) b) as H. pose proof (Z.lxor_lor (a << 8) b) as H'.
    assert (Hl : (a << 8) &&& b = 0).
    { apply Z.bits_inj'. intros n Hn. rewrite Z.land_spec, Z.bits_0, Z.shiftl_spec by done.
      destruct (decide (n < 8)); [by rewrite Z.testbit_neg_r by lia|].
      rewrite (testbit_above b 8) by lia. apply andb_false_r. }
    rewrite H' by done. rewrite Z.shiftl_mul_pow2 in * by lia. lia. }
  rewrite E, <- Z.lxor_assoc, (lfsr_n_lxor 16 0x1021 ltac:(lia) 16).
  assert (Eb : lfsr_n 16 0x1021 16 b = lfsr_n 16 0x1021 8 (b << 8)).
  { pose proof (lfsr_n_shift 16 0x1021 ltac:(lia) 8 b ltac:(lia) ltac:(lia)) as Es.
    change (b << Z.of_nat 8) with (b << 8) in Es. rewrite <- Es, lfsr_n_add. reflexivity. }
  rewrite Eb, lfsr_n_lxor, lfsr_n_add by lia. reflexivity.
Qed.

(** The burst of two bytes: bytes that differ in two neighbours at most and have
    the same checksum are the same. *)
Lemma crc16_fold_inj p : bytes p -> forall c d, 0 <= c < 65536 -> 0 <= d < 65536 ->
  foldl crc16_step c p = foldl crc16_step d p -> c = d.
Proof.
  induction 1 as [|b p Hb _ IH]; intros c d Hc Hd E; [done|]. simpl in E.
  apply IH in E; [|by apply crc16_step_range..].
  rewrite !crc16_step_eq in E. apply (lfsr_n_inj 16 0x1021) in E;
    [|lia|lia|done|apply word_lxor; [done|by apply byte_shift]..].
  rewrite <- (Z.lxor_0_r c), <- (Z.lxor_nilpotent (b << 8)), <- Z.lxor_assoc, E.
  by rewrite Z.lxor_assoc, Z.lxor_nilpotent, Z.lxor_0_r.
Qed.

Lemma crc16_burst crc p a b a' b' q : 0 <= crc < 65536 -> bytes p -> bytes q ->
  bytes [a; b; a'; b'] ->
  foldl crc16_step crc (p ++ a :: b :: q) = foldl crc16_step crc (p ++ a' :: b' :: q) ->
  a = a' /\ b = b'.
Proof.
  intros Hc Hp Hq Hab. rewrite !foldl_app. pose proof (crc16_fold_range p Hp crc Hc) as Hr.
  revert Hr. generalize (foldl crc16_step crc p). intros c Hr. simpl foldl.
  unfold bytes in Hab. rewrite !Forall_cons in Hab. destruct Hab as (Ha&Hb&Ha'&Hb'&_).
  intros E. apply crc16_fold_inj in E; [|done|by repeat apply crc16_step_range..].
  rewrite !crc16_two in E by done.
  assert (Hx : forall x y, 0 <= x < 256 -> 0 <= y < 256 -> 0 <= x * 256 + y < 65536) by lia.
  apply (lfsr_n_inj 16 0x1021) in E; [|lia|lia|done|apply word_lxor; auto..].
  assert (E' : a * 256 + b = a' * 256 + b'); [|lia].
  rewrite <- (Z.lxor_0_l (a * 256 + b)), <- (Z.lxor_nilpotent c), Z.lxor_assoc, E.
  by rewrite <- Z.lxor_assoc, Z.lxor_nilpotent, Z.lxor_0_l.
Qed.

(** The checksum of a message followed by its checksum is zero. *)
Lemma crc16_append crc a b : 0 <= crc < 65536 -> 0 <= a < 256 -> 0 <= b < 256 ->
  crc = a * 256 + b <-> crc16_step (crc16_step crc a) b = 0.
Proof.
  intros Hc Ha Hb. rewrite crc16_two by done. split.
  - intros ->. rewrite Z.lxor_nilpotent. by apply lfsr_n_0.
  - intros E. apply Z.lxor_eq. apply (lfsr_n_inj 16 0x1021 ltac:(lia) ltac:(lia) 16);
      [done|apply word_lxor; lia|lia|]. by rewrite E, lfsr_n_0.
Qed.
End crc16.

(** C40. The checksums.  AP_Math's table-driven CRC-8 and the bitwise one of the
    ST24 receiver are the same function; it tells apart any two messages that
    differ in one byte.  The CRC-16 of the SRXL receiver tells apart any two
    messages that differ in two neighbouring bytes at most. *)
Theorem checksums p q : bytes p -> bytes q ->
  crc_crc8 p = Some (st24_common_crc8 p) /\
  (forall a b, bytes [a; b] ->
     st24_common_crc8 (p ++ a :: q) = st24_common_crc8 (p ++ b :: q) -> a = b) /\
  (forall a b a' b', bytes [a; b; a'; b'] ->
     foldl srxl_crc16 0 (p ++ a :: b :: q) = foldl srxl_crc16 0 (p ++ a' :: b' :: q) ->
     a = a' /\ b = b').
Proof.
  intros Hp Hq. split; [|split].
  - unfold crc_crc8, st24_common_crc8. by rewrite crc8_loop_register, st24_crc8_fold by (done || lia).
  - intros a b Hab. apply Forall_cons in Hab as [Ha [Hb _]%Forall_cons].
    assert (Hx : forall x, 0 <= x < 256 -> bytes (p ++ x :: q)).
    { intros x Hx. apply Forall_app. split; [done|]. by constructor. }
    unfold st24_common_crc8. rewrite !st24_crc8_fold by (auto || lia). rewrite !foldl_app.
    pose proof (crc8_fold_range p Hp 0 ltac:(lia)) as Hr. revert Hr.
    generalize (foldl crc8_step 0 p). intros c Hr. cbn [foldl]. intros E.
    apply crc8_fold_inj in E; [|done|by apply crc8_step_range..]. by apply crc8_byte_inj in E.
  - intros a b a' b' Hab. change srxl_crc16 with sumd_crc16. pose proof Hab as Hab'.
    unfold bytes in Hab'. rewrite !Forall_cons in Hab'. destruct Hab' as (Ha&Hb&Ha'&Hb'&_).
    assert (Hx : forall x y, 0 <= x < 256 -> 0 <= y < 256 -> bytes (p ++ x :: y :: q)).
    { intros x y Hx Hy. apply Forall_app. split; [done|]. by repeat (apply Forall_cons; split). }
    rewrite !sumd_crc16_fold by (auto || lia). by apply crc16_burst; [lia|..].
Qed.

Lemma checksums_witness : crc_crc8 [49; 50; 51] = Some (st24_common_crc8 [49; 50; 51]) /\
  st24_common_crc8 [49; 50; 51] = 192.
Proof.
  destruct (checksums [49; 50; 51] []) as (E&_).
  - repeat constructor; lia.
  - constructor.
  - split; [exact E|vm_compute; reflexivity].
Defined.
