(* ===== verification/RCDecoders.v ===== *)
(** Radio receiver protocols decoded from pulse widths: libraries/AP_RCProtocol
    (the front end, the common backend, PPM-sum, SBUS and DSM).

    [None] is undefined behaviour: an access outside an array, or the use of a
    value outside the range of a conversion.  The content of an uninitialised
    local array is a parameter. *)
From S2P Require Import Prelude Float32.
Open Scope urus_scope.

Definition MAX_RCIN_CHANNELS : Z := 16.
Definition MIN_RCIN_CHANNELS : Z := 5.

(** * AP_RCProtocol_Backend *)
Module Backend.
Record t := mk {
  rc_input_count : Z;
  last_rc_input_count : Z;
  _pwm_values : list Z;
  _num_channels : Z
}.

Definition create : t := mk 0 0 (replicate 16 0) 0.

Definition new_input (b : t) : bool * t :=
  let ret := negb (rc_input_count b =? last_rc_input_count b) in
  if ret then (ret, mk (rc_input_count b) (rc_input_count b) (_pwm_values b) (_num_channels b))
  else (ret, b).

Definition num_channels (b : t) : Z := _num_channels b.

Definition read (b : t) (chan : Z) : option Z := arr_get (_pwm_values b) chan.

Definition add_input (b : t) (num_values : Z) (values : list Z) (in_failsafe : bool)
  : option t :=
  let n := Z.min num_values MAX_RCIN_CHANNELS in
  vs ← blk_get values 0 n;
  pwm ← blk_set (_pwm_values b) 0 vs;
  Some (mk (if in_failsafe then rc_input_count b else u32 (rc_input_count b + 1))
           (last_rc_input_count b) pwm n).
End Backend.

(** * AP_RCProtocol_PPMSum *)
Module PPMSum.
Record t := mk {
  base : Backend.t;
  _channel_counter : Z;      (* int8_t; -1 when not synchronised *)
  _pulse_capt : list Z
}.

Definition create : t := mk Backend.create 0 (replicate 16 0).

Definition process_pulse (s : t) (width_s0 width_s1 : Z) : option t :=
  let width_usec := u32 (width_s0 + width_s1) in
  if width_usec >=? 2700 then
    b ← (if _channel_counter s >=? MIN_RCIN_CHANNELS
         then Backend.add_input (base s) (u8 (_channel_counter s)) (_pulse_capt s) false
         else Some (base s));
    Some (mk b 0 (_pulse_capt s))
  else if _channel_counter s =? -1 then Some s
  else
    s ← (if (width_usec >? 700) && (width_usec <? 2300) then
           capt ← arr_set (_pulse_capt s) (_channel_counter s) (u16 width_usec);
           Some (mk (base s) (i8 (_channel_counter s + 1)) capt)
         else Some s);
    if _channel_counter s >=? MAX_RCIN_CHANNELS then
      b ← Backend.add_input (base s) (u8 (_channel_counter s)) (_pulse_capt s) false;
      Some (mk b (-1) (_pulse_capt s))
    else Some s.
End PPMSum.

(** * AP_RCProtocol_SBUS *)
Module SBUS.
Definition SBUS_FRAME_SIZE : Z := 25.
Definition SBUS_INPUT_CHANNELS : Z := 16.
Definition SBUS_FLAGS_BYTE : Z := 23.
Definition SBUS_FAILSAFE_BIT : Z := 3.
Definition SBUS_FRAMELOST_BIT : Z := 2.

Definition SBUS_RANGE_MIN := f32_of_Z 200.
Definition SBUS_RANGE_MAX := f32_of_Z 1800.
Definition SBUS_TARGET_MIN := f32_of_Z 1000.
Definition SBUS_TARGET_MAX := f32_of_Z 2000.
Definition half := f32_lit 1 (-1).
Definition SBUS_SCALE_FACTOR :=
  ((SBUS_TARGET_MAX - SBUS_TARGET_MIN) / (SBUS_RANGE_MAX - SBUS_RANGE_MIN))%f32.
Definition SBUS_SCALE_OFFSET : option Z :=
  f32_trunc (SBUS_TARGET_MIN - (SBUS_SCALE_FACTOR * SBUS_RANGE_MIN + half))%f32.

Record sbus_bit_pick := pick { p_byte : Z; rshift : Z; mask : Z; lshift : Z }.
Definition none := pick 0 0 0 0.

Definition sbus_decoder : list (list sbus_bit_pick) := [
  [pick 0 0 0xff 0; pick 1 0 0x07 8; none];
  [pick 1 3 0x1f 0; pick 2 0 0x3f 5; none];
  [pick 2 6 0x03 0; pick 3 0 0xff 2; pick 4 0 0x01 10];
  [pick 4 1 0x7f 0; pick 5 0 0x0f 7; none];
  [pick 5 4 0x0f 0; pick 6 0 0x7f 4; none];
  [pick 6 7 0x01 0; pick 7 0 0xff 1; pick 8 0 0x03 9];
  [pick 8 2 0x3f 0; pick 9 0 0x1f 6; none];
  [pick 9 5 0x07 0; pick 10 0 0xff 3; none];
  [pick 11 0 0xff 0; pick 12 0 0x07 8; none];
  [pick 12 3 0x1f 0; pick 13 0 0x3f 5; none];
  [pick 13 6 0x03 0; pick 14 0 0xff 2; pick 15 0 0x01 10];
  [pick 15 1 0x7f 0; pick 16 0 0x0f 7; none];
  [pick 16 4 0x0f 0; pick 17 0 0x7f 4; none];
  [pick 17 7 0x01 0; pick 18 0 0xff 1; pick 19 0 0x03 9];
  [pick 19 2 0x3f 0; pick 20 0 0x1f 6; none];
  [pick 20 5 0x07 0; pick 21 0 0xff 3; none]
].

(** The loop over the picks of a channel. *)
Fixpoint pick_value (frame : list Z) (picks : list sbus_bit_pick) (value : Z) : option Z :=
  match picks with
  | [] => Some value
  | d :: picks =>
    if negb (mask d =? 0) then
      x ← arr_get frame (1 + p_byte d);
      let piece := x >> rshift d in
      let piece := piece &&& mask d in
      let piece := u32 (piece << lshift d) in
      pick_value frame picks (value ||| piece)
    else pick_value frame picks value
  end.

(** 0-2048 values to 1000-2000. *)
Definition scale (value : Z) : option Z :=
  x ← f32_to_uint16 (f32_of_Z value * SBUS_SCALE_FACTOR + half)%f32;
  o ← SBUS_SCALE_OFFSET;
  Some (u16 (x + o)).

(** The loop over the channels, from [channel] on. *)
Fixpoint decode_channels (frame : list Z) (n : nat) (channel : Z) (values : list Z)
  : option (list Z) :=
  match n with
  | O => Some values
  | S n =>
    picks ← arr_get sbus_decoder channel;
    value ← pick_value frame picks 0;
    x ← scale value;
    values ← arr_set values channel x;
    decode_channels frame n (channel + 1) values
  end.

Record decoded := Decoded {
  values : list Z; num_values : Z; sbus_failsafe : bool; sbus_frame_drop : bool
}.

(** [sbus_decode] into the array [vals]; the outer [None] is undefined
    behaviour, the inner one the result false. *)
Definition sbus_decode (frame : list Z) (vals : list Z) (max_values : Z)
  : option (option decoded) :=
  b0 ← arr_get frame 0;
  if negb (b0 =? 0x0f) then Some None
  else
    let chancount := if max_values >? SBUS_INPUT_CHANNELS
                     then SBUS_INPUT_CHANNELS else max_values in
    vals ← decode_channels frame (Z.to_nat chancount) 0 vals;
    flags ← arr_get frame SBUS_FLAGS_BYTE;
    '(chancount, vals) ←
      (if (max_values >? 17) && (chancount >? 15) then
         vals ← arr_set vals 16 (u16 ((flags &&& 1) * 1000 + 998));
         vals ← arr_set vals 17 (u16 ((flags &&& 2) * 1000 + 998));
         Some (18, vals)
       else Some (chancount, vals));
    if nz (flags &&& (1 << SBUS_FAILSAFE_BIT)) then
      Some (Some (Decoded vals chancount true true))
    else if nz (flags &&& (1 << SBUS_FRAMELOST_BIT)) then
      Some (Some (Decoded vals chancount false true))
    else Some (Some (Decoded vals chancount false false)).

Record t := mk {
  base : Backend.t;
  bytes : list Z;       (* 25 words: start bit, data, parity and stop bits *)
  bit_ofs : Z
}.

Definition create : t := mk Backend.create (replicate 25 0) 0.

Definition reset (s : t) : t := mk (base s) (replicate 25 0) 0.

(** Bits 1 to 8 of [v], xor-ed. *)
Fixpoint parity_from (n : nat) (j v parity : Z) : Z :=
  match n with
  | O => parity
  | S n => parity_from n (j + 1) v (parity ^^^ (if nz (v &&& (1 << j)) then 1 else 0))
  end.

(** The loop that checks and extracts the bytes; the inner [None] is
    [goto reset]. *)
Fixpoint get_bytes (words : list Z) (out : list Z) : option (list Z) :=
  match words with
  | [] => Some out
  | w :: words =>
    let v := u16 (Z.lnot w) in
    if nz (v &&& 1) then None
    else if negb ((v &&& 0xC00) =? 0xC00) then None
    else
      let parity := parity_from 8 1 v 0 in
      if negb (parity =? ((v &&& 0x200) >> 9)) then None
      else get_bytes words (out ++ [(v >> 1) &&& 0xFF])
  end.

(** The end of a full frame: everything up to [goto reset]. *)
Definition full_frame (s : t) (vals : list Z) : option t :=
  match get_bytes (bytes s) [] with
  | None => Some (reset s)
  | Some bs =>
    r ← sbus_decode bs vals MAX_RCIN_CHANNELS;
    match r with
    | Some d =>
      if num_values d >=? MIN_RCIN_CHANNELS then
        b ← Backend.add_input (base s) (u8 (num_values d)) (values d) (sbus_failsafe d);
        Some (reset (mk b (bytes s) (bit_ofs s)))
      else Some (reset s)
    | None => Some (reset s)
    end
  end.

(** [process_pulse]; [vals] is the content of its local array of values. *)
Definition process_pulse (vals : list Z) (s : t) (width_s0 width_s1 : Z) : option t :=
  let bits_s0 := u16 (u32 (width_s0 + 1) / 10) in
  let bits_s1 := u16 (u32 (width_s1 + 1) / 10) in
  let byte_ofs := u8 (bit_ofs s / 12) in
  let bit := u8 (bit_ofs s mod 12) in
  if (bits_s0 =? 0) || (bits_s1 =? 0) then Some (reset s)
  else if bits_s0 + bit >? 10 then Some (reset s)
  else
    w ← arr_get (bytes s) byte_ofs;
    bs ← arr_set (bytes s) byte_ofs (u16 (w ||| u32 ((u32 (1 << bits_s0) - 1) << bit)));
    let ofs := u16 (bit_ofs s + bits_s0) in
    let bit := u8 (bit + bits_s0) in
    let nlow := bits_s1 in
    let nlow := if nlow + bit >? 12 then u16 (12 - bit) else nlow in
    let bits_s1 := u16 (bits_s1 - nlow) in
    let ofs := u16 (ofs + nlow) in
    let s := mk (base s) bs ofs in
    if (ofs =? 25 * 12) && (bits_s1 >? 12) then full_frame s vals
    else if bits_s1 >? 12 then Some (reset s)
    else Some s.
End SBUS.

(** * AP_RCProtocol_DSM *)
Module DSM.
Definition DSM_FRAME_CHANNELS : Z := 7.

(** The statics [cs10], [cs11] and [samples] of [dsm_guess_format] are fields
    here; one decoder exists. *)
Record t := mk {
  base : Backend.t;
  dsm_last_frame_time : Z;
  dsm_channel_shift : Z;   (* 0 = unknown, 10 or 11 *)
  cs10 : Z;
  cs11 : Z;
  samples : Z;
  bytes : list Z;          (* 16 words: start bit, data and stop bit *)
  bit_ofs : Z
}.

Definition create : t := mk Backend.create 0 0 0 0 0 (replicate 16 0) 0.

Definition set_state (s : t) (bs : list Z) (ofs : Z) : t :=
  mk (base s) (dsm_last_frame_time s) (dsm_channel_shift s) (cs10 s) (cs11 s) (samples s) bs ofs.
Definition reset (s : t) : t := set_state s (replicate 16 0) 0.

Definition set_guess (s : t) (shift c10 c11 n : Z) : t :=
  mk (base s) (dsm_last_frame_time s) shift c10 c11 n (bytes s) (bit_ofs s).
Definition set_time (s : t) (time : Z) : t :=
  mk (base s) time (dsm_channel_shift s) (cs10 s) (cs11 s) (samples s) (bytes s) (bit_ofs s).
Definition set_base (s : t) (b : Backend.t) : t :=
  mk b (dsm_last_frame_time s) (dsm_channel_shift s) (cs10 s) (cs11 s) (samples s)
     (bytes s) (bit_ofs s).

(** Channel number and value, or [None] for the result false. *)
Definition dsm_decode_channel (raw shift : Z) : option (Z * Z) :=
  if raw =? 0xffff then None
  else
    let channel := (raw >> shift) &&& 0xf in
    let data_mask := u16 ((1 << shift) - 1) in
    Some (channel, raw &&& data_mask).

(** The raw value of channel slot [i] of a frame. *)
Definition raw_at (frame : list Z) (i : Z) : option Z :=
  hi ← arr_get frame (2 + 2 * i);
  lo ← arr_get frame (2 + 2 * i + 1);
  Some (u16 ((hi << 8) ||| lo)).

(** [if (dsm_decode_channel(raw, shift, ...) && channel < 31) cs |= 1 << channel] *)
Definition sniff (raw shift cs : Z) : Z :=
  match dsm_decode_channel raw shift with
  | Some (channel, _) => if channel <? 31 then cs ||| (1 << channel) else cs
  | None => cs
  end.

Fixpoint scan_channels (frame : list Z) (n : nat) (i c10 c11 : Z) : option (Z * Z) :=
  match n with
  | O => Some (c10, c11)
  | S n =>
    raw ← raw_at frame i;
    scan_channels frame n (i + 1) (sniff raw 10 c10) (sniff raw 11 c11)
  end.

Definition masks : list Z := [0x3f; 0x7f; 0xff; 0x1ff; 0x3ff; 0x1fff; 0x3fff].

Definition votes (cs : Z) : Z :=
  fold_left (fun v m => if cs =? m then v + 1 else v) masks 0.

Definition dsm_guess_format (rst : bool) (frame : list Z) (s : t) : option t :=
  if rst then Some (set_guess s 0 0 0 0)
  else
    '(c10, c11) ← scan_channels frame (Z.to_nat DSM_FRAME_CHANNELS) 0 (cs10 s) (cs11 s);
    let n := samples s in
    let s := set_guess s (dsm_channel_shift s) c10 c11 (u32 (n + 1)) in
    if n <? 5 then Some s
    else
      let votes10 := votes c10 in
      let votes11 := votes c11 in
      if (votes11 =? 1) && (votes10 =? 0) then Some (set_guess s 11 c10 c11 (samples s))
      else if (votes10 =? 1) && (votes11 =? 0) then Some (set_guess s 10 c10 c11 (samples s))
      else Some (set_guess s 0 0 0 0).

(** The servo pulse of a raw value; the division truncates toward zero. *)
Definition scale (value : Z) : Z := u32 (Z.quot ((value - 1024) * 1000) 1700 + 1500).

(** The receiver sends throttle first. *)
Definition remap (channel : Z) : Z :=
  if channel =? 0 then 2 else if channel =? 1 then 0 else if channel =? 2 then 1 else channel.

(** The loop over the channel slots. *)
Fixpoint decode_slots (frame : list Z) (shift max_values : Z) (n : nat) (i : Z)
    (values : list Z) (num_values : Z) : option (list Z * Z) :=
  match n with
  | O => Some (values, num_values)
  | S n =>
    raw ← raw_at frame i;
    match dsm_decode_channel raw shift with
    | None => decode_slots frame shift max_values n (i + 1) values num_values
    | Some (channel, value) =>
      if channel >=? max_values
      then decode_slots frame shift max_values n (i + 1) values num_values
      else
        let num_values := if channel >=? num_values then u16 (channel + 1) else num_values in
        let value := if shift =? 10 then value * 2 else value in
        values ← arr_set values (remap channel) (u16 (scale value));
        decode_slots frame shift max_values n (i + 1) values num_values
    end
  end.

(** [dsm_decode] at [frame_time]; the result is the array and the number of
    values, or [None] for false. *)
Definition dsm_decode (frame_time : Z) (frame vals : list Z) (max_values : Z) (s : t)
  : option (t * option (list Z * Z)) :=
  s ← (if (u64 (frame_time - dsm_last_frame_time s) >? 1000000) &&
          negb (dsm_channel_shift s =? 0)
       then dsm_guess_format true frame s else Some s);
  let s := set_time s frame_time in
  if dsm_channel_shift s =? 0 then
    s ← dsm_guess_format false frame s;
    Some (s, None)
  else
    '(vals, n) ← decode_slots frame (dsm_channel_shift s) max_values
                   (Z.to_nat DSM_FRAME_CHANNELS) 0 vals 0;
    let n := if n =? 13 then 12 else n in
    Some (s, Some (vals, n)).

(** The check of the bytes; [None] is [goto reset]. *)
Fixpoint get_bytes (words : list Z) (out : list Z) : option (list Z) :=
  match words with
  | [] => Some out
  | v :: words =>
    if nz (v &&& 1) then None
    else if negb ((v &&& 0x200) =? 0x200) then None
    else get_bytes words (out ++ [(v >> 1) &&& 0xFF])
  end.

(** The full frame: the new state, and whether [goto reset] was taken. *)
Definition full_frame (micros64 : Z) (vals : list Z) (s : t) : option (t * bool) :=
  match get_bytes (bytes s) [] with
  | None => Some (s, true)
  | Some bs =>
    '(s, r) ← dsm_decode micros64 bs vals 8 s;
    match r with
    | Some (vs, n) =>
      if n >=? MIN_RCIN_CHANNELS then
        b ← Backend.add_input (base s) (u8 n) vs false;
        Some (set_base s b, false)
      else Some (s, false)
    | None => Some (s, false)
    end
  end.

Definition bits_of (width : Z) : Z := u16 (u32 (u32 (width + 4) * 115200) / 1000000).

(** The second half of [process_pulse]: the low bits. *)
Definition low_bits (s : t) (bits_s1 : Z) : t :=
  let bit := u8 (bit_ofs s mod 10) in
  if bits_s1 + bit >? 10 then reset s
  else set_state s (bytes s) (u16 (bit_ofs s + bits_s1)).

Definition process_pulse (micros64 : Z) (vals : list Z) (s : t) (width_s0 width_s1 : Z)
  : option t :=
  let bits_s0 := bits_of width_s0 in
  let bits_s1 := bits_of width_s1 in
  if (bits_s0 =? 0) || (bits_s1 =? 0) then Some (reset s)
  else
    let byte_ofs := u8 (bit_ofs s / 10) in
    let bit := u8 (bit_ofs s mod 10) in
    if byte_ofs >? 15 then Some (reset s)
    else
      let nbits := if bits_s0 + bit >? 10 then u16 (10 - bit) else bits_s0 in
      w ← arr_get (bytes s) byte_ofs;
      bs ← arr_set (bytes s) byte_ofs (u16 (w ||| u32 ((u32 (1 << nbits) - 1) << bit)));
      let s := set_state s bs (u16 (bit_ofs s + nbits)) in
      if bits_s0 - nbits >? 10 then
        if bit_ofs s =? 16 * 10 then
          '(s, rst) ← full_frame micros64 vals s;
          Some (if rst : bool then reset s else low_bits (reset s) bits_s1)
        else Some (low_bits (reset s) bits_s1)
      else Some (low_bits s bits_s1).
End DSM.

(** * AP_RCProtocol *)
Module RCProtocol.
(** [enum rcprotocol_t] *)
Inductive rcprotocol_t := PPM | SBUS | DSM | NONE.

#[global] Instance rcprotocol_t_eq_dec : EqDecision rcprotocol_t.
Proof. solve_decision. Defined.

Record t := mk {
  _detected_protocol : rcprotocol_t;
  ppm : PPMSum.t;
  sbus : SBUS.t;
  dsm : DSM.t;
  _new_input : bool;
  _last_input_ms : Z
}.

(** The environment of a call: the clocks, and the contents of the
    uninitialised locals of the two serial decoders. *)
Record env := Env {
  millis : Z;          (* AP_HAL::millis() at the start of the call *)
  millis_end : Z;      (* AP_HAL::millis() after the backend *)
  micros64 : Z;
  sbus_junk : list Z;
  dsm_junk : list Z
}.

(** [backend[p]->process_pulse] followed by [backend[p]->new_input]. *)
Definition backend_pulse (p : rcprotocol_t) (e : env) (s : t) (w0 w1 : Z)
  : option (bool * t) :=
  match p with
  | PPM =>
    b ← PPMSum.process_pulse (ppm s) w0 w1;
    let '(new, base) := Backend.new_input (PPMSum.base b) in
    Some (new, mk (_detected_protocol s)
                 (PPMSum.mk base (PPMSum._channel_counter b) (PPMSum._pulse_capt b))
                 (sbus s) (dsm s) (_new_input s) (_last_input_ms s))
  | SBUS =>
    b ← SBUS.process_pulse (sbus_junk e) (sbus s) w0 w1;
    let '(new, base) := Backend.new_input (SBUS.base b) in
    Some (new, mk (_detected_protocol s) (ppm s)
                 (SBUS.mk base (SBUS.bytes b) (SBUS.bit_ofs b))
                 (dsm s) (_new_input s) (_last_input_ms s))
  | DSM =>
    b ← DSM.process_pulse (micros64 e) (dsm_junk e) (dsm s) w0 w1;
    let '(new, base) := Backend.new_input (DSM.base b) in
    Some (new, mk (_detected_protocol s) (ppm s) (sbus s) (DSM.set_base b base)
                 (_new_input s) (_last_input_ms s))
  | NONE => None
  end.

Definition detected (s : t) : bool :=
  match _detected_protocol s with NONE => false | _ => true end.

(** One iteration of the scan over the backends. *)
Definition scan_one (e : env) (w0 w1 : Z) (s : t) (p : rcprotocol_t) : option t :=
  '(new, s) ← backend_pulse p e s w0 w1;
  Some (if new : bool then mk p (ppm s) (sbus s) (dsm s) true (millis_end e) else s).

Definition process_pulse (e : env) (s : t) (w0 w1 : Z) : option t :=
  if detected s && (u32 (millis e - _last_input_ms s) <? 200) then
    '(new, s) ← backend_pulse (_detected_protocol s) e s w0 w1;
    Some (if new : bool then mk (_detected_protocol s) (ppm s) (sbus s) (dsm s) true (millis_end e)
          else s)
  else
    s ← scan_one e w0 w1 s PPM;
    s ← scan_one e w0 w1 s SBUS;
    scan_one e w0 w1 s DSM.

Definition new_input (s : t) : bool * t :=
  (_new_input s, mk (_detected_protocol s) (ppm s) (sbus s) (dsm s) false (_last_input_ms s)).

(** The base part of the detected backend. *)
Definition backend (s : t) : option Backend.t :=
  match _detected_protocol s with
  | PPM => Some (PPMSum.base (ppm s))
  | SBUS => Some (SBUS.base (sbus s))
  | DSM => Some (DSM.base (dsm s))
  | NONE => None
  end.

Definition num_channels (s : t) : Z :=
  match backend s with Some b => Backend.num_channels b | None => 0 end.

Definition read (s : t) (chan : Z) : option Z :=
  match backend s with Some b => Backend.read b chan | None => Some 0 end.
End RCProtocol.
