(* ===== verification/SerialRC.v ===== *)
(** The decoders of the serial RC receivers, byte by byte:
    libraries/AP_HAL/utility (st24.cpp, sumd.cpp and srxl.cpp).  The static
    variables of each file are a record; the results behind the pointers of a
    decoder are a record of their own.  [None] is undefined behaviour: an access
    outside of an array, or a conversion out of range.  The debug messages of
    sumd.cpp are left out, and so are the fields nothing reads. *)
From S2P Require Import Prelude Float32 Crc.
Open Scope urus_scope.

(** * st24.cpp: Yuneec ST24 *)
Module ST24.
Definition ST24_DATA_LEN_MAX : Z := 64.
Definition ST24_STX1 : Z := 0x55.
Definition ST24_STX2 : Z := 0x55.
Definition ST24_PACKET_TYPE_CHANNELDATA12 : Z := 0.
Definition ST24_PACKET_TYPE_CHANNELDATA24 : Z := 1.
Definition ST24_PACKET_TYPE_TRANSMITTERGPSDATA : Z := 2.

Inductive ST24_DECODE_STATE :=
| UNSYNCED | GOT_STX1 | GOT_STX2 | GOT_LEN | GOT_TYPE | GOT_DATA.

(** [ReceiverFcPacket] *)
Record packet := Packet { length_ : Z; type_ : Z; st24_data : list Z; crc8 : Z }.

Record t := mk { _decode_state : ST24_DECODE_STATE; _rxlen : Z; _rxpacket : packet }.

(** The statics at start. *)
Definition create : t := mk UNSYNCED 0 (Packet 0 0 (replicate 64 0) 0).

(** [*rssi], [*rx_count], [*channel_count] and the array [channels]. *)
Record out := Out { rssi : Z; rx_count : Z; channel_count : Z; channels : list Z }.

Definition ST24_SCALE_FACTOR := (f32_of_Z 1000 / f32_of_Z 4096)%f32.
Definition ST24_SCALE_OFFSET : Z := 999.
Definition half := (f32_of_Z 1 / f32_of_Z 2)%f32.              (* .5f *)

(** [(uint16_t)(x * ST24_SCALE_FACTOR + .5f) + ST24_SCALE_OFFSET] *)
Definition scale (x : Z) : option Z :=
  v ← f32_to_uint16 (f32_of_Z x * ST24_SCALE_FACTOR + half)%f32;
  Some (u16 (v + ST24_SCALE_OFFSET)).

(** [for (unsigned i = 0; i < stride_count; i += 3)], from [i] on, of at most [n]
    rounds. *)
Fixpoint decode_loop (n : nat) (channel : list Z) (stride_count i chan_index : Z)
    (channels : list Z) : option (list Z) :=
  match n with
  | O => Some channels
  | S n =>
    if i <? stride_count then
      b0 ← arr_get channel i;
      b1 ← arr_get channel (i + 1);
      v ← scale (u16 (b0 << 4) ||| ((0xF0 &&& b1) >> 4));
      channels ← arr_set channels chan_index v;
      b2 ← arr_get channel (i + 2);
      v ← scale (b2 ||| ((0x0F &&& b1) << 8));
      channels ← arr_set channels (chan_index + 1) v;
      decode_loop n channel stride_count (i + 3) (chan_index + 2) channels
    else Some channels
  end.

(** The packets of 12 and of 24 channels, [n] of them in [size] bytes. *)
Definition channel_data (n size : Z) (data : list Z) (max_chan_count : Z) (o : out) : option out :=
  rssi ← arr_get data 2;
  packet_count ← arr_get data 3;
  let channel_count := if max_chan_count <? n then max_chan_count else n in
  let stride_count := channel_count * 3 / 2 in
  channel ← blk_get data 4 size;
  channels ← decode_loop (Z.to_nat n) channel stride_count 0 0 (channels o);
  Some (Out rssi packet_count channel_count channels).

Definition set_state (s : t) (st : ST24_DECODE_STATE) : t := mk st (_rxlen s) (_rxpacket s).

Definition st24_decode (byte max_chan_count : Z) (s : t) (o : out) : option (Z * t * out) :=
  let p := _rxpacket s in
  match _decode_state s with
  | UNSYNCED =>
    if byte =? ST24_STX1 then Some (1, set_state s GOT_STX1, o) else Some (3, s, o)
  | GOT_STX1 =>
    if byte =? ST24_STX2 then Some (1, set_state s GOT_STX2, o)
    else Some (1, set_state s UNSYNCED, o)
  | GOT_STX2 =>
    if byte <=? 1 + 1 + ST24_DATA_LEN_MAX then
      Some (1, mk GOT_LEN 0 (Packet byte (type_ p) (st24_data p) (crc8 p)), o)
    else Some (1, set_state s UNSYNCED, o)
  | GOT_LEN =>
    Some (1, mk GOT_TYPE (u8 (_rxlen s + 1)) (Packet (length_ p) byte (st24_data p) (crc8 p)), o)
  | GOT_TYPE =>
    data ← arr_set (st24_data p) (_rxlen s - 1) byte;
    let rxlen := u8 (_rxlen s + 1) in
    Some (1, mk (if rxlen =? length_ p - 1 then GOT_DATA else GOT_TYPE) rxlen
               (Packet (length_ p) (type_ p) data (crc8 p)), o)
  | GOT_DATA =>
    let rxlen := u8 (_rxlen s + 1) in
    let s := mk UNSYNCED rxlen (Packet (length_ p) (type_ p) (st24_data p) byte) in
    covered ← blk_get (length_ p :: type_ p :: st24_data p) 0 rxlen;
    if st24_common_crc8 covered =? byte then
      if type_ p =? ST24_PACKET_TYPE_CHANNELDATA12 then
        o ← channel_data 12 18 (st24_data p) max_chan_count o; Some (0, s, o)
      else if type_ p =? ST24_PACKET_TYPE_CHANNELDATA24 then
        o ← channel_data 24 36 (st24_data p) max_chan_count o; Some (0, s, o)
      else Some (2, s, o)
    else Some (4, s, o)
  end.
End ST24.

(** * sumd.cpp: Graupner HoTT SUMD and SUMH *)
Module SUMD.
Definition SUMD_MAX_CHANNELS : Z := 32.
Definition SUMD_HEADER_ID : Z := 0xA8.
Definition SUMD_ID_SUMH : Z := 0x00.
Definition SUMD_ID_SUMD : Z := 0x01.

(** [ReceiverFcPacketHoTT] *)
Record packet := Packet { length_ : Z; sumd_data : list Z; crc16_high : Z; crc16_low : Z }.

Inductive SUMD_DECODE_STATE :=
| UNSYNCED | GOT_HEADER | GOT_STATE | GOT_LEN | GOT_DATA | GOT_CRC
| GOT_CRC16_BYTE_1 | GOT_CRC16_BYTE_2.

Record t := mk {
  _crc8 : Z; _crc16 : Z; _sumd : bool; _crcOK : bool;
  _decode_state : SUMD_DECODE_STATE; _rxlen : Z; _rxpacket : packet
}.

Definition create : t := mk 0 0 true false UNSYNCED 0 (Packet 0 (replicate 64 0) 0 0).

Record out := Out { rssi : Z; rx_count : Z; channel_count : Z; channels : list Z }.

(** The byte added to the checksum of the frame's kind, and the next state. *)
Definition checksum (s : t) (byte : Z) (st : SUMD_DECODE_STATE) (rxlen : Z) (p : packet) : t :=
  if _sumd s
  then mk (_crc8 s) (sumd_crc16 (_crc16 s) byte) true (_crcOK s) st rxlen p
  else mk (sumd_crc8 (_crc8 s) byte) (_crc16 s) false (_crcOK s) st rxlen p.

(** [(uint16_t)((sumd_data[i*2+1] << 8) | sumd_data[i*2+2]) >> 3] *)
Definition channel (data : list Z) (i : Z) : option Z :=
  hi ← arr_get data (i * 2 + 1);
  lo ← arr_get data (i * 2 + 2);
  Some (u16 ((hi << 8) ||| lo) >> 3).

Definition put_channel (data channels : list Z) (k i : Z) : option (list Z) :=
  v ← channel data i; arr_set channels k v.

(** The channels from [i] on, [n] of them. *)
Fixpoint rest (n : nat) (data : list Z) (i : Z) (channels : list Z) : option (list Z) :=
  match n with
  | O => Some channels
  | S n => channels ← put_channel data channels i i; rest n data (i + 1) channels
  end.

Definition decode_channels (len : Z) (data channels : list Z) : option (list Z) :=
  channels ← put_channel data channels 0 1;
  channels ← put_channel data channels 1 2;
  channels ← put_channel data channels 2 0;
  channels ← put_channel data channels 3 3;
  rest (Z.to_nat (len - 4)) data 4 channels.

Definition set_state (s : t) (st : SUMD_DECODE_STATE) (p : packet) : t :=
  mk (_crc8 s) (_crc16 s) (_sumd s) (_crcOK s) st (_rxlen s) p.

(** The last byte of a frame. *)
Definition finish (byte max_chan_count : Z) (s : t) (o : out) : option (Z * t * out) :=
  let p := _rxpacket s in
  let p := if _sumd s then Packet (length_ p) (sumd_data p) (crc16_high p) byte else p in
  let ok := _crcOK s || (if _sumd s then _crc16 s =? u16 (crc16_high p << 8) + crc16_low p
                         else _crc8 s =? byte) in
  let s := mk (_crc8 s) (_crc16 s) (_sumd s) ok UNSYNCED (_rxlen s) p in
  if ok then
    let len := if length_ p >? max_chan_count then u8 max_chan_count else length_ p in
    channels ← decode_channels len (sumd_data p) (channels o);
    Some (0, mk (_crc8 s) (_crc16 s) (_sumd s) ok UNSYNCED (_rxlen s)
               (Packet len (sumd_data p) (crc16_high p) (crc16_low p)),
          Out 100 (u8 (rx_count o + 1)) len channels)
  else Some (4, s, o).

Definition sumd_decode (byte max_chan_count : Z) (s : t) (o : out) : option (Z * t * out) :=
  let p := _rxpacket s in
  match _decode_state s with
  | UNSYNCED =>
    if byte =? SUMD_HEADER_ID then
      Some (1, mk (sumd_crc8 0 byte) (sumd_crc16 0 byte) true false GOT_HEADER 0 p, o)
    else Some (3, s, o)
  | GOT_HEADER =>
    if (byte =? SUMD_ID_SUMD) || (byte =? SUMD_ID_SUMH) then
      let s := mk (_crc8 s) (_crc16 s) (if byte =? SUMD_ID_SUMH then false else _sumd s)
                 (_crcOK s) (_decode_state s) (_rxlen s) p in
      Some (1, checksum s byte GOT_STATE (_rxlen s) p, o)
    else Some (1, set_state s UNSYNCED p, o)
  | GOT_STATE =>
    if (byte >=? 2) && (byte <=? SUMD_MAX_CHANNELS) then
      Some (1, checksum s byte GOT_LEN (u8 (_rxlen s + 1))
                 (Packet byte (sumd_data p) (crc16_high p) (crc16_low p)), o)
    else Some (1, set_state s UNSYNCED p, o)
  | GOT_LEN =>
    data ← arr_set (sumd_data p) (_rxlen s) byte;
    let rxlen := u8 (_rxlen s + 1) in
    Some (1, checksum s byte (if rxlen <=? length_ p * 2 then GOT_LEN else GOT_DATA) rxlen
               (Packet (length_ p) data (crc16_high p) (crc16_low p)), o)
  | GOT_DATA =>
    Some (1, set_state s (if _sumd s then GOT_CRC else GOT_CRC16_BYTE_1)
               (Packet (length_ p) (sumd_data p) byte (crc16_low p)), o)
  | GOT_CRC16_BYTE_1 =>
    Some (1, set_state s GOT_CRC16_BYTE_2
               (Packet (length_ p) (sumd_data p) (crc16_high p) byte), o)
  | GOT_CRC16_BYTE_2 => Some (1, set_state s GOT_CRC p, o)
  | GOT_CRC => finish byte max_chan_count s o
  end.
End SUMD.

(** * srxl.cpp: Multiplex and Spektrum SRXL *)
Module SRXL.
Definition SRXL_MIN_FRAMESPACE_US : Z := 8000.
Definition SRXL_MAX_CHANNELS : Z := 20.
Definition SRXL_FRAMELEN_V1 : Z := 27.
Definition SRXL_FRAMELEN_V2 : Z := 35.
Definition SRXL_FRAMELEN_V5 : Z := 18.
Definition SRXL_FRAMELEN_MAX : Z := 35.
Definition SRXL_HEADER_V1 : Z := 0xA1.
Definition SRXL_HEADER_V2 : Z := 0xA2.
Definition SRXL_HEADER_V5 : Z := 0xA5.
Definition SRXL_HEADER_NOT_IMPL : Z := 0xFF.

Inductive STATE := STATE_IDLE | STATE_NEW | STATE_COLLECT.

Record t := mk {
  buffer : list Z; buflen : Z; last_data_us : Z; channels : list Z;
  frame_header : Z; frame_len_full : Z;
  decode_state : STATE; decode_state_next : STATE;
  crc_fmu : Z; crc_receiver : Z; max_channels : Z
}.

Definition create : t :=
  mk (replicate 35 0) 0 0 (replicate 20 0) 0 0 STATE_IDLE STATE_IDLE 0 0 0.

(** [*num_values], the array [values] and [*failsafe_state]. *)
Record out := Out { num_values : Z; values : list Z; failsafe_state : bool }.

Definition set_channels (s : t) (channels : list Z) (max : Z) : t :=
  mk (buffer s) (buflen s) (last_data_us s) channels (frame_header s) (frame_len_full s)
    (decode_state s) (decode_state_next s) (crc_fmu s) (crc_receiver s) max.

(** The channels handed over: [memcpy(values, channels, num * 2)]. *)
Definition provide (s : t) (num : Z) (failsafe : bool) (o : out) : option out :=
  chs ← blk_get (channels s) 0 num;
  vs ← blk_set (values o) 0 chs;
  Some (Out num vs failsafe).

(** The loop over the channels of the first two variants, [n] of them from
    [loop] on. *)
Fixpoint v1v2_loop (n : nat) (loop : Z) (buffer channels : list Z) : option (list Z) :=
  match n with
  | O => Some channels
  | S n =>
    hi ← arr_get buffer (loop * 2 + 1);
    lo ← arr_get buffer (loop * 2 + 2);
    let raw := ((hi &&& 0xF) << 8) ||| lo in
    channels ← arr_set channels loop (u16 (((raw * 1400) >> 12) + 800));
    v1v2_loop n (loop + 1) buffer channels
  end.

Definition srxl_channels_get_v1v2 (max_values : Z) (s : t) (o : out) : option (Z * t * out) :=
  let num := u8 (u32 (frame_len_full s - 3) / 2) in
  channels ← v1v2_loop (Z.to_nat num) 0 (buffer s) (channels s);
  let s := set_channels s channels (max_channels s) in
  let num := if num >? max_values then u8 max_values else num in
  o ← provide s num false o;
  Some (0, s, o).

(** The channel number and value of a word of the third variant, from the second
    byte [b1] of the frame; [None] for a word that is passed over. *)
Definition v5_word (b b1 : Z) : option (Z * Z) :=
  let c := b >> 11 in
  let v := b &&& 0x7FF in
  if nz (b &&& 0x8000) then None
  else
    let '(c, v) :=
      if c =? 12 then
        let c := u16 (10 + ((b >> 9) &&& 0x7)) in
        (if nz (b1 &&& 1) then u16 (c + 4) else c, (b &&& 0x1FF) << 2)
      else if c >? 12 then (c, 0) else (c, v) in
    if c <? SRXL_MAX_CHANNELS then Some (c, u16 (Z.quot ((v - 0x400) * 500) 876 + 1500))
    else None.

Fixpoint v5_loop (n : nat) (i : Z) (buffer channels : list Z) (max : Z) : option (list Z * Z) :=
  match n with
  | O => Some (channels, max)
  | S n =>
    hi ← arr_get buffer (i * 2 + 2);
    lo ← arr_get buffer (i * 2 + 3);
    b1 ← arr_get buffer 1;
    match v5_word (u16 ((hi << 8) ||| lo)) b1 with
    | None => v5_loop n (i + 1) buffer channels max
    | Some (c, v) =>
      channels ← arr_set channels c v;
      v5_loop n (i + 1) buffer channels (if c >=? max then u16 (c + 1) else max)
    end
  end.

Definition srxl_channels_get_v5 (max_values : Z) (s : t) (o : out) : option (Z * t * out) :=
  '(channels, max) ← v5_loop 7 0 (buffer s) (channels s) (max_channels s);
  let s := set_channels s channels max in
  let num := u8 max in
  let num := if num >? max_values then u8 max_values else num in
  b1 ← arr_get (buffer s) 1;
  o ← provide s num (b1 &&& 2 =? 0) o;
  Some (0, s, o).

(** The start of a frame of [len] bytes with header [h]. *)
Definition new_frame (s : t) (len h : Z) : t :=
  mk (buffer s) (buflen s) (last_data_us s) (channels s) h len STATE_NEW
    (decode_state_next s) (crc_fmu s) (crc_receiver s) (max_channels s).

(** No frame: as after an unknown header. *)
Definition no_frame (s : t) : t :=
  mk (buffer s) 0 (last_data_us s) (channels s) SRXL_HEADER_NOT_IMPL 0 STATE_IDLE
    (decode_state_next s) (crc_fmu s) (crc_receiver s) (max_channels s).

(** [buffer[buflen] = byte; buflen++], and the checksum. *)
Definition collect (s : t) (byte : Z) : option t :=
  buf ← arr_set (buffer s) (buflen s) byte;
  let len := u8 (buflen s + 1) in
  let crc := if len <=? frame_len_full s - 2 then srxl_crc16 (crc_fmu s) byte else crc_fmu s in
  Some (mk buf len (last_data_us s) (channels s) (frame_header s) (frame_len_full s)
          (decode_state s) (decode_state_next s) crc (crc_receiver s) (max_channels s)).

Definition set_next (s : t) (next : STATE) (crc : Z) : t :=
  mk (buffer s) (buflen s) (last_data_us s) (channels s) (frame_header s) (frame_len_full s)
    (decode_state s) next (crc_fmu s) crc (max_channels s).

(** A whole frame is there. *)
Definition frame_done (max_values : Z) (s : t) (o : out) : option (Z * t * out) :=
  hi ← arr_get (buffer s) (buflen s - 2);
  lo ← arr_get (buffer s) (buflen s - 1);
  let crc := u16 (hi << 8) ||| lo in
  let s := set_next s (decode_state_next s) crc in
  '(ret, s, o) ←
    (if crc =? crc_fmu s then
       if frame_header s =? SRXL_HEADER_V1 then srxl_channels_get_v1v2 max_values s o
       else if frame_header s =? SRXL_HEADER_V2 then srxl_channels_get_v1v2 max_values s o
       else if frame_header s =? SRXL_HEADER_V5 then srxl_channels_get_v5 max_values s o
       else Some (2, s, o)
     else Some (4, s, o));
  Some (ret, set_next s STATE_IDLE (crc_receiver s), o).

(** [decode_state = decode_state_next; last_data_us = timestamp_us] *)
Definition leave (s : t) (timestamp_us : Z) : t :=
  mk (buffer s) (buflen s) timestamp_us (channels s) (frame_header s) (frame_len_full s)
    (decode_state_next s) (decode_state_next s) (crc_fmu s) (crc_receiver s) (max_channels s).

(** The [switch] on the header, after a gap; [None] is [return 2]. *)
Definition header (byte : Z) (s : t) : option t :=
  if byte =? SRXL_HEADER_V1 then Some (new_frame s SRXL_FRAMELEN_V1 SRXL_HEADER_V1)
  else if byte =? SRXL_HEADER_V2 then Some (new_frame s SRXL_FRAMELEN_V2 SRXL_HEADER_V2)
  else if byte =? SRXL_HEADER_V5 then Some (new_frame s SRXL_FRAMELEN_V5 SRXL_HEADER_V5)
  else None.

(** The [switch] on the state. *)
Definition receive (timestamp_us byte max_values : Z) (s : t) (o : out) : option (Z * t * out) :=
  match decode_state s with
  | STATE_NEW =>
    buf ← arr_set (buffer s) 0 byte;
    let s := mk buf 1 (last_data_us s) (channels s) (frame_header s) (frame_len_full s)
               (decode_state s) STATE_COLLECT (srxl_crc16 0 byte) (crc_receiver s)
               (max_channels s) in
    Some (1, leave s timestamp_us, o)
  | STATE_COLLECT =>
    if buflen s >=? frame_len_full s then Some (2, no_frame s, o)
    else
      s ← collect s byte;
      '(ret, s, o) ← (if buflen s =? frame_len_full s then frame_done max_values s o
                      else Some (1, set_next s STATE_COLLECT (crc_receiver s), o));
      Some (ret, leave s timestamp_us, o)
  | STATE_IDLE => Some (1, leave s timestamp_us, o)
  end.

Definition srxl_decode (timestamp_us byte max_values : Z) (s : t) (o : out)
  : option (Z * t * out) :=
  if u64 (timestamp_us - last_data_us s) >=? SRXL_MIN_FRAMESPACE_US then
    match header byte s with
    | Some s => receive timestamp_us byte max_values s o
    | None => Some (2, no_frame s, o)
    end
  else receive timestamp_us byte max_values s o.
End SRXL.
