(* ===== verification/SBusOut.v ===== *)
(** The SBUS output driver: libraries/AP_SBusOut/AP_SBusOut.{h,cpp}, and its
    agreement with the SBUS decoder of AP_RCProtocol. *)
From S2P Require Import Prelude Float32 RCDecoders.
Open Scope urus_scope.

Module SBusOut.
Definition SBUS_BSIZE : Z := 25.
Definition SBUS_CHANNELS : Z := 16.
Definition NUM_SERVO_CHANNELS : Z := 16.
Definition SBUS_MIN := f32_of_Z 880.
Definition SBUS_MAX := f32_of_Z 2156.
Definition SBUS_SCALE := (f32_of_Z 2048 / (SBUS_MAX - SBUS_MIN))%f32.

(** [last_micros] is the static of [update]; [uart] says whether a port was
    found. *)
Record t := mk {
  initialised : bool;
  uart : bool;
  sbus_frame_interval : Z;
  last_micros : Z
}.

(** [init]: [found] is the result of the search for a port, [None] when there is
    no serial manager; a zero rate divides by zero. *)
Definition init (sbus_rate : Z) (found : option bool) (s : t) : option t :=
  let rate := u16 sbus_rate in
  if rate =? 0 then None
  else
    let interval := u16 (u32 (1000000 / rate - 500)) in
    let interval := if interval <? 3700 then 3700 else interval in
    Some (mk (initialised s)
             (match found with Some u => u | None => uart s end)
             interval (last_micros s)).

(** The 11-bit value of a servo pulse. *)
Definition channel_value (output_pwm : Z) : option Z :=
  let pwm := f32_of_Z output_pwm in
  pwmval ← f32_to_uint16 (if f32_lt SBUS_MIN pwm then pwm else SBUS_MIN);
  value ← f32_to_uint16 ((f32_of_Z pwmval - SBUS_MIN) * SBUS_SCALE)%f32;
  Some (if value >? 0x07ff then 0x07ff else value).

(** [while (offset >= 8)] *)
Fixpoint next_byte (fuel : nat) (index offset : Z) : Z * Z :=
  match fuel with
  | O => (index, offset)
  | S fuel => if offset >=? 8 then next_byte fuel (u8 (index + 1)) (u8 (offset - 8))
              else (index, offset)
  end.

(** [buffer[i] |= x & 0xff] *)
Definition or_at (buffer : list Z) (i x : Z) : option (list Z) :=
  b ← arr_get buffer i;
  arr_set buffer i (b ||| (x &&& 0xff)).

(** The loop over the channels; [None] in [chans] is a null channel. *)
Fixpoint pack (chans : list (option Z)) (buffer : list Z) (index offset : Z)
  : option (list Z) :=
  match chans with
  | [] => Some buffer
  | None :: chans => pack chans buffer index offset
  | Some pwm :: chans =>
    value ← channel_value pwm;
    let '(index, offset) := next_byte 32 index offset in
    buffer ← or_at buffer index (value << offset);
    buffer ← or_at buffer (index + 1) (value >> (8 - offset));
    buffer ← or_at buffer (index + 2) (value >> (16 - offset));
    pack chans buffer index (u8 (offset + 11))
  end.

Definition frame (chans : list (option Z)) : option (list Z) :=
  let nchan := Z.min NUM_SERVO_CHANNELS SBUS_CHANNELS in
  pack (take (Z.to_nat nchan) chans) (0x0f :: replicate 24 0) 1 0.

(** [update] at time [now]: the new state and the bytes written to the port. *)
Definition update (sbus_rate : Z) (found : option bool) (chans : list (option Z))
    (now : Z) (s : t) : option (t * option (list Z)) :=
  s ← (if initialised s then Some s
       else init sbus_rate found (mk true (uart s) (sbus_frame_interval s) (last_micros s)));
  if negb (uart s) then Some (s, None)
  else if u32 (now - last_micros s) >? sbus_frame_interval s then
    f ← frame chans;
    Some (mk (initialised s) (uart s) (sbus_frame_interval s) now, Some f)
  else Some (s, None).
End SBusOut.
