(* ===== verification/SBusSpec.v ===== *)
(** The SBUS protocol: the decoder matrix as bit fields, the serial line coding
    of AP_RCProtocol_SBUS.cpp, and the round trip from the output driver of
    AP_SBusOut.cpp to the receiver. *)
From S2P Require Import Prelude Float32 RCDecoders SBusOut.
Open Scope urus_scope.

(** * The decoder matrix *)

(** Channel [k] of a frame: the 11 bits from bit [11 k] of the bytes after the
    header, little endian. *)
Definition sbus_field (frame : list Z) (k : Z) : Z :=
  le_val (drop 1 frame) / 2 ^ (11 * k) mod 2 ^ 11.

(** The servo pulse of an 11-bit value. *)
Definition sbus_pwm (v : Z) : Z := (5 * v + 4) / 8 + 874.

(** The frame bits, as (byte after the header, bit), that a list of picks
    copies to bit [j] of the value. *)
Definition pick_sources (picks : list SBUS.sbus_bit_pick) (j : Z) : list (Z * Z) :=
  omap (fun d =>
    if (SBUS.lshift d <=? j) && Z.testbit (SBUS.mask d) (j - SBUS.lshift d)
    then Some (SBUS.p_byte d, j - SBUS.lshift d + SBUS.rshift d) else None) picks.

Definition pick_ok (frame : list Z) (d : SBUS.sbus_bit_pick) : Prop :=
  0 <= SBUS.p_byte d /\ 1 + SBUS.p_byte d < zlen frame /\ 0 <= SBUS.rshift d /\
  0 <= SBUS.mask d /\ 0 <= SBUS.lshift d.

Definition source_bit (frame : list Z) (s : Z * Z) : bool :=
  Z.testbit (nth (Z.to_nat (1 + s.1)) frame 0) s.2.

Lemma u32_testbit x j : 0 <= j -> Z.testbit (u32 x) j = (j <? 32) && Z.testbit x j.
Proof.
  intros Hj. unfold u32. change 4294967296 with (2 ^ 32).
  destruct (Z.ltb_spec j 32); [by rewrite Z.mod_pow2_bits_low by lia|].
  by rewrite Z.mod_pow2_bits_high by lia.
Qed.

Lemma arr_get_nth (l : list Z) i : 0 <= i < zlen l -> arr_get l i = Some (nth (Z.to_nat i) l 0).
Proof.
  intros Hi. rewrite arr_get_lookup by lia.
  destruct (lookup_lt_is_Some_2 l (Z.to_nat i)) as [x Hx]; [lia|].
  by rewrite Hx, (nth_lookup_Some _ _ _ _ Hx).
Qed.

Lemma pick_value_bits frame picks acc : Forall (pick_ok frame) picks ->
  exists v, SBUS.pick_value frame picks acc = Some v /\
    forall j, 0 <= j -> Z.testbit v j = Z.testbit acc j ||
      (j <? 32) && existsb (source_bit frame) (pick_sources picks j).
Proof.
  intros Hp. revert acc. induction Hp as [|d picks Hd Hp IH]; intros acc.
  { exists acc. split; [done|]. intros j Hj. by rewrite andb_false_r, orb_false_r. }
  destruct Hd as (H1&H2&H3&H4&H5). simpl SBUS.pick_value.
  destruct (Z.eqb_spec (SBUS.mask d) 0) as [H0|H0]; simpl.
  - destruct (IH acc) as (v&Hv&Hb). exists v. split; [done|]. intros j Hj.
    rewrite Hb by done. unfold pick_sources. simpl. rewrite H0, Z.bits_0, andb_false_r. done.
  - rewrite arr_get_nth by lia. simpl. edestruct IH as (v&Hv&Hb). exists v.
    split; [exact Hv|]. intros j Hj. rewrite Hb, Z.lor_spec, u32_testbit, <- orb_assoc by done.
    f_equal. unfold pick_sources. simpl. rewrite <- andb_orb_distrib_r. f_equal.
    rewrite Z.shiftl_spec by done. destruct (Z.leb_spec (SBUS.lshift d) j); simpl.
    + rewrite Z.land_spec, Z.shiftr_spec by lia.
      destruct (Z.testbit (SBUS.mask d) _); simpl; [|by rewrite andb_false_r].
      rewrite andb_true_r. done.
    + by rewrite Z.testbit_neg_r by lia.
Qed.

(** The check of the whole matrix: bit [j] of channel [k] is copied from bit
    [11 k + j] and from no other. *)
Definition matrix_bit_ok (k j : Z) : bool :=
  match arr_get SBUS.sbus_decoder k with
  | None => false
  | Some picks =>
    bool_decide (pick_sources picks j =
      if j <? 11 then [((11 * k + j) / 8, (11 * k + j) mod 8)] else [])
  end.

Definition matrix_ok (k : Z) : bool :=
  forall_from 0 32 (matrix_bit_ok k) &&
  match arr_get SBUS.sbus_decoder k with
  | None => false
  | Some picks => forallb (fun d => (0 <=? SBUS.p_byte d) && (SBUS.p_byte d <? 22) &&
      (0 <=? SBUS.rshift d) && (0 <=? SBUS.mask d) && (0 <=? SBUS.lshift d)) picks
  end.

Lemma matrix_checked k : 0 <= k < 16 -> matrix_ok k = true.
Proof. apply (forall_range matrix_ok). vm_compute. reflexivity. Qed.

Lemma pick_value_field frame k : bytes frame -> 23 <= zlen frame -> 0 <= k < 16 ->
  exists picks, arr_get SBUS.sbus_decoder k = Some picks /\
    SBUS.pick_value frame picks 0 = Some (sbus_field frame k).
Proof.
  intros Hb Hl Hk. pose proof (matrix_checked k Hk) as [Hm Hd]%andb_true_iff.
  destruct (arr_get SBUS.sbus_decoder k) as [picks|] eqn:Ek; [|done].
  exists picks. split; [done|].
  assert (Hok : Forall (pick_ok frame) picks).
  { apply Forall_forall. intros d Hin. rewrite forallb_forall in Hd.
    specialize (Hd d (proj1 (list_elem_of_In _ _) Hin)). unfold pick_ok.
    repeat rewrite andb_true_iff in Hd. lia. }
  destruct (pick_value_bits frame picks 0 Hok) as (v&Hv&Hbits).
  rewrite Hv. f_equal. apply Z.bits_inj'. intros j Hj.
  rewrite Hbits, Z.bits_0 by done. unfold sbus_field. rewrite field_testbit by lia. simpl orb.
  destruct (Z.ltb_spec j 32); [|destruct (Z.ltb_spec j 11); [lia|done]].
  pose proof (forall_from_spec _ _ _ j Hm ltac:(lia)) as Hs. unfold matrix_bit_ok in Hs.
  rewrite Ek in Hs. apply bool_decide_eq_true in Hs. rewrite Hs.
  destruct (Z.ltb_spec j 11); [|done]. simpl. rewrite orb_false_r.
  rewrite le_val_testbit by (try apply Forall_drop; done || lia).
  unfold source_bit. simpl. rewrite nth_skipn. do 2 f_equal. zlia.
Qed.

(** * The conversion to servo pulses *)

Lemma scale_spec v : 0 <= v < 2048 -> SBUS.scale v = Some (sbus_pwm v).
Proof.
  intros Hv. pose (P v := bool_decide (SBUS.scale v = Some (sbus_pwm v))).
  apply (bool_decide_eq_true_1 (SBUS.scale v = Some (sbus_pwm v))). change (P v = true).
  revert v Hv. apply (forall_range P). vm_compute. reflexivity.
Qed.

Lemma sbus_field_range frame k : 0 <= sbus_field frame k < 2048.
Proof. unfold sbus_field. change 2048 with (2 ^ 11). by apply Z.mod_pos_bound. Qed.

(** The channels [c .. c + n - 1] of a frame, as servo pulses. *)
Definition sbus_channels (frame : list Z) (c : Z) (n : nat) : list Z :=
  map (fun i => sbus_pwm (sbus_field frame (c + Z.of_nat i))) (seq 0 n).

Lemma sbus_channels_S frame c n :
  sbus_channels frame c (S n) = sbus_pwm (sbus_field frame c) :: sbus_channels frame (c + 1) n.
Proof.
  unfold sbus_channels. simpl seq. rewrite <- seq_shift. simpl. rewrite Z.add_0_r. f_equal.
  rewrite map_map. apply map_ext. intros i. do 2 f_equal. lia.
Qed.

Lemma decode_channels_spec frame : bytes frame -> 23 <= zlen frame -> forall n c vals,
  0 <= c -> c + Z.of_nat n <= 16 -> c + Z.of_nat n <= zlen vals ->
  SBUS.decode_channels frame n c vals =
    Some (list_inserts (Z.to_nat c) (sbus_channels frame c n) vals).
Proof.
  intros Hb Hl. induction n as [|n IH]; intros c vals Hc Hn Hv; [done|].
  rewrite sbus_channels_S. simpl SBUS.decode_channels.
  destruct (pick_value_field frame c) as (picks&->&Hp); [done|done|lia|].
  simpl. rewrite Hp. simpl. rewrite scale_spec by apply sbus_field_range. simpl.
  rewrite arr_set_Some by lia. simpl. rewrite IH by (rewrite ?length_insert; lia).
  apply (f_equal Some). simpl. rewrite Z2Nat.inj_add, Nat.add_1_r by lia.
  symmetry. apply list_insert_inserts_lt. lia.
Qed.

Definition sbus_flags (frame : list Z) : Z := nth 23 frame 0.

(** The result of the decoder for up to 16 channels. *)
Definition sbus_result (frame vals : list Z) (n : nat) : SBUS.decoded :=
  SBUS.Decoded (list_inserts 0 (sbus_channels frame 0 n) vals) (Z.of_nat n)
    (Z.testbit (sbus_flags frame) 3)
    (Z.testbit (sbus_flags frame) 3 || Z.testbit (sbus_flags frame) 2).

Lemma nz_bit x k : 0 <= k -> nz (x &&& (1 << k)) = Z.testbit x k.
Proof.
  intros Hk. rewrite Z.shiftl_1_l. destruct (Z.testbit x k) eqn:E.
  - apply nz_true. intros H. apply (f_equal (fun z => Z.testbit z k)) in H.
    rewrite Z.land_spec, E, Z.pow2_bits_true, Z.bits_0 in H by done. done.
  - apply nz_false. apply Z.bits_inj'. intros j Hj. rewrite Z.land_spec, Z.bits_0.
    destruct (decide (j = k)) as [->|]; [by rewrite E|].
    by rewrite Z.pow2_bits_false, andb_false_r by congruence.
Qed.

Lemma sbus_decode_spec frame vals n : bytes frame -> zlen frame = SBUS.SBUS_FRAME_SIZE ->
  0 <= n <= 16 -> n <= zlen vals ->
  SBUS.sbus_decode frame vals n =
    Some (if decide (head frame = Some 0x0f)
          then Some (sbus_result frame vals (Z.to_nat n)) else None).
Proof.
  unfold SBUS.SBUS_FRAME_SIZE. intros Hb Hl Hn Hv.
  unfold SBUS.sbus_decode, SBUS.SBUS_INPUT_CHANNELS.
  destruct frame as [|h frame]; [done|]. change (arr_get (h :: frame) 0) with (Some h).
  destruct (decide (head (h :: frame) = Some 15)) as [[= ->]|Hh]; simpl.
  2:{ destruct (Z.eqb_spec h 15) as [->|]; done. }
  rewrite !Z.gtb_ltb, (proj2 (Z.ltb_ge 16 n)) by lia.
  rewrite decode_channels_spec by (done || lia). simpl.
  unfold SBUS.SBUS_FLAGS_BYTE. rewrite arr_get_nth by lia. simpl.
  rewrite (proj2 (Z.ltb_ge 17 n)) by lia. simpl. unfold SBUS.SBUS_FAILSAFE_BIT, SBUS.SBUS_FRAMELOST_BIT.
  unfold sbus_result, sbus_flags. rewrite !nz_bit by done. simpl nth. rewrite Z2Nat.id by lia.
  change (Pos.to_nat 23) with 23%nat.
  destruct (Z.testbit _ 3); [done|]. by destruct (Z.testbit _ 2).
Qed.

(** * The serial line

    100000 baud, inverted, eight data bits, even parity, two stop bits.  A line
    bit is true during the first half of a pulse (the time [width_s0]) and false
    during the second; the start bit is true, data and parity bits are inverted,
    the stop bits are false. *)

Definition data_bits (b : Z) : list bool := map (fun j => Z.testbit b (Z.of_nat j)) (seq 0 8).

Definition line_bits (b : Z) : list bool :=
  true :: map negb (data_bits b) ++ [negb (foldr xorb false (data_bits b)); false; false].

(** A list of line bits as pulses: the numbers of true and of false bits. *)
Fixpoint runs (bits : list bool) : list (Z * Z) :=
  match bits with
  | [] => []
  | true :: bits =>
    match runs bits with
    | [] => [(1, 0)]
    | (h, l) :: rs => (h + 1, l) :: rs
    end
  | false :: bits =>
    match runs bits with
    | (0, l) :: rs => (0, l + 1) :: rs
    | rs => (0, 1) :: rs
    end
  end.

(** The pulses of a byte followed by [gap] idle bits. *)
Fixpoint add_gap (gap : Z) (rs : list (Z * Z)) : list (Z * Z) :=
  match rs with
  | [] => []
  | [(h, l)] => [(h, l + gap)]
  | r :: rs => r :: add_gap gap rs
  end.

Definition byte_runs (b gap : Z) : list (Z * Z) := add_gap gap (runs (line_bits b)).

Example byte_runs_0x0f : byte_runs 0x0f 3 = [(1, 4); (5, 5)].
Proof. reflexivity. Qed.

(** A measured width [w] of [n] bits of 10 microseconds. *)
Definition measures (n w : Z) : Prop := 10 * n - 1 <= w <= 10 * n + 8.
Definition measured (r : Z * Z) (p : Z * Z) : Prop := measures r.1 p.1 /\ measures r.2 p.2.

(** A run of [process_pulse]. *)
Fixpoint run_pulses (vals : list Z) (ps : list (Z * Z)) (s : SBUS.t) : option SBUS.t :=
  match ps with
  | [] => Some s
  | (w0, w1) :: ps => s ← SBUS.process_pulse vals s w0 w1; run_pulses vals ps s
  end.

(** The effect of a pulse of [r.1] true and [r.2] false bits inside a word: the
    word received so far and the position in it. *)
Definition word_step (wb : Z * Z) (r : Z * Z) : Z * Z :=
  (wb.1 ||| ((2 ^ r.1 - 1) << wb.2), wb.2 + r.1 + Z.min r.2 (12 - wb.2 - r.1)).

(** The pulse fits the word: it leaves the stop bits false. *)
Definition word_step_ok (wb : Z * Z) (r : Z * Z) : bool :=
  (0 <=? wb.1) && (wb.1 <? 4096) && (0 <=? wb.2) &&
  (1 <=? r.1) && (1 <=? r.2) && (wb.2 + r.1 <=? 10) && ((word_step wb r).1 <? 4096).

Lemma bits_of_measure n w : measures n w -> 1 <= n <= 6553 -> u16 (u32 (w + 1) / 10) = n.
Proof. intros [H1 H2] Hn. rewrite u32_small by lia. rewrite u16_small; zlia. Qed.

(** The bits of a pulse that follow the end of its word. *)
Definition leftover (b : Z) (r : Z * Z) : Z := r.2 - Z.min r.2 (12 - b - r.1).

Definition end_of_pulse (vals : list Z) (left : Z) (s : SBUS.t) : option SBUS.t :=
  if left >? 12 then if SBUS.bit_ofs s =? 300 then SBUS.full_frame s vals else Some (SBUS.reset s)
  else Some s.

Lemma pulse_step vals s w0 w1 i w b r :
  length (SBUS.bytes s) = 25%nat -> SBUS.bit_ofs s = 12 * Z.of_nat i + b -> b < 12 ->
  SBUS.bytes s !! i = Some w -> word_step_ok (w, b) r = true ->
  measured r (w0, w1) -> r.2 <= 6553 ->
  SBUS.process_pulse vals s w0 w1 =
    end_of_pulse vals (leftover b r)
      (SBUS.mk (SBUS.base s) (<[i := (word_step (w, b) r).1]> (SBUS.bytes s))
         (12 * Z.of_nat i + (word_step (w, b) r).2)).
Proof.
  intros Hl Hofs Hb Hi Hok [H0 H1] Hr. simpl in H0, H1.
  destruct r as [h l]. unfold word_step_ok in Hok. simpl in *.
  repeat rewrite andb_true_iff in Hok. pose proof (lookup_lt_Some _ _ _ Hi) as Hlt.
  unfold SBUS.process_pulse. rewrite (bits_of_measure h), (bits_of_measure l) by (done || lia).
  rewrite Hofs, (Z.mul_comm 12), Z.div_add_l, Z.div_small, Z.add_0_r by lia.
  rewrite (Z.add_comm _ b), Z.mod_add, Z.mod_small by lia.
  rewrite (u8_small (Z.of_nat i)), (u8_small b) by lia.
  rewrite (proj2 (Z.eqb_neq h 0)), (proj2 (Z.eqb_neq l 0)), Z.gtb_ltb,
    (proj2 (Z.ltb_ge 10 (h + b))) by lia. simpl orb.
  rewrite arr_get_lookup, Nat2Z.id, Hi by lia. simpl mbind.
  rewrite arr_set_Some, Nat2Z.id by lia. simpl mbind.
  assert (2 ^ h <= 2 ^ 10) by (apply Z.pow_le_mono_r; lia).
  assert (0 < 2 ^ h) by (apply Z.pow_pos_nonneg; lia).
  rewrite (Z.shiftl_1_l h), (u32_small (2 ^ h)) by lia.
  assert (Hs : 0 <= (2 ^ h - 1) << b < 4294967296).
  { rewrite Z.shiftl_mul_pow2 by lia.
    assert (2 ^ b <= 2 ^ 12) by (apply Z.pow_le_mono_r; lia).
    assert (0 < 2 ^ b) by (apply Z.pow_pos_nonneg; lia). nia. }
  rewrite (u32_small (_ << b)) by done.
  rewrite (u16_small (w ||| _)) by (split; [apply Z.lor_nonneg|]; lia).
  rewrite (u16_small (b + _ + h)), (u8_small (b + h)) by lia.
  rewrite Z.gtb_ltb, (u16_small (12 - (b + h))) by lia.
  unfold end_of_pulse, leftover. simpl.
  replace (if 12 <? l + (b + h) then 12 - (b + h) else l) with (Z.min l (12 - b - h))
    by (destruct (Z.ltb_spec 12 (l + (b + h))); lia).
  rewrite (u16_small (l - _)), (u16_small (b + _ + h + _)) by lia.
  replace (b + Z.of_nat i * 12 + h + Z.min l (12 - b - h))
    with (Z.of_nat i * 12 + (b + h + Z.min l (12 - b - h))) by lia.
  rewrite Z.gtb_ltb. destruct (Z.ltb_spec 12 (l - Z.min l (12 - b - h))) as [Hc|Hc].
  - rewrite andb_true_r. done.
  - rewrite andb_false_r. done.
Qed.

(** The pulses of a word fit it one after the other and fill it. *)
Fixpoint word_ok (wb : Z * Z) (rs : list (Z * Z)) : bool :=
  match rs with
  | [] => false
  | r :: rs =>
    word_step_ok wb r &&
    match rs with
    | [] => wb.2 + r.1 + r.2 =? 12
    | _ => (wb.2 + r.1 + r.2 <? 12) && word_ok (word_step wb r) rs
    end
  end.

Lemma run_word vals i gap rest : 0 <= gap <= 6500 -> forall rs w b ps s,
  word_ok (w, b) rs = true -> Forall2 measured (add_gap gap rs) ps ->
  length (SBUS.bytes s) = 25%nat -> SBUS.bit_ofs s = 12 * Z.of_nat i + b ->
  SBUS.bytes s !! i = Some w ->
  run_pulses vals (ps ++ rest) s =
    s' ← end_of_pulse vals gap
      (SBUS.mk (SBUS.base s) (<[i := (foldl word_step (w, b) rs).1]> (SBUS.bytes s))
         (12 * Z.of_nat i + 12));
    run_pulses vals rest s'.
Proof.
  intros Hg. induction rs as [|r rs IH]; intros w b ps s Hok Hps Hl Hofs Hi; [done|].
  simpl in Hok. apply andb_true_iff in Hok as [Hs Hok]. pose proof Hs as Hs'.
  unfold word_step_ok in Hs'. destruct r as [h l]. simpl in Hs', Hok.
  repeat rewrite andb_true_iff in Hs'. destruct rs as [|r rs].
  - simpl in Hps. apply Forall2_cons_inv_l in Hps as ([w0 w1]&?&Hp&->%Forall2_nil_inv_l&->).
    apply Z.eqb_eq in Hok. cbn [app run_pulses].
    rewrite (pulse_step _ _ _ _ i w b (h, l + gap)); [|done|done|lia|done| |done|simpl; lia].
    + unfold leftover, word_step. cbn [foldl fst snd].
      replace (l + gap - Z.min (l + gap) (12 - b - h)) with gap by lia.
      replace (b + h + Z.min (l + gap) (12 - b - h)) with 12 by lia. done.
    + revert Hs. unfold word_step_ok. simpl. repeat rewrite andb_true_iff. lia.
  - apply Forall2_cons_inv_l in Hps as ([w0 w1]&ps'&Hp&Hps&->).
    apply andb_true_iff in Hok as [Hlt Hok]. cbn [app run_pulses].
    rewrite (pulse_step _ _ _ _ i w b (h, l)); [|done|done|lia|done|done|done|simpl; lia].
    unfold leftover, end_of_pulse. simpl. replace (l - Z.min l (12 - b - h)) with 0 by lia.
    simpl. pose proof (lookup_lt_Some _ _ _ Hi).
    rewrite (IH (word_step (w, b) (h, l)).1 (word_step (w, b) (h, l)).2); simpl.
    + by rewrite list_insert_insert, decide_True by done.
    + done.
    + done.
    + by rewrite length_insert.
    + done.
    + by rewrite list_lookup_insert, decide_True by (split; done || lia).
Qed.

(** The word received for a byte. *)
Definition line_word (b : Z) : Z := (foldl word_step (0, 0) (runs (line_bits b))).1.

Definition byte_ok (b : Z) : bool :=
  word_ok (0, 0) (runs (line_bits b)) &&
  bool_decide (SBUS.get_bytes [line_word b] [] = Some [b]).

Lemma byte_checked b : 0 <= b < 256 -> byte_ok b = true.
Proof. apply (forall_range byte_ok). vm_compute. reflexivity. Qed.

Lemma get_bytes_cons w ws out b : SBUS.get_bytes [w] [] = Some [b] ->
  SBUS.get_bytes (w :: ws) out = SBUS.get_bytes ws (out ++ [b]).
Proof.
  simpl. destruct (nz _); [done|]. destruct (negb _); [done|]. destruct (negb _); [done|].
  intros [= ->]. done.
Qed.

Lemma get_bytes_line bs out : bytes bs ->
  SBUS.get_bytes (map line_word bs) out = Some (out ++ bs).
Proof.
  intros Hb. revert out. induction Hb as [|b bs Hb Hbs IH]; intros out; simpl map.
  - by rewrite app_nil_r.
  - pose proof (byte_checked b Hb) as [_ H]%andb_true_iff.
    apply bool_decide_eq_true in H. rewrite (get_bytes_cons _ _ _ b) by done.
    rewrite IH. by rewrite <- app_assoc.
Qed.

(** The pulses of the bytes [bs], the byte [i] followed by [gaps !! i] idle bits. *)
Definition line_runs (bs gaps : list Z) : list (Z * Z) := concat (zip_with byte_runs bs gaps).

(** The receiver between two frames. *)
Definition idle (b : Backend.t) : SBUS.t := SBUS.mk b (replicate 25 0) 0.

(** The receiver after the bytes [bs] of a frame. *)
Definition receiving (b : Backend.t) (bs : list Z) : SBUS.t :=
  SBUS.mk b (map line_word bs ++ replicate (25 - length bs) 0) (12 * zlen bs).

Lemma receiving_nil b : receiving b [] = idle b.
Proof. done. Qed.

Lemma receiving_word got x : (length got < 25)%nat ->
  <[length got := line_word x]> (map line_word got ++ replicate (25 - length got) 0) =
  map line_word (got ++ [x]) ++ replicate (25 - length (got ++ [x])) 0.
Proof.
  intros H. rewrite map_app, length_app, <- app_assoc. cbn [length map].
  replace (25 - length got)%nat with (S (25 - (length got + 1))) by lia.
  rewrite <- (length_map line_word got) at 1. generalize (line_word x). intros w.
  rewrite <- (Nat.add_0_r (length (map line_word got))), insert_app_r. done.
Qed.

Lemma run_byte vals base got x gap ps rest : 0 <= x < 256 -> (length got < 25)%nat ->
  0 <= gap <= 6500 -> Forall2 measured (byte_runs x gap) ps ->
  run_pulses vals (ps ++ rest) (receiving base got) =
    s ← end_of_pulse vals gap (receiving base (got ++ [x])); run_pulses vals rest s.
Proof.
  intros Hx Hgot Hg Hps. pose proof (byte_checked x Hx) as [Hok _]%andb_true_iff.
  rewrite (run_word vals (length got) gap rest Hg (runs (line_bits x)) 0 0); cbn [SBUS.bytes
    SBUS.base SBUS.bit_ofs receiving]; try done.
  - do 2 f_equal. unfold receiving. fold (line_word x). rewrite receiving_word by done.
    rewrite length_app. f_equal. simpl. lia.
  - rewrite length_app, length_map, length_replicate. lia.
  - lia.
  - rewrite lookup_app_r, length_map, Nat.sub_diag by (rewrite length_map; lia).
    by replace (25 - length got)%nat with (S (24 - length got)) by lia.
Qed.

Lemma run_line vals base rest : forall bs gaps got ps,
  bytes bs -> (length got + length bs <= 25)%nat -> length gaps = length bs ->
  Forall (fun g => 0 <= g <= 12) gaps -> Forall2 measured (line_runs bs gaps) ps ->
  run_pulses vals (ps ++ rest) (receiving base got) =
    run_pulses vals rest (receiving base (got ++ bs)).
Proof.
  induction bs as [|b bs IH]; intros [|g gaps] got ps Hb Hn Hl Hg Hps; try done.
  - apply Forall2_nil_inv_l in Hps as ->. by rewrite app_nil_r.
  - apply Forall_cons in Hb as [Hb Hbs], Hg as [Hg Hgs].
    apply Forall2_app_inv_l in Hps as (p1&p2&H1&H2&->). simpl in Hn, Hl.
    rewrite <- app_assoc, (run_byte _ _ _ b g) by (done || lia).
    unfold end_of_pulse. rewrite Z.gtb_ltb, (proj2 (Z.ltb_ge 12 g)) by lia. simpl mbind.
    rewrite (IH gaps) by (try done; rewrite ?length_app; simpl; lia).
    by rewrite <- app_assoc.
Qed.

(** The backend after the 16 channels of a frame. *)
Definition delivered (b : Backend.t) (frame : list Z) : Backend.t :=
  Backend.mk
    (if Z.testbit (sbus_flags frame) 3 then Backend.rc_input_count b
     else u32 (Backend.rc_input_count b + 1))
    (Backend.last_rc_input_count b) (sbus_channels frame 0 16) 16.

Lemma inserts_all {A} (l k : list A) : length l = length k -> list_inserts 0 l k = l.
Proof.
  intros H. apply list_eq. intros i. rewrite lookup_inserts_dec, Nat.sub_0_r.
  repeat case_decide; try done || lia.
  rewrite !lookup_ge_None_2 by lia. done.
Qed.

Lemma length_sbus_channels frame c n : length (sbus_channels frame c n) = n.
Proof. unfold sbus_channels. by rewrite length_map, length_seq. Qed.

Lemma add_input_all b vs fs : length vs = 16%nat -> length (Backend._pwm_values b) = 16%nat ->
  Backend.add_input b 16 vs fs = Some (Backend.mk
    (if fs then Backend.rc_input_count b else u32 (Backend.rc_input_count b + 1))
    (Backend.last_rc_input_count b) vs 16).
Proof.
  intros Hv Hp. unfold Backend.add_input. change (Z.min 16 MAX_RCIN_CHANNELS) with 16.
  rewrite blk_get_Some by lia. rewrite drop_0, take_ge by lia. simpl.
  rewrite blk_set_Some by lia. simpl. rewrite inserts_all by congruence. done.
Qed.

Lemma full_frame_spec vals b frame : bytes frame -> length frame = 25%nat ->
  length vals = 16%nat -> length (Backend._pwm_values b) = 16%nat ->
  SBUS.full_frame (receiving b frame) vals =
    Some (idle (if decide (head frame = Some 0x0f) then delivered b frame else b)).
Proof.
  intros Hb Hl Hv Hp. unfold SBUS.full_frame. simpl SBUS.bytes. rewrite Hl.
  change (replicate (25 - 25) 0) with (@nil Z). rewrite app_nil_r, get_bytes_line by done.
  simpl app. change MAX_RCIN_CHANNELS with 16. rewrite sbus_decode_spec by (unfold SBUS.SBUS_FRAME_SIZE; done || lia).
  change (Z.to_nat 16) with 16%nat. case_decide; [|done]. unfold sbus_result.
  rewrite inserts_all by (rewrite length_sbus_channels; lia). cbn [mbind option_bind
    SBUS.num_values SBUS.values SBUS.sbus_failsafe]. change (u8 (Z.of_nat 16)) with 16.
  rewrite add_input_all by (rewrite ?length_sbus_channels; done). done.
Qed.

Lemma line_runs_snoc bs x gaps g : length bs = length gaps ->
  line_runs (bs ++ [x]) (gaps ++ [g]) = line_runs bs gaps ++ byte_runs x g.
Proof.
  intros H. unfold line_runs. rewrite zip_with_app by done. rewrite concat_app. simpl.
  by rewrite app_nil_r.
Qed.

Lemma run_frame vals b bs gaps gap ps : bytes bs -> length bs = 25%nat ->
  length gaps = 24%nat -> Forall (fun g => 0 <= g <= 12) gaps -> 0 <= gap <= 6500 ->
  Forall2 measured (line_runs bs (gaps ++ [gap])) ps ->
  run_pulses vals ps (idle b) = end_of_pulse vals gap (receiving b bs).
Proof.
  intros Hb Hl Hg Hgs Hgap. destruct bs as [|x bs _] using rev_ind; [done|].
  rewrite length_app in Hl. simpl in Hl. rewrite line_runs_snoc by lia.
  intros (p1&p2&H1&H2&->)%Forall2_app_inv_l. apply Forall_app in Hb as [Hb [Hx _]%Forall_cons].
  rewrite <- receiving_nil, (run_line vals b p2 bs gaps []) by (done || (simpl; lia)).
  rewrite <- (app_nil_r p2), app_nil_l, (run_byte _ _ _ x gap) by (done || lia).
  destruct (end_of_pulse _ _ _); done.
Qed.

Lemma run_full_frame vals b bs gaps gap ps : bytes bs -> length bs = 25%nat ->
  head bs = Some 0x0f -> length gaps = 24%nat -> Forall (fun g => 0 <= g <= 12) gaps ->
  12 < gap <= 6500 -> Forall2 measured (line_runs bs (gaps ++ [gap])) ps ->
  length vals = 16%nat -> length (Backend._pwm_values b) = 16%nat ->
  run_pulses vals ps (idle b) = Some (idle (delivered b bs)).
Proof.
  intros Hb Hl Hh Hg Hgs Hgap Hps Hv Hp.
  rewrite (run_frame vals b bs gaps gap) by (done || lia).
  unfold end_of_pulse. rewrite Z.gtb_ltb, (proj2 (Z.ltb_lt 12 gap)) by lia.
  unfold receiving at 1. cbn [SBUS.bit_ofs]. rewrite Hl. simpl Z.eqb.
  rewrite full_frame_spec, decide_True by done. done.
Qed.

(** * The output driver *)

(** [n] values of 11 bits packed from bit 0. *)
Fixpoint packed (vs : list Z) : Z :=
  match vs with
  | [] => 0
  | v :: vs => v ||| (packed vs << 11)
  end.

Definition elevens (vs : list Z) : Prop := Forall (fun v => 0 <= v < 2048) vs.

Lemma packed_field vs (k : nat) v : elevens vs -> vs !! k = Some v ->
  packed vs / 2 ^ (11 * Z.of_nat k) mod 2 ^ 11 = v.
Proof.
  intros Hvs. revert k. induction Hvs as [|w vs Hw Hvs IH]; intros k Hk; [done|].
  apply Z.bits_inj'. intros j Hj. rewrite field_testbit by lia. simpl packed.
  rewrite Z.lor_spec, Z.shiftl_spec by lia. destruct k as [|k].
  - injection Hk as ->. simpl Z.of_nat. rewrite Z.mul_0_r, Z.add_0_l.
    destruct (Z.ltb_spec j 11); simpl.
    + by rewrite (Z.testbit_neg_r _ (j - 11)), orb_false_r by lia.
    + symmetry. by apply (testbit_above v 11 j).
  - rewrite <- (IH k Hk), field_testbit, (testbit_above w 11) by lia.
    rewrite orb_false_l. do 2 f_equal. lia.
Qed.

Lemma or_at_spec buf i x : bytes buf -> 0 <= i < zlen buf ->
  exists buf', SBusOut.or_at buf i x = Some buf' /\ bytes buf' /\ length buf' = length buf /\
    forall m t, 0 <= t < 8 -> Z.testbit (nth m buf' 0) t =
      Z.testbit (nth m buf 0) t || bool_decide (m = Z.to_nat i) && Z.testbit x t.
Proof.
  intros Hb Hi. unfold SBusOut.or_at. rewrite arr_get_nth by lia. simpl.
  rewrite arr_set_Some by lia. eexists. split; [done|]. set (j := Z.to_nat i).
  assert (Hx : 0 <= x &&& 255 < 2 ^ 8)
    by (change 255 with (Z.ones 8); rewrite land_ones_mod by lia; by apply Z.mod_pos_bound).
  destruct (lookup_lt_is_Some_2 buf j) as [b Hbj]; [lia|].
  pose proof (bytes_lookup _ _ _ Hb Hbj).
  rewrite (nth_lookup_Some _ _ 0 _ Hbj). split.
  - apply Forall_insert; [done|]. change 256 with (2 ^ 8). by apply lor_bound.
  - rewrite length_insert. split; [done|]. intros m t Ht. rewrite !nth_lookup.
    case_bool_decide as Hm; simpl.
    + subst m. rewrite list_lookup_insert, decide_True, Hbj by (split; [done|lia]). simpl.
      rewrite Z.lor_spec. f_equal. change 255 with (Z.ones 8).
      rewrite Z.land_spec, Z.ones_spec_low by lia. apply andb_true_r.
    + rewrite list_lookup_insert_ne by congruence. by rewrite orb_false_r.
Qed.

Lemma next_byte_spec fuel index offset : 0 <= offset < 256 -> 0 <= index ->
  index + offset / 8 < 256 -> offset / 8 <= Z.of_nat fuel ->
  SBusOut.next_byte fuel index offset = (index + offset / 8, offset mod 8).
Proof.
  revert index offset. induction fuel as [|fuel IH]; intros index offset Ho Hi Hs Hf; simpl.
  - f_equal; zlia.
  - rewrite Z.geb_leb. destruct (Z.leb_spec 8 offset).
    + rewrite !u8_small by zlia. rewrite IH by zlia. f_equal; zlia.
    + f_equal; zlia.
Qed.

Lemma shifted_byte_bits v o n k : 0 <= o < 8 -> 0 <= v < 2048 -> 0 <= n -> 0 <= k ->
  bool_decide (n / 8 = k) && Z.testbit (v << o) (n mod 8) ||
  bool_decide (n / 8 = k + 1) && Z.testbit (v >> (8 - o)) (n mod 8) ||
  bool_decide (n / 8 = k + 2) && Z.testbit (v >> (16 - o)) (n mod 8) =
  Z.testbit v (n - (8 * k + o)).
Proof.
  intros Ho Hv Hn Hk. rewrite Z.shiftl_spec, !Z.shiftr_spec by zlia.
  pose proof (Z.div_mod n 8 ltac:(lia)). pose proof (Z.mod_pos_bound n 8 ltac:(lia)).
  destruct (decide (n / 8 < k)); [|destruct (decide (k + 2 < n / 8))].
  - rewrite !bool_decide_eq_false_2, (Z.testbit_neg_r v (n - _)) by lia. done.
  - rewrite !bool_decide_eq_false_2, (testbit_above v 11 (n - _)) by lia. done.
  - destruct (decide (n / 8 = k)); [|destruct (decide (n / 8 = k + 1))].
    + rewrite bool_decide_eq_true_2, !bool_decide_eq_false_2 by lia. simpl.
      rewrite !orb_false_r. f_equal. lia.
    + rewrite (bool_decide_eq_false_2 (n / 8 = k)), bool_decide_eq_true_2,
        bool_decide_eq_false_2 by lia. simpl. rewrite orb_false_r. f_equal. lia.
    + rewrite (bool_decide_eq_false_2 (n / 8 = k)), (bool_decide_eq_false_2 (n / 8 = k + 1)),
        bool_decide_eq_true_2 by lia. simpl. f_equal. lia.
Qed.

Lemma nth_drop1 (l : list Z) n : nth n (drop 1 l) 0 = nth (S n) l 0.
Proof. by destruct l, n. Qed.

(** Or-ing a value at bit [8 k + o] of the bytes after the header. *)
Lemma or_value_spec buf k o v : bytes buf -> 0 <= k -> k + 3 < zlen buf -> 0 <= o < 8 ->
  0 <= v < 2048 ->
  exists buf', bytes buf' /\ length buf' = length buf /\ nth 0 buf' 0 = nth 0 buf 0 /\
    le_val (drop 1 buf') = le_val (drop 1 buf) ||| (v << (8 * k + o)) /\
    (b ← SBusOut.or_at buf (1 + k) (v << o);
     b ← SBusOut.or_at b (1 + k + 1) (v >> (8 - o));
     SBusOut.or_at b (1 + k + 2) (v >> (16 - o))) = Some buf'.
Proof.
  intros Hb Hk Hl Ho Hv.
  destruct (or_at_spec buf (1 + k) (v << o)) as (b1&E1&Hb1&Hl1&Ht1); [done|lia|].
  destruct (or_at_spec b1 (1 + k + 1) (v >> (8 - o))) as (b2&E2&Hb2&Hl2&Ht2); [done|lia|].
  destruct (or_at_spec b2 (1 + k + 2) (v >> (16 - o))) as (b3&E3&Hb3&Hl3&Ht3); [done|lia|].
  exists b3. split; [done|]. split; [lia|]. rewrite E1. simpl. rewrite E2. simpl. rewrite E3.
  assert (Hbit : forall m t, 0 <= t < 8 -> Z.testbit (nth m b3 0) t =
    Z.testbit (nth m buf 0) t ||
    (bool_decide (m = Z.to_nat (1 + k)) && Z.testbit (v << o) t ||
     bool_decide (m = Z.to_nat (1 + k + 1)) && Z.testbit (v >> (8 - o)) t ||
     bool_decide (m = Z.to_nat (1 + k + 2)) && Z.testbit (v >> (16 - o)) t)).
  { intros m t Ht. rewrite Ht3, Ht2, Ht1 by done. by rewrite !orb_assoc. }
  split; [|split; [|done]].
  - assert (Hbyte : forall l, bytes l -> 0 <= nth 0 l 0 < 256).
    { intros [|x l] Hx; simpl; [lia|]. by apply Forall_cons in Hx as [? _]. }
    apply Z.bits_inj'. intros t Ht. destruct (decide (t < 8)).
    + rewrite Hbit, !bool_decide_eq_false_2 by lia. by rewrite orb_false_r.
    + by rewrite !(testbit_above _ 8 t) by (try apply Hbyte; done || lia).
  - apply Z.bits_inj'. intros n Hn.
    rewrite Z.lor_spec, Z.shiftl_spec by done.
    rewrite !le_val_testbit by (try apply Forall_drop; done).
    rewrite !nth_drop1, Hbit by (apply Z.mod_pos_bound; lia). f_equal.
    rewrite <- (shifted_byte_bits v o n k) by lia.
    f_equal; [f_equal|]; f_equal; apply bool_decide_ext; split; zlia.
Qed.

Lemma pack_spec pwms vs : Forall2 (fun p v => SBusOut.channel_value p = Some v) pwms vs ->
  elevens vs -> forall k buf index offset, bytes buf -> length buf = 25%nat ->
  8 * (index - 1) + offset = 11 * k -> 1 <= index -> 0 <= offset <= 18 -> 0 <= k ->
  k + zlen vs <= 16 ->
  exists buf', SBusOut.pack (map Some pwms) buf index offset = Some buf' /\
    bytes buf' /\ length buf' = 25%nat /\ nth 0 buf' 0 = nth 0 buf 0 /\
    le_val (drop 1 buf') = le_val (drop 1 buf) ||| (packed vs << (11 * k)).
Proof.
  induction 1 as [|p v pwms vs Hp _ IH]; intros Hvs k buf index offset Hb Hl Hk Hi Ho H0 Hn.
  { exists buf. simpl. by rewrite Z.shiftl_0_l, Z.lor_0_r. }
  apply Forall_cons in Hvs as [Hv Hvs]. simpl length in Hn.
  cbn [map SBusOut.pack]. rewrite Hp. cbn [mbind option_bind].
  rewrite next_byte_spec by zlia.
  destruct (or_value_spec buf (index + offset / 8 - 1) (offset mod 8) v)
    as (b1&Hb1&Hl1&Hh1&Hv1&E); [done|zlia|zlia|by apply Z.mod_pos_bound|done|].
  replace (1 + (index + offset / 8 - 1)) with (index + offset / 8) in E by lia.
  destruct (IH Hvs (k + 1) b1 (index + offset / 8) (offset mod 8 + 11))
    as (b2&E2&Hb2&Hl2&Hh2&Hv2); [done|congruence|zlia|zlia|zlia|lia|lia|].
  exists b2. split.
  - destruct (SBusOut.or_at buf _ _) as [c|]; [|done]. cbn [mbind option_bind] in E |- *.
    destruct (SBusOut.or_at c _ _) as [c'|]; [|done]. cbn [mbind option_bind] in E |- *.
    rewrite E. cbn [mbind option_bind]. by rewrite u8_small by zlia.
  - split; [done|]. split; [done|]. split; [congruence|].
    rewrite Hv2, Hv1, <- Z.lor_assoc. f_equal. cbn [packed].
    rewrite Z.shiftl_lor, Z.shiftl_shiftl by lia.
    f_equal; f_equal; zlia.
Qed.

(** The value sent for a servo pulse. *)
Definition sent (p : Z) : Z := Z.min 2047 ((Z.max p 880 - 880) * 512 / 319).

Lemma channel_value_spec p : 0 <= p < 4096 -> SBusOut.channel_value p = Some (sent p).
Proof.
  intros Hp. pose (P p := bool_decide (SBusOut.channel_value p = Some (sent p))).
  apply (bool_decide_eq_true_1 (SBusOut.channel_value p = Some (sent p))).
  change (P p = true). revert p Hp.
  apply (forall_range P). vm_compute. reflexivity.
Qed.

Lemma packed_above vs n : elevens vs -> 11 * zlen vs <= n -> Z.testbit (packed vs) n = false.
Proof.
  intros Hvs. revert n. induction Hvs as [|v vs Hv Hvs IH]; intros n Hn; [apply Z.bits_0|].
  simpl length in Hn. cbn [packed]. rewrite Z.lor_spec, Z.shiftl_spec, IH by lia.
  by rewrite (testbit_above v 11 n) by lia.
Qed.

(** The frame of 16 servo pulses. *)
Lemma frame_spec pwms : length pwms = 16%nat -> Forall (fun p => 0 <= p < 4096) pwms ->
  exists f, SBusOut.frame (map Some pwms) = Some f /\ bytes f /\ length f = 25%nat /\
    head f = Some 0x0f /\ sbus_flags f = 0 /\
    forall k p, pwms !! k = Some p -> sbus_field f (Z.of_nat k) = sent p.
Proof.
  intros Hl Hp.
  assert (Hs : forall p, 0 <= sent p < 2048).
  { intros p. unfold sent. split; [|lia]. apply Z.min_glb; [lia|].
    apply Z.div_pos; lia. }
  destruct (pack_spec pwms (map sent pwms)) with (k := 0) (buf := 15 :: replicate 24 0)
    (index := 1) (offset := 0) as (f&Hf&Hb&Hlf&Hh&Hv).
  - apply Forall2_fmap_r. apply Forall_Forall2_diag.
    apply (Forall_impl _ _ _ Hp). intros p. apply channel_value_spec.
  - apply Forall_map, Forall_forall. intros p _. apply Hs.
  - apply Forall_cons. split; [lia|]. by apply Forall_replicate.
  - done.
  - done.
  - done.
  - done.
  - done.
  - rewrite length_map, Hl. done.
  - exists f. change (le_val (drop 1 (15 :: replicate 24 0))) with 0 in Hv.
    rewrite Z.lor_0_l, Z.shiftl_0_r in Hv.
    assert (He : elevens (map sent pwms)).
    { apply Forall_map, Forall_forall. intros p _. apply Hs. }
    repeat split; try done.
    + unfold SBusOut.frame. rewrite take_ge by (rewrite length_map, Hl; done). exact Hf.
    + destruct f; simpl in Hh |- *; congruence.
    + apply Z.bits_inj'. intros n Hn. rewrite Z.bits_0. destruct (decide (n < 8)).
      * pose proof (le_val_testbit (drop 1 f) (176 + n) ltac:(by apply Forall_drop)
          ltac:(lia)) as Ht.
        rewrite Hv, packed_above in Ht by (done || (rewrite length_map, Hl; lia)).
        rewrite nth_drop1 in Ht. replace ((176 + n) / 8) with 22 in Ht by zlia.
        replace ((176 + n) mod 8) with n in Ht by zlia. by rewrite Ht.
      * apply (testbit_above _ 8 n); [|lia]. unfold sbus_flags. rewrite nth_lookup.
        destruct (f !! 23%nat) eqn:E; [|simpl; lia]. by apply (bytes_lookup f 23).
    + intros k p Hk. unfold sbus_field. rewrite Hv. apply packed_field; [done|].
      by rewrite list_lookup_fmap, Hk.
Qed.

Lemma sent_error p : 0 <= p < 4096 ->
  let r := sbus_pwm (sent p) in
  874 <= r <= 2153 /\ (880 <= p <= 2156 -> p - 6 <= r <= p - 2).
Proof.
  intros Hp r. subst r. unfold sbus_pwm, sent. zlia.
Qed.

(** Pulses of the exact widths. *)
Definition nominal (rs : list (Z * Z)) : list (Z * Z) := map (fun r => (10 * r.1, 10 * r.2)) rs.

Lemma nominal_measured rs : Forall2 measured rs (nominal rs).
Proof.
  apply Forall2_fmap_r, Forall_Forall2_diag, Forall_forall. intros [h l] _.
  unfold measured, measures. simpl. lia.
Qed.

(** A frame with the failsafe flag, for the examples. *)
Definition demo_frame : list Z := [15; 1; 2; 4; 8; 16; 32; 64; 128; 255; 0; 90; 165;
  1; 2; 4; 8; 16; 32; 64; 128; 255; 7; 8; 0].

(** * The properties *)

(** The SBUS frame decoder: a frame with the header 0x0f is decoded to its
    16 packed 11-bit fields, least significant bit first, each scaled to a servo
    pulse, the rest of the caller's array left alone, and to the failsafe and
    frame-lost flags; any other frame is refused.  The result is defined for
    every content of the frame. *)
Theorem sbus_decode_fields frame vals n : bytes frame -> zlen frame = SBUS.SBUS_FRAME_SIZE ->
  0 <= n <= 16 -> n <= zlen vals ->
  SBUS.sbus_decode frame vals n =
    Some (if decide (head frame = Some 0x0f)
          then Some (sbus_result frame vals (Z.to_nat n)) else None).
Proof. apply sbus_decode_spec. Qed.

Lemma sbus_decode_fields_witness :
  SBUS.sbus_decode demo_frame (replicate 16 0) 16 =
    Some (Some (sbus_result demo_frame (replicate 16 0) 16)).
Proof.
  apply (sbus_decode_fields demo_frame (replicate 16 0) 16);
    [repeat constructor; lia|reflexivity|lia|reflexivity].
Defined.

(** SBUS reception: a frame of 25 bytes sent on the line at 100000 baud
    with even parity and two stop bits, with up to 12 idle bits after each byte
    and more than 12 after the last, every pulse measured within -1 and +8
    microseconds, is delivered: the 16 channels become the current values, the
    input counter advances unless the frame carries the failsafe flag, and the
    receiver waits for the next frame. *)
Theorem sbus_reception vals b bs gaps gap ps : bytes bs -> length bs = 25%nat ->
  head bs = Some 0x0f -> length gaps = 24%nat -> Forall (fun g => 0 <= g <= 12) gaps ->
  12 < gap <= 6500 -> Forall2 measured (line_runs bs (gaps ++ [gap])) ps ->
  length vals = 16%nat -> length (Backend._pwm_values b) = 16%nat ->
  run_pulses vals ps (idle b) = Some (idle (delivered b bs)).
Proof. apply run_full_frame. Qed.

Lemma sbus_reception_witness :
  run_pulses (replicate 16 0) (nominal (line_runs demo_frame (replicate 24 2 ++ [300])))
    (idle Backend.create) = Some (idle (delivered Backend.create demo_frame)).
Proof.
  apply (sbus_reception _ _ demo_frame (replicate 24 2) 300); try reflexivity; try lia.
  - repeat constructor; lia.
  - apply Forall_replicate. lia.
  - apply nominal_measured.
Defined.

(** C38. Servo output to receiver input: the SBUS frame that the output driver
    builds for 16 servo pulses, sent on the line, is received as 16 channels
    whose values are within the receiver's range and, for pulses the encoding
    covers, 2 to 6 microseconds below the value sent. *)
Theorem sbus_round_trip vals b pwms gaps gap : length pwms = 16%nat ->
  Forall (fun p => 0 <= p < 4096) pwms -> length gaps = 24%nat ->
  Forall (fun g => 0 <= g <= 12) gaps -> 12 < gap <= 6500 ->
  length vals = 16%nat -> length (Backend._pwm_values b) = 16%nat ->
  exists f, SBusOut.frame (map Some pwms) = Some f /\ forall ps,
    Forall2 measured (line_runs f (gaps ++ [gap])) ps ->
    exists b', run_pulses vals ps (idle b) = Some (idle b') /\
      Backend.num_channels b' = 16 /\
      Backend.rc_input_count b' = u32 (Backend.rc_input_count b + 1) /\
      forall k p, pwms !! k = Some p -> exists r,
        Backend.read b' (Z.of_nat k) = Some r /\ 874 <= r <= 2153 /\
        (880 <= p <= 2156 -> p - 6 <= r <= p - 2).
Proof.
  intros Hl Hp Hg Hgs Hgap Hv Hb.
  destruct (frame_spec pwms Hl Hp) as (f&Hf&Hbf&Hlf&Hh&Hfl&Hk).
  exists f. split; [done|]. intros ps Hps. exists (delivered b f). split.
  - by apply (run_full_frame vals b f gaps gap).
  - split; [done|]. split; [unfold delivered; by rewrite Hfl|].
    intros k p Hkp. exists (sbus_pwm (sent p)).
    split; [|apply sent_error; by apply (Forall_lookup_1 _ _ _ _ Hp Hkp)].
    unfold Backend.read, delivered. cbn [Backend._pwm_values].
    rewrite arr_get_lookup, Nat2Z.id by lia. unfold sbus_channels.
    pose proof (lookup_lt_Some _ _ _ Hkp). rewrite list_lookup_fmap, lookup_seq_lt by lia.
    cbn [fmap option_fmap option_map Nat.add]. by rewrite Z.add_0_l, (Hk k p).
Qed.

Lemma sbus_round_trip_witness : exists f b' r,
  SBusOut.frame (map Some (replicate 16 1500)) = Some f /\
  run_pulses (replicate 16 0) (nominal (line_runs f (replicate 24 0 ++ [20])))
    (idle Backend.create) = Some (idle b') /\
  Backend.read b' 3 = Some r /\ 1494 <= r <= 1498.
Proof.
  destruct (sbus_round_trip (replicate 16 0) Backend.create (replicate 16 1500)
    (replicate 24 0) 20) as (f&Hf&H); try reflexivity; try lia.
  - apply Forall_replicate. lia.
  - apply Forall_replicate. lia.
  - destruct (H _ (nominal_measured _)) as (b'&Hb&_&_&Hr).
    destruct (Hr 3%nat 1500) as (r&Hr1&_&Hr2); [reflexivity|].
    exists f, b', r. repeat split; try assumption; apply Hr2; lia.
Defined.

(** The bit counter of the SBUS receiver is not checked before its array is
    written: after the 25 bytes of a frame, if the line is idle for at most 12
    bits, the next pulse of a byte writes past the end of [bytes]. *)
Theorem sbus_overrun vals b bs gaps w0 w1 ps h l : bytes bs -> length bs = 25%nat ->
  length gaps = 25%nat -> Forall (fun g => 0 <= g <= 12) gaps ->
  Forall2 measured (line_runs bs gaps) ps ->
  measures h w0 -> measures l w1 -> 1 <= h <= 10 -> 1 <= l <= 6553 ->
  run_pulses vals (ps ++ [(w0, w1)]) (idle b) = None.
Proof.
  intros Hb Hl Hg Hgs Hps H0 H1 Hh Hll. rewrite <- receiving_nil.
  rewrite (run_line vals b _ bs gaps []) by (done || (simpl; lia)).
  simpl app. unfold receiving. rewrite Hl. cbn [run_pulses]. unfold SBUS.process_pulse.
  rewrite (bits_of_measure h), (bits_of_measure l) by (done || lia).
  rewrite (proj2 (Z.eqb_neq h 0)), (proj2 (Z.eqb_neq l 0)) by lia. simpl orb. cbv iota.
  cbn [SBUS.bit_ofs]. change (u8 (12 * 25 mod 12)) with 0. change (u8 (12 * 25 / 12)) with 25.
  change (12 * Z.of_nat 25) with 300. change (u8 (300 mod 12)) with 0.
  change (u8 (300 / 12)) with 25. rewrite Z.add_0_r, Z.gtb_ltb, (proj2 (Z.ltb_ge 10 h)) by lia.
  cbn [SBUS.bytes]. rewrite arr_get_lookup by lia.
  rewrite lookup_ge_None_2; [done|]. rewrite length_app, length_map, Hl. done.
Qed.

Lemma sbus_overrun_witness :
  run_pulses (replicate 16 0) (nominal (line_runs demo_frame (replicate 25 5)) ++ [(10, 40)])
    (idle Backend.create) = None.
Proof.
  apply (sbus_overrun _ _ demo_frame (replicate 25 5) 10 40 _ 1 4); try reflexivity; try lia.
  - repeat constructor; lia.
  - apply Forall_replicate. lia.
  - apply nominal_measured.
  - unfold measures. lia.
  - unfold measures. lia.
Defined.
