(* ===== verification/RCSpec.v ===== *)
(** The other receiver protocols and the front end of AP_RCProtocol: what a
    PPM-sum frame delivers, what a DSM frame delivers, and which backend the
    front end listens to. *)
From S2P Require Import Prelude Float32 RCDecoders.
Open Scope urus_scope.

(** * PPM-sum *)
Section ppm.
Implicit Types (s : PPMSum.t) (ps : list (Z * Z)).

Fixpoint ppm_run (ps : list (Z * Z)) (s : PPMSum.t) : option PPMSum.t :=
  match ps with
  | [] => Some s
  | (w0, w1) :: ps => s ← PPMSum.process_pulse s w0 w1; ppm_run ps s
  end.

Definition total (p : Z * Z) : Z := p.1 + p.2.
(** A pulse shorter than the gap between two frames. *)
Definition short (p : Z * Z) : Prop := 0 <= p.1 /\ 0 <= p.2 /\ total p < 2700.
Definition is_channel (w : Z) : bool := (700 <? w) && (w <? 2300).

(** The channel values among some pulses. *)
Definition ppm_channels (ps : list (Z * Z)) : list Z :=
  List.filter is_channel (map total ps).

Definition ppm_delivered (b : Backend.t) (vs : list Z) : Backend.t :=
  Backend.mk (u32 (Backend.rc_input_count b + 1)) (Backend.last_rc_input_count b)
    (list_inserts 0 vs (Backend._pwm_values b)) (zlen vs).

(** The state after the channels [vs] of a frame; at the sixteenth, they are
    delivered and the counter waits for the next frame. *)
Definition ppm_after (b : Backend.t) (capt vs : list Z) : PPMSum.t :=
  if zlen vs <? 16 then PPMSum.mk b (zlen vs) (list_inserts 0 vs capt)
  else PPMSum.mk (ppm_delivered b (take 16 vs)) (-1) (list_inserts 0 (take 16 vs) capt).

Lemma inserts_snoc (l vs : list Z) x : (length vs < length l)%nat ->
  <[length vs := x]> (list_inserts 0 vs l) = list_inserts 0 (vs ++ [x]) l.
Proof.
  intros H. apply list_eq. intros i. rewrite lookup_inserts_dec, Nat.sub_0_r, length_app. simpl.
  destruct (decide (i = length vs)) as [->|].
  - rewrite list_lookup_insert, decide_True by (rewrite ?length_inserts; done).
    rewrite !decide_True by lia. by rewrite lookup_app_r, Nat.sub_diag by lia.
  - rewrite list_lookup_insert_ne, lookup_inserts_dec, Nat.sub_0_r by done.
    repeat case_decide; try lia; try done. by rewrite lookup_app_l by lia.
Qed.

Lemma take_inserts_0 (vs l : list Z) : (length vs <= length l)%nat ->
  take (length vs) (list_inserts 0 vs l) = vs.
Proof. intros H. rewrite <- (Nat.add_0_l (length vs)). by rewrite take_inserts_app. Qed.

Lemma add_input_prefix b n vs capt : (length vs <= 16)%nat -> n = zlen vs ->
  length capt = 16%nat -> length (Backend._pwm_values b) = 16%nat ->
  Backend.add_input b n (list_inserts 0 vs capt) false = Some (ppm_delivered b vs).
Proof.
  intros Hv -> Hc Hp. unfold Backend.add_input. change MAX_RCIN_CHANNELS with 16.
  rewrite Z.min_l by lia.
  rewrite blk_get_Some by (rewrite ?length_inserts; lia). rewrite Nat2Z.id, drop_0.
  rewrite take_inserts_0 by lia. simpl. rewrite blk_set_Some by lia. done.
Qed.

Lemma ppm_short b capt vs p : length capt = 16%nat -> length (Backend._pwm_values b) = 16%nat ->
  short p -> PPMSum.process_pulse (ppm_after b capt vs) p.1 p.2 =
    Some (ppm_after b capt (vs ++ ppm_channels [p])).
Proof.
  intros Hc Hb (H1&H2&H3). destruct p as [w0 w1]. unfold total in H3. simpl in *.
  unfold PPMSum.process_pulse, ppm_channels. cbn [map List.filter]. unfold total. simpl.
  rewrite u32_small, Z.geb_leb, (proj2 (Z.leb_gt 2700 _)) by lia. unfold ppm_after.
  destruct (Z.ltb_spec (zlen vs) 16) as [Hv|Hv]; cbn [PPMSum._channel_counter PPMSum._pulse_capt
    PPMSum.base].
  - rewrite (proj2 (Z.eqb_neq _ _)) by lia. rewrite Z.gtb_ltb. unfold is_channel.
    destruct ((700 <? w0 + w1) && (w0 + w1 <? 2300)) eqn:E.
    + apply andb_true_iff in E. rewrite u16_small, arr_set_Some by (rewrite ?length_inserts; lia).
      cbn [mbind option_bind]. rewrite Nat2Z.id, inserts_snoc, i8_small by lia.
      cbn [PPMSum._channel_counter PPMSum._pulse_capt PPMSum.base].
      change MAX_RCIN_CHANNELS with 16. rewrite Z.geb_leb, length_app. simpl length.
      destruct (Z.leb_spec 16 (zlen vs + 1)), (Z.ltb_spec (Z.of_nat (length vs + 1)) 16); try lia.
      * rewrite u8_small by lia. rewrite add_input_prefix by (rewrite ?length_app; simpl; lia).
        simpl. rewrite take_ge by (rewrite length_app; simpl; lia). done.
      * do 2 f_equal. lia.
    + rewrite app_nil_r. cbn [mbind option_bind PPMSum._channel_counter].
      change MAX_RCIN_CHANNELS with 16. rewrite Z.geb_leb, (proj2 (Z.leb_gt 16 _)) by lia.
      by rewrite (proj2 (Z.ltb_lt _ _)) by lia.
  - simpl. rewrite length_app, (proj2 (Z.ltb_ge _ _)) by lia.
    by rewrite take_app_le by lia.
Qed.

Lemma ppm_short_run b capt ps rest vs : length capt = 16%nat ->
  length (Backend._pwm_values b) = 16%nat -> Forall short ps ->
  ppm_run (ps ++ rest) (ppm_after b capt vs) =
    ppm_run rest (ppm_after b capt (vs ++ ppm_channels ps)).
Proof.
  intros Hc Hb Hps. revert vs. induction Hps as [|[w0 w1] ps Hp Hps IH]; intros vs.
  - by rewrite app_nil_r.
  - cbn [app ppm_run]. pose proof (ppm_short b capt vs (w0, w1) Hc Hb Hp) as E. simpl in E.
    rewrite E. cbn [mbind option_bind].
    rewrite IH, <- app_assoc. do 3 f_equal. unfold ppm_channels. simpl. by destruct (is_channel _).
Qed.
End ppm.

(** A PPM-sum frame: from the end of a frame on, whatever pulses shorter
    than 2700 microseconds follow, the pulse of at least 2700 microseconds that
    ends them finds their channels delivered exactly once: the pulses strictly
    between 700 and 2300 microseconds, in order, at most the first 16, and none
    when there are fewer than 5. *)
Theorem ppm_frame b capt ps w0 w1 : length capt = 16%nat ->
  length (Backend._pwm_values b) = 16%nat -> Forall short ps ->
  0 <= w0 + w1 < 4294967296 -> 2700 <= w0 + w1 ->
  let vs := take 16 (ppm_channels ps) in
  ppm_run (ps ++ [(w0, w1)]) (PPMSum.mk b 0 capt) =
    Some (PPMSum.mk (if 5 <=? zlen vs then ppm_delivered b vs else b) 0
            (list_inserts 0 vs capt)).
Proof.
  intros Hc Hb Hps H1 H2 vs.
  change (PPMSum.mk b 0 capt) with (ppm_after b capt []).
  rewrite ppm_short_run by done. simpl app. cbn [ppm_run]. unfold PPMSum.process_pulse.
  rewrite u32_small, Z.geb_leb, (proj2 (Z.leb_le 2700 _)) by lia.
  unfold ppm_after, vs, MIN_RCIN_CHANNELS. rewrite Z.geb_leb.
  destruct (Z.ltb_spec (zlen (ppm_channels ps)) 16); cbn [PPMSum._channel_counter
    PPMSum.base PPMSum._pulse_capt].
  - rewrite take_ge by lia. destruct (Z.leb_spec 5 (zlen (ppm_channels ps))); [|done].
    rewrite u8_small by lia. by rewrite add_input_prefix by (done || lia).
  - change (5 <=? -1) with false. cbv iota.
    by rewrite (proj2 (Z.leb_le 5 (zlen (take 16 _)))) by (rewrite length_take; lia).
Qed.

Lemma ppm_frame_witness :
  ppm_run (replicate 6 (400, 1100) ++ [(400, 8000)]) (PPMSum.mk Backend.create 0 (replicate 16 0)) =
    Some (PPMSum.mk (ppm_delivered Backend.create (replicate 6 1500)) 0
            (replicate 6 1500 ++ replicate 10 0)).
Proof.
  apply (ppm_frame Backend.create (replicate 16 0) (replicate 6 (400, 1100)));
    try reflexivity; try lia.
  apply Forall_replicate. unfold short, total. simpl. lia.
Defined.

(** * DSM *)
Section dsm.
Implicit Types (frame vals : list Z).

(** The (channel, value) pairs of a frame that the decoder uses. *)
Definition dsm_slot frame (shift : Z) (i : Z) : option (Z * Z) :=
  raw ← DSM.raw_at frame i;
  '(c, v) ← DSM.dsm_decode_channel raw shift;
  if c <? 8 then Some (c, v) else None.

Definition slots_from frame (shift i : Z) (n : nat) : list (Z * Z) :=
  omap (fun k => dsm_slot frame shift (i + Z.of_nat k)) (seq 0 n).

Definition dsm_slots frame (shift : Z) : list (Z * Z) := slots_from frame shift 0 7.

(** The servo pulse of a channel value. *)
Definition dsm_pulse (shift v : Z) : Z :=
  Z.quot (((if shift =? 10 then v * 2 else v) - 1024) * 1000) 1700 + 1500.

Definition put (shift : Z) (vals : list Z) (s : Z * Z) : list Z :=
  <[Z.to_nat (DSM.remap s.1) := dsm_pulse shift s.2]> vals.

Lemma slots_from_S frame shift i n :
  slots_from frame shift i (S n) =
    match dsm_slot frame shift i with
    | Some s => s :: slots_from frame shift (i + 1) n
    | None => slots_from frame shift (i + 1) n
    end.
Proof.
  assert (H : omap (fun k => dsm_slot frame shift (i + Z.of_nat k)) (seq 1 n) =
    slots_from frame shift (i + 1) n).
  { unfold slots_from. rewrite <- seq_shift. generalize (seq 0 n). intros l.
    induction l as [|k l IH]; [done|]. cbn [map omap list_omap].
    replace (i + 1 + Z.of_nat k) with (i + Z.of_nat (S k)) by lia.
    destruct (dsm_slot _ _ _); [f_equal|]; exact IH. }
  unfold slots_from at 1. cbn [seq omap list_omap]. rewrite Z.add_0_r.
  destruct (dsm_slot _ _ _); [f_equal|]; exact H.
Qed.

Lemma raw_at_Some frame i : bytes frame -> zlen frame = 16 -> 0 <= i < 7 ->
  exists raw, DSM.raw_at frame i = Some raw /\ 0 <= raw < 65536.
Proof.
  intros Hb Hl Hi. unfold DSM.raw_at.
  destruct (arr_get_Some frame (2 + 2 * i)) as [h Hh]; [lia|].
  destruct (arr_get_Some frame (2 + 2 * i + 1)) as [l Hl']; [lia|].
  rewrite Hh. simpl. rewrite Hl'. simpl. eexists. split; [done|]. apply u16_range.
Qed.

Lemma dsm_slot_range frame shift i c v : shift = 10 \/ shift = 11 ->
  dsm_slot frame shift i = Some (c, v) -> 0 <= c < 8 /\ 0 <= v < 2 ^ shift.
Proof.
  intros Hs. unfold dsm_slot. destruct (DSM.raw_at _ _) as [raw|]; simpl; [|done].
  unfold DSM.dsm_decode_channel. destruct (raw =? 0xffff); simpl; [done|].
  destruct (Z.ltb_spec ((raw >> shift) &&& 15) 8); [|done]. intros [= <- <-].
  split; [split; [|done]; change 15 with (Z.ones 4); rewrite land_ones_mod by lia;
    apply Z.mod_pos_bound; lia|].
  replace (u16 ((1 << shift) - 1)) with (Z.ones shift) by (destruct Hs as [-> | ->]; done).
  rewrite land_ones_mod by lia. apply Z.mod_pos_bound. destruct Hs as [-> | ->]; done.
Qed.

Lemma dsm_scale_pulse shift v : shift = 10 \/ shift = 11 -> 0 <= v < 2 ^ shift ->
  u16 (DSM.scale (if shift =? 10 then v * 2 else v)) = dsm_pulse shift v /\
  898 <= dsm_pulse shift v <= 2101.
Proof.
  intros Hs Hv. unfold DSM.scale, dsm_pulse.
  assert (Hx : 0 <= (if shift =? 10 then v * 2 else v) < 2048).
  { destruct Hs as [-> | ->]; simpl in *; lia. }
  generalize dependent (if shift =? 10 then v * 2 else v). intros x Hx.
  rewrite u32_small, u16_small by zlia. split; [done|zlia].
Qed.

Lemma remap_range c : 0 <= c < 8 -> 0 <= DSM.remap c < 8.
Proof. unfold DSM.remap. intros H. zcases; lia. Qed.

Lemma decode_slots_spec frame shift : bytes frame -> zlen frame = 16 ->
  shift = 10 \/ shift = 11 -> forall n i vals k, 0 <= i -> i + Z.of_nat n <= 7 ->
  length vals = 8%nat -> 0 <= k ->
  DSM.decode_slots frame shift 8 n i vals k =
    Some (foldl (put shift) vals (slots_from frame shift i n),
          foldl (fun m s => Z.max m (s.1 + 1)) k (slots_from frame shift i n)).
Proof.
  intros Hb Hl Hs. induction n as [|n IH]; intros i vals k Hi Hn Hv Hk; [done|].
  rewrite slots_from_S. cbn [DSM.decode_slots].
  pose proof (dsm_slot_range frame shift i) as Hr. unfold dsm_slot in Hr |- *.
  destruct (raw_at_Some frame i) as (raw&Hraw&_); [done|done|lia|].
  rewrite Hraw in Hr |- *. cbn [mbind option_bind] in Hr |- *.
  destruct (DSM.dsm_decode_channel raw shift) as [[c v]|]; cbn [mbind option_bind] in Hr |- *;
    [|apply IH; lia].
  rewrite Z.geb_leb. destruct (Z.leb_spec 8 c), (Z.ltb_spec c 8); try lia; [apply IH; lia|].
  destruct (Hr c v Hs eq_refl) as [Hc Hv']. cbn [foldl fst snd].
  destruct (dsm_scale_pulse shift v Hs Hv') as [-> _].
  rewrite arr_set_Some by (pose proof (remap_range c Hc); lia). cbn [mbind option_bind].
  rewrite Z.geb_leb, u16_small by lia.
  replace (if k <=? c then c + 1 else k) with (Z.max k (c + 1)) by (destruct (Z.leb_spec k c); lia).
  apply IH; unfold put; rewrite ?length_insert; lia.
Qed.

Lemma remap_inj c d : 0 <= c -> 0 <= d -> DSM.remap c = DSM.remap d -> c = d.
Proof. unfold DSM.remap. intros ??. zcases; lia. Qed.

(** The last value of channel [c] among some slots. *)
Definition last_value (c : Z) (l : list (Z * Z)) : option Z :=
  foldl (fun r s => if s.1 =? c then Some s.2 else r) None l.

Lemma put_lookup shift c l : 0 <= c < 8 -> Forall (fun s => 0 <= s.1 < 8) l ->
  forall vals, length vals = 8%nat ->
  foldl (put shift) vals l !! Z.to_nat (DSM.remap c) =
    match last_value c l with
    | Some v => Some (dsm_pulse shift v)
    | None => vals !! Z.to_nat (DSM.remap c)
    end.
Proof.
  intros Hc Hl vals Hv. pose proof (remap_range c Hc). unfold last_value.
  induction l as [|[d v] l IH] using rev_ind; [done|].
  apply Forall_app in Hl as [Hl [Hd _]%Forall_cons]. simpl in Hd. pose proof (remap_range d Hd).
  assert (Hlen : length (foldl (put shift) vals l) = 8%nat).
  { revert Hv. clear -l. revert vals. induction l; intros vals Hv; [done|]. simpl. apply IHl.
    unfold put. by rewrite length_insert. }
  rewrite !foldl_app. cbn [foldl fst snd]. unfold put at 1. cbn [fst snd].
  destruct (Z.eqb_spec d c) as [->|Hdc].
  - by rewrite list_lookup_insert, decide_True by (split; [done|lia]).
  - rewrite list_lookup_insert_ne; [by apply IH|].
    intros E%Z2Nat.inj; try lia. apply Hdc, remap_inj; lia.
Qed.

Lemma dsm_slots_range frame shift : shift = 10 \/ shift = 11 ->
  Forall (fun s => 0 <= s.1 < 8) (dsm_slots frame shift).
Proof.
  intros Hs. apply Forall_forall. intros [c v] (i&_&Hi)%list_elem_of_omap.
  by apply dsm_slot_range in Hi as [? _].
Qed.

(** The number of channels of a frame: one more than the highest number. *)
Definition dsm_count frame shift : Z :=
  foldl (fun m s => Z.max m (s.1 + 1)) 0 (dsm_slots frame shift).

Lemma dsm_count_range frame shift : shift = 10 \/ shift = 11 -> 0 <= dsm_count frame shift <= 8.
Proof.
  intros Hs. unfold dsm_count. pose proof (dsm_slots_range frame shift Hs) as Hl. revert Hl.
  generalize (dsm_slots frame shift). intros l Hl.
  assert (H : forall k, 0 <= k <= 8 -> 0 <= foldl (fun m s => Z.max m (s.1 + 1)) k l <= 8).
  { induction Hl as [|s l Hd Hl IH]; intros k Hk; [done|]. simpl. apply IH. lia. }
  by apply H.
Qed.

(** The decoder of a frame, its format known and the frame before recent. *)
Definition dsm_ready (time : Z) (s : DSM.t) : Prop :=
  (DSM.dsm_channel_shift s = 10 \/ DSM.dsm_channel_shift s = 11) /\
  u64 (time - DSM.dsm_last_frame_time s) <= 1000000.

Lemma dsm_decode_spec time frame vals s : bytes frame -> zlen frame = 16 ->
  dsm_ready time s -> length vals = 8%nat ->
  DSM.dsm_decode time frame vals 8 s = Some (DSM.set_time s time,
    Some (foldl (put (DSM.dsm_channel_shift s)) vals (dsm_slots frame (DSM.dsm_channel_shift s)),
          dsm_count frame (DSM.dsm_channel_shift s))).
Proof.
  intros Hb Hl [Hs Ht] Hv. unfold DSM.dsm_decode.
  rewrite Z.gtb_ltb, (proj2 (Z.ltb_ge _ _)) by lia. cbn [andb mbind option_bind].
  cbn [DSM.set_time DSM.dsm_channel_shift].
  rewrite (proj2 (Z.eqb_neq _ 0)) by lia. unfold DSM.DSM_FRAME_CHANNELS.
  change (Z.to_nat 7) with 7%nat. rewrite decode_slots_spec by (done || lia).
  cbn [mbind option_bind]. fold (dsm_slots frame (DSM.dsm_channel_shift s)).
  fold (dsm_count frame (DSM.dsm_channel_shift s)).
  pose proof (dsm_count_range frame _ Hs). by rewrite (proj2 (Z.eqb_neq _ 13)) by lia.
Qed.
End dsm.

Lemma dsm_get_bytes_spec words : forall out bs, DSM.get_bytes words out = Some bs ->
  bytes out -> bytes bs /\ length bs = (length out + length words)%nat.
Proof.
  induction words as [|w words IH]; intros out bs; simpl.
  - intros [= <-] H. split; [done|lia].
  - destruct (nz _); [done|]. destruct (negb _); [done|]. intros H Ho.
    destruct (IH _ _ H) as [Hb Hl].
    + apply Forall_app. split; [done|]. constructor; [|constructor].
      change 255 with (Z.ones 8). rewrite land_ones_mod by lia. by apply Z.mod_pos_bound.
    + split; [done|]. rewrite Hl, length_app. simpl. lia.
Qed.

(** A DSM frame of known format: after its 16 bytes, the number of channels
    is one more than the highest channel number in the frame; each channel below
    it that the frame carries has the servo pulse, between 898 and 2101
    microseconds, of its last value in the frame, in the order throttle, roll,
    pitch of the sender remapped; and a channel that the frame does not carry has
    whatever the decoder's uninitialised array held. *)
Theorem dsm_frame time vals s frame : DSM.get_bytes (DSM.bytes s) [] = Some frame ->
  length (DSM.bytes s) = 16%nat -> dsm_ready time s -> length vals = 8%nat ->
  length (Backend._pwm_values (DSM.base s)) = 16%nat ->
  let shift := DSM.dsm_channel_shift s in
  let n := dsm_count frame shift in
  5 <= n ->
  exists s', DSM.full_frame time vals s = Some (s', false) /\
    Backend.num_channels (DSM.base s') = n /\
    Backend.rc_input_count (DSM.base s') = u32 (Backend.rc_input_count (DSM.base s) + 1) /\
    forall c, 0 <= c < n -> Backend.read (DSM.base s') (DSM.remap c) =
      match last_value c (dsm_slots frame shift) with
      | Some v => Some (dsm_pulse shift v)
      | None => vals !! Z.to_nat (DSM.remap c)
      end.
Proof.
  intros Hg Hl Hr Hv Hp shift n Hn.
  destruct (dsm_get_bytes_spec _ _ _ Hg (Forall_nil_2 _)) as [Hb Hlf]. simpl in Hlf.
  pose proof (proj1 Hr) as Hs. pose proof (dsm_count_range frame shift Hs) as Hc. fold n in Hc.
  unfold DSM.full_frame. rewrite Hg, dsm_decode_spec by (done || lia). cbn [mbind option_bind].
  fold shift. fold n. unfold MIN_RCIN_CHANNELS. rewrite Z.geb_leb, (proj2 (Z.leb_le 5 n)) by lia.
  set (vs := foldl (put shift) vals (dsm_slots frame shift)).
  assert (Hlvs : length vs = 8%nat).
  { subst vs. clear -Hv. generalize (dsm_slots frame shift). intros l. revert vals Hv.
    induction l; intros vals Hv; [done|]. simpl. apply IHl. unfold put. by rewrite length_insert. }
  unfold Backend.add_input. change MAX_RCIN_CHANNELS with 16.
  rewrite u8_small, Z.min_l by lia. rewrite blk_get_Some by lia. cbn [mbind option_bind].
  rewrite drop_0, blk_set_Some by (rewrite ?length_take; cbn [DSM.set_time DSM.base]; lia).
  cbn [mbind option_bind]. eexists. split; [done|]. split; [done|]. split; [done|].
  intros c Hcn. unfold Backend.read. cbn [DSM.base DSM.set_base Backend._pwm_values DSM.set_time].
  assert (Hcr : 0 <= DSM.remap c < n) by (unfold DSM.remap; zcases; lia).
  rewrite arr_get_lookup, lookup_inserts_dec, length_take by lia.
  change (Z.to_nat 0) with 0%nat. rewrite Nat.sub_0_r, !decide_True, lookup_take_lt by lia.
  apply put_lookup; [lia|by apply dsm_slots_range|done].
Qed.

(** Channels 0, 1, 2, 3 and 6 at the centre of the 11-bit range, twice channel 0
    first; channels 4 and 5 missing. *)
Definition demo_dsm : DSM.t :=
  DSM.mk Backend.create 0 11 0 0 0
    (map (fun b => (b << 1) ||| 0x200)
       [0; 0; 4; 0; 4; 0; 12; 0; 20; 0; 28; 0; 52; 0; 255; 255]) 0.

Lemma dsm_frame_witness : exists s', DSM.full_frame 10000 (replicate 8 777) demo_dsm = Some (s', false) /\
  Backend.num_channels (DSM.base s') = 7 /\
  Backend.read (DSM.base s') (DSM.remap 1) = Some 1500 /\
  Backend.read (DSM.base s') (DSM.remap 5) = Some 777.
Proof.
  destruct (dsm_frame 10000 (replicate 8 777) demo_dsm
    [0; 0; 4; 0; 4; 0; 12; 0; 20; 0; 28; 0; 52; 0; 255; 255]) as (s'&H1&H2&_&H4);
    try reflexivity.
  - split; [right; reflexivity|]. vm_compute. discriminate.
  - vm_compute. discriminate.
  - exists s'. split; [exact H1|]. split; [exact H2|]. split; apply H4; vm_compute;
      split; (discriminate || reflexivity).
Defined.

(** * The front end *)
Section front_end.
Import RCProtocol.
Implicit Types (s : RCProtocol.t) (e : env).

(** The state of the backend [p]. *)
Definition base_of s (p : rcprotocol_t) : Backend.t :=
  match p with
  | PPM => PPMSum.base (ppm s)
  | SBUS => SBUS.base (sbus s)
  | DSM => DSM.base (dsm s)
  | NONE => Backend.create
  end.

Definition quiet (b : Backend.t) : Prop :=
  Backend.last_rc_input_count b = Backend.rc_input_count b.

Lemma add_input_last b n vs fs b' : Backend.add_input b n vs fs = Some b' ->
  Backend.last_rc_input_count b' = Backend.last_rc_input_count b.
Proof.
  unfold Backend.add_input. destruct (blk_get _ _ _); simpl; [|done].
  destruct (blk_set _ _ _); simpl; [|done]. by intros [= <-].
Qed.

(** Inverts a computation in the option monad down to its steps. *)
Ltac inv_steps :=
  repeat match goal with
  | H : Some _ = Some _ |- _ => injection H; clear H; intros; subst
  | H : None = Some _ |- _ => discriminate H
  | H : (?o ≫= _) = Some _ |- _ =>
    let E := fresh "E" in destruct o eqn:E; cbn [mbind option_bind] in H; [|discriminate H]
  | H : (if ?c then _ else _) = Some _ |- _ => destruct c
  | H : (let '(_, _) := ?p in _) = Some _ |- _ => destruct p eqn:?
  | H : match ?o with _ => _ end = Some _ |- _ => destruct o eqn:?
  end.

Ltac base_steps := inv_steps; try done;
  repeat match goal with H : Backend.add_input _ _ _ _ = Some _ |- _ => apply add_input_last in H end;
  simpl in *; congruence.

Lemma ppm_last b w0 w1 b' : PPMSum.process_pulse b w0 w1 = Some b' ->
  Backend.last_rc_input_count (PPMSum.base b') = Backend.last_rc_input_count (PPMSum.base b).
Proof. intros H. unfold PPMSum.process_pulse in H. base_steps. Qed.

Lemma sbus_last vals b w0 w1 b' : SBUS.process_pulse vals b w0 w1 = Some b' ->
  Backend.last_rc_input_count (SBUS.base b') = Backend.last_rc_input_count (SBUS.base b).
Proof.
  intros H. unfold SBUS.process_pulse, SBUS.full_frame in H. cbv zeta in H. base_steps.
Qed.

Lemma low_bits_base b n : DSM.base (DSM.low_bits b n) = DSM.base b.
Proof. unfold DSM.low_bits. by case_match. Qed.

Lemma guess_base r frame b b' : DSM.dsm_guess_format r frame b = Some b' ->
  DSM.base b' = DSM.base b.
Proof. intros H. unfold DSM.dsm_guess_format in H. cbv zeta in H. base_steps. Qed.

Lemma dsm_decode_base time frame vals n b b' r :
  DSM.dsm_decode time frame vals n b = Some (b', r) -> DSM.base b' = DSM.base b.
Proof.
  intros H. unfold DSM.dsm_decode in H. cbv zeta in H. inv_steps;
    repeat match goal with E : DSM.dsm_guess_format _ _ _ = Some _ |- _ => apply guess_base in E end;
    simpl in *; congruence.
Qed.

Lemma dsm_last time vals b w0 w1 b' : DSM.process_pulse time vals b w0 w1 = Some b' ->
  Backend.last_rc_input_count (DSM.base b') = Backend.last_rc_input_count (DSM.base b).
Proof.
  intros H. unfold DSM.process_pulse, DSM.full_frame in H. cbv zeta in H. inv_steps;
    rewrite ?low_bits_base; try done;
    repeat match goal with
    | H : Backend.add_input _ _ _ _ = Some _ |- _ => apply add_input_last in H
    | H : DSM.dsm_decode _ _ _ _ _ = Some _ |- _ => apply dsm_decode_base in H
    end; simpl in *; congruence.
Qed.

Definition same_backend (p : rcprotocol_t) s s' : Prop :=
  match p with
  | PPM => ppm s' = ppm s
  | SBUS => sbus s' = sbus s
  | DSM => dsm s' = dsm s
  | NONE => True
  end.

Definition count s (p : rcprotocol_t) : Z := Backend.rc_input_count (base_of s p).

Definition quiet_all s : Prop := forall p, quiet (base_of s p).

Lemma new_input_spec b b' new b0 : quiet b0 ->
  Backend.last_rc_input_count b = Backend.last_rc_input_count b0 ->
  Backend.new_input b = (new, b') ->
  quiet b' /\ Backend.rc_input_count b' = Backend.rc_input_count b /\
  new = bool_decide (Backend.rc_input_count b' <> Backend.rc_input_count b0).
Proof.
  unfold quiet, Backend.new_input. intros Hq Hl. rewrite Hl, Hq.
  destruct (Z.eqb_spec (Backend.rc_input_count b) (Backend.rc_input_count b0)) as [E|E];
    simpl; intros [= <- <-]; simpl; (split; [congruence|split; [done|]]).
  - symmetry. apply bool_decide_eq_false_2. tauto.
  - symmetry. by apply bool_decide_eq_true_2.
Qed.

Lemma backend_pulse_spec p e s w0 w1 new s' : quiet_all s ->
  backend_pulse p e s w0 w1 = Some (new, s') ->
  quiet_all s' /\ (forall q, q <> p -> same_backend q s s') /\
  new = bool_decide (count s' p <> count s p) /\
  _detected_protocol s' = _detected_protocol s /\ _new_input s' = _new_input s /\
  _last_input_ms s' = _last_input_ms s.
Proof.
  intros Hq H. destruct p; cbn [backend_pulse] in H; [| | |done]; inv_steps;
    match goal with
    | E : PPMSum.process_pulse _ _ _ = _ |- _ => apply ppm_last in E; pose proof (Hq PPM) as Hp
    | E : SBUS.process_pulse _ _ _ _ = _ |- _ => apply sbus_last in E; pose proof (Hq SBUS) as Hp
    | E : DSM.process_pulse _ _ _ _ _ = _ |- _ => apply dsm_last in E; pose proof (Hq DSM) as Hp
    end;
    match goal with E : Backend.new_input _ = _ |- _ =>
      eapply new_input_spec in E as (Q1&Q2&Q3); [|exact Hp|eassumption] end;
    (split; [intros []; try exact Q1; (exact (Hq PPM) || exact (Hq SBUS) || exact (Hq DSM) || done)|]);
    (split; [intros []; done|]); done.
Qed.

Lemma same_backend_count s s' p : same_backend p s s' -> count s' p = count s p.
Proof. unfold count. destruct p; simpl; congruence. Qed.

(** One scanned backend, from the state [s0] before the scan. *)
Lemma scan_one_spec p e s w0 w1 s' : quiet_all s -> scan_one e w0 w1 s p = Some s' ->
  quiet_all s' /\ (forall q, q <> p -> same_backend q s s') /\
  (count s' p = count s p -> _detected_protocol s' = _detected_protocol s /\
     _new_input s' = _new_input s /\ _last_input_ms s' = _last_input_ms s) /\
  (count s' p <> count s p -> _detected_protocol s' = p /\ _new_input s' = true /\
     _last_input_ms s' = millis_end e).
Proof.
  intros Hq H. unfold scan_one in H.
  destruct (backend_pulse p e s w0 w1) as [[new s1]|] eqn:E; [|done]. cbn [mbind option_bind] in H.
  destruct (backend_pulse_spec _ _ _ _ _ _ _ Hq E) as (Q1&Q2&Q3&Q4). subst new.
  case_bool_decide as Hc; injection H as <-.
  - split; [intros q; apply (Q1 q)|]. split; [done|]. split; [|done].
    intros Hc'. by destruct Hc.
  - split; [done|]. split; [done|]. split; [done|]. intros Hc'. by destruct Hc.
Qed.

(** Locked on a protocol: it delivered less than 200 ms ago. *)
Definition locked e s : bool := detected s && (u32 (millis e - _last_input_ms s) <? 200).
End front_end.

(** Protocol detection: a pulse goes to the detected backend alone while it
    delivered less than 200 ms ago, and to all backends otherwise; the front end
    reports new input exactly when a backend delivered a frame, remembers the
    time, and the detected protocol is then one that delivered in this call; no
    backend keeps an input that was not reported. *)
Theorem rc_detection e s w0 w1 s' : quiet_all s ->
  RCProtocol.process_pulse e s w0 w1 = Some s' ->
  quiet_all s' /\
  (locked e s = true ->
     RCProtocol._detected_protocol s' = RCProtocol._detected_protocol s /\
     forall p, p <> RCProtocol._detected_protocol s -> same_backend p s s') /\
  ((forall p, count s' p = count s p) ->
     RCProtocol._detected_protocol s' = RCProtocol._detected_protocol s /\
     RCProtocol._new_input s' = RCProtocol._new_input s /\
     RCProtocol._last_input_ms s' = RCProtocol._last_input_ms s) /\
  ((exists p, count s' p <> count s p) ->
     count s' (RCProtocol._detected_protocol s') <> count s (RCProtocol._detected_protocol s') /\
     RCProtocol._new_input s' = true /\
     RCProtocol._last_input_ms s' = RCProtocol.millis_end e).
Proof.
  intros Hq H. unfold RCProtocol.process_pulse in H. fold (locked e s) in H.
  destruct (locked e s) eqn:El.
  - assert (Hs : RCProtocol.scan_one e w0 w1 s (RCProtocol._detected_protocol s) = Some s').
    { unfold RCProtocol.scan_one. destruct (RCProtocol.backend_pulse _ _ _ _ _) as [[new s1]|] eqn:E;
        [|done]. cbn [mbind option_bind] in H |- *.
      destruct (backend_pulse_spec _ _ _ _ _ _ _ Hq E) as (_&_&_&Hd&_). by rewrite <- Hd. }
    destruct (scan_one_spec _ _ _ _ _ _ Hq Hs) as (Q1&Q2&Q3&Q4).
    assert (Hd : RCProtocol._detected_protocol s' = RCProtocol._detected_protocol s).
    { destruct (decide (count s' (RCProtocol._detected_protocol s) =
        count s (RCProtocol._detected_protocol s))) as [E|E]; [by apply Q3|by apply Q4]. }
    split; [done|]. split; [done|]. split; [intros Ha; by apply Q3|].
    intros [p Hp]. rewrite Hd.
    assert (Ec : count s' (RCProtocol._detected_protocol s) <>
      count s (RCProtocol._detected_protocol s)).
    { destruct (decide (p = RCProtocol._detected_protocol s)) as [<-|E]; [done|].
      intros _. by apply Hp, same_backend_count, Q2. }
    split; [done|]. by apply Q4.
  - destruct (RCProtocol.scan_one e w0 w1 s RCProtocol.PPM) as [s1|] eqn:E1; [|done].
    cbn [mbind option_bind] in H.
    destruct (RCProtocol.scan_one e w0 w1 s1 RCProtocol.SBUS) as [s2|] eqn:E2; [|done].
    cbn [mbind option_bind] in H.
    destruct (scan_one_spec _ _ _ _ _ _ Hq E1) as (Q1&S1&A1&B1).
    destruct (scan_one_spec _ _ _ _ _ _ Q1 E2) as (Q2&S2&A2&B2).
    destruct (scan_one_spec _ _ _ _ _ _ Q2 H) as (Q3&S3&A3&B3).
    assert (P1 : count s' RCProtocol.PPM = count s1 RCProtocol.PPM).
    { rewrite (same_backend_count s2) by by apply S3. by apply same_backend_count, S2. }
    assert (P2a : count s1 RCProtocol.SBUS = count s RCProtocol.SBUS)
      by by apply same_backend_count, S1.
    assert (P2b : count s' RCProtocol.SBUS = count s2 RCProtocol.SBUS)
      by by apply same_backend_count, S3.
    assert (P3 : count s2 RCProtocol.DSM = count s RCProtocol.DSM).
    { rewrite (same_backend_count s1) by by apply S2. by apply same_backend_count, S1. }
    split; [done|]. split; [done|].
    destruct (decide (count s' RCProtocol.DSM = count s2 RCProtocol.DSM)) as [C3|C3];
      [destruct (A3 C3) as (->&->&->)|destruct (B3 C3) as (->&->&->)];
    [destruct (decide (count s2 RCProtocol.SBUS = count s1 RCProtocol.SBUS)) as [C2|C2];
      [destruct (A2 C2) as (->&->&->)|destruct (B2 C2) as (->&->&->)]|];
    [destruct (decide (count s1 RCProtocol.PPM = count s RCProtocol.PPM)) as [C1|C1];
      [destruct (A1 C1) as (->&->&->)|destruct (B1 C1) as (->&->&->)]| |].
    + split; [done|]. intros [[] Hp]; exfalso; apply Hp; try congruence. done.
    + split; [intros Ha; by rewrite <- P1, Ha in C1|]. intros _. by rewrite P1.
    + split; [intros Ha; by rewrite <- P2b, P2a, Ha in C2|]. intros _. by rewrite P2b, <- P2a.
    + split; [intros Ha; by rewrite P3, Ha in C3|]. intros _. by rewrite <- P3.
Qed.

Definition demo_env : RCProtocol.env :=
  RCProtocol.Env 1000 1001 1000000 (replicate 16 0) (replicate 8 0).

(** Nothing detected yet, six PPM channels captured. *)
Definition demo_rc : RCProtocol.t :=
  RCProtocol.mk RCProtocol.NONE (PPMSum.mk Backend.create 6 (replicate 16 1500))
    SBUS.create DSM.create false 0.

Lemma rc_detection_witness : exists s',
  RCProtocol.process_pulse demo_env demo_rc 400 8000 = Some s' /\ quiet_all s' /\
  RCProtocol._new_input s' = true /\ RCProtocol._last_input_ms s' = 1001.
Proof.
  assert (Hq : quiet_all demo_rc) by (intros []; reflexivity).
  eexists. split; [vm_compute; reflexivity|].
  destruct (rc_detection demo_env demo_rc 400 8000 _ Hq ltac:(vm_compute; reflexivity))
    as (Q&_&_&H).
  split; [exact Q|]. destruct H as (_&H1&H2); [|split; [exact H1|exact H2]].
  exists RCProtocol.PPM. vm_compute. discriminate.
Defined.
