(* ===== verification/Mission.v ===== *)
(** The mission executive: libraries/AP_Mission/AP_Mission.{h,cpp}.

    The list of commands lives in the mission area of the storage, through
    StorageManager; the vehicle (the three callbacks, home and position) and the
    MAVLink command numbers, which are generated code, are parameters.  The
    callbacks get the command and change the vehicle, not the mission.  [None]
    says that a loop did not end within the fuel given. *)
From S2P Require Import Prelude Float32 Storage.
Open Scope urus_scope.
Import StorageManager.

(** * The environment *)

(** Numbers of the generated MAVLink headers (enum MAV_CMD). *)
Class MavCmds := {
  MAV_CMD_NAV_WAYPOINT : Z;
  MAV_CMD_NAV_TAKEOFF : Z;
  MAV_CMD_NAV_GUIDED_ENABLE : Z;
  MAV_CMD_NAV_DELAY : Z;
  MAV_CMD_NAV_LAST : Z;
  MAV_CMD_DO_JUMP : Z;
  MAV_CMD_DO_LAND_START : Z;
  MAV_CMD_NAV_SET_YAW_SPEED : Z
}.

(** [Mission_Command]: [content] is the 12 bytes of the union. *)
Record Mission_Command := Command { index : Z; id : Z; p1 : Z; content : list Z }.

#[export] Instance Mission_Command_eq_dec : EqDecision Mission_Command.
Proof. solve_decision. Defined.

(** What the mission uses of the vehicle. *)
Class Vehicle (W : Type) := {
  cmd_start : W -> Mission_Command -> W;            (* _cmd_start_fn *)
  cmd_verify : W -> Mission_Command -> bool * W;    (* _cmd_verify_fn *)
  mission_complete : W -> W;                        (* _mission_complete_fn *)
  get_home : W -> list Z;                           (* a Location, 12 bytes *)
  get_position : W -> option (list Z);
  get_distance : list Z -> list Z -> spec_float;    (* AP_Math, of Locations *)
  get_bearing_cd : list Z -> list Z -> Z;
  millis : W -> Z
}.

Module Mission.
Definition AP_MISSION_EEPROM_VERSION : Z := 0x65AE.
Definition AP_MISSION_EEPROM_COMMAND_SIZE : Z := 15.
Definition AP_MISSION_MAX_NUM_DO_JUMP_COMMANDS : Z := 15.
Definition AP_MISSION_JUMP_REPEAT_FOREVER : Z := -1.
Definition AP_MISSION_CMD_ID_NONE : Z := 0.
Definition AP_MISSION_CMD_INDEX_NONE : Z := 65535.
Definition AP_MISSION_JUMP_TIMES_MAX : Z := 32767.
Definition AP_MISSION_FIRST_REAL_COMMAND : Z := 1.
Definition AP_MISSION_MASK_MISSION_CLEAR : Z := 1 << 0.

(** The fields of the union, by their offset in it. *)
Definition jump_target (c : Mission_Command) : Z := le_val (take 2 (content c)).
Definition jump_num_times (c : Mission_Command) : Z :=
  i16 (le_val (take 2 (drop 2 (content c)))).
Definition location_lat (c : Mission_Command) : Z :=
  i32 (le_val (take 4 (drop 4 (content c)))).
Definition location_lng (c : Mission_Command) : Z :=
  i32 (le_val (take 4 (drop 8 (content c)))).

Inductive mission_state := MISSION_STOPPED | MISSION_RUNNING | MISSION_COMPLETE.

#[global] Instance mission_state_eq_dec : EqDecision mission_state.
Proof. solve_decision. Defined.

Record Mission_Flags := Flags {
  state : mission_state;
  nav_cmd_loaded : bool;
  do_cmd_loaded : bool;
  do_cmd_all_done : bool
}.

(** [jump_tracking_struct] *)
Record jump_tracking := Jump { jt_index : Z; num_times_run : Z }.

#[global] Instance jump_tracking_eq_dec : EqDecision jump_tracking.
Proof. solve_decision. Defined.

Section mission.
Context {S W : Type} `{HalStorage S, Vehicle W, MavCmds}.
(** The layout of the storage; the content of an uninitialised local command. *)
Context (layout : list StorageArea) (junk : Mission_Command).

Record t := mk {
  _flags : Mission_Flags;
  _nav_cmd : Mission_Command;
  _do_cmd : Mission_Command;
  _prev_nav_cmd_id : Z;
  _prev_nav_cmd_index : Z;
  _prev_nav_cmd_wp_index : Z;
  _jump_tracking : list jump_tracking;
  _last_change_time_ms : Z;
  _cmd_total : Z;     (* parameters, int16_t, int8_t, int16_t *)
  _restart : Z;
  _options : Z;
  _storage : S;
  vehicle : W
}.
Implicit Types (s : t).

Definition set_flags s f := mk f (_nav_cmd s) (_do_cmd s) (_prev_nav_cmd_id s)
  (_prev_nav_cmd_index s) (_prev_nav_cmd_wp_index s) (_jump_tracking s)
  (_last_change_time_ms s) (_cmd_total s) (_restart s) (_options s) (_storage s) (vehicle s).
Definition set_nav_cmd s c := mk (_flags s) c (_do_cmd s) (_prev_nav_cmd_id s)
  (_prev_nav_cmd_index s) (_prev_nav_cmd_wp_index s) (_jump_tracking s)
  (_last_change_time_ms s) (_cmd_total s) (_restart s) (_options s) (_storage s) (vehicle s).
Definition set_do_cmd s c := mk (_flags s) (_nav_cmd s) c (_prev_nav_cmd_id s)
  (_prev_nav_cmd_index s) (_prev_nav_cmd_wp_index s) (_jump_tracking s)
  (_last_change_time_ms s) (_cmd_total s) (_restart s) (_options s) (_storage s) (vehicle s).
Definition set_prev s i x w := mk (_flags s) (_nav_cmd s) (_do_cmd s) i x w
  (_jump_tracking s) (_last_change_time_ms s) (_cmd_total s) (_restart s) (_options s)
  (_storage s) (vehicle s).
Definition set_jumps s j := mk (_flags s) (_nav_cmd s) (_do_cmd s) (_prev_nav_cmd_id s)
  (_prev_nav_cmd_index s) (_prev_nav_cmd_wp_index s) j
  (_last_change_time_ms s) (_cmd_total s) (_restart s) (_options s) (_storage s) (vehicle s).
Definition set_total s n := mk (_flags s) (_nav_cmd s) (_do_cmd s) (_prev_nav_cmd_id s)
  (_prev_nav_cmd_index s) (_prev_nav_cmd_wp_index s) (_jump_tracking s)
  (_last_change_time_ms s) n (_restart s) (_options s) (_storage s) (vehicle s).
Definition set_storage s x time := mk (_flags s) (_nav_cmd s) (_do_cmd s) (_prev_nav_cmd_id s)
  (_prev_nav_cmd_index s) (_prev_nav_cmd_wp_index s) (_jump_tracking s)
  time (_cmd_total s) (_restart s) (_options s) x (vehicle s).
Definition set_vehicle s w := mk (_flags s) (_nav_cmd s) (_do_cmd s) (_prev_nav_cmd_id s)
  (_prev_nav_cmd_index s) (_prev_nav_cmd_wp_index s) (_jump_tracking s)
  (_last_change_time_ms s) (_cmd_total s) (_restart s) (_options s) (_storage s) w.

Definition set_state s x := set_flags s (Flags x (nav_cmd_loaded (_flags s))
  (do_cmd_loaded (_flags s)) (do_cmd_all_done (_flags s))).
Definition set_nav_loaded s b := set_flags s (Flags (state (_flags s)) b
  (do_cmd_loaded (_flags s)) (do_cmd_all_done (_flags s))).
Definition set_do_loaded s b := set_flags s (Flags (state (_flags s))
  (nav_cmd_loaded (_flags s)) b (do_cmd_all_done (_flags s))).
Definition set_all_done s b := set_flags s (Flags (state (_flags s))
  (nav_cmd_loaded (_flags s)) (do_cmd_loaded (_flags s)) b).

Definition with_index (c : Mission_Command) (i : Z) : Mission_Command :=
  Command i (id c) (p1 c) (content c).
Definition set_nav_index s i := set_nav_cmd s (with_index (_nav_cmd s) i).
Definition set_do_index s i := set_do_cmd s (with_index (_do_cmd s) i).

Definition start_cmd s c := set_vehicle s (cmd_start (vehicle s) c).

(** [(unsigned)_cmd_total] *)
Definition utotal s : Z := u32 (_cmd_total s).

(** ** The commands in storage *)

Definition storage_size : Z := total_size layout StorageMission.

Definition num_commands_max : Z := u16 (Z.quot (storage_size - 4) AP_MISSION_EEPROM_COMMAND_SIZE).

Definition pos_in_storage (index : Z) : Z := u16 (4 + index * AP_MISSION_EEPROM_COMMAND_SIZE).

Definition sread_byte s loc : Z := read_byte layout StorageMission (_storage s) 0 loc.
Definition sread_uint16 s loc : Z := read_uint16 layout StorageMission (_storage s) 0 loc.
Definition sread_uint32 s loc : Z := read_uint32 layout StorageMission (_storage s) 0 loc.

(** [_storage.read_block(bytes, loc, n)] *)
Definition sread_block s (bytes : list Z) loc n : list Z :=
  let bs := (read_block layout StorageMission (_storage s) [] loc n).2 in
  bs ++ drop (Datatypes.length bs) bytes.

(** [read_cmd_from_storage]: [cmd] is the content of the caller's command. *)
Definition read_cmd_from_storage s (index : Z) (cmd : Mission_Command) : option Mission_Command :=
  if (index >=? utotal s) && negb (index =? 0) then None
  else if index =? 0 then Some (Command 0 MAV_CMD_NAV_WAYPOINT 0 (get_home (vehicle s)))
  else
    let pos := pos_in_storage index in
    let b1 := sread_byte s pos in
    if b1 =? 0 then
      Some (Command index (sread_uint16 s (u16 (pos + 1))) (sread_uint16 s (u16 (pos + 3)))
              (sread_block s (content cmd) (u16 (pos + 5)) 10))
    else
      Some (Command index b1 (sread_uint16 s (u16 (pos + 1)))
              (sread_block s (content cmd) (u16 (pos + 3)) 12)).

Definition write_cmd_to_storage s (index : Z) (cmd : Mission_Command) : bool * t :=
  if index >=? num_commands_max then (false, s)
  else
    let pos := pos_in_storage index in
    let st := _storage s in
    let st :=
      if id cmd <? 256 then
        let st := write_byte layout StorageMission st pos (u8 (id cmd)) in
        let st := write_uint16 layout StorageMission st (u16 (pos + 1)) (p1 cmd) in
        (write_block layout StorageMission st (u16 (pos + 3)) (take 12 (content cmd))).2
      else
        let st := write_byte layout StorageMission st pos 0 in
        let st := write_uint16 layout StorageMission st (u16 (pos + 1)) (id cmd) in
        let st := write_uint16 layout StorageMission st (u16 (pos + 3)) (p1 cmd) in
        (write_block layout StorageMission st (u16 (pos + 5)) (take 10 (content cmd))).2 in
    (true, set_storage s st (millis (vehicle s))).

Definition write_home_to_storage s : t :=
  (write_cmd_to_storage s 0 (Command 0 MAV_CMD_NAV_WAYPOINT 0 (get_home (vehicle s)))).2.

(** [add_cmd]: the result, the command with its index, the state. *)
Definition add_cmd s (cmd : Mission_Command) : bool * Mission_Command * t :=
  let '(ret, s) := write_cmd_to_storage s (u16 (_cmd_total s)) cmd in
  if ret : bool then
    (true, with_index cmd (u16 (_cmd_total s)), set_total s (i16 (_cmd_total s + 1)))
  else (false, cmd, s).

Definition replace_cmd s (index : Z) (cmd : Mission_Command) : bool * t :=
  if index >=? utotal s then (false, s) else write_cmd_to_storage s index cmd.

Definition truncate s (index : Z) : t :=
  if utotal s >? index then set_total s (i16 index) else s.

Definition clear s : bool * t :=
  if decide (state (_flags s) = MISSION_RUNNING) then (false, s)
  else
    let s := set_total s 0 in
    let s := set_nav_index s AP_MISSION_CMD_INDEX_NONE in
    let s := set_do_index s AP_MISSION_CMD_INDEX_NONE in
    (true, set_do_loaded (set_nav_loaded s false) false).

Definition check_eeprom_version s : t :=
  if negb (sread_uint32 s 0 =? AP_MISSION_EEPROM_VERSION) then
    let '(ok, s) := clear s in
    if ok : bool then
      set_storage s (write_uint32 layout StorageMission (_storage s) 0 AP_MISSION_EEPROM_VERSION)
        (_last_change_time_ms s)
    else s
  else s.

Definition init s : t :=
  let s := check_eeprom_version s in
  let s := if nz (AP_MISSION_MASK_MISSION_CLEAR &&& _options s) then (clear s).2 else s in
  set_storage s (_storage s) (millis (vehicle s)).

(** ** Jump tracking *)

Definition init_jump_tracking s : t :=
  set_jumps s (replicate (Z.to_nat AP_MISSION_MAX_NUM_DO_JUMP_COMMANDS)
    (Jump AP_MISSION_CMD_INDEX_NONE 0)).

(** The search through the array: the count and the array after it. *)
Fixpoint times_run_loop (js : list jump_tracking) (index : Z) : Z * list jump_tracking :=
  match js with
  | [] => (AP_MISSION_JUMP_TIMES_MAX, [])
  | j :: js =>
    if jt_index j =? index then (num_times_run j, j :: js)
    else if jt_index j =? AP_MISSION_CMD_INDEX_NONE then (0, Jump index 0 :: js)
    else let '(n, js) := times_run_loop js index in (n, j :: js)
  end.

Definition get_jump_times_run s (cmd : Mission_Command) : Z * t :=
  if negb (id cmd =? MAV_CMD_DO_JUMP) || (jump_target cmd >=? utotal s) ||
     (jump_target cmd =? 0)
  then (AP_MISSION_JUMP_TIMES_MAX, s)
  else let '(n, js) := times_run_loop (_jump_tracking s) (index cmd) in (n, set_jumps s js).

Fixpoint increment_loop (js : list jump_tracking) (index : Z) : list jump_tracking :=
  match js with
  | [] => []
  | j :: js =>
    if jt_index j =? index then Jump (jt_index j) (i16 (num_times_run j + 1)) :: js
    else if jt_index j =? AP_MISSION_CMD_INDEX_NONE then Jump index 1 :: js
    else j :: increment_loop js index
  end.

Definition increment_jump_times_run s (cmd : Mission_Command) : t :=
  if negb (id cmd =? MAV_CMD_DO_JUMP) then s
  else set_jumps s (increment_loop (_jump_tracking s) (index cmd)).

(** ** Searching for commands *)

(** A jump command that is taken or passed: the next index and the state. *)
Definition follow_jump (inc : bool) s (cmd_index : Z) (temp_cmd : Mission_Command) : Z * t :=
  if jump_num_times temp_cmd =? AP_MISSION_JUMP_REPEAT_FOREVER then (jump_target temp_cmd, s)
  else
    let '(jump_times_run, s) := get_jump_times_run s temp_cmd in
    if jump_times_run <? jump_num_times temp_cmd then
      (jump_target temp_cmd, if inc then increment_jump_times_run s temp_cmd else s)
    else (u16 (cmd_index + 1), s).

(** The loop of [get_next_cmd]: every round but the last handles a jump command,
    and [max_loops] of them are allowed. *)
Fixpoint next_cmd_loop (max_loops : nat) (inc : bool) s (cmd_index : Z)
    (temp_cmd : Mission_Command) (jump_index : Z) : option Mission_Command * t :=
  if cmd_index <? utotal s then
    match read_cmd_from_storage s cmd_index temp_cmd with
    | None => (None, s)
    | Some temp_cmd =>
      if id temp_cmd =? MAV_CMD_DO_JUMP then
        match max_loops with
        | O => (None, s)
        | Datatypes.S max_loops =>
          if (jump_target temp_cmd >=? utotal s) || (jump_target temp_cmd =? 0) then (None, s)
          else if negb inc && (jump_index =? cmd_index) then (None, s)
          else
            let jump_index :=
              if jump_index =? AP_MISSION_CMD_INDEX_NONE then cmd_index else jump_index in
            let '(cmd_index, s) := follow_jump inc s cmd_index temp_cmd in
            next_cmd_loop max_loops inc s cmd_index temp_cmd jump_index
        end
      else (Some temp_cmd, s)
    end
  else (None, s).

Definition get_next_cmd s (start_index : Z) (increment_jump_num_times_if_found : bool)
  : option Mission_Command * t :=
  next_cmd_loop 64 increment_jump_num_times_if_found s start_index junk
    AP_MISSION_CMD_INDEX_NONE.

Definition is_nav_cmd (cmd : Mission_Command) : bool :=
  (id cmd <=? MAV_CMD_NAV_LAST) || (id cmd =? MAV_CMD_NAV_SET_YAW_SPEED).

Fixpoint next_nav_loop (fuel : nat) s (cmd_index : Z) : option (option Mission_Command * t) :=
  match fuel with
  | O => None
  | Datatypes.S fuel =>
    if cmd_index <? utotal s then
      match get_next_cmd s cmd_index false with
      | (None, s) => Some (None, s)
      | (Some cmd, s) =>
        if is_nav_cmd cmd then Some (Some cmd, s)
        else next_nav_loop fuel s (u16 (cmd_index + 1))
      end
    else Some (None, s)
  end.

Definition get_next_nav_cmd (fuel : nat) s (start_index : Z) := next_nav_loop fuel s start_index.

Definition get_next_do_cmd s (start_index : Z) : option Mission_Command * t :=
  if start_index >=? utotal s then (None, s)
  else
    match get_next_cmd s start_index false with
    | (None, s) => (None, s)
    | (Some temp_cmd, s) => if is_nav_cmd temp_cmd then (None, s) else (Some temp_cmd, s)
    end.

(** ** Running the mission *)

Definition reset s : t :=
  let s := set_flags s (Flags (state (_flags s)) false false false) in
  let s := set_nav_index s AP_MISSION_CMD_INDEX_NONE in
  let s := set_do_index s AP_MISSION_CMD_INDEX_NONE in
  let s := set_prev s AP_MISSION_CMD_ID_NONE AP_MISSION_CMD_INDEX_NONE
             AP_MISSION_CMD_INDEX_NONE in
  init_jump_tracking s.

Definition complete s : t :=
  let s := set_state s MISSION_COMPLETE in
  set_vehicle s (mission_complete (vehicle s)).

Definition stop s : t := set_state s MISSION_STOPPED.

(** The branch of the searches that loads and starts a navigation command. *)
Definition start_nav s (cmd : Mission_Command) : t :=
  let s := set_prev s (id (_nav_cmd s)) (index (_nav_cmd s))
             (if negb ((location_lat cmd =? 0) && (location_lng cmd =? 0))
              then index (_nav_cmd s) else _prev_nav_cmd_wp_index s) in
  let s := set_nav_loaded (set_nav_cmd s cmd) true in
  start_cmd s (_nav_cmd s).

Definition start_do s (cmd : Mission_Command) : t :=
  let s := set_do_loaded (set_do_cmd s cmd) true in
  start_cmd s (_do_cmd s).

(** The search of [advance_current_nav_cmd]; [max_loops] counts the do-commands
    skipped. *)
Fixpoint advance_loop (fuel : nat) s (cmd_index max_loops : Z) : option (bool * t) :=
  if nav_cmd_loaded (_flags s) then
    Some (true, if negb (do_cmd_loaded (_flags s)) then set_all_done s true else s)
  else
    match fuel with
    | O => None
    | Datatypes.S fuel =>
      match get_next_cmd s cmd_index true with
      | (None, s) => Some (false, s)
      | (Some cmd, s) =>
        let next := u16 (index cmd + 1) in
        if is_nav_cmd cmd then advance_loop fuel (start_nav s cmd) next max_loops
        else if negb (do_cmd_loaded (_flags s)) then advance_loop fuel (start_do s cmd) next max_loops
        else if max_loops =? 0 then Some (false, s)
        else advance_loop fuel s next (u8 (max_loops - 1))
      end
    end.

(** The navigation command, at most 256 do-commands before it, the end. *)
Definition advance_fuel : nat := 258.

(** [advance_current_nav_cmd] *)
Definition advance_current_nav_cmd s : option (bool * t) :=
  if negb (bool_decide (state (_flags s) = MISSION_RUNNING)) then Some (false, s)
  else if nav_cmd_loaded (_flags s) then Some (false, s)
  else
    let s := set_do_index s AP_MISSION_CMD_INDEX_NONE in
    let s := set_all_done (set_do_loaded s false) false in
    let cmd_index := index (_nav_cmd s) in
    let cmd_index := if cmd_index =? AP_MISSION_CMD_INDEX_NONE
                     then AP_MISSION_FIRST_REAL_COMMAND else u16 (cmd_index + 1) in
    advance_loop advance_fuel s cmd_index 255.

Definition advance_current_do_cmd s : t :=
  if negb (bool_decide (state (_flags s) = MISSION_RUNNING)) || do_cmd_all_done (_flags s) then s
  else
    let cmd_index := index (_do_cmd s) in
    let cmd_index := if cmd_index =? AP_MISSION_CMD_INDEX_NONE
                     then AP_MISSION_FIRST_REAL_COMMAND else u16 (cmd_index + 1) in
    if cmd_index >=? utotal s then set_all_done s true
    else
      match get_next_do_cmd s cmd_index with
      | (Some cmd, s) => start_do s cmd
      | (None, s) => set_all_done s true
      end.

(** [if (!advance_current_nav_cmd()) complete();] *)
Definition advance_or_complete s : option (bool * t) :=
  '(ok, s) ← advance_current_nav_cmd s;
  Some (if ok : bool then (true, s) else (false, complete s)).

Definition start s : option t :=
  let s := reset (set_state s MISSION_RUNNING) in
  '(_, s) ← advance_or_complete s;
  Some s.

Definition resume s : option t :=
  if decide (state (_flags s) = MISSION_COMPLETE) then start s
  else
    let stopped := bool_decide (state (_flags s) = MISSION_STOPPED) in
    let s := if stopped then set_state s MISSION_RUNNING else s in
    if stopped && (index (_nav_cmd s) =? AP_MISSION_CMD_INDEX_NONE) then start s
    else
      match read_cmd_from_storage s (index (_nav_cmd s)) (_nav_cmd s) with
      | None => start s
      | Some cmd =>
        let s := set_nav_cmd s cmd in
        let s := if nav_cmd_loaded (_flags s) then start_cmd s (_nav_cmd s) else s in
        Some (if do_cmd_loaded (_flags s) &&
                 negb (index (_do_cmd s) =? AP_MISSION_CMD_INDEX_NONE)
              then start_cmd s (_do_cmd s) else s)
      end.

Definition start_or_resume s : option t := if nz (_restart s) then start s else resume s.

Definition starts_with_takeoff_cmd (fuel : nat) s : option (bool * t) :=
  let cmd_index := if nz (_restart s) then AP_MISSION_CMD_INDEX_NONE else index (_nav_cmd s) in
  let cmd_index := if cmd_index =? AP_MISSION_CMD_INDEX_NONE
                   then AP_MISSION_FIRST_REAL_COMMAND else cmd_index in
  '(r, s) ← get_next_nav_cmd fuel s cmd_index;
  Some (match r with
        | None => (false, s)
        | Some cmd => (id cmd =? MAV_CMD_NAV_TAKEOFF, s)
        end).

(** The first field, a float, of [Set_Yaw_Speed]. *)
Definition set_yaw_speed_angle_deg (c : Mission_Command) : spec_float :=
  f32_of_bits (le_val (take 4 (content c))).

(** The result is [None] when the conversion of the angle is undefined. *)
Definition get_next_ground_course_cd (fuel : nat) s (default_angle : Z) : option (option Z * t) :=
  '(r, s) ← get_next_nav_cmd fuel s (u16 (index (_nav_cmd s) + 1));
  Some (match r with
        | None => (Some default_angle, s)
        | Some cmd =>
          if (id cmd =? MAV_CMD_NAV_GUIDED_ENABLE) || (id cmd =? MAV_CMD_NAV_DELAY)
          then (Some default_angle, s)
          else if id cmd =? MAV_CMD_NAV_SET_YAW_SPEED then
            (f32_to_int32 (set_yaw_speed_angle_deg (_nav_cmd s) * f32_of_Z 100)%f32, s)
          else (Some (get_bearing_cd (content (_nav_cmd s)) (content cmd)), s)
        end).

(** [cmd_verify_fn] on a command. *)
Definition verify_cmd s (c : Mission_Command) : bool * t :=
  let '(b, w) := cmd_verify (vehicle s) c in (b, set_vehicle s w).

(** The first half of [update]: false when the mission completed. *)
Definition update_nav s : option (bool * t) :=
  if negb (nav_cmd_loaded (_flags s)) ||
     (index (_nav_cmd s) =? AP_MISSION_CMD_INDEX_NONE) then advance_or_complete s
  else
    let '(done, s) := verify_cmd s (_nav_cmd s) in
    if done : bool then advance_or_complete (set_nav_loaded s false) else Some (true, s).

Definition update_do s : t :=
  if negb (do_cmd_loaded (_flags s)) then advance_current_do_cmd s
  else
    let '(done, s) := verify_cmd s (_do_cmd s) in
    if done : bool then set_do_loaded s false else s.

Definition update s : option t :=
  if negb (bool_decide (state (_flags s) = MISSION_RUNNING)) || (_cmd_total s =? 0) then Some s
  else
    '(going, s) ← update_nav s;
    Some (if going : bool then update_do s else s).

(** The search of [set_current_cmd] in a mission that does not run. *)
Fixpoint set_stopped_loop (fuel : nat) s (idx : Z) : option (bool * t) :=
  if nav_cmd_loaded (_flags s) then
    let s := if negb (do_cmd_loaded (_flags s)) then set_all_done s true else s in
    Some (true, set_state s MISSION_STOPPED)
  else
    match fuel with
    | O => None
    | Datatypes.S fuel =>
      match get_next_cmd s idx true with
      | (None, s) => Some (false, set_nav_index s AP_MISSION_CMD_INDEX_NONE)
      | (Some cmd, s) =>
        let next := u16 (index cmd + 1) in
        let s := if is_nav_cmd cmd then set_nav_loaded (set_nav_cmd s cmd) true
                 else if negb (do_cmd_loaded (_flags s)) then set_do_loaded (set_do_cmd s cmd) true
                 else s in
        set_stopped_loop fuel s next
      end
    end.

(** The search in a running mission. *)
Fixpoint set_running_loop (fuel : nat) s (idx : Z) : option (bool * t) :=
  if nav_cmd_loaded (_flags s) then
    Some (true, if negb (do_cmd_loaded (_flags s)) then set_all_done s true else s)
  else
    match fuel with
    | O => None
    | Datatypes.S fuel =>
      match get_next_cmd s idx true with
      | (None, s) => Some (true, complete s)
      | (Some cmd, s) =>
        let next := u16 (index cmd + 1) in
        let s := if is_nav_cmd cmd then start_nav s cmd
                 else if negb (do_cmd_loaded (_flags s)) then start_do s cmd
                 else s in
        set_running_loop fuel s next
      end
    end.

Definition set_current_cmd (fuel : nat) s (idx : Z) : option (bool * t) :=
  if (idx >=? utotal s) || (_cmd_total s =? 1) then Some (false, s)
  else
    let s := set_do_index s AP_MISSION_CMD_INDEX_NONE in
    let s := set_all_done (set_do_loaded s false) false in
    let s := set_nav_loaded s false in
    let restart := (idx =? 0) || bool_decide (state (_flags s) = MISSION_COMPLETE) in
    let s := if restart
             then init_jump_tracking (set_prev s AP_MISSION_CMD_ID_NONE
                    AP_MISSION_CMD_INDEX_NONE AP_MISSION_CMD_INDEX_NONE)
             else s in
    let idx := if restart && (idx =? 0) then 1 else idx in
    if negb (bool_decide (state (_flags s) = MISSION_RUNNING))
    then set_stopped_loop fuel s idx
    else set_running_loop fuel s idx.

(** [num_commands] *)
Definition num_commands s : Z := u16 (_cmd_total s).

(** The loop of [get_landing_sequence_start], from command [i] on. *)
Fixpoint landing_loop (n : nat) s (loc : list Z) (i landing_start_index : Z)
    (min_distance : spec_float) : Z :=
  match n with
  | O => landing_start_index
  | Datatypes.S n =>
    match read_cmd_from_storage s i junk with
    | None => landing_loop n s loc (u16 (i + 1)) landing_start_index min_distance
    | Some tmp =>
      if id tmp =? MAV_CMD_DO_LAND_START then
        let tmp_distance := get_distance (content tmp) loc in
        if f32_lt min_distance (f32_of_Z 0) || f32_lt tmp_distance min_distance
        then landing_loop n s loc (u16 (i + 1)) i tmp_distance
        else landing_loop n s loc (u16 (i + 1)) landing_start_index min_distance
      else landing_loop n s loc (u16 (i + 1)) landing_start_index min_distance
    end
  end.

Definition get_landing_sequence_start s : Z :=
  match get_position (vehicle s) with
  | None => 0
  | Some loc => landing_loop (Z.to_nat (num_commands s)) s loc 0 0 (f32_of_Z (-1))
  end.

Definition jump_to_landing_sequence (fuel : nat) s : option (bool * t) :=
  let land_idx := get_landing_sequence_start s in
  if land_idx =? 0 then Some (false, s)
  else
    '(ok, s) ← set_current_cmd fuel s land_idx;
    if ok : bool then
      if decide (state (_flags s) = MISSION_STOPPED) then
        s ← resume s;
        Some (true, s)
      else Some (true, s)
    else Some (false, s).

(** The constructor: the parameters and the storage as given. *)
Definition create (total restart options : Z) (st : S) (w : W) : t :=
  mk (Flags MISSION_STOPPED false false false)
    (with_index junk AP_MISSION_CMD_INDEX_NONE) (with_index junk AP_MISSION_CMD_INDEX_NONE)
    AP_MISSION_CMD_ID_NONE AP_MISSION_CMD_INDEX_NONE AP_MISSION_CMD_INDEX_NONE
    (replicate 15 (Jump 0 0)) 0 total restart options st w.
End mission.
Arguments t : clear implicits.
End Mission.
