(* ===== verification/MissionDemo.v ===== *)
(** Concrete parameters for the mission examples: the MAVLink command numbers of
    the common dialect, a storage of 200 bytes that is all mission area, and a
    vehicle that records the commands started and whose verification always
    succeeds. *)
From S2P Require Import Prelude Float32 Storage Mission.
Import StorageManager Mission.

#[export] Instance mav_common : MavCmds := {
  MAV_CMD_NAV_WAYPOINT := 16;
  MAV_CMD_NAV_TAKEOFF := 22;
  MAV_CMD_NAV_GUIDED_ENABLE := 92;
  MAV_CMD_NAV_DELAY := 93;
  MAV_CMD_NAV_LAST := 95;
  MAV_CMD_DO_JUMP := 177;
  MAV_CMD_DO_LAND_START := 189;
  MAV_CMD_NAV_SET_YAW_SPEED := 213
}.

(** The indices of the commands started; 65535 for the end of the mission. *)
#[export] Instance recorder : Vehicle (list Z) := {
  cmd_start w c := w ++ [index c];
  cmd_verify w _ := (true, w);
  mission_complete w := w ++ [65535];
  get_home _ := replicate 12 0;
  get_position _ := None;
  get_distance _ _ := f32_of_Z 0;
  get_bearing_cd _ _ := 0;
  millis _ := 0
}.

Definition demo_layout : list StorageArea := [area StorageMission 0 200].
Definition demo_junk : Mission_Command := Command 0 0 0 (replicate 12 7).

Definition waypoint (x : Z) : Mission_Command :=
  Command 0 16 0 ([0; 0; 0; 0] ++ le_bytes 4 x ++ le_bytes 4 x).
Definition do_speed : Mission_Command := Command 0 178 0 (replicate 12 1).
Definition long_cmd : Mission_Command := Command 0 300 0 (replicate 12 9).
Definition jump (target times : Z) : Mission_Command :=
  Command 0 177 0 (le_bytes 2 target ++ le_bytes 2 times ++ replicate 8 0).

(** An empty mission (home only), and one made of some commands. *)
Definition demo_empty : Mission.t (list Z) (list Z) :=
  init_jump_tracking (create demo_junk 1 0 0 (replicate (Z.to_nat 200) 0) []).

Definition demo (cmds : list Mission_Command) : Mission.t (list Z) (list Z) :=
  fold_left (fun s c => (add_cmd demo_layout s c).2) cmds demo_empty.

(** The mission flown: started, then [n] updates. *)
Fixpoint fly (n : nat) (s : Mission.t (list Z) (list Z)) : option (list Z) :=
  match n with
  | O => Some (vehicle s)
  | S n => s ← update demo_layout demo_junk s; fly n s
  end.

Definition flown (n : nat) (cmds : list Mission_Command) : option (list Z) :=
  s ← start demo_layout demo_junk (demo cmds); fly n s.

(** Two waypoints flown three times, a speed change on the way to the last. *)
Example flown_jump :
  flown 12 [waypoint 1; waypoint 2; jump 1 2; do_speed; waypoint 3] =
    Some [1; 2; 1; 2; 1; 2; 4; 5; 65535].
Proof. vm_compute. reflexivity. Qed.
