(* ===== verification/MissionSpec.v ===== *)
(** The mission executive: the commands in storage as a list, the searches
    through jump commands, and the running mission. *)
From S2P Require Import Prelude Float32 Storage StorageView Mission MissionDemo.
Open Scope urus_scope.
Import StorageManager Mission.
#[local] Abbreviation length := (@Datatypes.length _).

(** What the mission relies on of the MAVLink numbers. *)
Class MavCmdLaws `{MavCmds} := {
  nav_last_range : 0 <= MAV_CMD_NAV_LAST < 256;
  waypoint_nav : 0 < MAV_CMD_NAV_WAYPOINT <= MAV_CMD_NAV_LAST;
  do_jump_not_nav : MAV_CMD_NAV_LAST < MAV_CMD_DO_JUMP /\
                    MAV_CMD_DO_JUMP <> MAV_CMD_NAV_SET_YAW_SPEED
}.

(** * Commands in storage *)
Section storage.
Context {S W : Type} `{HL : HalStorageLaws S, HV : Vehicle W, HM : MavCmds}.
Context (layout : list StorageArea).
Implicit Types (s : Mission.t S W) (st : S) (cmd old : Mission_Command).

(** The mission area. *)
#[local] Abbreviation mview := (aview layout StorageMission).
#[local] Abbreviation board_ok := (area_ok layout StorageMission).
#[local] Abbreviation wrote := (area_wrote layout StorageMission).
#[local] Abbreviation write_wrote := (area_write layout StorageMission).
#[local] Abbreviation wrote_app := (area_wrote_app layout StorageMission).
#[local] Abbreviation mview_length := (aview_length layout StorageMission).

(** The bytes of a command in storage. *)
Definition encode cmd : list Z :=
  if id cmd <? 256 then le_bytes 1 (id cmd) ++ le_bytes 2 (p1 cmd) ++ take 12 (content cmd)
  else 0 :: le_bytes 2 (id cmd) ++ le_bytes 2 (p1 cmd) ++ take 10 (content cmd).

(** The command [i] in its 15 bytes; a command of the long form does not
    overwrite the last two bytes of the caller's [content]. *)
Definition decode (i : Z) (bs : list Z) old : Mission_Command :=
  if nth 0 bs 0 =? 0 then
    Command i (le_val (take 2 (drop 1 bs))) (le_val (take 2 (drop 3 bs)))
      (take 10 (drop 5 bs) ++ drop 10 (content old))
  else
    Command i (nth 0 bs 0) (le_val (take 2 (drop 1 bs)))
      (take 12 (drop 3 bs) ++ drop 12 (content old)).

Definition valid cmd : Prop :=
  0 < id cmd < 65536 /\ 0 <= p1 cmd < 65536 /\ length (content cmd) = 12%nat /\
  bytes (content cmd).

(** What reading back [cmd] from position [i] gives. *)
Definition stored (i : Z) old cmd : Mission_Command :=
  Command i (id cmd) (p1 cmd)
    (if id cmd <? 256 then content cmd else take 10 (content cmd) ++ drop 10 (content old)).

Lemma encode_length cmd : valid cmd -> length (encode cmd) = 15%nat.
Proof.
  intros (_&_&Hc&_). unfold encode. destruct (_ <? _);
    rewrite ?length_cons, !length_app, !le_bytes_length, length_take; lia.
Qed.

Lemma decode_encode i old cmd : valid cmd -> length (content old) = 12%nat ->
  decode i (encode cmd) old = stored i old cmd.
Proof.
  intros ((Hi1&Hi2)&Hp&Hc) Ho. unfold encode, stored.
  destruct (Z.ltb_spec (id cmd) 256) as [Hid|Hid].
  - unfold decode. simpl nth. rewrite Z.mod_small by lia.
    destruct (Z.eqb_spec (id cmd) 0); [lia|].
    change (take 2 (drop 1 _)) with (le_bytes 2 (p1 cmd)).
    change (drop 3 _) with (take 12 (content cmd)).
    rewrite le_val_bytes by (simpl; lia).
    rewrite !take_ge, drop_ge, app_nil_r by (rewrite ?length_take; lia). done.
  - unfold decode. simpl nth. simpl Z.eqb. cbv iota.
    change (take 2 (drop 1 _)) with (le_bytes 2 (id cmd)).
    change (take 2 (drop 3 _)) with (le_bytes 2 (p1 cmd)).
    change (drop 5 _) with (take 10 (content cmd)).
    rewrite !le_val_bytes by (simpl; lia). by rewrite take_take.
Qed.

(** The room for [num_commands_max] commands. *)
Lemma command_room st i : board_ok st -> 0 <= i < num_commands_max layout ->
  4 + i * 15 + 15 <= zlen (cells layout StorageMission) /\ pos_in_storage i = 4 + i * 15.
Proof.
  intros (_&_&Ht&Hs) Hi. unfold num_commands_max, storage_size, AP_MISSION_EEPROM_COMMAND_SIZE in Hi.
  rewrite Ht, Z.quot_div_nonneg in Hi by lia. rewrite u16_small in Hi by zlia.
  assert (4 + i * 15 + 15 <= zlen (cells layout StorageMission)) by zlia.
  split; [done|]. unfold pos_in_storage, AP_MISSION_EEPROM_COMMAND_SIZE. rewrite u16_small; lia.
Qed.

Lemma write_cmd_spec s i cmd : board_ok (_storage s) -> valid cmd ->
  0 <= i < num_commands_max layout ->
  exists st', write_cmd_to_storage layout s i cmd =
      (true, set_storage s st' (millis (vehicle s))) /\
    wrote (_storage s) (4 + i * 15) (encode cmd) st'.
Proof.
  intros Hb Hv Hi. destruct (command_room _ i Hb Hi) as [Hr Hp]. pose proof Hv as (Hid&_&Hc&Hcb).
  pose proof Hb as (_&_&_&Hs). unfold write_cmd_to_storage.
  rewrite Z.geb_leb, (proj2 (Z.leb_gt _ _)) by lia. eexists. split; [done|].
  rewrite Hp. unfold encode. destruct (Z.ltb_spec (id cmd) 256).
  - rewrite u8_small, !u16_small by lia.
    assert (H1' : wrote (_storage s) (4 + i * 15) (le_bytes 1 (id cmd))
      (write_byte layout StorageMission (_storage s) (4 + i * 15) (id cmd)))
      by (apply write_wrote; try apply le_bytes_bytes; simpl; done || lia).
    assert (H2' := wrote_app _ _ _ _ (le_bytes 2 (p1 cmd)) (4 + i * 15 + 1) H1').
    assert (H3' := wrote_app _ _ _ _ (take 12 (content cmd)) (4 + i * 15 + 3)
      (H2' (le_bytes_bytes _ _) ltac:(lia) ltac:(simpl; lia) ltac:(simpl; lia) ltac:(simpl; lia))).
    rewrite <- app_assoc in H3'. apply H3'; try (by apply Forall_take); rewrite ?length_app, ?length_take, ?le_bytes_length; lia.
  - rewrite !u16_small by lia.
    assert (H1' : wrote (_storage s) (4 + i * 15) (le_bytes 1 0)
      (write_byte layout StorageMission (_storage s) (4 + i * 15) 0))
      by (apply write_wrote; try apply le_bytes_bytes; simpl; done || lia).
    assert (H2' := wrote_app _ _ _ _ (le_bytes 2 (id cmd)) (4 + i * 15 + 1) H1'
      (le_bytes_bytes _ _) ltac:(lia) ltac:(simpl; lia) ltac:(simpl; lia) ltac:(simpl; lia)).
    assert (H3' := wrote_app _ _ _ _ (le_bytes 2 (p1 cmd)) (4 + i * 15 + 3) H2'
      (le_bytes_bytes _ _) ltac:(lia) ltac:(simpl; lia) ltac:(simpl; lia) ltac:(simpl; lia)).
    assert (H4' := wrote_app _ _ _ _ (take 10 (content cmd)) (4 + i * 15 + 5) H3').
    rewrite <- !app_assoc in H4'. apply H4'; try (by apply Forall_take); rewrite ?length_app, ?length_take, ?le_bytes_length; lia.
Qed.

(** The 15 bytes of command [i]. *)
Definition slot st (i : Z) : list Z := take 15 (drop (Z.to_nat (4 + i * 15)) (mview st)).

Lemma slice_slice (v : list Z) p k n m : (k + n <= m)%nat ->
  take n (drop k (take m (drop p v))) = take n (drop (p + k) v).
Proof.
  intros Hk. rewrite skipn_firstn_comm, take_take, drop_drop. f_equal. lia.
Qed.

Lemma sread_slot s i k n : board_ok (_storage s) -> 0 <= i < num_commands_max layout ->
  0 <= k -> (0 < n)%nat -> k + Z.of_nat n <= 15 ->
  read_scalar layout StorageMission (_storage s) (le_bytes n 0) (4 + i * 15 + k) =
    le_val (take n (drop (Z.to_nat k) (slot (_storage s) i))).
Proof.
  intros Hb Hi Hk Hn Hkn. destruct (command_room _ i Hb Hi) as [Hr _].
  destruct Hb as (Hok&[Hf _]&_&Hs). unfold slot.
  rewrite read_scalar_view by (rewrite ?le_bytes_length; done || lia).
  rewrite le_bytes_length, slice_slice by lia. rewrite Z2Nat.inj_add by lia. done.
Qed.

Lemma sread_block_slot s i k n l : board_ok (_storage s) -> 0 <= i < num_commands_max layout ->
  0 <= k -> (0 < n)%nat -> k + Z.of_nat n <= 15 ->
  sread_block layout s l (4 + i * 15 + k) (Z.of_nat n) =
    take n (drop (Z.to_nat k) (slot (_storage s) i)) ++ drop n l.
Proof.
  intros Hb Hi Hk Hn Hkn. destruct (command_room _ i Hb Hi) as [Hr _].
  destruct Hb as (Hok&[Hf _]&_&Hs). unfold slot, sread_block.
  rewrite read_block_view by (done || lia). simpl snd. rewrite Nat2Z.id.
  rewrite slice_slice by lia. rewrite Z2Nat.inj_add by lia. f_equal.
  rewrite length_take, length_drop, view_length. f_equal. lia.
Qed.

Lemma read_cmd_spec s i old : board_ok (_storage s) -> 0 < i < num_commands_max layout ->
  i < utotal s -> read_cmd_from_storage layout s i old = Some (decode i (slot (_storage s) i) old).
Proof.
  intros Hb Hi Ht. destruct (command_room _ i Hb ltac:(lia)) as [Hr Hp].
  pose proof Hb as (_&_&_&Hs). unfold read_cmd_from_storage.
  rewrite Z.geb_leb, (proj2 (Z.leb_gt _ _)), (proj2 (Z.eqb_neq i 0)) by lia. simpl andb. cbv iota.
  rewrite Hp, !u16_small by lia.
  assert (Hb1 : sread_byte layout s (4 + i * 15) = nth 0 (slot (_storage s) i) 0).
  { unfold sread_byte, read_byte. pose proof (sread_slot s i 0 1 Hb ltac:(lia)) as Hr0.
    rewrite Z.add_0_r in Hr0. rewrite Hr0 by lia. simpl drop. rewrite drop_0.
    destruct (slot (_storage s) i); simpl; lia. }
  rewrite Hb1. unfold sread_uint16, read_uint16. rewrite !sread_slot by (done || lia).
  pose proof (sread_block_slot s i 5 10 (content old) Hb ltac:(lia)) as Hb10.
  pose proof (sread_block_slot s i 3 12 (content old) Hb ltac:(lia)) as Hb12.
  change (Z.of_nat 10) with 10 in Hb10. change (Z.of_nat 12) with 12 in Hb12.
  rewrite Hb10, Hb12 by lia. unfold decode. by destruct (_ =? 0).
Qed.

Lemma slot_wrote st i cmd st' : board_ok st -> 0 <= i < num_commands_max layout -> valid cmd ->
  wrote st (4 + i * 15) (encode cmd) st' ->
  slot st' i = encode cmd /\ forall j, 0 <= j -> j <> i -> slot st' j = slot st j.
Proof.
  intros Hb Hi Hv (_&Hw&_). destruct (command_room _ i Hb Hi) as [Hr _].
  pose proof (encode_length cmd Hv) as Hl. unfold slot. rewrite Hw. split.
  - apply list_eq. intros k. destruct (decide (k < 15)%nat).
    + rewrite lookup_take_lt, lookup_drop, lookup_inserts_dec, mview_length by lia.
      rewrite !decide_True by lia. f_equal. lia.
    + rewrite lookup_take_ge, lookup_ge_None_2 by lia. done.
  - intros j Hj Hne. apply list_eq. intros k. destruct (decide (k < 15)%nat).
    + rewrite !lookup_take_lt, !lookup_drop, lookup_inserts_dec by lia.
      by rewrite decide_False by lia.
    + by rewrite !lookup_take_ge by lia.
Qed.

(** The effect of a write on the commands read. *)
Lemma write_read s i cmd : board_ok (_storage s) -> valid cmd ->
  0 <= i < num_commands_max layout ->
  exists st', write_cmd_to_storage layout s i cmd =
      (true, set_storage s st' (millis (vehicle s))) /\
    board_ok st' /\
    (forall c, c ∉ cells layout StorageMission -> hs_img st' !! c = hs_img (_storage s) !! c) /\
    slot st' i = encode cmd /\ forall j, 0 <= j -> j <> i -> slot st' j = slot (_storage s) j.
Proof.
  intros Hb Hv Hi. destruct (write_cmd_spec s i cmd Hb Hv Hi) as (st'&Hw&Hwr).
  exists st'. split; [done|]. split; [apply Hwr|]. split; [apply Hwr|].
  by apply slot_wrote.
Qed.

(** A mission that its storage can hold. *)
Definition consistent s : Prop :=
  board_ok (_storage s) /\ 1 <= _cmd_total s <= num_commands_max layout.

Definition blank : Mission_Command := Command 0 0 0 (replicate 12 0).

(** The mission as a list: its commands, the first one being home. *)
Definition listing s : list (option Mission_Command) :=
  map (fun i => read_cmd_from_storage layout s (Z.of_nat i) blank)
    (seq 0 (Z.to_nat (_cmd_total s))).

Lemma max_commands st : board_ok st -> 0 <= num_commands_max layout <= 4368.
Proof.
  intros (_&_&Ht&Hs). unfold num_commands_max, storage_size, AP_MISSION_EEPROM_COMMAND_SIZE.
  rewrite Ht, Z.quot_div_nonneg, u16_small by zlia. zlia.
Qed.

Lemma utotal_consistent s : consistent s -> utotal s = _cmd_total s.
Proof.
  intros [Hb Ht]. pose proof (max_commands _ Hb). unfold utotal. apply u32_small. lia.
Qed.

Lemma listing_lookup s i : consistent s -> (0 < i)%nat -> Z.of_nat i < _cmd_total s ->
  listing s !! i = Some (Some (decode (Z.of_nat i) (slot (_storage s) (Z.of_nat i)) blank)).
Proof.
  intros Hc Hi Ht. unfold listing. rewrite list_lookup_fmap, lookup_seq_lt by lia. simpl.
  pose proof Hc as [Hb Ht']. rewrite read_cmd_spec; [done|done|lia|].
  by rewrite utotal_consistent.
Qed.

Lemma listing_home s : consistent s ->
  listing s !! 0%nat = Some (Some (Command 0 MAV_CMD_NAV_WAYPOINT 0 (get_home (vehicle s)))).
Proof.
  intros [Hb Ht]. unfold listing. rewrite list_lookup_fmap, lookup_seq_lt by lia. simpl.
  unfold read_cmd_from_storage. by rewrite andb_false_r.
Qed.

Lemma listing_length s : length (listing s) = Z.to_nat (_cmd_total s).
Proof. unfold listing. by rewrite length_map, length_seq. Qed.

(** Two states whose commands agree have the same list up to the shorter
    total. *)
Lemma listing_agree s s' i : consistent s -> consistent s' ->
  get_home (vehicle s') = get_home (vehicle s) ->
  (forall j, 0 < j -> j = Z.of_nat i -> slot (_storage s') j = slot (_storage s) j) ->
  Z.of_nat i < _cmd_total s -> Z.of_nat i < _cmd_total s' -> listing s' !! i = listing s !! i.
Proof.
  intros Hc Hc' Hh Hs Hi Hi'. destruct (decide (i = 0%nat)) as [->|].
  - by rewrite !listing_home, Hh by done.
  - rewrite !listing_lookup by (done || lia). do 3 f_equal. apply Hs; lia.
Qed.

Lemma add_listing s cmd : consistent s -> valid cmd ->
  if _cmd_total s <? num_commands_max layout then
    exists s', add_cmd layout s cmd = (true, with_index cmd (_cmd_total s), s') /\
      consistent s' /\ listing s' = listing s ++ [Some (stored (_cmd_total s) blank cmd)]
  else add_cmd layout s cmd = (false, cmd, s).
Proof.
  intros Hc Hv. pose proof Hc as [Hb Ht]. pose proof (max_commands _ Hb) as Hm.
  unfold add_cmd. rewrite u16_small by lia. destruct (Z.ltb_spec (_cmd_total s) (num_commands_max layout)).
  - destruct (write_read s (_cmd_total s) cmd Hb Hv) as (st'&->&Hb'&_&Hsi&Hsj); [lia|].
    cbn [_cmd_total set_storage]. rewrite i16_small, u16_small by lia. eexists. split; [reflexivity|].
    set (s1 := set_total _ _). assert (Hc1 : consistent s1) by (split; [done|simpl; lia]).
    split; [done|]. apply list_eq. intros k.
    destruct (decide (Z.of_nat k < _cmd_total s)) as [Hk|Hk].
    + rewrite lookup_app_l by (rewrite listing_length; lia).
      apply listing_agree; [done|done|done| |done|simpl; lia].
      intros j Hj ->. simpl. apply Hsj; lia.
    + rewrite lookup_app_r, listing_length by (rewrite listing_length; lia).
      destruct (decide (Z.of_nat k = _cmd_total s)) as [Hk'|Hk'].
      * rewrite listing_lookup by (done || (simpl; lia)). simpl. rewrite Hk', Hsi.
        rewrite decode_encode by done. by replace (k - Z.to_nat (_cmd_total s))%nat with 0%nat by lia.
      * rewrite !lookup_ge_None_2; [done|simpl; lia|rewrite listing_length; simpl; lia].
  - unfold write_cmd_to_storage. by rewrite Z.geb_leb, (proj2 (Z.leb_le _ _)) by lia.
Qed.

Lemma replace_listing s cmd i : consistent s -> valid cmd -> 0 < i ->
  if i <? _cmd_total s then
    exists s', replace_cmd layout s i cmd = (true, s') /\ consistent s' /\
      listing s' = <[Z.to_nat i := Some (stored i blank cmd)]> (listing s)
  else replace_cmd layout s i cmd = (false, s).
Proof.
  intros Hc Hv Hi. pose proof Hc as [Hb Ht]. unfold replace_cmd.
  rewrite utotal_consistent, Z.geb_leb by done. destruct (Z.ltb_spec i (_cmd_total s)).
  - rewrite (proj2 (Z.leb_gt _ _)) by lia.
    destruct (write_read s i cmd Hb Hv) as (st'&->&Hb'&_&Hsi&Hsj); [lia|].
    eexists. split; [reflexivity|]. set (s1 := set_storage _ _ _).
    assert (Hc1 : consistent s1) by (split; [done|simpl; lia]). split; [done|].
    apply list_eq. intros k. destruct (decide (k = Z.to_nat i)) as [->|Hk].
    + rewrite listing_lookup, list_lookup_insert, decide_True
        by (rewrite ?listing_length; done || simpl; lia).
      rewrite Z2Nat.id by lia. simpl. by rewrite Hsi, decode_encode.
    + rewrite list_lookup_insert_ne by done.
      destruct (decide (Z.of_nat k < _cmd_total s)).
      * apply listing_agree; [done|done|done| |done|done]. intros j Hj ->. simpl. apply Hsj; lia.
      * rewrite !lookup_ge_None_2; [done|rewrite listing_length; subst s1; simpl; lia..].
  - by rewrite (proj2 (Z.leb_le _ _)) by lia.
Qed.

Lemma truncate_listing s i : consistent s -> 0 < i < 32768 ->
  consistent (truncate s i) /\ listing (truncate s i) = take (Z.to_nat i) (listing s).
Proof.
  intros Hc Hi. pose proof Hc as [Hb Ht]. unfold truncate.
  rewrite utotal_consistent, Z.gtb_ltb by done. destruct (Z.ltb_spec i (_cmd_total s)).
  - rewrite i16_small by lia. set (s1 := set_total s i).
    assert (Hc1 : consistent s1) by (split; [done|simpl; lia]). split; [done|].
    apply list_eq. intros k. destruct (decide (k < Z.to_nat i)%nat).
    + rewrite lookup_take_lt by done. apply listing_agree; try done; simpl; lia.
    + rewrite lookup_take_ge by lia. apply lookup_ge_None_2. rewrite listing_length. simpl. lia.
  - split; [done|]. by rewrite take_ge by (rewrite listing_length; lia).
Qed.

End storage.
Abbreviation board_ok layout := (area_ok layout StorageMission).

(** C34. A command written to position [i] of the mission reads back: the id, p1
    and all 12 bytes of content for an 8-bit id, the first 10 bytes for a 16-bit
    id (the last two stay as the caller has them).  No other command of the
    mission changes, nor any byte of the storage outside the mission area. *)
Theorem mission_roundtrip {S W} `{HalStorageLaws S, Vehicle W, MavCmds} layout
    (s : Mission.t S W) i cmd old :
  board_ok layout (_storage s) -> valid cmd -> 0 < i < num_commands_max layout ->
  i < utotal s -> length (content old) = 12%nat ->
  exists s', write_cmd_to_storage layout s i cmd = (true, s') /\
    board_ok layout (_storage s') /\
    read_cmd_from_storage layout s' i old = Some (stored i old cmd) /\
    (forall j old', 0 <= j < num_commands_max layout -> j <> i ->
       read_cmd_from_storage layout s' j old' = read_cmd_from_storage layout s j old') /\
    (forall c, c ∉ cells layout StorageMission ->
       hs_img (_storage s') !! c = hs_img (_storage s) !! c).
Proof.
  intros Hb Hv Hi Ht Ho.
  destruct (write_read layout s i cmd Hb Hv) as (st'&Hw&Hb'&Hout&Hsi&Hsj); [lia|].
  eexists. split; [exact Hw|]. split; [exact Hb'|]. split; [|split; [|exact Hout]].
  - rewrite read_cmd_spec by done. simpl. by rewrite Hsi, decode_encode.
  - intros j old' Hj Hne. destruct (decide (j = 0)) as [->|]; [unfold read_cmd_from_storage; simpl;
      by rewrite !andb_false_r|].
    destruct (decide (j < utotal s)) as [Hjt|Hjt].
    + rewrite !read_cmd_spec by (done || lia). simpl. by rewrite Hsj by lia.
    + unfold read_cmd_from_storage. simpl.
      change (utotal (set_storage s st' _)) with (utotal s).
      by rewrite Z.geb_leb, (proj2 (Z.leb_le _ _)), (proj2 (Z.eqb_neq _ _)) by lia.
Qed.

Lemma demo_board (st : list Z) : length st = Z.to_nat 200 -> board_ok demo_layout st.
Proof.
  intros Hl. split; [done|]. split; [split|split].
  - change (hs_img st) with st. rewrite Hl. repeat constructor; simpl; lia.
  - by apply ordered_NoDup.
  - reflexivity.
  - vm_compute. split; [discriminate|reflexivity].
Qed.

Lemma mission_roundtrip_witness :
  let s := demo [waypoint 1; long_cmd] in
  exists s', write_cmd_to_storage demo_layout s 2 long_cmd = (true, s') /\
    read_cmd_from_storage demo_layout s' 2 demo_junk =
      Some (Command 2 300 0 (replicate 10 9 ++ replicate 2 7)).
Proof.
  intros s.
  destruct (mission_roundtrip demo_layout s 2 long_cmd demo_junk) as (s'&Hw&_&Hr&_).
  - apply demo_board. vm_compute. reflexivity.
  - repeat split; first [by apply Forall_replicate | vm_compute; (reflexivity || discriminate)].
  - vm_compute. split; reflexivity.
  - vm_compute. reflexivity.
  - reflexivity.
  - exists s'. split; [exact Hw|exact Hr].
Defined.

(** C35. Editing refines a list: on a mission that its storage can hold, the
    commands read from 0 (home) to the total are a list, of which [add_cmd]
    appends an element, until the storage is full, [replace_cmd] changes one
    element and [truncate] takes a prefix; a failed call changes nothing. *)
Theorem mission_edits {S W} `{HalStorageLaws S, Vehicle W, MavCmds} layout
    (s : Mission.t S W) cmd : consistent layout s -> valid cmd ->
  (if _cmd_total s <? num_commands_max layout then
     exists s', add_cmd layout s cmd = (true, with_index cmd (_cmd_total s), s') /\
       consistent layout s' /\
       listing layout s' = listing layout s ++ [Some (stored (_cmd_total s) blank cmd)]
   else add_cmd layout s cmd = (false, cmd, s)) /\
  (forall i, 0 < i -> if i <? _cmd_total s then
     exists s', replace_cmd layout s i cmd = (true, s') /\ consistent layout s' /\
       listing layout s' = <[Z.to_nat i := Some (stored i blank cmd)]> (listing layout s)
   else replace_cmd layout s i cmd = (false, s)) /\
  (forall i, 0 < i < 32768 -> consistent layout (truncate s i) /\
     listing layout (truncate s i) = take (Z.to_nat i) (listing layout s)).
Proof.
  intros Hc Hv. split; [by apply add_listing|]. split; [intros i; by apply replace_listing|].
  intros i. by apply truncate_listing.
Qed.

Lemma mission_edits_witness :
  let s := demo [waypoint 1; waypoint 2] in
  (exists s', add_cmd demo_layout s do_speed = (true, with_index do_speed 3, s') /\
    consistent demo_layout s' /\
    listing demo_layout s' = listing demo_layout s ++ [Some (stored 3 blank do_speed)]) /\
  listing demo_layout (truncate s 2) = take 2 (listing demo_layout s).
Proof.
  intros s. assert (Hc : consistent demo_layout s).
  { split; [apply demo_board; vm_compute; reflexivity|vm_compute; split; discriminate]. }
  destruct (mission_edits demo_layout s do_speed Hc) as (Ha&_&Ht).
  - repeat split; first [by apply Forall_replicate | vm_compute; (reflexivity || discriminate)].
  - split; [exact Ha|]. apply (Ht 2). lia.
Defined.
