(* ===== verification/MissionRun.v ===== *)
(** Running a mission: the searches through jump commands, the advance to the
    next navigation command, [update], and the search of [set_current_cmd] that
    need not end. *)
From S2P Require Import Prelude Float32 Storage Mission MissionDemo MissionSpec.
Open Scope urus_scope.
Import Mission.
#[local] Abbreviation length := (@Datatypes.length _).

Section run.
Context {S W : Type} `{HS : HalStorage S, HV : Vehicle W, HM : MavCmds}.
Context (layout : list StorageManager.StorageArea) (junk : Mission_Command).
Implicit Types (s : Mission.t S W) (cmd old : Mission_Command) (js : list jump_tracking).

Abbreviation read := (read_cmd_from_storage layout).
Abbreviation next := (get_next_cmd layout junk).

Lemma read_index s i old cmd : read s i old = Some cmd ->
  index cmd = i /\ (i < utotal s \/ i = 0).
Proof.
  unfold read_cmd_from_storage. rewrite Z.geb_leb.
  destruct (Z.leb_spec (utotal s) i), (Z.eqb_spec i 0); simpl; try done;
    try (intros [= <-]; simpl; lia);
    destruct (_ =? 0); intros [= <-]; simpl; lia.
Qed.

(** What a search may change: the jump records. *)
Lemma read_jumps s js i old : read (set_jumps s js) i old = read s i old.
Proof. done. Qed.

Lemma set_jumps_same s : set_jumps s (_jump_tracking s) = s.
Proof. by destruct s. Qed.

(** The recorded number of times that the jump command [k] was taken. *)
Definition times js (k : Z) : Z := (times_run_loop js k).1.

Lemma times_loop_length js k : length (times_run_loop js k).2 = length js.
Proof.
  induction js as [|j js IH]; simpl; [done|]. destruct (_ =? _); [done|].
  destruct (_ =? _); [done|]. destruct (times_run_loop js k). simpl in *. lia.
Qed.

Lemma increment_loop_length js k : length (increment_loop js k) = length js.
Proof.
  induction js as [|j js IH]; simpl; [done|]. destruct (_ =? _); [done|].
  destruct (_ =? _); simpl; lia.
Qed.

(** Reading a record may allocate it with the value that it returns. *)
Lemma times_after_get js k : times (times_run_loop js k).2 k = times js k.
Proof.
  unfold times. induction js as [|j js IH]; simpl; [done|].
  destruct (jt_index j =? k) eqn:E; simpl; [by rewrite E|].
  destruct (jt_index j =? AP_MISSION_CMD_INDEX_NONE) eqn:E'; simpl; [by rewrite Z.eqb_refl|].
  destruct (times_run_loop js k) as [n js'] eqn:El. simpl in *. rewrite E, E'.
  destruct (times_run_loop js' k). simpl in *. done.
Qed.

(** A record that exists is found and incremented. *)
Lemma times_after_increment js k : times js k < AP_MISSION_JUMP_TIMES_MAX ->
  -32768 <= times js k -> times (increment_loop js k) k = times js k + 1.
Proof.
  unfold times. induction js as [|j js IH]; simpl; [lia|].
  destruct (jt_index j =? k) eqn:E; simpl.
  - unfold AP_MISSION_JUMP_TIMES_MAX. intros H1 H2. rewrite E. simpl. by rewrite i16_small by lia.
  - destruct (jt_index j =? AP_MISSION_CMD_INDEX_NONE) eqn:E'; simpl.
    + by rewrite Z.eqb_refl.
    + rewrite E, E'. destruct (times_run_loop js k) as [n js'] eqn:El. simpl. intros H1 H2.
      specialize (IH H1 H2). destruct (times_run_loop (increment_loop js k) k). simpl in *. done.
Qed.

(** A jump that is followed changes the records only, and without [inc] keeps
    the count of the jump. *)
Lemma follow_jump_spec inc s i cmd i' s' : follow_jump inc s i cmd = (i', s') ->
  exists js, s' = set_jumps s js /\ length js = length (_jump_tracking s).
Proof.
  unfold follow_jump, get_jump_times_run, increment_jump_times_run.
  destruct (_ =? AP_MISSION_JUMP_REPEAT_FOREVER).
  { intros [= <- <-]. exists (_jump_tracking s). by rewrite set_jumps_same. }
  destruct (negb (id cmd =? MAV_CMD_DO_JUMP) || _ || _) eqn:E.
  - destruct (_ <? _); [|intros [= <- <-]; exists (_jump_tracking s); by rewrite set_jumps_same].
    destruct inc; [destruct (negb _)|]; intros [= <- <-];
      try (exists (_jump_tracking s); by rewrite set_jumps_same).
    eexists. split; [done|]. apply increment_loop_length.
  - pose proof (times_loop_length (_jump_tracking s) (index cmd)) as Hl.
    destruct (times_run_loop _ _) as [n js]. simpl in Hl.
    destruct (_ <? _); [|intros [= <- <-]; by exists js].
    destruct inc; [destruct (negb _)|]; intros [= <- <-]; try by exists js.
    exists (increment_loop js (index cmd)). split; [done|].
    by rewrite increment_loop_length.
Qed.

(** The search: only the jump records change; a command found is not a jump,
    and is in the mission at its index. *)
Lemma next_cmd_loop_spec n inc : forall s i tmp jump r s',
  next_cmd_loop layout n inc s i tmp jump = (r, s') ->
  (exists js, s' = set_jumps s js /\ length js = length (_jump_tracking s)) /\
  forall cmd, r = Some cmd -> id cmd <> MAV_CMD_DO_JUMP /\ index cmd < utotal s /\
    exists old, read s (index cmd) old = Some cmd.
Proof.
  assert (Hs : forall s, exists js, s = set_jumps s js /\ length js = length (_jump_tracking s)).
  { intros s. exists (_jump_tracking s). by rewrite set_jumps_same. }
  induction n as [|n IH]; intros s i tmp jump r s'; cbn [next_cmd_loop];
    (destruct (Z.ltb_spec i (utotal s)); [|intros [= <- <-]; by split]);
    (destruct (read s i tmp) as [t|] eqn:Er; [|intros [= <- <-]; by split]);
    pose proof (read_index _ _ _ _ Er) as [Hi _];
    (destruct (Z.eqb_spec (id t) MAV_CMD_DO_JUMP);
      [|intros [= <- <-]; split; [done|]; intros cmd [= <-]; rewrite Hi; eauto]).
  - intros [= <- <-]. by split.
  - destruct (_ || _); [intros [= <- <-]; by split|].
    destruct (negb inc && _); [intros [= <- <-]; by split|].
    destruct (follow_jump inc s i t) as [i' s1] eqn:Ef.
    apply follow_jump_spec in Ef as (js1&->&Hl1). intros Hr.
    destruct (IH _ _ _ _ _ _ Hr) as [(js&->&Hl) Hc]. split; [|done].
    exists js. split; [done|]. simpl in Hl. lia.
Qed.

Lemma next_spec s i inc r s' : next s i inc = (r, s') ->
  (exists js, s' = set_jumps s js /\ length js = length (_jump_tracking s)) /\
  forall cmd, r = Some cmd -> id cmd <> MAV_CMD_DO_JUMP /\ index cmd < utotal s /\
    exists old, read s (index cmd) old = Some cmd.
Proof. apply next_cmd_loop_spec. Qed.

(** One round of the search. *)
Lemma next_loop_unfold n inc s i tmp jump : next_cmd_loop layout n inc s i tmp jump =
  if i <? utotal s then
    match read s i tmp with
    | None => (None, s)
    | Some cmd =>
      if id cmd =? MAV_CMD_DO_JUMP then
        match n with
        | O => (None, s)
        | Datatypes.S n =>
          if (jump_target cmd >=? utotal s) || (jump_target cmd =? 0) then (None, s)
          else if negb inc && (jump =? i) then (None, s)
          else
            let '(i', s) := follow_jump inc s i cmd in
            next_cmd_loop layout n inc s i' cmd
              (if jump =? AP_MISSION_CMD_INDEX_NONE then i else jump)
        end
      else (Some cmd, s)
    end
  else (None, s).
Proof. by destruct n. Qed.

(** A command that is not a jump is found where it is. *)
Lemma loop_here n s i inc tmp jump cmd : i < utotal s -> read s i tmp = Some cmd ->
  id cmd <> MAV_CMD_DO_JUMP -> next_cmd_loop layout n inc s i tmp jump = (Some cmd, s).
Proof.
  intros Hi Hr Hj. rewrite next_loop_unfold.
  by rewrite (proj2 (Z.ltb_lt _ _)), Hr, (proj2 (Z.eqb_neq _ _)) by done.
Qed.

Lemma next_here s i inc cmd : i < utotal s -> read s i junk = Some cmd ->
  id cmd <> MAV_CMD_DO_JUMP -> next s i inc = (Some cmd, s).
Proof. apply loop_here. Qed.

Lemma next_past_end s i inc : utotal s <= i -> next s i inc = (None, s).
Proof.
  intros Hi. unfold get_next_cmd. rewrite next_loop_unfold.
  by rewrite (proj2 (Z.ltb_ge _ _)) by done.
Qed.

(** ** The running mission *)

(** What running does not change. *)
Definition frame s s' : Prop :=
  _storage s' = _storage s /\ _cmd_total s' = _cmd_total s /\ _restart s' = _restart s /\
  _options s' = _options s /\ _last_change_time_ms s' = _last_change_time_ms s /\
  length (_jump_tracking s') = length (_jump_tracking s).

#[global] Instance frame_preorder : PreOrder frame.
Proof.
  split; [by intros s|]. intros s1 s2 s3 (?&?&?&?&?&?) (?&?&?&?&?&?). unfold frame.
  repeat split; congruence.
Qed.

(** The loaded commands are what they should be. *)
Definition loaded_ok s : Prop :=
  (nav_cmd_loaded (_flags s) = true -> is_nav_cmd (_nav_cmd s) = true /\
     id (_nav_cmd s) <> MAV_CMD_DO_JUMP /\ index (_nav_cmd s) < utotal s) /\
  (do_cmd_loaded (_flags s) = true -> is_nav_cmd (_do_cmd s) = false /\
     id (_do_cmd s) <> MAV_CMD_DO_JUMP /\ index (_do_cmd s) < utotal s).

Lemma next_frame s i inc r s' : next s i inc = (r, s') ->
  frame s s' /\ _flags s' = _flags s /\ _nav_cmd s' = _nav_cmd s /\ _do_cmd s' = _do_cmd s /\
  vehicle s' = vehicle s /\ (loaded_ok s -> loaded_ok s') /\
  forall cmd, r = Some cmd -> id cmd <> MAV_CMD_DO_JUMP /\ index cmd < utotal s'.
Proof.
  intros H. destruct (next_spec _ _ _ _ _ H) as [(js&->&Hl) Hc].
  do 5 (split; [done|]). split; [exact (fun x => x)|].
  intros cmd Hr. destruct (Hc cmd Hr) as (?&?&_). done.
Qed.

Lemma start_nav_ok s cmd : loaded_ok s -> is_nav_cmd cmd = true -> id cmd <> MAV_CMD_DO_JUMP ->
  index cmd < utotal s -> loaded_ok (start_nav s cmd).
Proof. intros [Hn Hd] H1 H2 H3. split; [done|exact Hd]. Qed.

Lemma start_do_ok s cmd : loaded_ok s -> is_nav_cmd cmd = false -> id cmd <> MAV_CMD_DO_JUMP ->
  index cmd < utotal s -> loaded_ok (start_do s cmd).
Proof. intros [Hn Hd] H1 H2 H3. split; [exact Hn|done]. Qed.

(** The rounds that the search of [advance_current_nav_cmd] may still take. *)
Definition rounds s (max_loops : Z) : nat :=
  if nav_cmd_loaded (_flags s) then 0
  else (Z.to_nat max_loops + if do_cmd_loaded (_flags s) then 1 else 2)%nat.

Lemma advance_loop_spec fuel : forall s i m, 0 <= m < 256 -> (rounds s m <= fuel)%nat ->
  loaded_ok s -> exists ok s', advance_loop layout junk fuel s i m = Some (ok, s') /\
    frame s s' /\ loaded_ok s' /\ state (_flags s') = state (_flags s) /\
    nav_cmd_loaded (_flags s') = ok.
Proof.
  induction fuel as [|fuel IH]; intros s i m Hm Hf Hok; cbn [advance_loop]; unfold rounds in Hf;
    destruct (nav_cmd_loaded (_flags s)) eqn:En;
    try (exists true; eexists; split; [done|]; by destruct (do_cmd_loaded (_flags s));
      (split; [done|]; split; [done|]; split; [done|])).
  - destruct (do_cmd_loaded _); lia.
  - destruct (next s i true) as [r s1] eqn:Er.
    destruct (next_frame _ _ _ _ _ Er) as (Hfr&Hfl&Hnv&Hdo&Hvh&Hok1&Hc). specialize (Hok1 Hok).
    destruct r as [cmd|]; [|exists false, s1; rewrite Hfl; done].
    destruct (Hc cmd eq_refl) as [Hj Hidx].
    destruct (is_nav_cmd cmd) eqn:Eisn; [|destruct (do_cmd_loaded (_flags s1)) eqn:Ed; simpl].
    + destruct (IH (start_nav s1 cmd) (u16 (index cmd + 1)) m Hm) as (ok&s2&E&Hfr2&Hok2&Hst&Hnl).
      { unfold rounds. simpl. lia. }
      { by apply start_nav_ok. }
      exists ok, s2. split; [done|]. split; [etrans; [exact Hfr|exact Hfr2]|].
      split; [done|]. split; [|done]. rewrite Hst. simpl. by rewrite Hfl.
    + destruct (Z.eqb_spec m 0); [exists false, s1; rewrite Hfl; done|].
      rewrite u8_small by lia.
      destruct (IH s1 (u16 (index cmd + 1)) (m - 1)) as (ok&s2&E&Hfr2&Hok2&Hst&Hnl); [lia| |done|].
      { unfold rounds. rewrite Hfl, En, <- Hfl, Ed. rewrite <- Hfl, Ed in Hf. lia. }
      exists ok, s2. split; [done|]. split; [by etrans|]. split; [done|]. split; [|done].
      by rewrite Hst, Hfl.
    + destruct (IH (start_do s1 cmd) (u16 (index cmd + 1)) m Hm) as (ok&s2&E&Hfr2&Hok2&Hst&Hnl).
      { unfold rounds. simpl. rewrite Hfl, En. rewrite <- Hfl, Ed in Hf. lia. }
      { by apply start_do_ok. }
      exists ok, s2. split; [done|]. split; [etrans; [exact Hfr|exact Hfr2]|].
      split; [done|]. split; [|done]. rewrite Hst. simpl. by rewrite Hfl.
Qed.

Lemma advance_nav_spec s : loaded_ok s -> state (_flags s) = MISSION_RUNNING ->
  nav_cmd_loaded (_flags s) = false ->
  exists ok s', advance_current_nav_cmd layout junk s = Some (ok, s') /\
    frame s s' /\ loaded_ok s' /\ state (_flags s') = MISSION_RUNNING /\
    nav_cmd_loaded (_flags s') = ok.
Proof.
  intros [Hn Hd] Hs Hl. unfold advance_current_nav_cmd.
  rewrite bool_decide_eq_true_2, Hl by done. simpl negb. cbv iota zeta.
  set (s1 := set_all_done _ _).
  destruct (advance_loop_spec advance_fuel s1
    (if index (_nav_cmd s1) =? AP_MISSION_CMD_INDEX_NONE then AP_MISSION_FIRST_REAL_COMMAND
     else u16 (index (_nav_cmd s1) + 1)) 255) as (ok&s'&E&H1&H2&H3&H4).
  - lia.
  - unfold rounds. simpl. rewrite Hl. unfold advance_fuel. lia.
  - split; [exact Hn|done].
  - exists ok, s'. split; [exact E|]. split; [exact H1|]. split; [done|]. split; [|done].
    by rewrite H3.
Qed.

(** A running mission with a navigation command, or one that just completed,
    the call-back of the completion being the last thing it did. *)
Definition going s : Prop :=
  (state (_flags s) = MISSION_RUNNING /\ nav_cmd_loaded (_flags s) = true) \/
  (state (_flags s) = MISSION_COMPLETE /\ nav_cmd_loaded (_flags s) = false /\
   exists w, vehicle s = mission_complete w).

Lemma advance_or_complete_spec s : loaded_ok s -> state (_flags s) = MISSION_RUNNING ->
  nav_cmd_loaded (_flags s) = false ->
  exists ok s', advance_or_complete layout junk s = Some (ok, s') /\
    frame s s' /\ loaded_ok s' /\ going s' /\
    (ok = true <-> state (_flags s') = MISSION_RUNNING).
Proof.
  intros Hok Hs Hl. destruct (advance_nav_spec s Hok Hs Hl) as (ok&s'&E&Hf&Hok'&Hs'&Hl').
  unfold advance_or_complete. rewrite E. simpl. destruct ok.
  - exists true, s'. split; [done|]. split; [done|]. split; [done|]. split; [by left|by split].
  - exists false, (complete s'). split; [done|]. split; [exact Hf|]. split; [exact Hok'|].
    split; [|by split]. right. split; [done|]. split; [done|]. by eexists.
Qed.

Lemma next_do_frame s i r s' : get_next_do_cmd layout junk s i = (r, s') ->
  frame s s' /\ _flags s' = _flags s /\ vehicle s' = vehicle s /\ (loaded_ok s -> loaded_ok s') /\
  forall cmd, r = Some cmd -> is_nav_cmd cmd = false /\ id cmd <> MAV_CMD_DO_JUMP /\
    index cmd < utotal s'.
Proof.
  unfold get_next_do_cmd. destruct (i >=? utotal s); [by intros [= <- <-]|].
  destruct (next s i false) as [r1 s1] eqn:Er.
  destruct (next_frame _ _ _ _ _ Er) as (Hf&Hfl&_&_&Hv&Hok&Hc).
  destruct r1 as [cmd|]; [|by intros [= <- <-]].
  destruct (is_nav_cmd cmd) eqn:En; intros [= <- <-]; [done|].
  do 4 (split; [done|]). intros c [= <-]. split; [done|]. by apply Hc.
Qed.

Lemma update_do_spec s : loaded_ok s -> state (_flags s) = MISSION_RUNNING ->
  frame s (update_do layout junk s) /\ loaded_ok (update_do layout junk s) /\
  state (_flags (update_do layout junk s)) = MISSION_RUNNING /\
  nav_cmd_loaded (_flags (update_do layout junk s)) = nav_cmd_loaded (_flags s).
Proof.
  intros Hok Hs. unfold update_do. destruct (do_cmd_loaded (_flags s)) eqn:Ed; simpl.
  - unfold verify_cmd. destruct (cmd_verify _ _) as [[] w]; [|done].
    split; [done|]. split; [|done]. by split; [exact (proj1 Hok)|].
  - unfold advance_current_do_cmd. destruct (negb _ || _); [done|].
    set (i := if _ =? _ then _ else _). destruct (i >=? utotal s); [done|].
    destruct (get_next_do_cmd layout junk s i) as [r s1] eqn:Er.
    destruct (next_do_frame _ _ _ _ Er) as (Hf&Hfl&Hv&Hok1&Hc). specialize (Hok1 Hok).
    destruct r as [cmd|]; simpl.
    + destruct (Hc cmd eq_refl) as (?&?&?). split; [exact Hf|]. split; [by apply start_do_ok|].
      rewrite Hfl. done.
    + split; [exact Hf|]. split; [exact Hok1|]. rewrite Hfl. done.
Qed.

Lemma utotal_small s : 0 <= _cmd_total s < 32768 -> utotal s = _cmd_total s.
Proof. intros Ht. unfold utotal. apply u32_small. lia. Qed.

Lemma update_nav_spec s : loaded_ok s -> state (_flags s) = MISSION_RUNNING ->
  0 <= _cmd_total s < 32768 ->
  exists ok s', update_nav layout junk s = Some (ok, s') /\ frame s s' /\ loaded_ok s' /\
    going s' /\ (ok = true <-> state (_flags s') = MISSION_RUNNING).
Proof.
  intros Hok Hs Ht. unfold update_nav. destruct (nav_cmd_loaded (_flags s)) eqn:El; simpl.
  - destruct (proj1 Hok El) as (_&_&Hi). rewrite utotal_small in Hi by done.
    rewrite (proj2 (Z.eqb_neq _ AP_MISSION_CMD_INDEX_NONE))
      by (unfold AP_MISSION_CMD_INDEX_NONE; lia).
    unfold verify_cmd. destruct (cmd_verify _ _) as [[] w].
    + destruct (advance_or_complete_spec (set_nav_loaded (set_vehicle s w) false))
        as (ok&s'&E&Hf&Hr); [split; [done|exact (proj2 Hok)]|done|done|].
      exists ok, s'. split; [exact E|]. split; [exact Hf|exact Hr].
    + exists true, (set_vehicle s w). split; [done|]. split; [done|]. split; [done|].
      split; [by left|done].
  - by apply advance_or_complete_spec.
Qed.


(** ** The next navigation command *)

(** The commands [i .. j-1] are do-commands, the command [j] is a navigation
    command, [nav]. *)
Definition leg s (i j : Z) (nav : Mission_Command) : Prop :=
  (forall k, i <= k < j -> exists c, read s k junk = Some c /\ is_nav_cmd c = false /\
     id c <> MAV_CMD_DO_JUMP) /\
  read s j junk = Some nav /\ is_nav_cmd nav = true /\ id nav <> MAV_CMD_DO_JUMP.

Lemma read_same s s' k old : k <> 0 -> _storage s' = _storage s -> _cmd_total s' = _cmd_total s ->
  read s' k old = read s k old.
Proof.
  intros Hk Hs Ht. unfold read_cmd_from_storage, utotal, sread_byte, sread_uint16, sread_block.
  by rewrite Hs, Ht, (proj2 (Z.eqb_neq k 0)).
Qed.

Lemma leg_same s s' i j nav : 0 < i <= j -> _storage s' = _storage s ->
  _cmd_total s' = _cmd_total s -> leg s i j nav -> leg s' i j nav.
Proof.
  intros Hi Hs Ht [Hd Hn]. split.
  - intros k Hk. rewrite (read_same s) by (done || lia). by apply Hd.
  - by rewrite (read_same s) by (done || lia).
Qed.

Lemma leg_next s i j nav : 0 < i < j -> leg s i j nav -> leg s (i + 1) j nav.
Proof. intros Hi [Hd Hn]. split; [|done]. intros k Hk. apply Hd. lia. Qed.

Lemma advance_done fuel s i m : nav_cmd_loaded (_flags s) = true ->
  do_cmd_loaded (_flags s) = true -> advance_loop layout junk fuel s i m = Some (true, s).
Proof. intros Hn Hd. destruct fuel; cbn [advance_loop]; by rewrite Hn, Hd. Qed.

(** With a do-command loaded, the others up to [j] are skipped. *)
Lemma advance_skip nav (j : Z) : forall (n : nat) fuel s i m, Z.of_nat n = j - i -> 0 < i ->
  j < utotal s -> j < 65535 -> leg s i j nav -> (n < fuel)%nat -> Z.of_nat n <= m < 256 ->
  nav_cmd_loaded (_flags s) = false -> do_cmd_loaded (_flags s) = true ->
  advance_loop layout junk fuel s i m = Some (true, start_nav s nav).
Proof.
  induction n as [|n IH]; intros [|fuel] s i m Hn Hi Hj Hj' Hleg Hf Hm Hnl Hdl; try lia;
    cbn [advance_loop]; rewrite Hnl.
  - replace i with j by lia. destruct Hleg as (_&Hr&Hnav&Hid).
    rewrite (next_here _ _ _ nav), Hnav by (done || lia). by apply advance_done.
  - destruct (proj1 Hleg i) as (c&Hr&Hnav&Hid); [lia|].
    rewrite (next_here _ _ _ c), Hnav, Hdl by (done || lia). simpl negb. cbv iota.
    rewrite (proj2 (Z.eqb_neq m 0)), u8_small by lia.
    destruct (read_index _ _ _ _ Hr) as [-> _]. rewrite u16_small by lia.
    apply IH; try done; try lia. apply leg_next; [lia|done].
Qed.

(** The state after the leg: the first do-command, if there is one, then the
    navigation command. *)
Definition leg_started s (i j : Z) (nav : Mission_Command) : t S W :=
  match read s i junk with
  | Some c => if i <? j then start_nav (start_do s c) nav else set_all_done (start_nav s nav) true
  | None => s
  end.

Lemma advance_leg fuel s i j nav : (256 < fuel)%nat -> 0 < i <= j -> j < utotal s ->
  j < 65535 -> j <= i + 256 -> leg s i j nav -> nav_cmd_loaded (_flags s) = false ->
  do_cmd_loaded (_flags s) = false ->
  advance_loop layout junk fuel s i 255 = Some (true, leg_started s i j nav).
Proof.
  intros Hfuel Hi Hj Hj' Hn Hleg Hnl Hdl. unfold leg_started. destruct fuel as [|fuel]; [lia|].
  cbn [advance_loop]. rewrite Hnl. destruct (Z.ltb_spec i j) as [Hlt|Hlt].
  - destruct (proj1 Hleg i) as (c&Hr&Hnav&Hid); [lia|]. rewrite Hr.
    rewrite (next_here _ _ _ c), Hnav, Hdl by (done || lia). simpl negb. cbv iota.
    destruct (read_index _ _ _ _ Hr) as [-> _]. rewrite u16_small by lia.
    apply (advance_skip nav j (Z.to_nat (j - (i + 1)))); try done; try lia.
    apply (leg_same s); [lia|done|done|]. apply leg_next; [lia|done].
  - replace i with j by lia. destruct Hleg as (_&Hr&Hnav&Hid). rewrite Hr.
    rewrite (next_here _ _ _ nav), Hnav by (done || lia).
    destruct fuel; [lia|]. cbn [advance_loop]. simpl. by rewrite Hdl.
Qed.

(** ** Jump commands *)

(** The command [k] is [ja_jump], a jump to [t], [n] times; [ct] and [c'] are the
    commands found at [t] and after it. *)
Record jump_at s (k : Z) (ja_jump : Mission_Command) (t n : Z) (ct c' : Mission_Command) : Prop := {
  ja_read : read s k junk = Some ja_jump;
  ja_id : id ja_jump = MAV_CMD_DO_JUMP;
  ja_target : jump_target ja_jump = t;
  ja_times : jump_num_times ja_jump = n;
  ja_range : 0 < k /\ k + 1 < utotal s /\ 0 < t < utotal s;
  ja_small : utotal s < 65536;
  ja_there : read s t ja_jump = Some ct /\ id ct <> MAV_CMD_DO_JUMP;
  ja_after : read s (k + 1) ja_jump = Some c' /\ id c' <> MAV_CMD_DO_JUMP
}.

Lemma next_jump s k j t n ct c' : jump_at s k j t n ct c' -> n <> -1 ->
  let js := (times_run_loop (_jump_tracking s) k).2 in
  next s k true =
    if times (_jump_tracking s) k <? n then (Some ct, set_jumps s (increment_loop js k))
    else (Some c', set_jumps s js).
Proof.
  intros [Hr Hid Ht Hn Hk Hs [Hrt Hit] [Hra Hia]] Hn1 js.
  unfold get_next_cmd. rewrite next_loop_unfold.
  rewrite (proj2 (Z.ltb_lt k _)), Hr, Hid, Z.eqb_refl by lia.
  rewrite Ht, Z.geb_leb, (proj2 (Z.leb_gt _ _)), (proj2 (Z.eqb_neq t 0)) by lia. simpl orb.
  cbv iota. simpl negb. rewrite andb_false_l. unfold follow_jump.
  rewrite Hn, (proj2 (Z.eqb_neq n AP_MISSION_JUMP_REPEAT_FOREVER)) by done.
  unfold get_jump_times_run, increment_jump_times_run.
  rewrite Hid, Z.eqb_refl, Ht, Z.geb_leb, (proj2 (Z.leb_gt _ _)), (proj2 (Z.eqb_neq t 0)) by lia.
  destruct (read_index _ _ _ _ Hr) as [-> _]. unfold times, js. simpl orb. cbv iota.
  destruct (times_run_loop (_jump_tracking s) k) as [m js']. simpl fst. simpl snd.
  destruct (m <? n); simpl negb; cbv iota zeta.
  - assert (Htu : t < utotal s) by lia.
    apply loop_here; [exact Htu|by rewrite (read_same s) by (done || lia)|done].
  - rewrite u16_small by lia.
    apply loop_here; [change (utotal (set_jumps s js')) with (utotal s); lia| |done].
    by rewrite (read_same s) by (done || lia).
Qed.

Lemma next_jump_forever s k j t ct c' : jump_at s k j t (-1) ct c' -> next s k true = (Some ct, s).
Proof.
  intros [Hr Hid Ht Hn Hk Hs [Hrt Hit] _].
  unfold get_next_cmd. rewrite next_loop_unfold.
  rewrite (proj2 (Z.ltb_lt k _)), Hr, Hid, Z.eqb_refl by lia.
  rewrite Ht, Z.geb_leb, (proj2 (Z.leb_gt _ _)), (proj2 (Z.eqb_neq t 0)) by lia. simpl orb.
  cbv iota. simpl negb. rewrite andb_false_l. unfold follow_jump.
  rewrite Hn. simpl Z.eqb. cbv iota. rewrite Ht. apply loop_here; [lia|done|done].
Qed.

Lemma jump_at_jumps s k j t n ct c' js : jump_at s k j t n ct c' ->
  jump_at (set_jumps s js) k j t n ct c'.
Proof. intros [? ? ? ? ? ? ? ?]. by split. Qed.

(** [m] searches that arrive at the command [k] one after the other: the indices
    of the commands found. *)
Fixpoint arrivals (m : nat) s (k : Z) : list (option Z) :=
  match m with
  | O => []
  | Datatypes.S m => let '(r, s) := next s k true in option_map index r :: arrivals m s k
  end.

Lemma arrivals_passed m : forall s k j t n ct c', jump_at s k j t n ct c' -> n <> -1 ->
  n <= times (_jump_tracking s) k -> arrivals m s k = replicate m (Some (k + 1)).
Proof.
  induction m as [|m IH]; intros s k j t n ct c' Hj Hn Hc; [done|]. cbn [arrivals replicate].
  rewrite (next_jump s k j t n ct c'), (proj2 (Z.ltb_ge _ _)) by done. simpl option_map. f_equal.
  - destruct Hj as [_ _ _ _ _ _ _ [Hr _]]. by destruct (read_index _ _ _ _ Hr) as [-> _].
  - apply (IH _ k j t n ct c'); [by apply jump_at_jumps|done|]. simpl. by rewrite times_after_get.
Qed.

Lemma arrivals_taken r m : forall s k j t n ct c', jump_at s k j t n ct c' -> n < 32768 ->
  0 <= times (_jump_tracking s) k -> Z.of_nat r = n - times (_jump_tracking s) k ->
  arrivals (r + m) s k = replicate r (Some t) ++ replicate m (Some (k + 1)).
Proof.
  induction r as [|r IH]; intros s k j t n ct c' Hj Hn H0 Hr; cbn [Nat.add replicate app].
  { apply (arrivals_passed _ _ _ j t n ct c'); [done|lia|lia]. }
  cbn [arrivals]. rewrite (next_jump s k j t n ct c'), (proj2 (Z.ltb_lt _ _)) by (done || lia).
  simpl option_map. f_equal.
  - destruct Hj as [_ _ _ _ _ _ [Hrd _] _]. by destruct (read_index _ _ _ _ Hrd) as [-> _].
  - assert (Ht : times (increment_loop (times_run_loop (_jump_tracking s) k).2 k) k =
      times (_jump_tracking s) k + 1).
    { rewrite times_after_increment, times_after_get; rewrite ?times_after_get;
        unfold AP_MISSION_JUMP_TIMES_MAX; lia. }
    apply (IH _ k j t n ct c'); [by apply jump_at_jumps|done| |]; simpl; rewrite Ht; lia.
Qed.

Lemma arrivals_forever m : forall s k j t ct c', jump_at s k j t (-1) ct c' ->
  arrivals m s k = replicate m (Some t).
Proof.
  induction m as [|m IH]; intros s k j t ct c' Hj; [done|]. cbn [arrivals replicate].
  rewrite (next_jump_forever s k j t ct c') by done. simpl option_map. f_equal.
  - destruct Hj as [_ _ _ _ _ _ [Hr _] _]. by destruct (read_index _ _ _ _ Hr) as [-> _].
  - by apply (IH _ _ j _ ct c').
Qed.

(** ** A search that does not end *)

(** A mission of a do-command and a jump back to it, for ever. *)
Definition do_loop s : Prop :=
  utotal s = 3 /\
  (forall old, exists d, read s 1 old = Some d /\ is_nav_cmd d = false /\
     id d <> MAV_CMD_DO_JUMP) /\
  exists j, read s 2 junk = Some j /\ id j = MAV_CMD_DO_JUMP /\ jump_target j = 1 /\
    jump_num_times j = -1.

Lemma do_loop_same s s' : _storage s' = _storage s -> _cmd_total s' = _cmd_total s ->
  do_loop s -> do_loop s'.
Proof.
  intros Hs Ht (H1&H2&j&H3&H4). split; [unfold utotal; by rewrite Ht|]. split.
  - intros old. rewrite (read_same s) by done. apply H2.
  - exists j. by rewrite (read_same s) by done.
Qed.

(** The search finds the do-command again and again. *)
Lemma do_loop_next s i : do_loop s -> i = 1 \/ i = 2 ->
  exists d, next s i true = (Some d, s) /\ index d = 1 /\ is_nav_cmd d = false.
Proof.
  intros (Ht&Hd&j&Hr&Hid&Htg&Hn) [-> | ->].
  - destruct (Hd junk) as (d&Hrd&Hnav&Hidd). exists d.
    destruct (read_index _ _ _ _ Hrd) as [Hi _].
    rewrite (next_here _ _ _ d) by (done || lia). done.
  - destruct (Hd j) as (d&Hrd&Hnav&Hidd). exists d.
    destruct (read_index _ _ _ _ Hrd) as [Hi _]. split; [|done].
    unfold get_next_cmd. rewrite next_loop_unfold, Ht. change (2 <? 3) with true. cbv iota.
    rewrite Hr, Hid, Z.eqb_refl, Htg. change ((1 >=? 3) || (1 =? 0)) with false.
    cbv iota. simpl negb. rewrite andb_false_l. unfold follow_jump. rewrite Hn, Htg.
    change (-1 =? AP_MISSION_JUMP_REPEAT_FOREVER) with true. cbv iota.
    apply loop_here; [lia|done|done].
Qed.

Lemma stopped_loop_hangs fuel : forall s i, do_loop s -> i = 1 \/ i = 2 ->
  nav_cmd_loaded (_flags s) = false -> set_stopped_loop layout junk fuel s i = None.
Proof.
  induction fuel as [|fuel IH]; intros s i Hl Hi Hn; cbn [set_stopped_loop]; rewrite Hn; [done|].
  destruct (do_loop_next s i Hl Hi) as (d&->&->&->). change (u16 (1 + 1)) with 2.
  destruct (negb (do_cmd_loaded (_flags s))); apply IH; try done; try by right.
Qed.

Lemma running_loop_hangs fuel : forall s i, do_loop s -> i = 1 \/ i = 2 ->
  nav_cmd_loaded (_flags s) = false -> set_running_loop layout junk fuel s i = None.
Proof.
  induction fuel as [|fuel IH]; intros s i Hl Hi Hn; cbn [set_running_loop]; rewrite Hn; [done|].
  destruct (do_loop_next s i Hl Hi) as (d&->&->&->). change (u16 (1 + 1)) with 2.
  destruct (negb (do_cmd_loaded (_flags s))); apply IH; try done; try by right.
Qed.
End run.

(** C6. The running mission: [update] always ends.  It does nothing unless the
    mission is running and not empty; otherwise it leaves a mission that either
    still runs, with a navigation command loaded, or has just completed, the
    completion having been the last call to the vehicle; the loaded commands are
    a navigation and a do-command of the mission, never a jump, and the commands,
    the total and the parameters are untouched. *)
Theorem mission_update {S W} `{HalStorage S, Vehicle W, MavCmds} layout junk
    (s : Mission.t S W) : loaded_ok s -> 0 <= _cmd_total s < 32768 ->
  exists s', update layout junk s = Some s' /\ frame s s' /\ loaded_ok s' /\
    (state (_flags s) <> MISSION_RUNNING \/ _cmd_total s = 0 -> s' = s) /\
    (state (_flags s) = MISSION_RUNNING -> _cmd_total s <> 0 -> going s').
Proof.
  intros Hok Hr. unfold update.
  destruct (decide (state (_flags s) = MISSION_RUNNING)) as [Hs|Hs].
  2:{ rewrite bool_decide_eq_false_2 by done. exists s. repeat split; try done; by apply Hok. }
  rewrite bool_decide_eq_true_2 by done. simpl negb. rewrite orb_false_l.
  destruct (Z.eqb_spec (_cmd_total s) 0) as [Ht|Ht].
  { exists s. split; [done|]. split; [done|]. split; [done|]. by split. }
  destruct (update_nav_spec layout junk s Hok Hs Hr) as (ok&s1&->&Hf&Hok1&Hg&Ho). simpl.
  destruct ok.
  - destruct (update_do_spec layout junk s1 Hok1) as (Hf2&Hok2&Hs2&Hn2); [by apply Ho|].
    eexists. split; [done|]. split; [by etrans|]. split; [done|]. split; [by intros []|].
    intros _ _. left. split; [done|]. rewrite Hn2.
    destruct Hg as [[_ ?]|[Hc _]]; [done|]. by rewrite (proj1 Ho eq_refl) in Hc.
  - exists s1. split; [done|]. split; [done|]. split; [done|]. split; [by intros []|done].
Qed.

(** A demonstration mission, stopped, as the examples use it. *)
Lemma demo_loaded_ok cmds : nav_cmd_loaded (_flags (demo cmds)) = false ->
  do_cmd_loaded (_flags (demo cmds)) = false -> loaded_ok (demo cmds).
Proof. intros Hn Hd. split; congruence. Qed.

Lemma mission_update_witness :
  let s := set_state (demo [waypoint 1; do_speed; waypoint 2]) MISSION_RUNNING in
  exists s', update demo_layout demo_junk s = Some s' /\ going s'.
Proof.
  intros s. destruct (mission_update demo_layout demo_junk s) as (s'&Hu&_&_&_&Hg).
  - split; intros Hx; vm_compute in Hx; discriminate Hx.
  - vm_compute. split; [discriminate|reflexivity].
  - exists s'. split; [exact Hu|]. apply Hg; [reflexivity|vm_compute; discriminate].
Defined.

(** Starting the mission always ends: the mission then runs with its first
    navigation command loaded, or is complete; the jump records are reset. *)
Theorem mission_start {S W} `{HalStorage S, Vehicle W, MavCmds} layout junk
    (s : Mission.t S W) :
  exists s', start layout junk s = Some s' /\ loaded_ok s' /\ going s' /\
    _storage s' = _storage s /\ _cmd_total s' = _cmd_total s.
Proof.
  unfold start. set (s1 := reset _).
  destruct (advance_or_complete_spec layout junk s1) as (ok&s'&->&Hf&Hok&Hg&_); [done|done|done|].
  exists s'. split; [done|]. split; [done|]. split; [done|]. split; apply Hf.
Qed.



(** C36. A jump command is taken as often as it says: the searches of a running
    mission that arrive at a jump of [n] times, of which it records
    [times] already taken, find its target [n - times] times and from then on
    the command after it; a jump of -1 times is taken for ever. *)
Theorem mission_jump_times {S W} `{HalStorage S, Vehicle W, MavCmds} layout junk
    (s : Mission.t S W) k j t n ct c' m :
  jump_at layout junk s k j t n ct c' -> -32768 <= n < 32768 ->
  0 <= times (_jump_tracking s) k ->
  arrivals layout junk (Z.to_nat (n - times (_jump_tracking s) k) + m) s k =
    if n =? -1 then replicate m (Some t)
    else replicate (Z.to_nat (n - times (_jump_tracking s) k)) (Some t) ++
         replicate m (Some (k + 1)).
Proof.
  intros Hj Hn Ht. destruct (Z.eqb_spec n (-1)) as [->|Hn1].
  - replace (Z.to_nat _) with 0%nat by lia. by apply (arrivals_forever _ _ _ _ _ j _ ct c').
  - destruct (decide (n <= times (_jump_tracking s) k)).
    + replace (Z.to_nat _) with 0%nat by lia. by apply (arrivals_passed _ _ _ _ _ j t n ct c').
    + apply (arrivals_taken _ _ _ _ _ _ j t n ct c'); [done|lia|lia|lia].
Qed.

Lemma mission_jump_times_witness :
  let s := demo [waypoint 1; waypoint 2; jump 1 2; waypoint 3] in
  arrivals demo_layout demo_junk (2 + 3) s 3 = [Some 1; Some 1; Some 4; Some 4; Some 4].
Proof.
  intros s. destruct (read_cmd_from_storage demo_layout s 3 demo_junk) as [j|] eqn:Ej;
    [|vm_compute in Ej; discriminate Ej].
  destruct (read_cmd_from_storage demo_layout s 1 j) as [ct|] eqn:Et;
    [|vm_compute in Et; discriminate Et].
  destruct (read_cmd_from_storage demo_layout s 4 j) as [c'|] eqn:Ec;
    [|vm_compute in Ec; discriminate Ec].
  apply (mission_jump_times demo_layout demo_junk s 3 j 1 2 ct c' 3).
  - vm_compute in Ej. injection Ej as <-. vm_compute in Et. injection Et as <-.
    vm_compute in Ec. injection Ec as <-. split; try reflexivity;
      try (repeat split; first [by apply Forall_replicate | vm_compute; (reflexivity || discriminate)]).
  - lia.
  - vm_compute. discriminate.
Defined.

(** [set_current_cmd] has no bound on its search, unlike
    [advance_current_nav_cmd]: on a mission of a do-command followed by an
    endless jump back to it, which the ground station can upload, jumping to
    command 1 never returns, whatever the state of the mission, while the
    running mission gives up and completes. *)
Theorem mission_set_current_hangs {S W} `{HalStorage S, Vehicle W, MavCmds} layout junk
    (s : Mission.t S W) fuel : do_loop layout junk s -> _cmd_total s <> 1 ->
  set_current_cmd layout junk fuel s 1 = None /\
  exists s', start layout junk s = Some s' /\ going s'.
Proof.
  intros Hl Ht. split.
  - unfold set_current_cmd. destruct Hl as (Hu&Hd). rewrite Hu.
    rewrite (proj2 (Z.eqb_neq (_cmd_total s) 1)) by done. simpl orb. cbv iota zeta.
    change (1 =? 0) with false. rewrite andb_false_r. cbv iota.
    match goal with |- context [set_stopped_loop _ _ _ ?x _] => set (s1 := x) end.
    assert (H1' : _storage s1 = _storage s /\ _cmd_total s1 = _cmd_total s /\
      nav_cmd_loaded (_flags s1) = false) by (unfold s1; by destruct (bool_decide _)).
    destruct H1' as (Hs1&Ht1&Hn1).
    assert (Hl1 : do_loop layout junk s1) by (by apply (do_loop_same _ _ s)).
    destruct (negb _); [apply stopped_loop_hangs|apply running_loop_hangs];
      try done; by left.
  - unfold start. set (s1 := reset _).
    destruct (advance_or_complete_spec layout junk s1) as (ok&s'&->&_&_&Hg&_); [done|done|done|].
    by exists s'.
Qed.

Lemma mission_set_current_hangs_witness :
  let s := demo [do_speed; jump 1 (-1)] in
  set_current_cmd demo_layout demo_junk (Z.to_nat 1000) s 1 = None /\
  exists s', start demo_layout demo_junk s = Some s' /\ going s'.
Proof.
  intros s. apply mission_set_current_hangs; [|vm_compute; discriminate].
  split; [reflexivity|]. split.
  - intros old. destruct (read_cmd_from_storage demo_layout s 1 demo_junk) as [d|] eqn:Ed;
      [|vm_compute in Ed; discriminate Ed].
    vm_compute in Ed. injection Ed as <-. eexists. split; [vm_compute; reflexivity|].
    split; [reflexivity|vm_compute; discriminate].
  - eexists. split; [vm_compute; reflexivity|]. repeat split.
Defined.
