(* ===== verification/Param.v ===== *)
(** The parameters: libraries/AP_Param (AP_Param.{h,cpp}), their tables, their
    record in the parameter area of the storage, and saving and loading them.

    The variables live in a memory of bytes; the pointers the tables go through
    ([AP_PARAM_FLAG_POINTER], [AP_PARAM_FLAG_INFO_POINTER]) are parameters.  A
    pointer to a variable is its address.  The messages to the ground stations and
    to the console are left out, and so are the names a message needs. *)
From S2P Require Import Prelude Float32 Storage.
From Stdlib Require Import String.
Open Scope urus_scope.
Import StorageManager.
#[local] Abbreviation length := (@Datatypes.length _).

Module AP_Param.
(** * Types of variables *)
Definition AP_PARAM_NONE : Z := 0.
Definition AP_PARAM_INT8 : Z := 1.
Definition AP_PARAM_INT16 : Z := 2.
Definition AP_PARAM_INT32 : Z := 3.
Definition AP_PARAM_FLOAT : Z := 4.
Definition AP_PARAM_VECTOR3F : Z := 5.
Definition AP_PARAM_GROUP : Z := 6.

(** [AP_PARAM_FLAG_*], and the shift of the frame types. *)
Definition AP_PARAM_FLAG_NESTED_OFFSET : Z := 1.
Definition AP_PARAM_FLAG_POINTER : Z := 2.
Definition AP_PARAM_FLAG_ENABLE : Z := 4.
Definition AP_PARAM_NO_SHIFT : Z := 8.
Definition AP_PARAM_FLAG_INFO_POINTER : Z := 16.
Definition AP_PARAM_FRAME_TYPE_SHIFT : Z := 6.

(** The union of a row: the default, a table, or the address of the pointer to a
    table; the null table is [None]. *)
Inductive row_union (G : Type) :=
| DefValue (x : spec_float)
| GroupTable (g : option (list G))
| GroupTablePtr (a : Z).
Arguments DefValue {G} x.
Arguments GroupTable {G} g.
Arguments GroupTablePtr {G} a.

Inductive GroupInfo := group_row {
  type : Z;
  idx : Z;
  name : string;
  offset : Z;
  content : row_union GroupInfo;
  flags : Z
}.

Record Info := info_row {
  i_type : Z;
  i_name : string;
  key : Z;
  ptr : Z;
  i_content : row_union GroupInfo;
  i_flags : Z
}.

Definition type_size (type : Z) : Z :=
  if (type =? AP_PARAM_NONE) || (type =? AP_PARAM_GROUP) then 0
  else if type =? AP_PARAM_INT8 then 1
  else if type =? AP_PARAM_INT16 then 2
  else if type =? AP_PARAM_INT32 then 4
  else if type =? AP_PARAM_FLOAT then 4
  else if type =? AP_PARAM_VECTOR3F then 3 * 4
  else 0.

(** * Headers in storage *)
Definition k_EEPROM_magic0 : Z := 0x50.
Definition k_EEPROM_magic1 : Z := 0x41.
Definition k_EEPROM_revision : Z := 6.

Definition _group_level_shift : Z := 6.
Definition _group_bits : Z := 18.
Definition _sentinal_key : Z := 0x1FF.
Definition _sentinal_type : Z := 0x1F.
Definition _sentinal_group : Z := 0xFF.

(** [struct Param_header], its bit fields from the low bit up. *)
Record Param_header := header { key_low : Z; h_type : Z; key_high : Z; group_element : Z }.

(** The 32 bits of a header, and back. *)
Definition word_of (h : Param_header) : Z :=
  key_low h + h_type h * 2 ^ 8 + key_high h * 2 ^ 13 + group_element h * 2 ^ 14.
Definition header_of (v : Z) : Param_header :=
  header (v mod 2 ^ 8) (v / 2 ^ 8 mod 2 ^ 5) (v / 2 ^ 13 mod 2) (v / 2 ^ 14 mod 2 ^ 18).

Definition header_bytes (h : Param_header) : list Z := le_bytes 4 (word_of h).
Definition header_at (bs : list Z) : Param_header := header_of (le_val bs).

Definition get_key (phdr : Param_header) : Z := (key_high phdr << 8) ||| key_low phdr.

(** The assignments to the bit fields of a header. *)
Definition set_key (phdr : Param_header) (key : Z) : Param_header :=
  header (key &&& 0xFF) (h_type phdr) ((key >> 8) mod 2) (group_element phdr).
Definition make_header (type key group_element : Z) : Param_header :=
  set_key (header 0 (type mod 2 ^ 5) 0 (group_element mod 2 ^ 18)) key.

Definition is_sentinal (phdr : Param_header) : bool :=
  if (h_type phdr =? _sentinal_type) || (get_key phdr =? _sentinal_key)
     || (group_element phdr =? _sentinal_group) then true
  else
    let v := word_of phdr in
    (v =? 0) || (v =? 0xFFFFFFFF).

(** * Memory *)
Definition mem_read (m : Z -> Z) (a n : Z) : list Z :=
  map (fun k => m (a + Z.of_nat k)) (seq 0 (Z.to_nat n)).
Definition mem_write (m : Z -> Z) (a : Z) (bs : list Z) : Z -> Z := fun x =>
  if (a <=? x) && (x <? a + zlen bs) then nth (Z.to_nat (x - a)) bs 0 else m x.

(** * The tables *)
Section tables.
Context (_var_info : list Info).
Context (deref : Z -> Z).                            (* a pointer in memory *)
Context (table_at : Z -> option (list GroupInfo)).   (* the pointer to a table *)

Definition group_id (g : GroupInfo) (base shift : Z) : Z :=
  if (idx g =? 0) && negb (shift =? 0) && negb (nz (flags g &&& AP_PARAM_NO_SHIFT))
  then u32 (base + (63 << shift))
  else u32 (base + (idx g << shift)).

Definition get_group_info (c : row_union GroupInfo) (flags : Z) : option (list GroupInfo) :=
  match c with
  | GroupTablePtr a => if nz (flags &&& AP_PARAM_FLAG_INFO_POINTER) then table_at a else None
  | GroupTable g => if nz (flags &&& AP_PARAM_FLAG_INFO_POINTER) then None else g
  | DefValue _ => None
  end.

(** [false] in the result is the refusal; [total_size] is threaded through. *)
Fixpoint check_group_rows (check : list GroupInfo -> Z -> Z -> option Z)
    (rows : list GroupInfo) (used_mask : Z) (total_size group_shift prefix_length : Z) : option Z :=
  match rows with
  | [] => Some total_size
  | g :: rows =>
    if type g =? AP_PARAM_NONE then Some total_size
    else if idx g >=? (1 << _group_level_shift) then None
    else
      let idx := if negb (group_shift =? 0) && (idx g =? 0) then 63 else idx g in
      if nz (used_mask &&& (1 << idx)) then None
      else
        let used_mask := used_mask ||| (1 << idx) in
        let len := Z.of_nat (String.length (name g)) in
        if type g =? AP_PARAM_GROUP then
          if group_shift + _group_level_shift >=? _group_bits then None
          else
            match get_group_info (content g) (flags g) with
            | None => check_group_rows check rows used_mask total_size group_shift prefix_length
            | Some ginfo =>
              total_size ← check ginfo total_size (u8 (prefix_length + len));
              check_group_rows check rows used_mask total_size group_shift prefix_length
            end
        else
          let size := type_size (type g) in
          if size =? 0 then None
          else if prefix_length + len >? 16 then None
          else check_group_rows check rows used_mask (u16 (total_size + size + 4))
                 group_shift prefix_length
  end.

(** [levels] bounds the nesting: three levels of 6 bits fill [_group_bits]. *)
Fixpoint check_group_info (levels : nat) (group_info : list GroupInfo)
    (total_size group_shift prefix_length : Z) : option Z :=
  match levels with
  | O => None
  | S levels =>
    check_group_rows
      (fun ginfo total_size prefix_length =>
         check_group_info levels ginfo total_size (u8 (group_shift + _group_level_shift)) prefix_length)
      group_info 0 total_size group_shift prefix_length
  end.

Definition duplicate_key (rest : list Info) (k : Z) : bool :=
  existsb (fun i => key i =? k) rest.

(** The loop of [check_var_info] from row [i] on. *)
Fixpoint check_var_rows (rows : list Info) (first : bool) (total_size : Z) : bool :=
  match rows with
  | [] => true
  | v :: rows =>
    let next total_size :=
      if duplicate_key rows (key v) then false
      else if negb (i_type v =? AP_PARAM_GROUP) && nz (i_flags v &&& AP_PARAM_FLAG_POINTER) then false
      else check_var_rows rows false total_size in
    if i_type v =? AP_PARAM_GROUP then
      if first then false
      else
        match get_group_info (i_content v) (i_flags v) with
        | None => check_var_rows rows false total_size
        | Some group_info =>
          match check_group_info 3 group_info total_size 0
                  (u8 (Z.of_nat (String.length (i_name v)))) with
          | None => false
          | Some total_size => next total_size
          end
        end
    else
      let size := type_size (i_type v) in
      if size =? 0 then false else next (u16 (total_size + size + 4))
  end.
Definition check_var_info : bool := check_var_rows _var_info true 4.

(** [get_base]: the address of a variable of the top level. *)
Definition get_base (info : Info) : option Z :=
  if nz (i_flags info &&& AP_PARAM_FLAG_POINTER) then
    let base := deref (ptr info) in if base =? 0 then None else Some base
  else Some (ptr info).

(** [adjust_group_offset]: the offset of a nested group from the base of row
    [v]; [None] is an object that is not allocated. *)
Definition adjust_group_offset (v : Info) (g : GroupInfo) (new_offset : Z) : option Z :=
  if nz (flags g &&& AP_PARAM_FLAG_NESTED_OFFSET) then Some (new_offset + offset g)
  else if nz (flags g &&& AP_PARAM_FLAG_POINTER) then
    base ← get_base v;
    let p := deref (base + new_offset + offset g) in
    if p =? 0 then None else Some (p - base)
  else Some new_offset.

(** [find_by_header_group]: the address of the variable. *)
Fixpoint find_by_header_rows (nested : list GroupInfo -> Z -> Z -> option Z)
    (phdr : Param_header) (v : Info) (rows : list GroupInfo)
    (group_base group_shift group_offset : Z) : option Z :=
  match rows with
  | [] => None
  | g :: rows =>
    let next := find_by_header_rows nested phdr v rows group_base group_shift group_offset in
    if type g =? AP_PARAM_NONE then None
    else if type g =? AP_PARAM_GROUP then
      if group_shift + _group_level_shift >=? _group_bits then None
      else
        match get_group_info (content g) (flags g) with
        | None => next
        | Some ginfo =>
          match adjust_group_offset v g group_offset with
          | None => next
          | Some new_offset =>
            match nested ginfo (group_id g group_base group_shift) new_offset with
            | Some a => Some a
            | None => next
            end
          end
        end
    else if (group_id g group_base group_shift =? group_element phdr) && (type g =? h_type phdr) then
      match get_base v with
      | None => next
      | Some base => Some (base + offset g + group_offset)
      end
    else next
  end.

Fixpoint find_by_header_group (levels : nat) (phdr : Param_header) (v : Info)
    (group_info : list GroupInfo) (group_base group_shift group_offset : Z) : option Z :=
  match levels with
  | O => None
  | S levels =>
    find_by_header_rows
      (fun ginfo base offset =>
         find_by_header_group levels phdr v ginfo base (u8 (group_shift + _group_level_shift)) offset)
      phdr v group_info group_base group_shift group_offset
  end.

Fixpoint find_by_header_loop (rows : list Info) (phdr : Param_header) : option Z :=
  match rows with
  | [] => None
  | v :: rows =>
    if negb (key v =? get_key phdr) then find_by_header_loop rows phdr
    else if i_type v =? AP_PARAM_GROUP then
      match get_group_info (i_content v) (i_flags v) with
      | None => find_by_header_loop rows phdr
      | Some group_info => find_by_header_group 3 phdr v group_info 0 0 0
      end
    else if i_type v =? h_type phdr then get_base v
    else find_by_header_loop rows phdr
  end.
Definition find_by_header (phdr : Param_header) : option Z := find_by_header_loop _var_info phdr.

(** What [find_var_info] finds: the row, the group element, the row of the group
    and the groups on the way to it, and the element of a vector. *)
Record found := Found {
  info : Info;
  element : Z;
  ginfo : option GroupInfo;
  nesting : list GroupInfo;
  vec_idx : Z
}.

(** [find_var_info_group] for the variable at address [this]; [nest] is the
    nesting so far, the last group first. *)
Fixpoint find_var_rows
    (nested : list GroupInfo -> Z -> Z -> list GroupInfo -> option found)
    (this : Z) (v : Info) (base : Z) (rows : list GroupInfo)
    (group_base group_shift group_offset : Z) (nest : list GroupInfo) : option found :=
  match rows with
  | [] => None
  | g :: rows =>
    let next := find_var_rows nested this v base rows group_base group_shift group_offset nest in
    let ofs := offset g + group_offset in
    let found_at k := Some (Found v (group_id g group_base group_shift) (Some g) (rev nest) k) in
    if type g =? AP_PARAM_NONE then None
    else if type g =? AP_PARAM_GROUP then
      match get_group_info (content g) (flags g) with
      | None => next
      | Some ginfo =>
        if group_shift + _group_level_shift >=? _group_bits then None
        else
          match adjust_group_offset v g group_offset with
          | None => next
          | Some new_offset =>
            if zlen nest >=? 2 then None
            else
              match nested ginfo (group_id g group_base group_shift) new_offset (g :: nest) with
              | Some r => Some r
              | None => next
              end
          end
      end
    else if this =? base + ofs then found_at 0
    else if (type g =? AP_PARAM_VECTOR3F) &&
            ((base + ofs + 4 =? this) || (base + ofs + 2 * 4 =? this))
    then found_at ((this - (base + ofs)) / 4)
    else next
  end.

Fixpoint find_var_info_group (levels : nat) (this : Z) (v : Info) (group_info : list GroupInfo)
    (group_base group_shift group_offset : Z) (nest : list GroupInfo) : option found :=
  match levels with
  | O => None
  | S levels =>
    match get_base v with
    | None => None
    | Some base =>
      find_var_rows
        (fun ginfo gb go nest =>
           find_var_info_group levels this v ginfo gb (u8 (group_shift + _group_level_shift)) go nest)
        this v base group_info group_base group_shift group_offset nest
    end
  end.

Fixpoint find_var_loop (this : Z) (rows : list Info) : option found :=
  match rows with
  | [] => None
  | v :: rows =>
    match get_base v with
    | None => find_var_loop this rows
    | Some base =>
      if i_type v =? AP_PARAM_GROUP then
        match get_group_info (i_content v) (i_flags v) with
        | None => find_var_loop this rows
        | Some group_info =>
          match find_var_info_group 3 this v group_info 0 0 0 [] with
          | Some r => Some r
          | None => find_var_loop this rows
          end
        end
      else if base =? this then Some (Found v 0 None [] 0)
      else if (i_type v =? AP_PARAM_VECTOR3F) && ((base + 4 =? this) || (base + 2 * 4 =? this))
      then Some (Found v 0 None [] ((this - base) / 4))
      else find_var_loop this rows
    end
  end.
Definition find_var_info (this : Z) : option found := find_var_loop this _var_info.

(** The header a variable is stored with. *)
Definition found_type (f : found) : Z :=
  match ginfo f with Some g => type g | None => i_type (info f) end.
Definition found_header (f : found) : Param_header :=
  make_header (found_type f) (key (info f)) (element f).
Definition found_default (f : found) : spec_float :=
  match match ginfo f with Some g => content g | None => i_content (info f) end with
  | DefValue x => x
  | _ => S754_nan
  end.

(** * The storage *)
Section storage.
Context {St : Type} `{HalStorage St}.
Context (layout : list StorageArea).

(** [_storage], the memory, [_parameter_count] and [param_overrides]. *)
Record t := mk {
  _storage : St;
  mem : Z -> Z;
  _parameter_count : Z;
  param_overrides : list (Z * spec_float)
}.
Definition set_storage (s : t) (st : St) : t := mk st (mem s) (_parameter_count s) (param_overrides s).
Definition set_mem (s : t) (m : Z -> Z) : t := mk (_storage s) m (_parameter_count s) (param_overrides s).

Definition size : Z := total_size layout StorageParam.

(** [_storage.read_block(&v, ofs, sizeof(v))] into a variable that holds [old]. *)
Definition read_into (st : St) (old : list Z) (ofs : Z) : list Z :=
  let '(_, bs) := read_block layout StorageParam st [] ofs (zlen old) in
  bs ++ drop (length bs) old.

Definition eeprom_write_check (st : St) (bs : list Z) (ofs : Z) : St :=
  (write_block layout StorageParam st ofs bs).2.

Definition write_sentinal (st : St) (ofs : Z) : St :=
  eeprom_write_check st (header_bytes (make_header _sentinal_type _sentinal_key _sentinal_group)) ofs.

Definition erase_all (st : St) : St :=
  let st := eeprom_write_check st [k_EEPROM_magic0; k_EEPROM_magic1; k_EEPROM_revision; 0] 0 in
  write_sentinal st 4.

(** [setup]; [junk] is the content of the uninitialised local. *)
Definition setup (junk : list Z) (st : St) : St :=
  let hdr := read_into st junk 0 in
  if negb (nth 0 hdr 0 =? k_EEPROM_magic0) || negb (nth 1 hdr 0 =? k_EEPROM_magic1)
     || negb (nth 2 hdr 0 =? k_EEPROM_revision)
  then erase_all st else st.

Definition same_header (a b : Param_header) : bool :=
  (h_type a =? h_type b) && (get_key a =? get_key b) && (group_element a =? group_element b).

(** The loop of [scan] from offset [ofs] on; [phdr] is the bytes of the local.
    The result is the answer and [*pofs]. *)
Fixpoint scan_loop (fuel : nat) (st : St) (phdr : list Z) (target : Param_header) (ofs : Z)
  : outcome (bool * Z) :=
  match fuel with
  | O => OutOfFuel
  | S fuel =>
    if ofs <? size then
      let phdr := read_into st phdr ofs in
      let h := header_at phdr in
      if same_header h target then Done (true, ofs)
      else if is_sentinal h then Done (false, ofs)
      else scan_loop fuel st phdr target (u16 (ofs + (type_size (h_type h) + 4)))
    else Done (false, 0xffff)
  end.

(** Every round moves by 4 bytes at least. *)
Definition scan_fuel : nat := Z.to_nat (size / 4 + 2).
Definition scan (junk : list Z) (st : St) (target : Param_header) : outcome (bool * Z) :=
  scan_loop scan_fuel st junk target 4.

(** * Values *)
Definition set_value (type a : Z) (value : spec_float) (m : Z -> Z) : option (Z -> Z) :=
  if type =? AP_PARAM_INT8 then
    v ← f32_trunc value;
    if (-128 <=? v) && (v <? 128) then Some (mem_write m a (le_bytes 1 v)) else None
  else if type =? AP_PARAM_INT16 then
    v ← f32_trunc value;
    if (-32768 <=? v) && (v <? 32768) then Some (mem_write m a (le_bytes 2 v)) else None
  else if type =? AP_PARAM_INT32 then
    v ← f32_to_int32 value; Some (mem_write m a (le_bytes 4 v))
  else if type =? AP_PARAM_FLOAT then Some (mem_write m a (le_bytes 4 (bits_of_f32 value)))
  else Some m.

Definition cast_to_float (type a : Z) (m : Z -> Z) : spec_float :=
  if type =? AP_PARAM_INT8 then f32_of_Z (i8 (le_val (mem_read m a 1)))
  else if type =? AP_PARAM_INT16 then f32_of_Z (i16 (le_val (mem_read m a 2)))
  else if type =? AP_PARAM_INT32 then f32_of_Z (i32 (le_val (mem_read m a 4)))
  else if type =? AP_PARAM_FLOAT then f32_of_bits (le_val (mem_read m a 4))
  else S754_nan.

Definition get_default_value (s : t) (vp : Z) (def : spec_float) : spec_float :=
  match find (fun o => vp =? o.1) (param_overrides s) with
  | Some o => o.2
  | None => def
  end.

Definition is_equal (x y : spec_float) : bool := f32_lt (SFabs (x - y)%f32) (f32_lit 1 (-23)).
Definition f0001 := (f32_of_Z 1 / f32_of_Z 10000)%f32.         (* 0.0001f *)

(** The value [v1] of a variable is as good as its default [v2]. *)
Definition same_as_default (type : Z) (v1 v2 : spec_float) : bool :=
  is_equal v1 v2 ||
  (negb (type =? AP_PARAM_INT32) && f32_lt (SFabs (v1 - v2)%f32) (f0001 * SFabs v1)%f32).

(** * Saving and loading *)

(** The three writes of a new variable: the sentinal, the data, the header. *)
Definition append (st : St) (ofs : Z) (phdr : Param_header) (data : list Z) : St :=
  let st := write_sentinal st (u16 (ofs + 4 + type_size (h_type phdr))) in
  let st := eeprom_write_check st data (u16 (ofs + 4)) in
  eeprom_write_check st (header_bytes phdr) ofs.

Definition save (junk : list Z) (force_save : bool) (this : Z) (s : t) : outcome (bool * t) :=
  match find_var_info this with
  | None => Done (false, s)
  | Some f =>
    let phdr := found_header f in
    if negb (h_type phdr =? AP_PARAM_VECTOR3F) && negb (vec_idx f =? 0) then Done (false, s)
    else
      let ap := this - vec_idx f * 4 in
      let s := if (h_type phdr =? AP_PARAM_INT8) &&
                  match ginfo f with
                  | Some g => nz (flags g &&& AP_PARAM_FLAG_ENABLE)
                  | None => false
                  end
               then mk (_storage s) (mem s) 0 (param_overrides s) else s in
      let n := type_size (h_type phdr) in
      '(there, ofs) ← scan junk (_storage s) phdr;
      if there : bool then
        Done (true, set_storage s
          (eeprom_write_check (_storage s) (mem_read (mem s) ap n) (u16 (ofs + 4))))
      else if ofs =? 0xffff then Done (false, s)
      else if (h_type phdr <=? AP_PARAM_FLOAT) && negb force_save &&
              same_as_default (h_type phdr) (cast_to_float (h_type phdr) this (mem s))
                (get_default_value s this (found_default f))
      then Done (true, s)
      else if ofs + n + 2 * 4 >=? size then Done (false, s)
      else Done (true, set_storage s (append (_storage s) ofs phdr (mem_read (mem s) ap n)))
  end.

(** [load]; the default of a variable in a nested group goes to the offsets of
    the groups, added up. *)
Definition load (junk : list Z) (this : Z) (s : t) : outcome (bool * t) :=
  match find_var_info this with
  | None => Done (false, s)
  | Some f =>
    let phdr := found_header f in
    '(there, ofs) ← scan junk (_storage s) phdr;
    if negb there then
      match get_base (info f) with
      | None => Done (false, s)
      | Some base =>
        let a := match ginfo f with
                 | Some g => base + offset g + foldr (fun g n => offset g + n) 0 (nesting f)
                 | None => base
                 end in
        m ← access (set_value (h_type phdr) a
                      (get_default_value s this (found_default f)) (mem s));
        Done (false, set_mem s m)
      end
    else if negb (h_type phdr =? AP_PARAM_VECTOR3F) && negb (vec_idx f =? 0) then Done (false, s)
    else
      let ap := this - vec_idx f * 4 in
      let '(_, bs) := read_block layout StorageParam (_storage s) [] (u16 (ofs + 4))
                        (type_size (h_type phdr)) in
      Done (true, set_mem s (mem_write (mem s) ap bs))
  end.

Definition configured_in_storage (junk : list Z) (this : Z) (s : t) : outcome bool :=
  match find_var_info this with
  | None => Done false
  | Some f =>
    '(there, _) ← scan junk (_storage s) (found_header f);
    Done (there && ((found_type f =? AP_PARAM_VECTOR3F) || (vec_idx f =? 0)))
  end.

(** The loop of [load_all] from offset [ofs] on. *)
Fixpoint load_loop (fuel : nat) (phdr : list Z) (ofs : Z) (s : t) : outcome (bool * t) :=
  match fuel with
  | O => OutOfFuel
  | S fuel =>
    if ofs <? size then
      let phdr := read_into (_storage s) phdr ofs in
      let h := header_at phdr in
      if is_sentinal h then Done (true, s)
      else
        let s := match find_by_header h with
                 | None => s
                 | Some a =>
                   let '(_, bs) := read_block layout StorageParam (_storage s) []
                                     (u16 (ofs + 4)) (type_size (h_type h)) in
                   set_mem s (mem_write (mem s) a bs)
                 end in
        load_loop fuel phdr (u16 (ofs + (type_size (h_type h) + 4))) s
    else Done (false, s)
  end.

(** [load_all]; [defaults] is [reload_defaults_file]. *)
Definition load_all (junk : list Z) (defaults : t -> t) (s : t) : outcome (bool * t) :=
  load_loop scan_fuel junk 4 (defaults s).

(** [find_old_parameter]: the old value. *)
Definition find_old_parameter (junk : list Z) (type old_key old_group_element : Z) (s : t)
  : outcome (option (list Z)) :=
  let h := make_header type old_key old_group_element in
  '(there, ofs) ← scan junk (_storage s) h;
  if negb there then Done None
  else Done (Some (read_block layout StorageParam (_storage s) [] (u16 (ofs + 4))
                     (type_size (h_type h))).2).

(** [setup_object_defaults] for an object at [base]. *)
Fixpoint setup_object_defaults (base : Z) (rows : list GroupInfo) (s : t) : option t :=
  match rows with
  | [] => Some s
  | g :: rows =>
    if type g =? AP_PARAM_NONE then Some s
    else if type g <=? AP_PARAM_FLOAT then
      let a := base + offset g in
      m ← set_value (type g) a
            (get_default_value s a (match content g with DefValue x => x | _ => S754_nan end)) (mem s);
      setup_object_defaults base rows (set_mem s m)
    else setup_object_defaults base rows s
  end.
End storage.
End tables.
Arguments t : clear implicits.
End AP_Param.
