(* ===== verification/ParamLog.v ===== *)
(** The record of the parameters in storage as a list of entries: headers and
    their bytes, the search for a variable, and what appending and overwriting do
    to the list. *)
From S2P Require Import Prelude Float32 Storage StorageView Param.
Open Scope urus_scope.
Import AP_Param.
#[global] Arguments header_bytes : simpl never.
#[local] Abbreviation length := (@Datatypes.length _).

(** * Headers *)
Definition header_wf (h : Param_header) : Prop :=
  0 <= key_low h < 256 /\ 0 <= h_type h < 32 /\ 0 <= key_high h < 2 /\ 0 <= group_element h < 262144.

Lemma word_range h : header_wf h -> 0 <= word_of h < 4294967296.
Proof. intros (H1&H2&H3&H4). unfold word_of. lia. Qed.

Lemma header_of_word h : header_wf h -> header_of (word_of h) = h.
Proof.
  intros (H1&H2&H3&H4). destruct h as [kl ty kh ge]. simpl in *. unfold header_of, word_of.
  cbn [key_low h_type key_high group_element].
  change (2 ^ 8) with 256. change (2 ^ 5) with 32. change (2 ^ 13) with 8192.
  change (2 ^ 14) with 16384. change (2 ^ 18) with 262144. f_equal; zlia.
Qed.

Lemma header_bytes_length h : length (header_bytes h) = 4%nat.
Proof. apply le_bytes_length. Qed.

Lemma header_at_bytes h : header_wf h -> header_at (header_bytes h) = h.
Proof.
  intros Hh. unfold header_at, header_bytes. rewrite le_val_bytes by (apply word_range; done).
  by apply header_of_word.
Qed.

Lemma get_key_eq h : header_wf h -> get_key h = key_high h * 256 + key_low h.
Proof.
  intros (H1&_&H3&_). unfold get_key. apply Z.bits_inj'. intros n Hn.
  replace (key_high h * 256 + key_low h) with (key_low h + key_high h * 2 ^ 8) by lia.
  rewrite Z.lor_spec, Z.shiftl_spec by done. destruct (decide (n < 8)).
  - rewrite (Z.testbit_neg_r _ (n - 8)) by lia. simpl.
    rewrite <- (Z.mod_pow2_bits_low (key_low h + _) 8 n), Z.mod_add, Z.mod_small by lia. done.
  - rewrite (testbit_above (key_low h) 8 n), orb_false_r by lia.
    replace n with (n - 8 + 8) at 2 by lia. rewrite <- Z.div_pow2_bits, Z.div_add, Z.div_small by lia.
    done.
Qed.

Lemma make_header_wf type key ge : header_wf (make_header type key ge).
Proof.
  unfold make_header, set_key. split; [|split; [|split]]; simpl.
  - change 255 with (Z.ones 8). rewrite Z.land_ones by lia. by apply Z.mod_pos_bound.
  - by apply Z.mod_pos_bound.
  - by apply Z.mod_pos_bound.
  - by apply Z.mod_pos_bound.
Qed.

Lemma make_header_key type key ge : 0 <= key < 512 -> get_key (make_header type key ge) = key.
Proof.
  intros Hk. rewrite get_key_eq by apply make_header_wf. simpl.
  change 255 with (Z.ones 8). rewrite Z.land_ones, Z.shiftr_div_pow2 by lia.
  change (2 ^ 8) with 256. zlia.
Qed.

Lemma same_header_spec a b : header_wf a -> header_wf b -> same_header a b = true <-> a = b.
Proof.
  intros Ha Hb. unfold same_header. rewrite !andb_true_iff, !Z.eqb_eq.
  rewrite !get_key_eq by done. destruct Ha as (H1&_&H3&_), Hb as (H5&_&H7&_).
  destruct a as [kl ty kh ge], b as [kl' ty' kh' ge']. simpl in *. split.
  - intros [[-> Hk] ->]. f_equal; lia.
  - by intros [= -> -> -> ->].
Qed.

#[export] Instance Param_header_eq_dec : EqDecision Param_header.
Proof. solve_decision. Defined.

(** * Entries *)
Record entry := Entry { e_hdr : Param_header; e_data : list Z }.

Definition entry_ok (e : entry) : Prop :=
  header_wf (e_hdr e) /\ is_sentinal (e_hdr e) = false /\
  zlen (e_data e) = type_size (h_type (e_hdr e)).

Definition entry_bytes (e : entry) : list Z := header_bytes (e_hdr e) ++ e_data e.
#[global] Arguments entry_bytes : simpl never.
Definition log_bytes (es : list entry) : list Z := es ≫= entry_bytes.

(** The value recorded for a header. *)
Definition value (es : list entry) (h : Param_header) : option (list Z) :=
  e_data <$> find (fun e => bool_decide (e_hdr e = h)) es.

(** Where the header is, in bytes from the start of the log. *)
Fixpoint position (es : list entry) (h : Param_header) : option Z :=
  match es with
  | [] => None
  | e :: es => if decide (e_hdr e = h) then Some 0
               else (fun p => zlen (entry_bytes e) + p) <$> position es h
  end.

Lemma type_size_range ty : 0 <= type_size ty <= 12.
Proof.
  unfold type_size. repeat (match goal with |- context [if ?c then _ else _] => destruct c end); lia.
Qed.

Lemma entry_bytes_length e : entry_ok e ->
  zlen (entry_bytes e) = type_size (h_type (e_hdr e)) + 4.
Proof. intros (_&_&He). unfold entry_bytes. rewrite length_app, header_bytes_length. lia. Qed.

Lemma entries_cons e es : log_bytes (e :: es) = entry_bytes e ++ log_bytes es.
Proof. done. Qed.

Lemma entries_app es1 es2 : log_bytes (es1 ++ es2) = log_bytes es1 ++ log_bytes es2.
Proof. apply bind_app. Qed.

Lemma log_length_bound es : Forall entry_ok es -> 4 * zlen es <= zlen (log_bytes es).
Proof.
  induction 1 as [|e es He _ IH]; [done|]. rewrite entries_cons, length_app.
  pose proof (entry_bytes_length e He). pose proof (type_size_range (h_type (e_hdr e))). simpl. lia.
Qed.

Lemma position_value es h : position es h = None <-> value es h = None.
Proof.
  induction es as [|e es IH]; [done|]. unfold value in *. simpl.
  destruct (decide (e_hdr e = h)).
  - rewrite bool_decide_true by done. done.
  - rewrite bool_decide_false by done. rewrite <- IH. by destruct (position es h).
Qed.

(** The entry of a header, in its place. *)
Lemma position_split es h p : position es h = Some p -> exists es1 d es2,
  es = es1 ++ Entry h d :: es2 /\ p = zlen (log_bytes es1) /\ position es1 h = None.
Proof.
  revert p. induction es as [|e es IH]; intros p; cbn [position]; [done|].
  destruct (decide (e_hdr e = h)) as [<-|Hne].
  - intros [= <-]. exists [], (e_data e), es. by destruct e.
  - destruct (position es h) as [q|]; [|done]. intros [= <-].
    destruct (IH q eq_refl) as (es1&d&es2&->&->&Hn). exists (e :: es1), d, es2.
    split; [done|]. rewrite entries_cons, length_app.
    split; [by rewrite Nat2Z.inj_add|]. cbn [position].
    rewrite decide_False by done. by rewrite Hn.
Qed.

Lemma value_app es1 es2 h : value (es1 ++ es2) h =
  match value es1 h with Some d => Some d | None => value es2 h end.
Proof.
  induction es1 as [|e es1 IH]; [done|]. unfold value in *. simpl.
  by destruct (bool_decide (e_hdr e = h)).
Qed.

Lemma value_one h d h' : value [Entry h d] h' = if decide (h = h') then Some d else None.
Proof. unfold value. simpl. by case_bool_decide; case_decide. Qed.

(** * The log in the bytes of the parameter area *)
Definition sentinal : Param_header := make_header _sentinal_type _sentinal_key _sentinal_group.

(** [v] starts with the file header and the entries [es], up to the header [h],
    a sentinal. *)
Definition logged_at (v : list Z) (es : list entry) (h : Param_header) : Prop :=
  Forall entry_ok es /\ header_wf h /\ is_sentinal h = true /\
  exists pre rest, length pre = 4%nat /\ v = pre ++ log_bytes es ++ header_bytes h ++ rest.
Definition logged (v : list Z) (es : list entry) : Prop := exists h, logged_at v es h.

(** The offset of the sentinal. *)
Definition log_end (es : list entry) : Z := 4 + zlen (log_bytes es).

Lemma logged_length v es h : logged_at v es h -> log_end es + 4 <= zlen v.
Proof.
  intros (_&_&_&pre&rest&Hp&->). unfold log_end. rewrite !length_app, header_bytes_length. lia.
Qed.

Lemma sentinal_wf : header_wf sentinal.
Proof. apply make_header_wf. Qed.
Lemma sentinal_is : is_sentinal sentinal = true.
Proof. reflexivity. Qed.

(** Writing inside a list of known parts. *)
Lemma inserts_middle {A} (l1 l2 l3 bs : list A) k : length l1 = k -> length l2 = length bs ->
  list_inserts k bs (l1 ++ l2 ++ l3) = l1 ++ bs ++ l3.
Proof.
  intros <- Hb. rewrite inserts_after_app by done. f_equal.
  by apply list_inserts_0_r.
Qed.

(** A new entry: its header replaces the sentinal, and a new one follows it. *)
Lemma logged_append v es h0 h d : logged_at v es h0 -> entry_ok (Entry h d) ->
  log_end es + 4 + zlen d + 4 <= zlen v ->
  let k := Z.to_nat (log_end es) in
  logged_at (list_inserts k (header_bytes h)
    (list_inserts (k + 4) d (list_inserts (k + 4 + length d) (header_bytes sentinal) v)))
    (es ++ [Entry h d]) sentinal.
Proof.
  intros (Hes&_&_&pre&rest&Hp&->) He Hl k. rewrite !length_app, header_bytes_length in Hl.
  unfold log_end in *.
  assert (Hr : (length d + 4 <= length rest)%nat) by lia. clear Hl.
  rewrite <- (take_drop (length d + 4) rest). rewrite <- (take_drop (length d) (take (length d + 4) rest)).
  set (r1 := take (length d) _). set (r2 := drop (length d) (take _ rest)). set (r3 := drop _ rest).
  assert (H1 : length r1 = length d) by (unfold r1; rewrite !length_take; lia).
  assert (H2 : length r2 = 4%nat) by (unfold r2; rewrite length_drop, length_take; lia).
  split; [apply Forall_app; split; [done|by apply Forall_singleton]|]. split; [apply sentinal_wf|]. split; [done|].
  exists pre, r3. split; [done|].
  assert (Hk : k = length (pre ++ log_bytes es)) by (unfold k; rewrite length_app; lia).
  clearbody k r1 r2 r3.
  replace (pre ++ log_bytes es ++ header_bytes h0 ++ (r1 ++ r2) ++ r3)
    with ((pre ++ log_bytes es ++ header_bytes h0 ++ r1) ++ r2 ++ r3) by by rewrite <- !app_assoc.
  rewrite inserts_middle; [|rewrite !length_app, header_bytes_length in *; lia|rewrite header_bytes_length; lia].
  replace ((pre ++ log_bytes es ++ header_bytes h0 ++ r1) ++ header_bytes sentinal ++ r3)
    with ((pre ++ log_bytes es ++ header_bytes h0) ++ r1 ++ header_bytes sentinal ++ r3)
    by by rewrite <- !app_assoc.
  rewrite inserts_middle; [|rewrite !length_app, header_bytes_length in *; lia|lia].
  replace ((pre ++ log_bytes es ++ header_bytes h0) ++ d ++ header_bytes sentinal ++ r3)
    with ((pre ++ log_bytes es) ++ header_bytes h0 ++ d ++ header_bytes sentinal ++ r3)
    by by rewrite <- !app_assoc.
  rewrite inserts_middle by (rewrite ?header_bytes_length; done || lia).
  rewrite entries_app, (entries_cons (Entry _ _) []). unfold entry_bytes. cbn [e_hdr e_data].
  change (log_bytes []) with (@nil Z). by rewrite app_nil_r, <- !app_assoc.
Qed.

(** New data for an entry. *)
Lemma logged_update v es1 h d0 es2 h0 d : logged_at v (es1 ++ Entry h d0 :: es2) h0 ->
  length d = length d0 ->
  logged_at (list_inserts (Z.to_nat (log_end es1 + 4)) d v) (es1 ++ Entry h d :: es2) h0.
Proof.
  intros (Hes&Hw&Hs&pre&rest&Hp&->) Hd. rewrite Forall_app, Forall_cons in Hes.
  destruct Hes as (Hes1&He&Hes2). split.
  { apply Forall_app. split; [done|]. constructor; [|done]. destruct He as (?&?&He). split; [done|].
    split; [done|]. simpl in *. lia. }
  split; [done|]. split; [done|]. exists pre, rest. split; [done|].
  rewrite !entries_app, !entries_cons. unfold entry_bytes. cbn [e_hdr e_data].
  replace (pre ++ (log_bytes es1 ++ (header_bytes h ++ d0) ++ log_bytes es2) ++ header_bytes h0 ++ rest)
    with ((pre ++ log_bytes es1 ++ header_bytes h) ++ d0 ++ log_bytes es2 ++ header_bytes h0 ++ rest)
    by by rewrite <- !app_assoc.
  unfold log_end. rewrite inserts_middle by (rewrite ?length_app, ?header_bytes_length; lia).
  by rewrite <- !app_assoc.
Qed.
