(* ===== verification/ParamTables.v ===== *)
(** The tables of the parameters: what [check_var_info] checks is that the
    header a variable is stored with leads back to the variable. *)
From S2P Require Import Prelude Float32 Storage Param ParamLog.
From Stdlib Require Import String.
Open Scope urus_scope.
Import AP_Param.
#[local] Abbreviation length := (@Datatypes.length _).

(** * Ids *)

(** The 6 bits a row adds to the id at [shift], and the bit of [used_mask] it
    takes. *)
Definition digit (g : GroupInfo) (shift : Z) : Z :=
  if (idx g =? 0) && negb (shift =? 0) && negb (nz (flags g &&& AP_PARAM_NO_SHIFT)) then 63 else idx g.
Definition mask_bit (g : GroupInfo) (shift : Z) : Z :=
  if negb (shift =? 0) && (idx g =? 0) then 63 else idx g.

Lemma digit_range g shift : 0 <= idx g < 64 -> 0 <= digit g shift < 64.
Proof. intros. unfold digit. destruct (_ && _ && _); lia. Qed.

Lemma mask_bit_range g shift : 0 <= idx g < 64 -> 0 <= mask_bit g shift < 64.
Proof. intros. unfold mask_bit. destruct (_ && _); lia. Qed.

(** Two rows with the same bits have the same bit of the mask. *)
Lemma digit_mask g g' shift : 0 <= idx g < 64 -> 0 <= idx g' < 64 ->
  digit g shift = digit g' shift -> mask_bit g shift = mask_bit g' shift.
Proof.
  intros Hg Hg'. unfold digit, mask_bit.
  destruct (Z.eqb_spec shift 0), (Z.eqb_spec (idx g) 0), (Z.eqb_spec (idx g') 0),
    (nz (flags g &&& AP_PARAM_NO_SHIFT)), (nz (flags g' &&& AP_PARAM_NO_SHIFT)); simpl; lia.
Qed.

(** The shifts of the three levels. *)
Definition shift_of (shift : Z) (levels : nat) : Prop :=
  shift + 6 * Z.of_nat levels = 18 /\ 0 <= shift.

Lemma group_id_eq g gb shift levels : shift_of shift (S levels) -> 0 <= idx g < 64 ->
  0 <= gb < 2 ^ shift ->
  group_id g gb shift = gb + digit g shift * 2 ^ shift /\
  0 <= group_id g gb shift < 2 ^ (shift + 6).
Proof.
  intros [Hs H0] Hi Hg. pose proof (digit_range g shift Hi) as Hd.
  assert (E : group_id g gb shift = u32 (gb + digit g shift * 2 ^ shift)).
  { unfold group_id, digit. destruct (_ && _ && _); by rewrite Z.shiftl_mul_pow2. }
  assert (2 ^ shift <= 2 ^ 12) by (apply Z.pow_le_mono_r; lia).
  rewrite Z.pow_add_r by lia. change (2 ^ 6) with 64. change (2 ^ 12) with 4096 in *.
  rewrite E, u32_small by nia. nia.
Qed.

(** What the parameters rely on of the widths of the tables: [idx] is a byte. *)
Section tables.
Context (table_at : Z -> option (list GroupInfo)).

Fixpoint rows_wf (levels : nat) (rows : list GroupInfo) : Prop :=
  match levels with
  | O => True
  | S levels =>
    Forall (fun g => 0 <= idx g < 256 /\
      forall gi, get_group_info table_at (content g) (flags g) = Some gi -> rows_wf levels gi) rows
  end.

Context (deref : Z -> Z) (v : Info) (base : Z) (Hbase : get_base deref v = Some base) (this : Z).

(** The header leads back to the variable. *)
Definition leads_back (r : found) (search : Param_header -> option Z) : Prop :=
  forall phdr, group_element phdr = element r -> h_type phdr = found_type r ->
    search phdr = Some (this - vec_idx r * 4).

(** What is found below a group of id [gb] at [shift]. *)
Definition found_ok (gb shift : Z) (r : found) : Prop :=
  info r = v /\ 0 <= element r < 2 ^ 18 /\ element r mod 2 ^ shift = gb /\
  0 < type_size (found_type r).

(** The rows of a group, for what is known of the groups below. *)
Section rows.
Context (levels : nat) (shift : Z) (Hshift : shift_of shift (S levels)).
Context (check : list GroupInfo -> Z -> Z -> option Z).
Context (var : list GroupInfo -> Z -> Z -> list GroupInfo -> option found).
Context (hdr : Param_header -> list GroupInfo -> Z -> Z -> option Z).
Context (Hvar : forall gi total plen total' gb go nest r, shift + 6 < 18 ->
  0 <= gb < 2 ^ (shift + 6) -> rows_wf levels gi -> check gi total plen = Some total' ->
  var gi gb go nest = Some r ->
  found_ok gb (shift + 6) r /\ leads_back r (fun phdr => hdr phdr gi gb go)).
Context (Hhdr : forall gi total plen total' gb go phdr a, shift + 6 < 18 ->
  0 <= gb < 2 ^ (shift + 6) -> rows_wf levels gi -> check gi total plen = Some total' ->
  hdr phdr gi gb go = Some a ->
  group_element phdr mod 2 ^ (shift + 6) = gb /\ 0 < type_size (h_type phdr)).

(** A row of the id [elt] that is not in the mask. *)
Definition row_of (elt gb used : Z) : Prop := exists g, 0 <= idx g < 64 /\
  elt mod 2 ^ (shift + 6) = gb + digit g shift * 2 ^ shift /\
  Z.testbit used (mask_bit g shift) = false.

Lemma row_of_base elt gb used : 0 <= gb < 2 ^ shift -> row_of elt gb used -> elt mod 2 ^ shift = gb.
Proof.
  intros Hg (g&_&He&_). destruct Hshift as [_ H0].
  replace (elt mod 2 ^ shift) with ((elt mod 2 ^ (shift + 6)) mod 2 ^ shift).
  - rewrite He, Z.mod_add by lia. by apply Z.mod_small.
  - apply Z.bits_inj'. intros n Hn. rewrite !Z.testbit_mod_pow2 by lia.
    destruct (Z.ltb_spec n shift); [|done]. by rewrite (proj2 (Z.ltb_lt _ _)) by lia.
Qed.

(** What one row checked says. *)
Lemma check_row g rows used total plen total' : type g <> AP_PARAM_NONE ->
  0 <= idx g -> check_group_rows table_at check (g :: rows) used total shift plen = Some total' ->
  idx g < 64 /\ Z.testbit used (mask_bit g shift) = false /\
  (exists total, check_group_rows table_at check rows (used ||| (1 << mask_bit g shift)) total shift plen
     = Some total') /\
  (if type g =? AP_PARAM_GROUP then shift + 6 < 18 /\
     forall gi, get_group_info table_at (content g) (flags g) = Some gi ->
       exists total plen total', check gi total plen = Some total'
   else 0 < type_size (type g)).
Proof.
  intros Hty Hi0. cbn [check_group_rows]. rewrite (proj2 (Z.eqb_neq _ _)) by done.
  destruct (idx g >=? _) eqn:Hi; [done|]. rewrite Z.geb_leb in Hi. apply Z.leb_gt in Hi.
  change (1 << _group_level_shift) with 64 in Hi. fold (mask_bit g shift).
  destruct (nz (used &&& _)) eqn:Hm; [done|]. intros Hc. split; [done|].
  pose proof (mask_bit_range g shift ltac:(lia)) as Hr. split.
  { apply negb_false_iff, Z.eqb_eq in Hm. apply (f_equal (fun x => Z.testbit x (mask_bit g shift))) in Hm.
    rewrite Z.land_spec, Z.shiftl_spec, Z.sub_diag, Z.bits_0 in Hm by lia.
    by rewrite andb_true_r in Hm. }
  destruct (type g =? AP_PARAM_GROUP).
  - destruct (_ >=? _group_bits) eqn:Hb; [done|]. rewrite Z.geb_leb in Hb. apply Z.leb_gt in Hb.
    unfold _group_level_shift, _group_bits in Hb.
    destruct (get_group_info _ _ _) as [gi|]; [|split; [by eexists|split; [done|done]]].
    destruct (check gi _ _) as [t1|] eqn:Hck; [|done]. split; [by eexists|]. split; [done|].
    intros ? [= <-]. by eexists _, _, _.
  - destruct (Z.eqb_spec (type_size (type g)) 0); [done|]. destruct (_ >? 16); [done|].
    split; [by eexists|]. unfold type_size in *.
    repeat match goal with H : context [if ?c then _ else _] |- _ => destruct c end; lia.
Qed.

Lemma testbit_used used b b' : 0 <= b -> 0 <= b' ->
  Z.testbit (used ||| (1 << b)) b' = Z.testbit used b' || (b =? b').
Proof.
  intros Hb Hb'. rewrite Z.lor_spec, Z.shiftl_mul_pow2, Z.mul_1_l by lia. f_equal.
  by apply Z.pow2_bits_eqb.
Qed.

Lemma row_of_weaken elt gb used g : 0 <= idx g < 64 ->
  row_of elt gb (used ||| (1 << mask_bit g shift)) -> row_of elt gb used.
Proof.
  intros Hi (g'&Hi'&He&Hm). exists g'. split; [done|]. split; [done|].
  rewrite testbit_used in Hm by (by apply mask_bit_range). by apply orb_false_iff in Hm as [Hm _].
Qed.

(** An id of a later row is not the one of the row. *)
Lemma row_of_later elt gb used g : 0 <= idx g < 64 ->
  row_of elt gb (used ||| (1 << mask_bit g shift)) ->
  elt mod 2 ^ (shift + 6) <> gb + digit g shift * 2 ^ shift.
Proof.
  intros Hi (g'&Hi'&He&Hm) Heq. rewrite testbit_used in Hm by (by apply mask_bit_range).
  apply orb_false_iff in Hm as [_ Hm]. apply Z.eqb_neq in Hm. apply Hm.
  apply digit_mask; [done|done|]. assert (0 < 2 ^ shift) by (apply Z.pow_pos_nonneg; destruct Hshift; lia).
  nia.
Qed.

Lemma row_of_here elt gb used g : 0 <= idx g < 64 -> 0 <= gb < 2 ^ shift ->
  Z.testbit used (mask_bit g shift) = false ->
  elt mod 2 ^ (shift + 6) = group_id g gb shift -> row_of elt gb used.
Proof.
  intros Hi Hg Hm He. exists g. split; [done|]. split; [|done]. rewrite He.
  by apply (group_id_eq g gb shift levels).
Qed.

Abbreviation wf_rows := (Forall (fun g => 0 <= idx g < 256 /\
  forall gi, get_group_info table_at (content g) (flags g) = Some gi -> rows_wf levels gi)).
Abbreviation hdr_rows phdr rows gb go :=
  (find_by_header_rows deref table_at (hdr phdr) phdr v rows gb shift go).
Abbreviation var_rows rows gb go nest :=
  (find_var_rows deref table_at var this v base rows gb shift go nest).

(** The search by header goes by the id. *)
Lemma hdr_rows_id rows gb go phdr a : 0 <= gb < 2 ^ shift -> wf_rows rows ->
  forall used total plen total',
  check_group_rows table_at check rows used total shift plen = Some total' ->
  hdr_rows phdr rows gb go = Some a ->
  row_of (group_element phdr) gb used /\ 0 < type_size (h_type phdr).
Proof.
  intros Hg. induction 1 as [|g rows [Hi Hwf] Hrows IH]; intros used total plen total' Hc; [done|].
  cbn [find_by_header_rows]. destruct (Z.eqb_spec (type g) AP_PARAM_NONE) as [|Hty]; [done|].
  destruct (check_row g rows used total plen total' Hty (proj1 Hi) Hc) as (Hi'&Hm&(t1&Hc1)&Hrow).
  assert (Hnext : hdr_rows phdr rows gb go = Some a ->
    row_of (group_element phdr) gb used /\ 0 < type_size (h_type phdr)).
  { intros Hn. destruct (IH _ t1 plen total' Hc1 Hn) as [H1 H2]. split; [|done].
    apply (row_of_weaken _ _ _ g); [lia|done]. }
  destruct (group_id_eq g gb shift levels Hshift ltac:(lia) Hg) as [Hid Hidr].
  destruct (type g =? AP_PARAM_GROUP).
  - destruct Hrow as [Hs Hck].
    destruct (_ >=? _) eqn:Hlev; [done|].
    destruct (get_group_info _ _ _) as [gi|]; [|exact Hnext].
    destruct (adjust_group_offset _ _ _ _) as [no|]; [|exact Hnext].
    destruct (hdr phdr gi _ no) as [a'|] eqn:Hh; [|exact Hnext].
    intros _. destruct (Hck gi eq_refl) as (t2&p2&t3&Hcheck).
    destruct (Hhdr gi t2 p2 t3 _ no phdr a' Hs Hidr (Hwf gi eq_refl) Hcheck Hh) as [H1 H2].
    split; [|done]. by apply (row_of_here _ _ _ g); [lia|..].
  - destruct (_ && _) eqn:Hleaf; [|exact Hnext]. intros _.
    apply andb_true_iff in Hleaf as [Hleaf Ht]. apply Z.eqb_eq in Hleaf, Ht. split; [|by rewrite <- Ht].
    apply (row_of_here _ _ _ g); [lia|done|done|]. rewrite <- Hleaf. by apply Z.mod_small.
Qed.

Lemma leads_next g rows gb go r : 0 <= idx g < 64 -> 0 <= gb < 2 ^ shift ->
  type g <> AP_PARAM_NONE ->
  (forall gi, get_group_info table_at (content g) (flags g) = Some gi -> rows_wf levels gi) ->
  (if type g =? AP_PARAM_GROUP then shift + 6 < 18 /\
     forall gi, get_group_info table_at (content g) (flags g) = Some gi ->
       exists total plen total', check gi total plen = Some total'
   else 0 < type_size (type g)) ->
  element r mod 2 ^ (shift + 6) <> gb + digit g shift * 2 ^ shift ->
  leads_back r (fun phdr => hdr_rows phdr rows gb go) ->
  leads_back r (fun phdr => hdr_rows phdr (g :: rows) gb go).
Proof.
  intros Hi Hg Hty Hwf Hrow Hne Hback phdr He Ht. specialize (Hback phdr He Ht). cbn beta in Hback.
  cbn [find_by_header_rows]. rewrite (proj2 (Z.eqb_neq _ _)) by done.
  destruct (group_id_eq g gb shift levels Hshift Hi Hg) as [Hid Hidr].
  destruct (type g =? AP_PARAM_GROUP).
  - destruct Hrow as [Hs Hck]. destruct (_ >=? _) eqn:Hlev.
    { rewrite Z.geb_leb in Hlev. apply Z.leb_le in Hlev. unfold _group_level_shift, _group_bits in Hlev. lia. }
    destruct (get_group_info _ _ _) as [gi|]; [|exact Hback].
    destruct (adjust_group_offset _ _ _ _) as [no|]; [|exact Hback].
    destruct (hdr phdr gi _ no) as [a'|] eqn:Hh; [|exact Hback].
    destruct (Hck gi eq_refl) as (t2&p2&t3&Hcheck). exfalso. apply Hne. rewrite <- He, <- Hid.
    eapply proj1, Hhdr; [done|exact Hidr|by apply Hwf|exact Hcheck|exact Hh].
  - destruct (_ && _) eqn:Hleaf; [|exact Hback].
    apply andb_true_iff in Hleaf as [Hleaf _]. apply Z.eqb_eq in Hleaf. exfalso. apply Hne.
    rewrite <- He, <- Hleaf, <- Hid. by apply Z.mod_small.
Qed.

(** A row that is the variable, or one element of the vector. *)
Lemma leaf_found g rows gb go used nest k : 0 <= idx g < 64 -> 0 <= gb < 2 ^ shift ->
  Z.testbit used (mask_bit g shift) = false ->
  type g <> AP_PARAM_NONE -> (type g =? AP_PARAM_GROUP) = false -> 0 < type_size (type g) ->
  this - k * 4 = base + (offset g + go) ->
  let r := Found v (group_id g gb shift) (Some g) (rev nest) k in
  row_of (element r) gb used /\ found_ok gb shift r /\
  leads_back r (fun phdr => hdr_rows phdr (g :: rows) gb go).
Proof.
  intros Hi Hg Hm Hty Hleaf Hsz Hk r.
  destruct (group_id_eq g gb shift levels Hshift Hi Hg) as [Hid Hidr].
  assert (Hrow : row_of (element r) gb used).
  { apply (row_of_here _ _ _ g); [done|done|done|]. by apply Z.mod_small. }
  split; [done|]. split.
  - split; [done|]. split; [|split; [by apply (row_of_base _ _ used)|done]].
    destruct Hshift as [Hs H0]. simpl. split; [lia|].
    apply Z.lt_le_trans with (2 ^ (shift + 6)); [lia|]. apply Z.pow_le_mono_r; lia.
  - intros phdr He Ht. cbn [find_by_header_rows]. rewrite (proj2 (Z.eqb_neq _ _)), Hleaf, He, Ht by done.
    unfold r, found_type. cbn [element ginfo vec_idx]. rewrite !Z.eqb_refl, Hbase. simpl. f_equal. lia.
Qed.

(** A variable found by its address is found by its header. *)
Lemma var_rows_back rows gb go nest r : 0 <= gb < 2 ^ shift -> wf_rows rows ->
  forall used total plen total',
  check_group_rows table_at check rows used total shift plen = Some total' ->
  var_rows rows gb go nest = Some r ->
  row_of (element r) gb used /\ found_ok gb shift r /\
  leads_back r (fun phdr => hdr_rows phdr rows gb go).
Proof.
  intros Hg. induction 1 as [|g rows [Hi Hwf] Hrows IH]; intros used total plen total' Hc; [done|].
  cbn [find_var_rows]. destruct (Z.eqb_spec (type g) AP_PARAM_NONE) as [|Hty]; [done|].
  destruct (check_row g rows used total plen total' Hty (proj1 Hi) Hc) as (Hi'&Hm&(t1&Hc1)&Hrow).
  assert (Hi64 : 0 <= idx g < 64) by lia.
  assert (Hnext : var_rows rows gb go nest = Some r -> row_of (element r) gb used /\
    found_ok gb shift r /\ leads_back r (fun phdr => hdr_rows phdr (g :: rows) gb go)).
  { intros Hn. destruct (IH _ t1 plen total' Hc1 Hn) as (H1&H2&H3).
    split; [by apply (row_of_weaken _ _ _ g)|]. split; [done|].
    apply leads_next; try done. by apply (row_of_later _ _ used). }
  destruct (group_id_eq g gb shift levels Hshift Hi64 Hg) as [Hid Hidr].
  destruct (type g =? AP_PARAM_GROUP) eqn:Hgr.
  - destruct Hrow as [Hs Hck].
    destruct (get_group_info _ _ _) as [gi|] eqn:Hgi; [|exact Hnext].
    destruct (_ >=? _group_bits) eqn:Hlev; [done|].
    destruct (adjust_group_offset _ _ _ _) as [no|] eqn:Hadj; [|exact Hnext].
    destruct (zlen nest >=? 2); [done|].
    destruct (var gi _ no _) as [r'|] eqn:Hv; [|exact Hnext]. intros [= ->].
    destruct (Hck gi eq_refl) as (t2&p2&t3&Hcheck).
    destruct (Hvar gi t2 p2 t3 _ no (g :: nest) r Hs Hidr (Hwf gi eq_refl) Hcheck Hv)
      as ((Hv1&Hv2&Hv3&Hv4)&Hback).
    assert (Hrw : row_of (element r) gb used) by by apply (row_of_here _ _ _ g).
    split; [done|]. split; [split; [done|split; [done|split; [by apply (row_of_base _ _ used)|done]]]|].
    intros phdr He Ht. cbn [find_by_header_rows]. rewrite (proj2 (Z.eqb_neq _ _)), Hgr, Hlev, Hgi, Hadj by done.
    by rewrite (Hback phdr He Ht).
  - destruct (Z.eqb_spec this (base + (offset g + go))) as [E|_].
    + intros [= <-]. apply leaf_found; try done. lia.
    + destruct (_ && _) eqn:Hvec; [|exact Hnext]. intros [= <-].
      apply andb_true_iff in Hvec as [_ Hvec]. apply orb_true_iff in Hvec.
      rewrite !Z.eqb_eq in Hvec. apply leaf_found; try done. zlia.
Qed.

End rows.

(** * Groups *)
Lemma group_back levels : forall gi shift gb go nest total plen total',
  shift_of shift levels -> 0 <= gb < 2 ^ shift -> rows_wf levels gi ->
  check_group_info table_at levels gi total shift plen = Some total' ->
  (forall r, find_var_info_group deref table_at levels this v gi gb shift go nest = Some r ->
     found_ok gb shift r /\
     leads_back r (fun phdr => find_by_header_group deref table_at levels phdr v gi gb shift go)) /\
  (forall phdr a, find_by_header_group deref table_at levels phdr v gi gb shift go = Some a ->
     group_element phdr mod 2 ^ shift = gb /\ 0 < type_size (h_type phdr)).
Proof.
  induction levels as [|levels IH]; intros gi shift gb go nest total plen total' Hs Hg Hwf Hc; [done|].
  cbn [check_group_info] in Hc. cbn [rows_wf] in Hwf. pose proof Hs as [Hsum H0].
  assert (Hu : u8 (shift + _group_level_shift) = shift + 6) by (apply u8_small; unfold _group_level_shift; lia).
  assert (Hs' : shift_of (shift + 6) levels) by (split; lia).
  rewrite Hu in Hc. cbn [find_var_info_group find_by_header_group]. rewrite Hbase, Hu. split.
  - intros r Hr.
    apply (var_rows_back levels shift Hs
      (fun gi total plen => check_group_info table_at levels gi total (shift + 6) plen)
      (fun gi gb go nest => find_var_info_group deref table_at levels this v gi gb (shift + 6) go nest)
      (fun phdr gi gb go => find_by_header_group deref table_at levels phdr v gi gb (shift + 6) go))
      with (gb := gb) (used := 0) (total := total) (plen := plen) (total' := total') in Hr; try done.
    + destruct Hr as (_&H1&H2). split; [exact H1|exact H2].
    + intros gi' t2 p2 t3 gb' go' nest' r' _ Hg' Hwf' Hc'.
      exact (proj1 (IH gi' (shift + 6) gb' go' nest' t2 p2 t3 Hs' Hg' Hwf' Hc') r').
    + intros gi' t2 p2 t3 gb' go' phdr a _ Hg' Hwf' Hc'.
      exact (proj2 (IH gi' (shift + 6) gb' go' [] t2 p2 t3 Hs' Hg' Hwf' Hc') phdr a).
  - intros phdr a Ha.
    enough (Hrow : row_of shift (group_element phdr) gb 0 /\ 0 < type_size (h_type phdr)).
    { destruct Hrow as [H1 H2]. split; [by apply (row_of_base levels shift Hs _ gb 0)|done]. }
    apply (hdr_rows_id levels shift Hs
      (fun gi total plen => check_group_info table_at levels gi total (shift + 6) plen)
      (fun phdr gi gb go => find_by_header_group deref table_at levels phdr v gi gb (shift + 6) go))
      with (rows := gi) (go := go) (a := a) (total := total) (plen := plen) (total' := total'); try done.
    intros gi' t2 p2 t3 gb' go' phdr' a' _ Hg' Hwf' Hc'.
    exact (proj2 (IH gi' (shift + 6) gb' go' [] t2 p2 t3 Hs' Hg' Hwf' Hc') phdr' a').
Qed.

End tables.

(** * The table of the vehicle *)

(** The widths: keys of 9 bits, row types and [idx] bytes. *)
Definition info_wf table_at (i : Info) : Prop := 0 <= key i < 512 /\
  forall gi, get_group_info table_at (i_content i) (i_flags i) = Some gi -> rows_wf table_at 3 gi.

Section vehicle.
Context (deref : Z -> Z) (table_at : Z -> option (list GroupInfo)).

(** What a row checked says: it is a group that has no table, or its key is not
    in the rows after it. *)
Lemma check_info v rows first total : check_var_rows table_at (v :: rows) first total = true ->
  (exists total, check_var_rows table_at rows false total = true) /\
  (((i_type v =? AP_PARAM_GROUP) = true /\ get_group_info table_at (i_content v) (i_flags v) = None) \/
   (duplicate_key rows (key v) = false /\
    if i_type v =? AP_PARAM_GROUP then
      exists gi total plen total', get_group_info table_at (i_content v) (i_flags v) = Some gi /\
        check_group_info table_at 3 gi total 0 plen = Some total'
    else 0 < type_size (i_type v))).
Proof.
  cbn [check_var_rows].
  assert (Hnext : forall total, (if duplicate_key rows (key v) then false
      else if negb (i_type v =? AP_PARAM_GROUP) && nz (i_flags v &&& AP_PARAM_FLAG_POINTER) then false
      else check_var_rows table_at rows false total) = true ->
    duplicate_key rows (key v) = false /\ check_var_rows table_at rows false total = true).
  { intros t Ht. destruct (duplicate_key _ _); [done|]. destruct (_ && _); done. }
  destruct (i_type v =? AP_PARAM_GROUP) eqn:Hg.
  - destruct first; [done|]. destruct (get_group_info _ _ _) as [gi|] eqn:Hgi; [|by eauto].
    destruct (check_group_info _ 3 gi _ 0 _) as [t|] eqn:Hc; [|done].
    intros [Hd Ht]%Hnext. split; [by eauto|]. right. split; [done|]. by eauto 8.
  - destruct (Z.eqb_spec (type_size (i_type v)) 0); [done|].
    intros [Hd Ht]%Hnext. split; [by eauto|]. right. split; [done|]. unfold type_size in *.
    repeat match goal with H : context [if ?c then _ else _] |- _ => destruct c end; lia.
Qed.

(** The header of what was found, in the rows. *)
Definition row_found (rows : list Info) (this : Z) (r : found) : Prop :=
  duplicate_key rows (key (info r)) = true /\ 0 <= key (info r) < 512 /\
  0 < type_size (found_type r) /\ 0 <= element r < 2 ^ 18 /\
  forall phdr, get_key phdr = key (info r) -> group_element phdr = element r ->
    h_type phdr = found_type r ->
    find_by_header_loop deref table_at rows phdr = Some (this - vec_idx r * 4).

Lemma duplicate_cons v rows k : duplicate_key (v :: rows) k = (key v =? k) || duplicate_key rows k.
Proof. done. Qed.

(** The variables of one row. *)
Lemma info_found v rows this r base : info_wf table_at v -> get_base deref v = Some base ->
  (if i_type v =? AP_PARAM_GROUP then
     exists gi total plen total', get_group_info table_at (i_content v) (i_flags v) = Some gi /\
       check_group_info table_at 3 gi total 0 plen = Some total' /\
       find_var_info_group deref table_at 3 this v gi 0 0 0 [] = Some r
   else 0 < type_size (i_type v) /\ exists k, r = Found v 0 None [] k /\ this - k * 4 = base) ->
  row_found (v :: rows) this r.
Proof.
  intros [Hk Hwf] Hb. unfold row_found. rewrite duplicate_cons. cbn [find_by_header_loop].
  destruct (i_type v =? AP_PARAM_GROUP) eqn:Hg.
  - intros (gi&total&plen&total'&Hgi&Hc&Hr).
    destruct (group_back table_at deref v base Hb this 3 gi 0 0 0 [] total plen total')
      as [Hf _]; [done|done|by apply Hwf|done|].
    destruct (Hf r Hr) as ((Hi&He&_&Hs)&Hback). rewrite Hi, Z.eqb_refl.
    split; [done|]. split; [done|]. split; [done|]. split; [done|].
    intros phdr -> Hel Ht. rewrite Z.eqb_refl, Hgi. simpl negb. cbn iota. by apply Hback.
  - intros (Hs&k&->&Hthis). simpl info. rewrite Z.eqb_refl. split; [done|]. split; [done|].
    split; [done|]. split; [done|]. intros phdr -> _ Ht. rewrite Z.eqb_refl, Ht. simpl negb. cbn iota.
    unfold found_type. simpl. rewrite Z.eqb_refl, Hb. f_equal. lia.
Qed.

(** What was found in the rows after is found past [v]. *)
Lemma info_skip v rows this r : row_found rows this r ->
  ((i_type v =? AP_PARAM_GROUP) = true /\ get_group_info table_at (i_content v) (i_flags v) = None) \/
  duplicate_key rows (key v) = false -> row_found (v :: rows) this r.
Proof.
  intros (Hd&Hk&Hs&He&Hf) Hv. split; [by rewrite duplicate_cons, Hd, orb_true_r|].
  split; [done|]. split; [done|]. split; [done|]. intros phdr Hkey Hel Ht.
  cbn [find_by_header_loop]. destruct (Z.eqb_spec (key v) (get_key phdr)) as [E|_]; [|by apply Hf].
  destruct Hv as [[-> ->]|Hv]; [by apply Hf|]. rewrite E, Hkey in Hv. congruence.
Qed.

Lemma var_loop_back rows this r : Forall (info_wf table_at) rows -> forall first total,
  check_var_rows table_at rows first total = true ->
  find_var_loop deref table_at this rows = Some r -> row_found rows this r.
Proof.
  induction 1 as [|v rows Hwf Hrows IH]; intros first total Hc; [done|].
  destruct (check_info v rows first total Hc) as ((t&Ht)&Hcase).
  assert (Hnext : find_var_loop deref table_at this rows = Some r -> row_found (v :: rows) this r).
  { intros Hr. apply info_skip; [by eapply IH|]. destruct Hcase as [Hc'|[Hc' _]]; auto. }
  cbn [find_var_loop]. destruct (get_base deref v) as [base|] eqn:Hb; [|exact Hnext].
  destruct Hcase as [[-> ->]|[_ Hcase]]; [exact Hnext|].
  destruct (i_type v =? AP_PARAM_GROUP) eqn:Hg.
  - destruct Hcase as (gi&total1&plen&total'&Hgi&Hchk). rewrite Hgi.
    destruct (find_var_info_group _ _ 3 _ _ _ _ _ _ _) as [r'|] eqn:Hr; [|exact Hnext]. intros [= ->].
    apply (info_found v rows this r base Hwf Hb). rewrite Hg. by eauto 8.
  - destruct (Z.eqb_spec base this) as [E|_]; [|destruct (_ && _) eqn:Hvec; [|exact Hnext]]; intros [= <-];
      apply (info_found v rows this _ base Hwf Hb); rewrite Hg; (split; [done|]); eexists; (split; [done|]).
    + lia.
    + apply andb_true_iff in Hvec as [_ Hvec]. apply orb_true_iff in Hvec. rewrite !Z.eqb_eq in Hvec. zlia.
Qed.

(** Without the object there is no variable. *)
Lemma header_no_base v phdr levels : get_base deref v = None -> forall gi gb shift go,
  find_by_header_group deref table_at levels phdr v gi gb shift go = None.
Proof.
  intros Hb. induction levels as [|levels IH]; intros gi gb shift go; [done|].
  cbn [find_by_header_group]. induction gi as [|g gi IHg]; [done|]. cbn [find_by_header_rows].
  rewrite Hb, IHg. destruct (type g =? _); [done|]. destruct (type g =? _).
  - destruct (_ >=? _); [done|]. destruct (get_group_info _ _ _); [|done].
    destruct (adjust_group_offset _ _ _ _); [|done]. by rewrite IH.
  - by destruct (_ && _).
Qed.

(** Headers lead to variables of a size. *)
Lemma header_sized rows phdr a : Forall (info_wf table_at) rows -> forall first total,
  check_var_rows table_at rows first total = true ->
  find_by_header_loop deref table_at rows phdr = Some a -> 0 < type_size (h_type phdr).
Proof.
  induction 1 as [|v rows Hwf Hrows IH]; intros first total Hc; [done|].
  destruct (check_info v rows first total Hc) as ((t&Ht)&Hcase). cbn [find_by_header_loop].
  destruct (negb _); [by apply (IH _ _ Ht)|].
  destruct Hcase as [[-> ->]|[_ Hcase]]; [by apply (IH _ _ Ht)|].
  destruct (i_type v =? AP_PARAM_GROUP).
  - destruct Hcase as (gi&total1&plen&total'&Hgi&Hchk). rewrite Hgi.
    destruct (get_base deref v) as [base|] eqn:Hb.
    + intros Ha. by apply (group_back table_at deref v base Hb 0 3 gi 0 0 0 [] total1 plen total'
        ltac:(done) ltac:(done) (proj2 Hwf gi Hgi) Hchk) in Ha as [_ ?].
    + by rewrite (header_no_base v).
  - destruct (Z.eqb_spec (i_type v) (h_type phdr)) as [<-|]; [done|by apply (IH _ _ Ht)].
Qed.

End vehicle.

(** * Where a variable is *)

(** A group whose variables are in the object of the group above. *)
Definition embedded (g : GroupInfo) : Prop :=
  nz (flags g &&& AP_PARAM_FLAG_NESTED_OFFSET) = true \/
  (nz (flags g &&& AP_PARAM_FLAG_POINTER) = false /\ offset g = 0).
Definition offsets (nest : list GroupInfo) : Z := foldr (fun g n => offset g + n) 0 nest.

Section place.
Context (deref : Z -> Z) (table_at : Z -> option (list GroupInfo)) (this : Z).

(** The variable is at the offsets of the groups that embed it, added up. *)
Definition placed (v : Info) (base go : Z) (nest : list GroupInfo) (r : found) : Prop :=
  info r = v /\ exists g path, ginfo r = Some g /\ nesting r = rev nest ++ path /\
  (Forall embedded path -> this - vec_idx r * 4 = base + offset g + (go + offsets path)).

Lemma embedded_offset v g go no : adjust_group_offset deref v g go = Some no -> embedded g ->
  no = go + offset g.
Proof.
  unfold adjust_group_offset, embedded. intros Ha [E|[E1 E2]].
  - rewrite E in Ha. by injection Ha.
  - rewrite E1 in Ha. destruct (nz _); injection Ha as <-; lia.
Qed.

Lemma rows_placed v base nested gb shift :
  (forall gi gb go nest r, nested gi gb go nest = Some r -> placed v base go nest r) ->
  forall rows go nest r,
  find_var_rows deref table_at nested this v base rows gb shift go nest = Some r ->
  placed v base go nest r.
Proof.
  intros Hnested. induction rows as [|g rows IH]; intros go nest r; [done|]. cbn [find_var_rows].
  destruct (type g =? AP_PARAM_NONE); [done|]. destruct (type g =? AP_PARAM_GROUP).
  - destruct (get_group_info _ _ _) as [gi|]; [|apply IH]. destruct (_ >=? _group_bits); [done|].
    destruct (adjust_group_offset _ _ _ _) as [no|] eqn:Hadj; [|apply IH].
    destruct (_ >=? 2); [done|].
    destruct (nested _ _ _ _) as [r'|] eqn:Hr; [|apply IH]. intros [= ->].
    destruct (Hnested _ _ _ _ _ Hr) as (Hi&g'&path&Hg&Hnest&Hpath). split; [done|].
    exists g', (g :: path). split; [done|]. split; [by rewrite Hnest; simpl; rewrite <- app_assoc|].
    intros [Hemb Hrest]%Forall_cons. rewrite (Hpath Hrest), (embedded_offset _ _ _ _ Hadj Hemb).
    simpl. lia.
  - destruct (Z.eqb_spec this (base + (offset g + go))) as [E|_].
    + intros [= <-]. split; [done|]. exists g, []. split; [done|]. split; [by rewrite app_nil_r|].
      simpl. lia.
    + destruct (_ && _) eqn:Hvec; [|apply IH]. intros [= <-]. split; [done|]. exists g, [].
      split; [done|]. split; [by rewrite app_nil_r|]. intros _. simpl.
      apply andb_true_iff in Hvec as [_ Hvec]. apply orb_true_iff in Hvec.
      rewrite !Z.eqb_eq in Hvec. zlia.
Qed.

Lemma group_placed v base levels : get_base deref v = Some base -> forall gi gb shift go nest r,
  find_var_info_group deref table_at levels this v gi gb shift go nest = Some r ->
  placed v base go nest r.
Proof.
  intros Hb. induction levels as [|levels IH]; intros gi gb shift go nest r; [done|].
  cbn [find_var_info_group]. rewrite Hb. apply rows_placed. intros gi' gb' go' nest' r'. apply IH.
Qed.

(** The address of what [find_var_info] finds. *)
Lemma var_placed rows r : find_var_loop deref table_at this rows = Some r ->
  exists base, get_base deref (info r) = Some base /\
    (Forall embedded (nesting r) -> this - vec_idx r * 4 =
       match ginfo r with Some g => base + offset g + offsets (nesting r) | None => base end).
Proof.
  induction rows as [|v rows IH]; [done|]. cbn [find_var_loop].
  destruct (get_base deref v) as [base|] eqn:Hb; [|apply IH]. destruct (i_type v =? AP_PARAM_GROUP).
  - destruct (get_group_info _ _ _) as [gi|]; [|apply IH].
    destruct (find_var_info_group _ _ 3 _ _ _ _ _ _ _) as [r'|] eqn:Hr; [|apply IH]. intros [= ->].
    destruct (group_placed v base 3 Hb gi 0 0 0 [] r Hr) as (Hi&g&path&Hg&Hn&Hp).
    exists base. rewrite Hi, Hg, Hn. split; [done|]. intros Hemb. rewrite (Hp Hemb). simpl. lia.
  - destruct (Z.eqb_spec base this) as [E|_]; [|destruct (_ && _) eqn:Hvec; [|apply IH]];
      intros [= <-]; exists base; (split; [done|]); intros _; simpl.
    + lia.
    + apply andb_true_iff in Hvec as [_ Hvec]. apply orb_true_iff in Hvec. rewrite !Z.eqb_eq in Hvec. zlia.
Qed.
End place.

(** * A table of a vehicle *)

(** A version, and an object with a scalar, a vector, an object inside it and an
    object it points to. *)
Definition demo_sub : list GroupInfo := [
  group_row AP_PARAM_INT8 0 "ENABLE" 0 (DefValue (f32_of_Z 5)) AP_PARAM_FLAG_ENABLE;
  group_row AP_PARAM_INT32 1 "RATE" 4 (DefValue (f32_of_Z 0)) 0;
  group_row AP_PARAM_NONE 0 "" 0 (GroupTable None) 0].
Definition demo_group : list GroupInfo := [
  group_row AP_PARAM_FLOAT 0 "P" 0 (DefValue (f32_of_Z 1)) 0;
  group_row AP_PARAM_VECTOR3F 1 "OFS" 4 (DefValue (f32_of_Z 0)) 0;
  group_row AP_PARAM_GROUP 2 "A_" 16 (GroupTable (Some demo_sub)) AP_PARAM_FLAG_NESTED_OFFSET;
  group_row AP_PARAM_GROUP 3 "B_" 32 (GroupTable (Some demo_sub)) AP_PARAM_FLAG_POINTER;
  group_row AP_PARAM_NONE 0 "" 0 (GroupTable None) 0].
Definition demo_vars : list Info := [
  info_row AP_PARAM_INT16 "FORMAT" 0 0x100 (DefValue (f32_of_Z 13)) 0;
  info_row AP_PARAM_GROUP "DEV_" 300 0x200 (GroupTable (Some demo_group)) 0].

(** The object at 0x200 points to the one at 0x300. *)
Definition demo_deref (a : Z) : Z := if a =? 0x220 then 0x300 else 0.
Definition demo_tables (a : Z) : option (list GroupInfo) := None.

Lemma demo_vars_wf : Forall (info_wf demo_tables) demo_vars.
Proof.
  assert (Hsub : rows_wf demo_tables 2 demo_sub).
  { repeat constructor; simpl; try lia; discriminate. }
  constructor; [|constructor; [|constructor]]; (split; [simpl; lia|]); [discriminate|].
  intros gi [= <-].
  constructor; [|constructor; [|constructor; [|constructor; [|constructor; [|constructor]]]]];
    (split; [simpl; lia|]); first [discriminate | by intros gi [= <-]].
Qed.

(** The header of a variable leads back to it. *)
Lemma lookup_back deref table_at _var_info this f :
  check_var_info _var_info table_at = true -> Forall (info_wf table_at) _var_info ->
  find_var_info _var_info deref table_at this = Some f ->
  find_by_header _var_info deref table_at (found_header f) = Some (this - vec_idx f * 4).
Proof.
  intros Hc Hwf Hf.
  destruct (var_loop_back deref table_at _ this f Hwf true 4 Hc Hf) as (_&Hk&Ht&He&Hback).
  apply Hback; unfold found_header.
  - by apply make_header_key.
  - simpl. by apply Z.mod_small.
  - simpl. apply Z.mod_small. unfold type_size in Ht.
    unfold AP_PARAM_NONE, AP_PARAM_GROUP, AP_PARAM_INT8, AP_PARAM_INT16, AP_PARAM_INT32,
      AP_PARAM_FLOAT, AP_PARAM_VECTOR3F in Ht.
    repeat match type of Ht with context [?a =? ?b] => destruct (Z.eqb_spec a b); simpl in Ht end; lia.
Qed.

(** C18. The table is what makes the record in storage mean something: when
    [check_var_info] accepts it, the header [save] stores a variable with (key,
    type and group id) leads [find_by_header], and so [load_all], back to the
    variable and to no other, through nested, pointer and unshifted groups. *)
Theorem param_lookup deref table_at _var_info this f :
  check_var_info _var_info table_at = true -> Forall (info_wf table_at) _var_info ->
  find_var_info _var_info deref table_at this = Some f ->
  find_by_header _var_info deref table_at (found_header f) = Some (this - vec_idx f * 4).
Proof. apply lookup_back. Qed.

Lemma param_lookup_witness :
  let back this := find_by_header demo_vars demo_deref demo_tables
    (make_header AP_PARAM_INT32 300 (3 + 1 * 64)) = Some this in
  back 0x304.
Proof.
  exact (param_lookup demo_deref demo_tables demo_vars 0x304 _ eq_refl demo_vars_wf eq_refl).
Defined.
