(* ===== verification/ParamSpec.v ===== *)
(** What saving and loading a parameter do to the record in storage: the search
    for a variable, a variable saved and loaded, an interrupted save, and the
    loading of all the variables. *)
From S2P Require Import Prelude Float32 Storage StorageView Param ParamLog ParamTables.
Open Scope urus_scope.
Import StorageManager AP_Param.
#[local] Abbreviation length := (@Datatypes.length _).

Section record.
Context {St : Type} `{HL : HalStorageLaws St}.
Context (layout : list StorageArea).
Abbreviation ok := (area_ok layout StorageParam).
Abbreviation pview := (aview layout StorageParam).
Implicit Types (st : St) (es : list entry) (h : Param_header) (d : list Z).

Lemma ok_size st : ok st -> size layout = zlen (pview st) /\ size layout < 65536.
Proof.
  intros (_&_&Ht&Hs). unfold size. rewrite aview_length, Ht. lia.
Qed.

Lemma read_into_at st old pre bs rest : ok st -> pview st = pre ++ bs ++ rest ->
  length bs = length old -> 0 < zlen old < 256 -> read_into layout st old (zlen pre) = bs.
Proof.
  intros Hok Hv Hl Ho. unfold read_into.
  assert (Hlen := aview_length layout StorageParam st). rewrite Hv, !length_app in Hlen.
  rewrite area_read by (done || lia). rewrite Hv, !Nat2Z.id, drop_app_length, <- Hl.
  rewrite take_app_length, drop_ge by lia. by rewrite app_nil_r.
Qed.

Lemma read_data st pre bs rest n : ok st -> pview st = pre ++ bs ++ rest ->
  n = zlen bs -> 0 < n < 256 -> (read_block layout StorageParam st [] (zlen pre) n).2 = bs.
Proof.
  intros Hok Hv -> Hn.
  assert (Hlen := aview_length layout StorageParam st). rewrite Hv, !length_app in Hlen.
  rewrite area_read by (done || lia). simpl.
  by rewrite Hv, !Nat2Z.id, drop_app_length, take_app_length.
Qed.

(** * The search *)

(** [scan_loop] from an entry of the log on. *)
Lemma scan_loop_spec st target : ok st -> header_wf target -> is_sentinal target = false ->
  forall fuel es pre h0 rest phdr, (length es < fuel)%nat ->
  Forall entry_ok es -> header_wf h0 -> is_sentinal h0 = true -> length phdr = 4%nat ->
  pview st = pre ++ log_bytes es ++ header_bytes h0 ++ rest ->
  scan_loop layout fuel st phdr target (zlen pre) =
  Done (match position es target with
        | Some p => (true, zlen pre + p)
        | None => (false, zlen pre + zlen (log_bytes es))
        end).
Proof.
  intros Hok Hwt Ht. induction fuel as [|fuel IH]; intros es pre h0 rest phdr Hf Hes Hw0 Hs0 Hph Hv; [lia|].
  destruct (ok_size st Hok) as [Hsz Hlt]. rewrite Hv, !length_app in Hsz.
  cbn [scan_loop]. rewrite header_bytes_length in Hsz.
  rewrite (proj2 (Z.ltb_lt _ _)) by lia. destruct es as [|e es].
  - rewrite (read_into_at st phdr pre (header_bytes h0) rest)
      by (done || rewrite ?header_bytes_length; lia).
    rewrite header_at_bytes by done. destruct (same_header h0 target) eqn:Hsame.
    { apply same_header_spec in Hsame; [congruence|done|done]. }
    rewrite Hs0. simpl. do 2 f_equal. lia.
  - inversion Hes as [|? ? He Hes']; subst. pose proof He as (Hwe&Hse&Hde).
    rewrite entries_cons in *. unfold entry_bytes in *. rewrite <- !app_assoc in Hv.
    rewrite (read_into_at st phdr pre (header_bytes (e_hdr e))
      (e_data e ++ log_bytes es ++ header_bytes h0 ++ rest))
      by (done || rewrite ?header_bytes_length; lia).
    rewrite header_at_bytes by done. cbn [position].
    destruct (same_header (e_hdr e) target) eqn:Hsame.
    { apply same_header_spec in Hsame; [|done..]. rewrite decide_True by done. do 2 f_equal. lia. }
    rewrite decide_False by (intros Heq; apply same_header_spec in Heq; congruence).
    rewrite Hse. rewrite !length_app, header_bytes_length in Hsz.
    rewrite u16_small by lia.
    replace (zlen pre + (type_size (h_type (e_hdr e)) + 4))
      with (zlen (pre ++ header_bytes (e_hdr e) ++ e_data e))
      by (rewrite !length_app, header_bytes_length; lia).
    rewrite (IH es _ h0 rest) by (done || rewrite <- ?app_assoc; try done; simpl in Hf; lia).
    unfold entry_bytes. rewrite !length_app, header_bytes_length.
    destruct (position es target); simpl; do 2 f_equal; lia.
Qed.

Lemma scan_log st es h0 junk target : ok st -> logged_at (pview st) es h0 ->
  header_wf target -> is_sentinal target = false -> length junk = 4%nat ->
  scan layout junk st target =
  Done (match position es target with
        | Some p => (true, 4 + p)
        | None => (false, log_end es)
        end).
Proof.
  intros Hok Hl Hw Ht Hj. pose proof (logged_length _ _ _ Hl) as Hlen.
  destruct Hl as (Hes&Hw0&Hs0&pre&rest&Hp&Hv). destruct (ok_size st Hok) as [Hsz Hlt].
  pose proof (log_length_bound es Hes). unfold log_end in *. unfold scan.
  replace 4 with (zlen pre) by lia.
  rewrite (scan_loop_spec st target Hok Hw Ht _ es pre h0 rest); try done.
  unfold scan_fuel. rewrite Hsz. clear - Hlen H0. zlia.
Qed.

(** * Writing *)

(** Nothing outside the parameter area differs. *)
Definition elsewhere st st' : Prop :=
  forall c, c ∉ cells layout StorageParam -> hs_img st' !! c = hs_img st !! c.

Lemma elsewhere_trans st1 st2 st3 : elsewhere st1 st2 -> elsewhere st2 st3 -> elsewhere st1 st3.
Proof. intros H1 H2 c Hc. by rewrite H2, H1. Qed.

Lemma write_check st a bs : ok st -> bytes bs -> 0 <= a -> 0 < zlen bs < 256 -> a + zlen bs <= zlen (pview st) ->
  let st' := eeprom_write_check layout st bs a in
  ok st' /\ pview st' = list_inserts (Z.to_nat a) bs (pview st) /\ elsewhere st st'.
Proof. intros Hok Hbs Ha Hb Hin. rewrite aview_length in Hin. by apply area_write. Qed.

(** [append] adds an entry. *)
Lemma append_log st es h0 h d : ok st -> logged_at (pview st) es h0 -> entry_ok (Entry h d) ->
  bytes d -> 0 < zlen d -> log_end es + 4 + zlen d + 4 <= zlen (pview st) ->
  let st' := append layout st (log_end es) h d in
  ok st' /\ logged_at (pview st') (es ++ [Entry h d]) sentinal /\ elsewhere st st'.
Proof.
  intros Hok Hl He Hdb Hd Hroom st'. pose proof He as (_&_&Hty). simpl in Hty.
  pose proof (type_size_range (h_type h)). destruct (ok_size st Hok) as [Hsz Hlt].
  assert (0 <= log_end es) by (unfold log_end; lia).
  subst st'. unfold append, write_sentinal. rewrite <- Hty, !u16_small by lia.
  fold sentinal.
  destruct (write_check st (log_end es + 4 + zlen d) (header_bytes sentinal)) as (Hk1&Hv1&Ho1);
    [done|apply le_bytes_bytes|lia|rewrite header_bytes_length; lia|rewrite header_bytes_length; lia|].
  set (st1 := eeprom_write_check layout st _ _) in *.
  assert (Hl1 : length (pview st1) = length (pview st)) by (rewrite Hv1; apply length_inserts).
  destruct (write_check st1 (log_end es + 4) d) as (Hk2&Hv2&Ho2); [done|done|lia|lia|lia|].
  set (st2 := eeprom_write_check layout st1 _ _) in *.
  assert (Hl2 : length (pview st2) = length (pview st)) by (by rewrite Hv2, length_inserts).
  destruct (write_check st2 (log_end es) (header_bytes h)) as (Hk3&Hv3&Ho3);
    [done|apply le_bytes_bytes|lia|rewrite header_bytes_length; lia|rewrite header_bytes_length; lia|].
  split; [done|]. split; [|by eapply elsewhere_trans, elsewhere_trans].
  rewrite Hv3, Hv2, Hv1.
  replace (Z.to_nat (log_end es + 4 + zlen d)) with (Z.to_nat (log_end es) + 4 + length d)%nat by lia.
  replace (Z.to_nat (log_end es + 4)) with (Z.to_nat (log_end es) + 4)%nat by lia.
  by apply (logged_append _ _ h0).
Qed.

(** Overwriting the data of an entry. *)
Lemma update_log st es1 h d0 es2 h0 d : ok st ->
  logged_at (pview st) (es1 ++ Entry h d0 :: es2) h0 -> length d = length d0 -> bytes d -> 0 < zlen d ->
  let st' := eeprom_write_check layout st d (u16 (log_end es1 + 4)) in
  ok st' /\ logged_at (pview st') (es1 ++ Entry h d :: es2) h0 /\ elsewhere st st'.
Proof.
  intros Hok Hl Hd Hdb Hpos. pose proof (logged_length _ _ _ Hl) as Hlen.
  destruct (ok_size st Hok) as [Hsz Hlt].
  unfold log_end in Hlen. rewrite entries_app, entries_cons, !length_app in Hlen.
  unfold entry_bytes in Hlen. rewrite length_app, header_bytes_length in Hlen. simpl in Hlen.
  pose proof Hl as (Hes&_). apply Forall_app in Hes as [_ Hes]. inversion Hes as [|? ? (_&_&Hty) _]; subst.
  simpl in Hty. pose proof (type_size_range (h_type h)).
  assert (Ha : 0 <= log_end es1) by (unfold log_end; lia).
  assert (log_end es1 + 4 + zlen d <= zlen (pview st)) by (unfold log_end; lia).
  rewrite u16_small by lia.
  destruct (write_check st (log_end es1 + 4) d) as (Hk1&Hv1&Ho1); [done|done|lia|lia|lia|].
  split; [done|]. split; [|done]. rewrite Hv1. by apply (logged_update _ _ _ d0).
Qed.

(** * Values *)
Lemma value_position es h : value es h = None -> position es h = None.
Proof. apply position_value. Qed.

Lemma value_split es h d0 : value es h = Some d0 -> exists es1 d es2,
  es = es1 ++ Entry h d :: es2 /\ position es h = Some (zlen (log_bytes es1)) /\ value es1 h = None.
Proof.
  intros Hv. destruct (position es h) as [p|] eqn:Hp; [|apply position_value in Hp; congruence].
  destruct (position_split _ _ _ Hp) as (es1&d&es2&->&->&Hn). exists es1, d, es2.
  split; [done|]. split; [done|]. by apply position_value.
Qed.

(** The record with [d] for [h]: in its place, or at the end. *)
Fixpoint put es h d : list entry :=
  match es with
  | [] => [Entry h d]
  | e :: es => if decide (e_hdr e = h) then Entry h d :: es else e :: put es h d
  end.

Lemma put_here es1 h d0 es2 d : value es1 h = None ->
  put (es1 ++ Entry h d0 :: es2) h d = es1 ++ Entry h d :: es2.
Proof.
  induction es1 as [|e es1 IH]; intros Hn; simpl; [by rewrite decide_True|].
  unfold value in Hn. simpl in Hn. case_bool_decide as He; [done|]. rewrite decide_False by done.
  by rewrite IH.
Qed.

Lemma put_new es h d : value es h = None -> put es h d = es ++ [Entry h d].
Proof.
  induction es as [|e es IH]; intros Hn; [done|]. unfold value in Hn. simpl in Hn |- *.
  case_bool_decide as He; [done|]. by rewrite decide_False, IH by done.
Qed.

Lemma value_put es h d h' : value (put es h d) h' = if decide (h' = h) then Some d else value es h'.
Proof.
  unfold value. induction es as [|e es IH]; simpl.
  - case_bool_decide; case_decide; done || congruence.
  - destruct (decide (e_hdr e = h)) as [<-|Hne]; simpl.
    + case_bool_decide; case_decide; done || congruence.
    + case_bool_decide; case_decide; done || congruence || apply IH.
Qed.

Lemma put_headers es h d x : x ∈ e_hdr <$> put es h d -> x = h \/ x ∈ e_hdr <$> es.
Proof.
  induction es as [|e es IH]; simpl; [by rewrite list_elem_of_singleton; auto|].
  case_decide; simpl; rewrite !elem_of_cons; naive_solver.
Qed.

Lemma put_NoDup es h d : NoDup (e_hdr <$> es) -> NoDup (e_hdr <$> put es h d).
Proof.
  induction es as [|e es IH]; simpl; intros Hn; [apply NoDup_singleton|].
  apply NoDup_cons in Hn as [Hx Hn]. case_decide; simpl; apply NoDup_cons; [by subst|].
  split; [|auto]. by intros [?|?]%put_headers.
Qed.

Lemma put_Forall (P : entry -> Prop) es h d : P (Entry h d) -> Forall P es -> Forall P (put es h d).
Proof. intros Hp. induction 1; simpl; [by constructor|]. case_decide; by constructor. Qed.

(** Every entry is the value of its header. *)
Lemma value_entry es e : NoDup (e_hdr <$> es) -> e ∈ es -> value es (e_hdr e) = Some (e_data e).
Proof.
  unfold value. induction es as [|e' es IH]; simpl; intros Hn He; [by apply elem_of_nil in He|].
  apply NoDup_cons in Hn as [Hx Hn']. apply elem_of_cons in He as [->|He].
  - by rewrite bool_decide_true.
  - rewrite bool_decide_false; [by apply IH|]. intros E. apply Hx. rewrite E. by apply list_elem_of_fmap_2.
Qed.

(** * Variables *)
Section variables.
Context (_var_info : list Info) (deref : Z -> Z) (table_at : Z -> option (list GroupInfo)).

(** The variable at [this] is [f], of a type that is stored, and its header is
    not taken for a sentinal; a scalar or the whole of a vector. *)
Definition variable (this : Z) (f : found) : Prop :=
  find_var_info _var_info deref table_at this = Some f /\
  0 < type_size (found_type f) /\ is_sentinal (found_header f) = false /\
  (found_type f = AP_PARAM_VECTOR3F \/ vec_idx f = 0).

(** Its address and its size. *)
Definition var_addr (this : Z) (f : found) : Z := this - vec_idx f * 4.
Definition var_size (f : found) : Z := type_size (found_type f).

Lemma type_size_stored ty : 0 < type_size ty -> 1 <= ty <= 5.
Proof.
  unfold type_size, AP_PARAM_NONE, AP_PARAM_GROUP, AP_PARAM_INT8, AP_PARAM_INT16, AP_PARAM_INT32,
    AP_PARAM_FLOAT, AP_PARAM_VECTOR3F.
  repeat match goal with |- context [?a =? ?b] => destruct (Z.eqb_spec a b); simpl end; lia.
Qed.

Lemma variable_header this f : variable this f ->
  header_wf (found_header f) /\ h_type (found_header f) = found_type f /\ 1 <= found_type f <= 5.
Proof.
  intros (_&Ht&_). pose proof (type_size_stored _ Ht). split; [apply make_header_wf|].
  split; [|done]. apply Z.mod_small. lia.
Qed.

Lemma variable_vector this f : variable this f ->
  negb (h_type (found_header f) =? AP_PARAM_VECTOR3F) && negb (vec_idx f =? 0) = false.
Proof.
  intros Hv. pose proof (variable_header _ _ Hv) as (_&->&_). destruct Hv as (_&_&_&[->| ->]).
  - by rewrite Z.eqb_refl.
  - by rewrite andb_false_r.
Qed.

Lemma mem_read_length m a n : 0 <= n -> zlen (mem_read m a n) = n.
Proof. intros. unfold mem_read. rewrite length_map, length_seq. lia. Qed.

(** The data [save] writes. *)
Definition data_of (s : t St) (this : Z) (f : found) : list Z :=
  mem_read (mem s) (var_addr this f) (var_size f).

(** Memory holds bytes. *)
Definition mem_bytes (m : Z -> Z) : Prop := forall a, 0 <= m a < 256.

Lemma data_bytes s this f : mem_bytes (mem s) -> bytes (data_of s this f).
Proof.
  intros Hm. apply Forall_forall. intros b Hb.
  unfold data_of, mem_read in Hb. apply list_elem_of_fmap in Hb as (k&->&_). apply Hm.
Qed.

Lemma data_entry s this f : variable this f -> entry_ok (Entry (found_header f) (data_of s this f)).
Proof.
  intros Hv. pose proof (variable_header _ _ Hv) as (Hw&Hty&_). destruct Hv as (_&Ht&Hs&_).
  split; [done|]. split; [done|]. cbn [e_hdr e_data]. unfold data_of.
  by rewrite mem_read_length, Hty by (unfold var_size; lia).
Qed.

(** [save] on the record [es], by cases: the variable is recorded; its value is
    as good as the default; there is no room; it is appended. *)
Lemma save_spec junk force this f s es h0 : length junk = 4%nat -> mem_bytes (mem s) ->
  ok (_storage s) ->
  logged_at (pview (_storage s)) es h0 -> variable this f ->
  exists b s', save _var_info deref table_at layout junk force this s = Done (b, s') /\
    mem s' = mem s /\ param_overrides s' = param_overrides s /\
    ((b = true /\ ok (_storage s') /\ elsewhere (_storage s) (_storage s') /\
      exists h0', logged_at (pview (_storage s')) (put es (found_header f) (data_of s this f)) h0') \/
     (_storage s' = _storage s /\ value es (found_header f) = None /\
      if b then force = false /\ found_type f <= AP_PARAM_FLOAT /\
                same_as_default (found_type f) (cast_to_float (found_type f) this (mem s))
                  (get_default_value s this (found_default f)) = true
      else size layout <= log_end es + var_size f + 8)).
Proof.
  intros Hj Hmb Hok Hl Hv. pose proof (variable_header _ _ Hv) as (Hw&Hty&Hr).
  pose proof (variable_vector _ _ Hv) as Hvec. pose proof (data_bytes s this f Hmb) as Hdb.
  pose proof (data_entry s this f Hv) as Hent.
  pose proof Hv as (Hfind&Hsz0&Hsent&_). unfold save. rewrite Hfind, Hvec.
  set (s1 := if _ : bool then mk _ _ 0 _ else s).
  assert (H1 : _storage s1 = _storage s /\ mem s1 = mem s /\ param_overrides s1 = param_overrides s)
    by (unfold s1; match goal with |- context [if ?b then _ else _] => by destruct b end).
  destruct H1 as (Hst&Hm&Ho). clearbody s1. rewrite Hst, Hm, Hty.
  rewrite (scan_log (_storage s) es h0) by done. cbn [mbind outcome_bind]. change (mem_read (mem s) _ _) with (data_of s this f).
  assert (Hd : zlen (data_of s this f) = var_size f) by (apply mem_read_length; unfold var_size; lia).
  destruct (value es (found_header f)) as [d0|] eqn:Hval.
  - destruct (value_split _ _ _ Hval) as (es1&d&es2&->&->&Hn).
    destruct (update_log (_storage s) es1 (found_header f) d es2 h0 (data_of s this f))
      as (Hok'&Hl'&Ho'); [done|done| |done|unfold var_size in *; lia|].
    { destruct Hl as (Hes&_). apply Forall_app in Hes as [_ Hes].
      inversion Hes as [|? ? (_&_&Hde) _]; subst. cbn [e_hdr e_data] in Hde. rewrite Hty in Hde.
      unfold var_size in Hd. lia. }
    eexists true, _. split; [reflexivity|]. split; [done|]. split; [done|]. left.
    split; [done|]. split; [exact Hok'|]. split; [exact Ho'|].
    exists h0. by rewrite put_here.
  - rewrite (value_position _ _ Hval).
    pose proof (logged_length _ _ _ Hl) as Hlen. destruct (ok_size _ Hok) as [Hsz Hlt].
    rewrite (proj2 (Z.eqb_neq _ _)) by lia.
    assert (Hg : forall x, get_default_value s1 this x = get_default_value s this x)
      by (intros; unfold get_default_value; by rewrite Ho).
    rewrite Hg. destruct (_ && _ && _) eqn:Hdef.
    + apply andb_true_iff in Hdef as [Hdef Hsame]. apply andb_true_iff in Hdef as [Hle Hforce].
      eexists true, _. split; [reflexivity|]. split; [done|]. split; [done|]. right.
      split; [done|]. split; [done|]. destruct force; [done|]. split; [done|].
      split; [by apply Z.leb_le|done].
    + destruct (_ >=? _) eqn:Hfull.
      * eexists false, _. split; [reflexivity|]. split; [done|]. split; [done|]. right.
        split; [done|]. split; [done|]. apply Z.geb_le in Hfull. unfold var_size. lia.
      * destruct (append_log (_storage s) es h0 (found_header f) (data_of s this f)) as (Hok'&Hl'&Ho');
          [done|done|done|done|unfold var_size in *; lia| |].
        { rewrite Z.geb_leb in Hfull. apply Z.leb_gt in Hfull. unfold var_size in *. lia. }
        eexists true, _. split; [reflexivity|]. split; [done|]. split; [done|]. left.
        split; [done|]. split; [exact Hok'|]. split; [exact Ho'|].
        exists sentinal. by rewrite put_new.
Qed.

(** The data of an entry, where the search finds it. *)
Lemma recorded_data st es1 h d es2 h0 : ok st -> logged_at (pview st) (es1 ++ Entry h d :: es2) h0 ->
  0 < type_size (h_type h) ->
  (read_block layout StorageParam st [] (u16 (4 + zlen (log_bytes es1) + 4)) (type_size (h_type h))).2 = d.
Proof.
  intros Hok Hl Hsz0. pose proof (logged_length _ _ _ Hl) as Hlen. destruct (ok_size _ Hok) as [Hsz Hlt].
  destruct Hl as (Hes&_&_&pre&rest&Hp&Hpv). apply Forall_app in Hes as [_ Hes].
  inversion Hes as [|? ? (_&_&Hde) _]; subst. cbn [e_hdr e_data] in Hde.
  unfold log_end in Hlen. rewrite entries_app, entries_cons, !length_app in Hlen.
  unfold entry_bytes in Hlen. rewrite length_app, header_bytes_length in Hlen. simpl in Hlen.
  rewrite u16_small by lia.
  replace (4 + zlen (log_bytes es1) + 4) with (zlen (pre ++ log_bytes es1 ++ header_bytes h))
    by (rewrite !length_app, header_bytes_length; lia).
  rewrite entries_app, entries_cons in Hpv. unfold entry_bytes in Hpv. cbn [e_hdr e_data] in Hpv.
  pose proof (type_size_range (h_type h)) as Hts.
  apply (read_data st (pre ++ log_bytes es1 ++ header_bytes h) d (log_bytes es2 ++ header_bytes h0 ++ rest));
    [done| |done|lia].
  rewrite Hpv, <- !app_assoc. done.
Qed.

(** [load] of a recorded variable. *)
Lemma load_spec junk this f s es h0 d : length junk = 4%nat -> ok (_storage s) ->
  logged_at (pview (_storage s)) es h0 -> variable this f -> value es (found_header f) = Some d ->
  load _var_info deref table_at layout junk this s =
    Done (true, set_mem s (mem_write (mem s) (var_addr this f) d)).
Proof.
  intros Hj Hok Hl Hv Hval. pose proof (variable_header _ _ Hv) as (Hw&Hty&Hr).
  pose proof (variable_vector _ _ Hv) as Hvec. pose proof Hv as (Hfind&Hsz0&Hsent&_).
  unfold load. rewrite Hfind. rewrite (scan_log (_storage s) es h0) by done. cbn [mbind outcome_bind].
  destruct (value_split _ _ _ Hval) as (es1&d1&es2&->&->&Hn).
  rewrite value_app, Hn in Hval. unfold value in Hval. simpl in Hval.
  rewrite bool_decide_true in Hval by done. injection Hval as ->. cbn [negb]. rewrite Hvec.
  pose proof (recorded_data _ _ _ _ _ _ Hok Hl ltac:(by rewrite Hty)) as Hbs.
  destruct (read_block layout _ _ _ _ _) as [r bs]. by rewrite <- Hbs.
Qed.

(** * Loading all the variables *)

(** The entries, one after the other, at their variables. *)
Definition restore_entry (m : Z -> Z) (e : entry) : Z -> Z :=
  match find_by_header _var_info deref table_at (e_hdr e) with
  | Some a => mem_write m a (e_data e)
  | None => m
  end.
Definition restore es (m : Z -> Z) : Z -> Z := foldl restore_entry m es.

(** The variables the headers lead to have a size. *)
Definition sized (e : entry) : Prop :=
  find_by_header _var_info deref table_at (e_hdr e) <> None -> 0 < zlen (e_data e).

Lemma load_loop_spec (s : t St) : ok (_storage s) ->
  forall fuel es pre h0 rest phdr m, (length es < fuel)%nat ->
  Forall entry_ok es -> Forall sized es -> header_wf h0 -> is_sentinal h0 = true -> length phdr = 4%nat ->
  pview (_storage s) = pre ++ log_bytes es ++ header_bytes h0 ++ rest ->
  load_loop _var_info deref table_at layout fuel phdr (zlen pre) (set_mem s m) =
    Done (true, set_mem s (restore es m)).
Proof.
  intros Hok. induction fuel as [|fuel IH]; intros es pre h0 rest phdr m Hf Hes Hsz Hw0 Hs0 Hph Hv; [lia|].
  destruct (ok_size _ Hok) as [Hsize Hlt]. rewrite Hv, !length_app, header_bytes_length in Hsize.
  cbn [load_loop]. rewrite (proj2 (Z.ltb_lt _ _)) by lia. cbn [set_mem _storage]. destruct es as [|e es].
  - rewrite (read_into_at _ phdr pre (header_bytes h0) rest)
      by (done || rewrite ?header_bytes_length; lia).
    by rewrite header_at_bytes, Hs0 by done.
  - inversion Hes as [|? ? He Hes']; inversion Hsz as [|? ? Hse Hsz']; subst.
    pose proof He as (Hwe&Hsent&Hde). rewrite entries_cons in *. unfold entry_bytes in *.
    rewrite <- !app_assoc in Hv.
    rewrite (read_into_at _ phdr pre (header_bytes (e_hdr e))
      (e_data e ++ log_bytes es ++ header_bytes h0 ++ rest))
      by (done || rewrite ?header_bytes_length; lia).
    rewrite header_at_bytes, Hsent by done. rewrite !length_app, header_bytes_length in Hsize.
    pose proof (type_size_range (h_type (e_hdr e))) as Hts. rewrite !u16_small by lia.
    assert (Hpre : forall n, zlen pre + (n + 4) = zlen pre + 4 + n) by lia. rewrite Hpre.
    replace (zlen pre + 4) with (zlen (pre ++ header_bytes (e_hdr e)))
      by (rewrite length_app, header_bytes_length; lia).
    assert (Hmem : (match find_by_header _var_info deref table_at (e_hdr e) with
      | None => set_mem s m
      | Some a => let '(_, bs) := read_block layout StorageParam (_storage s) []
                    (zlen (pre ++ header_bytes (e_hdr e))) (type_size (h_type (e_hdr e))) in
                  set_mem (set_mem s m) (mem_write m a bs)
      end) = set_mem s (restore_entry m e)).
    { unfold restore_entry, sized in *. destruct (find_by_header _ _ _ _) as [a|]; [|done].
      pose proof (read_data (_storage s) (pre ++ header_bytes (e_hdr e)) (e_data e)
        (log_bytes es ++ header_bytes h0 ++ rest) (type_size (h_type (e_hdr e)))) as Hd.
      destruct (read_block _ _ _ _ _ _) as [b bs]. cbn [snd] in Hd.
      rewrite Hd; [done|done|by rewrite Hv, <- app_assoc|done|]. specialize (Hse ltac:(done)). lia. }
    cbn [set_mem mem _parameter_count param_overrides] in Hmem |- *. rewrite Hmem, <- Hde.
    replace (zlen (pre ++ header_bytes (e_hdr e)) + zlen (e_data e))
      with (zlen (pre ++ header_bytes (e_hdr e) ++ e_data e))
      by (rewrite !length_app, header_bytes_length; lia).
    apply (IH es _ h0 rest); try done; [simpl in Hf; lia|]. by rewrite Hv, <- !app_assoc.
Qed.

Lemma load_all_spec junk defaults (s : t St) es h0 : length junk = 4%nat -> ok (_storage s) ->
  _storage (defaults s) = _storage s -> logged_at (pview (_storage s)) es h0 -> Forall sized es ->
  load_all _var_info deref table_at layout junk defaults s =
    Done (true, set_mem (defaults s) (restore es (mem (defaults s)))).
Proof.
  intros Hj Hok Hdef Hl Hsz. pose proof (logged_length _ _ _ Hl) as Hlen.
  rewrite <- Hdef in Hok, Hl, Hlen. destruct Hl as (Hes&Hw0&Hs0&pre&rest&Hp&Hv).
  destruct (ok_size _ Hok) as [Hsize Hlt]. pose proof (log_length_bound es Hes).
  unfold load_all. replace 4 with (zlen pre) by lia.
  replace (defaults s) with (set_mem (defaults s) (mem (defaults s))) at 1 by by destruct (defaults s).
  apply (load_loop_spec (defaults s) Hok _ es pre h0 rest); try done.
  unfold scan_fuel. rewrite Hsize. unfold log_end in Hlen. zlia.
Qed.

End variables.
End record.
