(* ===== verification/ParamDemo.v ===== *)
(** A storage of 200 bytes that is all parameter area, for the examples of the
    parameters, and the record of a storage just erased. *)
From Stdlib Require Import String.
From S2P Require Import Prelude Float32 Storage StorageView Param ParamLog ParamTables ParamSpec.
Import StorageManager AP_Param.
#[local] Abbreviation length := (@Datatypes.length _).

Definition param_layout : list StorageArea := [area StorageParam 0 200].
Definition junk4 : list Z := [1; 2; 3; 4].

Definition erased : list Z := erase_all param_layout (replicate 200 7).

(** The bytes of a version number at 0x100 and of the object at 0x200. *)
Definition demo_mem (a : Z) : Z := a mod 251.
Definition demo_state : AP_Param.t (list Z) := mk erased demo_mem 5 [].

Lemma demo_mem_bytes : mem_bytes demo_mem.
Proof. intros a. unfold demo_mem. pose proof (Z.mod_pos_bound a 251). lia. Qed.

Lemma param_board (st : list Z) : length st = Z.to_nat 200 -> area_ok param_layout StorageParam st.
Proof.
  intros Hl. split; [done|]. split; [split|split].
  - change (hs_img st) with st. rewrite Hl. repeat constructor; simpl; lia.
  - by apply ordered_NoDup.
  - reflexivity.
  - vm_compute. split; [discriminate|reflexivity].
Qed.

Lemma erased_logged : logged_at (aview param_layout StorageParam erased) [] sentinal.
Proof.
  split; [constructor|]. split; [apply sentinal_wf|]. split; [reflexivity|].
  exists [0x50; 0x41; 6; 0], (drop 8 erased). split; [reflexivity|]. vm_compute. reflexivity.
Qed.

(** The variable at an address. *)
Definition demo_found (this : Z) : found :=
  default (Found (info_row 0 EmptyString 0 0 (GroupTable None) 0) 0 None [] 0)
    (find_var_info demo_vars demo_deref demo_tables this).

Lemma demo_variable this :
  find_var_info demo_vars demo_deref demo_tables this = Some (demo_found this) ->
  (0 <? type_size (found_type (demo_found this))) = true ->
  is_sentinal (found_header (demo_found this)) = false ->
  ((found_type (demo_found this) =? AP_PARAM_VECTOR3F) || (vec_idx (demo_found this) =? 0)) = true ->
  variable demo_vars demo_deref demo_tables this (demo_found this).
Proof.
  intros H1 H2%Z.ltb_lt H3 [H4|H4]%orb_true_iff; apply Z.eqb_eq in H4; repeat split; auto.
Qed.
