(* ===== verification/ParamCrash.v ===== *)
(** A new variable saved when the power fails: the writes of [append] cut at any
    byte. *)
From S2P Require Import Prelude Float32 Storage StorageView Param ParamLog ParamTables ParamSpec ParamDemo.
Open Scope urus_scope.
Import StorageManager AP_Param.
#[local] Abbreviation length := (@Datatypes.length _).

(** * Headers half written *)
Lemma word_of_header_of v : 0 <= v < 4294967296 -> word_of (header_of v) = v.
Proof.
  intros Hv. unfold word_of, header_of. cbn [key_low h_type key_high group_element].
  change (2 ^ 8) with 256. change (2 ^ 5) with 32. change (2 ^ 13) with 8192.
  change (2 ^ 14) with 16384. change (2 ^ 18) with 262144. zlia.
Qed.

Lemma header_of_wf v : header_wf (header_of v).
Proof. by split; [|split; [|split]]; apply Z.mod_pos_bound. Qed.

Lemma header_bytes_at bs : length bs = 4%nat -> bytes bs -> header_bytes (header_at bs) = bs.
Proof.
  intros Hl Hb. unfold header_bytes, header_at. pose proof (le_val_range bs Hb) as Hr.
  rewrite Hl in Hr. change (256 ^ Z.of_nat 4) with 4294967296 in Hr.
  rewrite word_of_header_of by done. rewrite <- Hl. by apply le_bytes_val.
Qed.

(** The first [n] bytes of [h] over a sentinal. *)
Definition torn (n : nat) (h : Param_header) : list Z :=
  take n (header_bytes h) ++ drop n (header_bytes sentinal).

Lemma torn_length n h : length (torn n h) = 4%nat.
Proof.
  unfold torn. rewrite length_app, length_take, length_drop, !header_bytes_length. lia.
Qed.

Lemma torn_bytes n h : bytes (torn n h).
Proof.
  apply Forall_app. split; [apply Forall_take|apply Forall_drop]; apply le_bytes_bytes.
Qed.

(** What it reads as: a sentinal, or a header of the same key and type. *)
Definition torn_group (n : nat) (h : Param_header) : Z :=
  if decide (n = 2%nat) then 252 + group_element h mod 4
  else if decide (n = 3%nat) then group_element h mod 1024
  else group_element h.

Lemma torn_header n h : header_wf h -> (2 <= n)%nat ->
  header_at (torn n h) = header (key_low h) (h_type h) (key_high h) (torn_group n h).
Proof.
  intros (H1&H2&H3&H4) Hn. unfold torn_group, torn, header_at.
  destruct h as [kl ty kh ge]. cbn [key_low h_type key_high group_element] in *.
  set (h := header kl ty kh ge).
  assert (Hw : word_of h = kl + ty * 256 + kh * 8192 + ge * 16384) by reflexivity.
  assert (Hb : header_bytes h = [word_of h mod 256; word_of h / 256 mod 256;
    word_of h / 256 / 256 mod 256; word_of h / 256 / 256 / 256 mod 256]) by reflexivity.
  assert (Hs : header_bytes sentinal = [255; 255; 63; 0]) by reflexivity.
  rewrite Hb, Hs, Hw.
  assert (Hhdr : forall v ge', 0 <= ge' < 262144 -> v = kl + ty * 256 + kh * 8192 + ge' * 16384 ->
    header_of v = header kl ty kh ge').
  { intros v ge' Hg ->. by apply (header_of_word (header kl ty kh ge')). }
  destruct (decide (n = 2%nat)) as [->|]; [|destruct (decide (n = 3%nat)) as [->|]].
  - apply Hhdr; cbn [take drop app le_val]; zlia.
  - apply Hhdr; cbn [take drop app le_val]; zlia.
  - rewrite take_ge, drop_ge by (simpl; lia). apply Hhdr; cbn [app le_val]; zlia.
Qed.

Lemma torn_one h : is_sentinal (header_at (torn 1 h)) = true.
Proof.
  unfold is_sentinal. replace (h_type (header_at (torn 1 h))) with 31; [done|].
  unfold torn, header_at, header_of. cbn [h_type].
  assert (Hb : take 1 (header_bytes h) = [word_of h mod 256]) by reflexivity.
  assert (Hs : drop 1 (header_bytes sentinal) = [255; 63; 0]) by reflexivity.
  rewrite Hb, Hs. cbn [app le_val]. change (2 ^ 8) with 256. change (2 ^ 5) with 32. zlia.
Qed.

(** * Writes cut short *)
Section cut.
Context {St : Type} `{HL : HalStorageLaws St}.
Context (layout : list StorageArea).
Abbreviation ok := (area_ok layout StorageParam).
Abbreviation pview := (aview layout StorageParam).
Implicit Types (st : St) (es : list entry) (h : Param_header) (d : list Z) (n : nat).

(** The first [n] bytes of a write. *)
Definition write_cut n (bs : list Z) (a : Z) st : St :=
  if decide (take n bs = []) then st else eeprom_write_check layout st (take n bs) a.

(** [append] with the power lost after [n] bytes. *)
Definition append_cut n st (ofs : Z) h d : St :=
  let st := write_cut n (header_bytes sentinal) (u16 (ofs + 4 + type_size (h_type h))) st in
  let st := write_cut (n - 4) d (u16 (ofs + 4)) st in
  write_cut (n - 4 - length d) (header_bytes h) ofs st.

Lemma append_cut_all n st ofs h d : d <> [] -> (8 + length d <= n)%nat ->
  append_cut n st ofs h d = append layout st ofs h d.
Proof.
  intros Hd Hn. unfold append_cut, append, write_sentinal, write_cut. fold sentinal.
  rewrite !take_ge by (rewrite ?header_bytes_length; lia).
  rewrite (decide_False (P := d = [])) by done. by rewrite !decide_False by done.
Qed.

Lemma inserts_part {A} (l1 l2 l3 bs : list A) k : length l1 = k -> (length bs <= length l2)%nat ->
  list_inserts k bs (l1 ++ l2 ++ l3) = l1 ++ (bs ++ drop (length bs) l2) ++ l3.
Proof.
  intros Hk Hb. rewrite <- (take_drop (length bs) l2) at 1. rewrite <- (app_assoc (take _ _)).
  rewrite inserts_middle by (rewrite ?length_take; lia). by rewrite <- !app_assoc.
Qed.

Lemma write_cut_spec n bs st l1 l2 l3 a : ok st -> pview st = l1 ++ l2 ++ l3 ->
  bytes bs -> zlen l1 = a -> length bs = length l2 -> zlen bs < 256 ->
  let st' := write_cut n bs a st in
  ok st' /\ pview st' = l1 ++ (take n bs ++ drop n l2) ++ l3 /\ elsewhere layout st st'.
Proof.
  intros Hok Hv Hbs Ha Hb Hs st'. unfold st', write_cut. destruct (decide (take n bs = [])) as [He|He].
  - split; [done|]. split; [|done]. rewrite Hv, He.
    apply (f_equal (length)) in He. rewrite length_take in He. simpl in He.
    destruct (decide (n = 0%nat)) as [->|]; [done|].
    destruct l2; [by rewrite drop_nil|]. simpl in Hb. lia.
  - assert (Hpos : (0 < length (take n bs))%nat) by (destruct (take n bs); [done|simpl; lia]).
    rewrite length_take in Hpos.
    destruct (write_check layout st a (take n bs)) as (H1&H2&H3); [done|by apply Forall_take|lia|rewrite length_take; lia| |].
    { rewrite Hv, !length_app, length_take. lia. }
    split; [done|]. split; [|done]. rewrite H2, Hv, inserts_part by (rewrite ?length_take; lia).
    do 2 f_equal. rewrite length_take. destruct (decide (n <= length bs)%nat).
    + by rewrite Nat.min_l.
    + rewrite Nat.min_r, !drop_ge by lia. done.
Qed.

(** The bytes of the area after the cut. *)
Lemma append_cut_view n st es h d : ok st -> logged_at (pview st) es sentinal ->
  entry_ok (Entry h d) -> bytes d -> log_end es + 4 + zlen d + 4 <= zlen (pview st) ->
  let st' := append_cut n st (log_end es) h d in
  ok st' /\ elsewhere layout st st' /\ exists pre r1 r2 r3,
    length pre = 4%nat /\ length r1 = length d /\ length r2 = 4%nat /\
    pview st' = pre ++ log_bytes es ++ torn (n - 4 - length d) h ++
      (take (n - 4) d ++ drop (n - 4) r1) ++ (take n (header_bytes sentinal) ++ drop n r2) ++ r3.
Proof.
  intros Hok (_&_&_&pre&rest&Hp&Hv) (_&_&Hty) Hdb Hroom st'. simpl in Hty.
  destruct (ok_size layout st Hok) as [Hsz Hlt]. pose proof (type_size_range (h_type h)) as Hts.
  rewrite Hv, !length_app, header_bytes_length in Hroom, Hsz. unfold log_end in Hroom.
  set (r1 := take (length d) rest). set (r2 := take 4 (drop (length d) rest)).
  set (r3 := drop 4 (drop (length d) rest)).
  assert (Hrest : rest = r1 ++ r2 ++ r3) by (unfold r1, r2, r3; by rewrite !take_drop).
  assert (H1 : length r1 = length d) by (unfold r1; rewrite length_take; lia).
  assert (H2 : length r2 = 4%nat) by (unfold r2; rewrite length_take, length_drop; lia).
  clearbody r1 r2 r3. subst rest. unfold st', append_cut, log_end. rewrite <- Hty, !u16_small by lia.
  destruct (write_cut_spec n (header_bytes sentinal) st
    (pre ++ log_bytes es ++ header_bytes sentinal ++ r1) r2 r3 (4 + zlen (log_bytes es) + 4 + zlen d))
    as (K1&V1&O1); [done|by rewrite Hv, <- !app_assoc|apply le_bytes_bytes|rewrite !length_app, header_bytes_length; lia
      |by rewrite header_bytes_length|by rewrite header_bytes_length|].
  set (s1 := write_cut n _ _ st) in *.
  destruct (write_cut_spec (n - 4) d s1 (pre ++ log_bytes es ++ header_bytes sentinal) r1
    ((take n (header_bytes sentinal) ++ drop n r2) ++ r3) (4 + zlen (log_bytes es) + 4))
    as (K2&V2&O2); [done|by rewrite V1, <- !app_assoc|done|rewrite !length_app, header_bytes_length; lia
      |done|lia|].
  set (s2 := write_cut (n - 4) _ _ s1) in *.
  destruct (write_cut_spec (n - 4 - length d) (header_bytes h) s2 (pre ++ log_bytes es)
    (header_bytes sentinal) ((take (n - 4) d ++ drop (n - 4) r1) ++
       (take n (header_bytes sentinal) ++ drop n r2) ++ r3) (4 + zlen (log_bytes es)))
    as (K3&V3&O3); [done|by rewrite V2, <- !app_assoc|apply le_bytes_bytes|rewrite !length_app; lia
      |by rewrite !header_bytes_length|by rewrite header_bytes_length|].
  split; [exact K3|]. split; [by eapply elsewhere_trans, elsewhere_trans|].
  exists pre, r1, r2, r3. split; [done|]. split; [done|]. split; [done|].
  rewrite V3. unfold torn. by rewrite <- !app_assoc.
Qed.
End cut.

(** A torn header that is not a sentinal is the header of an entry. *)
Lemma torn_entry n h d : entry_ok (Entry h d) -> (2 <= n)%nat ->
  is_sentinal (header_at (torn n h)) = false -> entry_ok (Entry (header_at (torn n h)) d).
Proof.
  intros (Hw&_&Hd) Hn Hs. split; [apply header_of_wf|]. split; [done|].
  cbn [e_hdr e_data] in *. by rewrite torn_header.
Qed.

(** C2. Saving a new variable is safe against a loss of power: cut after any
    byte of its three writes, the area is again a record that the search can
    walk, of all the entries there were, in their order; nothing is added before
    the second byte of the header is written, the entry once all is written, and
    in between at most an entry with the data and the key and type of the
    variable, whose group id may be the one half written.  Other areas are never
    touched. *)
Theorem param_crash {St} `{HL : HalStorageLaws St} layout (st : St) es h d n :
  area_ok layout StorageParam st -> logged_at (aview layout StorageParam st) es sentinal ->
  entry_ok (Entry h d) -> bytes d -> d <> [] ->
  log_end es + 4 + zlen d + 4 <= zlen (aview layout StorageParam st) ->
  let st' := append_cut layout n st (log_end es) h d in
  let k := (n - 4 - length d)%nat in
  area_ok layout StorageParam st' /\ elsewhere layout st st' /\
  exists es', logged (aview layout StorageParam st') es' /\
    (es' = es \/ es' = es ++ [Entry (header (key_low h) (h_type h) (key_high h) (torn_group k h)) d]) /\
    ((k < 2)%nat -> es' = es) /\
    ((4 <= k)%nat -> st' = append layout st (log_end es) h d /\ es' = es ++ [Entry h d]).
Proof.
  intros Hok Hl He Hdb Hd Hroom st' k.
  destruct (append_cut_view layout n st es h d Hok Hl He Hdb Hroom) as (H1&H2&pre&r1&r2&r3&Hp&Hr1&Hr2&Hv).
  split; [exact H1|]. split; [exact H2|]. fold k in Hv. fold st' in Hv. pose proof Hl as (Hes&_). pose proof He as (Hw&Hsent&_).
  assert (Hstay : is_sentinal (header_at (torn k h)) = true -> logged (aview layout StorageParam st') es).
  { intros Hs. exists (header_at (torn k h)). split; [done|]. split; [apply header_of_wf|]. split; [done|].
    eexists pre, _. split; [done|].
    by rewrite header_bytes_at by (apply torn_length || apply torn_bytes). }
  destruct (decide (k < 2)%nat) as [Hk|Hk].
  { exists es. split; [|split; [by left|split; [done|lia]]]. apply Hstay.
    destruct k as [|[|]]; [done|apply torn_one|lia]. }
  rewrite <- torn_header by (done || lia).
  assert (Hall : (4 <= k)%nat -> header_at (torn k h) = h /\ st' = append layout st (log_end es) h d).
  { intros Hk4. split; [|apply append_cut_all; [done|lia]].
    unfold torn. rewrite take_ge, drop_ge, app_nil_r by (rewrite header_bytes_length; lia).
    by apply header_at_bytes. }
  destruct (is_sentinal (header_at (torn k h))) eqn:Hs.
  - exists es. split; [by apply Hstay|]. split; [by left|]. split; [done|]. intros Hk4.
    destruct (Hall Hk4) as [E _]. simpl in *. congruence.
  - exists (es ++ [Entry (header_at (torn k h)) d]). split; [|split; [by right|split; [lia|]]].
    + exists sentinal. split; [apply Forall_app; split; [done|]; apply Forall_singleton; apply torn_entry; (done || lia)|].
      split; [apply sentinal_wf|]. split; [done|]. exists pre, r3. split; [done|].
      rewrite Hv, entries_app, (entries_cons (Entry _ _) []). unfold entry_bytes. cbn [e_hdr e_data].
      change (log_bytes []) with (@nil Z).
      rewrite header_bytes_at by (apply torn_length || apply torn_bytes).
      rewrite (take_ge d), (drop_ge r1), (take_ge (header_bytes _)), (drop_ge r2), !app_nil_r
        by (rewrite ?header_bytes_length; lia).
      by rewrite <- !app_assoc.
    + intros Hk4. destruct (Hall Hk4) as [-> ->]. done.
Qed.

(** The float at 0x200, saved with all but the last two bytes of its header. *)
Lemma param_crash_witness :
  let h := make_header AP_PARAM_FLOAT 300 0 in
  exists es', logged (aview param_layout StorageParam
      (append_cut param_layout 10 erased (log_end []) h [1; 2; 3; 4])) es' /\
    (es' = [] \/ es' = [Entry (header 44 4 1 252) [1; 2; 3; 4]]).
Proof.
  intros h.
  destruct (param_crash param_layout erased [] h [1; 2; 3; 4] 10) as (_&_&es'&H1&H2&_).
  - apply param_board. vm_compute. reflexivity.
  - apply erased_logged.
  - split; [apply make_header_wf|split; reflexivity].
  - by repeat (constructor; [lia|]).
  - discriminate.
  - vm_compute. discriminate.
  - exists es'. split; [exact H1|exact H2].
Defined.
