(* ===== verification/ParamProperties.v ===== *)
(** What the parameters promise: the record set up, a variable saved, loaded by
    itself and with all the others after a reboot, and its default. *)
From S2P Require Import Prelude Float32 Storage StorageView Param ParamLog ParamTables ParamSpec ParamDemo.
Open Scope urus_scope.
Import StorageManager AP_Param.
#[local] Abbreviation length := (@Datatypes.length _).

(** * Memory *)
Lemma mem_read_write m a bs : mem_read (mem_write m a bs) a (zlen bs) = bs.
Proof.
  unfold mem_read, mem_write. apply list_eq. intros i. rewrite list_lookup_fmap, Nat2Z.id.
  destruct (decide (i < length bs)%nat) as [Hi|Hi].
  - rewrite lookup_seq_lt by done. simpl.
    rewrite (proj2 (Z.leb_le _ _)), (proj2 (Z.ltb_lt _ _)) by lia. simpl.
    replace (Z.to_nat (a + Z.of_nat i - a)) with i by lia.
    destruct (lookup_lt_is_Some_2 bs i Hi) as [x Hx]. rewrite Hx. f_equal.
    by apply nth_lookup_Some.
  - rewrite lookup_seq_ge by lia. by rewrite lookup_ge_None_2 by lia.
Qed.

(** Two ranges of bytes with nothing in common. *)
Definition apart (a n b k : Z) : Prop := a + n <= b \/ b + k <= a.

Lemma mem_read_apart m a n b bs : 0 <= n -> apart a n b (zlen bs) ->
  mem_read (mem_write m b bs) a n = mem_read m a n.
Proof.
  intros Hn Hap. unfold mem_read. apply map_ext_in. intros k Hk%in_seq. unfold mem_write.
  destruct (Z.leb_spec b (a + Z.of_nat k)), (Z.ltb_spec (a + Z.of_nat k) (b + zlen bs)); try done.
  unfold apart in Hap. lia.
Qed.

(** * Restoring *)
Section restore.
Context (_var_info : list Info) (deref : Z -> Z) (table_at : Z -> option (list GroupInfo)).
Abbreviation home := (find_by_header _var_info deref table_at).

Lemma restore_apart es : forall m a n, 0 <= n ->
  Forall (fun e => forall b, home (e_hdr e) = Some b -> apart a n b (zlen (e_data e))) es ->
  mem_read (restore _var_info deref table_at es m) a n = mem_read m a n.
Proof.
  induction es as [|e es IH]; intros m a n Hn Hes; [done|]. apply Forall_cons in Hes as [He Hes].
  cbn [restore foldl]. fold (restore _var_info deref table_at es (restore_entry _var_info deref table_at m e)).
  rewrite IH by done. unfold restore_entry. destruct (home (e_hdr e)) as [b|]; [|done].
  by apply mem_read_apart; auto.
Qed.

(** A value is restored, if no other value goes to its bytes. *)
Lemma restore_value es m h a d : NoDup (e_hdr <$> es) -> value es h = Some d -> home h = Some a ->
  (forall h' b d', h' <> h -> value es h' = Some d' -> home h' = Some b -> apart a (zlen d) b (zlen d')) ->
  mem_read (restore _var_info deref table_at es m) a (zlen d) = d.
Proof.
  intros Hn Hv Ha Hap. destruct (value_split _ _ _ Hv) as (es1&d0&es2&->&_&Hn1).
  assert (d0 = d) as ->.
  { rewrite value_app, Hn1 in Hv. unfold value in Hv. simpl in Hv.
    rewrite bool_decide_true in Hv by done. by injection Hv. }
  assert (E : restore _var_info deref table_at (es1 ++ Entry h d :: es2) m =
    restore _var_info deref table_at es2 (mem_write (restore _var_info deref table_at es1 m) a d)).
  { unfold restore. rewrite foldl_app. cbn [foldl]. unfold restore_entry at 2. cbn [e_hdr e_data].
    by rewrite Ha. }
  rewrite E. clear E.
  rewrite restore_apart; [apply mem_read_write|lia|].
  apply Forall_forall. intros e He b Hb. eapply Hap; [|by apply value_entry; [done|set_solver]|done].
  intros E. rewrite fmap_app, fmap_cons in Hn. apply NoDup_app in Hn as (_&_&Hn).
  apply NoDup_cons in Hn as [Hx _]. apply Hx. cbn [e_hdr].
  rewrite <- E. by apply (list_elem_of_fmap_2 e_hdr).
Qed.
End restore.

(** [setup] leaves a record: with the magic bytes and the revision of this
    firmware at the start of the area nothing is written; with anything else
    there, the area is erased to a record of no variables.  Nothing outside the
    parameter area changes. *)
Theorem param_setup {St} `{HL : HalStorageLaws St} layout (st : St) junk :
  area_ok layout StorageParam st -> 8 <= zlen (cells layout StorageParam) -> length junk = 4%nat ->
  let st' := setup layout junk st in
  area_ok layout StorageParam st' /\ elsewhere layout st st' /\
  if decide (take 3 (aview layout StorageParam st) = [0x50; 0x41; 6]) then st' = st
  else logged_at (aview layout StorageParam st') [] sentinal.
Proof.
  intros Hok H8 Hj st'. pose proof (aview_length layout StorageParam st) as Hlen.
  unfold st', setup. destruct (aview layout StorageParam st) as [|b0 [|b1 [|b2 [|b3 rest]]]] eqn:Hv;
    try (simpl in Hlen; lia).
  assert (Hr : read_into layout st junk 0 = [b0; b1; b2; b3]).
  { by apply (read_into_at layout st junk [] _ rest); rewrite ?Hj. }
  rewrite Hr. cbn [nth take]. change k_EEPROM_magic0 with 0x50. change k_EEPROM_magic1 with 0x41.
  change k_EEPROM_revision with 6.
  destruct (negb _ || negb _ || negb _) eqn:Hm.
  - rewrite decide_False.
    2:{ intros [= -> -> ->]. by simpl in Hm. }
    unfold erase_all, write_sentinal. fold sentinal.
    destruct (write_check layout st 0 [0x50; 0x41; 6; 0]) as (K1&V1&O1);
      [done|by repeat (constructor; [lia|])|done|done|rewrite aview_length; simpl; lia|].
    set (st1 := eeprom_write_check layout st _ _) in *.
    destruct (write_check layout st1 4 (header_bytes sentinal)) as (K2&V2&O2);
      [done|apply le_bytes_bytes|done|done|rewrite aview_length, header_bytes_length; lia|].
    split; [exact K2|]. split; [by eapply elsewhere_trans|].
    split; [constructor|]. split; [apply sentinal_wf|]. split; [done|].
    destruct rest as [|b4 [|b5 [|b6 [|b7 rest]]]]; try (simpl in Hlen; lia).
    exists [0x50; 0x41; 6; 0], rest. split; [done|]. by rewrite V2, V1, Hv.
  - split; [done|]. split; [done|]. apply orb_false_iff in Hm as [Hm H2].
    apply orb_false_iff in Hm as [H0 H1]. apply negb_false_iff, Z.eqb_eq in H0, H1, H2. subst.
    by rewrite decide_True.
Qed.

Lemma param_setup_witness :
  logged_at (aview param_layout StorageParam (setup param_layout junk4 (replicate 200 7))) [] sentinal.
Proof.
  destruct (param_setup param_layout (replicate 200 7) junk4) as (_&_&Hl).
  - apply param_board. reflexivity.
  - vm_compute. discriminate.
  - reflexivity.
  - rewrite decide_False in Hl; [exact Hl|]. vm_compute. discriminate.
Defined.

(** C24. [save] refines the change of one value in a record of values: the
    variable's bytes are recorded under its header, in the place of the old ones
    or at the end, and no other value, no memory and no other area changes; or
    nothing is written, because a scalar that is not recorded is as good as its
    default, or, and only then [false] is returned, because the record is full.
    The scan always ends. *)
Theorem param_save {St} `{HL : HalStorageLaws St} layout _var_info deref table_at junk force this f
    (s : t St) es h0 :
  length junk = 4%nat -> mem_bytes (mem s) -> area_ok layout StorageParam (_storage s) ->
  logged_at (aview layout StorageParam (_storage s)) es h0 ->
  variable _var_info deref table_at this f ->
  exists b s', save _var_info deref table_at layout junk force this s = Done (b, s') /\
    mem s' = mem s /\ param_overrides s' = param_overrides s /\
    ((b = true /\ area_ok layout StorageParam (_storage s') /\
      elsewhere layout (_storage s) (_storage s') /\
      exists es', logged (aview layout StorageParam (_storage s')) es' /\
        forall h, value es' h = if decide (h = found_header f) then Some (data_of s this f)
                                else value es h) \/
     (_storage s' = _storage s /\ value es (found_header f) = None /\
      if b then force = false /\ found_type f <= AP_PARAM_FLOAT /\
                same_as_default (found_type f) (cast_to_float (found_type f) this (mem s))
                  (get_default_value s this (found_default f)) = true
      else size layout <= log_end es + var_size f + 8)).
Proof.
  intros Hj Hm Hok Hl Hv.
  destruct (save_spec layout _var_info deref table_at junk force this f s es h0 Hj Hm Hok Hl Hv)
    as (b&s'&Hs&Hmem&Ho&Hcase).
  exists b, s'. split; [exact Hs|]. split; [exact Hmem|]. split; [exact Ho|].
  destruct Hcase as [(Hb&Hok'&He&h0'&Hl')|Hcase]; [left|by right].
  split; [done|]. split; [done|]. split; [done|].
  eexists. split; [by exists h0'|]. intros h. apply value_put.
Qed.

(** The third element of the vector at 0x204 saves the whole vector. *)
Lemma param_save_witness : exists b s',
  save demo_vars demo_deref demo_tables param_layout junk4 false 0x20C demo_state = Done (b, s') /\
  mem s' = demo_mem.
Proof.
  destruct (param_save param_layout demo_vars demo_deref demo_tables junk4 false 0x20C
    (demo_found 0x20C) demo_state [] sentinal) as (b&s'&H1&H2&_).
  - reflexivity.
  - apply demo_mem_bytes.
  - apply param_board. vm_compute. reflexivity.
  - apply erased_logged.
  - apply demo_variable; vm_compute; reflexivity.
  - exists b, s'. split; [exact H1|exact H2].
Defined.

(** The values after [d] was recorded for [h]. *)
Definition recorded (es : list entry) (h : Param_header) (d : list Z) (h' : Param_header) :
  option (list Z) := if decide (h' = h) then Some d else value es h'.

Lemma tables_sized table_at deref _var_info es : check_var_info _var_info table_at = true ->
  Forall (info_wf table_at) _var_info -> Forall entry_ok es ->
  Forall (sized _var_info deref table_at) es.
Proof.
  intros Hc Hwf Hes. eapply Forall_impl; [exact Hes|]. intros e (_&_&Hd) Hf. rewrite Hd.
  destruct (find_by_header _ _ _ _) as [a|] eqn:Ha; [|done].
  by apply (header_sized deref table_at _var_info _ a Hwf true 4).
Qed.

(** What loading does with a record. *)
Lemma reload_spec {St} `{HL : HalStorageLaws St} layout _var_info deref table_at junk defaults
    (s2 : t St) es h0 :
  length junk = 4%nat -> area_ok layout StorageParam (_storage s2) ->
  _storage (defaults s2) = _storage s2 ->
  logged_at (aview layout StorageParam (_storage s2)) es h0 -> NoDup (e_hdr <$> es) ->
  check_var_info _var_info table_at = true -> Forall (info_wf table_at) _var_info ->
  (forall this f d, variable _var_info deref table_at this f -> value es (found_header f) = Some d ->
     load _var_info deref table_at layout junk this s2 =
       Done (true, set_mem s2 (mem_write (mem s2) (var_addr this f) d))) /\
  exists s3, load_all _var_info deref table_at layout junk defaults s2 = Done (true, s3) /\
    forall h a d, value es h = Some d -> find_by_header _var_info deref table_at h = Some a ->
      (forall h' b d', h' <> h -> value es h' = Some d' -> find_by_header _var_info deref table_at h' = Some b ->
         apart a (zlen d) b (zlen d')) ->
      mem_read (mem s3) a (zlen d) = d.
Proof.
  intros Hj Hok Hdef Hl Hn Hc Hwf. split.
  - intros this f d Hv Hd. by apply (load_spec layout _var_info deref table_at junk this f s2 es h0).
  - eexists. split.
    { apply (load_all_spec layout _var_info deref table_at junk defaults s2 es h0); try done.
      apply tables_sized; [done|done|apply Hl]. }
    intros h a d Hd Ha Hap. cbn [set_mem mem]. by apply (restore_value _var_info deref table_at es _ h a d).
Qed.

(** What a forced [save] leaves. *)
Lemma save_forced {St} `{HL : HalStorageLaws St} layout _var_info deref table_at junk this f (s s' : t St) es h0 :
  length junk = 4%nat -> mem_bytes (mem s) -> area_ok layout StorageParam (_storage s) ->
  logged_at (aview layout StorageParam (_storage s)) es h0 ->
  variable _var_info deref table_at this f ->
  save _var_info deref table_at layout junk true this s = Done (true, s') ->
  area_ok layout StorageParam (_storage s') /\
  exists h0', logged_at (aview layout StorageParam (_storage s')) (put es (found_header f) (data_of s this f)) h0'.
Proof.
  intros Hj Hm Hok Hl Hv Hs.
  destruct (save_spec layout _var_info deref table_at junk true this f s es h0 Hj Hm Hok Hl Hv)
    as (b&s1&Hs1&_&_&Hcase).
  rewrite Hs in Hs1. injection Hs1 as <- <-.
  destruct Hcase as [(_&Hok'&_&h0'&Hl')|(_&_&?&_)]; [|done]. split; [done|by exists h0'].
Qed.

Lemma recorded_put es h d h' : recorded es h d h' = value (put es h d) h'.
Proof. symmetry. apply value_put. Qed.

(** C5. A saved parameter survives a reboot: when [save] with [force] says
    [true], then from any storage with the bytes it leaves (after a reboot, say),
    whatever is in memory, [load] of the
    variable restores its bytes and [load] of any other recorded variable still
    restores its own; and [load_all] ends with [true] and restores every recorded
    variable whose bytes belong to no other one. *)
Theorem param_reload {St} `{HL : HalStorageLaws St} layout _var_info deref table_at junk this f
    (s s' s2 : t St) es h0 defaults :
  length junk = 4%nat -> mem_bytes (mem s) -> area_ok layout StorageParam (_storage s) ->
  logged_at (aview layout StorageParam (_storage s)) es h0 -> NoDup (e_hdr <$> es) ->
  variable _var_info deref table_at this f ->
  check_var_info _var_info table_at = true -> Forall (info_wf table_at) _var_info ->
  save _var_info deref table_at layout junk true this s = Done (true, s') ->
  area_ok layout StorageParam (_storage s2) ->
  aview layout StorageParam (_storage s2) = aview layout StorageParam (_storage s') ->
  _storage (defaults s2) = _storage s2 ->
  let now := recorded es (found_header f) (data_of s this f) in
  (forall this' f' d, variable _var_info deref table_at this' f' -> now (found_header f') = Some d ->
     load _var_info deref table_at layout junk this' s2 =
       Done (true, set_mem s2 (mem_write (mem s2) (var_addr this' f') d))) /\
  exists s3, load_all _var_info deref table_at layout junk defaults s2 = Done (true, s3) /\
    forall h a d, now h = Some d -> find_by_header _var_info deref table_at h = Some a ->
      (forall h' b d', h' <> h -> now h' = Some d' -> find_by_header _var_info deref table_at h' = Some b ->
         apart a (zlen d) b (zlen d')) ->
      mem_read (mem s3) a (zlen d) = d.
Proof.
  intros Hj Hm Hok Hl Hn Hv Hc Hwf Hs Hok2 Hs2 Hdef now.
  destruct (save_forced layout _var_info deref table_at junk this f s s' es h0 Hj Hm Hok Hl Hv Hs)
    as (_&h0'&Hl').
  rewrite <- Hs2 in Hl'.
  destruct (reload_spec layout _var_info deref table_at junk defaults s2 _ h0' Hj Hok2 Hdef Hl')
    as [Hload (s3&Hs3&Hall)]; [by apply put_NoDup|done|done|].
  split; [intros this' f' d Hv' Hd; apply Hload; [done|by rewrite <- recorded_put]|].
  exists s3. split; [done|]. intros h a d Hd Ha Hap. unfold now in *. rewrite recorded_put in Hd.
  apply (Hall h); [done|done|]. intros h' b d' Hne Hd' Hb. apply (Hap h' b d'); [done| |done].
  by rewrite recorded_put.
Qed.

Definition demo_saved : t (list Z) :=
  match save demo_vars demo_deref demo_tables param_layout junk4 true 0x204 demo_state with
  | Done (_, s) => s
  | _ => demo_state
  end.

(** The vector at 0x204 is saved, and comes back to a memory of zeros. *)
Lemma param_reload_witness :
  let s2 := set_mem demo_saved (fun _ => 0) in
  exists s3, load_all demo_vars demo_deref demo_tables param_layout junk4 id s2 = Done (true, s3) /\
    mem_read (mem s3) 0x204 12 = mem_read demo_mem 0x204 12.
Proof.
  intros s2.
  destruct (param_reload param_layout demo_vars demo_deref demo_tables junk4 0x204 (demo_found 0x204)
    demo_state demo_saved s2 [] sentinal id) as (_&s3&Hs3&Hd).
  - reflexivity.
  - apply demo_mem_bytes.
  - apply param_board. vm_compute. reflexivity.
  - apply erased_logged.
  - constructor.
  - apply demo_variable; vm_compute; reflexivity.
  - reflexivity.
  - apply demo_vars_wf.
  - vm_compute. reflexivity.
  - apply param_board. vm_compute. reflexivity.
  - reflexivity.
  - reflexivity.
  - exists s3. split; [exact Hs3|].
    apply (Hd (found_header (demo_found 0x204)) 0x204 (data_of demo_state 0x204 (demo_found 0x204))).
    + unfold recorded. by rewrite decide_True.
    + reflexivity.
    + intros h' b d' Hne. unfold recorded. by rewrite decide_False.
Defined.

(** [load] of a variable that is not recorded sets it to its default (the
    override of the defaults file if there is one) and says [false], when the
    groups it is in are embedded in one object: the offsets added up are where it
    is.  A default that its integer type cannot hold has no defined value. *)
Theorem param_load_default {St} `{HL : HalStorageLaws St} layout _var_info deref table_at junk this f
    (s : t St) es h0 :
  length junk = 4%nat -> area_ok layout StorageParam (_storage s) ->
  logged_at (aview layout StorageParam (_storage s)) es h0 ->
  variable _var_info deref table_at this f -> value es (found_header f) = None ->
  Forall embedded (nesting f) -> vec_idx f = 0 ->
  load _var_info deref table_at layout junk this s =
    match set_value (found_type f) this (get_default_value s this (found_default f)) (mem s) with
    | Some m => Done (false, set_mem s m)
    | None => Undefined
    end.
Proof.
  intros Hj Hok Hl Hv Hnone Hemb Hidx. pose proof (variable_header _ _ _ _ _ Hv) as (Hw&Hty&_).
  pose proof Hv as (Hfind&_&Hsent&_). unfold load. rewrite Hfind, (scan_log layout _ es h0) by done.
  apply position_value in Hnone. rewrite Hnone. cbn [mbind outcome_bind negb].
  destruct (var_placed deref table_at this _ f Hfind) as (base&->&Hplace).
  specialize (Hplace Hemb). rewrite Hidx in Hplace. rewrite Hty.
  assert (E : match ginfo f with
    | Some g => base + offset g + foldr (fun g n => offset g + n) 0 (nesting f)
    | None => base end = this) by (unfold offsets in Hplace; lia).
  rewrite E. by destruct (set_value _ _ _ _).
Qed.

Lemma param_load_default_witness :
  exists m, load demo_vars demo_deref demo_tables param_layout junk4 0x210 demo_state =
    Done (false, set_mem demo_state m) /\ mem_read m 0x210 1 = [5].
Proof.
  eexists. split.
  - rewrite (param_load_default param_layout demo_vars demo_deref demo_tables junk4 0x210
      (demo_found 0x210) demo_state [] sentinal); try reflexivity.
    + apply param_board. vm_compute. reflexivity.
    + apply erased_logged.
    + apply demo_variable; vm_compute; reflexivity.
    + apply Forall_singleton. left. reflexivity.
  - vm_compute. reflexivity.
Defined.

(** In a group behind a pointer the default goes to the pointer: the variable at
    0x300 of the object that 0x220 points to is not set, the byte at 0x220 is. *)
Lemma load_default_behind_pointer :
  exists m, load demo_vars demo_deref demo_tables param_layout junk4 0x300 demo_state =
    Done (false, set_mem demo_state m) /\
    m 0x300 = demo_mem 0x300 /\ m 0x220 = 5 /\ demo_mem 0x220 <> 5.
Proof.
  eexists. split; [vm_compute; reflexivity|]. split; [vm_compute; reflexivity|].
  split; [vm_compute; reflexivity|vm_compute; discriminate].
Qed.

(** The group id 255, of row 63 and row 3 below it, is taken for a sentinal: a
    variable of this id is never found again. *)
Lemma sentinal_variable key type : is_sentinal (make_header type key (63 + 3 * 64)) = true.
Proof.
  unfold is_sentinal. cbn [make_header set_key group_element h_type].
  change (_ mod 2 ^ 18 =? _sentinal_group) with true. by rewrite orb_true_r.
Qed.
