(* ===== verification/ParamStack.v ===== *)
(** The parameters down to the flash: AP_Param over StorageManager over the
    ChibiOS storage driver over AP_FlashStorage. *)
From S2P Require Import Prelude Float32 Storage StorageView FlashStorage FlashLog FlashSpec FlashProperties.
From S2P Require Import HalStorage HalStorageSpec Param ParamLog ParamTables ParamSpec ParamDemo ParamProperties.
Open Scope urus_scope.
Import StorageManager AP_Param ChibiOSSpec.
#[local] Abbreviation length := (@Datatypes.length _).

Section stack.
Context {F : Type} {sector_size : Z} `{FlashReliable F sector_size}.
Context (CH_STORAGE_SIZE : Z) (Hsizes : sizes_ok CH_STORAGE_SIZE sector_size).
#[local] Instance HS : HalStorage (ChibiOS.t F) := chibios_storage CH_STORAGE_SIZE sector_size.
#[local] Instance kept : HalStorageLaws (ChibiOS.t F) := chibios_laws CH_STORAGE_SIZE Hsizes.
Context (layout : list StorageArea).

(** The parameter area of an open driver, for reading. *)
Lemma area_opened (d d' : ChibiOS.t F) : area_ok layout StorageParam d ->
  opened CH_STORAGE_SIZE d' -> ChibiOS._buffer d' = ChibiOS._buffer d ->
  area_ok (HL := opened_laws CH_STORAGE_SIZE Hsizes) layout StorageParam d' /\
  aview (HL := opened_laws CH_STORAGE_SIZE Hsizes) layout StorageParam d' = aview layout StorageParam d.
Proof.
  intros (_&Hl&Ht&Hs) Ho Hb. unfold area_ok, aview in *. cbn [hs_img hs_ok opened_laws kept chibios_laws] in *.
  rewrite Hb. done.
Qed.
End stack.


(** * A board

    The board of the driver's examples, all of its storage parameter area. *)
Definition board_layout : list StorageArea := [area StorageParam 0 64].
#[local] Instance board_storage : HalStorage (ChibiOS.t FlashTest.t) := chibios_storage 64 256.
Definition board : ChibiOS.t FlashTest.t := erase_all board_layout blank_board.
Definition board_state : AP_Param.t (ChibiOS.t FlashTest.t) := mk board demo_mem 0 [].
Definition board_laws : HalStorageLaws (ChibiOS.t FlashTest.t) :=
  chibios_laws (H0 := disarmed) 64 small_sizes.

Lemma board_ok : area_ok (HL := board_laws) board_layout StorageParam board.
Proof.
  assert (H0 : area_ok (HL := board_laws) board_layout StorageParam blank_board).
  { split; [split; [apply blank_opened|apply blank_synced]|]. split; [split|split].
    - repeat constructor; simpl; lia.
    - by apply ordered_NoDup.
    - reflexivity.
    - vm_compute. split; [discriminate|reflexivity]. }
  unfold board, erase_all, write_sentinal. fold sentinal.
  destruct (write_check (HL := board_laws) board_layout blank_board 0 [0x50; 0x41; 6; 0]) as (K1&V1&O1);
    [done|by repeat (constructor; [lia|])|done|done|vm_compute; discriminate|].
  destruct (write_check (HL := board_laws) board_layout
    (eeprom_write_check board_layout blank_board [0x50; 0x41; 6; 0] 0) 4 (header_bytes sentinal)) as (K2&V2&O2);
    [done|apply le_bytes_bytes|done|done|vm_compute; discriminate|].
  exact K2.
Qed.

Lemma board_logged : logged_at (aview (HL := board_laws) board_layout StorageParam board) [] sentinal.
Proof.
  split; [constructor|]. split; [apply sentinal_wf|]. split; [reflexivity|].
  exists [0x50; 0x41; 6; 0], (replicate 56 0). split; [reflexivity|]. vm_compute. reflexivity.
Qed.

Definition board_saved : AP_Param.t (ChibiOS.t FlashTest.t) :=
  match save demo_vars demo_deref demo_tables board_layout junk4 true 0x204 board_state with
  | Done (_, s) => s
  | _ => board_state
  end.

