(* ===== verification/Scheduler.v ===== *)
(** The task scheduler of the main loop: libraries/AP_Scheduler
    (AP_Scheduler.{h,cpp} and PerfInfo.{h,cpp}).

    The board is a parameter: its clock, which advances as the code runs, the
    tasks of the table and the fast loop.  Literals are single precision, as the
    boards' build flags make them (-fsingle-precision-constant).  [None] is
    undefined behaviour: a division by zero or a conversion out of range.  The
    debug messages, the performance counters of the operating system and the log
    message are left out. *)
From S2P Require Import Prelude Float32.
Open Scope urus_scope.

(** What the scheduler uses of the board and of the vehicle. *)
Class Board (W : Type) := {
  micros : W -> Z * W;
  wait_for_sample : W -> W;          (* AP::ins().wait_for_sample() *)
  fastloop_fn : option (W -> W);     (* _fastloop_fn *)
  task_fn : Z -> W -> W;             (* _tasks[i].function() *)
  num_dropped : W -> option Z        (* DataFlash_Class::instance()->num_dropped() *)
}.

(** * AP::PerfInfo *)
Module PerfInfo.
Record t := mk {
  loop_rate_hz : Z;
  overtime_threshold_micros : Z;
  loop_count : Z;
  max_time : Z;
  min_time : Z;
  sigma_time : Z;
  sigmasquared_time : Z;
  long_running : Z;
  log_dropped : Z;
  last_check_us : Z;
  filtered_loop_time : spec_float;
  ignore_loop : bool
}.

Definition create : t := mk 0 0 0 0 0 0 0 0 0 0 (f32_of_Z 0) false.

(** [dropped] is the count of the log, when there is one. *)
Definition reset (p : t) (dropped : option Z) : t :=
  mk (loop_rate_hz p) (overtime_threshold_micros p) 0 0 0 0 0 0
    (match dropped with None => 0xFFFFFFFF | Some n => n end)
    (last_check_us p) (filtered_loop_time p) (ignore_loop p).

Definition ignore_this_loop (p : t) : t :=
  mk (loop_rate_hz p) (overtime_threshold_micros p) (loop_count p) (max_time p) (min_time p)
    (sigma_time p) (sigmasquared_time p) (long_running p) (log_dropped p) (last_check_us p)
    (filtered_loop_time p) true.

Definition f99 := (f32_of_Z 99 / f32_of_Z 100)%f32.         (* 0.99f *)
Definition f01 := (f32_of_Z 1 / f32_of_Z 100)%f32.          (* 0.01f *)
Definition micro := (f32_of_Z 1 / f32_of_Z 1000000)%f32.    (* 1.0e-6f *)
Definition f12 := (f32_of_Z 12 / f32_of_Z 10)%f32.          (* 1.2f *)

(** [check_loop_time]; [now] is the clock, read when the loop is not ignored. *)
Definition check_loop_time (p : t) (time_in_micros now : Z) : t :=
  let count := u16 (loop_count p + 1) in
  if ignore_loop p then
    mk (loop_rate_hz p) (overtime_threshold_micros p) count (max_time p) (min_time p)
      (sigma_time p) (sigmasquared_time p) (long_running p) (log_dropped p) (last_check_us p)
      (filtered_loop_time p) false
  else
    let max := if time_in_micros >? max_time p then time_in_micros else max_time p in
    let min := if (min_time p =? 0) || (time_in_micros <? min_time p)
               then time_in_micros else min_time p in
    let long := if time_in_micros >? overtime_threshold_micros p
                then u16 (long_running p + 1) else long_running p in
    let sigma := u64 (sigma_time p + time_in_micros) in
    let sigmasquared := u64 (sigmasquared_time p + u32 (time_in_micros * time_in_micros)) in
    let loop_time_us := u32 (now - last_check_us p) in
    let filtered :=
      if loop_time_us <? overtime_threshold_micros p + 10000
      then (f99 * filtered_loop_time p + f01 * f32_of_Z loop_time_us * micro)%f32
      else filtered_loop_time p in
    mk (loop_rate_hz p) (overtime_threshold_micros p) count max min sigma sigmasquared long
      (log_dropped p) now filtered false.

Definition get_num_loops (p : t) : Z := loop_count p.
Definition get_max_time (p : t) : Z := max_time p.
Definition get_min_time (p : t) : Z := min_time p.
Definition get_num_long_running (p : t) : Z := long_running p.
Definition get_num_dropped (p : t) : Z := log_dropped p.
Definition get_filtered_time (p : t) : spec_float := filtered_loop_time p.

Definition get_avg_time (p : t) : option Z :=
  if loop_count p =? 0 then None else Some (u32 (sigma_time p / loop_count p)).

Definition get_stddev_time (p : t) : option Z :=
  if loop_count p =? 0 then None
  else sqrt_to_uint32
    (u64 (sigmasquared_time p - u64 (sigma_time p * sigma_time p) / loop_count p) / loop_count p).

Definition set_loop_rate (p : t) (rate_hz : Z) : option t :=
  if rate_hz =? 0 then None
  else
    threshold ← f32_to_uint16 (f32_of_Z (1000000 / rate_hz) * f12)%f32;
    let '(rate, filtered) :=
      if negb (loop_rate_hz p =? rate_hz)
      then (rate_hz, (f32_of_Z 1 / f32_of_Z rate_hz)%f32)
      else (loop_rate_hz p, filtered_loop_time p) in
    Some (mk rate threshold (loop_count p) (max_time p) (min_time p) (sigma_time p)
            (sigmasquared_time p) (long_running p) (log_dropped p) (last_check_us p)
            filtered (ignore_loop p)).
End PerfInfo.

(** * AP_Scheduler *)
Module Scheduler.
(** A row of the table: [function] is [task_fn] of the row's number. *)
Record Task := task { rate_hz : spec_float; max_time_micros : Z }.

Section scheduler.
Context {W : Type} `{Board W}.

Record t := mk {
  perf_info : PerfInfo.t;
  _loop_rate_hz : Z;           (* parameters, int16_t *)
  _active_loop_rate_hz : Z;
  _loop_period_us : Z;
  _loop_period_s : spec_float;
  _tasks : list Task;
  _tick_counter : Z;
  _last_run : list Z;
  current_task : Z;
  _task_time_allowed : Z;
  _task_time_started : Z;
  _spare_micros : Z;
  _spare_ticks : Z;
  _loop_timer_start_us : Z;
  _last_loop_time_s : spec_float;
  world : W
}.
Implicit Types (s : t).

Definition set_perf s x := mk x (_loop_rate_hz s) (_active_loop_rate_hz s) (_loop_period_us s)
  (_loop_period_s s) (_tasks s) (_tick_counter s) (_last_run s) (current_task s)
  (_task_time_allowed s) (_task_time_started s) (_spare_micros s) (_spare_ticks s)
  (_loop_timer_start_us s) (_last_loop_time_s s) (world s).
Definition set_rates s active us sec := mk (perf_info s) (_loop_rate_hz s) active us sec
  (_tasks s) (_tick_counter s) (_last_run s) (current_task s)
  (_task_time_allowed s) (_task_time_started s) (_spare_micros s) (_spare_ticks s)
  (_loop_timer_start_us s) (_last_loop_time_s s) (world s).
Definition set_table s tasks tick last := mk (perf_info s) (_loop_rate_hz s)
  (_active_loop_rate_hz s) (_loop_period_us s) (_loop_period_s s) tasks tick last
  (current_task s) (_task_time_allowed s) (_task_time_started s) (_spare_micros s)
  (_spare_ticks s) (_loop_timer_start_us s) (_last_loop_time_s s) (world s).
Definition set_task s cur allowed started := mk (perf_info s) (_loop_rate_hz s)
  (_active_loop_rate_hz s) (_loop_period_us s) (_loop_period_s s) (_tasks s)
  (_tick_counter s) (_last_run s) cur allowed started (_spare_micros s)
  (_spare_ticks s) (_loop_timer_start_us s) (_last_loop_time_s s) (world s).
Definition set_spare s micros ticks := mk (perf_info s) (_loop_rate_hz s)
  (_active_loop_rate_hz s) (_loop_period_us s) (_loop_period_s s) (_tasks s)
  (_tick_counter s) (_last_run s) (current_task s) (_task_time_allowed s)
  (_task_time_started s) micros ticks (_loop_timer_start_us s) (_last_loop_time_s s) (world s).
Definition set_timer s start last := mk (perf_info s) (_loop_rate_hz s)
  (_active_loop_rate_hz s) (_loop_period_us s) (_loop_period_s s) (_tasks s)
  (_tick_counter s) (_last_run s) (current_task s) (_task_time_allowed s)
  (_task_time_started s) (_spare_micros s) (_spare_ticks s) start last (world s).
Definition set_world s w := mk (perf_info s) (_loop_rate_hz s)
  (_active_loop_rate_hz s) (_loop_period_us s) (_loop_period_s s) (_tasks s)
  (_tick_counter s) (_last_run s) (current_task s) (_task_time_allowed s)
  (_task_time_started s) (_spare_micros s) (_spare_ticks s) (_loop_timer_start_us s)
  (_last_loop_time_s s) w.

(** [AP_HAL::micros()] *)
Definition clock s : Z * t := let '(now, w) := micros (world s) in (u32 now, set_world s w).

(** The constructor, for the loaded parameter [rate]. *)
Definition create (rate : Z) (w : W) : t :=
  let rate := if rate <? 50 then 50 else if rate >? 2000 then 2000 else rate in
  mk PerfInfo.create rate 0 0 (f32_of_Z 0) [] 0 [] (-1) 0 0 0 0 0
    (f32_of_Z 1 / f32_of_Z rate)%f32 w.

Definition get_loop_rate_hz s : Z * t :=
  let s := if _active_loop_rate_hz s =? 0
           then set_rates s (_loop_rate_hz s) (_loop_period_us s) (_loop_period_s s) else s in
  (u16 (_active_loop_rate_hz s), s).

Definition get_loop_period_us s : option (Z * t) :=
  s ← (if _loop_period_us s =? 0 then
         if _loop_rate_hz s =? 0 then None
         else Some (set_rates s (_active_loop_rate_hz s)
                      (u16 (1000000 / u32 (_loop_rate_hz s))) (_loop_period_s s))
       else Some s);
  Some (_loop_period_us s, s).

Definition get_loop_period_s s : spec_float * t :=
  let s := if is_zero (_loop_period_s s)
           then set_rates s (_active_loop_rate_hz s) (_loop_period_us s)
                  (f32_of_Z 1 / f32_of_Z (_loop_rate_hz s))%f32
           else s in
  (_loop_period_s s, s).

Definition init s (tasks : list Task) : option t :=
  let s := set_table s tasks 0 (replicate (length tasks) 0) in
  let '(rate, s) := get_loop_rate_hz s in
  p ← PerfInfo.set_loop_rate (perf_info s) rate;
  Some (set_perf s (PerfInfo.reset p (num_dropped (world s)))).

Definition tick s : t := set_table s (_tasks s) (u16 (_tick_counter s + 1)) (_last_run s).

(** The number of ticks between two runs of a task. *)
Definition interval_ticks s (a : Task) : option Z :=
  n ← f32_to_uint16 (f32_of_Z (_loop_rate_hz s) / rate_hz a)%f32;
  Some (if n <? 1 then 1 else n).

(** Running task [i]: the state, the clock after it and the time taken. *)
Definition run_task s (i now : Z) : option (t * Z * Z) :=
  let s := set_task s i (_task_time_allowed s) now in
  let s := set_world s (task_fn i (world s)) in
  let s := set_task s (-1) (_task_time_allowed s) (_task_time_started s) in
  last ← arr_set (_last_run s) i (_tick_counter s);
  let s := set_table s (_tasks s) (_tick_counter s) last in
  let '(now, s) := clock s in
  Some (s, now, u32 (now - _task_time_started s)).

(** The loop over the rows [i], [i + 1], ...; the result is the remaining time,
    or [None] after [goto update_spare_ticks]. *)
Fixpoint run_loop (rows : list Task) (i : Z) s (time_available now : Z)
  : option (option Z * t) :=
  match rows with
  | [] => Some (Some time_available, s)
  | a :: rows =>
    last ← arr_get (_last_run s) i;
    let dt := u16 (_tick_counter s - last) in
    interval ← interval_ticks s a;
    if dt >=? interval then
      let s := set_task s (current_task s) (max_time_micros a) (_task_time_started s) in
      if _task_time_allowed s <=? time_available then
        '(s, now, time_taken) ← run_task s i now;
        if time_taken >=? time_available then Some (None, s)
        else run_loop rows (i + 1) s (u32 (time_available - time_taken)) now
      else run_loop rows (i + 1) s time_available now
    else run_loop rows (i + 1) s time_available now
  end.

(** [update_spare_ticks] *)
Definition update_spare s : t :=
  let ticks := u8 (_spare_ticks s + 1) in
  if ticks =? 32 then set_spare s (_spare_micros s / 2) (ticks / 2)
  else set_spare s (_spare_micros s) ticks.

Definition run s (time_available : Z) : option t :=
  let '(now, s) := clock s in
  '(rest, s) ← run_loop (_tasks s) 0 s time_available now;
  let s := match rest with
           | Some time => set_spare s (u32 (_spare_micros s + time)) (_spare_ticks s)
           | None => s
           end in
  Some (update_spare s).

Definition time_available_usec s : Z * t :=
  let '(now, s) := clock s in
  let dt := u32 (now - _task_time_started s) in
  (if dt >? _task_time_allowed s then 0 else u16 (_task_time_allowed s - dt), s).

(** [loop_us - (_spare_micros / _spare_ticks)] *)
Definition used_time s (loop_us : Z) : Z := u32 (loop_us - _spare_micros s / _spare_ticks s).

Definition load_average s : option (spec_float * t) :=
  if _spare_ticks s =? 0 then Some (f32_of_Z 0, s)
  else
    '(loop_us, s) ← get_loop_period_us s;
    Some ((f32_of_Z (used_time s loop_us) / f32_of_Z loop_us)%f32, s).

(** The time [loop] gives to [run]. *)
Definition loop_time_available (sample_time_us loop_us now : Z) : Z :=
  let time_available := u32 (u32 (sample_time_us + loop_us) - now) in
  if time_available >? loop_us then 0 else time_available.

(** [perf_info.check_loop_time], which reads the clock unless the loop is
    ignored. *)
Definition check_loop s (time : Z) : t :=
  let '(now, s) := if PerfInfo.ignore_loop (perf_info s) then (0, s) else clock s in
  set_perf s (PerfInfo.check_loop_time (perf_info s) time now).

Definition loop s : option t :=
  let s := set_world s (wait_for_sample (world s)) in
  let '(sample_time_us, s) := clock s in
  let s := if _loop_timer_start_us s =? 0 then
             let '(sec, s) := get_loop_period_s s in set_timer s sample_time_us sec
           else set_timer s (_loop_timer_start_us s)
                  (f32_of_Z (u32 (sample_time_us - _loop_timer_start_us s)) * PerfInfo.micro)%f32 in
  let s := match fastloop_fn with Some f => set_world s (f (world s)) | None => s end in
  let s := tick s in
  '(loop_us, s) ← get_loop_period_us s;
  let '(now, s) := clock s in
  s ← run s (loop_time_available sample_time_us loop_us now);
  let s := check_loop s (u32 (sample_time_us - _loop_timer_start_us s)) in
  Some (set_timer s sample_time_us (_last_loop_time_s s)).

(** [update_logging], without the messages. *)
Definition update_logging s : option t :=
  let '(rate, s) := get_loop_rate_hz s in
  p ← PerfInfo.set_loop_rate (perf_info s) rate;
  Some (set_perf s (PerfInfo.reset p (num_dropped (world s)))).
End scheduler.
Arguments t : clear implicits.
End Scheduler.
