(* ===== verification/SchedulerSpec.v ===== *)
(** The task scheduler: the time budget of a run, which tasks run, the bounds of
    the load average, and the loop statistics. *)
From S2P Require Import Prelude Float32 Scheduler.
Open Scope urus_scope.
Import Scheduler.

(** A board with a time in microseconds: reading the clock gives it modulo 2^32
    and takes no time; the tasks do. *)
Class BoardLaws (W : Type) `{Board W} := {
  time_of : W -> Z;
  micros_law w : micros w = (time_of w mod 4294967296, w);
  task_fn_law i w : time_of w <= time_of (task_fn i w)
}.

Section scheduler.
Context {W : Type} `{BW : BoardLaws W}.
Implicit Types (s : Scheduler.t W).

(** A task of the rows [i], [i + 1], ... takes at most its time. *)
Definition obeys (rows : list Task) (i : Z) : Prop :=
  forall k a w, rows !! k = Some a ->
    time_of (task_fn (i + Z.of_nat k) w) - time_of w <= max_time_micros a.

Definition limits (rows : list Task) : Prop :=
  Forall (fun a => 0 <= max_time_micros a < 65536) rows.

Lemma obeys_cons a rows i : obeys (a :: rows) i ->
  (forall w, time_of (task_fn i w) - time_of w <= max_time_micros a) /\ obeys rows (i + 1).
Proof.
  intros Ho. split.
  - intros w. specialize (Ho 0%nat a w eq_refl). by rewrite Z.add_0_r in Ho.
  - intros k b w Hk. specialize (Ho (S k) b w Hk). rewrite <- Z.add_assoc, Z.add_1_l.
    by rewrite <- Nat2Z.inj_succ.
Qed.

(** One task: it runs for [d] microseconds, and its row is marked. *)
Lemma run_task_spec s i now : now = u32 (time_of (world s)) ->
  0 <= time_of (task_fn i (world s)) - time_of (world s) < 4294967296 ->
  0 <= i < zlen (_last_run s) ->
  let w := task_fn i (world s) in
  exists s', run_task s i now = Some (s', u32 (time_of w), time_of w - time_of (world s)) /\
    world s' = w /\ _last_run s' = <[Z.to_nat i := _tick_counter s]> (_last_run s) /\
    _tick_counter s' = _tick_counter s /\ _loop_rate_hz s' = _loop_rate_hz s /\
    _tasks s' = _tasks s /\ _spare_micros s' = _spare_micros s /\
    _spare_ticks s' = _spare_ticks s.
Proof.
  intros -> Hd Hi w. unfold run_task. cbn [_last_run set_task set_world _tick_counter].
  rewrite arr_set_Some by done. cbn [mbind option_bind]. unfold clock.
  cbn [world set_table set_task set_world]. rewrite micros_law. cbn [_task_time_started
    set_table set_task set_world].
  assert (E1 : u32 (time_of w mod 4294967296) = u32 (time_of w)) by (unfold u32; by rewrite Z.mod_mod).
  assert (E2 : u32 (u32 (time_of w) - u32 (time_of (world s))) = time_of w - time_of (world s)).
  { unfold u32 at 1 2 3. rewrite <- Zminus_mod. apply Z.mod_small. exact Hd. }
  fold w. rewrite E1. eexists. split. { by rewrite E2. } by repeat split.
Qed.

(** The rows that are due. *)
Definition due s (i : Z) (a : Task) : bool :=
  match arr_get (_last_run s) i, interval_ticks s a with
  | Some last, Some n => u16 (_tick_counter s - last) >=? n
  | _, _ => false
  end.

(** What a run keeps. *)
Definition same_board s s' : Prop :=
  _tick_counter s' = _tick_counter s /\ _loop_rate_hz s' = _loop_rate_hz s /\
  _tasks s' = _tasks s /\ _spare_micros s' = _spare_micros s /\
  _spare_ticks s' = _spare_ticks s /\ length (_last_run s') = length (_last_run s).

#[global] Instance same_board_preorder : PreOrder same_board.
Proof.
  split; [by intros s|]. intros s1 s2 s3 (?&?&?&?&?&?) (?&?&?&?&?&?).
  unfold same_board. repeat split; congruence.
Qed.

(** The loop keeps the time used and the time left within the budget. *)
Lemma run_loop_budget rows : forall i s avail now rest s', 0 <= i -> limits rows ->
  obeys rows i -> 0 <= avail < 4294967296 -> now = u32 (time_of (world s)) ->
  run_loop rows i s avail now = Some (rest, s') ->
  same_board s s' /\
  time_of (world s') + (match rest with Some r => r | None => 0 end) <=
    time_of (world s) + avail /\
  match rest with Some r => 0 <= r <= avail | None => True end.
Proof.
  induction rows as [|a rows IH]; intros i s avail now rest s' Hi Hlim Ho Ha Hnow; cbn [run_loop].
  { intros [= <- <-]. split; [done|]. split; lia. }
  apply Forall_cons in Hlim as [Hmax Hlim]. apply obeys_cons in Ho as [Hd Ho].
  destruct (arr_get (_last_run s) i) as [last|] eqn:El; [|done]. cbn [mbind option_bind].
  destruct (interval_ticks s a) as [n|]; [|done]. cbn [mbind option_bind].
  assert (Hskip : forall s0, same_board s s0 -> world s0 = world s ->
    run_loop rows (i + 1) s0 avail now = Some (rest, s') ->
    same_board s s' /\
    time_of (world s') + (match rest with Some r => r | None => 0 end) <=
      time_of (world s) + avail /\
    match rest with Some r => 0 <= r <= avail | None => True end).
  { intros s0 Hsb Hw Hr. destruct (IH (i + 1) s0 avail now rest s') as (H1&H2&H3);
      [lia|done|done|done|by rewrite Hw|done|]. rewrite Hw in H2.
    split; [by etrans|done]. }
  destruct (_ >=? n); [|by apply Hskip].
  set (s1 := set_task s _ _ _). assert (Hs1 : same_board s s1) by done.
  destruct (Z.leb_spec (_task_time_allowed s1) avail) as [Hle|Hle];
    [|intros Hr; by apply (Hskip s1)].
  pose proof (task_fn_law i (world s)) as Hmon. specialize (Hd (world s)). simpl in Hle.
  pose proof (arr_get_inv _ _ _ El) as Hir.
  destruct (run_task_spec s1 i now) as (s2&E&Hw2&Hl2&Ht2&Hr2&Htk2&Hm2&Hsp2);
    [done|simpl; lia|done|]. rewrite E. cbn [mbind option_bind]. simpl in E, Hw2.
  assert (Hs2 : same_board s s2).
  { repeat split; try done. by rewrite Hl2, length_insert. }
  change (world s1) with (world s). rewrite Z.geb_leb.
  destruct (Z.leb_spec avail (time_of (task_fn i (world s)) - time_of (world s))).
  - intros [= <- <-]. split; [done|]. rewrite Hw2. split; [lia|done].
  - rewrite u32_small by lia. intros Hr.
    apply IH in Hr as (H1&H2&H3); [|lia|done|done|lia|by rewrite Hw2]. rewrite Hw2 in H2.
    split; [by etrans|]. split; [lia|]. destruct rest; [lia|done].
Qed.

(** The numbers of the rows that are due, from row [i] on. *)
Fixpoint due_rows s (rows : list Task) (i : Z) : list Z :=
  match rows with
  | [] => []
  | a :: rows => (if due s i a then [i] else []) ++ due_rows s rows (i + 1)
  end.

Lemma due_rows_ext s s' rows : forall i, 0 <= i -> _tick_counter s' = _tick_counter s ->
  _loop_rate_hz s' = _loop_rate_hz s ->
  (forall k, i <= k -> arr_get (_last_run s') k = arr_get (_last_run s) k) ->
  due_rows s' rows i = due_rows s rows i.
Proof.
  induction rows as [|a rows IH]; intros i Hi Ht Hr Hl; [done|]. cbn [due_rows].
  rewrite (IH (i + 1)) by (done || lia || (intros k Hk; apply Hl; lia)).
  unfold due, interval_ticks. by rewrite Ht, Hr, Hl by lia.
Qed.

Definition total_time (rows : list Task) : Z := foldr (fun a n => max_time_micros a + n) 0 rows.

Lemma total_time_pos rows : limits rows -> 0 <= total_time rows.
Proof. induction 1; simpl; lia. Qed.

Definition run_rows (w : W) (rows : list Z) : W := foldl (fun w k => task_fn k w) w rows.
Definition mark_rows (tick : Z) (l : list Z) (rows : list Z) : list Z :=
  foldl (fun l k => <[Z.to_nat k := tick]> l) l rows.

(** With time for all the rows, exactly those due run, in order. *)
Lemma run_loop_due rows : forall i s avail now, 0 <= i -> limits rows -> obeys rows i ->
  Forall (fun a => is_Some (interval_ticks s a)) rows ->
  i + zlen rows <= zlen (_last_run s) -> total_time rows < avail < 4294967296 ->
  now = u32 (time_of (world s)) ->
  exists r s', run_loop rows i s avail now = Some (Some r, s') /\
    same_board s s' /\ world s' = run_rows (world s) (due_rows s rows i) /\
    _last_run s' = mark_rows (_tick_counter s) (_last_run s) (due_rows s rows i).
Proof.
  induction rows as [|a rows IH]; intros i s avail now Hi Hlim Ho Hint Hlen Ha Hnow;
    cbn [run_loop due_rows].
  { exists avail, s. done. }
  apply Forall_cons in Hlim as [Hmax Hlim]. apply Forall_cons in Hint as [[n Hn] Hint].
  apply obeys_cons in Ho as [Hd Ho]. pose proof (total_time_pos rows Hlim).
  simpl in Hlen, Ha. destruct (arr_get_Some (_last_run s) i) as [last El]; [lia|].
  unfold due. rewrite El, Hn. cbn [mbind option_bind].
  destruct (_ >=? n); cbn [app run_rows foldl mark_rows].
  2:{ apply IH; try done; lia. }
  set (s1 := set_task s _ _ _).
  rewrite (proj2 (Z.leb_le (_task_time_allowed s1) avail)) by (simpl; lia).
  pose proof (task_fn_law i (world s)) as Hmon. specialize (Hd (world s)).
  destruct (run_task_spec s1 i now) as (s2&E&Hw2&Hl2&Ht2&Hr2&Htk2&Hm2&Hsp2);
    [done|simpl; lia|simpl; lia|]. rewrite E. cbn [mbind option_bind].
  change (world s1) with (world s) in *.
  rewrite Z.geb_leb, (proj2 (Z.leb_gt _ _)), u32_small by lia.
  destruct (IH (i + 1) s2 (avail - (time_of (task_fn i (world s)) - time_of (world s)))
    (u32 (time_of (task_fn i (world s))))) as (r&s'&E'&Hsb&Hw&Hl); try done.
  - lia.
  - eapply Forall_impl; [exact Hint|]. intros b. unfold interval_ticks. by rewrite Hr2.
  - rewrite Hl2, length_insert. simpl. lia.
  - lia.
  - by rewrite Hw2.
  - exists r, s'. split; [exact E'|].
    assert (Hext : due_rows s2 rows (i + 1) = due_rows s rows (i + 1)).
    { apply due_rows_ext; [lia|exact Ht2|exact Hr2|]. intros k Hk.
      rewrite Hl2, !arr_get_lookup by lia. apply list_lookup_insert_ne. lia. }
    split; [|split].
    + etrans; [|exact Hsb]. repeat split; try done. by rewrite Hl2, length_insert.
    + by rewrite Hw, Hw2, Hext.
    + rewrite Hl, Hl2, Hext. change (_tick_counter s1) with (_tick_counter s). by rewrite Ht2.
Qed.

Lemma mark_rows_lookup tick rows : forall l k, Forall (fun r => 0 <= r) rows ->
  (k < length l)%nat -> mark_rows tick l rows !! k =
    if decide (Z.of_nat k ∈ rows) then Some tick else l !! k.
Proof.
  induction rows as [|r rows IH]; intros l k Hr Hk; cbn [mark_rows foldl].
  { by rewrite decide_False by apply not_elem_of_nil. }
  apply Forall_cons in Hr as [Hr0 Hr]. fold (mark_rows tick (<[Z.to_nat r := tick]> l) rows).
  rewrite IH by (rewrite ?length_insert; done).
  destruct (decide (Z.of_nat k ∈ rows)) as [Hin|Hin].
  - by rewrite decide_True by (apply elem_of_cons; by right).
  - destruct (decide (Z.of_nat k = r)) as [<-|Hne].
    + rewrite Nat2Z.id, list_lookup_insert, decide_True by (done || (split; done)).
      by rewrite decide_True by (apply elem_of_cons; by left).
    + rewrite list_lookup_insert_ne by lia. rewrite decide_False; [done|].
      rewrite elem_of_cons. tauto.
Qed.

Lemma due_rows_elem s rows : forall i j, j ∈ due_rows s rows i <->
  exists k a, rows !! k = Some a /\ j = i + Z.of_nat k /\ due s j a = true.
Proof.
  induction rows as [|a rows IH]; intros i j; cbn [due_rows].
  - split; [by intros ?%elem_of_nil|]. by intros (k&b&?&_).
  - rewrite elem_of_app, IH. split.
    + intros [Hin|(k&b&Hk&->&Hd)].
      * destruct (due s i a) eqn:E; [|by apply elem_of_nil in Hin].
        apply list_elem_of_singleton in Hin as ->. exists 0%nat, a. rewrite Z.add_0_r. done.
      * exists (S k), b. split; [done|]. split; [lia|done].
    + intros (k&b&Hk&->&Hd). destruct k as [|k].
      * left. injection Hk as ->. rewrite Z.add_0_r in Hd |- *. rewrite Hd.
        by apply list_elem_of_singleton.
      * right. exists k, b. split; [done|]. split; [lia|done].
Qed.

Lemma due_rows_pos s rows i : 0 <= i -> Forall (fun r => 0 <= r) (due_rows s rows i).
Proof.
  intros Hi. apply Forall_forall. intros j (k&a&_&->&_)%due_rows_elem. lia.
Qed.

Lemma set_world_same s : set_world s (world s) = s.
Proof. by destruct s. Qed.

Lemma update_spare_keeps s : world (update_spare s) = world s /\
  _tasks (update_spare s) = _tasks s /\ _tick_counter (update_spare s) = _tick_counter s /\
  _last_run (update_spare s) = _last_run s.
Proof. unfold update_spare. by destruct (u8 (_spare_ticks s + 1) =? 32). Qed.

(** The spare time counted is at most [loop_us] per tick. *)
Definition spare_ok s (loop_us : Z) : Prop :=
  0 <= _spare_ticks s < 32 /\ 0 <= _spare_micros s <= loop_us * _spare_ticks s.

Lemma loop_time_available_spec sample loop_us now : 0 < loop_us < 65536 ->
  0 <= sample < 4294967296 -> 0 <= now < 4294967296 ->
  let elapsed := u32 (now - sample) in
  loop_time_available sample loop_us now =
    (if elapsed <=? loop_us then loop_us - elapsed else 0).
Proof.
  intros Hl Hs Hn elapsed. unfold loop_time_available.
  assert (E : u32 (u32 (sample + loop_us) - now) = u32 (loop_us - elapsed)).
  { subst elapsed. unfold u32. rewrite Zminus_mod_idemp_l, Zminus_mod_idemp_r. f_equal. lia. }
  rewrite E, Z.gtb_ltb. pose proof (u32_range (now - sample)) as Hr. fold elapsed in Hr.
  destruct (Z.leb_spec elapsed loop_us).
  - rewrite u32_small by lia. by rewrite (proj2 (Z.ltb_ge _ _)) by lia.
  - replace (u32 (loop_us - elapsed)) with (loop_us - elapsed + 4294967296).
    + by rewrite (proj2 (Z.ltb_lt _ _)) by lia.
    + unfold u32. rewrite <- (Z.mod_add _ 1) by lia. rewrite Z.mod_small; lia.
Qed.

(** One run adds at most [loop_us] to the spare time. *)
Lemma update_spare_ok s loop_us r : 0 < loop_us < 65536 -> spare_ok s loop_us ->
  0 <= r <= loop_us ->
  spare_ok (update_spare (set_spare s (u32 (_spare_micros s + r)) (_spare_ticks s))) loop_us /\
  0 < _spare_ticks (update_spare (set_spare s (u32 (_spare_micros s + r)) (_spare_ticks s))).
Proof.
  intros Hl [Ht Hm] Hr. rewrite u32_small by nia. unfold update_spare, spare_ok.
  cbn [_spare_ticks set_spare _spare_micros]. rewrite u8_small by lia.
  destruct (Z.eqb_spec (_spare_ticks s + 1) 32) as [E|E]; cbn [_spare_ticks set_spare _spare_micros].
  - rewrite E. change (32 / 2) with 16. split; [|lia]. split; [lia|].
    split; [apply Z.div_pos; lia|]. apply Z.div_le_upper_bound; nia.
  - split; [|lia]. split; [lia|]. nia.
Qed.

Lemma used_time_ok s loop_us : 0 < loop_us < 65536 -> spare_ok s loop_us ->
  0 < _spare_ticks s -> 0 <= used_time s loop_us <= loop_us.
Proof.
  intros Hl [Ht Hm] Hp. unfold used_time.
  assert (0 <= _spare_micros s / _spare_ticks s) by (apply Z.div_pos; lia).
  assert (_spare_micros s / _spare_ticks s <= loop_us) by (apply Z.div_le_upper_bound; nia).
  rewrite u32_small; lia.
Qed.
End scheduler.

(** * The loop statistics *)
Section perf.
Implicit Types (p : PerfInfo.t).

(** The loops measured since a reset: (loop time, clock). *)
Definition feed p (ts : list (Z * Z)) : PerfInfo.t :=
  foldl (fun p t => PerfInfo.check_loop_time p t.1 t.2) p ts.

Definition sum (l : list Z) : Z := foldr Z.add 0 l.
Definition squares (l : list Z) : Z := sum (map (fun t => t * t) l).
Definition long_loops (threshold : Z) (l : list Z) : Z :=
  zlen (List.filter (fun t => threshold <? t) l).

(** The statistics [p] are those of the loop times [l]. *)
Record statistics p (l : list Z) : Prop := {
  st_count : PerfInfo.loop_count p = zlen l;
  st_sum : PerfInfo.sigma_time p = sum l;
  st_squares : PerfInfo.sigmasquared_time p = squares l;
  st_long : PerfInfo.long_running p = long_loops (PerfInfo.overtime_threshold_micros p) l;
  st_max : PerfInfo.max_time p = foldr Z.max 0 l;
  st_min : (l = [] /\ PerfInfo.min_time p = 0) \/
           (PerfInfo.min_time p ∈ l /\ Forall (fun t => PerfInfo.min_time p <= t) l);
  st_on : PerfInfo.ignore_loop p = false
}.

Definition measurable (l : list Z) : Prop := Forall (fun t => 0 < t < 65536) l /\ zlen l < 65536.

Lemma sums_bound l : Forall (fun t => 0 < t < 65536) l ->
  0 <= sum l <= zlen l * 65536 /\ 0 <= squares l <= zlen l * 4294967296.
Proof.
  induction 1 as [|t l Ht _ IH]; [done|]. unfold squares in *. simpl in *. nia.
Qed.

Lemma long_loops_bound n l : 0 <= long_loops n l <= zlen l.
Proof.
  unfold long_loops. induction l as [|t l IH]; simpl; [lia|]. destruct (n <? t); simpl; lia.
Qed.

Lemma statistics_step p l t now : statistics p l -> measurable (t :: l) ->
  statistics (PerfInfo.check_loop_time p t now) (t :: l).
Proof.
  intros [Hc Hs Hq Hl Hmx Hmn Hon] [Hall Hn]. apply Forall_cons in Hall as [Ht Hall].
  pose proof (sums_bound l Hall) as [Hb1 Hb2]. simpl in Hn.
  pose proof (long_loops_bound (PerfInfo.overtime_threshold_micros p) l).
  unfold PerfInfo.check_loop_time. rewrite Hon.
  split; cbn [PerfInfo.loop_count PerfInfo.sigma_time PerfInfo.sigmasquared_time
    PerfInfo.long_running PerfInfo.max_time PerfInfo.min_time PerfInfo.ignore_loop
    PerfInfo.overtime_threshold_micros].
  - rewrite Hc, u16_small; simpl; lia.
  - rewrite Hs, u64_small; simpl; lia.
  - rewrite Hq, (u32_small (t * t)), u64_small by nia. unfold squares. simpl. lia.
  - rewrite Hl, Z.gtb_ltb. unfold long_loops in *. simpl.
    destruct (PerfInfo.overtime_threshold_micros p <? t); [|done]. rewrite u16_small; simpl; lia.
  - rewrite Hmx, Z.gtb_ltb. simpl. destruct (Z.ltb_spec (foldr Z.max 0 l) t); lia.
  - right. destruct Hmn as [[-> ->]|[Hin Hle]].
    + simpl. split; [apply elem_of_cons; by left|]. repeat constructor. lia.
    + assert (0 < PerfInfo.min_time p) by (apply (proj1 (Forall_forall _ _) Hall _ Hin)).
      rewrite (proj2 (Z.eqb_neq _ 0)) by lia. simpl orb.
      destruct (Z.ltb_spec t (PerfInfo.min_time p)).
      * split; [apply elem_of_cons; by left|]. constructor; [lia|].
        eapply Forall_impl; [exact Hle|]. simpl. lia.
      * split; [apply elem_of_cons; by right|]. constructor; [lia|done].
  - done.
Qed.
End perf.

(** * A board for the witnesses: every task takes 100 microseconds *)
#[global] Instance demo_board : Board Z := {
  micros w := (w mod 4294967296, w);
  wait_for_sample w := w;
  fastloop_fn := None;
  task_fn _ w := w + 100;
  num_dropped _ := None
}.
#[global] Instance demo_laws : BoardLaws Z.
Proof. refine {| time_of w := w |}; [done|]. intros i w. simpl. lia. Defined.

Definition demo_rows : list Task :=
  [task (f32_of_Z 50) 150; task (f32_of_Z 10) 150; task (f32_of_Z 25) 120].

(** Two ticks after the start of a loop of 50Hz. *)
Definition demo_sched : Scheduler.t Z :=
  tick (tick (default (create 50 5000) (init (create 50 5000) demo_rows))).

Definition demo_obeys : obeys demo_rows 0.
Proof. intros k a w Hk. simpl. do 3 (destruct k as [|k]; [injection Hk as <-; simpl; lia|]). done. Defined.

Definition demo_limits : limits demo_rows.
Proof. repeat constructor; simpl; lia. Defined.

(** C33. The time budget: when no task takes longer than its row says, a run of
    the scheduler with [avail] microseconds is over within [avail]
    microseconds, whatever the tick wrap-around and the rows that are due; it
    keeps the table and the tick. *)
Theorem scheduler_budget {W} `{BoardLaws W} (s s' : Scheduler.t W) avail :
  limits (_tasks s) -> obeys (_tasks s) 0 -> 0 <= avail < 4294967296 ->
  run s avail = Some s' ->
  time_of (world s') <= time_of (world s) + avail /\
  _tasks s' = _tasks s /\ _tick_counter s' = _tick_counter s.
Proof.
  intros Hlim Ho Ha. unfold run, clock. rewrite micros_law.
  destruct (run_loop (_tasks _) 0 _ avail _) as [[rest s1]|] eqn:E; [|done].
  cbn [mbind option_bind]. apply run_loop_budget in E as (Hsb&Ht&Hr); try done.
  - intros [= <-]. cbn [world set_world] in Ht.
    destruct (update_spare_keeps (match rest with Some time => set_spare s1
      (u32 (_spare_micros s1 + time)) (_spare_ticks s1) | None => s1 end)) as (->&->&->&_).
    destruct Hsb as (Htk&_&Hts&_). destruct rest; cbn [world set_spare _tasks _tick_counter];
      (split; [lia|done]).
  - unfold u32. simpl. by rewrite Z.mod_mod.
Qed.

Lemma scheduler_budget_witness : exists s', run demo_sched 160 = Some s' /\
  world s' <= 5000 + 160 /\ _tasks s' = demo_rows /\ _tick_counter s' = 2.
Proof.
  destruct (run demo_sched 160) as [s'|] eqn:E; [|exfalso; vm_compute in E; discriminate E].
  exists s'. split; [reflexivity|].
  destruct (scheduler_budget demo_sched s' 160) as (H1&H2&H3);
    [exact demo_limits|exact demo_obeys|lia|exact E|]. by repeat split.
Defined.

(** C32. Nothing due is left out when there is time: if the times of all the rows
    together are less than the time available, a run calls exactly the tasks that
    are due, in the order of the table, and marks their rows, and no others, with
    the current tick; a row is due when at least its interval of ticks (one at
    least) has passed, modulo 2^16, since its mark. *)
Theorem scheduler_runs_due {W} `{BoardLaws W} (s : Scheduler.t W) avail :
  limits (_tasks s) -> obeys (_tasks s) 0 ->
  Forall (fun a => is_Some (interval_ticks s a)) (_tasks s) ->
  length (_last_run s) = length (_tasks s) -> total_time (_tasks s) < avail < 4294967296 ->
  exists s', run s avail = Some s' /\
    world s' = run_rows (world s) (due_rows s (_tasks s) 0) /\
    forall k a, _tasks s !! k = Some a ->
      _last_run s' !! k = if due s (Z.of_nat k) a then Some (_tick_counter s)
                          else _last_run s !! k.
Proof.
  intros Hlim Ho Hint Hlen Ha. unfold run, clock. rewrite micros_law.
  rewrite set_world_same.
  destruct (run_loop_due (_tasks s) 0 s avail
    (u32 (time_of (world s) mod 4294967296))) as (r&s1&->&Hsb&Hw&Hl); try done.
  - lia.
  - unfold u32. simpl. by rewrite Z.mod_mod.
  - cbn [mbind option_bind].
    eexists. split; [reflexivity|].
    destruct (update_spare_keeps (set_spare s1 (u32 (_spare_micros s1 + r)) (_spare_ticks s1)))
      as (->&_&_&->). cbn [world set_spare _last_run].
    split; [exact Hw|]. intros k a Hk. rewrite Hl.
    rewrite mark_rows_lookup; [|by apply due_rows_pos|].
    2:{ apply lookup_lt_Some in Hk. simpl. lia. }
    destruct (due s (Z.of_nat k) a) eqn:Ed.
    + rewrite decide_True; [done|]. apply due_rows_elem. by exists k, a.
    + rewrite decide_False; [done|]. intros (k'&a'&Hk'&Heq&Hd')%due_rows_elem.
      replace k' with k in Hk' by lia. congruence.
Qed.

Lemma scheduler_runs_due_witness : exists s', run demo_sched 10000 = Some s' /\
  world s' = 5200 /\ _last_run s' = [2; 0; 2].
Proof.
  destruct (scheduler_runs_due demo_sched 10000) as (s'&E&Hw&Hl).
  - exact demo_limits.
  - exact demo_obeys.
  - repeat constructor; eexists; vm_compute; reflexivity.
  - vm_compute. reflexivity.
  - split; vm_compute; reflexivity.
  - exists s'. split; [exact E|]. vm_compute in E. injection E as <-. by split.
Defined.

(** The load average: a loop of period [loop_us] gives its run what is left
    of the period, or nothing after an overrun, and while the spare time counted
    is at most one period per tick it stays so after the run; the used time, on
    which the load average is based, is then between 0 and the period. *)
Theorem scheduler_load {W} `{BoardLaws W} (s s' : Scheduler.t W) loop_us sample now :
  limits (_tasks s) -> obeys (_tasks s) 0 -> 0 < loop_us < 65536 ->
  0 <= sample < 4294967296 -> 0 <= now < 4294967296 ->
  spare_ok s loop_us ->
  let avail := loop_time_available sample loop_us now in
  let elapsed := u32 (now - sample) in
  run s avail = Some s' ->
  avail = (if elapsed <=? loop_us then loop_us - elapsed else 0) /\
  spare_ok s' loop_us /\ 0 < _spare_ticks s' /\ 0 <= used_time s' loop_us <= loop_us.
Proof.
  intros Hlim Ho Hl Hs Hn Hsp avail elapsed Hr.
  pose proof (loop_time_available_spec sample loop_us now Hl Hs Hn) as Hav. fold avail elapsed in Hav.
  split; [exact Hav|]. pose proof (u32_range (now - sample)) as Hel. fold elapsed in Hel.
  assert (Ha : 0 <= avail <= loop_us) by (rewrite Hav; destruct (Z.leb_spec elapsed loop_us); lia).
  unfold run, clock in Hr. rewrite micros_law in Hr.
  destruct (run_loop (_tasks _) 0 _ avail _) as [[rest s1]|] eqn:E; [|done].
  cbn [mbind option_bind] in Hr. injection Hr as <-.
  apply run_loop_budget in E as ((_&_&_&Hm&Htk&_)&_&Hr);
    [|done|done|done|lia|unfold u32; simpl; by rewrite Z.mod_mod].
  assert (Hsp1 : spare_ok s1 loop_us) by (unfold spare_ok; rewrite Hm, Htk; exact Hsp).
  assert (Hu : spare_ok (update_spare (match rest with Some time => set_spare s1
      (u32 (_spare_micros s1 + time)) (_spare_ticks s1) | None => s1 end)) loop_us /\
    0 < _spare_ticks (update_spare (match rest with Some time => set_spare s1
      (u32 (_spare_micros s1 + time)) (_spare_ticks s1) | None => s1 end))).
  { destruct rest as [r|]; [apply update_spare_ok; done || lia|].
    pose proof (update_spare_ok s1 loop_us 0 Hl Hsp1 ltac:(lia)) as Hu0.
    rewrite Z.add_0_r, u32_small in Hu0 by (destruct Hsp1; nia).
    by replace (set_spare s1 (_spare_micros s1) (_spare_ticks s1)) with s1 in Hu0 by by destruct s1. }
  destruct Hu as [Hu1 Hu2]. split; [exact Hu1|]. split; [exact Hu2|]. by apply used_time_ok.
Qed.

Lemma scheduler_load_witness : exists s', run demo_sched 14900 = Some s' /\
  spare_ok s' 20000 /\ 0 <= used_time s' 20000 <= 20000.
Proof.
  destruct (run demo_sched 14900) as [s'|] eqn:E; [|exfalso; vm_compute in E; discriminate E].
  exists s'. split; [reflexivity|].
  assert (Hav : loop_time_available 0 20000 5100 = 14900) by reflexivity.
  assert (Hsp : spare_ok demo_sched 20000) by (vm_compute; repeat split; discriminate).
  pose proof (scheduler_load demo_sched s' 20000 0 5100 demo_limits demo_obeys
    ltac:(lia) ltac:(lia) ltac:(lia) Hsp) as Hl.
  cbv zeta in Hl. rewrite Hav in Hl. destruct (Hl E) as (_&H1&_&H2). by split.
Defined.

(** The loop statistics: from a reset on, for fewer than 2^16 loops of less
    than 65536 microseconds each, the counts, the sums of the times and of their
    squares, the extremes and the number of slow loops are those of the loops
    measured, and the average is the quotient.  From 65536 microseconds on the
    square overflows its 32 bits: the standard deviation reported after one
    single loop of that length is 4294967295. *)
Theorem perf_statistics p dropped ts :
  PerfInfo.ignore_loop p = false -> measurable (map fst ts) ->
  statistics (feed (PerfInfo.reset p dropped) ts) (rev (map fst ts)) /\
  (ts <> [] -> PerfInfo.get_avg_time (feed (PerfInfo.reset p dropped) ts) =
     Some (sum (rev (map fst ts)) / zlen ts)) /\
  PerfInfo.get_stddev_time (feed (PerfInfo.reset p dropped) [(65536, 0)]) = Some 4294967295.
Proof.
  intros Hon Hm.
  assert (Hst : statistics (feed (PerfInfo.reset p dropped) ts) (rev (map fst ts))).
  { induction ts as [|t ts IH] using rev_ind.
    - split; try done. by left.
    - unfold feed. rewrite foldl_app. cbn [foldl]. rewrite map_app, rev_app_distr. simpl.
      destruct Hm as [Hall Hn]. rewrite map_app in Hall, Hn. apply Forall_app in Hall as [Hall Ht].
      rewrite length_app in Hn. simpl in Hn.
      apply statistics_step; [apply IH; split; [done|lia]|]. split.
      + constructor; [by apply Forall_cons in Ht as [? _]|]. by apply Forall_rev.
      + simpl. rewrite length_rev. lia. }
  split; [exact Hst|]. split.
  - intros Hne. unfold PerfInfo.get_avg_time. destruct Hst as [-> -> _ _ _ _ _].
    rewrite length_rev, length_map.
    assert (Hpos : 0 < zlen ts) by (destruct ts; [done|]; rewrite length_cons; lia).
    rewrite (proj2 (Z.eqb_neq _ 0)) by lia. f_equal. apply u32_small.
    destruct Hm as [Hall Hn]. rewrite length_map in Hn.
    pose proof (sums_bound (rev (map fst ts))) as [Hb _]; [by apply Forall_rev|].
    rewrite length_rev, length_map in Hb. split.
    + apply Z.div_pos; lia.
    + apply Z.div_lt_upper_bound; lia.
  - unfold feed. cbn [foldl]. unfold PerfInfo.check_loop_time. cbn [PerfInfo.reset
      PerfInfo.ignore_loop]. rewrite Hon. vm_compute. reflexivity.
Qed.

Lemma perf_statistics_witness :
  let p := PerfInfo.reset PerfInfo.create None in
  PerfInfo.get_avg_time (feed p [(100, 0); (301, 400); (200, 700)]) = Some 200 /\
  PerfInfo.get_max_time (feed p [(100, 0); (301, 400); (200, 700)]) = 301.
Proof.
  destruct (perf_statistics PerfInfo.create None [(100, 0); (301, 400); (200, 700)]) as ([_ _ _ _ Hm _ _]&Ha&_).
  - reflexivity.
  - split; [repeat constructor; simpl; lia|reflexivity].
  - split; [rewrite Ha by done; reflexivity|exact Hm].
Defined.
