(* ===== verification/SerialRCSpec.v ===== *)
(** The serial RC receivers: what each decoder makes of a well-formed frame, what
    its checksum detects, and the frames that run over its arrays. *)
From S2P Require Import Prelude Float32 Crc SerialRC.
Open Scope urus_scope.

(** * Feeding bytes to a decoder

    The results of the calls, and what they leave. *)
Section feed.
Context {B S O : Type} (decode : B -> S -> O -> option (Z * S * O)).

Fixpoint feed (bs : list B) (s : S) (o : O) : option (list Z * S * O) :=
  match bs with
  | [] => Some ([], s, o)
  | b :: bs =>
    '(ret, s, o) ← decode b s o;
    '(rets, s, o) ← feed bs s o;
    Some (ret :: rets, s, o)
  end.

Lemma feed_app bs1 bs2 s o : feed (bs1 ++ bs2) s o =
  '(r1, s, o) ← feed bs1 s o; '(r2, s, o) ← feed bs2 s o; Some (r1 ++ r2, s, o).
Proof.
  revert s o. induction bs1 as [|b bs1 IH]; intros s o; simpl.
  - by destruct (feed bs2 s o) as [[[? ?] ?]|].
  - destruct (decode b s o) as [[[ret s1] o1]|]; [|done]. simpl. rewrite IH.
    destruct (feed bs1 s1 o1) as [[[r1 s2] o2]|]; [|done]. simpl.
    by destruct (feed bs2 s2 o2) as [[[r2 s3] o3]|].
Qed.

Lemma feed_cons b bs s o ret s1 o1 : decode b s o = Some (ret, s1, o1) ->
  feed (b :: bs) s o = '(rets, s, o) ← feed bs s1 o1; Some (ret :: rets, s, o).
Proof. intros E. cbn [feed]. by rewrite E. Qed.
End feed.

Lemma inserts_cons {A} (i : nat) (x : A) k l :
  list_inserts i (x :: k) l = list_inserts (S i) k (<[i := x]> l).
Proof. simpl. apply list_insert_inserts_lt. lia. Qed.

Lemma inserts_0 {A} (bs l : list A) : (length bs <= length l)%nat ->
  list_inserts 0 bs l = bs ++ drop (length bs) l.
Proof.
  revert l. induction bs as [|b bs IH]; intros l Hl; [done|]. destruct l as [|x l]; simpl in Hl; [lia|].
  rewrite inserts_cons. simpl. rewrite <- IH by lia.
  exact (inserts_after_app 1 [b] l bs eq_refl).
Qed.

Ltac bytes_tac := unfold bytes in *; rewrite ?Forall_cons, ?Forall_nil; repeat split; done || lia.

Lemma bind_none {A B} (m : option A) (f : A -> option B) : (forall x, f x = None) -> m ≫= f = None.
Proof. intros H. destruct m; [apply H|done]. Qed.

(** * ST24 *)
Section st24.
Import ST24.
Implicit Types (s : t) (o : out).

Definition pulse (x : Z) : Z := (x * 125 + 256) / 512 + 999.

Lemma scale_pulse x : 0 <= x < 4096 -> scale x = Some (pulse x).
Proof.
  intros Hx. apply (bool_decide_unpack (scale x = Some (pulse x))). apply Is_true_true.
  revert x Hx. apply (forall_range (fun x => bool_decide (scale x = Some (pulse x)))).
  vm_compute. reflexivity.
Qed.

(** Channels of 12 bits, two in three bytes. *)
Fixpoint pack12 (chs : list Z) : list Z :=
  match chs with
  | a :: b :: chs => a / 16 :: a mod 16 * 16 + b / 256 :: b mod 256 :: pack12 chs
  | _ => []
  end.

Lemma unpack_first a b : 0 <= a < 4096 -> 0 <= b < 4096 ->
  u16 ((a / 16) << 4) ||| ((0xF0 &&& (a mod 16 * 16 + b / 256)) >> 4) = a.
Proof.
  intros Ha Hb. rewrite Z.shiftl_mul_pow2, u16_small by zlia.
  replace ((0xF0 &&& (a mod 16 * 16 + b / 256)) >> 4) with (a mod 16).
  - change (2 ^ 4) with 16. rewrite Z.lor_comm.
    replace (a / 16 * 16) with ((a / 16) << 4) by (rewrite Z.shiftl_mul_pow2; lia).
    apply Z.bits_inj'. intros n Hn. rewrite Z.lor_spec, Z.shiftl_spec by done.
    destruct (decide (n < 4)).
    + change 16 with (2 ^ 4). rewrite Z.mod_pow2_bits_low by lia.
      by rewrite (Z.testbit_neg_r _ (n - 4)), orb_false_r by lia.
    + change 16 with (2 ^ 4). rewrite Z.mod_pow2_bits_high, Z.div_pow2_bits by lia.
      simpl. f_equal. lia.
  - rewrite Z.shiftr_land. change (0xF0 >> 4) with (Z.ones 4). rewrite Z.land_comm, Z.land_ones by lia.
    rewrite Z.shiftr_div_pow2 by lia. change (2 ^ 4) with 16. zlia.
Qed.

Lemma unpack_second a b : 0 <= a < 4096 -> 0 <= b < 4096 ->
  (b mod 256) ||| ((0x0F &&& (a mod 16 * 16 + b / 256)) << 8) = b.
Proof.
  intros Ha Hb. change 0x0F with (Z.ones 4). rewrite (Z.land_comm (Z.ones 4)), Z.land_ones by lia.
  change (2 ^ 4) with 16. replace ((a mod 16 * 16 + b / 256) mod 16) with (b / 256) by zlia.
  apply Z.bits_inj'. intros n Hn. rewrite Z.lor_spec, Z.shiftl_spec by done.
  change 256 with (2 ^ 8). destruct (decide (n < 8)).
  - rewrite Z.mod_pow2_bits_low, (Z.testbit_neg_r _ (n - 8)) by lia. apply orb_false_r.
  - rewrite Z.mod_pow2_bits_high, Z.div_pow2_bits by lia. simpl. f_equal. lia.
Qed.

Lemma pack12_length k : forall chs, length chs = (2 * k)%nat -> length (pack12 chs) = (3 * k)%nat.
Proof.
  induction k as [|k IH]; intros chs Hl; [by destruct chs|].
  destruct chs as [|a [|b chs]]; simpl in Hl; [lia..|]. simpl. rewrite IH by lia. lia.
Qed.

Lemma pack12_bytes k : forall chs, length chs = (2 * k)%nat -> Forall (fun x => 0 <= x < 4096) chs ->
  bytes (pack12 chs).
Proof.
  induction k as [|k IH]; intros chs Hl Hc; [by destruct chs; [constructor|]|].
  destruct chs as [|a [|b chs]]; simpl in Hl; [lia..|].
  rewrite !Forall_cons in Hc. destruct Hc as (Ha&Hb&Hc).
  repeat (apply Forall_cons; split; [zlia|]). apply IH; [lia|done].
Qed.

Lemma arr_get_mid (pre suf : list Z) k x i : i = zlen pre + Z.of_nat k -> suf !! k = Some x ->
  arr_get (pre ++ suf) i = Some x.
Proof.
  intros -> Hk. rewrite arr_get_lookup by lia. rewrite lookup_app_r by lia.
  by replace (Z.to_nat (zlen pre + Z.of_nat k) - length pre)%nat with k by lia.
Qed.

(** [r] rounds of the loop on the channels [chs]. *)
Lemma decode_loop_rounds r : forall f pre chs idx stride chans,
  (2 * r <= length chs)%nat -> Forall (fun x => 0 <= x < 4096) chs ->
  zlen pre + 3 * (Z.of_nat r - 1) < stride -> 0 <= idx -> idx + 2 * Z.of_nat r <= zlen chans ->
  decode_loop (r + f) (pre ++ pack12 chs) stride (zlen pre) idx chans =
  decode_loop f (pre ++ pack12 chs) stride (zlen pre + 3 * Z.of_nat r) (idx + 2 * Z.of_nat r)
    (list_inserts (Z.to_nat idx) (map pulse (take (2 * r) chs)) chans).
Proof.
  induction r as [|r IH]; intros f pre chs idx stride chans Hl Hc Hs Hi Hn.
  { simpl. by rewrite !Z.add_0_r. }
  destruct chs as [|a [|b chs]]; simpl in Hl; [lia..|].
  rewrite !Forall_cons in Hc. destruct Hc as (Ha&Hb&Hc).
  cbn [plus decode_loop pack12]. rewrite (proj2 (Z.ltb_lt _ _)) by lia.
  rewrite (arr_get_mid pre _ 0 (a / 16) (zlen pre)),
    (arr_get_mid pre _ 1 (a mod 16 * 16 + b / 256) (zlen pre + 1)),
    (arr_get_mid pre _ 2 (b mod 256) (zlen pre + 2)) by (lia || done).
  cbn [mbind option_bind]. rewrite (unpack_first a b Ha Hb), (scale_pulse a Ha). cbn [mbind option_bind].
  rewrite arr_set_Some by lia. cbn [mbind option_bind].
  rewrite (unpack_second a b Ha Hb), (scale_pulse b Hb). cbn [mbind option_bind].
  rewrite arr_set_Some by (rewrite length_insert; lia). cbn [mbind option_bind].
  replace (pre ++ a / 16 :: a mod 16 * 16 + b / 256 :: b mod 256 :: pack12 chs)
    with ((pre ++ [a / 16; a mod 16 * 16 + b / 256; b mod 256]) ++ pack12 chs)
    by by rewrite <- app_assoc.
  replace (zlen pre + 3) with (zlen (pre ++ [a / 16; a mod 16 * 16 + b / 256; b mod 256]))
    by (rewrite length_app; simpl; lia).
  rewrite IH; [|lia|done|rewrite length_app; simpl; lia|lia|rewrite !length_insert; lia].
  f_equal; [rewrite length_app; simpl; lia|lia|].
  replace (2 * S r)%nat with (S (S (2 * r))) by lia. cbn [take map].
  rewrite !inserts_cons. f_equal; [lia|]. f_equal. lia.
Qed.

Lemma decode_loop_stop f channel stride i idx chans : stride <= i ->
  decode_loop f channel stride i idx chans = Some chans.
Proof. intros Hs. destruct f as [|f]; [done|]. cbn [decode_loop]. by rewrite (proj2 (Z.ltb_ge _ _)). Qed.

(** The channels of a packet: an even number of them is decoded as it should, an
    odd one writes one channel too many. *)
Lemma channel_data_even n t0 t1 r c chs rest max o : length chs = (2 * n)%nat ->
  Forall (fun x => 0 <= x < 4096) chs -> let cc := Z.min max (2 * Z.of_nat n) in
  0 <= max -> Z.Even cc -> cc <= zlen (channels o) ->
  channel_data (2 * Z.of_nat n) (3 * Z.of_nat n) (t0 :: t1 :: r :: c :: pack12 chs ++ rest) max o =
  Some (Out r c cc (list_inserts 0 (map pulse (take (Z.to_nat cc) chs)) (channels o))).
Proof.
  intros Hl Hc cc Hm [h Hh] Hn. unfold channel_data. cbn [arr_get mbind option_bind].
  pose proof (pack12_length n chs Hl) as Hp.
  replace (if max <? 2 * Z.of_nat n then max else 2 * Z.of_nat n) with cc
    by (destruct (Z.ltb_spec max (2 * Z.of_nat n)); lia).
  rewrite blk_get_Some by (simpl; rewrite ?length_app; lia).
  change (drop (Z.to_nat 4) _) with (pack12 chs ++ rest).
  replace (Z.to_nat (3 * Z.of_nat n)) with (length (pack12 chs)) by lia. rewrite take_app_length.
  change (arr_get (t0 :: t1 :: r :: c :: pack12 chs ++ rest) 2) with (Some r).
  change (arr_get (t0 :: t1 :: r :: c :: pack12 chs ++ rest) 3) with (Some c).
  cbn [mbind option_bind].
  replace (Z.to_nat (2 * Z.of_nat n)) with (Z.to_nat h + (2 * n - Z.to_nat h))%nat by lia.
  pose proof (decode_loop_rounds (Z.to_nat h) (2 * n - Z.to_nat h) [] chs 0 (cc * 3 / 2)
    (channels o)) as E. simpl app in E. change (zlen []) with 0 in E. rewrite E; [|lia|done|zlia|lia|lia].
  rewrite decode_loop_stop by zlia. cbn [mbind option_bind].
  by replace (Z.to_nat cc) with (2 * Z.to_nat h)%nat by lia.
Qed.

Lemma channel_data_odd n t0 t1 r c chs rest max o : length chs = (2 * n)%nat ->
  Forall (fun x => 0 <= x < 4096) chs -> 0 <= max < 2 * Z.of_nat n -> Z.Odd max ->
  zlen (channels o) = max ->
  channel_data (2 * Z.of_nat n) (3 * Z.of_nat n) (t0 :: t1 :: r :: c :: pack12 chs ++ rest) max o =
  None.
Proof.
  intros Hl Hc Hm [h Hh] Hn. unfold channel_data.
  pose proof (pack12_length n chs Hl) as Hp.
  rewrite (proj2 (Z.ltb_lt _ _)) by lia.
  rewrite blk_get_Some by (simpl; rewrite ?length_app; lia).
  change (drop (Z.to_nat 4) _) with (pack12 chs ++ rest).
  replace (Z.to_nat (3 * Z.of_nat n)) with (length (pack12 chs)) by lia. rewrite take_app_length.
  change (arr_get (t0 :: t1 :: r :: c :: pack12 chs ++ rest) 2) with (Some r).
  change (arr_get (t0 :: t1 :: r :: c :: pack12 chs ++ rest) 3) with (Some c).
  cbn [mbind option_bind].
  replace (Z.to_nat (2 * Z.of_nat n)) with (Z.to_nat h + S (2 * n - Z.to_nat h - 1))%nat by lia.
  pose proof (decode_loop_rounds (Z.to_nat h) (S (2 * n - Z.to_nat h - 1)) [] chs 0 (max * 3 / 2)
    (channels o)) as E. simpl app in E. change (zlen []) with 0 in E. rewrite E; [|lia|done|zlia|lia|lia].
  clear E. set (chans := list_inserts _ _ _).
  assert (Hlen : zlen chans = max) by (unfold chans; rewrite length_inserts; lia).
  clearbody chans. cbn [decode_loop]. rewrite (proj2 (Z.ltb_lt _ _)) by zlia.
  match goal with |- ?m ≫= _ = None => assert (m = None) as ->; [|done] end.
  do 3 (apply bind_none; intros ?). rewrite arr_set_Some by lia. cbn [mbind option_bind].
  do 2 (apply bind_none; intros ?). by rewrite arr_set_None by (rewrite length_insert; lia).
Qed.

(** The bytes before the last one. *)
Definition st24_feed max := feed (fun byte => st24_decode byte max).

Lemma st24_data_step max len ty c b data k o : length data = 64%nat -> (k < 64)%nat ->
  st24_decode b max (mk GOT_TYPE (Z.of_nat k + 1) (Packet len ty data c)) o =
  Some (1, mk (if Z.of_nat k + 2 =? len - 1 then GOT_DATA else GOT_TYPE) (Z.of_nat k + 2)
             (Packet len ty (<[k := b]> data) c), o).
Proof.
  intros Hd Hk. unfold st24_decode.
  cbn [_decode_state _rxlen _rxpacket length_ type_ st24_data crc8].
  rewrite arr_set_Some by lia. cbn [mbind option_bind]. rewrite u8_small by lia.
  replace (Z.of_nat k + 1 + 1) with (Z.of_nat k + 2) by lia.
  by replace (Z.to_nat (Z.of_nat k + 1 - 1)) with k by lia.
Qed.

Lemma st24_data_bytes max len ty c bs : forall data k o, length data = 64%nat ->
  (k + length bs <= 64)%nat -> (forall j, (j < length bs)%nat -> len <> Z.of_nat k + Z.of_nat j + 3) ->
  st24_feed max bs (mk GOT_TYPE (Z.of_nat k + 1) (Packet len ty data c)) o =
  Some (replicate (length bs) 1,
        mk GOT_TYPE (Z.of_nat k + 1 + zlen bs) (Packet len ty (list_inserts k bs data) c), o).
Proof.
  induction bs as [|b bs IH]; intros data k o Hd Hk Hj.
  { simpl. by rewrite Z.add_0_r. }
  simpl in Hk. unfold st24_feed. erewrite feed_cons by (apply st24_data_step; [done|lia]).
  rewrite (proj2 (Z.eqb_neq _ _)) by (specialize (Hj 0%nat); simpl in Hj; lia).
  replace (Z.of_nat k + 2) with (Z.of_nat (S k) + 1) by lia.
  fold (st24_feed max). rewrite IH; [|by rewrite length_insert|lia|].
  2:{ intros j Hjl. specialize (Hj (S j)). simpl in Hj. lia. }
  cbn [mbind option_bind length replicate]. rewrite inserts_cons.
  by replace (Z.of_nat (S k) + 1 + zlen bs) with (Z.of_nat k + 1 + Z.of_nat (S (length bs))) by lia.
Qed.

(** The bytes up to the last data byte. *)
Lemma st24_header max len ty s o : _decode_state s = UNSYNCED -> 0 <= len <= 66 ->
  st24_feed max [0x55; 0x55; len; ty] s o =
  Some ([1; 1; 1; 1], mk GOT_TYPE 1 (Packet len ty (st24_data (_rxpacket s)) (crc8 (_rxpacket s))), o).
Proof.
  intros Hs Hl. unfold st24_feed. cbn [feed]. unfold st24_decode. rewrite Hs.
  cbn [mbind option_bind set_state _decode_state _rxpacket _rxlen]. simpl (_ =? _). cbn iota.
  cbn [mbind option_bind set_state _decode_state _rxpacket _rxlen].
  change (1 + 1 + ST24_DATA_LEN_MAX) with 66. by rewrite (proj2 (Z.leb_le len 66)) by lia.
Qed.

Lemma st24_body max ty c bs data o : length data = 64%nat -> (1 <= length bs <= 64)%nat ->
  let len := zlen bs + 2 in
  st24_feed max bs (mk GOT_TYPE 1 (Packet len ty data c)) o =
  Some (replicate (length bs) 1,
        mk GOT_DATA (len - 1) (Packet len ty (bs ++ drop (length bs) data) c), o).
Proof.
  intros Hd Hb len. destruct bs as [|b bs _] using rev_ind; [simpl in Hb; lia|].
  rewrite length_app in Hb. simpl in Hb. unfold st24_feed. rewrite feed_app. fold (st24_feed max).
  change 1 with (Z.of_nat 0 + 1). rewrite st24_data_bytes; [|done|lia|].
  2:{ intros j Hj. subst len. rewrite length_app. simpl. lia. }
  cbn [mbind option_bind]. unfold st24_feed.
  replace (Z.of_nat 0 + 1 + zlen bs) with (Z.of_nat (length bs) + 1) by lia.
  erewrite feed_cons by (apply st24_data_step; [by rewrite length_inserts|lia]).
  rewrite (proj2 (Z.eqb_eq _ _)) by (subst len; rewrite length_app; simpl; lia).
  replace (Z.of_nat (length bs) + 2) with (len - 1) by (subst len; rewrite length_app; simpl; lia).
  assert (Ed : <[length bs := b]> (list_inserts 0 bs data) = (bs ++ [b]) ++ drop (length (bs ++ [b])) data).
  { rewrite inserts_0, insert_app_r_alt, Nat.sub_diag, length_app by lia.
    rewrite <- drop_drop, <- app_assoc. f_equal.
    destruct (drop (length bs) data) as [|x l] eqn:E; [|done].
    apply (f_equal length) in E. rewrite length_drop in E. simpl in E. lia. }
  rewrite Ed, length_app, replicate_add. done.
Qed.

(** The last byte. *)
Lemma st24_last max ty c bs rest e o : (length bs <= 64)%nat ->
  let len := zlen bs + 2 in
  st24_decode e max (mk GOT_DATA (len - 1) (Packet len ty (bs ++ rest) c)) o =
  let s := mk UNSYNCED len (Packet len ty (bs ++ rest) e) in
  if st24_common_crc8 (len :: ty :: bs) =? e then
    if ty =? 0 then o ← channel_data 12 18 (bs ++ rest) max o; Some (0, s, o)
    else if ty =? 1 then o ← channel_data 24 36 (bs ++ rest) max o; Some (0, s, o)
    else Some (2, s, o)
  else Some (4, s, o).
Proof.
  intros Hb len. unfold st24_decode. cbn [_decode_state _rxlen _rxpacket length_ type_ st24_data crc8].
  rewrite u8_small by lia. replace (len - 1 + 1) with len by lia.
  rewrite blk_get_Some by (simpl; rewrite ?length_app; lia).
  change (len :: ty :: bs ++ rest) with ((len :: ty :: bs) ++ rest).
  rewrite drop_0. replace (Z.to_nat len) with (length (len :: ty :: bs)) by (simpl; lia).
  by rewrite take_app_length.
Qed.

(** A packet of [2 * pairs] channels; a decoder waiting for a frame. *)
Definition st24_payload t0 t1 r c chs := t0 :: t1 :: r :: c :: pack12 chs.
Definition st24_packet (pairs : nat) (payload : list Z) : list Z :=
  zlen payload + 2 :: (if (pairs =? 6)%nat then 0 else 1) :: payload.
Definition st24_ready s : Prop := _decode_state s = UNSYNCED /\ length (st24_data (_rxpacket s)) = 64%nat.

(** The frame up to its checksum, and the choice left to the last byte. *)
Lemma st24_frame max pairs payload e s o : st24_ready s -> pairs = 6%nat \/ pairs = 12%nat ->
  length payload = (4 + 3 * pairs)%nat ->
  let s' := mk UNSYNCED (zlen payload + 2) (Packet (zlen payload + 2)
    (if (pairs =? 6)%nat then 0 else 1)
    (payload ++ drop (length payload) (st24_data (_rxpacket s))) e) in
  st24_feed max (0x55 :: 0x55 :: st24_packet pairs payload ++ [e]) s o =
  '(r, o) ← (if st24_common_crc8 (st24_packet pairs payload) =? e
             then o ← channel_data (2 * Z.of_nat pairs) (3 * Z.of_nat pairs)
                        (payload ++ drop (length payload) (st24_data (_rxpacket s))) max o; Some (0, o)
             else Some (4, o));
  Some (replicate (length payload + 4) 1 ++ [r], s', o).
Proof.
  intros [Hs Hd] Hp Hl s'. unfold st24_packet.
  set (ty := if (pairs =? 6)%nat then 0 else 1) in *.
  change (0x55 :: 0x55 :: (zlen payload + 2 :: ty :: payload) ++ [e])
    with ([0x55; 0x55; zlen payload + 2; ty] ++ (payload ++ [e])).
  unfold st24_feed. rewrite feed_app. fold (st24_feed max). rewrite st24_header by (done || lia).
  cbn [mbind option_bind]. unfold st24_feed. rewrite feed_app. fold (st24_feed max).
  rewrite st24_body by (done || lia). cbn [mbind option_bind]. unfold st24_feed. cbn [feed].
  rewrite st24_last by lia. cbv zeta. rewrite Nat.add_comm, replicate_add. simpl replicate.
  destruct (_ =? e); [|done]. destruct Hp as [-> | ->]; subst ty; simpl (_ =? _)%nat; cbn iota;
    simpl (_ =? _); cbn iota.
  - change (2 * Z.of_nat 6) with 12. change (3 * Z.of_nat 6) with 18.
    by destruct (channel_data _ _ _ _ _).
  - change (2 * Z.of_nat 12) with 24. change (3 * Z.of_nat 12) with 36.
    by destruct (channel_data _ _ _ _ _).
Qed.

(** The ST24 receiver.  A packet of 12 or 24 channels of 12 bits, after the
    two start bytes and followed by its checksum, is decoded: the channels come
    out as pulses of 999 + x * 1000 / 4096 microseconds, rounded, at most
    [max_chan_count] of them and no more than the packet has, and any other
    checksum is refused and leaves the results alone; the decoder is then ready
    for the next frame.  An odd [max_chan_count] below the number of channels
    writes one channel too many, and a length byte of 0, 1 or 2 lets the frame
    run over the data array. *)
Theorem st24_reception max s o pairs chs t0 t1 r c :
  st24_ready s -> pairs = 6%nat \/ pairs = 12%nat -> length chs = (2 * pairs)%nat ->
  Forall (fun x => 0 <= x < 4096) chs -> 0 <= max < 65536 ->
  let packet := st24_packet pairs (st24_payload t0 t1 r c chs) in
  let crc := st24_common_crc8 packet in
  let n := Z.min max (2 * Z.of_nat pairs) in
  (Z.Even n -> n <= zlen (channels o) -> exists s',
     st24_feed max (0x55 :: 0x55 :: packet ++ [crc]) s o =
       Some (replicate (length packet + 2) 1 ++ [0], s',
             Out r c n (list_inserts 0 (map pulse (take (Z.to_nat n) chs)) (channels o))) /\
     st24_ready s') /\
  (forall e, e <> crc -> exists s',
     st24_feed max (0x55 :: 0x55 :: packet ++ [e]) s o =
       Some (replicate (length packet + 2) 1 ++ [4], s', o) /\ st24_ready s') /\
  (Z.Odd max -> max < 2 * Z.of_nat pairs -> zlen (channels o) = max ->
     st24_feed max (0x55 :: 0x55 :: packet ++ [crc]) s o = None) /\
  (forall len ty data, 0 <= len <= 2 -> length data = 65%nat ->
     st24_feed max (0x55 :: 0x55 :: len :: ty :: data) s o = None).
Proof.
  intros Hr Hp Hc Hch Hm packet crc n. set (payload := st24_payload t0 t1 r c chs) in *.
  assert (Hl : length payload = (4 + 3 * pairs)%nat)
    by (subst payload; simpl; by rewrite (pack12_length pairs)).
  assert (Hready : forall e, st24_ready (mk UNSYNCED (zlen payload + 2) (Packet (zlen payload + 2)
    (if (pairs =? 6)%nat then 0 else 1)
    (payload ++ drop (length payload) (st24_data (_rxpacket s))) e))).
  { intros e. split; [done|]. cbn [st24_data _rxpacket]. rewrite length_app, length_drop. destruct Hr as [_ ->]. lia. }
  replace (length packet + 2)%nat with (length payload + 4)%nat by (subst packet; simpl; lia).
  pose proof (fun e => st24_frame max pairs payload e s o Hr Hp Hl) as Ef. cbv zeta in Ef.
  fold packet in Ef.
  split; [|split; [|split]].
  - intros He Hn. eexists. split; [|apply (Hready crc)].
    rewrite Ef. fold crc. rewrite Z.eqb_refl.
    pose proof (channel_data_even pairs t0 t1 r c chs (drop (length payload) (st24_data (_rxpacket s)))
      max o Hc Hch ltac:(lia) He Hn) as E. cbv zeta in E.
    change (t0 :: _ :: _ :: _ :: _) with
      (payload ++ drop (length payload) (st24_data (_rxpacket s))) in E. by rewrite E.
  - intros e He. eexists. split; [|apply (Hready e)].
    rewrite Ef. fold crc. by rewrite (proj2 (Z.eqb_neq _ _)).
  - intros Ho Hlt Hn. rewrite Ef. fold crc. rewrite Z.eqb_refl.
    pose proof (channel_data_odd pairs t0 t1 r c chs (drop (length payload) (st24_data (_rxpacket s)))
      max o Hc Hch ltac:(lia) Ho Hn) as E.
    change (t0 :: _ :: _ :: _ :: _) with
      (payload ++ drop (length payload) (st24_data (_rxpacket s))) in E. by rewrite E.
  - intros len ty data Hlen Hd. destruct Hr as [Hs Hd64].
    change (0x55 :: 0x55 :: len :: ty :: data) with ([0x55; 0x55; len; ty] ++ data).
    unfold st24_feed. rewrite feed_app. fold (st24_feed max). rewrite st24_header by (done || lia).
    cbn [mbind option_bind]. rewrite <- (take_drop 64 data).
    unfold st24_feed. rewrite feed_app. fold (st24_feed max).
    change 1 with (Z.of_nat 0 + 1). rewrite st24_data_bytes; [|done|rewrite length_take; lia|lia].
    cbn [mbind option_bind]. rewrite length_take.
    destruct (drop 64 data) as [|b l] eqn:Ed.
    { apply (f_equal length) in Ed. rewrite length_drop in Ed. simpl in Ed. lia. }
    unfold st24_feed. cbn [feed]. unfold st24_decode.
    cbn [_decode_state _rxlen _rxpacket length_ type_ st24_data crc8].
    by rewrite arr_set_None by (rewrite length_inserts; lia).
Qed.
End st24.

Definition st24_demo_out : ST24.out := ST24.Out 0 0 0 (replicate 16 0).

Lemma st24_reception_witness :
  let chs := [0; 4095; 2048; 1; 2; 3; 1000; 2000; 3000; 4000; 17; 5] in
  let packet := st24_packet 6 (st24_payload 1 2 90 3 chs) in
  exists s', st24_feed 16 (0x55 :: 0x55 :: packet ++ [st24_common_crc8 packet]) ST24.create st24_demo_out =
    Some (replicate 26 1 ++ [0], s', ST24.Out 90 3 12
      ([999; 1999; 1499; 999; 999; 1000; 1243; 1487; 1731; 1976; 1003; 1000] ++ [0; 0; 0; 0])).
Proof.
  intros chs packet.
  destruct (st24_reception 16 ST24.create st24_demo_out 6 chs 1 2 90 3) as (H&_).
  - by split.
  - by left.
  - reflexivity.
  - repeat constructor; lia.
  - lia.
  - destruct H as (s'&H&_); [exists 6; reflexivity|simpl; lia|]. exists s'. exact H.
Defined.

(** * SUMD *)
Section sumd.
Import SUMD.
Implicit Types (s : t) (o : out).

Definition sumd_feed max := feed (fun byte => sumd_decode byte max).

(** The checksums of the two kinds of frame, from the header byte on. *)
Definition sum8 (kind : bool) (bs : list Z) : Z := if kind then 168 else foldl sumd_crc8 168 bs.
Definition sum16 (kind : bool) (bs : list Z) : Z :=
  if kind then foldl sumd_crc16 (sumd_crc16 0 168) bs else sumd_crc16 0 168.

Lemma checksum_spec kind bs b ok st0 n0 p0 st n p :
  checksum (mk (sum8 kind bs) (sum16 kind bs) kind ok st0 n0 p0) b st n p =
  mk (sum8 kind (bs ++ [b])) (sum16 kind (bs ++ [b])) kind ok st n p.
Proof. unfold checksum, sum8, sum16. destruct kind; cbn [_sumd _crc8 _crc16 _crcOK]; by rewrite foldl_app. Qed.

Definition status (kind : bool) : Z := if kind then 1 else 0.

(** The frame up to the number of channels. *)
Lemma sumd_header max kind n s o : _decode_state s = UNSYNCED -> 2 <= n <= 32 ->
  sumd_feed max [0xA8; status kind; n] s o =
  Some ([1; 1; 1], mk (sum8 kind [status kind; n]) (sum16 kind [status kind; n]) kind false GOT_LEN 1
    (Packet n (sumd_data (_rxpacket s)) (crc16_high (_rxpacket s)) (crc16_low (_rxpacket s))), o).
Proof.
  intros Hs Hn. unfold sumd_feed. cbn [feed]. unfold sumd_decode at 3. rewrite Hs.
  simpl (_ =? _). cbn iota. cbn [mbind option_bind]. unfold sumd_decode at 2.
  cbn [_decode_state]. replace ((status kind =? SUMD_ID_SUMD) || (status kind =? SUMD_ID_SUMH)) with true
    by by destruct kind. cbn iota. cbn [_rxpacket _crc8 _crc16 _sumd _crcOK _decode_state _rxlen].
  replace (if status kind =? SUMD_ID_SUMH then false else true) with kind by by destruct kind.
  change (mk (sumd_crc8 0 0xA8) (sumd_crc16 0 0xA8)) with (mk (sum8 true []) (sum16 true [])).
  replace (mk (sum8 true []) (sum16 true []) kind) with (mk (sum8 kind []) (sum16 kind []) kind)
    by by destruct kind.
  rewrite checksum_spec. cbn [mbind option_bind]. unfold sumd_decode.
  cbn [_decode_state _rxpacket _crc8 _crc16 _sumd _crcOK _rxlen].
  rewrite Z.geb_leb, !(proj2 (Z.leb_le _ _)) by (unfold SUMD_MAX_CHANNELS; lia). simpl andb. cbn iota.
  by rewrite checksum_spec.
Qed.

Lemma sumd_data_step max kind bs n k b data h l o : length data = 64%nat ->
  (k < 64)%nat ->
  sumd_decode b max (mk (sum8 kind bs) (sum16 kind bs) kind false GOT_LEN (Z.of_nat k)
    (Packet n data h l)) o =
  Some (1, mk (sum8 kind (bs ++ [b])) (sum16 kind (bs ++ [b])) kind false
    (if Z.of_nat k + 1 <=? n * 2 then GOT_LEN else GOT_DATA) (Z.of_nat k + 1)
    (Packet n (<[k := b]> data) h l), o).
Proof.
  intros Hd Hk. unfold sumd_decode. cbn [_decode_state _rxpacket _rxlen sumd_data length_ crc16_high crc16_low].
  rewrite arr_set_Some by lia. cbn [mbind option_bind]. rewrite u8_small, checksum_spec by lia.
  by rewrite Nat2Z.id.
Qed.

(** The data bytes, all of them. *)
Lemma sumd_data_bytes max kind n h l D : forall bs k data o, length data = 64%nat -> D <> [] ->
  n <= 31 -> Z.of_nat k + zlen D = n * 2 + 1 ->
  sumd_feed max D (mk (sum8 kind bs) (sum16 kind bs) kind false GOT_LEN (Z.of_nat k)
    (Packet n data h l)) o =
  Some (replicate (length D) 1, mk (sum8 kind (bs ++ D)) (sum16 kind (bs ++ D)) kind false GOT_DATA
    (n * 2 + 1) (Packet n (list_inserts k D data) h l), o).
Proof.
  induction D as [|b D IH]; intros bs k data o Hd Hne Hn Hk; [done|]. simpl in Hk.
  unfold sumd_feed. erewrite feed_cons by (apply sumd_data_step; [done|lia]). fold (sumd_feed max).
  destruct (decide (D = [])) as [->|HD].
  - simpl in Hk. rewrite (proj2 (Z.leb_gt _ _)) by lia. cbn [sumd_feed feed mbind option_bind].
    by replace (Z.of_nat k + 1) with (n * 2 + 1) by lia.
  - assert (length D <> 0%nat) by by destruct D. rewrite (proj2 (Z.leb_le _ _)) by lia.
    replace (Z.of_nat k + 1) with (Z.of_nat (S k)) by lia.
    rewrite IH by (rewrite ?length_insert; done || lia). cbn [mbind option_bind].
    by rewrite <- app_assoc, inserts_cons.
Qed.

(** The words of the frame, in transmission order, and the channels: the first
    three are rotated. *)
Definition words (ws : list Z) : list Z := concat (map (fun w => [w / 256; w mod 256]) ws).
Definition reorder (ws : list Z) : list Z :=
  match ws with w0 :: w1 :: w2 :: r => w1 :: w2 :: w0 :: r | _ => ws end.
Definition shift3 (w : Z) : Z := w / 8.

Lemma words_length ws : length (words ws) = (2 * length ws)%nat.
Proof. unfold words. induction ws as [|w ws IH]; simpl; lia. Qed.

Lemma words_bytes ws : Forall (fun w => 0 <= w < 65536) ws -> bytes (words ws).
Proof.
  induction 1 as [|w ws Hw _ IH]; [constructor|]. unfold words. simpl.
  repeat (apply Forall_cons; split; [zlia|]). exact IH.
Qed.

Lemma words_lookup ws : forall i w, ws !! i = Some w ->
  words ws !! (2 * i)%nat = Some (w / 256) /\ words ws !! (2 * i + 1)%nat = Some (w mod 256).
Proof.
  induction ws as [|w0 ws IH]; intros i w Hi; [done|]. destruct i as [|i].
  - injection Hi as ->. done.
  - apply IH in Hi. replace (2 * S i)%nat with (S (S (2 * i))) by lia. exact Hi.
Qed.

Lemma word_join w : 0 <= w < 65536 -> u16 ((w / 256) << 8 ||| (w mod 256)) >> 3 = shift3 w.
Proof.
  intros Hw. replace (((w / 256) << 8) ||| (w mod 256)) with w.
  { rewrite u16_small, Z.shiftr_div_pow2 by lia. done. }
  apply Z.bits_inj'. intros n Hn. rewrite Z.lor_spec, Z.shiftl_spec by done.
  change 256 with (2 ^ 8). destruct (decide (n < 8)).
  - by rewrite Z.mod_pow2_bits_low, (Z.testbit_neg_r _ (n - 8)) by lia.
  - rewrite Z.mod_pow2_bits_high, Z.div_pow2_bits, orb_false_r by lia. f_equal. lia.
Qed.

Lemma channel_word ws data i w : Forall (fun w => 0 <= w < 65536) ws ->
  (1 + 2 * length ws <= length data)%nat -> ws !! i = Some w ->
  channel (list_inserts 1 (words ws) data) (Z.of_nat i) = Some (shift3 w).
Proof.
  intros Hws Hd Hi. destruct (words_lookup ws i w Hi) as [H1 H2].
  pose proof (lookup_lt_Some _ _ _ Hi). pose proof (words_length ws).
  unfold channel. rewrite !arr_get_lookup, !lookup_inserts_dec by lia.
  rewrite !decide_True by lia.
  replace (Z.to_nat (Z.of_nat i * 2 + 1) - 1)%nat with (2 * i)%nat by lia.
  replace (Z.to_nat (Z.of_nat i * 2 + 2) - 1)%nat with (2 * i + 1)%nat by lia.
  rewrite H1, H2. cbn [mbind option_bind]. f_equal. apply word_join.
  exact (Forall_lookup_1 _ _ _ _ Hws Hi).
Qed.

Lemma put_channel_word ws data chans k i w : Forall (fun w => 0 <= w < 65536) ws ->
  (1 + 2 * length ws <= length data)%nat -> ws !! i = Some w -> (k < length chans)%nat ->
  put_channel (list_inserts 1 (words ws) data) chans (Z.of_nat k) (Z.of_nat i) =
  Some (<[k := shift3 w]> chans).
Proof.
  intros Hws Hd Hi Hk. unfold put_channel. rewrite (channel_word ws data i w) by done.
  cbn [mbind option_bind]. rewrite arr_set_Some by lia. by rewrite Nat2Z.id.
Qed.

Lemma put_channel_at ws data chans k i w : Forall (fun w => 0 <= w < 65536) ws ->
  (1 + 2 * length ws <= length data)%nat -> 0 <= i -> ws !! Z.to_nat i = Some w ->
  0 <= k < zlen chans ->
  put_channel (list_inserts 1 (words ws) data) chans k i = Some (<[Z.to_nat k := shift3 w]> chans).
Proof.
  intros Hws Hd Hi Hw Hk. rewrite <- (put_channel_word ws data chans (Z.to_nat k) (Z.to_nat i)) by (done || lia).
  by rewrite !Z2Nat.id by lia.
Qed.

Lemma rest_words ws data m : forall i chans, Forall (fun w => 0 <= w < 65536) ws ->
  (1 + 2 * length ws <= length data)%nat -> (i + m <= length ws)%nat -> (i + m <= length chans)%nat ->
  rest m (list_inserts 1 (words ws) data) (Z.of_nat i) chans =
  Some (list_inserts i (map shift3 (take m (drop i ws))) chans).
Proof.
  induction m as [|m IH]; intros i chans Hws Hd Hi Hc; [done|]. cbn [rest].
  destruct (lookup_lt_is_Some_2 ws i) as [w Hw]; [lia|].
  rewrite (put_channel_word ws data chans i i w) by (done || lia). cbn [mbind option_bind].
  replace (Z.of_nat i + 1) with (Z.of_nat (S i)) by lia.
  rewrite IH by (rewrite ?length_insert; done || lia).
  rewrite (drop_S ws w i Hw). cbn [take map]. by rewrite inserts_cons.
Qed.

Lemma decode_channels_words ws data chans n : Forall (fun w => 0 <= w < 65536) ws ->
  (1 + 2 * length ws <= length data)%nat -> (4 <= n <= length ws)%nat -> (n <= length chans)%nat ->
  decode_channels (Z.of_nat n) (list_inserts 1 (words ws) data) chans =
  Some (list_inserts 0 (map shift3 (take n (reorder ws))) chans).
Proof.
  intros Hws Hd Hn Hc. destruct ws as [|w0 [|w1 [|w2 [|w3 ws]]]]; simpl in Hn; [lia..|].
  unfold decode_channels. set (l := w0 :: w1 :: w2 :: w3 :: ws) in *.
  pose proof (put_channel_at l data) as Hp.
  rewrite (Hp chans 0 1 w1) by (done || lia). cbn [mbind option_bind].
  rewrite (Hp _ 1 2 w2) by (rewrite ?length_insert; done || lia). cbn [mbind option_bind].
  rewrite (Hp _ 2 0 w0) by (rewrite ?length_insert; done || lia). cbn [mbind option_bind].
  rewrite (Hp _ 3 3 w3) by (rewrite ?length_insert; done || lia). cbn [mbind option_bind].
  pose proof (rest_words l data (n - 4) 4) as Hr. change (Z.of_nat 4) with 4 in Hr.
  replace (Z.to_nat (Z.of_nat n - 4)) with (n - 4)%nat by lia.
  rewrite Hr by (rewrite ?length_insert; simpl; done || lia).
  change (drop 4 l) with ws. subst l. cbn [reorder].
  replace n with (S (S (S (S (n - 4))))) at 2 by lia. cbn [take map]. by rewrite !inserts_cons.
Qed.

(** What follows the data, and what makes it right. *)
Definition trailer (kind : bool) h l tel e : list Z := if kind then [h; l] else [h; l; tel; e].
Definition sum_ok (kind : bool) bs h l e : bool :=
  if kind then sum16 kind bs =? h * 256 + l else sum8 kind bs =? e.
Definition sumd_ready s : Prop := _decode_state s = UNSYNCED /\ length (sumd_data (_rxpacket s)) = 64%nat.

Lemma sumd_trailer max kind bs n r data h0 l0 h l tel e o : length data = 64%nat ->
  0 <= h < 256 -> 0 <= n <= 32 -> 0 <= max ->
  let cc := Z.min n max in
  exists S1 S2, sumd_ready S1 /\ sumd_ready S2 /\
    sumd_feed max (trailer kind h l tel e)
      (mk (sum8 kind bs) (sum16 kind bs) kind false GOT_DATA r (Packet n data h0 l0)) o =
    let rs := replicate (length (trailer kind h l tel e) - 1) 1 in
    if sum_ok kind bs h l e then
      channels ← decode_channels cc data (channels o);
      Some (rs ++ [0], S1, Out 100 (u8 (rx_count o + 1)) cc channels)
    else Some (rs ++ [4], S2, o).
Proof.
  intros Hd Hh Hn Hm cc.
  assert (Ecc : (if n >? max then u8 max else n) = cc).
  { subst cc. rewrite Z.gtb_ltb. destruct (Z.ltb_spec max n); [rewrite u8_small; lia|lia]. }
  assert (Eh : u16 (h << 8) = h * 256) by (rewrite Z.shiftl_mul_pow2, u16_small; lia).
  exists (mk (sum8 kind bs) (sum16 kind bs) kind true UNSYNCED r (Packet cc data h l)).
  exists (mk (sum8 kind bs) (sum16 kind bs) kind false UNSYNCED r (Packet n data h l)).
  split; [done|]. split; [done|]. unfold sumd_feed. destruct kind; cbn [trailer feed].
  all: unfold sumd_decode, set_state; cbn [_decode_state mbind option_bind _rxpacket _crc8 _crc16 _sumd
    _crcOK _rxlen length_ sumd_data crc16_high crc16_low]; unfold finish;
    cbn [_decode_state _rxpacket _crc8 _crc16 _sumd _crcOK _rxlen length_ sumd_data crc16_high
      crc16_low orb]; rewrite Ecc, ?Eh; unfold sum_ok.
  - destruct (_ =? h * 256 + l); [|done]. by destruct (decode_channels _ _ _).
  - destruct (_ =? e); [|done]. by destruct (decode_channels _ _ _).
Qed.

(** A whole frame. *)
Lemma sumd_frame max kind n D h l tel e s o : sumd_ready s -> 0 <= h < 256 -> 2 <= n <= 31 -> 0 <= max ->
  zlen D = n * 2 ->
  exists S1 S2, sumd_ready S1 /\ sumd_ready S2 /\
    sumd_feed max ([0xA8; status kind; n] ++ D ++ trailer kind h l tel e) s o =
    let rs := replicate (length D + length (trailer kind h l tel e) + 2) 1 in
    if sum_ok kind (status kind :: n :: D) h l e then
      channels ← decode_channels (Z.min n max) (list_inserts 1 D (sumd_data (_rxpacket s))) (channels o);
      Some (rs ++ [0], S1, Out 100 (u8 (rx_count o + 1)) (Z.min n max) channels)
    else Some (rs ++ [4], S2, o).
Proof.
  intros [Hs Hd] Hh Hn Hm HD.
  destruct (sumd_trailer max kind (status kind :: n :: D) n (n * 2 + 1)
    (list_inserts 1 D (sumd_data (_rxpacket s))) (crc16_high (_rxpacket s)) (crc16_low (_rxpacket s))
    h l tel e o) as (S1&S2&H1&H2&E); [by rewrite length_inserts|lia..|].
  exists S1, S2. split; [done|]. split; [done|].
  unfold sumd_feed. rewrite feed_app. fold (sumd_feed max). rewrite sumd_header by (done || lia).
  cbn [mbind option_bind]. unfold sumd_feed. rewrite feed_app. fold (sumd_feed max).
  pose proof (sumd_data_bytes max kind n (crc16_high (_rxpacket s)) (crc16_low (_rxpacket s)) D
    [status kind; n] 1 (sumd_data (_rxpacket s)) o Hd) as Ed. change (Z.of_nat 1) with 1 in Ed.
  rewrite Ed by (lia || by destruct D; [simpl in HD; lia|]). clear Ed.
  cbn [mbind option_bind app]. rewrite E. cbv zeta.
  assert (Er : replicate (length D + length (trailer kind h l tel e) + 2) 1 =
    [1; 1; 1] ++ replicate (length D) 1 ++ replicate (length (trailer kind h l tel e) - 1) 1).
  { replace (length D + length (trailer kind h l tel e) + 2)%nat
      with (3 + (length D + (length (trailer kind h l tel e) - 1)))%nat by (destruct kind; simpl; lia).
    by rewrite !replicate_add. }
  rewrite Er, <- !app_assoc. destruct (sum_ok _ _ _ _ _); [|done].
  destruct (decode_channels _ _ _); [|done]. done.
Qed.

(** Too many data bytes for the array. *)
Lemma sumd_data_overrun max kind n h l D : forall bs k data o, length data = 64%nat -> D <> [] ->
  64 <= n * 2 -> Z.of_nat k + zlen D = 65 ->
  sumd_feed max D (mk (sum8 kind bs) (sum16 kind bs) kind false GOT_LEN (Z.of_nat k)
    (Packet n data h l)) o = None.
Proof.
  induction D as [|b D IH]; intros bs k data o Hd Hne Hn Hk; [done|]. simpl in Hk. unfold sumd_feed.
  destruct (decide (k = 64%nat)) as [->|Hk64].
  - cbn [feed]. unfold sumd_decode at 2. cbn [_decode_state _rxpacket _rxlen sumd_data].
    by rewrite arr_set_None by lia.
  - erewrite feed_cons by (apply sumd_data_step; [done|lia]). fold (sumd_feed max).
    rewrite (proj2 (Z.leb_le _ _)) by lia. replace (Z.of_nat k + 1) with (Z.of_nat (S k)) by lia.
    rewrite IH; [done|by rewrite length_insert|by intros ->; simpl in Hk; lia|done|lia].
Qed.

(** Four channels are written in any case. *)
Lemma decode_channels_short len data chans : zlen chans <= 3 -> decode_channels len data chans = None.
Proof.
  assert (Hput : forall c k i, match put_channel data c k i with
    | Some c' => length c' = length c | None => True end).
  { intros c k i. unfold put_channel. destruct (channel data i) as [v|]; [|done].
    cbn [mbind option_bind]. destruct (arr_set c k v) as [c'|] eqn:E; [|done].
    apply arr_set_inv in E as [_ ->]. apply length_insert. }
  intros Hc. unfold decode_channels.
  pose proof (Hput chans 0 1) as H0. destruct (put_channel data chans 0 1) as [c0|]; [|done].
  cbn [mbind option_bind]. pose proof (Hput c0 1 2) as H1.
  destruct (put_channel data c0 1 2) as [c1|]; [|done]. cbn [mbind option_bind].
  pose proof (Hput c1 2 0) as H2. destruct (put_channel data c1 2 0) as [c2|]; [|done].
  cbn [mbind option_bind]. assert (E : put_channel data c2 3 3 = None); [|by rewrite E].
  unfold put_channel. apply bind_none. intros v. apply arr_set_None. lia.
Qed.

Lemma sum16_range kind bs : bytes bs -> 0 <= sum16 kind bs < 65536.
Proof.
  intros Hb. unfold sum16. assert (H0 : 0 <= sumd_crc16 0 168 < 65536) by done.
  destruct kind; [|done]. rewrite sumd_crc16_fold by done. by apply crc16_fold_range.
Qed.

(** The frames of the first kind that are accepted; their checksum over all the
    bytes is zero. *)
Definition sumd_accepted max n X s o : Prop := exists rets s' o',
  sumd_feed max ([0xA8; 1; n] ++ X) s o = Some (rets ++ [0], s', o').

Lemma sumd_accepted_zero max n X s o : sumd_ready s -> 2 <= n <= 31 -> 0 <= max ->
  zlen X = n * 2 + 2 -> bytes X -> sumd_accepted max n X s o ->
  foldl crc16_step (sumd_crc16 0 168) (1 :: n :: X) = 0.
Proof.
  intros Hr Hn Hm HX HbX (rets&s'&o'&E).
  destruct X as [|l X _] using rev_ind; [simpl in HX; lia|].
  destruct X as [|h D _] using rev_ind; [simpl in HX; lia|].
  unfold bytes in HbX. rewrite !Forall_app, !Forall_singleton in HbX. destruct HbX as [[HD Hh] Hl].
  rewrite !length_app in HX. simpl in HX.
  destruct (sumd_frame max true n D h l 0 0 s o) as (S1&S2&_&_&Ef); [done|lia..|].
  cbn [trailer status] in Ef. rewrite <- app_assoc in E. simpl app in E, Ef. rewrite Ef in E.
  clear Ef. cbv zeta in E. unfold sum_ok in E.
  assert (Hb : bytes (1 :: n :: D)) by (repeat (apply Forall_cons; split; [lia|]); done).
  destruct (Z.eqb_spec (sum16 true (1 :: n :: D)) (h * 256 + l)) as [Ec|Ec].
  - replace (1 :: n :: (D ++ [h]) ++ [l]) with ((1 :: n :: D) ++ [h; l]) by (simpl; by rewrite <- app_assoc).
    rewrite foldl_app. unfold sum16 in Ec.
    assert (H0 : 0 <= sumd_crc16 0 168 < 65536) by (vm_compute; split; [discriminate|reflexivity]).
    rewrite sumd_crc16_fold in Ec by exact Hb || exact H0.
    pose proof (crc16_fold_range _ Hb _ H0) as Hc. revert Ec Hc.
    generalize (foldl crc16_step (sumd_crc16 0 168) (1 :: n :: D)). intros c Ec Hc. cbn [foldl].
    by apply crc16_append.
  - injection E as E _ _. apply (f_equal last) in E. rewrite !last_snoc in E. done.
Qed.

(** The SUMD receiver.  A SUMD frame of 4 to 31 channels with its CRC, or a
    SUMH frame with its sum, is decoded from any state between frames: at least 4
    and at most [max_chan_count] channels of 13 bits come out, the first three
    rotated, with the packet count stepped, and the decoder is ready for the next
    frame; a wrong checksum leaves the results alone.  Of two SUMD frames that
    differ in two neighbouring bytes at most, wherever they are after the header,
    one only is accepted.  A frame of 32 channels runs over the data array, and a
    frame of 2 or 3 channels writes 4 channels whatever there is room for. *)
Theorem sumd_reception max s o : sumd_ready s -> 4 <= max < 65536 ->
  (forall kind n ws h l tel e, 4 <= n <= 31 -> zlen ws = n -> Forall (fun w => 0 <= w < 65536) ws ->
     0 <= h < 256 -> Z.min n max <= zlen (channels o) ->
     let frame := [0xA8; status kind; n] ++ words ws ++ trailer kind h l tel e in
     exists s', sumd_ready s' /\
       sumd_feed max frame s o =
         if sum_ok kind (status kind :: n :: words ws) h l e
         then Some (replicate (length frame - 1) 1 ++ [0], s',
                Out 100 (u8 (rx_count o + 1)) (Z.min n max)
                  (list_inserts 0 (map shift3 (take (Z.to_nat (Z.min n max)) (reorder ws))) (channels o)))
         else Some (replicate (length frame - 1) 1 ++ [4], s', o)) /\
  (forall n p q a b a' b', 2 <= n <= 31 -> bytes p -> bytes q -> bytes [a; b; a'; b'] ->
     zlen p + zlen q = n * 2 ->
     sumd_accepted max n (p ++ a :: b :: q) s o -> sumd_accepted max n (p ++ a' :: b' :: q) s o ->
     a = a' /\ b = b') /\
  (forall kind D, length D = 64%nat -> sumd_feed max ([0xA8; status kind; 32] ++ D) s o = None) /\
  (forall kind n ws h l tel e, 2 <= n <= 3 -> zlen ws = n -> Forall (fun w => 0 <= w < 65536) ws ->
     0 <= h < 256 -> sum_ok kind (status kind :: n :: words ws) h l e = true -> zlen (channels o) = n ->
     sumd_feed max ([0xA8; status kind; n] ++ words ws ++ trailer kind h l tel e) s o = None).
Proof.
  intros Hr Hm. split; [|split; [|split]].
  - intros kind n ws h l tel e Hn Hw Hws Hh Hc frame. pose proof (words_length ws) as Hl.
    destruct (sumd_frame max kind n (words ws) h l tel e s o) as (S1&S2&H1&H2&E); [done|lia..|].
    fold frame in E. rewrite E. clear E. cbv zeta.
    assert (El : (length frame - 1)%nat = (length (words ws) + length (trailer kind h l tel e) + 2)%nat).
    { unfold frame. simpl. rewrite length_app. lia. }
    rewrite El. destruct (sum_ok _ _ _ _ _); [|by exists S2].
    exists S1. split; [done|]. destruct Hr as [_ Hd].
    pose proof (decode_channels_words ws (sumd_data (_rxpacket s)) (channels o) (Z.to_nat (Z.min n max))) as Ed.
    rewrite Z2Nat.id in Ed by lia. by rewrite Ed by (done || lia).
  - intros n p q a b a' b' Hn Hp Hq Hab Hl H1 H2.
    assert (HX : forall a b, bytes [a; b] -> bytes (p ++ a :: b :: q)).
    { intros x y Hxy. apply Forall_app. split; [done|]. by apply (Forall_app_2 _ [x; y] q). }
    unfold bytes in Hab. rewrite !Forall_cons in Hab. destruct Hab as (Ha&Hb&Ha'&Hb'&_).
    apply sumd_accepted_zero in H1; [|done|done|lia|rewrite length_app; simpl; lia|apply HX; bytes_tac].
    apply sumd_accepted_zero in H2; [|done|done|lia|rewrite length_app; simpl; lia|apply HX; bytes_tac].
    pose proof (eq_trans H1 (eq_sym H2)) as E. apply (crc16_burst (sumd_crc16 0 168) (1 :: n :: p) a b a' b' q); [| |exact Hq| |exact E].
    + vm_compute. split; [discriminate|reflexivity].
    + bytes_tac.
    + bytes_tac.
  - intros kind D HD. destruct Hr as [Hs Hd].
    unfold sumd_feed. rewrite feed_app. fold (sumd_feed max). rewrite sumd_header by (done || lia).
    cbn [mbind option_bind].
    pose proof (sumd_data_overrun max kind 32 (crc16_high (_rxpacket s)) (crc16_low (_rxpacket s)) D
      [status kind; 32] 1 _ o Hd) as E. change (Z.of_nat 1) with 1 in E.
    rewrite E; [done|by intros ->|done|lia].
  - intros kind n ws h l tel e Hn Hw Hws Hh Hok Hc. pose proof (words_length ws) as Hl.
    destruct (sumd_frame max kind n (words ws) h l tel e s o) as (S1&S2&_&_&E); [done|lia..|].
    rewrite E, Hok. by rewrite decode_channels_short by lia.
Qed.
End sumd.

Definition sumd_demo_out : SUMD.out := SUMD.Out 0 0 0 (replicate 16 0).
Definition sumd_demo_frame : list Z := [1; 4; 46; 224; 45; 200; 34; 0; 30; 120].

Lemma sumd_reception_witness :
  let crc := sum16 true sumd_demo_frame in
  exists s', sumd_feed 16 ([0xA8] ++ sumd_demo_frame ++ [crc / 256; crc mod 256])
      SUMD.create sumd_demo_out =
    Some (replicate 12 1 ++ [0], s',
          SUMD.Out 100 1 4 ([1465; 1088; 1500; 975] ++ replicate 12 0)).
Proof.
  intros crc. destruct (sumd_reception 16 SUMD.create sumd_demo_out) as (H&_).
  - by split.
  - lia.
  - destruct (H true 4 [12000; 11720; 8704; 7800] (crc / 256) (crc mod 256) 0 0) as (s'&_&E).
    + lia.
    + reflexivity.
    + repeat constructor; lia.
    + vm_compute. split; [discriminate|reflexivity].
    + simpl. lia.
    + exists s'. exact E.
Defined.

(** * SRXL *)
Section srxl.
Import SRXL.
Implicit Types (s : t) (o : out).

(** Any bytes are words. *)
Lemma words_of_bytes k : forall l, bytes l -> length l = (2 * k)%nat ->
  exists ws, l = words ws /\ length ws = k /\ Forall (fun w => 0 <= w < 65536) ws.
Proof.
  induction k as [|k IH]; intros l Hb Hl; [destruct l; [by exists []|done]|].
  destruct l as [|a [|b l]]; simpl in Hl; [lia..|]. unfold bytes in Hb. rewrite !Forall_cons in Hb.
  destruct Hb as (Ha&Hb&Hbs). destruct (IH l) as (ws&->&Hws&Hr); [done|lia|].
  exists (a * 256 + b :: ws). split; [|split; [simpl; lia|constructor; [lia|done]]].
  unfold words. simpl. f_equal; [zlia|]. f_equal. zlia.
Qed.

(** A word of the first two variants as a pulse. *)
Definition srxl_pulse (w : Z) : Z := w mod 4096 * 1400 / 4096 + 800.

Lemma v1v2_value w : 0 <= w < 65536 ->
  u16 ((((((w / 256) &&& 0xF) << 8) ||| (w mod 256)) * 1400 >> 12) + 800) = srxl_pulse w.
Proof.
  intros Hw. assert (E : (((w / 256) &&& 0xF) << 8) ||| (w mod 256) = w mod 4096).
  { change 0xF with (Z.ones 4). rewrite Z.land_ones by lia.
    apply Z.bits_inj'. intros n Hn. rewrite Z.lor_spec, Z.shiftl_spec by done.
    change 256 with (2 ^ 8). change 4096 with (2 ^ 12). destruct (decide (n < 8)).
    - by rewrite !Z.mod_pow2_bits_low, (Z.testbit_neg_r _ (n - 8)) by lia.
    - rewrite (Z.mod_pow2_bits_high _ 8), orb_false_r by lia. destruct (decide (n < 12)).
      + rewrite !Z.mod_pow2_bits_low, Z.div_pow2_bits by lia. f_equal. lia.
      + by rewrite !Z.mod_pow2_bits_high by lia. }
  rewrite E, Z.shiftr_div_pow2 by lia. unfold srxl_pulse. change (2 ^ 12) with 4096.
  apply u16_small. zlia.
Qed.

Lemma v1v2_loop_words h ws rest m : forall i chans, Forall (fun w => 0 <= w < 65536) ws ->
  (i + m <= length ws)%nat -> (i + m <= length chans)%nat ->
  v1v2_loop m (Z.of_nat i) (h :: words ws ++ rest) chans =
  Some (list_inserts i (map srxl_pulse (take m (drop i ws))) chans).
Proof.
  induction m as [|m IH]; intros i chans Hws Hi Hc; [done|]. cbn [v1v2_loop].
  destruct (lookup_lt_is_Some_2 ws i) as [w Hw]; [lia|].
  destruct (words_lookup ws i w Hw) as [H1 H2].
  apply (lookup_app_l_Some _ rest) in H1, H2.
  change (h :: words ws ++ rest) with ([h] ++ words ws ++ rest).
  rewrite (arr_get_mid [h] _ (2 * i) (w / 256) (Z.of_nat i * 2 + 1)),
    (arr_get_mid [h] _ (2 * i + 1) (w mod 256) (Z.of_nat i * 2 + 2))
    by (exact H1 || exact H2 || (simpl length; lia)).
  cbn [mbind option_bind]. rewrite v1v2_value by exact (Forall_lookup_1 _ _ _ _ Hws Hw).
  rewrite arr_set_Some by lia. cbn [mbind option_bind]. rewrite Nat2Z.id.
  replace (Z.of_nat i + 1) with (Z.of_nat (S i)) by lia. simpl app.
  rewrite IH by (rewrite ?length_insert; done || lia).
  rewrite (drop_S ws w i Hw). cbn [take map]. by rewrite inserts_cons.
Qed.

(** A pulse, or a channel not received yet. *)
Definition servo (v : Z) : Prop := v = 0 \/ 800 <= v <= 2199.

Lemma srxl_pulse_servo w : servo (srxl_pulse w).
Proof. right. unfold srxl_pulse. zlia. Qed.

Lemma v5_word_range b b1 c v : 0 <= b < 65536 -> v5_word b b1 = Some (c, v) ->
  0 <= c < 20 /\ 916 <= v <= 2083.
Proof.
  intros Hb. unfold v5_word. destruct (nz (b &&& 0x8000)); [done|].
  set (cv := if b >> 11 =? 12 then _ else _).
  assert (Hcv : 0 <= cv.1 /\ 0 <= cv.2 < 2048).
  { assert (H0 : 0 <= b >> 11) by (apply Z.shiftr_nonneg; lia).
    assert (H1 : 0 <= (b &&& 0x1FF) << 2 < 2048).
    { change 0x1FF with (Z.ones 9). rewrite Z.land_ones, Z.shiftl_mul_pow2 by lia.
      change (2 ^ 9) with 512. change (2 ^ 2) with 4. zlia. }
    assert (H2 : 0 <= b &&& 0x7FF < 2048).
    { change 0x7FF with (Z.ones 11). rewrite Z.land_ones by lia. by apply Z.mod_pos_bound. }
    subst cv. destruct (b >> 11 =? 12); [|destruct (b >> 11 >? 12); simpl; lia].
    simpl. split; [|lia]. destruct (nz (b1 &&& 1)); apply u16_range. }
  destruct cv as [c' v']. simpl in Hcv. unfold SRXL_MAX_CHANNELS.
  destruct (Z.ltb_spec c' 20); [|done]. intros [= <- <-]. rewrite u16_small by zlia. zlia.
Qed.

Lemma v5_loop_spec m : forall i buf chans max, 0 <= i -> length buf = 35%nat -> bytes buf ->
  i + Z.of_nat m <= 7 -> length chans = 20%nat -> Forall servo chans -> 0 <= max <= 20 ->
  exists chans' max', v5_loop m i buf chans max = Some (chans', max') /\
    length chans' = 20%nat /\ Forall servo chans' /\ 0 <= max' <= 20.
Proof.
  induction m as [|m IH]; intros i buf chans max Hi Hb Hbb Hm Hc Hs Hmax; cbn [v5_loop].
  { by exists chans, max. }
  destruct (arr_get_Some buf (i * 2 + 2)) as [hi ->]; [lia|].
  destruct (arr_get_Some buf (i * 2 + 3)) as [lo ->]; [lia|].
  destruct (arr_get_Some buf 1) as [b1 ->]; [lia|]. cbn [mbind option_bind].
  destruct (v5_word _ b1) as [[c v]|] eqn:E; [|apply IH; done || lia].
  apply v5_word_range in E as [Hc0 Hv]; [|apply u16_range].
  rewrite arr_set_Some by lia. cbn [mbind option_bind]. apply IH; try done; try lia.
  - by rewrite length_insert.
  - apply Forall_insert; [done|]. right. lia.
  - destruct (c >=? max); [rewrite u16_small; lia|lia].
Qed.

Lemma provide_spec s num fs o : length (channels s) = 20%nat -> Forall servo (channels s) ->
  0 <= num <= 20 -> num <= zlen (values o) ->
  exists vs, provide s num fs o = Some (Out num vs fs) /\
    vs = list_inserts 0 (take (Z.to_nat num) (channels s)) (values o) /\
    length vs = length (values o) /\ Forall servo (take (Z.to_nat num) vs).
Proof.
  intros Hl Hs Hn Hv. unfold provide. rewrite blk_get_Some by lia. cbn [mbind option_bind].
  rewrite drop_0. set (l := take (Z.to_nat num) (channels s)).
  assert (El : length l = Z.to_nat num) by (unfold l; rewrite length_take; lia).
  rewrite blk_set_Some by lia. cbn [mbind option_bind]. change (Z.to_nat 0) with 0%nat.
  eexists. split; [done|]. split; [done|]. split; [apply length_inserts|].
  rewrite inserts_0, <- El, take_app_length by lia. by apply Forall_take.
Qed.

(** The frames known, by length and header. *)
Definition variant (len h : Z) : Prop :=
  len = 27 /\ h = 0xA1 \/ len = 35 /\ h = 0xA2 \/ len = 18 /\ h = 0xA5.

(** What a call leaves in the results: at most [max] channels, all of them pulses. *)
Definition srxl_result max o o' : Prop :=
  0 <= num_values o' <= Z.min 20 max /\ length (values o') = length (values o) /\
  Forall servo (take (Z.to_nat (num_values o')) (values o')).

(** The arrays of the decoder. *)
Record srxl_arrays s : Prop := {
  sa_buffer : length (buffer s) = 35%nat;
  sa_bytes : bytes (buffer s);
  sa_channels : length (channels s) = 20%nat;
  sa_servo : Forall servo (channels s);
  sa_max : 0 <= max_channels s <= 20
}.

Lemma limit_num num max : 0 <= num <= 20 -> 0 <= max ->
  (if num >? max then u8 max else num) = Z.min num max.
Proof. intros. rewrite Z.gtb_ltb. destruct (Z.ltb_spec max num); [rewrite u8_small|]; lia. Qed.

Lemma provide_result s num max fs o : length (channels s) = 20%nat -> Forall servo (channels s) ->
  0 <= num <= 20 -> 0 <= max <= zlen (values o) ->
  exists o', provide s (if num >? max then u8 max else num) fs o = Some o' /\ srxl_result max o o'.
Proof.
  intros Hl Hs Hn Hm. rewrite limit_num by lia.
  destruct (provide_spec s (Z.min num max) fs o) as (vs&E&_&Hlv&Hsv); [done|done|lia|lia|].
  eexists. split; [exact E|]. split; [simpl; lia|]. by split.
Qed.

(** The channels of a whole frame. *)
Definition srxl_get max s o : option (Z * t * out) :=
  if frame_header s =? SRXL_HEADER_V1 then srxl_channels_get_v1v2 max s o
  else if frame_header s =? SRXL_HEADER_V2 then srxl_channels_get_v1v2 max s o
  else if frame_header s =? SRXL_HEADER_V5 then srxl_channels_get_v5 max s o
  else Some (2, s, o).

Lemma variant_num s : frame_len_full s = 27 \/ frame_len_full s = 35 ->
  u8 (u32 (frame_len_full s - 3) / 2) = (frame_len_full s - 3) / 2.
Proof. by intros [-> | ->]. Qed.

Lemma v1v2_spec max s o h ws rest : buffer s = h :: words ws ++ rest ->
  Forall (fun w => 0 <= w < 65536) ws -> frame_len_full s = 27 \/ frame_len_full s = 35 ->
  let n := (frame_len_full s - 3) / 2 in
  n <= zlen ws -> length (channels s) = 20%nat ->
  srxl_channels_get_v1v2 max s o =
    let s' := set_channels s (list_inserts 0 (map srxl_pulse (take (Z.to_nat n) ws)) (channels s))
                (max_channels s) in
    o' ← provide s' (if n >? max then u8 max else n) false o; Some (0, s', o').
Proof.
  intros Hb Hws Hf n Hn Hc. unfold srxl_channels_get_v1v2. rewrite variant_num by done. fold n.
  assert (Hn16 : 0 <= n <= 16) by (subst n; destruct Hf as [-> | ->]; vm_compute; split; discriminate).
  rewrite Hb. pose proof (v1v2_loop_words h ws rest (Z.to_nat n) 0 (channels s)) as E.
  change (Z.of_nat 0) with 0 in E. rewrite E by (done || lia). rewrite drop_0. done.
Qed.

Lemma srxl_get_spec max s o : srxl_arrays s -> variant (frame_len_full s) (frame_header s) ->
  0 <= max <= zlen (values o) ->
  exists chans m o', srxl_get max s o = Some (0, set_channels s chans m, o') /\
    srxl_arrays (set_channels s chans m) /\ srxl_result max o o'.
Proof.
  intros [Hb Hbb Hc Hs Hmc] Hv Hm.
  assert (H12 : frame_len_full s = 27 \/ frame_len_full s = 35 -> exists chans m o',
    srxl_channels_get_v1v2 max s o = Some (0, set_channels s chans m, o') /\
    srxl_arrays (set_channels s chans m) /\ srxl_result max o o').
  { intros Hf. destruct (buffer s) as [|h l] eqn:Eb; [done|]. simpl in Hb.
    apply Forall_cons in Hbb as [Hh Hl].
    destruct (words_of_bytes 17 l) as (ws&Ew&Hw&Hws); [done|lia|].
    assert (Hn : 0 <= (frame_len_full s - 3) / 2 <= 16)
      by (destruct Hf as [-> | ->]; vm_compute; split; discriminate).
    rewrite (v1v2_spec max s o h ws []) by (done || lia || by rewrite app_nil_r, <- Ew).
    set (chans := list_inserts 0 _ _). cbv zeta.
    assert (Hcl : length chans = 20%nat) by (unfold chans; by rewrite length_inserts).
    assert (Hcs : Forall servo chans).
    { unfold chans. rewrite inserts_0 by (rewrite length_map, length_take; lia).
      apply Forall_app. split; [|by apply Forall_drop]. apply Forall_forall.
      intros v (w&->&_)%list_elem_of_fmap. apply srxl_pulse_servo. }
    destruct (provide_result (set_channels s chans (max_channels s)) ((frame_len_full s - 3) / 2) max
      false o) as (o'&E&Hr); [done|done|lia|done|].
    rewrite E. exists chans, (max_channels s), o'. split; [done|]. split; [|done].
    split; try done; simpl; rewrite Eb; [simpl; lia|by constructor]. }
  unfold srxl_get. destruct Hv as [[Hl ->]|[[Hl ->]|[Hl ->]]]; simpl (_ =? _); cbn iota; [auto..|].
  unfold srxl_channels_get_v5.
  destruct (v5_loop_spec 7 0 (buffer s) (channels s) (max_channels s))
    as (chans&m&->&Hcl&Hcs&Hmm); [done..|lia|done|done|lia|].
  cbn [mbind option_bind]. rewrite u8_small by lia.
  destruct (arr_get_Some (buffer s) 1) as [b1 Eb1]; [lia|].
  change (buffer (set_channels s chans m)) with (buffer s). rewrite Eb1. cbn [mbind option_bind].
  destruct (provide_result (set_channels s chans m) m max (b1 &&& 2 =? 0) o)
    as (o'&E&Hr); [done..|].
  rewrite E. exists chans, m, o'. split; [done|]. split; [by split|exact Hr].
Qed.

(** In the middle of a frame. *)
Definition collecting s : Prop :=
  decode_state s = STATE_COLLECT /\ decode_state_next s = STATE_COLLECT /\
  1 <= buflen s < frame_len_full s /\ variant (frame_len_full s) (frame_header s).

Lemma variant_len len h : variant len h -> 18 <= len <= 35.
Proof. intros [[-> _]|[[-> _]|[-> _]]]; lia. Qed.

Lemma header_spec byte s :
  match header byte s with
  | Some s1 => exists len, variant len byte /\ s1 = new_frame s len byte
  | None => byte <> 0xA1 /\ byte <> 0xA2 /\ byte <> 0xA5
  end.
Proof.
  unfold header. destruct (Z.eqb_spec byte SRXL_HEADER_V1) as [->|H1]; [by exists 27; split; [left|]|].
  destruct (Z.eqb_spec byte SRXL_HEADER_V2) as [->|H2]; [by exists 35; split; [right; left|]|].
  destruct (Z.eqb_spec byte SRXL_HEADER_V5) as [->|H3]; [by exists 18; split; [right; right|]|].
  done.
Qed.

(** The state after the header of a frame. *)
Definition started s now len h : t :=
  mk (<[0%nat := h]> (buffer s)) 1 now (channels s) h len STATE_COLLECT STATE_COLLECT
    (srxl_crc16 0 h) (crc_receiver s) (max_channels s).

Lemma receive_new now max s len h o : length (buffer s) = 35%nat ->
  receive now h max (new_frame s len h) o = Some (1, started s now len h, o).
Proof. intros Hb. unfold receive. cbn [decode_state new_frame buffer]. by rewrite arr_set_Some by lia. Qed.

(** The state after a byte of a frame. *)
Definition collected s now byte : t :=
  mk (<[Z.to_nat (buflen s) := byte]> (buffer s)) (buflen s + 1) now (channels s) (frame_header s)
    (frame_len_full s) STATE_COLLECT STATE_COLLECT
    (if buflen s + 1 <=? frame_len_full s - 2 then srxl_crc16 (crc_fmu s) byte else crc_fmu s)
    (crc_receiver s) (max_channels s).

(** The last byte: the checksum decides. *)
Definition ended s now byte max o : option (Z * t * out) :=
  let s1 := collected s (last_data_us s) byte in
  hi ← arr_get (buffer s1) (buflen s1 - 2);
  lo ← arr_get (buffer s1) (buflen s1 - 1);
  let crc := u16 (hi << 8) ||| lo in
  let s1 := set_next s1 STATE_COLLECT crc in
  '(ret, s1, o) ← (if crc =? crc_fmu s1 then srxl_get max s1 o else Some (4, s1, o));
  Some (ret, leave (set_next s1 STATE_IDLE (crc_receiver s1)) now, o).

Lemma receive_collect now byte max s o : collecting s -> length (buffer s) = 35%nat ->
  receive now byte max s o =
  if buflen s + 1 =? frame_len_full s then ended s now byte max o
  else Some (1, collected s now byte, o).
Proof.
  intros (Hd&Hn&Hb&Hv) Hl. pose proof (variant_len _ _ Hv). unfold receive. rewrite Hd.
  rewrite Z.geb_leb, (proj2 (Z.leb_gt _ _)) by lia. unfold collect.
  rewrite arr_set_Some by lia. cbn [mbind option_bind]. rewrite u8_small by lia.
  rewrite Hd, Hn. cbn [buflen frame_len_full].
  destruct (buflen s + 1 =? frame_len_full s); [|done].
  unfold frame_done, ended, srxl_get, collected. cbn [buffer buflen].
  destruct (arr_get _ (buflen s + 1 - 2)) as [hi|]; [|done]. cbn [mbind option_bind].
  destruct (arr_get _ (buflen s + 1 - 1)) as [lo|]; [|done]. cbn [mbind option_bind].
  cbn [set_next decode_state_next crc_fmu frame_header].
  destruct (_ =? _); [|done].
  by destruct (if frame_header s =? SRXL_HEADER_V1 then _ else _) as [[[? ?] ?]|].
Qed.

(** * Reachable states of SRXL *)
Record srxl_inv (T : Z) s : Prop := {
  inv_arrays : srxl_arrays s;
  inv_time : 0 <= last_data_us s <= T;
  inv_state : collecting s \/ decode_state s = STATE_IDLE /\
    (decode_state_next s = STATE_IDLE \/
     decode_state_next s = STATE_COLLECT /\ 8000 <= T - last_data_us s)
}.

Lemma arrays_started s now len h : srxl_arrays s -> 0 <= h < 256 -> srxl_arrays (started s now len h).
Proof.
  intros [Hb Hbb Hc Hs Hm] Hh. split; try done; cbn [started buffer].
  - by rewrite length_insert.
  - by apply Forall_insert.
Qed.

Lemma arrays_collected s now byte : srxl_arrays s -> 0 <= byte < 256 -> srxl_arrays (collected s now byte).
Proof.
  intros [Hb Hbb Hc Hs Hm] Hh. split; try done; cbn [collected buffer].
  - by rewrite length_insert.
  - by apply Forall_insert.
Qed.

Lemma ended_spec s now byte max o : srxl_arrays s -> collecting s -> 0 <= byte < 256 ->
  buflen s + 1 = frame_len_full s -> 0 <= now -> 0 <= max <= zlen (values o) ->
  exists ret s' o', ended s now byte max o = Some (ret, s', o') /\ srxl_inv now s' /\
    (ret = 0 /\ srxl_result max o o' \/ ret = 4 /\ o' = o).
Proof.
  intros Ha (Hd&Hn&Hb&Hv) Hbyte Hlen Hnow Hm. pose proof (variant_len _ _ Hv).
  pose proof (arrays_collected s (last_data_us s) byte Ha Hbyte) as Ha1.
  unfold ended. set (s1 := collected _ _ _) in *. destruct Ha1 as [Hb1 Hbb1 Hc1 Hs1 Hm1].
  assert (Hbl : buflen s1 = buflen s + 1) by done.
  destruct (arr_get_Some (buffer s1) (buflen s1 - 2)) as [hi ->]; [lia|].
  destruct (arr_get_Some (buffer s1) (buflen s1 - 1)) as [lo ->]; [lia|].
  cbn [mbind option_bind]. set (s2 := set_next s1 STATE_COLLECT _).
  assert (Ha2 : srxl_arrays s2) by by split.
  assert (Hinv : forall s3, srxl_arrays s3 -> srxl_inv now (leave (set_next s3 STATE_IDLE (crc_receiver s3)) now)).
  { intros s3 [? ? ? ? ?]. split; [by split|simpl; lia|]. right. split; [done|by left]. }
  destruct (_ =? crc_fmu s2).
  - destruct (srxl_get_spec max s2 o Ha2) as (chans&m&o'&->&Ha3&Hr); [exact Hv|done|].
    cbn [mbind option_bind]. eexists _, _, o'. split; [done|]. split; [by apply Hinv|by left].
  - cbn [mbind option_bind]. eexists _, _, o. split; [done|]. split; [by apply Hinv|by right].
Qed.

Lemma receive_spec T now byte max s o : srxl_inv T s -> T <= now -> 0 <= byte < 256 ->
  0 <= max <= zlen (values o) -> decode_state s = STATE_IDLE -> decode_state_next s = STATE_IDLE ->
  receive now byte max s o = Some (1, leave s now, o) /\ srxl_inv now (leave s now).
Proof.
  intros [[? ? ? ? ?] Ht _] HT Hb Hm Hd Hn. unfold receive. rewrite Hd. split; [done|].
  split; [by split|simpl; lia|]. right. simpl. rewrite Hn. split; [done|by left].
Qed.

(** One call keeps the invariant. *)
Lemma srxl_step T now byte max s o : srxl_inv T s -> T <= now < 18446744073709551616 ->
  0 <= byte < 256 -> 0 <= max <= zlen (values o) ->
  exists ret s' o', srxl_decode now byte max s o = Some (ret, s', o') /\ srxl_inv now s' /\
    (ret = 0 /\ srxl_result max o o' \/ (ret = 1 \/ ret = 4) /\ o' = o \/
     ret = 2 /\ o' = o /\ 8000 <= now - last_data_us s /\
     byte <> 0xA1 /\ byte <> 0xA2 /\ byte <> 0xA5 /\ last_data_us s' = last_data_us s).
Proof.
  intros Hinv HT Hb Hm. pose proof Hinv as [Ha Ht Hst]. unfold srxl_decode.
  rewrite u64_small, Z.geb_leb by lia. unfold SRXL_MIN_FRAMESPACE_US.
  destruct (Z.leb_spec 8000 (now - last_data_us s)) as [Hgap|Hgap].
  - pose proof (header_spec byte s) as Hh. destruct (header byte s) as [s1|].
    + destruct Hh as (len&Hv&->). rewrite receive_new by apply Ha. eexists _, _, o. split; [done|].
      split; [|by right; left; split; [left|]]. split; [by apply arrays_started|simpl; lia|].
      left. pose proof (variant_len _ _ Hv). repeat split; simpl; done || lia.
    + eexists _, _, o. split; [done|]. split;
        [|right; right; destruct Hh as (?&?&?); repeat (split; [done|]); done]. destruct Ha as [? ? ? ? ?].
      split; [by split|simpl; lia|]. right. split; [done|]. simpl.
      destruct Hst as [(_&->&_)|[_ [->|[-> _]]]]; [right; split; [done|lia]|by left|right; split; [done|lia]].
  - destruct Hst as [Hc|[Hd [Hn|[_ Hg]]]]; [|by destruct (receive_spec T now byte max s o) as [-> Hi];
      [done|lia|done..|]; eexists _, _, o; split; [done|]; split; [done|]; right; left; split; [left|]|lia].
    rewrite receive_collect by (done || apply Ha).
    destruct (Z.eqb_spec (buflen s + 1) (frame_len_full s)) as [E|E].
    + destruct (ended_spec s now byte max o) as (ret&s'&o'&->&Hi&Hr); [done..|lia|done|].
      exists ret, s', o'. split; [done|]. split; [done|].
      destruct Hr as [Hr|[-> ->]]; [by left|]. right. left. split; [by right|done].
    + eexists _, _, o. split; [done|]. split; [|by right; left; split; [left|]].
      split; [by apply arrays_collected|simpl; lia|]. left. destruct Hc as (Hd&Hn&Hb'&Hv).
      repeat split; simpl; done || lia.
Qed.

(** The states the decoder can be in at time [T], fed with bytes at times that do
    not decrease. *)
Inductive srxl_reachable (max : Z) : Z -> t -> out -> Prop :=
| srxl_start o : max <= zlen (values o) -> srxl_reachable max 0 create o
| srxl_next T s o now byte ret s' o' : srxl_reachable max T s o ->
    T <= now < 18446744073709551616 -> 0 <= byte < 256 ->
    srxl_decode now byte max s o = Some (ret, s', o') -> srxl_reachable max now s' o'.

Lemma srxl_reachable_inv max T s o : 0 <= max -> srxl_reachable max T s o ->
  srxl_inv T s /\ max <= zlen (values o).
Proof.
  intros Hmax. induction 1 as [o Hm|T s o now byte ret s' o' _ [IH Hm] HT Hb E].
  - split; [|done]. split; [|simpl; lia|right; split; [done|by left]].
    split; try done; [by apply Forall_replicate|by apply Forall_replicate; left].
  - destruct (srxl_step T now byte max s o) as (ret1&s1&o1&E1&Hi&Hr); [done|lia..|].
    rewrite E in E1. injection E1 as <- <- <-. split; [done|].
    destruct Hr as [[_ (_&->&_)]|[[_ ->]|(_&->&_)]]; done.
Qed.

(** The SRXL receiver never runs over an array, whatever the bytes and
    whenever they arrive: from every reachable state a call returns; the code its
    comment calls a logic bug is never reached, for only an unknown header after
    a gap of 8ms is answered by 2; the results change with a good frame only and
    are then at most 20 and at most [max_values] channels, each a pulse between
    800 and 2199 microseconds or zero when it was never received.  After an
    unknown header the decoder does not wait for a gap: the next byte that looks
    like a header, however soon it comes, is taken for one. *)
Theorem srxl_safety max T s o now byte : srxl_reachable max T s o -> 0 <= max ->
  T <= now < 18446744073709551616 -> 0 <= byte < 256 ->
  exists ret s' o', srxl_decode now byte max s o = Some (ret, s', o') /\
    (ret = 0 /\ srxl_result max o o' \/
     (ret = 1 \/ ret = 4) /\ o' = o \/
     ret = 2 /\ o' = o /\ 8000 <= now - last_data_us s /\
       byte <> 0xA1 /\ byte <> 0xA2 /\ byte <> 0xA5 /\
       forall now' len h, now <= now' < 18446744073709551616 -> variant len h ->
         exists s2, srxl_decode now' h max s' o' = Some (1, s2, o') /\ collecting s2).
Proof.
  intros Hre Hmax HT Hb. destruct (srxl_reachable_inv _ _ _ _ Hmax Hre) as [Hinv Hm].
  destruct (srxl_step T now byte max s o) as (ret&s'&o'&E&Hi&Hr); [done|lia..|].
  exists ret, s', o'. split; [done|].
  destruct Hr as [Hr|[Hr|(->&->&Hg&H1&H2&H5&Hl)]]; [by left|by right; left|right; right].
  repeat (split; [done|]). intros now' len h Hn Hv.
  pose proof (inv_time _ _ Hinv) as Ht.
  exists (started s' now' len h). unfold srxl_decode.
  rewrite Hl, u64_small, Z.geb_leb by lia. unfold SRXL_MIN_FRAMESPACE_US.
  rewrite (proj2 (Z.leb_le _ _)) by lia.
  assert (Eh : header h s' = Some (new_frame s' len h)).
  { destruct Hv as [[-> ->]|[[-> ->]|[-> ->]]]; done. }
  rewrite Eh, receive_new by apply Hi. split; [done|].
  pose proof (variant_len _ _ Hv). repeat split; simpl; done || lia.
Qed.

Definition srxl_demo_out : out := Out 0 (replicate 16 0) true.

Lemma srxl_safety_witness : exists s', srxl_decode 9000 0x33 16 create srxl_demo_out =
  Some (2, s', srxl_demo_out).
Proof.
  destruct (srxl_safety 16 0 create srxl_demo_out 9000 0x33) as (ret&s'&o'&E&_).
  - apply srxl_start. simpl. lia.
  - lia.
  - lia.
  - lia.
  - exists s'. rewrite E. vm_compute in E. injection E as <- _ <-. reflexivity.
Defined.

(** Times between which the decoder sees no gap. *)
Fixpoint no_gap (last : Z) (ts : list Z) : Prop :=
  match ts with
  | [] => True
  | t :: ts => u64 (t - last) < 8000 /\ no_gap t ts
  end.

Definition srxl_feed max := feed (fun tb : Z * Z => srxl_decode tb.1 tb.2 max).

Lemma srxl_decode_collect now byte max s o : collecting s -> length (buffer s) = 35%nat ->
  u64 (now - last_data_us s) < 8000 ->
  srxl_decode now byte max s o =
  if buflen s + 1 =? frame_len_full s then ended s now byte max o
  else Some (1, collected s now byte, o).
Proof.
  intros Hc Hl Hg. unfold srxl_decode. rewrite Z.geb_leb, (proj2 (Z.leb_gt _ _)) by done.
  by apply receive_collect.
Qed.

Lemma last_cons_default (ts : list Z) : forall t0 d, List.last (t0 :: ts) d = List.last ts t0.
Proof. induction ts as [|t1 ts IH]; intros t0 d; [done|]. exact (eq_trans (IH t1 d) (eq_sym (IH t1 t0))). Qed.

(** Bytes of the payload. *)
Lemma srxl_payload max D : forall ts s o, length ts = length D -> no_gap (last_data_us s) ts ->
  collecting s -> length (buffer s) = 35%nat -> buflen s + zlen D <= frame_len_full s - 2 ->
  srxl_feed max (zip ts D) s o =
  Some (replicate (length D) 1,
    mk (list_inserts (Z.to_nat (buflen s)) D (buffer s)) (buflen s + zlen D)
       (List.last ts (last_data_us s)) (channels s) (frame_header s) (frame_len_full s)
       STATE_COLLECT STATE_COLLECT (foldl srxl_crc16 (crc_fmu s) D) (crc_receiver s) (max_channels s), o).
Proof.
  induction D as [|b D IH]; intros ts s o Ht Hg Hc Hl Hb.
  { destruct ts; [|done]. destruct Hc as (Hd&Hn&_). simpl. rewrite Z.add_0_r.
    destruct s; simpl in *. by rewrite Hd, Hn. }
  destruct ts as [|t0 ts]; [done|]. destruct Hg as [Hg Hgs]. simpl in Hb.
  unfold srxl_feed. cbn [zip zip_with feed fst snd]. fold (srxl_feed max).
  rewrite srxl_decode_collect, (proj2 (Z.eqb_neq _ _)) by (done || lia). cbn [mbind option_bind].
  assert (Hc1 : collecting (collected s t0 b)).
  { destruct Hc as (Hd&Hn&Hb'&Hv). repeat split; simpl; done || lia. }
  change (no_gap (last_data_us (collected s t0 b)) ts) in Hgs.
  change (zip_with pair ts D) with (zip ts D).
  rewrite (IH ts (collected s t0 b) o); [|simpl in Ht; lia|done|done|simpl; by rewrite length_insert|simpl; lia].
  cbn [mbind option_bind collected buffer buflen last_data_us channels frame_header frame_len_full
    crc_fmu crc_receiver max_channels length replicate foldl].
  destruct Hc as (_&_&Hb'&_). rewrite (proj2 (Z.leb_le _ _)), inserts_cons, last_cons_default by lia.
  replace (Z.to_nat (buflen s + 1)) with (S (Z.to_nat (buflen s))) by lia.
  by replace (buflen s + 1 + zlen D) with (buflen s + Z.of_nat (S (length D))) by lia.
Qed.

Lemma crc_word e1 e2 : 0 <= e1 < 256 -> 0 <= e2 < 256 -> u16 (e1 << 8) ||| e2 = e1 * 256 + e2.
Proof.
  intros H1 H2. rewrite u16_small by by apply byte_shift.
  apply Z.bits_inj'. intros n Hn. rewrite Z.lor_spec, Z.shiftl_spec by done.
  replace (e1 * 256 + e2) with (e2 + e1 * 2 ^ 8) by lia. destruct (decide (n < 8)).
  - rewrite (Z.testbit_neg_r _ (n - 8)) by lia. simpl.
    rewrite <- (Z.mod_pow2_bits_low (e2 + e1 * 2 ^ 8) 8 n), Z.mod_add, Z.mod_small by lia. done.
  - rewrite (testbit_above e2 8 n), orb_false_r by lia.
    replace n with (n - 8 + 8) at 2 by lia. rewrite <- Z.div_pow2_bits, Z.div_add, Z.div_small by lia.
    done.
Qed.

(** The end of a frame of words. *)
Lemma srxl_end max s o h len k ws e1 e2 now now' : length (channels s) = 20%nat ->
  Forall servo (channels s) -> length (buffer s) = 35%nat ->
  len = 27 /\ h = 0xA1 /\ k = 12%nat \/ len = 35 /\ h = 0xA2 /\ k = 16%nat ->
  length ws = k -> Forall (fun w => 0 <= w < 65536) ws -> 0 <= e1 < 256 -> 0 <= e2 < 256 ->
  0 <= max <= zlen (values o) ->
  frame_len_full s = len -> frame_header s = h -> buflen s = len - 2 ->
  (exists buf, length buf = 35%nat /\ buffer s = list_inserts 0 (h :: words ws) buf) ->
  let n := Z.min (Z.of_nat k) max in
  exists s', ended (collected s now e1) now' e2 max o =
    (if crc_fmu s =? e1 * 256 + e2
     then Some (0, s', Out n (list_inserts 0 (map srxl_pulse (take (Z.to_nat n) ws)) (values o)) false)
     else Some (4, s', o)) /\ decode_state s' = STATE_IDLE.
Proof.
  intros Hc Hcs Hb Hk Hw Hws He1 He2 Hm Hl Hh Hbl (buf&Hbuf&Eb) n.
  pose proof (words_length ws) as Hwl.
  assert (Hk' : len = 2 * Z.of_nat k + 3 /\ (k <= 16)%nat) by (destruct Hk as [(->&_&->)|(->&_&->)]; lia).
  destruct Hk' as [Elen Hk16]. unfold ended. set (s1 := collected (collected s now e1) _ e2).
  assert (Eb1 : buffer s1 = h :: words ws ++ e1 :: e2 :: drop (2 * k + 3) buf).
  { unfold s1, collected. cbn [buffer buflen]. rewrite Eb, Hbl.
    replace (Z.to_nat (len - 2)) with (length (h :: words ws) + 0)%nat by (simpl; lia).
    replace (Z.to_nat (len - 2 + 1)) with (length (h :: words ws) + 1)%nat by (simpl; lia).
    rewrite inserts_0 by (simpl; lia). rewrite !insert_app_r.
    destruct (drop (length (h :: words ws)) buf) as [|x [|y r]] eqn:Ed;
      try (apply (f_equal length) in Ed; rewrite length_drop in Ed; simpl in Ed; lia).
    replace (2 * k + 3)%nat with (length (h :: words ws) + 2)%nat by (simpl; lia).
    rewrite <- drop_drop, Ed. done. }
  assert (Ebl : buflen s1 = len) by (unfold s1, collected; cbn [buflen]; lia).
  assert (Ec : crc_fmu s1 = crc_fmu s).
  { unfold s1, collected. cbn [crc_fmu buflen frame_len_full]. rewrite Hbl, Hl.
    by rewrite !(proj2 (Z.leb_gt _ _)) by lia. }
  rewrite Eb1, Ebl. change (h :: words ws ++ ?r) with ((h :: words ws) ++ r).
  rewrite (arr_get_mid (h :: words ws) _ 0 e1 (len - 2)), (arr_get_mid (h :: words ws) _ 1 e2 (len - 1))
    by (done || (simpl; lia)).
  cbn [mbind option_bind]. rewrite crc_word by done. set (s2 := set_next s1 STATE_COLLECT _).
  change (crc_fmu s2) with (crc_fmu s1). rewrite Ec, Z.eqb_sym.
  destruct (crc_fmu s =? e1 * 256 + e2); [|eexists; split; reflexivity].
  assert (Eget : srxl_get max s2 o = srxl_channels_get_v1v2 max s2 o).
  { unfold srxl_get. change (frame_header s2) with (frame_header s). rewrite Hh.
    by destruct Hk as [(_&->&_)|(_&->&_)]. }
  assert (Hlen2 : frame_len_full s2 = len) by exact Hl.
  assert (En : (len - 3) / 2 = Z.of_nat k) by (rewrite Elen; zlia).
  pose proof (v1v2_spec max s2 o h ws (e1 :: e2 :: drop (2 * k + 3) buf) Eb1 Hws) as Ev.
  rewrite Hlen2, En in Ev. cbv zeta in Ev.
  rewrite Eget, Ev; [|destruct Hk as [(->&_)|(->&_)]; auto|lia|exact Hc]. clear Ev.
  rewrite limit_num by lia. fold n. set (s3 := set_channels s2 _ _).
  destruct (provide_spec s3 n false o) as (vs&->&Evs&_); [| |lia|lia|].
  { unfold s3. simpl. by rewrite length_inserts. }
  { unfold s3. cbn [channels set_channels]. rewrite inserts_0.
    2:{ rewrite length_map, length_take. change (channels s2) with (channels s). lia. }
    apply Forall_app. split; [|by apply Forall_drop]. apply Forall_forall.
    intros v (w&->&_)%list_elem_of_fmap. apply srxl_pulse_servo. }
  assert (Evs' : vs = list_inserts 0 (map srxl_pulse (take (Z.to_nat n) ws)) (values o)).
  { rewrite Evs. unfold s3. cbn [channels set_channels]. change (channels s2) with (channels s).
    rewrite (inserts_0 _ (channels s)) by (rewrite length_map, length_take; lia).
    rewrite take_app_le by (rewrite length_map, length_take; lia).
    by rewrite firstn_map, take_take, Nat.min_l by lia. }
  cbn [mbind option_bind]. rewrite Evs'. eexists. split; reflexivity.
Qed.

Lemma no_gap_app ts1 ts2 : forall t0, no_gap t0 (ts1 ++ ts2) ->
  no_gap t0 ts1 /\ no_gap (List.last ts1 t0) ts2.
Proof.
  induction ts1 as [|t1 ts1 IH]; intros t0; [done|]. cbn [app no_gap].
  intros [H0 H]. apply IH in H as [H1 H2]. rewrite last_cons_default. done.
Qed.

(** The SRXL frames of 12 and 16 channels: a header after a gap of 8ms, the
    words and a checksum, without a gap between them, give every word as a pulse
    of 800 + (w mod 4096) * 1400 / 4096 microseconds, at most [max_values] of them,
    when the checksum is that of the frame; with any other checksum the call that
    ends the frame returns 4 and the results stay. The decoder is idle after it,
    whatever it was doing before the gap. *)
Theorem srxl_frame max s o len h k ws t0 ts e1 e2 : srxl_arrays s ->
  len = 27 /\ h = 0xA1 /\ k = 12%nat \/ len = 35 /\ h = 0xA2 /\ k = 16%nat ->
  length ws = k -> Forall (fun w => 0 <= w < 65536) ws -> 0 <= e1 < 256 -> 0 <= e2 < 256 ->
  0 <= max <= zlen (values o) ->
  8000 <= u64 (t0 - last_data_us s) -> no_gap t0 ts -> length ts = (2 * k + 2)%nat ->
  let n := Z.min (Z.of_nat k) max in
  let crc := foldl srxl_crc16 0 (h :: words ws) in
  exists s', srxl_feed max (zip (t0 :: ts) (h :: words ws ++ [e1; e2])) s o =
    (if crc =? e1 * 256 + e2
     then Some (replicate (2 * k + 2) 1 ++ [0], s',
            Out n (list_inserts 0 (map srxl_pulse (take (Z.to_nat n) ws)) (values o)) false)
     else Some (replicate (2 * k + 2) 1 ++ [4], s', o)) /\ decode_state s' = STATE_IDLE.
Proof.
  intros Ha Hk Hw Hws He1 He2 Hm Hgap Hno Hts n crc. destruct Ha as [Hb Hbb Hc Hcs Hmc].
  pose proof (words_length ws) as Hwl.
  assert (Elen : len = 2 * Z.of_nat k + 3 /\ (k <= 16)%nat /\ variant len h).
  { destruct Hk as [(->&->&->)|(->&->&->)]; (split; [lia|split; [lia|]]); [by left|by right; left]. }
  destruct Elen as (Elen&Hk16&Hv).
  destruct ts as [|t2 ts _] using rev_ind; [simpl in Hts; lia|].
  destruct ts as [|t1 ts _] using rev_ind; [simpl in Hts; lia|].
  rewrite !length_app in Hts. simpl in Hts. rewrite <- app_assoc in Hno. simpl app in Hno.
  apply no_gap_app in Hno as (Hno&Hg1&Hg2&_).
  rewrite <- app_assoc. simpl app. unfold srxl_feed.
  change (zip (t0 :: ts ++ [t1; t2]) (h :: words ws ++ [e1; e2]))
    with ((t0, h) :: zip (ts ++ [t1; t2]) (words ws ++ [e1; e2])).
  assert (E0 : srxl_decode t0 h max s o = Some (1, started s t0 len h, o)).
  { unfold srxl_decode. rewrite Z.geb_leb, (proj2 (Z.leb_le _ _)) by done.
    assert (Eh : header h s = Some (new_frame s len h)).
    { destruct Hv as [[-> ->]|[[-> ->]|[-> ->]]]; done. }
    rewrite Eh. by apply receive_new. }
  erewrite feed_cons by exact E0. rewrite zip_with_app by lia. rewrite feed_app.
  fold (srxl_feed max). set (s0 := started s t0 len h).
  rewrite (srxl_payload max (words ws) ts s0); [|lia|exact Hno| | |simpl; lia].
  2:{ repeat split; simpl; done || lia. }
  2:{ simpl. by rewrite length_insert. }
  cbn [mbind option_bind]. set (s2 := mk _ _ _ _ _ _ _ _ _ _ _).
  assert (Hc2 : collecting s2) by (repeat split; simpl; done || lia).
  assert (Hb2 : length (buffer s2) = 35%nat).
  { unfold s2. cbn [buffer]. rewrite length_inserts. simpl. by rewrite length_insert. }
  change (zip_with pair [t1; t2] [e1; e2]) with [(t1, e1); (t2, e2)]. unfold srxl_feed. cbn [feed fst snd].
  rewrite srxl_decode_collect by (done || exact Hg1).
  rewrite (proj2 (Z.eqb_neq _ _)) by (simpl; lia). cbn [mbind option_bind].
  assert (Hc3 : collecting (collected s2 t1 e1)).
  { destruct Hc2 as (_&_&_&Hv2). repeat split; [simpl; lia|simpl; lia|exact Hv2]. }
  rewrite srxl_decode_collect; [|exact Hc3| |exact Hg2].
  2:{ cbn [collected buffer]. by rewrite length_insert. }
  rewrite (proj2 (Z.eqb_eq _ _)) by (simpl; lia).
  destruct (srxl_end max s2 o h len k ws e1 e2 t1 t2) as (s'&E&Hi); try done; [simpl; lia| |].
  { exists (buffer s). split; [done|]. unfold s2, s0. cbn [buffer started buflen].
    change (Z.to_nat 1) with 1%nat. by rewrite inserts_cons. }
  change (crc_fmu s2) with crc in E. rewrite E. fold n. exists s'. split; [|done].
  assert (Er : forall r, replicate (2 * k + 2) 1 ++ [r] = 1 :: replicate (length (words ws)) 1 ++ [1; r]).
  { intros r. replace (2 * k + 2)%nat with (S (length (words ws) + 1)) by lia.
    cbn [replicate]. by rewrite replicate_add, <- app_comm_cons, <- app_assoc. }
  rewrite !Er. by destruct (crc =? e1 * 256 + e2).
Qed.
End srxl.

Lemma srxl_frame_witness :
  let ws := [2048; 4095; 0; 1000; 1; 2; 3; 4; 5; 6; 7; 8] in
  let crc := foldl srxl_crc16 0 (0xA1 :: words ws) in
  exists s', srxl_feed 16 (zip (map (fun k => 10000 + 100 * k) (seqZ 0 27))
      (0xA1 :: words ws ++ [crc / 256; crc mod 256])) SRXL.create srxl_demo_out =
    Some (replicate 26 1 ++ [0], s',
          SRXL.Out 12 ([1500; 2199; 800; 1141; 800; 800; 801; 801; 801; 802; 802; 802] ++ [0; 0; 0; 0]) false).
Proof.
  intros ws crc.
  destruct (srxl_frame 16 SRXL.create srxl_demo_out 27 0xA1 12 ws 10000
    (map (fun k => 10000 + 100 * k) (seqZ 1 26)) (crc / 256) (crc mod 256)) as (s'&E&_).
  - split; try done; [by apply Forall_replicate|by apply Forall_replicate; left].
  - left. done.
  - reflexivity.
  - repeat constructor; lia.
  - vm_compute. split; [discriminate|reflexivity].
  - vm_compute. split; [discriminate|reflexivity].
  - simpl. lia.
  - vm_compute. discriminate.
  - vm_compute. repeat split.
  - reflexivity.
  - exists s'. vm_compute in E |- *. exact E.
Defined.
