(* ===== verification/RingBufferSPSC.v ===== *)
(** [ByteBuffer] shared by a writer and a reader thread
    (libraries/AP_HAL/utility/RingBuffer.cpp), as the UART drivers of the HALs
    use it: one thread calls [write], another calls [read] and [read_byte],
    without a lock.  [head] and [tail] are [std::atomic]: a load or a store of
    one of them is a step of its own, and so is every byte that a [memcpy]
    moves.  A schedule chooses the thread of each step. *)
From S2P Require Import Prelude RingBuffer.

Module SPSC.
Import ByteBuffer.

(** * The threads *)

(** The writer inside [write]; each constructor is what is left to do from
    a load or store of a shared variable on.  [ret] bytes are copied from the
    parts before [vec], and [k] from the first part of [vec]. *)
Inductive writer :=
| WIdle
| WReserve (d : list Z)                                (* [reserve] loads [head] *)
| WCopy (d : list Z) (vec : list IoVec) (ret k : Z)    (* [memcpy] to the storage *)
| WCommit (d : list Z) (ret : Z)                       (* [commit] loads [head] *)
| WStore (d : list Z) (ret : Z).                       (* [commit] stores [tail] *)

(** The reader inside [read] or [read_byte]; [acc] is what it has copied out. *)
Inductive reader :=
| RIdle
| RPeek (n : Z)                                        (* [available] loads [tail] *)
| RPtr (n : Z)                                         (* [readptr] loads [tail] *)
| RCopy (vec : list IoVec) (acc : list Z) (k : Z)      (* [memcpy] from the storage *)
| RByte                                                (* [peek(0)] loads [tail] *)
| RByteGet                                             (* and reads the byte *)
| RAdvance (acc : list Z)                              (* [advance] loads [tail] *)
| RStore (acc : list Z).                               (* [advance] stores [head] *)

#[global] Instance widle_dec p : Decision (p = WIdle).
Proof. destruct p; by (left + right). Defined.
#[global] Instance ridle_dec p : Decision (p = RIdle).
Proof. destruct p; by (left + right). Defined.

(** One step of a thread: its next state, the buffer, and the bytes that it
    counts as written (read) when the call returns.  [None] is undefined. *)
Definition wstep (p : writer) (b : t) : option (writer * t * list Z) :=
  match p with
  | WIdle => Some (WIdle, b, [])
  | WReserve d => Some (WCopy d (reserve b (zlen d)) 0 0, b, [])
  | WCopy d [] ret _ => Some (WCommit d ret, b, [])
  | WCopy d (v :: vec) ret k =>
    if k <? len v then
      x ← arr_get d (ret + k);
      l ← arr_set (buf b) (data v + k) x;
      Some (WCopy d (v :: vec) ret (k + 1), set_buf b l, [])
    else Some (WCopy d vec (u32 (ret + len v)) 0, b, [])
  | WCommit d ret =>
    if ret >? space b then Some (WIdle, b, take (Z.to_nat ret) d)
    else Some (WStore d ret, b, [])
  | WStore d ret =>
    x ← rem_size b (tail b + ret);
    Some (WIdle, set_tail b x, take (Z.to_nat ret) d)
  end.

Definition rstep (p : reader) (b : t) : option (reader * t * list Z) :=
  match p with
  | RIdle => Some (RIdle, b, [])
  | RPeek n =>
    let n := if n >? available b then available b else n in
    Some (if n =? 0 then RAdvance [] else RPtr n, b, [])
  | RPtr n =>
    let first := readptr b in
    let first := if first >? n then n else first in
    let vec := if n <=? first then [iovec (head b) first]
               else [iovec (head b) first; iovec 0 (u32 (n - first))] in
    Some (RCopy vec [] 0, b, [])
  | RCopy [] acc _ => Some (RAdvance acc, b, [])
  | RCopy (v :: vec) acc k =>
    if k <? len v then
      x ← arr_get (buf b) (data v + k);
      Some (RCopy (v :: vec) (acc ++ [x]) (k + 1), b, [])
    else Some (RCopy vec acc 0, b, [])
  | RByte => Some (if 0 >=? available b then RIdle else RByteGet, b, [])
  | RByteGet =>
    i ← rem_size b (head b + 0);
    x ← arr_get (buf b) i;
    Some (RAdvance [x], b, [])
  | RAdvance acc =>
    if zlen acc >? available b then Some (RIdle, b, acc)
    else Some (RStore acc, b, [])
  | RStore acc =>
    x ← rem_size b (head b + zlen acc);
    Some (RIdle, set_head b x, acc)
  end.

(** * The system *)

(** The shared buffer, the two threads, the bytes that the calls of [write]
    accepted and those that the calls of [read] returned. *)
Record sys := mk_sys {
  shared : t;
  wr : writer;
  rd : reader;
  sent : list Z;
  got : list Z
}.

(** What the schedule chooses. A call while the thread is inside another
    call waits for its turn. *)
Inductive act :=
| CallWrite (d : list Z)
| StepWriter
| CallRead (n : Z)
| CallReadByte
| StepReader.

Definition exec (a : act) (s : sys) : option sys :=
  match a with
  | CallWrite d =>
    Some (match wr s with
          | WIdle => mk_sys (shared s) (WReserve d) (rd s) (sent s) (got s)
          | _ => s
          end)
  | StepWriter =>
    '(p, b, o) ← wstep (wr s) (shared s);
    Some (mk_sys b p (rd s) (sent s ++ o) (got s))
  | CallRead n =>
    Some (match rd s with
          | RIdle => mk_sys (shared s) (wr s) (RPeek n) (sent s) (got s)
          | _ => s
          end)
  | CallReadByte =>
    Some (match rd s with
          | RIdle => mk_sys (shared s) (wr s) RByte (sent s) (got s)
          | _ => s
          end)
  | StepReader =>
    '(p, b, o) ← rstep (rd s) (shared s);
    Some (mk_sys b (wr s) p (sent s) (got s ++ o))
  end.

Fixpoint run (sched : list act) (s : sys) : option sys :=
  match sched with
  | [] => Some s
  | a :: sched => s ← exec a s; run sched s
  end.

Definition act_ok (a : act) : Prop :=
  match a with
  | CallWrite d => zlen d < 4294967296
  | CallRead n => 0 <= n < 4294967296
  | _ => True
  end.

(** The byte of the storage that a thread accesses, without synchronisation,
    in its next step. *)
Definition waccess (p : writer) : option Z :=
  match p with
  | WCopy _ (v :: _) _ k => if k <? len v then Some (data v + k) else None
  | _ => None
  end.

Definition raccess (p : reader) (b : t) : option Z :=
  match p with
  | RCopy (v :: _) _ k => if k <? len v then Some (data v + k) else None
  | RByteGet => Some (head b)
  | _ => None
  end.

(** A data race: a write and another access of the same byte could be next. *)
Definition race (s : sys) : Prop :=
  exists i, waccess (wr s) = Some i /\ raccess (rd s) (shared s) = Some i.

(** * Invariant *)

(** The [x]-th byte of the storage, counted past its end. *)
Definition wrap_idx (b : t) (x : Z) : Z :=
  if x <? size b then x else x - size b.

(** The bytes of the storage that the parts of [vec] name, in order. *)
Definition cells (vec : list IoVec) : list Z :=
  mjoin ((fun v => seqZ (data v) (len v)) <$> vec).

(** [i, i+1, ..., i+n-1] counted from [base], around the storage. *)
Definition ring (b : t) (base i n : Z) : list Z :=
  (fun j => wrap_idx b (base + j)) <$> seqZ i n.

Definition k_ok (vec : list IoVec) (k : Z) : Prop :=
  Forall (fun v => 0 <= len v) vec /\
  match vec with [] => k = 0 | v :: _ => 0 <= k <= len v end.

(** The first [n] bytes of [d] are in the storage at the write pointer. *)
Definition copied (b : t) (d : list Z) (n : Z) : Prop :=
  forall j, 0 <= j < n -> buf b !! Z.to_nat (wrap_idx b (tail b + j)) = d !! Z.to_nat j.

(** The bytes that a call of [write] will have accepted, as far as it knows. *)
Definition wgoal (p : writer) (b : t) : Z :=
  match p with
  | WIdle => 0
  | WReserve d => Z.min (zlen d) (space b)
  | WCopy _ vec ret _ => ret + zlen (cells vec)
  | WCommit _ ret | WStore _ ret => ret
  end.

Definition wdata (p : writer) : list Z :=
  match p with
  | WIdle => []
  | WReserve d | WCopy d _ _ _ | WCommit d _ | WStore d _ => d
  end.

Definition winv (p : writer) (b : t) : Prop :=
  zlen (wdata p) < 4294967296 /\ 0 <= wgoal p b <= zlen (wdata p) /\
  wgoal p b <= space b /\
  match p with
  | WIdle | WReserve _ => True
  | WCopy d vec ret k =>
    0 <= ret /\ k_ok vec k /\ copied b d (ret + k) /\
    drop (Z.to_nat k) (cells vec) =
      ring b (tail b) (ret + k) (ret + zlen (cells vec) - (ret + k))
  | WCommit d ret | WStore d ret => copied b d ret
  end.

Definition rgoal (p : reader) (b : t) : Z :=
  match p with
  | RIdle => 0
  | RPeek n => Z.min n (available b)
  | RPtr n => n
  | RCopy vec acc k => zlen acc + zlen (cells vec) - k
  | RByte => Z.min 1 (available b)
  | RByteGet => 1
  | RAdvance acc | RStore acc => zlen acc
  end.

Definition rinv (p : reader) (b : t) : Prop :=
  0 <= rgoal p b <= available b /\
  match p with
  | RIdle | RByte | RByteGet => True
  | RPeek n => 0 <= n < 4294967296
  | RPtr n => 0 < n
  | RCopy vec acc k =>
    k_ok vec k /\ acc `prefix_of` contents b /\
    drop (Z.to_nat k) (cells vec) =
      ring b (head b) (zlen acc) (zlen (cells vec) - k)
  | RAdvance acc | RStore acc => acc `prefix_of` contents b
  end.

Record inv (s : sys) : Prop := {
  inv_wf : wf (shared s);
  inv_writer : winv (wr s) (shared s);
  inv_reader : rinv (rd s) (shared s);
  inv_fifo : sent s = got s ++ contents (shared s)
}.

(** A bound of the steps that the call still takes, whatever the other
    thread does. *)
Definition wleft (p : writer) : Z :=
  match p with
  | WIdle => 0
  | WReserve d => zlen d + 6
  | WCopy _ vec _ k => zlen (cells vec) - k + zlen vec + 3
  | WCommit _ _ => 2
  | WStore _ _ => 1
  end.

Definition rleft (p : reader) (b : t) : Z :=
  match p with
  | RIdle => 0
  | RPeek n => n + 7
  | RPtr n => n + 6
  | RCopy vec _ k => zlen (cells vec) - k + zlen vec + 3
  | RByte => 4
  | RByteGet => 3
  | RAdvance _ => 2
  | RStore _ => 1
  end.

(** What a step of a busy thread does: it returns from the call with the
    bytes of its goal, or goes on towards the same goal. *)
Definition wnext (p p' : writer) (b b' : t) (o : list Z) : Prop :=
  (p' = WIdle /\ o = take (Z.to_nat (wgoal p b)) (wdata p)) \/
  (p' <> WIdle /\ o = [] /\ wdata p' = wdata p /\ wgoal p' b' = wgoal p b /\
   0 <= wleft p' < wleft p).

Definition rnext (p p' : reader) (b b' : t) (o : list Z) : Prop :=
  (p' = RIdle /\ zlen o = rgoal p b) \/
  (p' <> RIdle /\ o = [] /\ rgoal p' b' = rgoal p b /\ 0 <= rleft p' b' < rleft p b).

(** * Lemmas *)

Lemma wrap_idx_range b x : 0 <= x < 2 * size b -> 0 <= wrap_idx b x < size b.
Proof. unfold wrap_idx. zcases; lia. Qed.

Lemma wrap_idx_size b b' x : size b' = size b -> wrap_idx b' x = wrap_idx b x.
Proof. unfold wrap_idx. by intros ->. Qed.

Lemma wrap_idx_eq b base i j : 0 <= base -> 0 <= i < size b -> 0 <= j < size b ->
  base < size b -> wrap_idx b (base + i) = wrap_idx b (base + j) -> i = j.
Proof. unfold wrap_idx. zcases; lia. Qed.

(** The free space starts where the contents end. *)
Lemma wrap_idx_apart b i j : wf b -> 0 <= i < available b -> 0 <= j < space b ->
  wrap_idx b (head b + i) <> wrap_idx b (tail b + j).
Proof.
  intros H. pose proof (space_available b H) as Hs. revert Hs.
  rewrite (available_eq b H). destruct H. unfold wrap_idx. zcases; lia.
Qed.

Lemma length_ring b base i n : length (ring b base i n) = Z.to_nat n.
Proof. unfold ring. by rewrite length_fmap, length_seqZ. Qed.

Lemma ring_cons b base i n : 0 < n ->
  ring b base i n = wrap_idx b (base + i) :: ring b base (i + 1) (n - 1).
Proof.
  intros H. unfold ring. rewrite seqZ_cons by lia. simpl.
  by replace (Z.succ i) with (i + 1) by lia.
Qed.

Lemma cells_cons v vec : cells (v :: vec) = seqZ (data v) (len v) ++ cells vec.
Proof. done. Qed.

Lemma cells_one b base n : 0 <= n -> base + n <= size b ->
  cells [iovec base n] = ring b base 0 n.
Proof.
  intros Hn Hb. rewrite cells_cons, app_nil_r. simpl. apply list_eq. intros k.
  unfold ring. rewrite list_lookup_fmap.
  destruct (decide (Z.of_nat k < n)).
  - rewrite !lookup_seqZ_lt by lia. simpl. f_equal. unfold wrap_idx. zcases; lia.
  - by rewrite !lookup_seqZ_ge by lia.
Qed.

Lemma cells_two b base n : 0 <= base < size b -> size b - base <= n <= size b ->
  cells [iovec base (size b - base); iovec 0 (n - (size b - base))] = ring b base 0 n.
Proof.
  intros Hb Hn. rewrite !cells_cons, app_nil_r. simpl. apply list_eq. intros k.
  unfold ring. rewrite list_lookup_fmap.
  destruct (decide (Z.of_nat k < size b - base)).
  - rewrite lookup_app_l by (rewrite length_seqZ; lia).
    rewrite !lookup_seqZ_lt by lia. simpl. f_equal. unfold wrap_idx. zcases; lia.
  - rewrite lookup_app_r, length_seqZ by (rewrite length_seqZ; lia).
    destruct (decide (Z.of_nat k < n)).
    + rewrite !lookup_seqZ_lt by lia. simpl. f_equal. unfold wrap_idx. zcases; lia.
    + by rewrite !lookup_seqZ_ge by lia.
Qed.

Lemma reserve_cells b n : wf b -> 0 <= n < 4294967296 ->
  k_ok (reserve b n) 0 /\
  cells (reserve b n) = ring b (tail b) 0 (Z.min n (space b)).
Proof.
  intros H Hn. pose proof (space_range b H). destruct H as [Hs _ _ Ht].
  unfold reserve. set (m := if n >? space b then space b else n).
  assert (m = Z.min n (space b)) as <- by (unfold m; zcases; lia).
  assert (0 <= m < size b) by (unfold m; zcases; lia). clearbody m.
  rewrite u32_small by lia.
  destruct (Z.eqb_spec m 0) as [->|]; [by repeat constructor|].
  destruct (Z.leb_spec m (size b - tail b)).
  - split; [by repeat constructor; simpl; lia|]. apply cells_one; lia.
  - split; [repeat constructor; simpl; rewrite ?u32_small by lia; lia|]. rewrite u32_small by lia. apply cells_two; lia.
Qed.

(** The second load of [tail], in [readptr], may see more data than the
    first one: the parts still hold exactly the [n] bytes asked for. *)
Lemma readptr_cells b n : wf b -> 0 < n <= available b ->
  let first := if readptr b >? n then n else readptr b in
  let vec := if n <=? first then [iovec (head b) first]
             else [iovec (head b) first; iovec 0 (u32 (n - first))] in
  k_ok vec 0 /\ cells vec = ring b (head b) 0 n.
Proof.
  intros H Hn. pose proof (available_range b H). rewrite (readptr_eq b H).
  pose proof (available_eq b H) as Ha. destruct H as [Hs _ Hh Ht]. revert Ha.
  cbv zeta. destruct (Z.leb_spec (head b) (tail b)); intros Ha.
  - replace (if available b >? n then n else available b) with n by (zcases; lia).
    rewrite Z.leb_refl. split; [by repeat constructor; simpl; lia|]. apply cells_one; lia.
  - destruct (Z.gtb_spec (size b - head b) n).
    + rewrite Z.leb_refl. split; [by repeat constructor; simpl; lia|]. apply cells_one; lia.
    + destruct (Z.leb_spec n (size b - head b)).
      * replace (size b - head b) with n by lia.
        split; [by repeat constructor; simpl; lia|]. apply cells_one; lia.
      * split; [repeat constructor; simpl; rewrite ?u32_small by lia; lia|]. rewrite u32_small by lia. apply cells_two; lia.
Qed.

(** A byte stored in the free space leaves the contents as they are. *)
Lemma store_contents b i x : wf b -> 0 <= i < space b ->
  let b' := set_buf b (<[Z.to_nat (wrap_idx b (tail b + i)) := x]> (buf b)) in
  wf b' /\ contents b' = contents b.
Proof.
  intros H Hi b'. assert (Hw : wf b').
  { destruct H; constructor; simpl; rewrite ?length_insert; done. }
  split; [done|]. pose proof (space_range b H).
  apply contents_ext; [done|exact (contents_length b H)|].
  intros j Hj. change (available b') with (available b) in Hj. simpl.
  pose proof (wrap_idx_apart b (Z.of_nat j) i H) as Hap.
  pose proof (available_range b H). pose proof (wf_head b H).
  pose proof (wf_tail b H).
  pose proof (wrap_idx_range b (tail b + i)). pose proof (wrap_idx_range b (head b + Z.of_nat j)).
  assert (Hne : Z.to_nat (wrap_idx b (tail b + i)) <> Z.to_nat (wrap_idx b (head b + Z.of_nat j))) by lia.
  rewrite contents_lookup, decide_True by done. revert Hne. unfold wrap_idx at 2.
  destruct (Z.ltb_spec (head b + Z.of_nat j) (size b)); intros Hne.
  - rewrite !decide_True by done. by rewrite list_lookup_insert_ne.
  - rewrite !decide_False by lia. by rewrite list_lookup_insert_ne.
Qed.

Lemma copied_app b d n i x : copied b d n -> i = n -> d !! Z.to_nat i = Some x ->
  wf b -> 0 <= i < space b ->
  copied (set_buf b (<[Z.to_nat (wrap_idx b (tail b + i)) := x]> (buf b))) d (n + 1).
Proof.
  intros Hc -> Hx H Hi j Hj. pose proof (space_range b H).
  pose proof (wrap_idx_range b (tail b + j)). pose proof (wrap_idx_range b (tail b + n)).
  destruct H as [Hs Hb Hh Ht]. rewrite (wrap_idx_size b) by done.
  simpl. destruct (decide (j = n)) as [->|].
  - rewrite list_lookup_insert_eq by lia. by rewrite Hx.
  - rewrite list_lookup_insert_ne; [by apply Hc; lia|].
    intros E. apply Z2Nat.inj in E; [|lia..].
    apply wrap_idx_eq in E; lia.
Qed.

Lemma commit_contents b d n : wf b -> 0 <= n <= space b -> n <= zlen d ->
  copied b d n ->
  exists x, rem_size b (tail b + n) = Some x /\ wf (set_tail b x) /\
    contents (set_tail b x) = contents b ++ take (Z.to_nat n) d.
Proof.
  intros H Hn Hd Hc.
  pose proof (commit_spec b (buf b) n H (wf_buf b H) Hn)
    as (b' & Hb' & Hw & Hs & Hh & Hl & Ha & Ht).
  revert Hb'. unfold commit. change (set_buf b (buf b)) with (mk (buf b) (size b) (head b) (tail b)).
  destruct b as [bf sz hd tl]. simpl in *. destruct (_ >? _); [done|].
  destruct (rem_size _ _) as [x|]; [|done]. cbn [mbind option_bind].
  intros [= <-]. unfold set_tail in *. simpl in *. exists x. split; [done|].
  split; [done|]. set (b := mk bf sz hd tl) in *.
  pose proof (contents_length b H) as Hcl.
  apply contents_ext; [done|rewrite length_app, length_take, Ha; lia|].
  intros i Hi. rewrite Ha in Hi. simpl.
  destruct (decide (Z.of_nat i < available b)).
  - rewrite lookup_app_l, contents_lookup, decide_True by (done || lia). done.
  - rewrite lookup_app_r, lookup_take_lt by lia.
    pose proof (Hc (Z.of_nat i - available b)) as E.
    replace (i - length (contents b))%nat with (Z.to_nat (Z.of_nat i - available b)) by lia.
    rewrite <- E by lia. simpl. f_equal. unfold wrap_idx. simpl.
    pose proof (available_eq b H) as Hav. pose proof (space_available b H).
    subst b. destruct H. simpl in *.
    revert Hav. zcases; intros; repeat case_decide; lia.
Qed.

Lemma advance_contents b n : wf b -> 0 <= n <= available b ->
  exists x, rem_size b (head b + n) = Some x /\ wf (set_head b x) /\
    contents (set_head b x) = drop (Z.to_nat n) (contents b).
Proof.
  intros H Hn. destruct (advance_spec b n H Hn) as (b' & Hb' & Hw & _ & Hc).
  revert Hb'. unfold advance. rewrite Z.gtb_ltb, (proj2 (Z.ltb_ge _ _)) by lia.
  destruct (rem_size _ _) as [x|]; [|done]. intros [= <-]. by exists x.
Qed.

(** The storage byte that comes [i]-th in the queue. *)
Lemma contents_cell b i : wf b -> 0 <= i < available b ->
  exists x, arr_get (buf b) (wrap_idx b (head b + i)) = Some x /\
    contents b !! Z.to_nat i = Some x.
Proof.
  intros H Hi. pose proof (available_range b H).
  pose proof (wrap_idx_range b (head b + i)). pose proof (wf_head b H).
  pose proof (wf_buf b H).
  destruct (arr_get_Some (buf b) (wrap_idx b (head b + i))) as [x Hx]; [lia|].
  exists x. split; [done|]. rewrite arr_get_lookup in Hx by lia. rewrite <- Hx.
  rewrite contents_lookup, decide_True by (done || lia). f_equal. unfold wrap_idx.
  zcases; case_decide; lia.
Qed.

Lemma prefix_length_le (l1 l2 : list Z) : l1 `prefix_of` l2 -> zlen l1 <= zlen l2.
Proof. intros H. apply prefix_length in H. lia. Qed.

Lemma prefix_snoc (l l' : list Z) x : l `prefix_of` l' -> l' !! length l = Some x ->
  l ++ [x] `prefix_of` l'.
Proof.
  intros [k ->] Hx. rewrite lookup_app_r, Nat.sub_diag in Hx by lia.
  destruct k as [|y k]; [done|]. injection Hx as ->. exists k. by rewrite <- app_assoc.
Qed.

Lemma k_ok_cells vec k : k_ok vec k -> 0 <= k <= zlen (cells vec).
Proof.
  intros [_ H]. destruct vec as [|v vec]; [by subst|].
  rewrite cells_cons, length_app, length_seqZ. lia.
Qed.

Lemma drop_cells v vec k : 0 <= k < len v ->
  drop (Z.to_nat k) (cells (v :: vec)) =
    (data v + k) :: drop (Z.to_nat (k + 1)) (cells (v :: vec)).
Proof.
  intros H. rewrite cells_cons.
  replace (Z.to_nat (k + 1)) with (S (Z.to_nat k)) by lia. apply drop_S.
  rewrite lookup_app_l by (rewrite length_seqZ; lia).
  rewrite lookup_seqZ_lt by lia. f_equal. lia.
Qed.

Lemma drop_part v vec : 0 <= len v ->
  drop (Z.to_nat (len v)) (cells (v :: vec)) = cells vec.
Proof.
  intros H. rewrite cells_cons, drop_app_ge by (rewrite length_seqZ; lia).
  rewrite length_seqZ, Nat.sub_diag. done.
Qed.

Lemma length_cells_cons v vec : 0 <= len v ->
  zlen (cells (v :: vec)) = len v + zlen (cells vec).
Proof. intros H. rewrite cells_cons, length_app, length_seqZ. lia. Qed.

(** The writer copies one byte to the storage. *)
Lemma wstep_copy d v vec ret k b : wf b -> winv (WCopy d (v :: vec) ret k) b ->
  k < len v ->
  exists b', wstep (WCopy d (v :: vec) ret k) b =
               Some (WCopy d (v :: vec) ret (k + 1), b', []) /\
    wf b' /\ winv (WCopy d (v :: vec) ret (k + 1)) b' /\ head b' = head b /\
    size b' = size b /\ contents b' = contents b.
Proof.
  intros H (Hl & Hg & Hsp & Hr & Hk & Hc & Hcells) Hlt.
  pose proof (k_ok_cells (v :: vec) k Hk) as Hkc. destruct Hk as [HF Hk].
  simpl in Hl, Hg, Hk.
  cbn [wgoal] in Hg, Hsp. rewrite length_cells_cons in Hg, Hsp by lia.
  rewrite drop_cells, ring_cons in Hcells by (rewrite ?length_cells_cons; lia).
  injection Hcells as Hcell Hrest.
  destruct (arr_get_Some d (ret + k)) as [x Hx]; [lia|].
  pose proof (wrap_idx_range b (tail b + (ret + k))) as Hw.
  pose proof (space_range b H). pose proof (wf_tail b H). pose proof (wf_buf b H).
  destruct (store_contents b (ret + k) x H) as [Hwf' Hcont']; [lia|].
  cbn [wstep]. rewrite (proj2 (Z.ltb_lt _ _)), Hx by done. cbn [mbind option_bind].
  rewrite Hcell, arr_set_Some by lia. cbn [mbind option_bind].
  eexists. split; [done|]. split; [done|]. split; [|done].
  rewrite arr_get_lookup in Hx by lia.
  split; [done|]. cbn [wgoal wdata]. rewrite length_cells_cons by lia.
  split; [done|]. split; [done|]. split; [done|]. split; [split; [done|simpl; lia]|].
  split.
  - replace (ret + (k + 1)) with (ret + k + 1) by lia.
    apply copied_app; done || lia.
  - rewrite Hrest. unfold ring at 1. simpl.
    replace (ret + (k + 1)) with (ret + k + 1) by lia.
    rewrite length_cells_cons by lia.
    replace (ret + (len v + zlen (cells vec)) - (ret + k + 1)) with
      (ret + (len v + zlen (cells vec)) - (ret + k) - 1) by lia. done.
Qed.

(** The writer goes on to the next part. *)
Lemma winv_part d v vec ret b : winv (WCopy d (v :: vec) ret (len v)) b ->
  winv (WCopy d vec (u32 (ret + len v)) 0) b /\
  u32 (ret + len v) = ret + len v /\ 0 <= len v.
Proof.
  intros (Hl & Hg & Hsp & Hr & [HF Hk] & Hc & Hcells). simpl in Hl, Hg, Hk.
  apply Forall_cons in HF as [_ HF].
  cbn [wgoal] in Hg, Hsp. rewrite length_cells_cons in Hg, Hsp, Hcells by lia.
  rewrite drop_part in Hcells by lia. rewrite u32_small by lia.
  split; [|lia]. split; [done|]. cbn [wgoal wdata].
  split; [lia|]. split; [lia|]. split; [lia|].
  split; [split; [done|]; destruct vec; [done|]; apply Forall_cons in HF as [HF _]; simpl in *; lia|].
  rewrite Z.add_0_r. split; [done|]. rewrite drop_0. etrans; [exact Hcells|f_equal; lia].
Qed.

Lemma wstep_spec p b : wf b -> winv p b -> p <> WIdle ->
  exists p' b' o, wstep p b = Some (p', b', o) /\ wf b' /\ winv p' b' /\
    head b' = head b /\ size b' = size b /\ contents b' = contents b ++ o /\
    wnext p p' b b' o.
Proof.
  intros H Hi Hp. pose proof (space_range b H) as Hsp. destruct p as [|d|d vec ret k|d ret|d ret];
    [done|..].
  - destruct Hi as (Hl & Hg & _ & _). simpl in Hl, Hg.
    destruct (reserve_cells b (zlen d) H) as [Hk Hc]; [lia|].
    do 3 eexists. split; [done|].
    assert (Hn : zlen (cells (reserve b (zlen d))) = Z.min (zlen d) (space b))
      by (rewrite Hc, length_ring; lia).
    split; [done|]. split.
    { split; [done|]. cbn [wgoal wdata]. rewrite Hn.
      split; [lia|]. split; [lia|]. split; [lia|]. split; [done|].
      split; [intros j; lia|]. rewrite drop_0, Hc. f_equal; lia. }
    rewrite app_nil_r. split; [done|]. split; [done|]. split; [done|].
    right. split; [done|]. split; [done|]. split; [done|]. cbn [wgoal wleft].
    rewrite Hn. split; [lia|].
    assert (zlen (reserve b (zlen d)) <= 2)
      by (unfold reserve; repeat case_match; simpl; lia). lia.
  - destruct vec as [|v vec]; [|destruct (Z.lt_ge_cases k (len v)) as [Hlt|Hge]].
    + destruct Hi as (Hl & Hg & Hs & Hr & [_ Hk] & Hc & _). subst k.
      simpl in Hl, Hg, Hs. rewrite Z.add_0_r in *.
      do 3 eexists. split; [done|]. split; [done|]. split; [done|].
      rewrite app_nil_r. split; [done|]. split; [done|]. split; [done|].
      right. simpl. repeat split; done || lia.
    + destruct (wstep_copy d v vec ret k b H Hi Hlt)
        as (b' & Hst & Hw & Hi' & Hh & Hs & Hc).
      do 3 eexists. split; [done|]. rewrite app_nil_r. do 5 (split; [done|]).
      right. split; [done|]. split; [done|]. split; [done|]. split; [done|].
      destruct Hi' as (_ & _ & _ & _ & Hk' & _). apply k_ok_cells in Hk'.
      cbn [wleft]. lia.
    + assert (k = len v) as -> by (destruct Hi as (_ & _ & _ & _ & [_ Hk] & _); lia).
      destruct (winv_part d v vec ret b Hi) as (Hi' & Hu & Hlen).
      do 3 eexists. cbn [wstep]. rewrite Z.ltb_irrefl.
      split; [done|]. split; [done|]. split; [done|].
      rewrite app_nil_r. split; [done|]. split; [done|]. split; [done|].
      right. cbn [wgoal wdata wleft]. rewrite length_cells_cons, Hu by done.
      simpl length. repeat split; done || lia.
  - destruct Hi as (Hl & Hg & Hs & Hc). simpl in Hl, Hg, Hs.
    do 3 eexists. simpl. rewrite Z.gtb_ltb, (proj2 (Z.ltb_ge _ _)) by done.
    split; [done|]. split; [done|]. split; [done|].
    rewrite app_nil_r. split; [done|]. split; [done|]. split; [done|].
    right. repeat split; done || lia.
  - destruct Hi as (Hl & Hg & Hs & Hc). simpl in Hl, Hg, Hs.
    destruct (commit_contents b d ret H) as (x & Hx & Hw & Hct); [lia|lia|done|].
    do 3 eexists. simpl. rewrite Hx. simpl. split; [done|]. split; [done|].
    split; [|split; [done|]; split; [done|]; split; [done|]; by left].
    pose proof (space_range _ Hw). unfold winv. simpl. lia.
Qed.

(** The reader copies one byte out. *)
Lemma rstep_copy v vec acc k b : wf b -> rinv (RCopy (v :: vec) acc k) b ->
  k < len v ->
  exists x, rstep (RCopy (v :: vec) acc k) b =
              Some (RCopy (v :: vec) (acc ++ [x]) (k + 1), b, []) /\
    rinv (RCopy (v :: vec) (acc ++ [x]) (k + 1)) b.
Proof.
  intros H (Hg & Hk & Hp & Hcells) Hlt. pose proof (k_ok_cells _ _ Hk) as Hkc.
  destruct Hk as [HF Hk]. cbn [rgoal] in Hg.
  rewrite length_cells_cons in Hkc, Hcells, Hg by lia.
  rewrite drop_cells, ring_cons in Hcells by lia. injection Hcells as Hcell Hrest.
  destruct (contents_cell b (zlen acc) H) as (x & Hx & Hcx); [lia|].
  exists x. cbn [rstep]. rewrite (proj2 (Z.ltb_lt _ _)), Hcell, Hx by done.
  cbn [mbind option_bind]. split; [done|]. unfold rinv. cbn [rgoal].
  rewrite length_cells_cons, length_app by lia. simpl length.
  split; [lia|]. split; [split; [done|simpl; lia]|].
  split; [apply prefix_snoc; [done|by rewrite <- Hcx, Nat2Z.id]|].
  rewrite Hrest. f_equal; lia.
Qed.

Lemma rinv_part v vec acc b : rinv (RCopy (v :: vec) acc (len v)) b ->
  rinv (RCopy vec acc 0) b /\ 0 <= len v.
Proof.
  intros (Hg & [HF Hk] & Hp & Hcells). apply Forall_cons in HF as [_ HF].
  cbn [rgoal] in Hg. rewrite length_cells_cons in Hg, Hcells by lia.
  rewrite drop_part in Hcells by lia. split; [|lia].
  split; [cbn [rgoal]; lia|].
  split; [split; [done|]; destruct vec; [done|];
          apply Forall_cons in HF as [HF _]; simpl in *; lia|].
  split; [done|]. rewrite drop_0. etrans; [exact Hcells|f_equal; lia].
Qed.

(** The steps of the reader that leave the buffer as it is. *)
Definition rquiet (p : reader) : bool :=
  match p with RIdle | RStore _ | RAdvance _ => false | _ => true end.

Lemma rstep_quiet p b : wf b -> rinv p b -> rquiet p = true ->
  exists p', rstep p b = Some (p', b, []) /\ rinv p' b /\ rnext p p' b b [].
Proof.
  intros H Hi Hq. pose proof (available_range b H) as Hav.
  destruct p as [|n|n|vec acc k| | |acc|acc]; try done; clear Hq.
  - destruct Hi as [Hg Hn]. cbn [rstep].
    set (m := if n >? available b then available b else n).
    assert (Hm : m = Z.min n (available b)) by (unfold m; zcases; lia). clearbody m.
    eexists. split; [done|]. destruct (Z.eqb_spec m 0).
    + split; [split; [simpl; lia|apply prefix_nil]|].
      right. simpl. repeat split; done || lia.
    + split; [split; simpl; lia|]. right. simpl. repeat split; done || lia.
  - destruct Hi as [Hg Hn]. cbn [rgoal] in Hg. cbn [rstep]. cbv zeta.
    destruct (readptr_cells b n H) as [Hk Hc]; [lia|]. cbv zeta in Hk, Hc.
    revert Hk Hc. set (vec := if n <=? _ then _ else _). intros Hk Hc.
    assert (Hv : zlen vec <= 2) by (unfold vec; case_match; simpl; lia).
    clearbody vec. assert (Hl : zlen (cells vec) = n) by (rewrite Hc, length_ring; lia).
    eexists. split; [done|]. split.
    + split; [cbn [rgoal]; simpl; lia|]. split; [done|].
      split; [apply prefix_nil|]. rewrite drop_0. etrans; [exact Hc|simpl; f_equal; lia].
    + right. cbn [rgoal rleft]. simpl. repeat split; done || lia.
  - destruct vec as [|v vec]; [|destruct (Z.lt_ge_cases k (len v)) as [Hlt|Hge]].
    + destruct Hi as (Hg & [_ Hk] & Hp & _). subst k. simpl in Hg.
      eexists. split; [done|]. split; [split; [simpl; lia|done]|].
      right. simpl. repeat split; done || lia.
    + destruct (rstep_copy v vec acc k b H Hi Hlt) as (x & Hst & Hi').
      eexists. split; [done|]. split; [done|]. right.
      destruct Hi' as (_ & Hk' & _). apply k_ok_cells in Hk'.
      cbn [rgoal rleft]. rewrite length_app. simpl length.
      repeat split; done || lia.
    + assert (k = len v) as -> by (destruct Hi as (_ & [_ Hk] & _); lia).
      destruct (rinv_part v vec acc b Hi) as (Hi' & Hlen).
      eexists. cbn [rstep]. rewrite Z.ltb_irrefl. split; [done|]. split; [done|].
      right. cbn [rgoal rleft]. rewrite length_cells_cons by done. simpl length.
      repeat split; done || lia.
  - destruct Hi as [Hg _]. cbn [rgoal] in Hg. cbn [rstep].
    eexists. split; [done|]. destruct (Z.geb_spec 0 (available b)).
    + split; [split; simpl; [lia|done]|]. left. split; [done|]. simpl. lia.
    + split; [split; simpl; [lia|done]|]. right. simpl. repeat split; done || lia.
  - destruct Hi as [Hg _]. cbn [rgoal] in Hg.
    destruct (contents_cell b 0 H) as (x & Hx & Hcx); [lia|].
    pose proof (wf_head b H). cbn [rstep]. rewrite rem_size_wf by (done || lia).
    cbn [mbind option_bind]. unfold wrap_idx in Hx. rewrite Hx. cbn [mbind option_bind].
    eexists. split; [done|]. split.
    + split; [simpl; lia|]. by apply (prefix_snoc []); [apply prefix_nil|].
    + right. simpl. repeat split; done || lia.
Qed.

Lemma rstep_spec p b : wf b -> rinv p b -> p <> RIdle ->
  exists p' b' o, rstep p b = Some (p', b', o) /\ wf b' /\ rinv p' b' /\
    tail b' = tail b /\ buf b' = buf b /\ size b' = size b /\
    space b <= space b' /\ contents b = o ++ contents b' /\ rnext p p' b b' o.
Proof.
  intros H Hi Hp. pose proof (contents_length b H) as Hcl.
  destruct (rquiet p) eqn:Hq.
  { destruct (rstep_quiet p b H Hi Hq) as (p' & Hst & Hi' & Hn).
    do 3 eexists. split; [done|]. do 7 (split; [done || lia|]). done. }
  destruct p as [| | | | | |acc|acc]; try done; clear Hq.
  - destruct Hi as [Hg Hpre]. cbn [rgoal] in Hg. cbn [rstep].
    rewrite Z.gtb_ltb, (proj2 (Z.ltb_ge _ _)) by lia.
    do 3 eexists. split; [done|]. do 7 (split; [done || lia|]).
    right. simpl. repeat split; done || lia.
  - destruct Hi as [Hg [k Hk]]. cbn [rgoal] in Hg.
    destruct (advance_contents b (zlen acc) H) as (x & Hx & Hw & Hc); [lia|].
    cbn [rstep]. rewrite Hx. cbn [mbind option_bind]. do 3 eexists.
    split; [done|]. split; [done|].
    pose proof (space_available b H). pose proof (space_available _ Hw) as Hs.
    pose proof (available_range _ Hw) as Har.
    rewrite Nat2Z.id in Hc. rewrite Hk, drop_app_length in Hc.
    pose proof (contents_length _ Hw) as Hcl'. rewrite Hc in Hcl'.
    rewrite Hk, length_app in Hcl. cbn [size set_head] in Hs.
    split; [split; [simpl; lia|done]|]. do 3 (split; [done|]). split; [lia|].
    split; [by rewrite Hk, Hc|]. by left.
Qed.

(** What the other thread does keeps a thread's invariant and its goal. *)
Lemma winv_stable p b b' : tail b' = tail b -> buf b' = buf b ->
  size b' = size b -> space b <= space b' -> 0 <= space b ->
  winv p b -> winv p b' /\ wgoal p b <= wgoal p b'.
Proof.
  intros Ht Hb Hs Hsp H0 (Hl & Hg & Hgs & Hp).
  assert (Hc : forall d n, copied b d n -> copied b' d n).
  { intros d n Hc j Hj. rewrite Hb, Ht, (wrap_idx_size b b') by done. by apply Hc. }
  assert (Hr : forall base i n, ring b' base i n = ring b base i n).
  { intros base i n. unfold ring. apply list_fmap_ext. intros k j _.
    by apply wrap_idx_size. }
  unfold winv. destruct p as [|d|d vec ret k|d ret|d ret]; simpl in Hg, Hgs |- *.
  - lia.
  - simpl in Hl. lia.
  - destruct Hp as (? & ? & ? & ?). rewrite Hr, Ht. split; [|lia].
    do 3 (split; [done || lia|]). do 2 (split; [done|]).
    split; [by apply Hc|done].
  - split; [|lia]. do 3 (split; [done || lia|]). by apply Hc.
  - split; [|lia]. do 3 (split; [done || lia|]). by apply Hc.
Qed.

Lemma rinv_stable p b b' o : wf b -> wf b' -> head b' = head b -> size b' = size b ->
  contents b' = contents b ++ o -> rinv p b ->
  rinv p b' /\ rgoal p b <= rgoal p b' /\ rleft p b' = rleft p b.
Proof.
  intros H H' Hh Hs Hc (Hg & Hp).
  pose proof (contents_length b H). pose proof (contents_length b' H').
  assert (Hav : available b <= available b') by (rewrite Hc, length_app in *; lia).
  pose proof (available_range b H).
  assert (Hpre : forall acc, acc `prefix_of` contents b -> acc `prefix_of` contents b').
  { intros acc. rewrite Hc. apply prefix_app_r. }
  assert (Hr : forall base i n, ring b' base i n = ring b base i n).
  { intros base i n. unfold ring. apply list_fmap_ext. intros k j _.
    by apply wrap_idx_size. }
  unfold rinv. destruct p as [|n|n|vec acc k| | |acc|acc]; simpl in Hg |- *.
  4: destruct Hp as (? & ? & ?); rewrite Hr, Hh.
  all: split; [|split; [lia|done]]; split; [lia|]; auto; lia.
Qed.

Definition wtrans (a : act) (s s' : sys) : Prop :=
  match a with
  | CallWrite _ => sent s' = sent s
  | StepWriter =>
    (wr s = WIdle /\ wr s' = WIdle /\ sent s' = sent s) \/
    (wr s <> WIdle /\ exists o, sent s' = sent s ++ o /\
      wnext (wr s) (wr s') (shared s) (shared s') o)
  | _ => wr s' = wr s /\ sent s' = sent s /\
         wgoal (wr s) (shared s) <= wgoal (wr s') (shared s')
  end.

Definition rtrans (a : act) (s s' : sys) : Prop :=
  match a with
  | CallRead _ | CallReadByte => got s' = got s
  | StepReader =>
    (rd s = RIdle /\ rd s' = RIdle /\ got s' = got s) \/
    (rd s <> RIdle /\ exists o, got s' = got s ++ o /\
      rnext (rd s) (rd s') (shared s) (shared s') o)
  | _ => rd s' = rd s /\ got s' = got s /\
         rgoal (rd s) (shared s) <= rgoal (rd s') (shared s') /\
         rleft (rd s') (shared s') = rleft (rd s) (shared s)
  end.

Lemma exec_writer s : inv s -> exists s', exec StepWriter s = Some s' /\
  inv s' /\ wtrans StepWriter s s' /\ rtrans StepWriter s s'.
Proof.
  intros [H Hw Hr Hf]. destruct s as [b p q se go]. simpl in *.
  destruct (decide (p = WIdle)) as [->|Hp].
  { simpl. eexists. split; [done|]. rewrite app_nil_r.
    split; [by constructor|]. split; [by left|]. simpl. repeat split; done || lia. }
  destruct (wstep_spec p b H Hw Hp) as (p' & b' & o & Hst & H' & Hw' & Hh & Hs & Hc & Hn).
  rewrite Hst. cbn [mbind option_bind]. eexists. split; [done|].
  destruct (rinv_stable q b b' o) as (Hr' & Hg & Hl); [done..|].
  split; [|split; [right; split; [done|]; by exists o|done]].
  constructor; simpl; try done. by rewrite Hf, Hc, app_assoc.
Qed.

Lemma exec_reader s : inv s -> exists s', exec StepReader s = Some s' /\
  inv s' /\ wtrans StepReader s s' /\ rtrans StepReader s s'.
Proof.
  intros [H Hw Hr Hf]. destruct s as [b p q se go]. simpl in *.
  destruct (decide (q = RIdle)) as [->|Hq].
  { simpl. eexists. split; [done|]. rewrite app_nil_r.
    split; [by constructor|]. split; [|by left]. simpl. repeat split; done || lia. }
  destruct (rstep_spec q b H Hr Hq)
    as (q' & b' & o & Hst & H' & Hr' & Ht & Hb & Hs & Hsp & Hc & Hn).
  rewrite Hst. cbn [mbind option_bind]. eexists. split; [done|].
  pose proof (space_range b H).
  destruct (winv_stable p b b') as [Hw' Hg]; [done || lia..|].
  split; [|split; [done|right; split; [done|]; by exists o]].
  constructor; simpl; try done. by rewrite Hf, Hc, app_assoc.
Qed.

Lemma exec_spec a s : inv s -> act_ok a -> exists s', exec a s = Some s' /\
  inv s' /\ wtrans a s s' /\ rtrans a s s'.
Proof.
  intros Hi Ha. destruct a as [d| |n| |]; [|by apply exec_writer| | |by apply exec_reader];
    destruct Hi as [H Hw Hr Hf]; destruct s as [b p q se go]; simpl in *;
    eexists; (split; [done|]); pose proof (space_range b H); pose proof (available_range b H).
  - destruct p; (split; [|simpl; repeat split; done || lia]); try by constructor.
    constructor; simpl; try done. repeat split; simpl; lia || done.
  - destruct q; (split; [|simpl; repeat split; done || lia]); try by constructor.
    constructor; simpl; try done. repeat split; simpl; lia || done.
  - destruct q; (split; [|simpl; repeat split; done || lia]); try by constructor.
    constructor; simpl; try done. repeat split; simpl; lia || done.
Qed.

Lemma run_app l1 l2 s : run (l1 ++ l2) s = s' ← run l1 s; run l2 s'.
Proof.
  revert s. induction l1 as [|a l1 IH]; intros s; [done|]. simpl.
  destruct (exec a s) as [s1|]; simpl; [apply IH|done].
Qed.

Lemma run_inv sched s : inv s -> Forall act_ok sched ->
  exists s', run sched s = Some s' /\ inv s'.
Proof.
  intros Hi Hok. revert s Hi. induction Hok as [|a sched Ha _ IH]; intros s Hi.
  { by exists s. }
  destruct (exec_spec a s Hi Ha) as (s1 & Hs1 & Hi1 & _). simpl. rewrite Hs1.
  by apply IH.
Qed.

(** A thread's next access to the storage is inside its part of the ring. *)
Lemma waccess_free p b i : winv p b -> waccess p = Some i ->
  exists j, 0 <= j < space b /\ i = wrap_idx b (tail b + j).
Proof.
  intros (Hl & Hg & Hsp & Hp) Ha. destruct p as [|d|d [|v vec] ret k|d ret|d ret]; try done.
  simpl in Ha. destruct (Z.ltb_spec k (len v)); [|done]. injection Ha as <-.
  destruct Hp as (Hr & Hk & _ & Hc). pose proof (k_ok_cells _ _ Hk) as Hkc.
  destruct Hk as [_ Hk]. cbn [wgoal] in Hsp. rewrite length_cells_cons in Hsp, Hkc, Hc by lia.
  assert (0 <= zlen (cells vec)) by lia.
  rewrite drop_cells, ring_cons in Hc by lia. injection Hc as Hc _.
  exists (ret + k). split; [lia|done].
Qed.

Lemma raccess_contents p b i : wf b -> rinv p b -> raccess p b = Some i ->
  exists j, 0 <= j < available b /\ i = wrap_idx b (head b + j).
Proof.
  intros H (Hg & Hp) Ha. destruct p as [|n|n|[|v vec] acc k| | |acc|acc]; try done.
  - simpl in Ha. destruct (Z.ltb_spec k (len v)); [|done]. injection Ha as <-.
    destruct Hp as (Hk & _ & Hc). pose proof (k_ok_cells _ _ Hk) as Hkc.
    destruct Hk as [_ Hk]. cbn [rgoal] in Hg.
    rewrite length_cells_cons in Hg, Hkc, Hc by lia.
    rewrite drop_cells, ring_cons in Hc by lia. injection Hc as Hc _.
    exists (zlen acc). split; [lia|done].
  - simpl in Ha, Hg. injection Ha as <-. exists 0. split; [lia|].
    pose proof (wf_head b H). unfold wrap_idx. zcases; lia.
Qed.

Lemma inv_no_race s : inv s -> ~ race s.
Proof.
  intros [H Hw Hr _] (i & Hiw & Hir).
  destruct (waccess_free _ _ _ Hw Hiw) as (j & Hj & ->).
  destruct (raccess_contents _ _ _ H Hr Hir) as (k & Hk & E).
  by destruct (wrap_idx_apart (shared s) k j H Hk Hj).
Qed.

(** ** Progress *)

Definition is_write (a : act) : bool := match a with CallWrite _ => true | _ => false end.
Definition is_read (a : act) : bool :=
  match a with CallRead _ | CallReadByte => true | _ => false end.
Definition wcount (a : act) : Z := match a with StepWriter => 1 | _ => 0 end.
Definition rcount (a : act) : Z := match a with StepReader => 1 | _ => 0 end.

(** How many steps of the schedule are a thread's own. *)
Definition steps (f : act -> Z) (sched : list act) : Z :=
  foldr (fun a n => f a + n) 0 sched.

Lemma run_idle_writer sched s s' : inv s -> Forall act_ok sched ->
  Forall (fun a => is_write a = false) sched -> wr s = WIdle ->
  run sched s = Some s' -> wr s' = WIdle /\ sent s' = sent s.
Proof.
  intros Hi Hok. revert s Hi. induction Hok as [|a sched Ha _ IH];
    intros s Hi Hnc Hw Hrun.
  { by injection Hrun as <-. }
  apply Forall_cons in Hnc as [Hc Hnc].
  destruct (exec_spec a s Hi Ha) as (s1 & Hs1 & Hi1 & Ht & _). simpl in Hrun.
  rewrite Hs1 in Hrun. simpl in Hrun.
  assert (wr s1 = WIdle /\ sent s1 = sent s) as [Hw1 He1].
  { destruct a; [done| |..]; [destruct Ht as [(_ & ? & ?)|(? & _)]; done|..];
      destruct Ht as (-> & -> & _); done. }
  rewrite <- He1. by apply IH.
Qed.

Lemma run_writer sched s s' : inv s -> Forall act_ok sched ->
  Forall (fun a => is_write a = false) sched -> wr s <> WIdle ->
  wleft (wr s) <= steps wcount sched -> run sched s = Some s' ->
  wr s' = WIdle /\ exists n,
    wgoal (wr s) (shared s) <= n <= zlen (wdata (wr s)) /\
    sent s' = sent s ++ take (Z.to_nat n) (wdata (wr s)).
Proof.
  intros Hi Hok. revert s Hi. induction Hok as [|a sched Ha Hok IH];
    intros s Hi Hnc Hw Hl Hrun.
  { simpl in Hl. assert (0 < wleft (wr s)); [|lia].
    destruct Hi as [_ Hw' _ _]. destruct (wr s) as [|d|d vec ret k|d ret|d ret]; simpl; try lia; try done.
    destruct Hw' as (_ & _ & _ & _ & Hk & _). apply k_ok_cells in Hk. lia. }
  apply Forall_cons in Hnc as [Hc Hnc].
  destruct (exec_spec a s Hi Ha) as (s1 & Hs1 & Hi1 & Ht & _). simpl in Hrun.
  rewrite Hs1 in Hrun. simpl in Hrun. simpl in Hl.
  assert (a = StepWriter \/ a <> StepWriter) as [->|Hne] by (destruct a; by (left + right)).
  - destruct Ht as [(? & _)|(_ & o & He & [(Hw1 & ->)|(Hw1 & -> & Hd & Hg & Hl1)])]; [done| |].
    + destruct (run_idle_writer sched s1 s') as [Hw' He']; try done.
      split; [done|]. exists (wgoal (wr s) (shared s)).
      split; [|by rewrite He', He]. destruct Hi as [_ (_ & ? & _) _ _]. lia.
    + simpl in Hl. destruct (IH s1) as [Hw' (n & Hn & He')]; try done; [lia|].
      split; [done|]. exists n. rewrite Hd, Hg in *. split; [done|].
      by rewrite He', He, app_nil_r.
  - assert (wr s1 = wr s /\ sent s1 = sent s /\
            wgoal (wr s) (shared s) <= wgoal (wr s1) (shared s1)) as (Hw1 & He & Hg)
      by (by destruct a).
    assert (wcount a = 0) by (by destruct a).
    destruct (IH s1) as [Hw' (n & Hn & He')]; try done; [by rewrite Hw1|rewrite Hw1; lia|].
    split; [done|]. exists n. rewrite Hw1 in *. split; [lia|]. by rewrite He', He.
Qed.

Lemma run_idle_reader sched s s' : inv s -> Forall act_ok sched ->
  Forall (fun a => is_read a = false) sched -> rd s = RIdle ->
  run sched s = Some s' -> rd s' = RIdle /\ got s' = got s.
Proof.
  intros Hi Hok. revert s Hi. induction Hok as [|a sched Ha _ IH];
    intros s Hi Hnc Hw Hrun.
  { by injection Hrun as <-. }
  apply Forall_cons in Hnc as [Hc Hnc].
  destruct (exec_spec a s Hi Ha) as (s1 & Hs1 & Hi1 & _ & Ht). simpl in Hrun.
  rewrite Hs1 in Hrun. simpl in Hrun.
  assert (rd s1 = RIdle /\ got s1 = got s) as [Hw1 He1].
  { destruct a; [..|destruct Ht as [(_ & ? & ?)|(? & _)]; done]; try done;
      destruct Ht as (-> & -> & _); done. }
  rewrite <- He1. by apply IH.
Qed.

(** The most that the call can still return. *)
Definition rmax (p : reader) (b : t) : Z :=
  match p with RPeek n => n | RByte => 1 | _ => rgoal p b end.

Lemma rmax_step p b p' b' o b1 : rstep p b = Some (p', b', o) -> rmax p' b1 = rgoal p' b1.
Proof.
  destruct p as [|n|n|[|v vec] acc k| | |acc|acc]; simpl; repeat case_match;
    intros E; simplify_option_eq; try done; by repeat case_match.
Qed.

Lemma rmax_exec s s1 : inv s -> exec StepReader s = Some s1 -> rd s <> RIdle ->
  rgoal (rd s1) (shared s1) = rgoal (rd s) (shared s) ->
  rmax (rd s1) (shared s1) <= rmax (rd s) (shared s).
Proof.
  intros Hi Hs1 Hr Hg. simpl in Hs1.
  destruct (rstep (rd s) (shared s)) as [[[p' b'] o]|] eqn:E; [|done].
  injection Hs1 as <-. simpl in *. rewrite (rmax_step _ _ _ _ _ _ E), Hg.
  unfold rmax. destruct (rd s); simpl; lia.
Qed.

Lemma run_reader sched s s' : inv s -> Forall act_ok sched ->
  Forall (fun a => is_read a = false) sched -> rd s <> RIdle ->
  rleft (rd s) (shared s) <= steps rcount sched -> run sched s = Some s' ->
  rd s' = RIdle /\ exists o, got s' = got s ++ o /\
    rgoal (rd s) (shared s) <= zlen o <= rmax (rd s) (shared s).
Proof.
  intros Hi Hok. revert s Hi. induction Hok as [|a sched Ha Hok IH];
    intros s Hi Hnc Hw Hl Hrun.
  { simpl in Hl. assert (0 < rleft (rd s) (shared s)); [|lia].
    destruct Hi as [_ _ [_ Hr] _].
    destruct (rd s) as [|n|n|vec acc k| | |acc|acc]; simpl; try lia; try done.
    destruct Hr as (Hk & _). apply k_ok_cells in Hk. lia. }
  apply Forall_cons in Hnc as [Hc Hnc].
  destruct (exec_spec a s Hi Ha) as (s1 & Hs1 & Hi1 & _ & Ht). simpl in Hrun.
  rewrite Hs1 in Hrun. simpl in Hrun. simpl in Hl.
  assert (a = StepReader \/ a <> StepReader) as [->|Hne] by (destruct a; by (left + right)).
  - destruct Ht as [(? & _)|(_ & o & He & [(Hw1 & Ho)|(Hw1 & -> & Hg & Hl1)])]; [done| |].
    + destruct (run_idle_reader sched s1 s') as [Hw' He']; try done.
      split; [done|]. exists o. split; [congruence|].
      split; [lia|]. rewrite Ho. unfold rmax. destruct (rd s); simpl; lia.
    + simpl in Hl. destruct (IH s1) as [Hw' (o & He' & Ho)]; try done; [lia|].
      split; [done|]. exists o. split; [by rewrite He', He, app_nil_r|].
      pose proof (rmax_exec s s1 Hi Hs1 Hw Hg). lia.
  - assert (rd s1 = rd s /\ got s1 = got s /\
            rgoal (rd s) (shared s) <= rgoal (rd s1) (shared s1) /\
            rleft (rd s1) (shared s1) = rleft (rd s) (shared s)) as (Hw1 & He & Hg & Hl1)
      by (by destruct a).
    assert (rcount a = 0) by (by destruct a).
    destruct (IH s1) as [Hw' (o & He' & Ho)]; try done; [by rewrite Hw1|lia|].
    split; [done|]. exists o. split; [by rewrite He', He|]. split; [lia|].
    revert Ho Hg. rewrite Hw1. destruct (rd s); simpl; lia.
Qed.

End SPSC.

(** * Properties *)

(** The system before any call: a buffer and two idle threads. *)
Definition spsc_start (b : ByteBuffer.t) : SPSC.sys :=
  SPSC.mk_sys b SPSC.WIdle SPSC.RIdle (ByteBuffer.contents b) [].

Lemma spsc_start_inv b : ByteBuffer.wf b -> SPSC.inv (spsc_start b).
Proof.
  intros H. pose proof (ByteBuffer.space_range b H).
  pose proof (ByteBuffer.available_range b H).
  constructor; simpl; [done|..|done]; repeat split; simpl; lia || done.
Qed.

(** C9. One thread writing and one reading, without a lock and under every
    interleaving of their atomic loads and stores and of the bytes they copy:
    no step is undefined, no byte of the storage is ever accessed by both
    threads at the same time, and the bytes that the reader got are, in order,
    the first of those that the writer sent; the rest is in the buffer. *)
Theorem spsc_queue b sched : ByteBuffer.wf b -> Forall SPSC.act_ok sched ->
  exists s, SPSC.run sched (spsc_start b) = Some s /\
    ByteBuffer.wf (SPSC.shared s) /\ ~ SPSC.race s /\
    SPSC.sent s = SPSC.got s ++ ByteBuffer.contents (SPSC.shared s).
Proof.
  intros H Hok. destruct (SPSC.run_inv sched (spsc_start b)) as (s & Hs & Hi);
    [by apply spsc_start_inv|done|].
  exists s. split; [done|]. split; [apply Hi|].
  split; [by apply SPSC.inv_no_race|apply Hi].
Qed.

(** The reader reads while the writer is in the middle of its copy, then the
    queue wraps around the end of the storage. *)
Definition spsc_demo : list SPSC.act :=
  [SPSC.CallWrite [1; 2; 3]] ++ replicate 8 SPSC.StepWriter ++
  [SPSC.CallWrite [4; 5]; SPSC.StepWriter; SPSC.StepWriter; SPSC.CallRead 2] ++
  replicate 5 SPSC.StepReader ++ [SPSC.StepWriter; SPSC.StepWriter] ++
  replicate 5 SPSC.StepReader ++ replicate 8 SPSC.StepWriter ++
  [SPSC.CallReadByte] ++ replicate 5 SPSC.StepReader.

Lemma spsc_queue_witness :
  exists s, SPSC.run spsc_demo (spsc_start (ByteBuffer.create true 5)) = Some s /\
    ByteBuffer.wf (SPSC.shared s) /\ ~ SPSC.race s /\
    SPSC.sent s = SPSC.got s ++ ByteBuffer.contents (SPSC.shared s).
Proof.
  apply (spsc_queue (ByteBuffer.create true 5) spsc_demo).
  - constructor; vm_compute; intuition congruence.
  - repeat constructor; vm_compute; intuition congruence.
Defined.

Example spsc_demo_result :
  option_map (fun s => (SPSC.sent s, SPSC.got s, SPSC.shared s))
    (SPSC.run spsc_demo (spsc_start (ByteBuffer.create true 5))) =
  Some ([1; 2; 3; 4], [1; 2; 3], ByteBuffer.mk [1; 2; 3; 4; 0] 5 3 4).
Proof. vm_compute. reflexivity. Qed.

(** Neither thread waits for the other: from every reachable state a call
    of [write] is over after [len + 6] steps of its own thread, a call of
    [read] after [len + 7], whatever the other thread does in between.  The
    write accepts at least what there was room for when it was called, and the
    read returns at least what was there, up to the length asked for. *)
Theorem spsc_wait_free b sched s sched' : ByteBuffer.wf b ->
  Forall SPSC.act_ok (sched ++ sched') ->
  SPSC.run sched (spsc_start b) = Some s ->
  exists s', SPSC.run sched' s = Some s' /\
    (forall d, SPSC.wr s = SPSC.WReserve d ->
       Forall (fun a => SPSC.is_write a = false) sched' ->
       zlen d + 6 <= SPSC.steps SPSC.wcount sched' ->
       SPSC.wr s' = SPSC.WIdle /\
       exists n, Z.min (zlen d) (ByteBuffer.space (SPSC.shared s)) <= n <= zlen d /\
         SPSC.sent s' = SPSC.sent s ++ take (Z.to_nat n) d) /\
    (forall m, SPSC.rd s = SPSC.RPeek m ->
       Forall (fun a => SPSC.is_read a = false) sched' ->
       m + 7 <= SPSC.steps SPSC.rcount sched' ->
       SPSC.rd s' = SPSC.RIdle /\
       exists o, SPSC.got s' = SPSC.got s ++ o /\
         Z.min m (ByteBuffer.available (SPSC.shared s)) <= zlen o <= m).
Proof.
  intros H Hok Hrun. apply Forall_app in Hok as [Hok Hok'].
  destruct (SPSC.run_inv sched (spsc_start b)) as (s1 & Hs1 & Hi);
    [by apply spsc_start_inv|done|].
  assert (s1 = s) as -> by congruence.
  destruct (SPSC.run_inv sched' s Hi Hok') as (s' & Hs' & _). exists s'.
  split; [done|]. split.
  - intros d Hw Hnc Hl.
    destruct (SPSC.run_writer sched' s s') as [? (n & Hn & He)]; try done;
      [by rewrite Hw|by rewrite Hw|].
    split; [done|]. exists n. rewrite Hw in *. done.
  - intros m Hr Hnc Hl.
    destruct (SPSC.run_reader sched' s s') as [? (o & He & Ho)]; try done;
      [by rewrite Hr|by rewrite Hr|].
    split; [done|]. exists o. rewrite Hr in *. done.
Qed.

Lemma spsc_wait_free_witness :
  exists s s',
    SPSC.run [SPSC.CallWrite [7; 8]; SPSC.CallRead 1] (spsc_start (ByteBuffer.create true 5))
      = Some s /\
    SPSC.run (replicate 8 SPSC.StepWriter ++ replicate 8 SPSC.StepReader) s = Some s' /\
    SPSC.wr s' = SPSC.WIdle /\ SPSC.rd s' = SPSC.RIdle /\
    (exists n, 2 <= n <= 2 /\ SPSC.sent s' = [] ++ take (Z.to_nat n) [7; 8]) /\
    (exists o, SPSC.got s' = [] ++ o /\ 0 <= zlen o <= 1).
Proof.
  destruct (spsc_wait_free (ByteBuffer.create true 5)
    [SPSC.CallWrite [7; 8]; SPSC.CallRead 1]
    (SPSC.mk_sys (ByteBuffer.create true 5) (SPSC.WReserve [7; 8]) (SPSC.RPeek 1) [] [])
    (replicate 8 SPSC.StepWriter ++ replicate 8 SPSC.StepReader))
    as (s' & Hs' & Hw & Hr).
  - constructor; vm_compute; intuition congruence.
  - repeat constructor; vm_compute; intuition congruence.
  - reflexivity.
  - destruct (Hw [7; 8]) as [Hw1 Hw2]; [reflexivity|by repeat constructor|vm_compute; congruence|].
    destruct (Hr 1) as [Hr1 Hr2]; [reflexivity|by repeat constructor|vm_compute; congruence|].
    exists (SPSC.mk_sys (ByteBuffer.create true 5) (SPSC.WReserve [7; 8]) (SPSC.RPeek 1) [] []), s'.
    split; [reflexivity|]. split; [exact Hs'|]. split; [exact Hw1|].
    split; [exact Hr1|]. split; [exact Hw2|exact Hr2].
Defined.
