(* ===== verification/LogWriter.v ===== *)
(** The messages that open a log (libraries/DataFlash/DFMessageWriter.{h,cpp}):
    the state machines that trickle them out, one call of [process] after the
    other, to a backend that may refuse any of them. *)
From S2P Require Import Prelude.

(** What a writer hands to the backend: one call of a [Log_Write_...] function
    of DataFlash_Backend (libraries/DataFlash/LogFile.cpp), each of which packs one
    packet and writes it.  The numbers are those of the tables of the vehicle. *)
Inductive item :=
| Format (i : Z)            (* Log_Write_Format(structure(i)) *)
| Unit (i : Z)              (* Log_Write_Unit(unit(i)) *)
| Multiplier (i : Z)        (* Log_Write_Multiplier(multiplier(i)) *)
| FormatUnits (i : Z)       (* Log_Write_Format_Units(structure(i)) *)
| Scalar (token : Z)        (* Log_Write_Parameter(ap, token, type) *)
| Firmware                  (* Log_Write_Message(_firmware_string) *)
| GitVersions               (* Log_Write_Message("PX4: ...") *)
| SystemId                  (* Log_Write_Message(sysid) *)
| NewMission                (* Log_Write_Message("New mission") *)
| MissionCmd (i : Z).       (* Log_Write_Mission_Cmd of command i *)

(** What a backend does for its writer: write an item, say how many bytes are
    free, and call the vehicle's own messages, when the vehicle has some. *)
Class LogBackend (S : Type) := {
  log_write : item -> S -> bool * S;
  bufferspace : S -> Z;
  vehicle_messages : option (S -> S)
}.

(** What is logged: the sizes of the tables, the parameters in the order of
    [AP_Param::first] and [next_scalar], what the build and the board know, and
    the mission ([num_commands] and whether [read_cmd_from_storage] succeeds). *)
Record config := {
  num_types : Z;
  num_units : Z;
  num_multipliers : Z;
  scalars : list Z;
  git_versions : bool;
  system_id : bool;
  mission : option (Z * (Z -> bool))
}.

(** * The state machines *)

Inductive sysinfo_stage :=
| ws_init | ws_firmware_string | ws_git_versions | ws_system_id.

Record sysinfo := mk_sysinfo { ws_finished : bool; ws_stage : sysinfo_stage }.

Inductive mission_stage :=
| em_init | em_write_new_mission_message | em_write_mission_items | em_done.

Record entire_mission := mk_entire_mission {
  em_finished : bool;
  em_stage : mission_stage;
  _mission_number_to_send : Z
}.

Inductive log_stage :=
| ls_init | ls_formats | ls_units | ls_multipliers | ls_format_units | ls_parms
| ls_sysinfo | ls_write_entire_mission | ls_vehicle_messages | ls_done.

Record log_start := mk_log_start {
  _finished : bool;
  _fmt_done : bool;
  stage : log_stage;
  next_format_to_send : Z;
  _next_unit_to_send : Z;
  _next_multiplier_to_send : Z;
  _next_format_unit_to_send : Z;
  ap : list Z;                      (* the parameters that are left *)
  _writesysinfo : sysinfo;
  _writeentiremission : entire_mission
}.

Section writer.
Context {S : Type} `{LogBackend S} (c : config).

Definition sysinfo_reset : sysinfo := mk_sysinfo false ws_init.
Definition mission_reset : entire_mission := mk_entire_mission false em_init 0.

Definition reset (w : log_start) : log_start :=
  mk_log_start false false ls_init 0 0 0 0 (scalars c) sysinfo_reset mission_reset.

(** [DFMessageWriter_WriteSysInfo::process], from its last stage to its first. *)
Definition ws_write_system_id (s : S) : sysinfo * S :=
  if system_id c then
    let '(ok, s) := log_write SystemId s in
    if ok : bool then (mk_sysinfo true ws_system_id, s)
    else (mk_sysinfo false ws_system_id, s)
  else (mk_sysinfo true ws_system_id, s).

Definition ws_write_git_versions (s : S) : sysinfo * S :=
  if git_versions c then
    let '(ok, s) := log_write GitVersions s in
    if ok : bool then ws_write_system_id s else (mk_sysinfo false ws_git_versions, s)
  else ws_write_system_id s.

Definition ws_write_firmware (s : S) : sysinfo * S :=
  let '(ok, s) := log_write Firmware s in
  if ok : bool then ws_write_git_versions s else (mk_sysinfo false ws_firmware_string, s).

Definition sysinfo_process (w : sysinfo) (s : S) : sysinfo * S :=
  match ws_stage w with
  | ws_init | ws_firmware_string => ws_write_firmware s
  | ws_git_versions => ws_write_git_versions s
  | ws_system_id => ws_write_system_id s
  end.

(** [DFMessageWriter_WriteEntireMission::process]; [n] commands are left. *)
Fixpoint em_items (read_ok : Z -> bool) (n : nat) (i : Z) (s : S) : bool * Z * S :=
  match n with
  | O => (true, i, s)
  | Datatypes.S n =>
    if read_ok i then
      let '(ok, s) := log_write (MissionCmd i) s in
      if ok : bool then em_items read_ok n (i + 1) s else (false, i, s)
    else em_items read_ok n (i + 1) s
  end.

Definition em_write_items (num : Z) (read_ok : Z -> bool) (i : Z) (s : S)
  : entire_mission * S :=
  let '(ok, i, s) := em_items read_ok (Z.to_nat (num - i)) i s in
  if ok : bool then (mk_entire_mission true em_done i, s)
  else (mk_entire_mission false em_write_mission_items i, s).

Definition em_write_new_mission (num : Z) (read_ok : Z -> bool) (i : Z) (s : S)
  : entire_mission * S :=
  let '(ok, s) := log_write NewMission s in
  if ok : bool then em_write_items num read_ok i s
  else (mk_entire_mission false em_write_new_mission_message i, s).

Definition mission_process (w : entire_mission) (s : S) : entire_mission * S :=
  let i := _mission_number_to_send w in
  match em_stage w, mission c with
  | em_init, None => (mk_entire_mission true em_done i, s)
  | em_init, Some (num, read_ok)
  | em_write_new_mission_message, Some (num, read_ok) => em_write_new_mission num read_ok i s
  | em_write_mission_items, Some (num, read_ok) => em_write_items num read_ok i s
  | em_done, _ => (mk_entire_mission true em_done i, s)
  | _, None => (w, s)   (* the mission pointer is set once, before any call *)
  end.

(** The loops of [DFMessageWriter_DFLogStart::process]: write the items from
    the [next]-th on until one is refused. *)
Fixpoint write_from (mk : Z -> item) (n : nat) (next : Z) (s : S) : bool * Z * S :=
  match n with
  | O => (true, next, s)
  | Datatypes.S n =>
    let '(ok, s) := log_write (mk next) s in
    if ok : bool then write_from mk n (next + 1) s else (false, next, s)
  end.

Definition write_table (mk : Z -> item) (num next : Z) (s : S) : bool * Z * S :=
  write_from mk (Z.to_nat (num - next)) next s.

Fixpoint write_scalars (l : list Z) (s : S) : list Z * S :=
  match l with
  | [] => ([], s)
  | t :: l' =>
    let '(ok, s) := log_write (Scalar t) s in
    if ok : bool then write_scalars l' s else (l, s)
  end.

Definition set_stage (x : log_stage) (w : log_start) : log_start :=
  mk_log_start (_finished w) (_fmt_done w) x (next_format_to_send w)
    (_next_unit_to_send w) (_next_multiplier_to_send w) (_next_format_unit_to_send w)
    (ap w) (_writesysinfo w) (_writeentiremission w).
Definition set_finished (w : log_start) : log_start :=
  mk_log_start true (_fmt_done w) (stage w) (next_format_to_send w)
    (_next_unit_to_send w) (_next_multiplier_to_send w) (_next_format_unit_to_send w)
    (ap w) (_writesysinfo w) (_writeentiremission w).
Definition set_fmt_done (w : log_start) : log_start :=
  mk_log_start (_finished w) true (stage w) (next_format_to_send w)
    (_next_unit_to_send w) (_next_multiplier_to_send w) (_next_format_unit_to_send w)
    (ap w) (_writesysinfo w) (_writeentiremission w).
Definition set_next_format (x : Z) (w : log_start) : log_start :=
  mk_log_start (_finished w) (_fmt_done w) (stage w) x
    (_next_unit_to_send w) (_next_multiplier_to_send w) (_next_format_unit_to_send w)
    (ap w) (_writesysinfo w) (_writeentiremission w).
Definition set_next_unit (x : Z) (w : log_start) : log_start :=
  mk_log_start (_finished w) (_fmt_done w) (stage w) (next_format_to_send w)
    x (_next_multiplier_to_send w) (_next_format_unit_to_send w)
    (ap w) (_writesysinfo w) (_writeentiremission w).
Definition set_next_multiplier (x : Z) (w : log_start) : log_start :=
  mk_log_start (_finished w) (_fmt_done w) (stage w) (next_format_to_send w)
    (_next_unit_to_send w) x (_next_format_unit_to_send w)
    (ap w) (_writesysinfo w) (_writeentiremission w).
Definition set_next_format_unit (x : Z) (w : log_start) : log_start :=
  mk_log_start (_finished w) (_fmt_done w) (stage w) (next_format_to_send w)
    (_next_unit_to_send w) (_next_multiplier_to_send w) x
    (ap w) (_writesysinfo w) (_writeentiremission w).
Definition set_ap (x : list Z) (w : log_start) : log_start :=
  mk_log_start (_finished w) (_fmt_done w) (stage w) (next_format_to_send w)
    (_next_unit_to_send w) (_next_multiplier_to_send w) (_next_format_unit_to_send w)
    x (_writesysinfo w) (_writeentiremission w).
Definition set_sysinfo (x : sysinfo) (w : log_start) : log_start :=
  mk_log_start (_finished w) (_fmt_done w) (stage w) (next_format_to_send w)
    (_next_unit_to_send w) (_next_multiplier_to_send w) (_next_format_unit_to_send w)
    (ap w) x (_writeentiremission w).
Definition set_mission (x : entire_mission) (w : log_start) : log_start :=
  mk_log_start (_finished w) (_fmt_done w) (stage w) (next_format_to_send w)
    (_next_unit_to_send w) (_next_multiplier_to_send w) (_next_format_unit_to_send w)
    (ap w) (_writesysinfo w) x.

(** The cases of the [switch] of [process], each falling through to the one
    above it; the assignments to [stage] are those of the code. *)
Definition ls_case_done (w : log_start) (s : S) : log_start * S :=
  (set_finished w, s).

Definition ls_case_vehicle_messages (w : log_start) (s : S) : log_start * S :=
  match vehicle_messages with
  | Some f =>
    if bufferspace s <? 200 then (w, s)
    else ls_case_done (set_stage ls_done w) (f s)
  | None => ls_case_done (set_stage ls_done w) s
  end.

Definition ls_case_write_entire_mission (w : log_start) (s : S) : log_start * S :=
  let '(m, s) := mission_process (_writeentiremission w) s in
  let w := set_mission m w in
  if negb (em_finished m) then (w, s)
  else ls_case_vehicle_messages (set_stage ls_vehicle_messages w) s.

Definition ls_case_sysinfo (w : log_start) (s : S) : log_start * S :=
  let '(m, s) := sysinfo_process (_writesysinfo w) s in
  let w := set_sysinfo m w in
  if negb (ws_finished m) then (w, s)
  else ls_case_write_entire_mission (set_stage ls_write_entire_mission w) s.

Definition ls_case_parms (w : log_start) (s : S) : log_start * S :=
  let '(l, s) := write_scalars (ap w) s in
  let w := set_ap l w in
  match l with
  | _ :: _ => (w, s)
  | [] => ls_case_sysinfo (set_stage ls_sysinfo w) s
  end.

Definition ls_case_format_units (w : log_start) (s : S) : log_start * S :=
  let '(ok, x, s) := write_table FormatUnits (num_types c) (_next_format_unit_to_send w) s in
  let w := set_next_format_unit x w in
  if ok : bool then ls_case_parms (set_stage ls_parms w) s else (w, s).

Definition ls_case_multipliers (w : log_start) (s : S) : log_start * S :=
  let '(ok, x, s) := write_table Multiplier (num_multipliers c) (_next_multiplier_to_send w) s in
  let w := set_next_multiplier x w in
  if ok : bool then ls_case_format_units (set_stage ls_units w) s else (w, s).

Definition ls_case_units (w : log_start) (s : S) : log_start * S :=
  let '(ok, x, s) := write_table Unit (num_units c) (_next_unit_to_send w) s in
  let w := set_next_unit x w in
  if ok : bool then ls_case_multipliers (set_stage ls_multipliers w) s else (w, s).

Definition ls_case_formats (w : log_start) (s : S) : log_start * S :=
  let '(ok, x, s) := write_table Format (num_types c) (next_format_to_send w) s in
  let w := set_next_format x w in
  if ok : bool then ls_case_units (set_stage ls_parms (set_fmt_done w)) s else (w, s).

Definition process (w : log_start) (s : S) : log_start * S :=
  match stage w with
  | ls_init => ls_case_formats (set_stage ls_formats w) s
  | ls_formats => ls_case_formats w s
  | ls_units => ls_case_units w s
  | ls_multipliers => ls_case_multipliers w s
  | ls_format_units => ls_case_format_units w s
  | ls_parms => ls_case_parms w s
  | ls_sysinfo => ls_case_sysinfo w s
  | ls_write_entire_mission => ls_case_write_entire_mission w s
  | ls_vehicle_messages => ls_case_vehicle_messages w s
  | ls_done => ls_case_done w s
  end.

(** [n] calls, as [WriteMoreStartupMessages] makes them: none once finished. *)
Fixpoint process_calls (n : nat) (w : log_start) (s : S) : log_start * S :=
  match n with
  | O => (w, s)
  | Datatypes.S n =>
    if _finished w then (w, s)
    else let '(w, s) := process w s in process_calls n w s
  end.

End writer.
