(* ===== verification/LogWriterSpec.v ===== *)
(** What the writer of the opening messages of a log puts in the log. *)
From S2P Require Import Prelude LogWriter.

(** A backend with a record of the items that it accepted. *)
#[global] Instance logged {S} (B : LogBackend S) : LogBackend (S * list item) := {
  log_write i '(s, l) :=
    let '(ok, s) := log_write i s in
    (ok, (s, if ok : bool then l ++ [i] else l));
  bufferspace '(s, _) := bufferspace s;
  vehicle_messages :=
    match vehicle_messages with
    | Some f => Some (fun '(s, l) => (f s, l))
    | None => None
    end
}.

Section spec.
Context {S : Type} `{B : LogBackend S} (c : config).
Hypothesis sizes : 0 <= num_types c /\ 0 <= num_units c /\ 0 <= num_multipliers c /\
  match mission c with Some (num, _) => 0 <= num | None => True end.

(** * The contents of the log *)

Definition table (mk : Z -> item) (n : Z) : list item := mk <$> seqZ 0 n.

Definition sysinfo_items : list item :=
  [Firmware] ++ (if git_versions c then [GitVersions] else []) ++
  (if system_id c then [SystemId] else []).

Definition commands (read_ok : Z -> bool) (n : Z) : list item :=
  MissionCmd <$> filter (fun i => read_ok i = true) (seqZ 0 n).

Definition mission_items : list item :=
  match mission c with
  | Some (num, read_ok) => NewMission :: commands read_ok num
  | None => []
  end.

(** The description of the formats: the units, the multipliers, and which of
    them each format uses. *)
Definition all_tables : list item :=
  table Unit (num_units c) ++ table Multiplier (num_multipliers c) ++
  table FormatUnits (num_types c).

(** What is written when the writer is in the middle of a part. *)
Definition sysinfo_written (w : sysinfo) : list item :=
  if ws_finished w then sysinfo_items
  else match ws_stage w with
       | ws_init | ws_firmware_string => []
       | ws_git_versions => [Firmware]
       | ws_system_id => [Firmware] ++ (if git_versions c then [GitVersions] else [])
       end.

Definition mission_written (w : entire_mission) : list item :=
  match em_stage w, mission c with
  | em_init, _ | em_write_new_mission_message, _ => []
  | _, Some (_, read_ok) => NewMission :: commands read_ok (_mission_number_to_send w)
  | _, None => []
  end.

Definition written (w : log_start) : list item :=
  table Format (next_format_to_send w) ++
  (table Unit (_next_unit_to_send w) ++ table Multiplier (_next_multiplier_to_send w) ++
   table FormatUnits (_next_format_unit_to_send w)) ++
  (Scalar <$> take (length (scalars c) - length (ap w)) (scalars c)) ++
  sysinfo_written (_writesysinfo w) ++ mission_written (_writeentiremission w).

(** * Invariant *)

(** The tables are complete, or given up for good among the units. *)
Definition tables_done (w : log_start) : Prop :=
  (_next_unit_to_send w = num_units c /\
   _next_multiplier_to_send w = num_multipliers c /\
   _next_format_unit_to_send w = num_types c) \/
  (0 <= _next_unit_to_send w < num_units c /\
   _next_multiplier_to_send w = 0 /\ _next_format_unit_to_send w = 0).

Definition sysinfo_ok (w : sysinfo) : Prop :=
  ws_finished w = false /\ (ws_stage w = ws_git_versions -> git_versions c = true) /\
  (ws_stage w = ws_system_id -> system_id c = true).

Definition mission_ok (w : entire_mission) : Prop :=
  em_finished w = false /\ 0 <= _mission_number_to_send w /\
  match em_stage w with
  | em_init | em_write_new_mission_message => _mission_number_to_send w = 0
  | em_write_mission_items =>
    match mission c with
    | Some (num, _) => _mission_number_to_send w < num
    | None => False
    end
  | em_done => False
  end /\
  (em_stage w = em_write_new_mission_message -> mission c <> None).

(** What must hold for each case of the [switch] to run. *)
Definition at_vehicle (w : log_start) : Prop :=
  next_format_to_send w = num_types c /\ tables_done w /\ ap w = [] /\
  sysinfo_written (_writesysinfo w) = sysinfo_items /\
  mission_written (_writeentiremission w) = mission_items /\ _finished w = false.
Definition at_mission (w : log_start) : Prop :=
  next_format_to_send w = num_types c /\ tables_done w /\ ap w = [] /\
  sysinfo_written (_writesysinfo w) = sysinfo_items /\
  mission_ok (_writeentiremission w) /\ _finished w = false.
Definition at_sysinfo (w : log_start) : Prop :=
  next_format_to_send w = num_types c /\ tables_done w /\ ap w = [] /\
  sysinfo_ok (_writesysinfo w) /\
  _writeentiremission w = mission_reset /\ _finished w = false.
Definition fresh (w : log_start) : Prop :=
  _writesysinfo w = sysinfo_reset /\
  _writeentiremission w = mission_reset /\ _finished w = false.
Definition at_parms (w : log_start) : Prop :=
  next_format_to_send w = num_types c /\ tables_done w /\
  ap w `suffix_of` scalars c /\ fresh w.
Definition at_format_units (w : log_start) : Prop :=
  next_format_to_send w = num_types c /\
  _next_unit_to_send w = num_units c /\
  _next_multiplier_to_send w = num_multipliers c /\
  0 <= _next_format_unit_to_send w <= num_types c /\ ap w = scalars c /\ fresh w.
Definition at_multipliers (w : log_start) : Prop :=
  next_format_to_send w = num_types c /\
  _next_unit_to_send w = num_units c /\
  0 <= _next_multiplier_to_send w <= num_multipliers c /\
  _next_format_unit_to_send w = 0 /\ ap w = scalars c /\ fresh w.
Definition at_units (w : log_start) : Prop :=
  next_format_to_send w = num_types c /\
  _next_unit_to_send w = 0 /\ _next_multiplier_to_send w = 0 /\
  _next_format_unit_to_send w = 0 /\ ap w = scalars c /\ fresh w.
Definition at_formats (w : log_start) : Prop :=
  0 <= next_format_to_send w <= num_types c /\
  _next_unit_to_send w = 0 /\ _next_multiplier_to_send w = 0 /\
  _next_format_unit_to_send w = 0 /\ ap w = scalars c /\ fresh w.
Definition at_done (w : log_start) : Prop :=
  _finished w = true /\ next_format_to_send w = num_types c /\ tables_done w /\
  ap w = [] /\ sysinfo_written (_writesysinfo w) = sysinfo_items /\
  mission_written (_writeentiremission w) = mission_items.

(** The invariant between two calls of [process]. *)
Definition inv (w : log_start) (l : list item) : Prop :=
  l = written w /\
  match stage w with
  | ls_init | ls_formats => at_formats w
  | ls_units => at_format_units w
  | ls_multipliers => at_multipliers w
  | ls_format_units => False
  | ls_parms => at_parms w
  | ls_sysinfo => at_sysinfo w
  | ls_write_entire_mission => at_mission w
  | ls_vehicle_messages => at_vehicle w
  | ls_done => at_done w
  end.

(** * Lemmas *)

Implicit Types (w : log_start) (s : S) (l : list item).

Lemma table_app mk n k : 0 <= n -> 0 <= k ->
  table mk (n + k) = table mk n ++ (mk <$> seqZ n k).
Proof. intros Hn Hk. unfold table. by rewrite seqZ_app, fmap_app. Qed.

Lemma write_from_spec mk n next s l ok x s' l' :
  write_from mk n next (s, l) = (ok, x, (s', l')) ->
  next <= x <= next + Z.of_nat n /\
  (if ok : bool then x = next + Z.of_nat n else x < next + Z.of_nat n) /\
  l' = l ++ (mk <$> seqZ next (x - next)).
Proof.
  revert next s l. induction n as [|n IH]; intros next s l; simpl.
  { intros [= <- <- <- <-]. rewrite Z.sub_diag, app_nil_r. split; [lia|]. split; [lia|done]. }
  destruct (log_write (mk next) s) as [ok1 s1]. destruct ok1.
  - intros E. apply IH in E as (Hx & Hok & ->). split; [lia|].
    split; [destruct ok; lia|].
    rewrite (seqZ_cons next) by lia. rewrite <- app_assoc. simpl.
    replace (Z.succ next) with (next + 1) by lia.
    by replace (Z.pred (x - next)) with (x - (next + 1)) by lia.
  - intros [= <- <- <- <-]. rewrite Z.sub_diag, app_nil_r. split; [lia|]. split; [lia|done].
Qed.

Lemma write_table_spec mk num next s l ok x s' l' : 0 <= next <= num ->
  write_table mk num next (s, l) = (ok, x, (s', l')) ->
  next <= x <= num /\ (if ok : bool then x = num else x < num) /\
  exists l1, l' = l ++ l1 /\ table mk x = table mk next ++ l1.
Proof.
  intros Hn E. apply write_from_spec in E as (Hx & Hok & ->).
  split; [lia|]. split; [destruct ok; lia|]. eexists. split; [done|].
  replace x with (next + (x - next)) at 1 by lia. apply table_app; lia.
Qed.

Lemma write_scalars_spec sc s l sc' s' l' :
  write_scalars sc (s, l) = (sc', (s', l')) ->
  exists sc1, sc = sc1 ++ sc' /\ l' = l ++ (Scalar <$> sc1).
Proof.
  revert s l. induction sc as [|t sc IH]; intros s l; simpl.
  { intros [= <- <- <-]. exists []. split; [done|]. by rewrite app_nil_r. }
  destruct (log_write (Scalar t) s) as [[] s1].
  - intros E. apply IH in E as (sc1 & -> & ->). exists (t :: sc1). split; [done|]. simpl.
    by rewrite <- app_assoc.
  - intros [= <- <- <-]. exists []. split; [done|]. by rewrite app_nil_r.
Qed.

Lemma commands_succ read_ok i : 0 <= i ->
  commands read_ok (i + 1) =
    commands read_ok i ++ (if read_ok i then [MissionCmd i] else []).
Proof.
  intros Hi. unfold commands. rewrite seqZ_app, filter_app, fmap_app by lia.
  replace (seqZ (0 + i) 1) with [i] by (unfold seqZ; simpl; f_equal; lia).
  destruct (read_ok i) eqn:E.
  - by rewrite filter_cons_True.
  - by rewrite filter_cons_False by congruence.
Qed.

Lemma em_items_spec read_ok n i s l ok x s' l' : 0 <= i ->
  em_items read_ok n i (s, l) = (ok, x, (s', l')) ->
  i <= x /\ (if ok : bool then x = i + Z.of_nat n else x < i + Z.of_nat n) /\
  exists l1, l' = l ++ l1 /\ commands read_ok x = commands read_ok i ++ l1.
Proof.
  revert i s l. induction n as [|n IH]; intros i s l Hi; simpl.
  { intros [= <- <- <- <-]. split; [lia|]. split; [lia|]. exists []. by rewrite !app_nil_r. }
  pose proof (commands_succ read_ok i Hi) as Hs.
  destruct (read_ok i); [destruct (log_write (MissionCmd i) s) as [[] s1]|].
  - intros E. apply IH in E as (Hx & Hok & l1 & -> & Hc); [|lia].
    split; [lia|]. split; [destruct ok; lia|].
    eexists. rewrite <- app_assoc. split; [done|]. by rewrite Hc, Hs, <- app_assoc.
  - intros [= <- <- <- <-]. split; [lia|]. split; [lia|]. exists []. by rewrite !app_nil_r.
  - intros E. apply IH in E as (Hx & Hok & l1 & -> & Hc); [|lia].
    split; [lia|]. split; [destruct ok; lia|].
    eexists. split; [done|]. by rewrite Hc, Hs, app_nil_r.
Qed.

Lemma sysinfo_process_spec (w w' : sysinfo) s l s' l' : sysinfo_ok w ->
  sysinfo_process c w (s, l) = (w', (s', l')) ->
  (if ws_finished w' then True else sysinfo_ok w') /\
  exists l1, l' = l ++ l1 /\ sysinfo_written w' = sysinfo_written w ++ l1.
Proof.
  intros (Hf & Hg & Hi). unfold sysinfo_written, sysinfo_items, sysinfo_ok. rewrite Hf.
  unfold sysinfo_process, ws_write_firmware, ws_write_git_versions, ws_write_system_id.
  destruct (ws_stage w); simpl.
  all: repeat (case_match; simplify_eq/=); intros; simplify_eq/=;
    (split; [done|]);
    first [exists []; rewrite !app_nil_r; done
          |eexists; rewrite <- ?app_assoc; (split; [done|]); done].
Qed.

Lemma em_write_items_spec num read_ok i s l (w' : entire_mission) s' l' :
  mission c = Some (num, read_ok) -> 0 <= i <= num ->
  em_write_items num read_ok i (s, l) = (w', (s', l')) ->
  (if em_finished w' then mission_written w' = mission_items else mission_ok w') /\
  exists l1, l' = l ++ l1 /\
    mission_written w' = (NewMission :: commands read_ok i) ++ l1.
Proof.
  intros Hm Hi. unfold em_write_items.
  destruct (em_items _ _ _ _) as [[ok x] [s1 l1]] eqn:E.
  apply em_items_spec in E as (Hx & Hok & l2 & -> & Hc); [|lia].
  unfold mission_written, mission_ok, mission_items.
  destruct ok; intros [= <- <- <-]; simpl; rewrite Hm, Hc.
  - assert (x = num) as -> by lia. split; [by rewrite <- Hc|].
    by exists l2.
  - split; [repeat split; try lia; done|]. by exists l2.
Qed.

Lemma mission_process_spec (w w' : entire_mission) s l s' l' : mission_ok w ->
  mission_process c w (s, l) = (w', (s', l')) ->
  (if em_finished w' then mission_written w' = mission_items else mission_ok w') /\
  exists l1, l' = l ++ l1 /\ mission_written w' = mission_written w ++ l1.
Proof.
  intros (Hf & Hn & Hst & Hne). unfold mission_process.
  pose proof sizes as (_ & _ & _ & Hnum).
  assert (Hnew : forall num read_ok, mission c = Some (num, read_ok) ->
    em_stage w = em_init \/ em_stage w = em_write_new_mission_message ->
    _mission_number_to_send w = 0 ->
    em_write_new_mission num read_ok (_mission_number_to_send w) (s, l) = (w', (s', l')) ->
    (if em_finished w' then mission_written w' = mission_items else mission_ok w') /\
    exists l1, l' = l ++ l1 /\ mission_written w' = [] ++ l1).
  { intros num read_ok Hm Hst' H0. rewrite H0. unfold em_write_new_mission. simpl.
    destruct (log_write NewMission s) as [[] s1].
    - intros E. rewrite Hm in Hnum. apply em_write_items_spec in E as (Hw & l1 & -> & Hmw);
        [|done|lia].
      split; [done|]. eexists. rewrite <- app_assoc. split; [done|]. by rewrite Hmw.
    - intros [= <- <- <-]. split; [split; [done|]; simpl; rewrite Hm; repeat split; done || lia|].
      exists []. by rewrite app_nil_r. }
  unfold mission_written at 3.
  destruct (em_stage w); destruct (mission c) as [[num read_ok]|] eqn:Hm; try done.
  - apply Hnew; auto.
  - intros [= <- <- <-]. unfold mission_written, mission_items. simpl. rewrite Hm.
    split; [done|]. exists []. by rewrite app_nil_r.
  - apply Hnew; auto.
  - by destruct Hne.
  - intros E. apply em_write_items_spec in E; [|done|lia]. done.
Qed.

Lemma mission_reset_ok : mission_ok mission_reset.
Proof. repeat split; simpl; done || lia. Qed.

Lemma sysinfo_reset_ok : sysinfo_ok sysinfo_reset.
Proof. done. Qed.

(** ** The cases of the switch *)

Lemma case_vehicle_inv w s l w' s' l' :
  ls_case_vehicle_messages w (s, l) = (w', (s', l')) ->
  at_vehicle w -> stage w = ls_vehicle_messages -> l = written w -> inv w' l'.
Proof.
  intros E (? & ? & ? & ? & ? & ?) Hst Hl. unfold ls_case_vehicle_messages in E.
  simpl in E. assert (Hd : inv (set_finished (set_stage ls_done w)) l).
  { split; [done|]. simpl. repeat split; done. }
  destruct vehicle_messages as [f|]; [destruct (_ <? _)|]; injection E as <- <- <-; try done.
  split; [done|]. rewrite Hst. repeat split; done.
Qed.

Lemma case_mission_inv w s l w' s' l' :
  ls_case_write_entire_mission c w (s, l) = (w', (s', l')) ->
  at_mission w -> stage w = ls_write_entire_mission -> l = written w -> inv w' l'.
Proof.
  intros E (? & ? & Hap & ? & Hm & ?) Hst Hl. unfold ls_case_write_entire_mission in E.
  destruct (mission_process c _ _) as [m [s1 l1]] eqn:Em.
  apply mission_process_spec in Em as (Hfin & l2 & -> & Hmw); [|done].
  assert (Hl1 : l ++ l2 = written (set_mission m w)).
  { rewrite Hl. unfold written. simpl. rewrite Hmw, !app_assoc. done. }
  destruct (em_finished m) eqn:Ef; simpl in E.
  - apply case_vehicle_inv in E; [done| |done|done].
    unfold at_vehicle. simpl. repeat (split; [done|]). done.
  - injection E as <- <- <-. split; [done|]. simpl. rewrite Hst.
    unfold at_mission. simpl. repeat (split; [done|]). done.
Qed.

Lemma case_sysinfo_inv w s l w' s' l' :
  ls_case_sysinfo c w (s, l) = (w', (s', l')) ->
  at_sysinfo w -> stage w = ls_sysinfo -> l = written w -> inv w' l'.
Proof.
  intros E (? & ? & Hap & Hs & Hm & ?) Hst Hl. unfold ls_case_sysinfo in E.
  destruct (sysinfo_process c _ _) as [m [s1 l1]] eqn:Em.
  apply sysinfo_process_spec in Em as (Hfin & l2 & -> & Hmw); [|done].
  assert (Hl1 : l ++ l2 = written (set_sysinfo m w)).
  { rewrite Hl. unfold written. simpl. rewrite Hmw, Hm. simpl.
    rewrite !app_nil_r, !app_assoc. done. }
  destruct (ws_finished m) eqn:Ef; simpl in E.
  - apply case_mission_inv in E; [done| |done|done].
    unfold at_mission. simpl. rewrite Hm.
    repeat (split; [done|]). split; [unfold sysinfo_written; by rewrite Ef|].
    split; [apply mission_reset_ok|done].
  - injection E as <- <- <-. split; [done|]. simpl. rewrite Hst.
    unfold at_sysinfo. simpl. repeat (split; [done|]). done.
Qed.

Lemma case_parms_inv w s l w' s' l' :
  ls_case_parms c w (s, l) = (w', (s', l')) ->
  at_parms w -> stage w = ls_parms -> l = written w -> inv w' l'.
Proof.
  intros E (? & ? & [sc0 Hap] & Hsi & Hm & ?) Hst Hl. unfold ls_case_parms in E.
  destruct (write_scalars _ _) as [sc [s1 l1]] eqn:Es.
  apply write_scalars_spec in Es as (sc1 & Hsc & ->).
  assert (Hl1 : l ++ (Scalar <$> sc1) = written (set_ap sc w)).
  { rewrite Hl. unfold written. simpl. rewrite Hm, Hsi, Hap, Hsc, !length_app.
    replace (length sc0 + (length sc1 + length sc) - (length sc1 + length sc))%nat
      with (length sc0) by lia.
    replace (length sc0 + (length sc1 + length sc) - length sc)%nat
      with (length sc0 + length sc1)%nat by lia.
    rewrite take_app_length, take_app_add', take_app_length by done. unfold sysinfo_written, mission_written. simpl.
    by rewrite !app_nil_r, fmap_app, !app_assoc. }
  destruct sc as [|t sc].
  - apply case_sysinfo_inv in E; [done| |done|done].
    unfold at_sysinfo. simpl. rewrite Hsi. repeat (split; [done|]). done.
  - injection E as <- <- <-. split; [done|]. simpl. rewrite Hst.
    split; [done|]. split; [done|]. split; [|done]. simpl.
    exists (sc0 ++ sc1). by rewrite <- app_assoc, <- Hsc.
Qed.

Lemma table_0 mk : table mk 0 = [].
Proof. done. Qed.

(** Adding to a table that nothing follows yet. *)
Lemma written_fresh w : ap w = scalars c -> fresh w ->
  written w = table Format (next_format_to_send w) ++
    table Unit (_next_unit_to_send w) ++ table Multiplier (_next_multiplier_to_send w) ++
    table FormatUnits (_next_format_unit_to_send w).
Proof.
  intros Ha (Hs & Hm & _). unfold written. rewrite Ha, Hs, Hm, Nat.sub_diag.
  unfold sysinfo_written, mission_written. simpl. by rewrite !app_nil_r.
Qed.

Lemma case_format_units_inv w s l w' s' l' :
  ls_case_format_units c w (s, l) = (w', (s', l')) ->
  at_format_units w -> stage w = ls_units -> l = written w -> inv w' l'.
Proof.
  intros E (? & ? & ? & Hn & Hap & Hfr) Hst Hl. unfold ls_case_format_units in E.
  destruct (write_table _ _ _ _) as [[ok x] [s1 l1]] eqn:Et.
  apply write_table_spec in Et as (Hx & Hok & l2 & -> & Ht); [|done].
  assert (Hl1 : l ++ l2 = written (set_next_format_unit x w)).
  { rewrite Hl, !written_fresh by done. simpl. by rewrite Ht, !app_assoc. }
  destruct ok.
  - apply case_parms_inv in E; [done| |done|done].
    split; [done|]. split; [left; simpl; done|]. split; [simpl; by rewrite Hap|done].
  - injection E as <- <- <-. split; [done|]. simpl. rewrite Hst.
    unfold at_format_units. simpl. repeat (split; [done || lia|]). done.
Qed.

Lemma case_multipliers_inv w s l w' s' l' :
  ls_case_multipliers c w (s, l) = (w', (s', l')) ->
  at_multipliers w -> stage w = ls_multipliers -> l = written w -> inv w' l'.
Proof.
  intros E (? & ? & ? & Hn & Hap & Hfr) Hst Hl. unfold ls_case_multipliers in E.
  destruct (write_table _ _ _ _) as [[ok x] [s1 l1]] eqn:Et.
  apply write_table_spec in Et as (Hx & Hok & l2 & -> & Ht); [|done].
  assert (Hl1 : l ++ l2 = written (set_next_multiplier x w)).
  { rewrite Hl, !written_fresh by done. simpl. rewrite Ht, Hn, !table_0. cbn [app].
    by rewrite !app_nil_r, !app_assoc. }
  destruct ok.
  - apply case_format_units_inv in E; [done| |done|done].
    unfold at_format_units. simpl. rewrite Hn. pose proof sizes.
    repeat (split; [done || lia|]). done.
  - injection E as <- <- <-. split; [done|]. simpl. rewrite Hst.
    unfold at_multipliers. simpl. repeat (split; [done || lia|]). done.
Qed.

(** The units of a first pass, when the stage is already [ls_parms]. *)
Lemma case_units_first_inv w s l w' s' l' :
  ls_case_units c w (s, l) = (w', (s', l')) ->
  at_units w -> stage w = ls_parms -> l = written w -> inv w' l'.
Proof.
  intros E (? & Hu & Hm & Hn & Hap & Hfr) Hst Hl. unfold ls_case_units in E.
  rewrite Hu in E. destruct (write_table _ _ _ _) as [[ok x] [s1 l1]] eqn:Et.
  apply write_table_spec in Et as (Hx & Hok & l2 & -> & Ht); [|pose proof sizes; lia].
  assert (Hl1 : l ++ l2 = written (set_next_unit x w)).
  { rewrite Hl, !written_fresh by done. simpl. rewrite Ht, Hm, Hn, Hu, !table_0. cbn [app].
    by rewrite !app_nil_r. }
  destruct ok.
  - apply case_multipliers_inv in E; [done| |done|done].
    unfold at_multipliers. simpl. rewrite Hm. pose proof sizes.
    repeat (split; [done || lia|]). done.
  - injection E as <- <- <-. split; [done|]. simpl. rewrite Hst.
    split; [done|]. split; [right; simpl; lia|]. split; [simpl; by rewrite Hap|done].
Qed.

(** The units again, after the multipliers: there is nothing to write. *)
Lemma case_units_again_inv w s l w' s' l' :
  ls_case_units c w (s, l) = (w', (s', l')) ->
  at_format_units w -> stage w = ls_units -> l = written w -> inv w' l'.
Proof.
  intros E (? & Hu & Hm & Hn & Hap & Hfr) Hst Hl. unfold ls_case_units in E.
  unfold write_table in E. rewrite Hu, Z.sub_diag in E. simpl in E.
  unfold ls_case_multipliers, write_table in E. simpl in E.
  rewrite Hm, Z.sub_diag in E. simpl in E.
  apply case_format_units_inv in E; [done| |done|].
  - unfold at_format_units. simpl. repeat (split; [done || lia|]). done.
  - rewrite Hl, !written_fresh by done. simpl. by rewrite Hu, Hm.
Qed.

Lemma case_formats_inv w s l w' s' l' :
  ls_case_formats c w (s, l) = (w', (s', l')) ->
  at_formats w -> stage w = ls_formats -> l = written w -> inv w' l'.
Proof.
  intros E (? & Hu & Hm & Hn & Hap & Hfr) Hst Hl. unfold ls_case_formats in E.
  destruct (write_table _ _ _ _) as [[ok x] [s1 l1]] eqn:Et.
  apply write_table_spec in Et as (Hx & Hok & l2 & -> & Ht); [|done].
  assert (Hl1 : l ++ l2 = written (set_next_format x w)).
  { rewrite Hl, !written_fresh by done. simpl. rewrite Ht, Hu, Hm, Hn, !table_0. cbn [app].
    by rewrite !app_nil_r. }
  destruct ok.
  - apply case_units_first_inv in E; [done| |done|done].
    unfold at_units. simpl. repeat (split; [done || lia|]). done.
  - injection E as <- <- <-. split; [done|]. simpl. rewrite Hst.
    unfold at_formats. simpl. repeat (split; [done || lia|]). done.
Qed.

Lemma process_inv w s l w' s' l' : process c w (s, l) = (w', (s', l')) ->
  inv w l -> inv w' l'.
Proof.
  intros E [Hl Hi]. unfold process in E. destruct (stage w) eqn:Hst.
  - apply case_formats_inv in E; try done. 
  - by apply case_formats_inv in E.
  - by apply case_units_again_inv in E.
  - by apply case_multipliers_inv in E.
  - done.
  - by apply case_parms_inv in E.
  - by apply case_sysinfo_inv in E.
  - by apply case_mission_inv in E.
  - by apply case_vehicle_inv in E.
  - injection E as <- <- <-. split; [done|]. simpl. rewrite Hst.
    destruct Hi as (? & ?). done.
Qed.

Lemma process_calls_inv n w s l w' s' l' :
  process_calls c n w (s, l) = (w', (s', l')) -> inv w l -> inv w' l'.
Proof.
  revert w s l. induction n as [|n IH]; intros w s l; simpl.
  { by intros [= <- <- <-]. }
  destruct (_finished w); [by intros [= <- <- <-]|].
  destruct (process c w (s, l)) as [w1 [s1 l1]] eqn:E.
  intros Hc Hi. eapply IH; [done|]. by eapply process_inv.
Qed.

Lemma reset_inv w : inv (reset c w) [].
Proof.
  pose proof sizes. split.
  - rewrite written_fresh by done. done.
  - simpl. unfold at_formats. simpl. repeat (split; [done || lia|]). done.
Qed.

Lemma finished_inv w l : inv w l -> _finished w = true -> at_done w.
Proof.
  intros [_ Hi] Hf. destruct (stage w); try done;
    unfold at_formats, at_format_units, at_multipliers, at_parms, at_sysinfo,
      at_mission, at_vehicle, fresh in Hi; exfalso; intuition congruence.
Qed.

(** ** A backend that never refuses *)

Section accepting.
Hypothesis accept : forall i s, (log_write i s).1 = true.

Lemma accepted i s : exists s', log_write i s = (true, s').
Proof. specialize (accept i s). destruct (log_write i s) as [ok s']. simpl in *. subst. by exists s'. Qed.

Lemma write_from_all mk n next s :
  exists s', write_from mk n next s = (true, next + Z.of_nat n, s').
Proof.
  revert next s. induction n as [|n IH]; intros next s; cbn [write_from].
  { exists s. by rewrite Z.add_0_r. }
  destruct (accepted (mk next) s) as [s1 ->]. destruct (IH (next + 1) s1) as [s2 ->].
  exists s2. do 2 f_equal. lia.
Qed.

Lemma write_table_all mk num next s : next <= num ->
  exists s', write_table mk num next s = (true, num, s').
Proof.
  intros Hn. unfold write_table.
  destruct (write_from_all mk (Z.to_nat (num - next)) next s) as [s' ->].
  exists s'. do 2 f_equal. lia.
Qed.

Lemma write_scalars_all sc s : exists s', write_scalars sc s = ([], s').
Proof.
  revert s. induction sc as [|t sc IH]; intros s; simpl; [by exists s|].
  destruct (accepted (Scalar t) s) as [s1 ->]. apply IH.
Qed.

Lemma em_items_all read_ok n i s : exists x s', em_items read_ok n i s = (true, x, s').
Proof.
  revert i s. induction n as [|n IH]; intros i s; simpl; [by do 2 eexists|].
  destruct (read_ok i); [|apply IH].
  destruct (accepted (MissionCmd i) s) as [s1 ->]. apply IH.
Qed.

Lemma sysinfo_all s : exists s', sysinfo_process c sysinfo_reset s = (mk_sysinfo true ws_system_id, s').
Proof.
  unfold sysinfo_process, ws_write_firmware, ws_write_git_versions, ws_write_system_id. simpl.
  destruct (accepted Firmware s) as [s1 ->].
  destruct (git_versions c); [destruct (accepted GitVersions s1) as [s2 ->]|];
  (destruct (system_id c); [|by eexists]);
  match goal with |- context [log_write SystemId ?s] =>
    destruct (accepted SystemId s) as [s3 ->] end; by eexists.
Qed.

Lemma mission_all s : exists x s', mission_process c mission_reset s = (mk_entire_mission true em_done x, s').
Proof.
  unfold mission_process. simpl. destruct (mission c) as [[num read_ok]|]; [|by do 2 eexists].
  unfold em_write_new_mission, em_write_items. destruct (accepted NewMission s) as [s1 ->].
  destruct (em_items_all read_ok (Z.to_nat (num - 0)) 0 s1) as (x & s2 & ->).
  by do 2 eexists.
Qed.

Lemma process_all w s : (forall s, 200 <= bufferspace s) ->
  exists w' s', process c (reset c w) s = (w', s') /\ _finished w' = true /\
    _next_unit_to_send w' = num_units c.
Proof.
  intros Hsp. pose proof sizes. unfold process, ls_case_formats. simpl.
  destruct (write_table_all Format (num_types c) 0 s) as [s1 ->]; [lia|].
  unfold ls_case_units. simpl.
  destruct (write_table_all Unit (num_units c) 0 s1) as [s2 ->]; [lia|].
  unfold ls_case_multipliers. simpl.
  destruct (write_table_all Multiplier (num_multipliers c) 0 s2) as [s3 ->]; [lia|].
  unfold ls_case_format_units. simpl.
  destruct (write_table_all FormatUnits (num_types c) 0 s3) as [s4 ->]; [lia|].
  unfold ls_case_parms. simpl.
  destruct (write_scalars_all (scalars c) s4) as [s5 ->].
  unfold ls_case_sysinfo. simpl. destruct (sysinfo_all s5) as [s6 ->].
  unfold ls_case_write_entire_mission. simpl. destruct (mission_all s6) as (x & s7 & ->).
  unfold ls_case_vehicle_messages. simpl.
  destruct vehicle_messages as [f|]; [|by do 2 eexists].
  specialize (Hsp s7). rewrite (proj2 (Z.ltb_ge _ _)) by done. by do 2 eexists.
Qed.
End accepting.

End spec.

(** * What the backend keeps, the writer keeps *)

Section preserves.
Context {S : Type} `{B : LogBackend S} (c : config) (P : S -> Prop).
Hypothesis write_keeps : forall i s, P s -> P (log_write i s).2.
Hypothesis vehicle_keeps : match vehicle_messages with
  | Some f => forall s, P s -> P (f s) | None => True end.

Lemma write_from_keeps mk n next s : P s -> P (write_from mk n next s).2.
Proof.
  revert next s. induction n as [|n IH]; intros next s Hs; simpl; [done|].
  pose proof (write_keeps (mk next) s Hs) as Hw.
  destruct (log_write (mk next) s) as [[] s1]; [by apply IH|done].
Qed.

Lemma write_scalars_keeps sc s : P s -> P (write_scalars sc s).2.
Proof.
  revert s. induction sc as [|t sc IH]; intros s Hs; simpl; [done|].
  pose proof (write_keeps (Scalar t) s Hs) as Hw.
  destruct (log_write (Scalar t) s) as [[] s1]; [by apply IH|done].
Qed.

Lemma em_items_keeps read_ok n i s : P s -> P (em_items read_ok n i s).2.
Proof.
  revert i s. induction n as [|n IH]; intros i s Hs; simpl; [done|].
  destruct (read_ok i); [|by apply IH].
  pose proof (write_keeps (MissionCmd i) s Hs) as Hw.
  destruct (log_write (MissionCmd i) s) as [[] s1]; [by apply IH|done].
Qed.

Lemma sysinfo_keeps w s : P s -> P (sysinfo_process c w s).2.
Proof.
  intros Hs.
  assert (Hid : forall s, P s -> P (ws_write_system_id c s).2).
  { intros s0 Hs0. unfold ws_write_system_id. destruct (system_id c); [|done].
    pose proof (write_keeps SystemId s0 Hs0) as Hw.
    by destruct (log_write SystemId s0) as [[] s1]. }
  assert (Hgit : forall s, P s -> P (ws_write_git_versions c s).2).
  { intros s0 Hs0. unfold ws_write_git_versions. destruct (git_versions c); [|by apply Hid].
    pose proof (write_keeps GitVersions s0 Hs0) as Hw.
    destruct (log_write GitVersions s0) as [[] s1]; [by apply Hid|done]. }
  assert (Hfw : forall s, P s -> P (ws_write_firmware c s).2).
  { intros s0 Hs0. unfold ws_write_firmware. pose proof (write_keeps Firmware s0 Hs0) as Hw.
    destruct (log_write Firmware s0) as [[] s1]; [by apply Hgit|done]. }
  unfold sysinfo_process. destruct (ws_stage w); auto.
Qed.

Lemma mission_keeps w s : P s -> P (mission_process c w s).2.
Proof.
  intros Hs. unfold mission_process.
  assert (Hitems : forall num read_ok i s, P s -> P (em_write_items num read_ok i s).2).
  { intros num read_ok i s0 Hs0. unfold em_write_items.
    pose proof (em_items_keeps read_ok (Z.to_nat (num - i)) i s0 Hs0) as H.
    destruct (em_items _ _ _ _) as [[[] x] s1]; done. }
  assert (Hnew : forall num read_ok i s, P s -> P (em_write_new_mission num read_ok i s).2).
  { intros num read_ok i s0 Hs0. unfold em_write_new_mission.
    pose proof (write_keeps NewMission s0 Hs0) as H.
    destruct (log_write NewMission s0) as [[] s1]; [by apply Hitems|done]. }
  destruct (em_stage w), (mission c) as [[num read_ok]|]; auto.
Qed.

Lemma case_vehicle_keeps w s : P s -> P (ls_case_vehicle_messages w s).2.
Proof.
  intros Hs. unfold ls_case_vehicle_messages. destruct vehicle_messages as [f|]; [|done].
  destruct (_ <? _); [done|]. by apply vehicle_keeps.
Qed.

Lemma case_mission_keeps w s : P s -> P (ls_case_write_entire_mission c w s).2.
Proof.
  intros Hs. unfold ls_case_write_entire_mission.
  pose proof (mission_keeps (_writeentiremission w) s Hs) as H.
  destruct (mission_process _ _ _) as [m s1]. destruct (negb _); [done|by apply case_vehicle_keeps].
Qed.

Lemma case_sysinfo_keeps w s : P s -> P (ls_case_sysinfo c w s).2.
Proof.
  intros Hs. unfold ls_case_sysinfo. pose proof (sysinfo_keeps (_writesysinfo w) s Hs) as H.
  destruct (sysinfo_process _ _ _) as [m s1]. destruct (negb _); [done|by apply case_mission_keeps].
Qed.

Lemma case_parms_keeps w s : P s -> P (ls_case_parms c w s).2.
Proof.
  intros Hs. unfold ls_case_parms. pose proof (write_scalars_keeps (ap w) s Hs) as H.
  destruct (write_scalars _ _) as [[|t sc] s1]; [by apply case_sysinfo_keeps|done].
Qed.

Lemma case_format_units_keeps w s : P s -> P (ls_case_format_units c w s).2.
Proof.
  intros Hs. unfold ls_case_format_units, write_table.
  match goal with |- context [write_from ?mk ?n ?i s] =>
    pose proof (write_from_keeps mk n i s Hs) as H; destruct (write_from mk n i s) as [[[] x] s1] end;
    [by apply case_parms_keeps|done].
Qed.

Lemma case_multipliers_keeps w s : P s -> P (ls_case_multipliers c w s).2.
Proof.
  intros Hs. unfold ls_case_multipliers, write_table.
  match goal with |- context [write_from ?mk ?n ?i s] =>
    pose proof (write_from_keeps mk n i s Hs) as H; destruct (write_from mk n i s) as [[[] x] s1] end;
    [by apply case_format_units_keeps|done].
Qed.

Lemma case_units_keeps w s : P s -> P (ls_case_units c w s).2.
Proof.
  intros Hs. unfold ls_case_units, write_table.
  match goal with |- context [write_from ?mk ?n ?i s] =>
    pose proof (write_from_keeps mk n i s Hs) as H; destruct (write_from mk n i s) as [[[] x] s1] end;
    [by apply case_multipliers_keeps|done].
Qed.

Lemma case_formats_keeps w s : P s -> P (ls_case_formats c w s).2.
Proof.
  intros Hs. unfold ls_case_formats, write_table.
  match goal with |- context [write_from ?mk ?n ?i s] =>
    pose proof (write_from_keeps mk n i s Hs) as H; destruct (write_from mk n i s) as [[[] x] s1] end;
    [by apply case_units_keeps|done].
Qed.

Lemma process_keeps w s : P s -> P (process c w s).2.
Proof.
  intros Hs. unfold process.
  destruct (stage w); auto using case_formats_keeps, case_units_keeps, case_multipliers_keeps,
    case_format_units_keeps, case_parms_keeps, case_sysinfo_keeps, case_mission_keeps,
    case_vehicle_keeps.
Qed.
End preserves.

(** * Properties *)

(** C26. Whatever the backend refuses and however often [process] is called,
    the finished writer has written the formats, all the parameters, the system
    information and the mission, each item once and in this order.  The units,
    multipliers and format units come between the formats and the parameters:
    all of them, or, when a unit is refused, only the units before it, since the
    next call resumes at the parameters.  With a backend that refuses nothing
    one call writes everything. *)
Theorem log_start_written {S} (B : LogBackend S) (c : config) (w : log_start) (s : S) :
  0 <= num_types c /\ 0 <= num_units c /\ 0 <= num_multipliers c /\
  match mission c with Some (num, _) => 0 <= num | None => True end ->
  (forall n w' s' l, process_calls c n (reset c w) (s, []) = (w', (s', l)) ->
     _finished w' = true ->
     exists tables,
       (tables = all_tables c \/
        exists k, 0 <= k < num_units c /\ tables = table Unit k) /\
       l = table Format (num_types c) ++ tables ++ (Scalar <$> scalars c) ++
           sysinfo_items c ++ mission_items c) /\
  ((forall i s, (log_write i s).1 = true) -> (forall s, 200 <= bufferspace s) ->
   exists w' s', process c (reset c w) (s, []) =
     (w', (s', table Format (num_types c) ++ all_tables c ++ (Scalar <$> scalars c) ++
               sysinfo_items c ++ mission_items c)) /\
     _finished w' = true).
Proof.
  intros Hsz.
  assert (Hdone : forall w' l, inv c w' l -> _finished w' = true ->
    l = table Format (num_types c) ++
        (table Unit (_next_unit_to_send w') ++ table Multiplier (_next_multiplier_to_send w') ++
         table FormatUnits (_next_format_unit_to_send w')) ++
        (Scalar <$> scalars c) ++ sysinfo_items c ++ mission_items c /\ tables_done c w').
  { intros w' l Hi Hf. pose proof (finished_inv c Hsz w' l Hi Hf) as (_ & Hn & Ht & Ha & Hs & Hm).
    destruct Hi as [-> _]. split; [|done]. unfold written.
    by rewrite Hn, Ha, Hs, Hm, Nat.sub_0_r, take_ge. }
  split.
  - intros n w' s' l E Hf. apply process_calls_inv in E; [|done|by apply reset_inv].
    destruct (Hdone w' l E Hf) as [-> [(Hu & Hm & Hfu)|(Hu & Hm & Hfu)]].
    + exists (all_tables c). split; [by left|]. by rewrite Hu, Hm, Hfu.
    + exists (table Unit (_next_unit_to_send w')). split; [right; by eexists|].
      rewrite Hm, Hfu, !table_0. by rewrite app_nil_r.
  - intros Ha Hsp. destruct (@process_all (S * list item) (logged B) c Hsz) with (w := w) (s := (s, @nil item))
      as (w' & [s' l] & E & Hf & Hu).
    { intros i [s1 l1]. specialize (Ha i s1). simpl. by destruct (log_write i s1). }
    { intros [s1 l1]. apply Hsp. }
    exists w', s'. split; [|done]. rewrite E. apply process_inv in E; [|done|by apply reset_inv].
    destruct (Hdone w' l E Hf) as [-> [(_ & Hm & Hfu)|(Hlt & _)]]; [|lia].
    by rewrite Hu, Hm, Hfu.
Qed.

(** A backend that answers as a script says, and then accepts. *)
#[local] Instance scripted : LogBackend (list bool) := {
  log_write _ s := match s with [] => (true, []) | b :: s => (b, s) end;
  bufferspace _ := 200;
  vehicle_messages := None
}.

Definition demo_config : config :=
  {| num_types := 2; num_units := 2; num_multipliers := 1; scalars := [7; 9];
     git_versions := false; system_id := true;
     mission := Some (2, fun i => negb (i =? 0)) |}.
Definition demo_writer : log_start := reset demo_config
  (mk_log_start true true ls_done 0 0 0 0 [] sysinfo_reset mission_reset).

Lemma log_start_written_witness :
  exists tables,
    (tables = all_tables demo_config \/
     exists k, 0 <= k < 2 /\ tables = table Unit k) /\
    [Format 0; Format 1; Unit 0; Scalar 7; Scalar 9; Firmware; SystemId;
     NewMission; MissionCmd 1] =
      table Format 2 ++ tables ++ (Scalar <$> [7; 9]) ++
      sysinfo_items demo_config ++ mission_items demo_config.
Proof.
  destruct (log_start_written scripted demo_config demo_writer [true; true; true; false]) as [H _];
    [vm_compute; intuition congruence|].
  eapply (H 2%nat); vm_compute; reflexivity.
Defined.

(** The second unit is refused once: the log never says what the units, the
    multipliers and the fields of the formats are. *)
Example units_lost :
  (process_calls demo_config 2 demo_writer ([true; true; true; false], [])).2.2 =
  [Format 0; Format 1; Unit 0; Scalar 7; Scalar 9; Firmware; SystemId;
   NewMission; MissionCmd 1].
Proof. reflexivity. Qed.
