(* ===== verification/RemoteLog.v ===== *)
(** DataFlash_MAVLink (libraries/DataFlash/DataFlash_MAVLink.{h,cpp}) and the
    parts of DataFlash_Backend it runs on: the log is cut into blocks of 200
    bytes, which are sent to a client over MAVLink, kept until the client
    acknowledges them, and sent again when it does not.

    A [struct dm_block *] is the index of the block in [_blocks], or [None] for
    [nullptr].  [None] as the result of an operation is undefined behaviour: a
    null or wild pointer followed, an access outside the data of a block, or a
    list that never ends. *)
From S2P Require Import Prelude LogWriter.

(** [MAVLINK_MSG_REMOTE_LOG_DATA_BLOCK_FIELD_DATA_LEN] *)
Definition DATA_LEN : Z := 200.

(** * Blocks and queues *)
Module Blocks.

Record dm_block := mk_block {
  seqno : Z;
  buf : list Z;
  last_sent : Z;
  next : option nat
}.

Record dm_block_queue := mk_queue {
  sent_count : Z;
  oldest : option nat;
  youngest : option nat
}.

Abbreviation heap := (list dm_block).

Definition set_next (x : option nat) (b : dm_block) : dm_block :=
  mk_block (seqno b) (buf b) (last_sent b) x.
Definition set_buf (x : list Z) (b : dm_block) : dm_block :=
  mk_block (seqno b) x (last_sent b) (next b).
Definition set_last_sent (x : Z) (b : dm_block) : dm_block :=
  mk_block (seqno b) (buf b) x (next b).

(** [p->field = ...] *)
Definition update (f : dm_block -> dm_block) (i : nat) (h : heap) : option heap :=
  b ← h !! i; Some (<[i := f b]> h).

Definition enqueue_block (q : dm_block_queue) (block : nat) (h : heap)
  : option (heap * dm_block_queue) :=
  match youngest q with
  | Some y =>
    h ← update (set_next (Some block)) y h;
    Some (h, mk_queue (sent_count q) (oldest q) (Some block))
  | None => Some (h, mk_queue (sent_count q) (Some block) (Some block))
  end.

(** The loop of [dequeue_seqno]: the block with the number, and the one before
    it; [fuel] bounds the length of the list. *)
Fixpoint find_seqno (fuel : nat) (h : heap) (s : Z) (prev block : option nat)
  : option (option (option nat * nat)) :=
  match block, fuel with
  | None, _ => Some None
  | Some i, S fuel =>
    b ← h !! i;
    if seqno b =? s then Some (Some (prev, i))
    else find_seqno fuel h s (Some i) (next b)
  | Some _, O => None
  end.

Definition dequeue_seqno (q : dm_block_queue) (s : Z) (h : heap)
  : option (option nat * heap * dm_block_queue) :=
  r ← find_seqno (S (length h)) h s None (oldest q);
  match r with
  | None => Some (None, h, q)
  | Some (prev, i) =>
    b ← h !! i;
    '(h, q) ← match prev with
              | None =>
                if bool_decide (youngest q = oldest q)
                then Some (h, mk_queue (sent_count q) None None)
                else Some (h, mk_queue (sent_count q) (next b) (youngest q))
              | Some p =>
                h ← update (set_next (next b)) p h;
                Some (h, if bool_decide (youngest q = Some i)
                         then mk_queue (sent_count q) (oldest q) (Some p) else q)
              end;
    h ← update (set_next None) i h;
    Some (Some i, h, q)
  end.

(** [stack_size]: a [uint8_t] count. *)
Fixpoint stack_size (fuel : nat) (h : heap) (p : option nat) (ret : Z) : option Z :=
  match p, fuel with
  | None, _ => Some ret
  | Some i, S fuel => b ← h !! i; stack_size fuel h (next b) (u8 (ret + 1))
  | Some _, O => None
  end.

Definition queue_size (h : heap) (q : dm_block_queue) : option Z :=
  stack_size (S (length h)) h (oldest q) 0.

End Blocks.

(** * State *)
Module RemoteLog.
Export Blocks.

Record stats := mk_stats {
  resends : Z;
  collection_count : Z;
  state_free : Z; state_free_min : Z; state_free_max : Z;
  state_pending : Z; state_pending_min : Z; state_pending_max : Z;
  state_retry : Z; state_retry_min : Z; state_retry_max : Z;
  state_sent : Z; state_sent_min : Z; state_sent_max : Z
}.

(** The blocks: the free stack, the three queues and the block being filled. *)
Record pool := mk_pool {
  _blocks : heap;
  _blockcount : Z;
  _blockcount_free : Z;
  _blocks_free : option nat;
  _blocks_sent : dm_block_queue;
  _blocks_pending : dm_block_queue;
  _blocks_retry : dm_block_queue;
  _current_block : option nat;
  _latest_block_len : Z;
  _next_seq_num : Z
}.

(** The client. *)
Record link := mk_link {
  _sending_to_client : bool;
  _target_system_id : Z;
  _target_component_id : Z;
  _chan : Z;
  _last_response_time : Z;
  _last_send_time : Z;
  mavlink_seq : Z
}.

(** A REMOTE_LOG_DATA_BLOCK message on the wire. *)
Record message := mk_message {
  msg_chan : Z; msg_target : Z * Z; msg_seqno : Z; msg_data : list Z
}.

Record t := mk {
  _initialised : bool;
  _logging_started : bool;
  blk : pool;
  lnk : link;
  sts : stats;
  _dropped : Z;
  _internal_errors : Z;
  (* DataFlash_Backend *)
  _startup_messagewriter : log_start;
  _writing_startup_messages : bool;
  have_logged_armed : bool;
  _last_periodic_1Hz : Z;
  _last_periodic_10Hz : Z;
  (* the semaphore: whether this thread holds it, and how often it was asked for *)
  sem_held : bool;
  sem_takes : nat;
  (* observations, not in the code: what the session accepted, sent to the
     client, and what the client acknowledged *)
  stream : list Z;
  wire : list message;
  acks : list Z
}.

Definition set_blk (x : pool) (s : t) : t :=
  mk (_initialised s) (_logging_started s) x (lnk s) (sts s) (_dropped s)
    (_internal_errors s) (_startup_messagewriter s) (_writing_startup_messages s)
    (have_logged_armed s) (_last_periodic_1Hz s) (_last_periodic_10Hz s)
    (sem_held s) (sem_takes s) (stream s) (wire s) (acks s).
Definition set_lnk (x : link) (s : t) : t :=
  mk (_initialised s) (_logging_started s) (blk s) x (sts s) (_dropped s)
    (_internal_errors s) (_startup_messagewriter s) (_writing_startup_messages s)
    (have_logged_armed s) (_last_periodic_1Hz s) (_last_periodic_10Hz s)
    (sem_held s) (sem_takes s) (stream s) (wire s) (acks s).
Definition set_sts (x : stats) (s : t) : t :=
  mk (_initialised s) (_logging_started s) (blk s) (lnk s) x (_dropped s)
    (_internal_errors s) (_startup_messagewriter s) (_writing_startup_messages s)
    (have_logged_armed s) (_last_periodic_1Hz s) (_last_periodic_10Hz s)
    (sem_held s) (sem_takes s) (stream s) (wire s) (acks s).
Definition set_counts (dropped errors : Z) (s : t) : t :=
  mk (_initialised s) (_logging_started s) (blk s) (lnk s) (sts s) dropped
    errors (_startup_messagewriter s) (_writing_startup_messages s)
    (have_logged_armed s) (_last_periodic_1Hz s) (_last_periodic_10Hz s)
    (sem_held s) (sem_takes s) (stream s) (wire s) (acks s).
Definition set_writer (x : log_start) (writing : bool) (s : t) : t :=
  mk (_initialised s) (_logging_started s) (blk s) (lnk s) (sts s) (_dropped s)
    (_internal_errors s) x writing
    (have_logged_armed s) (_last_periodic_1Hz s) (_last_periodic_10Hz s)
    (sem_held s) (sem_takes s) (stream s) (wire s) (acks s).
Definition set_logged_armed (x : bool) (s : t) : t :=
  mk (_initialised s) (_logging_started s) (blk s) (lnk s) (sts s) (_dropped s)
    (_internal_errors s) (_startup_messagewriter s) (_writing_startup_messages s)
    x (_last_periodic_1Hz s) (_last_periodic_10Hz s)
    (sem_held s) (sem_takes s) (stream s) (wire s) (acks s).
Definition set_periodic (x1 x10 : Z) (s : t) : t :=
  mk (_initialised s) (_logging_started s) (blk s) (lnk s) (sts s) (_dropped s)
    (_internal_errors s) (_startup_messagewriter s) (_writing_startup_messages s)
    (have_logged_armed s) x1 x10
    (sem_held s) (sem_takes s) (stream s) (wire s) (acks s).
Definition set_sem (held : bool) (takes : nat) (s : t) : t :=
  mk (_initialised s) (_logging_started s) (blk s) (lnk s) (sts s) (_dropped s)
    (_internal_errors s) (_startup_messagewriter s) (_writing_startup_messages s)
    (have_logged_armed s) (_last_periodic_1Hz s) (_last_periodic_10Hz s)
    held takes (stream s) (wire s) (acks s).
Definition set_seen (x : list Z) (y : list message) (z : list Z) (s : t) : t :=
  mk (_initialised s) (_logging_started s) (blk s) (lnk s) (sts s) (_dropped s)
    (_internal_errors s) (_startup_messagewriter s) (_writing_startup_messages s)
    (have_logged_armed s) (_last_periodic_1Hz s) (_last_periodic_10Hz s)
    (sem_held s) (sem_takes s) x y z.

Definition set_sending (x : bool) (l : link) : link :=
  mk_link x (_target_system_id l) (_target_component_id l) (_chan l)
    (_last_response_time l) (_last_send_time l) (mavlink_seq l).
Definition set_response (x : Z) (l : link) : link :=
  mk_link (_sending_to_client l) (_target_system_id l) (_target_component_id l)
    (_chan l) x (_last_send_time l) (mavlink_seq l).

(** ** Queues of the pool *)
Inductive qid := QSent | QPending | QRetry.

Definition get_queue (q : qid) (p : pool) : dm_block_queue :=
  match q with
  | QSent => _blocks_sent p | QPending => _blocks_pending p | QRetry => _blocks_retry p
  end.

Definition set_queue (q : qid) (h : heap) (x : dm_block_queue) (p : pool) : pool :=
  mk_pool h (_blockcount p) (_blockcount_free p) (_blocks_free p)
    (match q with QSent => x | _ => _blocks_sent p end)
    (match q with QPending => x | _ => _blocks_pending p end)
    (match q with QRetry => x | _ => _blocks_retry p end)
    (_current_block p) (_latest_block_len p) (_next_seq_num p).

Definition set_heap (h : heap) (p : pool) : pool :=
  mk_pool h (_blockcount p) (_blockcount_free p) (_blocks_free p)
    (_blocks_sent p) (_blocks_pending p) (_blocks_retry p)
    (_current_block p) (_latest_block_len p) (_next_seq_num p).

Definition set_current (x : option nat) (p : pool) : pool :=
  mk_pool (_blocks p) (_blockcount p) (_blockcount_free p) (_blocks_free p)
    (_blocks_sent p) (_blocks_pending p) (_blocks_retry p)
    x (_latest_block_len p) (_next_seq_num p).

Definition set_latest (h : heap) (n : Z) (p : pool) : pool :=
  mk_pool h (_blockcount p) (_blockcount_free p) (_blocks_free p)
    (_blocks_sent p) (_blocks_pending p) (_blocks_retry p)
    (_current_block p) n (_next_seq_num p).

Definition enqueue (q : qid) (i : nat) (p : pool) : option pool :=
  '(h, x) ← enqueue_block (get_queue q p) i (_blocks p);
  Some (set_queue q h x p).

Definition dequeue (q : qid) (s : Z) (p : pool) : option (option nat * pool) :=
  '(r, h, x) ← dequeue_seqno (get_queue q p) s (_blocks p);
  Some (r, set_queue q h x p).

Definition free_seqno_from_queue (s : Z) (q : qid) (p : pool) : option (bool * pool) :=
  '(r, p) ← dequeue q s p;
  match r with
  | Some i =>
    h ← update (set_next (_blocks_free p)) i (_blocks p);
    Some (true, mk_pool h (_blockcount p) (u8 (_blockcount_free p + 1)) (Some i)
                  (_blocks_sent p) (_blocks_pending p) (_blocks_retry p)
                  (_current_block p) (_latest_block_len p) (_next_seq_num p))
  | None => Some (false, p)
  end.

Definition remaining_space_in_current_block (p : pool) : Z :=
  u8 (DATA_LEN - _latest_block_len p).

Definition bufferspace_available (p : pool) : Z :=
  u32 (_blockcount_free p * 200 + remaining_space_in_current_block p).

(** [next_block]: takes a free block for [_current_block]. *)
Definition next_block (p : pool) : option (option nat * pool) :=
  match _blocks_free p with
  | Some i =>
    b ← _blocks p !! i;
    Some (Some i,
      mk_pool (<[i := mk_block (_next_seq_num p) (buf b) 0 None]> (_blocks p))
        (_blockcount p) (u8 (_blockcount_free p - 1)) (next b)
        (_blocks_sent p) (_blocks_pending p) (_blocks_retry p)
        (_current_block p) 0 (u32 (_next_seq_num p + 1)))
  | None => Some (None, p)
  end.

(** The loop of [free_all_blocks], from the [i]-th of [n] blocks on. *)
Fixpoint push_all_free (n : nat) (i : nat) (h : heap) (free : option nat)
  : option (heap * option nat) :=
  match n with
  | O => Some (h, free)
  | S n =>
    b ← h !! i;
    push_all_free n (S i) (<[i := mk_block 9876543 (buf b) (last_sent b) free]> h) (Some i)
  end.

Definition free_all_blocks (p : pool) : option pool :=
  '(h, free) ← push_all_free (Z.to_nat (_blockcount p)) 0 (_blocks p) None;
  let empty := mk_queue 0 None None in
  Some (mk_pool h (_blockcount p) (_blockcount p) free empty empty empty None 0
          (_next_seq_num p)).

(** ** Statistics *)
Definition stats_reset (x : stats) : stats :=
  mk_stats (resends x) 0 0 255 0 0 255 0 0 255 0 0 255 0.

Definition count_resend (x : stats) : stats :=
  mk_stats (u32 (resends x + 1)) (collection_count x)
    (state_free x) (state_free_min x) (state_free_max x)
    (state_pending x) (state_pending_min x) (state_pending_max x)
    (state_retry x) (state_retry_min x) (state_retry_max x)
    (state_sent x) (state_sent_min x) (state_sent_max x).

Definition stats_add (pending sent retry sfree : Z) (x : stats) : stats :=
  mk_stats (resends x) (u8 (collection_count x + 1))
    (u16 (state_free x + sfree)) (Z.min sfree (state_free_min x)) (Z.max sfree (state_free_max x))
    (u16 (state_pending x + pending)) (Z.min pending (state_pending_min x)) (Z.max pending (state_pending_max x))
    (u16 (state_retry x + retry)) (Z.min retry (state_retry_min x)) (Z.max retry (state_retry_max x))
    (u16 (state_sent x + sent)) (Z.min sent (state_sent_min x)) (Z.max sent (state_sent_max x)).

(** * Operations *)

(** What an operation sees of the rest of the system: the clock; the front
    end's switches; whether the semaphore is free when it is asked for the
    [n]-th time; whether the link has room ([HAVE_PAYLOAD_SPACE] and
    [comm_get_txspace]) after the [n]-th message of the session; the packets of
    the startup messages and of the vehicle's own ones. *)
Record env := mk_env {
  millis : Z;
  writes_enabled : bool;
  in_main_thread : bool;
  vehicle_is_armed : bool;
  log_while_disarmed : bool;
  file_disarm_rot : bool;
  sem_free : nat -> bool;
  tx_room : nat -> bool;
  pack : item -> list Z;
  vehicle_packets : option (list (list Z));
  stats_msg_id : Z;
  log_config : config
}.

Section operations.
Variables REMOTE_LOG_STOP REMOTE_LOG_START : Z.   (* MAV_REMOTE_LOG_DATA_BLOCK_... *)
Variable e : env.

Definition take_nonblocking (s : t) : bool * t :=
  let ok := negb (sem_held s) && sem_free e (sem_takes s) in
  (ok, set_sem (sem_held s || ok) (S (sem_takes s)) s).

Definition give (s : t) : t := set_sem false (sem_takes s) s.

Definition dropped (s : t) : t := set_counts (u32 (_dropped s + 1)) (_internal_errors s) s.
Definition internal_error (s : t) : t := set_counts (_dropped s) (u8 (_internal_errors s + 1)) s.

Definition log_finished (s : t) : bool := _finished (_startup_messagewriter s).

(** [with_queues f] runs [f] on the pool. *)
Definition on_blk {A} (f : pool -> option (A * pool)) (s : t) : option (A * t) :=
  '(x, p) ← f (blk s); Some (x, set_blk p s).

(** ** Sending *)

Definition send_log_block (i : nat) (s : t) : option (bool * t) :=
  if negb (_initialised s) then Some (false, s)
  else if negb (tx_room e (length (wire s))) then Some (false, s)
  else
    b ← _blocks (blk s) !! i;
    let l := lnk s in
    let m := mk_message (_chan l) (_target_system_id l, _target_component_id l)
               (seqno b) (buf b) in
    h ← update (set_last_sent (millis e)) i (_blocks (blk s));
    let s := set_blk (set_heap h (blk s)) s in
    let s := set_lnk (mk_link (_sending_to_client l) (_target_system_id l)
                        (_target_component_id l) (_chan l) (_last_response_time l)
                        (millis e) (u8 (mavlink_seq l + 1))) s in
    Some (true, set_seen (stream s) (wire s ++ [m]) (acks s) s).

Definition _max_blocks_per_send_blocks : Z := 8.

Definition count_sent (q : qid) (p : pool) : pool :=
  let x := get_queue q p in
  set_queue q (_blocks p) (mk_queue (u32 (sent_count x + 1)) (oldest x) (youngest x)) p.

(** The loop of [send_log_blocks_from_queue], with its [sent_count]. *)
Fixpoint send_loop (fuel : nat) (q : qid) (sent : Z) (s : t) : option (bool * t) :=
  match oldest (get_queue q (blk s)), fuel with
  | None, _ => Some (true, s)
  | Some i, S fuel =>
    if sent >? _max_blocks_per_send_blocks then Some (false, s)
    else
      '(ok, s) ← send_log_block i s;
      if negb ok then Some (false, s)
      else
        let s := set_blk (count_sent q (blk s)) s in
        b ← _blocks (blk s) !! i;
        '(r, s) ← on_blk (dequeue q (seqno b)) s;
        match r with
        | Some i =>
          p ← enqueue QSent i (blk s);
          send_loop fuel q (u8 (sent + 1)) (set_blk p s)
        | None => send_loop fuel q (u8 (sent + 1)) (internal_error s)
        end
  | Some _, O => None
  end.

Definition send_log_blocks_from_queue (q : qid) (s : t) : option (bool * t) :=
  send_loop (S (length (_blocks (blk s)))) q 0 s.

(** [push_log_blocks] after the startup messages. *)
Definition push_queues (s : t) : option t :=
  let '(ok, s) := take_nonblocking s in
  if negb ok then Some s
  else
    '(ok, s) ← send_log_blocks_from_queue QRetry s;
    if negb ok then Some (give s)
    else
      '(_, s) ← send_log_blocks_from_queue QPending s;
      Some (give s).

(** ** Writing *)

Definition ShouldLog (is_critical : bool) (s : t) : bool * t :=
  if negb (writes_enabled e) then (false, s)
  else if negb (_initialised s) then (false, s)
  else if negb (log_finished s) && negb (in_main_thread e) then (false, s)
  else if is_critical && have_logged_armed s && negb (file_disarm_rot e) then (true, s)
  else if negb (vehicle_is_armed e) && negb (log_while_disarmed e) then (false, s)
  else (true, if vehicle_is_armed e then set_logged_armed true s else s).

Definition WritesOK (s : t) : bool := _sending_to_client (lnk s).

(** [WritePrioritisedBlock], over [w], the backend's [_WritePrioritisedBlock].
    [start_new_log] of this backend does nothing. *)
Definition WritePrioritisedBlock (w : list Z -> t -> option (bool * t))
    (d : list Z) (is_critical : bool) (s : t) : option (bool * t) :=
  let '(ok, s) := ShouldLog is_critical s in
  if negb ok then Some (false, s)
  else if negb (WritesOK s) then Some (false, s)
  else w d s.

(** Only the commands of the mission are not critical. *)
Definition critical (i : item) : bool :=
  match i with MissionCmd _ => false | _ => true end.

(** The backend that the startup messages are written to; its state is [None]
    once a write was undefined. *)
Definition startup_backend (w : list Z -> t -> option (bool * t))
  : LogBackend (option t) := {|
  log_write i s :=
    match s' ← s; WritePrioritisedBlock w (pack e i) (critical i) s' with
    | Some (ok, s') => (ok, Some s')
    | None => (false, None)
    end;
  bufferspace s := match s with Some s => bufferspace_available (blk s) | None => 0 end;
  vehicle_messages :=
    match vehicle_packets e with
    | Some ds => Some (fun s =>
        foldl (fun s d =>
          s' ← s; '(_, s') ← WritePrioritisedBlock w d false s'; Some s') s ds)
    | None => None
    end
|}.

Definition WriteMoreStartupMessages (w : list Z -> t -> option (bool * t)) (s : t)
  : option t :=
  if log_finished s then Some s
  else
    let '(wr, s') :=
      process (H := startup_backend w) (log_config e) (_startup_messagewriter s)
        (Some (set_writer (_startup_messagewriter s) true s)) in
    s' ← s'; Some (set_writer wr false s').

Definition push_log_blocks (w : list Z -> t -> option (bool * t)) (s : t) : option t :=
  if negb (_initialised s) || negb (_logging_started s) || negb (_sending_to_client (lnk s))
  then Some s
  else s ← WriteMoreStartupMessages w s; push_queues s.

Definition WriteBlockCheckStartupMessages (w : list Z -> t -> option (bool * t)) (s : t)
  : option (bool * t) :=
  if _fmt_done (_startup_messagewriter s) then Some (true, s)
  else if _writing_startup_messages s then Some (true, s)
  else if negb (log_finished s) && negb (in_main_thread e) then Some (false, s)
  else s ← push_log_blocks w s; Some (false, s).

(** The loop of [_WritePrioritisedBlock] over what is left of the data. *)
Fixpoint copy_loop (fuel : nat) (d : list Z) (s : t) : option (bool * t) :=
  match d, fuel with
  | [], _ => Some (true, s)
  | _, O => None
  | _, S fuel =>
    s ← match _current_block (blk s) with
        | Some _ => Some s
        | None => '(r, s) ← on_blk next_block s; Some (set_blk (set_current r (blk s)) s)
        end;
    match _current_block (blk s) with
    | None => Some (false, internal_error s)
    | Some i =>
      let p := blk s in
      let rem := remaining_space_in_current_block p in
      let to_copy := if zlen d >? rem then rem else zlen d in
      b ← _blocks p !! i;
      src ← blk_get d 0 to_copy;
      x ← blk_set (buf b) (_latest_block_len p) src;
      let p := set_latest (<[i := set_buf x b]> (_blocks p))
                 (u16 (_latest_block_len p + to_copy)) p in
      let s := set_seen (stream s ++ src) (wire s) (acks s) s in
      if _latest_block_len p =? DATA_LEN then
        p ← enqueue QPending i p;
        '(r, p) ← next_block p;
        copy_loop fuel (drop (Z.to_nat to_copy) d) (set_blk (set_current r p) s)
      else copy_loop fuel (drop (Z.to_nat to_copy) d) (set_blk p s)
    end
  end.

(** [_WritePrioritisedBlock].  It asks the startup messages to be pushed while
    it holds the semaphore, and they call it again: [depth] bounds the calls. *)
Fixpoint _WritePrioritisedBlock (depth : nat) (d : list Z) (s : t) : option (bool * t) :=
  match depth with
  | O => None
  | S depth =>
    let '(ok, s) := take_nonblocking s in
    if negb ok then Some (false, dropped s)
    else
      '(ok, s) ← WriteBlockCheckStartupMessages (_WritePrioritisedBlock depth) s;
      if negb ok then Some (false, give s)
      else if bufferspace_available (blk s) <? zlen d then
        Some (false, give (if log_finished s then dropped s else s))
      else
        '(ok, s) ← copy_loop (S (length d)) d s;
        Some (ok, give s)
  end.

(** The two levels are enough. *)
Definition backend_write : list Z -> t -> option (bool * t) := _WritePrioritisedBlock 2.

Definition WriteBlock (d : list Z) (s : t) : option (bool * t) :=
  WritePrioritisedBlock backend_write d false s.
Definition WriteCriticalBlock (d : list Z) (s : t) : option (bool * t) :=
  WritePrioritisedBlock backend_write d true s.

(** ** The client's messages *)

Definition stop_logging (s : t) : t :=
  if _sending_to_client (lnk s)
  then set_lnk (set_response (millis e) (set_sending false (lnk s))) s
  else s.

(** [start_new_log_reset_variables]: the front end's own flags are not kept. *)
Definition start_new_log_reset_variables (s : t) : t :=
  set_writer (reset (log_config e) (_startup_messagewriter s)) (_writing_startup_messages s) s.

Definition stats_init (s : t) : t :=
  let x := sts s in
  set_counts 0 0 (set_sts (stats_reset (mk_stats 0 (collection_count x)
    (state_free x) (state_free_min x) (state_free_max x)
    (state_pending x) (state_pending_min x) (state_pending_max x)
    (state_retry x) (state_retry_min x) (state_retry_max x)
    (state_sent x) (state_sent_min x) (state_sent_max x))) s).

Definition reset_seqno (p : pool) : pool :=
  mk_pool (_blocks p) (_blockcount p) (_blockcount_free p) (_blocks_free p)
    (_blocks_sent p) (_blocks_pending p) (_blocks_retry p)
    (_current_block p) (_latest_block_len p) 0.

Definition start_session (chan sysid compid : Z) (s : t) : option t :=
  p ← free_all_blocks (blk s);
  let s := stats_init (set_blk p s) in
  let l := lnk s in
  let s := set_lnk (mk_link true sysid compid chan (_last_response_time l)
                      (_last_send_time l) (mavlink_seq l)) s in
  let s := set_blk (reset_seqno (blk s)) s in
  let s := start_new_log_reset_variables s in
  let s := set_lnk (set_response (millis e) (lnk s)) s in
  Some (set_seen [] [] [] s).

Definition handle_ack (chan sysid compid s_no : Z) (s : t) : option t :=
  if negb (_initialised s) then Some s
  else if s_no =? REMOTE_LOG_STOP then Some (stop_logging s)
  else if s_no =? REMOTE_LOG_START then
    if negb (_sending_to_client (lnk s)) then start_session chan sysid compid s else Some s
  else
    let s := set_seen (stream s) (wire s) (acks s ++ [s_no]) s in
    '(ok, s) ← on_blk (free_seqno_from_queue s_no QSent) s;
    if ok : bool then Some (set_lnk (set_response (millis e) (lnk s)) s)
    else
      '(ok, s) ← on_blk (free_seqno_from_queue s_no QRetry) s;
      if ok : bool then Some (set_lnk (set_response (millis e) (lnk s)) s) else Some s.

Definition handle_retry (s_no : Z) (s : t) : option t :=
  if negb (_initialised s) || negb (_sending_to_client (lnk s)) then Some s
  else
    '(victim, s) ← on_blk (dequeue QSent s_no) s;
    match victim with
    | Some i =>
      p ← enqueue QRetry i (blk s);
      Some (set_blk p (set_lnk (set_response (millis e) (lnk s)) s))
    | None => Some s
    end.

Definition remote_log_block_status_msg (chan sysid compid s_no status : Z) (s : t)
  : option t :=
  let '(ok, s) := take_nonblocking s in
  if negb ok then Some s
  else
    s ← (if status =? 0 then handle_retry s_no s
         else handle_ack chan sysid compid s_no s);
    Some (give s).

(** ** Periodic work *)

(** One walk of [do_resends] over the sent blocks; [false] when a block could
    not be sent. *)
Fixpoint resend_walk (fuel : nat) (before : Z) (p : option nat) (s : t) : option (bool * t) :=
  match p, fuel with
  | None, _ => Some (true, s)
  | Some i, S fuel =>
    b ← _blocks (blk s) !! i;
    if last_sent b <? before then
      '(ok, s) ← send_log_block i s;
      if negb ok then Some (false, s)
      else
        let s := set_sts (count_resend (sts s)) s in
        b ← _blocks (blk s) !! i;
        resend_walk fuel before (next b) s
    else resend_walk fuel before (next b) s
  | Some _, O => None
  end.

Fixpoint resend_passes (n : nat) (before : Z) (s : t) : option t :=
  match n with
  | O => Some s
  | S n =>
    let '(ok, s) := take_nonblocking s in
    if negb ok then Some s
    else
      '(ok, s) ← resend_walk (S (length (_blocks (blk s)))) before
                   (oldest (_blocks_sent (blk s))) s;
      let s := give s in
      if negb ok then Some s else resend_passes n before s
  end.

Definition do_resends (now : Z) (s : t) : option t :=
  if negb (_initialised s) || negb (_logging_started s) || negb (_sending_to_client (lnk s))
  then Some s
  else
    let count_to_send := if _blockcount (blk s) <? 5 then _blockcount (blk s) else 5 in
    resend_passes (Z.to_nat count_to_send) (u32 (now - 100)) s.

Definition stats_collect (s : t) : option t :=
  if negb (_initialised s) || negb (_logging_started s) then Some s
  else
    let '(ok, s) := take_nonblocking s in
    if negb ok then Some s
    else
      let p := blk s in
      pending ← queue_size (_blocks p) (_blocks_pending p);
      sent ← queue_size (_blocks p) (_blocks_sent p);
      retry ← queue_size (_blocks p) (_blocks_retry p);
      sfree ← stack_size (S (length (_blocks p))) (_blocks p) (_blocks_free p) 0;
      let s := if negb (sfree =? _blockcount_free p) then internal_error s else s in
      Some (set_sts (stats_add pending sent retry sfree (sts s)) (give s)).

(** The packet of [Log_Write_DF_MAV]: [struct log_DF_MAV_Stats]. *)
Definition pack_stats (s : t) : list Z :=
  let x := sts s in
  [163; 149; u8 (stats_msg_id e)] ++ le_bytes 4 (millis e) ++
  le_bytes 4 (u32 (_next_seq_num (blk s) - 1)) ++ le_bytes 4 (_dropped s) ++
  le_bytes 4 (sent_count (_blocks_retry (blk s))) ++ le_bytes 4 (resends x) ++
  [_internal_errors s;
   u8 (state_free x / collection_count x); state_free_min x; state_free_max x;
   u8 (state_pending x / collection_count x); state_pending_min x; state_pending_max x;
   u8 (state_sent x / collection_count x); state_sent_min x; state_sent_max x].

Definition stats_log (s : t) : option t :=
  if negb (_initialised s) || negb (_logging_started s) then Some s
  else if collection_count (sts s) =? 0 then Some s
  else
    '(_, s) ← WriteBlock (pack_stats s) s;
    Some (set_sts (stats_reset (sts s)) s).

Definition periodic_10Hz (now : Z) (s : t) : option t :=
  s ← do_resends now s; stats_collect s.

Definition periodic_1Hz (s : t) : option t :=
  if _sending_to_client (lnk s) &&
     (u32 (_last_response_time (lnk s) + 10000) <? _last_send_time (lnk s))
  then Some (set_lnk (set_sending false (lnk s)) s)
  else stats_log s.

Definition periodic_fullrate (s : t) : option t := push_log_blocks backend_write s.

Definition periodic_tasks (s : t) : option t :=
  let now := millis e in
  s ← (if u32 (now - _last_periodic_1Hz s) >? 1000 then
         s ← periodic_1Hz s; Some (set_periodic now (_last_periodic_10Hz s) s)
       else Some s);
  s ← (if u32 (now - _last_periodic_10Hz s) >? 100 then
         s ← periodic_10Hz now s; Some (set_periodic (_last_periodic_1Hz s) now s)
       else Some s);
  periodic_fullrate s.

End operations.

(** ** Initialisation *)

(** [Init]: [alloc n] says whether [calloc] finds room for [n] blocks. *)
Fixpoint alloc_blocks (fuel : nat) (alloc : Z -> bool) (n : Z) : option (Z * bool) :=
  match fuel with
  | O => None
  | S fuel =>
    if 8 <=? n then
      if alloc n then Some (n, true) else alloc_blocks fuel alloc (n / 2)
    else Some (n, false)
  end.

Definition Init (alloc : Z -> bool) (s : t) : option t :=
  '(n, ok) ← alloc_blocks 4 alloc (_blockcount (blk s));
  let p := blk s in
  let blocks := if ok : bool then replicate (Z.to_nat n) (mk_block 0 (replicate 200 0) 0 None) else [] in
  let p := mk_pool blocks n (_blockcount_free p) (_blocks_free p) (_blocks_sent p)
             (_blocks_pending p) (_blocks_retry p) (_current_block p)
             (_latest_block_len p) (_next_seq_num p) in
  if negb ok then Some (set_blk p s)
  else
    p ← free_all_blocks p;
    let s := stats_init (set_blk p s) in
    Some (mk true true (blk s) (lnk s) (sts s) (_dropped s) (_internal_errors s)
      (_startup_messagewriter s) (_writing_startup_messages s) (have_logged_armed s)
      (_last_periodic_1Hz s) (_last_periodic_10Hz s) (sem_held s) (sem_takes s)
      (stream s) (wire s) (acks s)).

(** The constructed object: all its memory is zero but the number of blocks. *)
Definition constructed (w : log_start) : t :=
  let q := mk_queue 0 None None in
  mk false false (mk_pool [] 32 0 None q q q None 0 0) (mk_link false 0 0 0 0 0 0)
    (mk_stats 0 0 0 0 0 0 0 0 0 0 0 0 0 0) 0 0 w false false 0 0 false 0 [] [] [].

End RemoteLog.
