(* ===== verification/RemoteLogSpec.v ===== *)
(** The blocks of DataFlash_MAVLink: the linked lists are lists, and every block
    is in exactly one of them. *)
From S2P Require Import Prelude LogWriter RemoteLog.
Import RemoteLog.

(** * Linked lists *)

(** From [p] on, the [next] pointers lead through the blocks of [l] to null. *)
Fixpoint chain (h : heap) (p : option nat) (l : list nat) : Prop :=
  match l with
  | [] => p = None
  | i :: l => p = Some i /\ exists b, h !! i = Some b /\ chain h (next b) l
  end.

Record queue_rep (h : heap) (q : dm_block_queue) (l : list nat) : Prop := {
  qr_chain : chain h (oldest q) l;
  qr_last : youngest q = last l
}.

(** What a block holds: its number and its data. *)
Definition info (h : heap) : list (Z * list Z) := (fun b => (seqno b, buf b)) <$> h.

Lemma info_lookup h i b : h !! i = Some b -> info h !! i = Some (seqno b, buf b).
Proof. intros H. unfold info. by rewrite list_lookup_fmap, H. Qed.

Lemma info_lookup_inv h i q d : info h !! i = Some (q, d) ->
  exists b, h !! i = Some b /\ seqno b = q /\ buf b = d.
Proof.
  unfold info. rewrite list_lookup_fmap. destruct (h !! i) as [b|]; [|done].
  intros [= <- <-]. by exists b.
Qed.

Lemma info_insert h i b b' : h !! i = Some b -> seqno b' = seqno b -> buf b' = buf b ->
  info (<[i := b']> h) = info h.
Proof.
  intros H Hs Hb. unfold info. rewrite list_fmap_insert, list_insert_id; [done|].
  rewrite list_lookup_fmap, H. simpl. by rewrite Hs, Hb.
Qed.

Lemma length_info h : length (info h) = length h.
Proof. apply length_fmap. Qed.

Lemma chain_agree h h' p l : chain h p l ->
  (forall i, i ∈ l -> h' !! i = h !! i) -> chain h' p l.
Proof.
  revert p. induction l as [|i l IH]; intros p; simpl; [done|].
  intros (-> & b & Hb & Hc) Ha. split; [done|]. exists b.
  split; [rewrite Ha by apply list_elem_of_here; done|].
  apply IH; [done|]. intros j Hj. apply Ha. by apply list_elem_of_further.
Qed.

Lemma chain_insert_ne h i b p l : chain h p l -> i ∉ l -> chain (<[i := b]> h) p l.
Proof.
  intros Hc Hi. apply (chain_agree h); [done|]. intros j Hj.
  apply list_lookup_insert_ne. congruence.
Qed.

(** Updating a block without touching its pointer. *)
Lemma chain_insert_next h i b b' p l : chain h p l -> h !! i = Some b ->
  next b' = next b -> chain (<[i := b']> h) p l.
Proof.
  intros Hc Hi Hn. revert p Hc. induction l as [|j l IH]; intros p; simpl; [done|].
  intros (-> & bj & Hj & Hc). split; [done|]. destruct (decide (j = i)) as [->|Hne].
  - exists b'. rewrite list_lookup_insert_eq by by eapply lookup_lt_Some.
    split; [done|]. rewrite Hn. assert (b = bj) as -> by congruence. by apply IH.
  - exists bj. rewrite list_lookup_insert_ne by done. split; [done|]. by apply IH.
Qed.

Lemma chain_elem h p l i : chain h p l -> i ∈ l -> (i < length h)%nat.
Proof.
  revert p. induction l as [|j l IH]; intros p; simpl; [by intros _ []%elem_of_nil|].
  intros (_ & b & Hb & Hc) [->|Hi]%elem_of_cons; [by eapply lookup_lt_Some|by eapply IH].
Qed.

(** The pointer of a block of a list is changed to [x]: its tail is replaced. *)
Lemma chain_link h p l y r b x l2 : chain h p (l ++ y :: r) -> NoDup (l ++ [y]) ->
  h !! y = Some b -> chain h x l2 -> y ∉ l2 ->
  chain (<[y := set_next x b]> h) p (l ++ y :: l2).
Proof.
  revert p. induction l as [|i l IH]; intros p; simpl.
  - intros (-> & _) _ Hy Hx Hn. split; [done|]. exists (set_next x b).
    rewrite list_lookup_insert_eq by by eapply lookup_lt_Some.
    split; [done|]. simpl. by apply chain_insert_ne.
  - intros (-> & bi & Hi & Hc) [Hni Hnd]%NoDup_cons Hy Hx Hn. split; [done|].
    exists bi. rewrite list_lookup_insert_ne; [|intros ->; apply Hni; set_solver].
    split; [done|]. by apply IH.
Qed.

Lemma chain_app_inv h p l1 l2 : chain h p (l1 ++ l2) -> exists x, chain h x l2 /\
  (l1 = [] -> x = p) /\ (forall l i, l1 = l ++ [i] -> exists b, h !! i = Some b /\ next b = x).
Proof.
  revert p. induction l1 as [|i l1 IH]; intros p; simpl.
  { intros Hc. exists p. split; [done|]. split; [done|]. by intros [] ?. }
  intros (-> & b & Hb & Hc). destruct (IH _ Hc) as (x & Hx & Hnil & Hsnoc).
  exists x. split; [done|]. split; [done|]. intros [|j l] k [= <- ->].
  - exists b. by rewrite Hnil.
  - by eapply Hsnoc.
Qed.

Lemma chain_length h p l : chain h p l -> NoDup l -> (length l <= length h)%nat.
Proof.
  intros Hc Hnd. pose proof (length_seq (length h) 0) as Hseq. rewrite <- Hseq.
  apply submseteq_length, NoDup_submseteq; [done|].
  intros i Hi. apply elem_of_seq. pose proof (chain_elem h p l i Hc Hi). lia.
Qed.

(** ** Queues *)

(** A queue operation touches only the blocks it is given, and no contents. *)
Definition same_outside (l : list nat) (h h' : heap) : Prop :=
  info h' = info h /\ forall i, i ∉ l -> h' !! i = h !! i.

Lemma same_outside_length l h h' : same_outside l h h' -> length h' = length h.
Proof. intros [H _]. rewrite <- (length_info h'), H. apply length_info. Qed.

Lemma enqueue_block_spec h q l i b : queue_rep h q l -> NoDup l -> i ∉ l ->
  h !! i = Some b -> next b = None ->
  exists h' q', enqueue_block q i h = Some (h', q') /\ queue_rep h' q' (l ++ [i]) /\
    sent_count q' = sent_count q /\ same_outside l h h'.
Proof.
  intros [Hc Hl] Hnd Hi Hb Hn. unfold enqueue_block. rewrite Hl.
  destruct (last l) as [y|] eqn:Ey.
  - apply last_Some in Ey as [l0 ->].
    destruct (chain_app_inv _ _ _ _ Hc) as (x & (-> & yb & Hy & _) & _).
    assert (y <> i) by set_solver.
    unfold update. rewrite Hy. cbn [mbind option_bind].
    do 2 eexists. split; [done|]. split; [|split; [done|]].
    + split; simpl; [|by rewrite last_snoc]. rewrite <- app_assoc.
      apply (chain_link h (oldest q) l0 y []); try done; [|set_solver].
      simpl. split; [done|]. exists b. by rewrite Hn.
    + split; [by eapply info_insert|]. intros j Hj.
      apply list_lookup_insert_ne. set_solver.
  - apply last_None in Ey as ->. do 2 eexists. split; [done|].
    split; [|split; [done|split; done]]. split; [|done]. simpl.
    split; [done|]. exists b. by rewrite Hn.
Qed.

Lemma find_seqno_spec h s l p fuel prev : chain h p l -> (length l < fuel)%nat ->
  (find_seqno fuel h s prev p = Some None /\
   forall i b, i ∈ l -> h !! i = Some b -> seqno b <> s) \/
  exists l1 i l2 b, l = l1 ++ i :: l2 /\ h !! i = Some b /\ seqno b = s /\
    (forall j bj, j ∈ l1 -> h !! j = Some bj -> seqno bj <> s) /\
    find_seqno fuel h s prev p =
      Some (Some (match last l1 with Some j => Some j | None => prev end, i)).
Proof.
  revert p fuel prev. induction l as [|i l IH]; intros p fuel prev; simpl.
  { intros -> Hf. left. split; [by destruct fuel|]. by intros i b []%elem_of_nil. }
  intros (-> & b & Hb & Hc) Hf. destruct fuel as [|fuel]; [lia|]. cbn [find_seqno].
  rewrite Hb. cbn [mbind option_bind]. destruct (Z.eqb_spec (seqno b) s) as [E|E].
  { right. exists [], i, l, b. repeat split; try done. by intros j bj []%elem_of_nil. }
  destruct (IH (next b) fuel (Some i) Hc) as [[-> Hno]|(l1 & j & l2 & bj & -> & Hj & Hs & Hno & ->)];
    [lia|left|right].
  - split; [done|]. intros j bj [->|Hj]%elem_of_cons Hbj; [congruence|by eapply Hno].
  - exists (i :: l1), j, l2, bj. split; [done|]. split; [done|]. split; [done|].
    split.
    { intros k bk [->|Hk]%elem_of_cons Hbk; [congruence|by eapply Hno]. }
    destruct l1 as [|k l1]; [done|]. rewrite last_cons_cons.
    by destruct (last (k :: l1)) eqn:El; [|apply last_None in El].
Qed.

Lemma dequeue_seqno_spec h q l s : queue_rep h q l -> NoDup l ->
  (dequeue_seqno q s h = Some (None, h, q) /\
   forall i b, i ∈ l -> h !! i = Some b -> seqno b <> s) \/
  exists l1 i l2 b h' q', l = l1 ++ i :: l2 /\ h !! i = Some b /\ seqno b = s /\
    (forall j bj, j ∈ l1 -> h !! j = Some bj -> seqno bj <> s) /\
    dequeue_seqno q s h = Some (Some i, h', q') /\ queue_rep h' q' (l1 ++ l2) /\
    (exists b', h' !! i = Some b' /\ next b' = None) /\ same_outside l h h'.
Proof.
  intros [Hc Hl] Hnd. unfold dequeue_seqno.
  pose proof (chain_length h _ l Hc Hnd) as Hlen.
  destruct (find_seqno_spec h s l (oldest q) (S (length h)) None Hc)
    as [[-> Hno]|(l1 & i & l2 & b & -> & Hb & Hs & Hno & ->)]; [lia|by left|right].
  exists l1, i, l2, b. cbn [mbind option_bind].
  pose proof Hnd as (Hnd1 & Hd & [Hi2 Hnd2]%NoDup_cons)%NoDup_app.
  assert (Hi1 : i ∉ l1) by (intros Hi1; by apply (Hd i Hi1), list_elem_of_here).
  destruct (chain_app_inv _ _ _ _ Hc) as (x & (-> & b0 & Hb0 & Hc2) & Hnil & Hsnoc).
  assert (b0 = b) as -> by congruence. clear Hb0.
  destruct (last l1) as [p|] eqn:Ep.
  - apply last_Some in Ep as [l0 ->].
    destruct (Hsnoc l0 p) as (pb & Hp & _); [done|].
    assert (p <> i) by set_solver.
    rewrite Hb. cbn [mbind option_bind]. unfold update. rewrite Hp.
    cbn [mbind option_bind]. rewrite list_lookup_insert_ne, Hb by done.
    cbn [mbind option_bind]. do 2 eexists.
    split; [done|]. split; [done|]. split; [done|]. split; [done|]. split; [done|].
    assert (Hc' : chain (<[p := set_next (next b) pb]> h) (oldest q) ((l0 ++ [p]) ++ l2)).
    { rewrite <- app_assoc. rewrite <- app_assoc in Hc.
      apply (chain_link h (oldest q) l0 p (i :: l2)); try done.
      intros Hp2. apply (Hd p); set_solver. }
    split; [|split].
    + split; simpl.
      * apply chain_insert_ne; [|set_solver]. by destruct (bool_decide _).
      * rewrite Hl, last_app, last_cons. destruct (last l2) as [z|] eqn:Ez.
        -- rewrite bool_decide_eq_false_2; [simpl|].
           { by rewrite Hl, !last_app, last_cons, Ez. }
           intros [= ->]. apply Hi2. apply last_Some in Ez as [? ->]. set_solver.
        -- apply last_None in Ez as ->. rewrite bool_decide_eq_true_2 by done.
           simpl. by rewrite app_nil_r, last_snoc.
    + eexists. rewrite list_lookup_insert_eq; [done|].
      rewrite length_insert. by eapply lookup_lt_Some.
    + split.
      * erewrite info_insert; [by eapply info_insert|by rewrite list_lookup_insert_ne|done|done].
      * intros j Hj. rewrite !list_lookup_insert_ne by set_solver. done.
  - apply last_None in Ep as ->. specialize (Hnil eq_refl).
    rewrite Hb. cbn [mbind option_bind]. simpl in Hl. rewrite Hl, <- Hnil.
    assert (Hupd : same_outside (i :: l2) h (<[i := set_next None b]> h)).
    { split; [by eapply info_insert|]. intros j Hj.
      apply list_lookup_insert_ne. set_solver. }
    assert (Hself : exists b', <[i := set_next None b]> h !! i = Some b' /\ next b' = None).
    { eexists. rewrite list_lookup_insert_eq by by eapply lookup_lt_Some. done. }
    unfold update.
    destruct l2 as [|k l2].
    + rewrite bool_decide_eq_true_2 by done. cbn [mbind option_bind]. rewrite Hb.
      cbn [mbind option_bind]. do 2 eexists. repeat (split; [done|]). done.
    + rewrite last_cons_cons. rewrite bool_decide_eq_false_2.
      2:{ intros Hk. apply last_Some in Hk as [l' Hk]. apply Hi2. rewrite Hk. set_solver. }
      cbn [mbind option_bind]. rewrite Hb. cbn [mbind option_bind]. do 2 eexists.
      repeat (split; [done|]). split; [|done].
      split; [by apply chain_insert_ne|]. done.
Qed.

Lemma stack_size_spec h l p fuel n : chain h p l -> (length l < fuel)%nat ->
  0 <= n -> n + zlen l < 256 -> stack_size fuel h p n = Some (n + zlen l).
Proof.
  revert p fuel n. induction l as [|i l IH]; intros p fuel n; simpl.
  { intros -> Hf Hn Hl. destruct fuel; simpl; f_equal; lia. }
  intros (-> & b & Hb & Hc) Hf Hn Hl. destruct fuel as [|fuel]; [lia|]. simpl.
  rewrite Hb. cbn [mbind option_bind]. rewrite u8_small by lia.
  rewrite IH by (done || lia). f_equal. lia.
Qed.

(** * The pool *)

(** The blocks of each queue, in order. *)
Abbreviation queues := (qid -> list nat).

Definition upd (q : qid) (l : list nat) (L : queues) : queues := fun q' =>
  match q, q' with
  | QSent, QSent | QPending, QPending | QRetry, QRetry => l
  | _, _ => L q'
  end.

Lemma upd_eq q l L : upd q l L q = l.
Proof. by destruct q. Qed.
Lemma upd_ne q q' l L : q <> q' -> upd q l L q' = L q'.
Proof. by destruct q, q'. Qed.

#[global] Instance qid_eq_dec : EqDecision qid.
Proof. solve_decision. Defined.

Lemma get_set_eq q h x p : get_queue q (set_queue q h x p) = x.
Proof. by destruct q. Qed.
Lemma get_set_ne q q' h x p : q <> q' -> get_queue q' (set_queue q h x p) = get_queue q' p.
Proof. by destruct q, q'. Qed.

Definition all_blocks (fl : list nat) (L : queues) (xs : list nat) : list nat :=
  fl ++ L QSent ++ L QPending ++ L QRetry ++ xs.

(** The pool holds the free stack [fl], the queues [L] and the loose blocks
    [xs]: every block once. *)
Record rep (p : pool) (fl : list nat) (L : queues) (xs : list nat) : Prop := {
  rp_free : chain (_blocks p) (_blocks_free p) fl;
  rp_queue : forall q, queue_rep (_blocks p) (get_queue q p) (L q);
  rp_loose : forall i, i ∈ xs -> exists b, _blocks p !! i = Some b /\ next b = None;
  rp_all : all_blocks fl L xs ≡ₚ seq 0 (length (_blocks p));
  rp_size : zlen (_blocks p) = _blockcount p;
  rp_count : 8 <= _blockcount p <= 32;
  rp_free_count : _blockcount_free p = zlen fl;
  rp_data : forall i b, _blocks p !! i = Some b -> zlen (buf b) = DATA_LEN
}.

(** Permutations by counting. *)
Ltac perm_count x :=
  rewrite (Permutation_count_occ Nat.eq_dec); intros x;
  repeat match goal with
  | H : _ ≡ₚ _ |- _ =>
    rewrite (Permutation_count_occ Nat.eq_dec) in H; specialize (H x); revert H
  end;
  unfold all_blocks; simpl; rewrite ?count_occ_app; simpl;
  rewrite ?count_occ_app; simpl; rewrite ?count_occ_app; simpl;
  repeat case_match; lia.

Section rep.
Context {p : pool} {fl : list nat} {L : queues} {xs : list nat} (R : rep p fl L xs).

Lemma rep_nodup : NoDup (all_blocks fl L xs).
Proof. rewrite (rp_all _ _ _ _ R). apply NoDup_seq. Qed.

Lemma rep_apart q i : i ∈ L q ->
  i ∉ fl /\ i ∉ xs /\ forall q', q' <> q -> i ∉ L q'.
Proof.
  intros Hi. pose proof rep_nodup as Hnd. unfold all_blocks in Hnd.
  rewrite !NoDup_app in Hnd. destruct Hnd as (Hf & Hf1 & Hs & Hs1 & Hp & Hp1 & Hr & Hr1 & Hx).
  split; [|split].
  - intros Hfl. apply (Hf1 i Hfl). destruct q; set_solver.
  - intros Hxs. destruct q; [apply (Hs1 i)|apply (Hp1 i)|apply (Hr1 i)]; set_solver.
  - intros q' Hne Hq'. destruct q, q'; try done;
      [apply (Hs1 i)|apply (Hs1 i)|apply (Hs1 i)|apply (Hp1 i)|apply (Hs1 i)|apply (Hp1 i)];
      set_solver.
Qed.

Lemma rep_free_apart i : i ∈ fl -> i ∉ xs /\ forall q, i ∉ L q.
Proof.
  intros Hi. pose proof rep_nodup as (_ & Hnd & _)%NoDup_app.
  specialize (Hnd i Hi). split; [|intros q; destruct q]; set_solver.
Qed.

Lemma rep_loose_apart i : i ∈ xs -> i ∉ fl /\ forall q, i ∉ L q.
Proof.
  intros Hi. split.
  - intros Hf. by apply (rep_free_apart i Hf).
  - intros q Hq. by apply (rep_apart q i Hq).
Qed.

Lemma rep_queue_nodup q : NoDup (L q).
Proof.
  pose proof rep_nodup as Hnd. unfold all_blocks in Hnd. rewrite !NoDup_app in Hnd.
  destruct q; naive_solver.
Qed.

Lemma rep_lookup i : i ∈ all_blocks fl L xs -> is_Some (_blocks p !! i).
Proof.
  rewrite (rp_all _ _ _ _ R), elem_of_seq. intros Hi. apply lookup_lt_is_Some. lia.
Qed.

Lemma rep_queue_lookup q i : i ∈ L q -> exists b, _blocks p !! i = Some b.
Proof.
  intros Hi. destruct (rep_lookup i) as [b Hb]; [|by exists b].
  unfold all_blocks. destruct q; set_solver.
Qed.

Lemma rep_total : (length fl + length (L QSent) + length (L QPending) +
  length (L QRetry) + length xs = length (_blocks p))%nat.
Proof.
  pose proof (Permutation_length (rp_all _ _ _ _ R)) as H.
  unfold all_blocks in H. rewrite !length_app, length_seq in H. lia.
Qed.
End rep.

(** What an operation on the lists leaves alone. *)
Record kept (p p' : pool) : Prop := {
  kp_info : info (_blocks p') = info (_blocks p);
  kp_current : _current_block p' = _current_block p;
  kp_latest : _latest_block_len p' = _latest_block_len p;
  kp_next : _next_seq_num p' = _next_seq_num p;
  kp_blocks : _blockcount p' = _blockcount p
}.

Lemma kept_refl p : kept p p.
Proof. by constructor. Qed.
Lemma kept_trans p1 p2 p3 : kept p1 p2 -> kept p2 p3 -> kept p1 p3.
Proof. intros [] []. constructor; congruence. Qed.

Lemma info_data h h' i b : info h' = info h ->
  (forall i b, h !! i = Some b -> zlen (buf b) = DATA_LEN) ->
  h' !! i = Some b -> zlen (buf b) = DATA_LEN.
Proof.
  intros Hi Hd Hb. apply info_lookup in Hb. rewrite Hi in Hb.
  apply info_lookup_inv in Hb as (b0 & Hb0 & _ & <-). by eapply Hd.
Qed.

Lemma queue_rep_agree h h' q l : queue_rep h q l ->
  (forall i, i ∈ l -> h' !! i = h !! i) -> queue_rep h' q l.
Proof. intros [Hc Hl] Ha. split; [by eapply chain_agree|done]. Qed.

Section moves.
Context {p : pool} {fl : list nat} {L : queues} {xs : list nat} (R : rep p fl L xs).

(** Taking a block out of a queue. *)
Lemma rep_dequeue q s :
  (dequeue q s p = Some (None, p) /\
   forall i b, i ∈ L q -> _blocks p !! i = Some b -> seqno b <> s) \/
  exists l1 i l2 b p', L q = l1 ++ i :: l2 /\ _blocks p !! i = Some b /\ seqno b = s /\
    (forall j bj, j ∈ l1 -> _blocks p !! j = Some bj -> seqno bj <> s) /\
    dequeue q s p = Some (Some i, p') /\
    rep p' fl (upd q (l1 ++ l2) L) (i :: xs) /\ kept p p'.
Proof.
  unfold dequeue.
  destruct (dequeue_seqno_spec _ _ _ s (rp_queue _ _ _ _ R q) (rep_queue_nodup R q))
    as [[-> Hno]|(l1 & i & l2 & b & h' & q' & Hl & Hb & Hs & Hno & -> & Hq' & Hi & Hsame)].
  { left. split; [|done]. cbn [mbind option_bind]. f_equal. f_equal.
    destruct p, q; done. }
  right. exists l1, i, l2, b. cbn [mbind option_bind]. eexists.
  split; [done|]. split; [done|]. split; [done|]. split; [done|]. split; [done|].
  pose proof (same_outside_length _ _ _ Hsame) as Hlen. destruct Hsame as [Hinfo Hout].
  assert (HiL : i ∈ L q) by (rewrite Hl; set_solver).
  split; [|by constructor; destruct q].
  constructor.
  - apply (chain_agree (_blocks p)); [apply R|]. intros j Hj. apply Hout.
    by apply (rep_free_apart R).
  - intros q0. destruct (decide (q = q0)) as [<-|Hne].
    + by rewrite upd_eq, get_set_eq.
    + rewrite upd_ne by done. apply (queue_rep_agree (_blocks p)).
      * rewrite get_set_ne by done. apply R.
      * intros j Hj. apply Hout. by apply (rep_apart R q0 j Hj).
  - intros j [->|Hj]%elem_of_cons; [done|].
    destruct (rp_loose _ _ _ _ R j Hj) as (bj & Hbj & Hn). exists bj. split; [|done].
    simpl. rewrite Hout; [done|]. by apply (rep_loose_apart R).
  - simpl. rewrite Hlen. pose proof (rp_all _ _ _ _ R) as Hall. rewrite <- Hall.
    clear -Hl. unfold all_blocks. destruct q; simpl; rewrite Hl; perm_count x.
  - simpl. rewrite Hlen. apply R.
  - apply R.
  - apply R.
  - intros j bj. simpl. intros Hj. eapply info_data; [done|apply R|done].
Qed.

(** Updating a block without touching its pointer. *)
Lemma rep_touch i b b' : _blocks p !! i = Some b -> next b' = next b ->
  zlen (buf b') = DATA_LEN ->
  rep (set_heap (<[i := b']> (_blocks p)) p) fl L xs.
Proof.
  intros Hb Hn Hd. constructor; simpl; rewrite ?length_insert; try apply R.
  - eapply chain_insert_next; [apply R|done..].
  - intros q. destruct (rp_queue _ _ _ _ R q) as [Hc Hl].
    assert (get_queue q (set_heap (<[i:=b']> (_blocks p)) p) = get_queue q p) as ->
      by (by destruct q).
    split; [|done]. by eapply chain_insert_next.
  - intros j Hj. destruct (rp_loose _ _ _ _ R j Hj) as (bj & Hbj & Hnj).
    destruct (decide (j = i)) as [->|Hne].
    + exists b'. rewrite list_lookup_insert_eq by by eapply lookup_lt_Some.
      split; [done|]. congruence.
    + exists bj. by rewrite list_lookup_insert_ne.
  - intros j bj. destruct (decide (j = i)) as [->|Hne].
    + rewrite list_lookup_insert_eq by by eapply lookup_lt_Some. by intros [= <-].
    + rewrite list_lookup_insert_ne by done. apply R.
Qed.
End moves.

(** Putting a loose block at the end of a queue. *)
Lemma rep_enqueue p fl L xs q i : rep p fl L (i :: xs) ->
  exists p', enqueue q i p = Some p' /\ rep p' fl (upd q (L q ++ [i]) L) xs /\
    kept p p' /\ _blockcount_free p' = _blockcount_free p.
Proof.
  intros R. destruct (rp_loose _ _ _ _ R i) as (b & Hb & Hn); [by apply list_elem_of_here|].
  assert (Hi : i ∈ i :: xs) by apply list_elem_of_here.
  destruct (rep_loose_apart R i Hi) as [Hfl HL].
  destruct (enqueue_block_spec _ _ _ i b (rp_queue _ _ _ _ R q) (rep_queue_nodup R q))
    as (h' & q' & He & Hq' & Hc & Hsame); [done..|].
  unfold enqueue. rewrite He. cbn [mbind option_bind]. eexists. split; [done|].
  pose proof (same_outside_length _ _ _ Hsame) as Hlen. destruct Hsame as [Hinfo Hout].
  split; [|split; [by constructor; destruct q|by destruct q]].
  constructor.
  - apply (chain_agree (_blocks p)); [apply R|]. intros j Hj. apply Hout.
    by apply (rep_free_apart R).
  - intros q0. destruct (decide (q = q0)) as [<-|Hne].
    + by rewrite upd_eq, get_set_eq.
    + rewrite upd_ne, get_set_ne by done. apply (queue_rep_agree (_blocks p)); [apply R|].
      intros j Hj. apply Hout. by apply (rep_apart R q0 j Hj).
  - intros j Hj. destruct (rp_loose _ _ _ _ R j) as (bj & Hbj & Hnj); [set_solver|].
    exists bj. split; [|done]. simpl. rewrite Hout; [done|].
    apply (rep_loose_apart R). set_solver.
  - simpl. rewrite Hlen. pose proof (rp_all _ _ _ _ R) as Hall. rewrite <- Hall.
    clear. unfold all_blocks. destruct q; simpl; perm_count x.
  - simpl. rewrite Hlen. apply R.
  - apply R.
  - apply R.
  - intros j bj. simpl. intros Hj. eapply info_data; [done|apply R|done].
Qed.

(** Freeing a loose block. *)
Lemma rep_push_free p fl L xs i b : rep p fl L (i :: xs) -> _blocks p !! i = Some b ->
  let p' := mk_pool (<[i := set_next (_blocks_free p) b]> (_blocks p)) (_blockcount p)
              (u8 (_blockcount_free p + 1)) (Some i) (_blocks_sent p) (_blocks_pending p)
              (_blocks_retry p) (_current_block p) (_latest_block_len p) (_next_seq_num p) in
  rep p' (i :: fl) L xs /\ kept p p'.
Proof.
  intros R Hb p'. assert (Hi : i ∈ i :: xs) by apply list_elem_of_here.
  destruct (rep_loose_apart R i Hi) as [Hfl HL].
  pose proof (rep_total R) as Htot. pose proof (rp_size _ _ _ _ R) as Hsz.
  pose proof (rp_count _ _ _ _ R) as Hcnt. simpl in Htot.
  pose proof (rep_nodup R) as Hnd. unfold all_blocks in Hnd. rewrite !NoDup_app in Hnd.
  assert (Hxs : i ∉ xs) by (destruct Hnd as (_&_&_&_&_&_&_&_&[]%NoDup_cons); done).
  split; [|constructor; try done; by eapply info_insert].
  constructor; simpl; rewrite ?length_insert; try apply R.
  - split; [done|]. exists (set_next (_blocks_free p) b).
    rewrite list_lookup_insert_eq by by eapply lookup_lt_Some. split; [done|].
    apply chain_insert_ne; [apply R|done].
  - intros q. assert (get_queue q p' = get_queue q p) as -> by (by destruct q).
    apply (queue_rep_agree (_blocks p)); [apply R|]. intros j Hj.
    apply list_lookup_insert_ne. intros ->. by apply (HL q).
  - intros j Hj. rewrite list_lookup_insert_ne by congruence.
    apply (rp_loose _ _ _ _ R). set_solver.
  - pose proof (rp_all _ _ _ _ R) as Hall. rewrite <- Hall. clear.
    unfold all_blocks. perm_count x.
  - rewrite (rp_free_count _ _ _ _ R), u8_small by lia. lia.
  - intros j bj Hj. destruct (decide (j = i)) as [->|Hne].
    + rewrite list_lookup_insert_eq in Hj by by eapply lookup_lt_Some.
      injection Hj as <-. simpl. by eapply (rp_data _ _ _ _ R).
    + rewrite list_lookup_insert_ne in Hj by done. by eapply (rp_data _ _ _ _ R).
Qed.

Lemma rep_free_seqno p fl L xs q s : rep p fl L xs ->
  (free_seqno_from_queue s q p = Some (false, p) /\
   forall i b, i ∈ L q -> _blocks p !! i = Some b -> seqno b <> s) \/
  exists l1 i l2 b p', L q = l1 ++ i :: l2 /\ _blocks p !! i = Some b /\ seqno b = s /\
    free_seqno_from_queue s q p = Some (true, p') /\
    rep p' (i :: fl) (upd q (l1 ++ l2) L) xs /\ kept p p'.
Proof.
  intros R. unfold free_seqno_from_queue.
  destruct (rep_dequeue R q s) as [[-> Hno]|(l1 & i & l2 & b & p1 & Hl & Hb & Hs & _ & -> & R1 & K1)];
    [by left|right].
  cbn [mbind option_bind]. unfold update.
  destruct (rp_loose _ _ _ _ R1 i) as (b1 & Hb1 & _); [apply list_elem_of_here|].
  rewrite Hb1. cbn [mbind option_bind]. exists l1, i, l2, b.
  destruct (rep_push_free p1 fl _ xs i b1 R1 Hb1) as [R2 K2].
  eexists. do 4 (split; [done|]). split; [exact R2|]. by eapply kept_trans.
Qed.

(** Taking a free block. *)
Lemma rep_next_block p fl L xs : rep p fl L xs ->
  match fl with
  | [] => next_block p = Some (None, p)
  | i :: fl => exists p' d, next_block p = Some (Some i, p') /\ rep p' fl L (i :: xs) /\
      info (_blocks p') = <[i := (_next_seq_num p, d)]> (info (_blocks p)) /\
      _current_block p' = _current_block p /\ _latest_block_len p' = 0 /\
      _next_seq_num p' = u32 (_next_seq_num p + 1)
  end.
Proof.
  intros R. unfold next_block. destruct fl as [|i fl].
  { by rewrite (rp_free _ _ _ _ R : _blocks_free p = None). }
  destruct (rp_free _ _ _ _ R) as (-> & b & Hb & Hc). rewrite Hb. cbn [mbind option_bind].
  assert (Hi : i ∈ i :: fl) by apply list_elem_of_here.
  destruct (rep_free_apart R i Hi) as [Hxs HL].
  pose proof (rep_nodup R) as Hnd. unfold all_blocks in Hnd. rewrite NoDup_app in Hnd.
  destruct Hnd as ([Hif _]%NoDup_cons & _).
  pose proof (rep_total R) as Htot. pose proof (rp_size _ _ _ _ R) as Hsz.
  pose proof (rp_count _ _ _ _ R) as Hcnt. simpl in Htot.
  eexists _, (buf b). split; [done|]. split; [|split; [|done]].
  2:{ simpl. unfold info. rewrite list_fmap_insert. done. }
  constructor; simpl; rewrite ?length_insert; try apply R.
  - by apply chain_insert_ne.
  - intros q. match goal with |- queue_rep _ ?x _ => assert (x = get_queue q p) as -> by (by destruct q) end.
    apply (queue_rep_agree (_blocks p)); [apply R|]. intros j Hj.
    apply list_lookup_insert_ne. intros ->. by apply (HL q).
  - intros j [->|Hj]%elem_of_cons.
    + eexists. rewrite list_lookup_insert_eq by by eapply lookup_lt_Some. done.
    + rewrite list_lookup_insert_ne by congruence. by apply (rp_loose _ _ _ _ R).
  - pose proof (rp_all _ _ _ _ R) as Hall. rewrite <- Hall. clear.
    unfold all_blocks. perm_count x.
  - rewrite (rp_free_count _ _ _ _ R), u8_small by (simpl; lia). simpl. lia.
  - intros j bj Hj. destruct (decide (j = i)) as [->|Hne].
    + rewrite list_lookup_insert_eq in Hj by by eapply lookup_lt_Some.
      injection Hj as <-. simpl. by eapply (rp_data _ _ _ _ R).
    + rewrite list_lookup_insert_ne in Hj by done. by eapply (rp_data _ _ _ _ R).
Qed.

(** Freeing all the blocks. *)
Lemma push_all_free_spec n i h free l : chain h free l ->
  (forall j, j ∈ l -> (j < i)%nat) -> (i + n <= length h)%nat ->
  exists h' free', push_all_free n i h free = Some (h', free') /\
    chain h' free' (rev (seq i n) ++ l) /\ length h' = length h /\
    forall j b', h' !! j = Some b' -> exists b, h !! j = Some b /\ buf b' = buf b.
Proof.
  revert i h free l. induction n as [|n IH]; intros i h free l Hc Hl Hi; simpl.
  { do 2 eexists. split; [done|]. split; [done|]. split; [done|]. intros j b' Hb. by exists b'. }
  destruct (lookup_lt_is_Some_2 h i) as [b Hb]; [lia|]. rewrite Hb. cbn [mbind option_bind].
  set (b1 := mk_block 9876543 (buf b) (last_sent b) free).
  destruct (IH (S i) (<[i := b1]> h) (Some i) (i :: l)) as (h' & free' & -> & Hc' & Hlen & Hbuf).
  - split; [done|]. exists b1. rewrite list_lookup_insert_eq by lia. split; [done|].
    apply chain_insert_ne; [done|]. intros Hj. specialize (Hl i Hj). lia.
  - intros j [->|Hj]%elem_of_cons; [lia|]. specialize (Hl j Hj). lia.
  - rewrite length_insert. lia.
  - rewrite length_insert in Hlen. do 2 eexists. split; [done|].
    split; [by rewrite <- app_assoc|]. split; [done|].
    intros j b' Hb'. destruct (Hbuf j b' Hb') as (b2 & Hb2 & ->).
    destruct (decide (j = i)) as [->|Hne].
    + rewrite list_lookup_insert_eq in Hb2 by lia. injection Hb2 as <-. by exists b.
    + rewrite list_lookup_insert_ne in Hb2 by done. by exists b2.
Qed.

Definition no_queues : queues := fun _ => [].

Lemma rep_free_all p : zlen (_blocks p) = _blockcount p -> 8 <= _blockcount p <= 32 ->
  (forall i b, _blocks p !! i = Some b -> zlen (buf b) = DATA_LEN) ->
  exists p', free_all_blocks p = Some p' /\
    rep p' (rev (seq 0 (length (_blocks p)))) no_queues [] /\
    _current_block p' = None /\ _latest_block_len p' = 0 /\
    _blockcount p' = _blockcount p.
Proof.
  intros Hsz Hcnt Hd. unfold free_all_blocks.
  destruct (push_all_free_spec (Z.to_nat (_blockcount p)) 0 (_blocks p) None [])
    as (h' & free' & -> & Hc & Hlen & Hbuf); [done|by intros j []%elem_of_nil|lia|].
  cbn [mbind option_bind]. eexists. split; [done|]. split; [|done].
  replace (Z.to_nat (_blockcount p)) with (length (_blocks p)) in Hc by lia.
  rewrite app_nil_r in Hc. constructor; simpl; rewrite ?Hlen; try done.
  - by intros [].
  - by intros i []%elem_of_nil.
  - unfold all_blocks. simpl. rewrite app_nil_r. symmetry. apply Permutation_rev.
  - rewrite length_rev, length_seq. lia.
  - intros i b Hb. destruct (Hbuf i b Hb) as (b0 & Hb0 & ->). by eapply Hd.
Qed.
