(* ===== verification/RemoteLogSession.v ===== *)
(** What a session of DataFlash_MAVLink sends: the invariant that relates the
    blocks, the messages on the wire and the bytes that were logged. *)
From S2P Require Import Prelude LogWriter LogWriterSpec RemoteLog RemoteLogSpec.
Import RemoteLog.

(** * Invariant *)

(** The [q]-th block of a log. *)
Definition piece (st : list Z) (q : Z) : list Z :=
  take 200 (drop (Z.to_nat (200 * q)) st).

(** The number of blocks of a log that are complete. *)
Definition full (st : list Z) : Z := zlen st / 200.

Definition on_wire (wr : list message) (q : Z) : Prop :=
  exists m, m ∈ wr /\ msg_seqno m = q.

(** The block being filled holds the end of the log. *)
Definition filling (p : pool) (st : list Z) : Prop :=
  match _current_block p with
  | Some c =>
    zlen st = 200 * full st + _latest_block_len p /\
    _next_seq_num p = full st + 1 /\
    exists d, info (_blocks p) !! c = Some (full st, d) /\
      take (Z.to_nat (_latest_block_len p)) d = drop (Z.to_nat (200 * full st)) st
  | None => zlen st = 200 * full st /\ _next_seq_num p = full st
  end.

(** The complete blocks: the last ones are pending, in order; each of the
    others was sent, and waits for the client or was acknowledged by it. *)
Record session (p : pool) (L : queues) (st : list Z) (wr : list message) (ak : list Z)
  : Prop := {
  ss_filling : filling p st;
  ss_pending_length : zlen (L QPending) <= full st;
  ss_pending : forall k i, L QPending !! k = Some i ->
    let q := full st - zlen (L QPending) + Z.of_nat k in
    info (_blocks p) !! i = Some (q, piece st q);
  ss_held : forall x i, x <> QPending -> i ∈ L x -> exists q,
    0 <= q < full st - zlen (L QPending) /\
    info (_blocks p) !! i = Some (q, piece st q);
  ss_cover : forall q, 0 <= q < full st - zlen (L QPending) ->
    on_wire wr q /\
    (q ∈ ak \/ exists x i d, x <> QPending /\ i ∈ L x /\ info (_blocks p) !! i = Some (q, d));
  ss_wire : forall m, m ∈ wr -> 0 <= msg_seqno m < full st /\
    msg_data m = piece st (msg_seqno m)
}.

Definition current_ok (p : pool) (fl : list nat) : Prop :=
  match _current_block p with
  | Some _ => 0 <= _latest_block_len p < 200
  | None => _latest_block_len p = 200 \/
            (_latest_block_len p = 0 /\ zlen fl = _blockcount p)
  end.

(** Sequence numbers do not wrap around up to this length. *)
Definition log_limit : Z := 200 * 4294967295.

Record holds (s : t) (fl : list nat) (L : queues) : Prop := {
  hd_rep : rep (blk s) fl L (option_list (_current_block (blk s)));
  hd_current : current_ok (blk s) fl;
  hd_errors : _internal_errors s = 0;
  hd_session : zlen (stream s) < log_limit ->
    session (blk s) L (stream s) (wire s) (acks s)
}.

Definition inv (s : t) : Prop := exists fl L, holds s fl L.

(** The semaphore and the flag of the startup messages. *)
Definition ctl (s : t) : bool * bool := (sem_held s, _writing_startup_messages s).

(** * Lemmas on sessions *)

Lemma piece_app st x q : 0 <= q < full st -> piece (st ++ x) q = piece st q.
Proof.
  intros Hq. unfold piece, full in *.
  assert (200 * q + 200 <= zlen st) by zlia.
  rewrite drop_app_le by lia. rewrite take_app_le by (rewrite length_drop; lia). done.
Qed.

Lemma full_app st x : full st <= full (st ++ x).
Proof. unfold full. rewrite length_app. zlia. Qed.

Lemma full_nonneg st : 0 <= full st.
Proof. unfold full. zlia. Qed.

Lemma session_kept p p' L st wr ak : kept p p' -> session p L st wr ak -> session p' L st wr ak.
Proof.
  intros [Hi Hc Hl Hn _] [Hf Hpl Hp Hh Hcov Hw].
  constructor; try done; try (rewrite Hi; done).
  unfold filling in *. rewrite Hc, Hl, Hn, Hi. done.
Qed.

Lemma on_wire_app wr m q : on_wire wr q -> on_wire (wr ++ m) q.
Proof. intros (x & Hx & E). exists x. split; [set_solver|done]. Qed.

Lemma session_wire p L st wr ak m : session p L st wr ak ->
  0 <= msg_seqno m < full st -> msg_data m = piece st (msg_seqno m) ->
  session p L st (wr ++ [m]) ak.
Proof.
  intros [Hf Hpl Hp Hh Hcov Hw] Hm Hd. constructor; try done.
  - intros q Hq. destruct (Hcov q Hq) as [Hon Hor]. split; [by apply on_wire_app|done].
  - intros m' [Hm'|Hm']%elem_of_app; [by apply Hw|].
    apply list_elem_of_singleton in Hm' as ->. done.
Qed.

(** A block of any queue carries its piece of the log. *)
Lemma session_block p L st wr ak x i : session p L st wr ak -> i ∈ L x ->
  exists q, 0 <= q < full st /\ info (_blocks p) !! i = Some (q, piece st q).
Proof.
  intros [Hf Hpl Hp Hh Hcov Hw] Hi. destruct (decide (x = QPending)) as [->|Hx].
  - apply list_elem_of_lookup in Hi as [k Hk]. pose proof (lookup_lt_Some _ _ _ Hk).
    eexists. split; [|by apply (Hp k)]. lia.
  - destruct (Hh x i Hx Hi) as (q & Hq & E). exists q. split; [lia|done].
Qed.

(** The oldest pending block, once sent, moves to the sent ones. *)
Lemma session_sent p L st wr ak i pl q d : session p L st wr ak ->
  L QPending = i :: pl -> info (_blocks p) !! i = Some (q, d) -> on_wire wr q ->
  session p (upd QSent (L QSent ++ [i]) (upd QPending pl L)) st wr ak.
Proof.
  intros [Hf Hpl Hp Hh Hcov Hw] HL Hi Hon.
  rewrite HL in *. simpl length in *.
  pose proof (Hp 0%nat i eq_refl) as Hi0. cbv zeta in Hi0. rewrite Hi in Hi0.
  injection Hi0 as Hq Hd. rewrite Z.add_0_r in Hq, Hd.
  constructor; simpl; try done; [lia|..].
  - intros k j Hk. specialize (Hp (S k) j Hk). cbv zeta in Hp.
    replace (full st - zlen pl + Z.of_nat k) with
      (full st - Z.of_nat (S (length pl)) + Z.of_nat (S k)) by lia. done.
  - intros x j Hx Hj.
    assert (j = i \/ (exists x', x' <> QPending /\ j ∈ L x')) as [->|(x' & Hx' & Hj')].
    { destruct x; simpl in Hj; try done.
      - apply elem_of_app in Hj as [Hj|Hj]; [right; by exists QSent|left; set_solver].
      - right. by exists QRetry. }
    + exists q. split; [lia|]. by rewrite Hi, Hd, Hq.
    + destruct (Hh x' j Hx' Hj') as (q' & Hq' & E). exists q'. split; [lia|done].
  - intros q' Hq'. destruct (decide (q' = q)) as [->|Hne].
    + split; [done|]. right. exists QSent, i, d. split; [done|]. simpl.
      split; [set_solver|done].
    + destruct (Hcov q') as [Hon' Hor]; [lia|]. split; [done|].
      destruct Hor as [?|(x & j & dj & Hx & Hj & E)]; [by left|right].
      exists x, j, dj. split; [done|]. split; [|done].
      destruct x; simpl; [set_solver|done|done].
Qed.

(** A block that was sent leaves its queue: for the other one, or freed since
    its number was acknowledged. *)
Lemma session_move p L st wr ak x y l1 i l2 : session p L st wr ak ->
  x <> QPending -> y <> QPending -> L x = l1 ++ i :: l2 ->
  session p (upd y (upd x (l1 ++ l2) L y ++ [i]) (upd x (l1 ++ l2) L)) st wr ak.
Proof.
  intros [Hf Hpl Hp Hh Hcov Hw] Hx Hy HL.
  set (L' := upd y _ _).
  assert (HP : L' QPending = L QPending) by (unfold L'; rewrite !upd_ne by congruence; done).
  assert (Hsub : forall z j, z <> QPending -> j ∈ L' z -> exists z', z' <> QPending /\ j ∈ L z').
  { intros z j Hz Hj. unfold L' in Hj. destruct (decide (y = z)) as [<-|Hne].
    - rewrite upd_eq in Hj. apply elem_of_app in Hj as [Hj|Hj].
      + destruct (decide (x = y)) as [<-|?].
        * rewrite upd_eq in Hj. exists x. split; [done|]. rewrite HL. set_solver.
        * rewrite upd_ne in Hj by done. by exists y.
      + exists x. split; [done|]. rewrite HL. set_solver.
    - rewrite upd_ne in Hj by done. destruct (decide (x = z)) as [<-|?].
      + rewrite upd_eq in Hj. exists x. split; [done|]. rewrite HL. set_solver.
      + rewrite upd_ne in Hj by done. by exists z. }
  assert (Hsup : forall z j, z <> QPending -> j ∈ L z -> exists z', z' <> QPending /\ j ∈ L' z').
  { intros z j Hz Hj. destruct (decide (x = z)) as [<-|Hne].
    - rewrite HL in Hj. destruct (decide (j = i)) as [->|Hji].
      + exists y. split; [done|]. unfold L'. rewrite upd_eq. set_solver.
      + assert (Hj' : j ∈ l1 ++ l2) by set_solver.
        exists x. split; [done|]. unfold L'. destruct (decide (y = x)) as [->|?].
        * rewrite !upd_eq. set_solver.
        * by rewrite upd_ne, upd_eq.
    - exists z. split; [done|]. unfold L'. destruct (decide (y = z)) as [<-|?].
      + rewrite upd_eq, upd_ne by done. set_solver.
      + by rewrite !upd_ne. }
  constructor; rewrite ?HP; try done.
  - intros z j Hz Hj. destruct (Hsub z j Hz Hj) as (z' & Hz' & Hj'). by apply (Hh z').
  - intros q Hq. destruct (Hcov q Hq) as [Hon Hor]. split; [done|].
    destruct Hor as [?|(z & j & d & Hz & Hj & E)]; [by left|right].
    destruct (Hsup z j Hz Hj) as (z' & Hz' & Hj'). by exists z', j, d.
Qed.

Lemma session_free p L st wr ak x l1 i l2 q d : session p L st wr ak ->
  x <> QPending -> L x = l1 ++ i :: l2 -> info (_blocks p) !! i = Some (q, d) ->
  q ∈ ak -> session p (upd x (l1 ++ l2) L) st wr ak.
Proof.
  intros [Hf Hpl Hp Hh Hcov Hw] Hx HL Hi Hq.
  assert (HP : upd x (l1 ++ l2) L QPending = L QPending) by (by rewrite upd_ne).
  constructor; rewrite ?HP; try done.
  - intros z j Hz Hj. apply (Hh z j Hz). destruct (decide (x = z)) as [<-|?].
    + rewrite upd_eq in Hj. rewrite HL. set_solver.
    + by rewrite upd_ne in Hj.
  - intros q' Hq'. destruct (Hcov q' Hq') as [Hon Hor]. split; [done|].
    destruct Hor as [?|(z & j & dj & Hz & Hj & E)]; [by left|].
    destruct (decide (j = i)) as [->|Hji]; [left; congruence|right].
    exists z, j, dj. split; [done|]. split; [|done].
    destruct (decide (x = z)) as [<-|?]; [|by rewrite upd_ne].
    rewrite upd_eq. rewrite HL in Hj. set_solver.
Qed.

Lemma session_acks p L st wr ak a : session p L st wr ak -> session p L st wr (ak ++ a).
Proof.
  intros [Hf Hpl Hp Hh Hcov Hw]. constructor; try done.
  intros q Hq. destruct (Hcov q Hq) as [Hon [?|?]]; (split; [done|]); [left; set_solver|by right].
Qed.

Lemma session_start p st wr ak : st = [] -> wr = [] -> ak = [] -> _current_block p = None ->
  _next_seq_num p = 0 -> session p no_queues st wr ak.
Proof.
  intros -> -> -> Hc Hn. unfold full.
  constructor; unfold filling, full; simpl; rewrite ?Hc; try done; try lia.
  - by intros x i _ Hi%elem_of_nil.
  - intros q Hq. change (Z.of_nat 0 / 200) with 0 in Hq. lia.
  - by intros m Hm%elem_of_nil.
Qed.
