(* ===== verification/RemoteLogOps.v ===== *)
(** Every operation of DataFlash_MAVLink keeps the invariant of its session,
    and none of them is undefined. *)
From S2P Require Import Prelude LogWriter LogWriterSpec RemoteLog RemoteLogSpec.
From S2P Require Import RemoteLogSession.
Import RemoteLog.

(** * Changes the invariant does not see *)

Lemma holds_same s s' fl L : holds s fl L -> blk s' = blk s -> stream s' = stream s ->
  wire s' = wire s -> acks s' = acks s -> _internal_errors s' = _internal_errors s ->
  holds s' fl L.
Proof.
  intros [R C E S] Hb Hs Hw Ha He. constructor; rewrite ?Hb, ?Hs, ?Hw, ?Ha, ?He; done.
Qed.

Lemma inv_same s s' : inv s -> blk s' = blk s -> stream s' = stream s ->
  wire s' = wire s -> acks s' = acks s -> _internal_errors s' = _internal_errors s -> inv s'.
Proof. intros (fl & L & H) **. exists fl, L. by eapply holds_same. Qed.

Lemma rep_touch_kept p i b b' : _blocks p !! i = Some b -> seqno b' = seqno b ->
  buf b' = buf b -> kept p (set_heap (<[i := b']> (_blocks p)) p).
Proof. intros Hb Hs Hd. constructor; try done. by eapply info_insert. Qed.

(** * Filling blocks *)

(** Other contents, where no queue looks. *)
Lemma session_transport p p' L st wr ak : session p L st wr ak -> filling p' st ->
  (forall x j, j ∈ L x -> info (_blocks p') !! j = info (_blocks p) !! j) ->
  session p' L st wr ak.
Proof.
  intros [Hf Hpl Hp Hh Hcov Hw] Hf' Ha. constructor; try done.
  - intros k i Hk. rewrite Ha with (x := QPending) by by eapply list_elem_of_lookup_2.
    by apply Hp.
  - intros x i Hx Hi. rewrite (Ha x) by done. by apply (Hh x).
  - intros q Hq. destruct (Hcov q Hq) as [Hon Hor]. split; [done|].
    destruct Hor as [?|(x & i & d & Hx & Hi & E)]; [by left|right].
    exists x, i, d. by rewrite (Ha x).
Qed.

(** More bytes in the block being filled. *)
Lemma session_extend p p' L st x wr ak : session p L st wr ak -> filling p' (st ++ x) ->
  full (st ++ x) = full st ->
  (forall q j, j ∈ L q -> info (_blocks p') !! j = info (_blocks p) !! j) ->
  session p' L (st ++ x) wr ak.
Proof.
  intros [Hf Hpl Hp Hh Hcov Hw] Hf' Hfull Ha.
  constructor; rewrite ?Hfull; try done.
  - intros k i Hk. pose proof (lookup_lt_Some _ _ _ Hk).
    rewrite (Ha QPending) by by eapply list_elem_of_lookup_2.
    cbv zeta. rewrite piece_app by lia. by apply Hp.
  - intros q i Hq Hi. rewrite (Ha q) by done.
    destruct (Hh q i Hq Hi) as (n & Hn & E). exists n. split; [done|].
    rewrite piece_app by lia. done.
  - intros q Hq. destruct (Hcov q Hq) as [Hon Hor]. split; [done|].
    destruct Hor as [?|(y & i & d & Hy & Hi & E)]; [by left|right].
    exists y, i, d. by rewrite (Ha y).
  - intros m Hm. destruct (Hw m Hm) as [Hs ->]. split; [done|]. by rewrite piece_app.
Qed.

(** The block is complete: it is the youngest pending one. *)
Lemma session_complete p p' L st x wr ak i : session p L st wr ak ->
  filling p' (st ++ x) -> full (st ++ x) = full st + 1 ->
  info (_blocks p') !! i = Some (full st, piece (st ++ x) (full st)) ->
  (forall q j, j ∈ L q -> info (_blocks p') !! j = info (_blocks p) !! j) ->
  session p' (upd QPending (L QPending ++ [i]) L) (st ++ x) wr ak.
Proof.
  intros [Hf Hpl Hp Hh Hcov Hw] Hf' Hfull Hi Ha.
  assert (Hlen : zlen (upd QPending (L QPending ++ [i]) L QPending) = zlen (L QPending) + 1)
    by (simpl; rewrite length_app; simpl; lia).
  pose proof (full_nonneg st).
  constructor; rewrite ?Hfull, ?Hlen; try done; [lia|..].
  - intros k j Hk. cbv zeta. simpl in Hk.
    destruct (decide (k < length (L QPending))%nat) as [Hlt|Hge].
    + rewrite lookup_app_l in Hk by done.
      rewrite (Ha QPending) by by eapply list_elem_of_lookup_2.
      replace (full st + 1 - (zlen (L QPending) + 1) + Z.of_nat k) with
        (full st - zlen (L QPending) + Z.of_nat k) by lia.
      rewrite piece_app by lia. by apply Hp.
    + rewrite lookup_app_r in Hk by lia.
      apply list_lookup_singleton_Some in Hk as [Hk <-].
      replace (full st + 1 - (zlen (L QPending) + 1) + Z.of_nat k) with (full st) by lia.
      done.
  - intros q j Hq Hj. rewrite upd_ne in Hj by done. rewrite (Ha q) by done.
    destruct (Hh q j Hq Hj) as (n & Hn & E). exists n. split; [lia|].
    rewrite piece_app by lia. done.
  - intros q Hq. destruct (Hcov q) as [Hon Hor]; [lia|]. split; [done|].
    destruct Hor as [?|(y & j & d & Hy & Hj & E)]; [by left|right].
    exists y, j, d. rewrite upd_ne by done. by rewrite (Ha y).
  - intros m Hm. destruct (Hw m Hm) as [Hs ->]. split; [lia|]. by rewrite piece_app.
Qed.

Lemma rep_set_current p fl L xs r : rep p fl L xs -> rep (set_current r p) fl L xs.
Proof.
  intros [Rf Rq Rl Ra Rs Rc Rfc Rd]. by constructor.
Qed.

(** A new block to fill, when there is a free one. *)
Lemma acquire p fl L st wr ak : rep p fl L [] ->
  (zlen st < log_limit -> session (set_current None p) L st wr ak) ->
  match fl with
  | [] => next_block p = Some (None, p)
  | i :: fl => exists p', next_block p = Some (Some i, p') /\
      rep (set_current (Some i) p') fl L [i] /\ _latest_block_len p' = 0 /\
      (zlen st < log_limit -> session (set_current (Some i) p') L st wr ak)
  end.
Proof.
  intros R Hs. pose proof (rep_next_block p fl L [] R) as Hn. destruct fl as [|i fl]; [done|].
  destruct Hn as (p' & d & Hn & R' & Hinfo & Hc & Hl & Hnx).
  exists p'. split; [done|]. split; [by apply rep_set_current|]. split; [done|].
  intros Hlim. specialize (Hs Hlim). pose proof (ss_filling _ _ _ _ _ Hs) as [Hz Hnext].
  simpl in Hnext. pose proof (full_nonneg st).
  assert (Hlt : (i < length (info (_blocks p)))%nat).
  { destruct (rp_free _ _ _ _ R) as (_ & b & Hb & _). rewrite length_info.
    by eapply lookup_lt_Some. }
  eapply session_transport; [done|..].
  - unfold filling. simpl. rewrite Hl, Hnx, Hnext.
    unfold log_limit in Hlim. rewrite u32_small by (unfold full in *; zlia).
    split; [lia|]. split; [done|]. exists d. rewrite Hinfo, Hnext.
    rewrite list_lookup_insert_eq by done. split; [done|].
    rewrite drop_ge by lia. done.
  - intros x j Hj. simpl. rewrite Hinfo. apply list_lookup_insert_ne.
    intros ->. eapply (rep_free_apart R j); [apply list_elem_of_here|done].
Qed.

(** The room for data: the rest of the current block and the free blocks. *)
Definition room (p : pool) (fl : list nat) : Z :=
  200 * zlen fl +
  match _current_block p with Some _ => 200 - _latest_block_len p | None => 0 end.

(** What [bufferspace_available] reports: that room, and 200 bytes more before
    the first block of a session is taken. *)
Lemma bufferspace_eq s fl L : holds s fl L ->
  bufferspace_available (blk s) = room (blk s) fl \/
  (bufferspace_available (blk s) = room (blk s) fl + 200 /\
   room (blk s) fl = 200 * _blockcount (blk s)).
Proof.
  intros [R C _ _]. pose proof (rp_free_count _ _ _ _ R) as Hfc.
  pose proof (rep_total R) as Ht. pose proof (rp_size _ _ _ _ R).
  pose proof (rp_count _ _ _ _ R).
  unfold bufferspace_available, remaining_space_in_current_block, room, current_ok, DATA_LEN in *.
  rewrite Hfc. destruct (_current_block (blk s)) as [c|].
  - left. rewrite u8_small, u32_small by lia. lia.
  - destruct C as [->|[-> E]].
    + left. rewrite u8_small, u32_small by lia. lia.
    + right. rewrite u8_small, u32_small by lia. lia.
Qed.

(** The bytes [src] stored in the current block. *)
Definition fill_block (p : pool) (i : nat) (b : dm_block) (src : list Z) : pool :=
  set_latest (<[i := set_buf (list_inserts (Z.to_nat (_latest_block_len p)) src (buf b)) b]>
                (_blocks p)) (u16 (_latest_block_len p + zlen src)) p.

Lemma rep_fill p fl L xs i b src : rep p fl L xs -> _blocks p !! i = Some b ->
  rep (fill_block p i b src) fl L xs.
Proof.
  intros R Hb. pose proof (rp_data _ _ _ _ R _ _ Hb) as Hd.
  destruct (rep_touch R i b (set_buf (list_inserts (Z.to_nat (_latest_block_len p)) src (buf b)) b))
    as [Rf Rq Rl Ra Rs Rc Rfc Rd]; [done|done|by simpl; rewrite length_inserts|].
  by constructor.
Qed.

Lemma fill_info p i b src : _blocks p !! i = Some b ->
  info (_blocks (fill_block p i b src)) !! i =
    Some (seqno b, list_inserts (Z.to_nat (_latest_block_len p)) src (buf b)) /\
  forall j, j <> i -> info (_blocks (fill_block p i b src)) !! j = info (_blocks p) !! j.
Proof.
  intros Hb. pose proof (lookup_lt_Some _ _ _ Hb). split.
  - apply (info_lookup _ i (set_buf _ b)). simpl. by rewrite list_lookup_insert_eq.
  - intros j Hj. simpl. unfold info. by rewrite !list_lookup_fmap, list_lookup_insert_ne.
Qed.

Section fill.
Context {p : pool} {fl : list nat} {L : queues} {i : nat} {b : dm_block}
  {st : list Z} {wr : list message} {ak : list Z} {src : list Z}.
Hypothesis R : rep p fl L [i].
Hypothesis Hcur : _current_block p = Some i.
Hypothesis Hb : _blocks p !! i = Some b.
Hypothesis Hlat : 0 <= _latest_block_len p < 200.
Hypothesis Hsrc : 0 < zlen src /\ zlen src <= 200 - _latest_block_len p.
Hypothesis Hses : zlen st < log_limit -> session p L st wr ak.

Lemma fill_apart x j : j ∈ L x -> j <> i.
Proof. intros Hj ->. eapply (rep_loose_apart R i); [apply list_elem_of_here|done]. Qed.

Lemma fill_taken : zlen st < log_limit ->
  zlen st = 200 * full st + _latest_block_len p /\ _next_seq_num p = full st + 1 /\
  info (_blocks (fill_block p i b src)) !! i =
    Some (full st, list_inserts (Z.to_nat (_latest_block_len p)) src (buf b)) /\
  take (Z.to_nat (_latest_block_len p + zlen src))
    (list_inserts (Z.to_nat (_latest_block_len p)) src (buf b)) =
  drop (Z.to_nat (200 * full st)) (st ++ src).
Proof.
  intros Hlim. pose proof (ss_filling _ _ _ _ _ (Hses Hlim)) as Hf.
  unfold filling in Hf. rewrite Hcur in Hf. destruct Hf as (Hz & Hn & d & Hd & Htk).
  rewrite (info_lookup _ _ _ Hb) in Hd. injection Hd as Hs <-.
  split; [done|]. split; [done|]. destruct (fill_info p i b src Hb) as [-> _].
  split; [by rewrite Hs|]. pose proof (rp_data _ _ _ _ R _ _ Hb) as Hdl. unfold DATA_LEN in Hdl.
  pose proof (full_nonneg st).
  replace (Z.to_nat (_latest_block_len p + zlen src)) with
    (Z.to_nat (_latest_block_len p) + length src)%nat by lia.
  rewrite take_inserts_app by lia. rewrite Htk, drop_app_le by lia. done.
Qed.

Lemma fill_partial : _latest_block_len p + zlen src < 200 ->
  zlen (st ++ src) < log_limit -> session (fill_block p i b src) L (st ++ src) wr ak.
Proof.
  intros Hlt Hlim. rewrite length_app in Hlim.
  destruct fill_taken as (Hz & Hn & Hi & Ht); [lia|].
  assert (Hfull : full (st ++ src) = full st) by (unfold full in *; rewrite length_app; zlia).
  apply (session_extend p); [apply Hses; lia| |done|].
  - unfold filling. simpl. rewrite Hcur, Hfull, u16_small, length_app by lia.
    split; [lia|]. split; [done|]. eexists. split; [exact Hi|exact Ht].
  - intros q j Hj. apply (fill_info p i b src Hb). by eapply fill_apart.
Qed.

(** The block is full: it is queued, and no block is being filled. *)
Lemma fill_complete : _latest_block_len p + zlen src = 200 ->
  exists p2, enqueue QPending i (fill_block p i b src) = Some p2 /\
    rep p2 fl (upd QPending (L QPending ++ [i]) L) [] /\
    _latest_block_len p2 = 200 /\
    (zlen (st ++ src) < log_limit ->
     session (set_current None p2) (upd QPending (L QPending ++ [i]) L) (st ++ src) wr ak).
Proof.
  intros Heq. destruct (rep_enqueue _ _ _ [] QPending i (rep_fill _ _ _ _ i b src R Hb))
    as (p2 & He & R2 & K & _).
  exists p2. split; [done|]. split; [done|].
  split; [rewrite (kp_latest _ _ K); simpl; rewrite u16_small by lia; done|].
  intros Hlim. rewrite length_app in Hlim.
  destruct fill_taken as (Hz & Hn & Hi & Ht); [lia|]. pose proof (full_nonneg st).
  assert (Hfull : full (st ++ src) = full st + 1) by (unfold full in *; rewrite length_app; zlia).
  apply (session_complete p); [apply Hses; lia|..].
  - unfold filling. simpl. rewrite (kp_next _ _ K), Hfull, length_app. simpl.
    split; [lia|done].
  - done.
  - simpl. rewrite (kp_info _ _ K), Hi. f_equal. f_equal.
    unfold piece. rewrite <- Ht, Heq.
    pose proof (rp_data _ _ _ _ R _ _ Hb) as Hdl. unfold DATA_LEN in Hdl.
    rewrite take_take, take_ge; [done|]. rewrite length_inserts. lia.
  - intros q j Hj. simpl. rewrite (kp_info _ _ K).
    apply (fill_info p i b src Hb). by eapply fill_apart.
Qed.
End fill.

(** The loop takes a block to fill when it has none. *)
Lemma take_current s fl L : holds s fl L -> 0 < room (blk s) fl ->
  exists s1 fl1 i,
    match _current_block (blk s) with
    | Some _ => Some s
    | None => '(r, s) ← on_blk next_block s; Some (set_blk (set_current r (blk s)) s)
    end = Some s1 /\
    holds s1 fl1 L /\ _current_block (blk s1) = Some i /\
    room (blk s1) fl1 = room (blk s) fl /\ ctl s1 = ctl s /\ stream s1 = stream s.
Proof.
  intros [R C E Ss] Hroom. unfold room in *.
  destruct (_current_block (blk s)) as [i|] eqn:Hcur.
  { exists s, fl, i. split; [done|]. split; [constructor; try done; by rewrite Hcur|].
    by rewrite Hcur. }
  assert (Heta : set_current None (blk s) = blk s).
  { destruct (blk s). simpl in *. by subst. }
  pose proof (acquire (blk s) fl L (stream s) (wire s) (acks s) R) as Ha.
  rewrite Heta in Ha. specialize (Ha Ss). destruct fl as [|i fl]; [simpl in Hroom; lia|].
  destruct Ha as (p' & Hn & R' & Hl & Ss'). unfold on_blk. rewrite Hn. simpl.
  do 3 eexists. split; [done|]. simpl. split; [|split; [done|]].
  - constructor; simpl; try done. unfold current_ok. simpl. rewrite Hl. lia.
  - rewrite Hl. split; [simpl length; lia|done].
Qed.

Lemma copy_loop_spec fuel d s fl L : holds s fl L -> zlen d <= room (blk s) fl ->
  (length d < fuel)%nat ->
  exists s', copy_loop fuel d s = Some (true, s') /\ inv s' /\ ctl s' = ctl s /\
    stream s' = stream s ++ d.
Proof.
  revert d s fl L. induction fuel as [|fuel IH]; intros d s fl L H Hroom Hf; [lia|].
  destruct d as [|x d0].
  { exists s. split; [done|]. split; [by exists fl, L|]. by rewrite app_nil_r. }
  set (d := x :: d0) in *. assert (Hd : 0 < zlen d) by (simpl; lia).
  destruct (take_current s fl L H) as (s1 & fl1 & i & Hs1 & H1 & Hcur & Hr1 & Hctl & Hst); [lia|].
  pose proof (hd_rep _ _ _ H1) as R. rewrite Hcur in R. simpl option_list in R.
  pose proof (hd_current _ _ _ H1) as C. unfold current_ok in C. rewrite Hcur in C.
  destruct (rp_loose _ _ _ _ R i) as (b & Hb & _); [apply list_elem_of_here|].
  pose proof (rp_data _ _ _ _ R _ _ Hb) as Hdl. unfold DATA_LEN in Hdl.
  change (copy_loop (S fuel) d s) with
    (s1 ← match _current_block (blk s) with
          | Some _ => Some s
          | None => '(r, s) ← on_blk next_block s; Some (set_blk (set_current r (blk s)) s)
          end;
     match _current_block (blk s1) with
     | None => Some (false, internal_error s1)
     | Some i =>
       let p := blk s1 in
       let rem := remaining_space_in_current_block p in
       let to_copy := if zlen d >? rem then rem else zlen d in
       b ← _blocks p !! i;
       src ← blk_get d 0 to_copy;
       x ← blk_set (buf b) (_latest_block_len p) src;
       let p := set_latest (<[i := set_buf x b]> (_blocks p))
                  (u16 (_latest_block_len p + to_copy)) p in
       let s := set_seen (stream s1 ++ src) (wire s1) (acks s1) s1 in
       if _latest_block_len p =? DATA_LEN then
         p ← enqueue QPending i p;
         '(r, p) ← next_block p;
         copy_loop fuel (drop (Z.to_nat to_copy) d) (set_blk (set_current r p) s)
       else copy_loop fuel (drop (Z.to_nat to_copy) d) (set_blk p s)
     end).
  clearbody d. rewrite Hs1. cbn [mbind option_bind]. rewrite Hcur. cbv zeta.
  unfold remaining_space_in_current_block, DATA_LEN. rewrite u8_small by lia.
  set (k := if zlen d >? 200 - _latest_block_len (blk s1) then _ else _).
  assert (Hk : 0 < k <= 200 - _latest_block_len (blk s1) /\ k <= zlen d) by (unfold k; zcases; lia).
  assert (Hkd : k < 200 - _latest_block_len (blk s1) -> k = zlen d) by (unfold k; zcases; lia).
  clearbody k. rewrite Hb. cbn [mbind option_bind].
  rewrite blk_get_Some by lia. cbn [mbind option_bind]. rewrite drop_0.
  set (src := take (Z.to_nat k) d). assert (Hsrc : zlen src = k) by (unfold src; rewrite length_take; lia).
  rewrite blk_set_Some by lia. cbn [mbind option_bind].
  pose proof (take_drop (Z.to_nat k) d) as Htd. fold src in Htd.
  set (rest := drop (Z.to_nat k) d) in *.
  assert (Hrest : zlen rest = zlen d - k) by (unfold rest; rewrite length_drop; lia).
  clearbody src rest. subst k. fold (fill_block (blk s1) i b src).
  unfold room in Hr1 at 1. rewrite Hcur in Hr1.
  assert (Hlat : _latest_block_len (fill_block (blk s1) i b src) = _latest_block_len (blk s1) + zlen src)
    by (simpl; by rewrite u16_small by lia).
  rewrite Hlat.
  destruct (Z.eqb_spec (_latest_block_len (blk s1) + zlen src) 200) as [Heq|Hne].
  - destruct (fill_complete (st := stream s1) (wr := wire s1) (ak := acks s1) R Hcur Hb
      (src := src)) as (p2 & He & R2 & Hl2 & Ss2); [lia|lia|apply H1|lia|].
    rewrite He. cbn [mbind option_bind].
    pose proof (acquire p2 fl1 _ _ _ _ R2 Ss2) as Ha.
    assert (Hnext : exists r p3 fl3, next_block p2 = Some (r, p3) /\
      holds (set_blk (set_current r p3) (set_seen (stream s1 ++ src) (wire s1) (acks s1) s1)) fl3
        (upd QPending (L QPending ++ [i]) L) /\
      room (set_current r p3) fl3 = 200 * zlen fl1).
    { destruct fl1 as [|j fl1].
      - rewrite Ha. exists None, p2, []. split; [done|]. split; [|done].
        constructor; simpl; [by apply rep_set_current| |apply H1|done].
        unfold current_ok. simpl. by left.
      - destruct Ha as (p3 & -> & R3 & Hl3 & Ss3). exists (Some j), p3, fl1.
        split; [done|]. split; [|unfold room; simpl; rewrite Hl3; lia].
        constructor; simpl; [done| |apply H1|done].
        unfold current_ok. simpl. rewrite Hl3. lia. }
    destruct Hnext as (r & p3 & fl3 & -> & H3 & Hr3). cbn [mbind option_bind].
    destruct (IH rest _ fl3 _ H3) as (s' & Hs' & Hi' & Hc' & Hst'); [simpl; lia|lia|].
    exists s'. split; [done|]. split; [done|]. split; [by rewrite Hc', <- Hctl|].
    rewrite Hst'. simpl. rewrite <- app_assoc, Htd, Hst. done.
  - destruct (IH rest (set_blk (fill_block (blk s1) i b src)
        (set_seen (stream s1 ++ src) (wire s1) (acks s1) s1)) fl1 L) as (s' & Hs' & Hi' & Hc' & Hst').
    + constructor; simpl; [rewrite Hcur; by apply rep_fill| |apply H1|].
      * unfold current_ok. simpl. rewrite Hcur, u16_small by lia. lia.
      * intros Hlim. apply (fill_partial R Hcur Hb); try done; try lia. apply H1.
    + unfold room. simpl blk. change (_current_block (fill_block (blk s1) i b src)) with (_current_block (blk s1)).
      rewrite Hcur, Hlat. lia.
    + lia.
    + exists s'. split; [done|]. split; [done|]. split; [by rewrite Hc', <- Hctl|].
      rewrite Hst'. simpl. rewrite <- app_assoc, Htd, Hst. done.
Qed.

(** The packets are no larger than the smallest pool: eight blocks. *)
Definition env_ok (e : env) : Prop :=
  (forall i, zlen (pack e i) <= 1600) /\
  match vehicle_packets e with
  | Some ds => Forall (fun d => zlen d <= 1600) ds
  | None => True
  end.

Section ops.
Variables STOP START : Z.
Context (e : env).
Hypothesis packets : env_ok e.

(** ** The semaphore *)

Lemma take_spec s : exists ok, take_nonblocking e s =
    (ok, set_sem (sem_held s || ok) (S (sem_takes s)) s) /\
  (sem_held s = true -> ok = false).
Proof.
  unfold take_nonblocking. eexists. split; [done|]. by intros ->.
Qed.

Lemma take_inv s fl L ok s' : take_nonblocking e s = (ok, s') -> holds s fl L ->
  holds s' fl L /\ sem_held s' = sem_held s || ok /\
  _writing_startup_messages s' = _writing_startup_messages s /\
  (sem_held s = true -> ok = false) /\ blk s' = blk s.
Proof.
  destruct (take_spec s) as (ok' & -> & Hh). intros [= <- <-] H.
  split; [by eapply holds_same|done].
Qed.

Lemma give_holds s fl L : holds s fl L -> holds (give s) fl L.
Proof. intros H. by eapply holds_same. Qed.

(** ** Sending *)

Lemma send_log_block_spec s fl L x i : holds s fl L -> i ∈ L x ->
  exists ok s', send_log_block e i s = Some (ok, s') /\ holds s' fl L /\
    ctl s' = ctl s /\ kept (blk s) (blk s') /\
    (forall q, get_queue q (blk s') = get_queue q (blk s)) /\
    (forall p l, chain (_blocks (blk s)) p l -> chain (_blocks (blk s')) p l) /\
    (ok = true -> exists q d, info (_blocks (blk s)) !! i = Some (q, d) /\ on_wire (wire s') q) /\
    stream s' = stream s /\ acks s' = acks s.
Proof.
  intros H Hi. unfold send_log_block.
  assert (Hno : exists ok s', Some (false, s) = Some (ok, s') /\ holds s' fl L /\
    ctl s' = ctl s /\ kept (blk s) (blk s') /\
    (forall q, get_queue q (blk s') = get_queue q (blk s)) /\
    (forall p l, chain (_blocks (blk s)) p l -> chain (_blocks (blk s')) p l) /\
    (ok = true -> exists q d, info (_blocks (blk s)) !! i = Some (q, d) /\ on_wire (wire s') q) /\
    stream s' = stream s /\ acks s' = acks s).
  { do 2 eexists. split; [done|]. split; [done|]. split; [done|]. by split; [apply kept_refl|]. }
  destruct (negb (_initialised s)); [done|].
  destruct (negb (tx_room e (length (wire s)))); [done|]. clear Hno.
  destruct (rep_queue_lookup (hd_rep _ _ _ H) x i Hi) as [b Hb]. unfold update.
  rewrite Hb. cbn [mbind option_bind].
  set (b' := set_last_sent (millis e) b).
  pose proof (rep_touch (hd_rep _ _ _ H) i b b' Hb eq_refl
    (rp_data _ _ _ _ (hd_rep _ _ _ H) _ _ Hb)) as R'.
  pose proof (rep_touch_kept (blk s) i b b' Hb eq_refl eq_refl) as K.
  do 2 eexists. split; [done|]. simpl. split; [|split; [done|]; split; [done|]; split; [by intros []|]; split; [|split; [|done]]].
  - constructor; simpl; [done|apply H|apply H|]. intros Hlim.
    pose proof (hd_session _ _ _ H Hlim) as Ss.
    destruct (session_block _ _ _ _ _ x i Ss Hi) as (q & Hq & E).
    rewrite (info_lookup _ _ _ Hb) in E. injection E as Eq Ed.
    apply session_wire; simpl; [|lia|congruence]. by eapply session_kept.
  - intros p l Hc. by eapply chain_insert_next.
  - intros _. eexists _, _. split; [by apply info_lookup|].
    eexists. split; [apply elem_of_app; right; by apply list_elem_of_singleton|done].
Qed.

(** A queue's counter is not part of its list. *)
Lemma count_sent_holds s fl L q : holds s fl L -> holds (set_blk (count_sent q (blk s)) s) fl L.
Proof.
  intros [R C E S].
  assert (K : kept (blk s) (count_sent q (blk s))) by (constructor; by destruct q).
  assert (Hh : _blocks (count_sent q (blk s)) = _blocks (blk s)) by (by destruct q).
  constructor; simpl.
  - destruct R as [Rf Rq Rl Ra Rs Rc Rfc Rd].
    constructor; rewrite ?Hh; try done; try (by destruct q).
    intros q'. destruct (Rq q') as [Hc Hl]. by destruct q, q'.
  - exact C.
  - done.
  - intros Hlim. by eapply session_kept; [|apply S].
Qed.

(** The head of a queue, sent, moves to the end of the sent blocks. *)
Lemma move_to_sent s fl L q i l b : holds s fl L -> q <> QSent -> L q = i :: l ->
  _blocks (blk s) !! i = Some b -> on_wire (wire s) (seqno b) ->
  exists p1 p2, dequeue q (seqno b) (blk s) = Some (Some i, p1) /\
    enqueue QSent i p1 = Some p2 /\
    holds (set_blk p2 s) fl (upd QSent (upd q l L QSent ++ [i]) (upd q l L)) /\
    length (_blocks p2) = length (_blocks (blk s)).
Proof.
  intros H Hq HL Hb Hon. pose proof (hd_rep _ _ _ H) as R.
  destruct (rep_dequeue R q (seqno b))
    as [[_ Hno]|(l1 & i' & l2 & b' & p1 & HL' & Hb' & Hs & Hno & Hd & R1 & K1)].
  { exfalso. apply (Hno i b); [rewrite HL; apply list_elem_of_here|done|done]. }
  assert (l1 = [] /\ i' = i /\ l2 = l) as (-> & -> & ->).
  { destruct l1 as [|j l1]; rewrite HL in HL'; injection HL' as <- E; [done|].
    exfalso. by apply (Hno i b); [apply list_elem_of_here| |]. }
  exists p1. destruct (rep_enqueue p1 fl _ _ QSent i R1) as (p2 & He & R2 & K2 & _).
  exists p2. split; [done|]. split; [done|].
  pose proof (kept_trans _ _ _ K1 K2) as K.
  split; [|by rewrite <- (length_info (_blocks p2)), (kp_info _ _ K), length_info].
  constructor; simpl.
  - rewrite (kp_current _ _ K). done.
  - unfold current_ok. rewrite (kp_current _ _ K), (kp_latest _ _ K), (kp_blocks _ _ K). apply H.
  - apply H.
  - intros Hlim. pose proof (hd_session _ _ _ H Hlim) as Ss. eapply session_kept; [done|].
    destruct q; [done| |].
    + exact (session_sent _ _ _ _ _ i l _ _ Ss HL (info_lookup _ _ _ Hb) Hon).
    + by apply (session_move _ L _ _ _ QRetry QSent [] i l).
Qed.

Lemma send_loop_spec fuel q n s fl L : holds s fl L -> q <> QSent ->
  (length (L q) < fuel)%nat ->
  exists ok s' L', send_loop e fuel q n s = Some (ok, s') /\ holds s' fl L' /\
    ctl s' = ctl s /\ stream s' = stream s /\ acks s' = acks s.
Proof.
  revert n s L. induction fuel as [|fuel IH]; intros n s L H Hq Hf; [lia|].
  cbn [send_loop]. pose proof (rp_queue _ _ _ _ (hd_rep _ _ _ H) q) as [Hc _].
  destruct (L q) as [|i l] eqn:HL.
  { simpl in Hc. rewrite Hc. by exists true, s, L. }
  destruct Hc as (-> & b0 & Hb0 & _).
  destruct (n >? _max_blocks_per_send_blocks); [by exists false, s, L|].
  assert (Hi : i ∈ L q) by (rewrite HL; apply list_elem_of_here).
  destruct (send_log_block_spec s fl L q i H Hi)
    as (ok & s1 & -> & H1 & Hctl & K & _ & _ & Hon & Hst & Hak).
  cbn [mbind option_bind]. destruct ok; [|by exists false, s1, L].
  destruct (Hon eq_refl) as (sq & d & Hinfo & Hw). simpl negb. cbv match beta.
  pose proof (count_sent_holds s1 fl L q H1) as H2.
  set (s2 := set_blk (count_sent q (blk s1)) s1) in *.
  assert (K2 : kept (blk s1) (blk s2)) by (constructor; by destruct q).
  rewrite <- (kp_info _ _ K), <- (kp_info _ _ K2) in Hinfo.
  apply info_lookup_inv in Hinfo as (b & Hb & Hsq & _). rewrite Hb. cbn [mbind option_bind].
  destruct (move_to_sent s2 fl L q i l b H2 Hq HL Hb) as (p1 & p2 & Hd & He & H3 & _);
    [by rewrite Hsq|].
  unfold on_blk. rewrite Hd. cbn [mbind option_bind]. simpl blk. rewrite He.
  cbn [mbind option_bind].
  change (set_blk p2 (set_blk p1 s2)) with (set_blk p2 s2).
  destruct (IH (u8 (n + 1)) (set_blk p2 s2) _ H3 Hq) as (ok & s' & L' & Hr & H' & Hctl' & Hst' & Hak').
  { rewrite upd_ne by done. rewrite upd_eq. simpl in Hf. lia. }
  exists ok, s', L'. split; [done|]. split; [done|].
  split; [by rewrite Hctl'|]. split; [by rewrite Hst'|by rewrite Hak'].
Qed.

Lemma send_queue_spec q s fl L : holds s fl L -> q <> QSent ->
  exists ok s' L', send_log_blocks_from_queue e q s = Some (ok, s') /\ holds s' fl L' /\
    ctl s' = ctl s.
Proof.
  intros H Hq. unfold send_log_blocks_from_queue.
  destruct (send_loop_spec (S (length (_blocks (blk s)))) q 0 s fl L H Hq)
    as (ok & s' & L' & Hr & H' & Hc & _).
  { pose proof (rep_total (hd_rep _ _ _ H)). destruct q; [done|lia|lia]. }
  by exists ok, s', L'.
Qed.

Lemma push_queues_spec s : inv s ->
  exists s', push_queues e s = Some s' /\ inv s' /\
    _writing_startup_messages s' = _writing_startup_messages s /\
    (sem_held s = false -> sem_held s' = false) /\
    (sem_held s = true -> sem_held s' = true).
Proof.
  intros (fl & L & H). unfold push_queues.
  destruct (take_nonblocking e s) as [ok s1] eqn:Et.
  destruct (take_inv s fl L ok s1 Et H) as (H1 & Hh & Hw & Hno & _).
  destruct ok; simpl.
  - destruct (send_queue_spec QRetry s1 fl L H1) as (ok & s2 & L2 & -> & H2 & [= Hc2 Hw2]); [done|].
    cbn [mbind option_bind]. destruct ok; simpl.
    + destruct (send_queue_spec QPending s2 fl L2 H2) as (ok & s3 & L3 & -> & H3 & [= Hc3 Hw3]); [done|].
      cbn [mbind option_bind]. eexists. split; [done|].
      split; [exists fl, L3; by apply give_holds|]. simpl.
      split; [congruence|]. split; [done|]. intros Hs. by specialize (Hno Hs).
    + eexists. split; [done|]. split; [exists fl, L2; by apply give_holds|]. simpl.
      split; [congruence|]. split; [done|]. intros Hs. by specialize (Hno Hs).
  - eexists. split; [done|]. split; [by exists fl, L|]. split; [done|].
    rewrite Hh, orb_false_r. done.
Qed.

(** ** Writing *)

Lemma give_inv s : inv s -> inv (give s).
Proof. intros (fl & L & H). exists fl, L. by apply give_holds. Qed.

Lemma dropped_inv s : inv s -> inv (dropped s).
Proof. intros H. by eapply inv_same. Qed.

(** The invariant, with the semaphore held or not, and the startup messages
    being written or not. *)
Definition inv_ctl (c : bool * bool) (s : t) : Prop := inv s /\ ctl s = c.

Lemma ShouldLog_ctl c crit s : inv_ctl c s -> inv_ctl c (ShouldLog e crit s).2.
Proof.
  intros [Hi Hc]. unfold ShouldLog. repeat case_match; try done.
  simpl. split; [by eapply inv_same|done].
Qed.

(** Writing through the front, over a backend that keeps the invariant. *)
Lemma WritePrioritisedBlock_ctl c (w : list Z -> t -> option (bool * t)) d crit s :
  (forall s, inv_ctl c s -> exists ok s', w d s = Some (ok, s') /\ inv_ctl c s') ->
  inv_ctl c s -> exists ok s', WritePrioritisedBlock e w d crit s = Some (ok, s') /\ inv_ctl c s'.
Proof.
  intros Hw Hs. unfold WritePrioritisedBlock. pose proof (ShouldLog_ctl c crit s Hs) as H.
  destruct (ShouldLog e crit s) as [ok s1]. simpl in H. destruct ok; simpl; [|by do 2 eexists].
  destruct (WritesOK s1); simpl; [by apply Hw|by do 2 eexists].
Qed.

(** The startup messages keep it too. *)
Lemma more_startup_ctl held (w : list Z -> t -> option (bool * t)) s :
  (forall d s, zlen d <= 1600 -> inv_ctl (held, true) s ->
     exists ok s', w d s = Some (ok, s') /\ inv_ctl (held, true) s') ->
  inv s -> sem_held s = held -> _writing_startup_messages s = false ->
  exists s', WriteMoreStartupMessages e w s = Some s' /\ inv s' /\
    sem_held s' = held /\ _writing_startup_messages s' = false.
Proof.
  intros Hw Hi Hh Hwr. unfold WriteMoreStartupMessages. destruct (log_finished s); [by exists s|].
  set (P := fun s : option t => exists s', s = Some s' /\ inv_ctl (held, true) s').
  assert (HP : P (process (H := startup_backend e w) (log_config e) (_startup_messagewriter s)
    (Some (set_writer (_startup_messagewriter s) true s))).2).
  { apply process_keeps.
    - intros i [s0|] (s1 & Hs1 & Hc); [|done]. injection Hs1 as <-. simpl.
      destruct (WritePrioritisedBlock_ctl (held, true) w (pack e i) (critical i) s0)
        as (ok & s' & -> & Hc'); [intros; apply Hw; [apply packets|done]|done|]. by exists s'.
    - simpl. destruct (vehicle_packets e) as [ds|] eqn:Hds; [|done].
      intros s0 Hs0. destruct packets as [_ Hv]. rewrite Hds in Hv. clear Hds.
      revert s0 Hs0. induction Hv as [|d ds Hd _ IH]; intros s0 Hs0; simpl; [done|].
      apply IH. destruct Hs0 as (s1 & -> & Hc). simpl.
      destruct (WritePrioritisedBlock_ctl (held, true) w d false s1)
        as (ok & s' & -> & Hc'); [intros; by apply Hw|done|]. by exists s'.
    - eexists. split; [done|]. split; [by eapply inv_same|]. unfold ctl. simpl. by rewrite Hh. }
  destruct (process _ _ _) as [wr so]. simpl in HP.
  destruct HP as (s' & -> & Hi' & Hc'). simpl.
  injection Hc' as Hh' _. eexists. split; [done|]. split; [by eapply inv_same|done].
Qed.

(** [_WritePrioritisedBlock] while this thread holds the semaphore: refused. *)
Lemma write_held depth d wr s : inv_ctl (true, wr) s ->
  exists ok s', _WritePrioritisedBlock e (S depth) d s = Some (ok, s') /\ inv_ctl (true, wr) s'.
Proof.
  intros [(fl & L & H) Hc]. injection Hc as Hh Hwr. cbn [_WritePrioritisedBlock].
  destruct (take_nonblocking e s) as [ok s1] eqn:Et.
  destruct (take_inv s fl L ok s1 Et H) as (H1 & Hh1 & Hw1 & Hno & _).
  rewrite (Hno Hh). simpl. do 2 eexists. split; [done|].
  split; [eapply dropped_inv; by exists fl, L|]. unfold ctl. simpl. by rewrite Hh1, Hh, Hw1, Hwr.
Qed.

(** What follows the check: the copy of the data. *)
Lemma write_data d s wr : zlen d <= 1600 -> inv s -> _writing_startup_messages s = wr ->
  exists ok s',
    (if bufferspace_available (blk s) <? zlen d
     then Some (false, give (if log_finished s then dropped s else s))
     else '(ok, s) ← copy_loop (S (length d)) d s; Some (ok, give s)) = Some (ok, s') /\
    inv_ctl (false, wr) s'.
Proof.
  intros Hd (fl & L & H) Hwr.
  destruct (Z.ltb_spec (bufferspace_available (blk s)) (zlen d)).
  - do 2 eexists. split; [done|]. split; [|by destruct (log_finished s); unfold ctl; simpl; rewrite Hwr].
    apply give_inv. destruct (log_finished s); [apply dropped_inv|]; by exists fl, L.
  - assert (Hroom : zlen d <= room (blk s) fl).
    { pose proof (rp_count _ _ _ _ (hd_rep _ _ _ H)).
      destruct (bufferspace_eq s fl L H) as [E|[E1 E2]]; lia. }
    destruct (copy_loop_spec (S (length d)) d s fl L H Hroom) as (s' & -> & Hi & Hc & _); [lia|].
    cbn [mbind option_bind]. do 2 eexists. split; [done|]. split; [by apply give_inv|].
    injection Hc as _ Hc. unfold ctl. simpl. by rewrite Hc, Hwr.
Qed.

(** While the startup messages are written, by them. *)
Lemma write_startup depth d s : zlen d <= 1600 -> inv_ctl (false, true) s ->
  exists ok s', _WritePrioritisedBlock e (S depth) d s = Some (ok, s') /\ inv_ctl (false, true) s'.
Proof.
  intros Hd [(fl & L & H) Hc]. injection Hc as Hh Hwr. cbn [_WritePrioritisedBlock].
  destruct (take_nonblocking e s) as [ok s1] eqn:Et.
  destruct (take_inv s fl L ok s1 Et H) as (H1 & Hh1 & Hw1 & _ & _).
  rewrite Hh in Hh1. simpl in Hh1. destruct ok; simpl.
  - unfold WriteBlockCheckStartupMessages. rewrite Hw1, Hwr.
    assert ((if _fmt_done (_startup_messagewriter s1) then Some (true, s1) else Some (true, s1)) =
            Some (true, s1)) as -> by by case_match.
    cbn [mbind option_bind]. simpl negb. cbv match.
    apply write_data; [done|by exists fl, L|congruence].
  - do 2 eexists. split; [done|]. split; [eapply dropped_inv; by exists fl, L|].
    unfold ctl. simpl. by rewrite Hh1, Hw1, Hwr.
Qed.

Lemma push_log_blocks_spec held w s :
  (forall d s, zlen d <= 1600 -> inv_ctl (held, true) s ->
     exists ok s', w d s = Some (ok, s') /\ inv_ctl (held, true) s') ->
  inv_ctl (held, false) s ->
  exists s', push_log_blocks e w s = Some s' /\ inv_ctl (held, false) s'.
Proof.
  intros Hw [Hi Hc]. injection Hc as Hh Hwr. unfold push_log_blocks.
  destruct (_ || _); [exists s; split; [done|]; split; [done|]; unfold ctl; by rewrite Hh, Hwr|].
  destruct (more_startup_ctl held w s Hw Hi Hh Hwr) as (s1 & -> & Hi1 & Hh1 & Hw1).
  cbn [mbind option_bind].
  destruct (push_queues_spec s1 Hi1) as (s2 & -> & Hi2 & Hw2 & Hf & Ht).
  exists s2. split; [done|]. split; [done|]. unfold ctl. rewrite Hw2, Hw1.
  f_equal. destruct held; auto.
Qed.

(** The two levels of [backend_write] are enough. *)
Lemma backend_write_spec d s : zlen d <= 1600 -> inv_ctl (false, false) s ->
  exists ok s', backend_write e d s = Some (ok, s') /\ inv_ctl (false, false) s'.
Proof.
  intros Hd [(fl & L & H) Hc]. injection Hc as Hh Hwr. unfold backend_write.
  remember 1%nat as one eqn:Eone. cbn [_WritePrioritisedBlock].
  destruct (take_nonblocking e s) as [ok s1] eqn:Et.
  destruct (take_inv s fl L ok s1 Et H) as (H1 & Hh1 & Hw1 & _ & _).
  rewrite Hh in Hh1. simpl in Hh1. assert (Hi1 : inv s1) by (by exists fl, L).
  destruct ok; simpl.
  - unfold WriteBlockCheckStartupMessages. rewrite Hw1, Hwr.
    destruct (_fmt_done _); [|destruct (_ && _)]; cbn [mbind option_bind].
    + apply write_data; [done|done|congruence].
    + do 2 eexists. split; [done|]. split; [by apply give_inv|]. unfold ctl. simpl. congruence.
    + destruct (push_log_blocks_spec true (_WritePrioritisedBlock e one) s1)
        as (s2 & -> & Hi2 & Hc2).
      * intros d0 s0 _ Hs0. subst one. by apply write_held.
      * split; [done|]. unfold ctl. by rewrite Hh1, Hw1, Hwr.
      * cbn [mbind option_bind]. do 2 eexists. split; [done|].
        split; [by apply give_inv|]. injection Hc2 as _ Hc2. unfold ctl. simpl. by rewrite Hc2.
  - do 2 eexists. split; [done|]. split; [by apply dropped_inv|].
    unfold ctl. simpl. by rewrite Hh1, Hw1, Hwr.
Qed.

(** ** The client *)

(** A change of pool by moves of blocks that keeps the session. *)
Lemma holds_pool s p fl L fl' L' : holds s fl L -> kept (blk s) p ->
  rep p fl' L' (option_list (_current_block (blk s))) -> (zlen fl <= zlen fl') ->
  (zlen (stream s) < log_limit -> session (blk s) L' (stream s) (wire s) (acks s)) ->
  holds (set_blk p s) fl' L'.
Proof.
  intros H K R Hfl Hs. constructor; simpl.
  - by rewrite (kp_current _ _ K).
  - pose proof (hd_current _ _ _ H) as C. unfold current_ok in *.
    rewrite (kp_current _ _ K), (kp_latest _ _ K), (kp_blocks _ _ K).
    destruct (_current_block (blk s)); [done|]. destruct C as [?|[? E]]; [by left|right].
    split; [done|]. pose proof (rep_total R) as Ht. pose proof (rp_size _ _ _ _ R) as Hsz.
    rewrite (kp_blocks _ _ K) in Hsz. lia.
  - apply H.
  - intros Hlim. eapply session_kept; [done|auto].
Qed.

Lemma ack_queue_spec s fl L x n : holds s fl L -> x <> QPending -> n ∈ acks s ->
  exists ok s' fl' L', on_blk (free_seqno_from_queue n x) s = Some (ok, s') /\
    holds s' fl' L' /\ ctl s' = ctl s /\ acks s' = acks s.
Proof.
  intros H Hx Hn. unfold on_blk.
  destruct (rep_free_seqno _ _ _ _ x n (hd_rep _ _ _ H))
    as [[-> _]|(l1 & i & l2 & b & p' & HL & Hb & Hs & -> & R & K)]; cbn [mbind option_bind].
  - exists false, (set_blk (blk s) s), fl, L. split; [done|]. split; [by eapply holds_same|done].
  - do 4 eexists. split; [done|]. split; [|done].
    eapply holds_pool; [done|done|done|simpl; lia|].
    intros Hlim. eapply session_free; [by apply H|done|done|by apply info_lookup|]. congruence.
Qed.

Lemma handle_retry_spec n s : inv s ->
  exists s', handle_retry e n s = Some s' /\ inv s' /\ ctl s' = ctl s.
Proof.
  intros (fl & L & H). unfold handle_retry. destruct (_ || _); [by exists s; split; [|split; [exists fl, L|]]|].
  unfold on_blk.
  destruct (rep_dequeue (hd_rep _ _ _ H) QSent n)
    as [[-> _]|(l1 & i & l2 & b & p1 & HL & Hb & Hs & Hno & -> & R1 & K1)];
    cbn [mbind option_bind].
  - eexists. split; [done|]. split; [|done]. exists fl, L. by eapply holds_same.
  - destruct (rep_enqueue p1 fl _ _ QRetry i R1) as (p2 & He & R2 & K2 & _).
    simpl blk. rewrite He. cbn [mbind option_bind]. eexists. split; [done|]. split; [|done].
    exists fl, (upd QRetry (upd QSent (l1 ++ l2) L QRetry ++ [i]) (upd QSent (l1 ++ l2) L)).
    eapply (holds_same (set_blk p2 s)); try done.
    eapply holds_pool; [done|by eapply kept_trans|exact R2|done|].
    intros Hlim. apply (session_move _ L _ _ _ QSent QRetry); [by apply H|done..].
Qed.

Lemma start_session_spec chan sysid compid s : inv s ->
  exists s', start_session e chan sysid compid s = Some s' /\ inv s' /\ ctl s' = ctl s.
Proof.
  intros (fl & L & H). pose proof (hd_rep _ _ _ H) as R.
  destruct (rep_free_all (blk s)) as (p & Hp & R' & Hc & Hl & Hb); [apply R..|].
  unfold start_session. rewrite Hp. cbn [mbind option_bind]. eexists. split; [done|].
  split; [|done]. exists (rev (seq 0 (length (_blocks (blk s))))), no_queues.
  constructor; simpl; rewrite ?Hc.
  - destruct R' as [Rf Rq Rl Ra Rs Rcn Rfc Rd]. by constructor.
  - unfold current_ok. simpl. rewrite Hc, Hl. right. split; [done|].
    rewrite Hb, length_rev, length_seq. apply R.
  - done.
  - intros _. by apply session_start.
Qed.

Lemma handle_ack_spec chan sysid compid n s : inv s ->
  exists s', handle_ack STOP START e chan sysid compid n s = Some s' /\ inv s' /\ ctl s' = ctl s.
Proof.
  intros Hi. unfold handle_ack. destruct (negb (_initialised s)); [by exists s|].
  destruct (n =? STOP).
  { eexists. split; [done|]. unfold stop_logging. destruct (_sending_to_client _); [|done].
    split; [by eapply inv_same|done]. }
  destruct (n =? START).
  { destruct (negb _); [by apply start_session_spec|by exists s]. }
  destruct Hi as (fl & L & H).
  set (s1 := set_seen (stream s) (wire s) (acks s ++ [n]) s).
  assert (H1 : holds s1 fl L).
  { constructor; try apply H. intros Hlim. apply session_acks. by apply H. }
  assert (Hn : n ∈ acks s1) by (simpl; set_solver).
  destruct (ack_queue_spec s1 fl L QSent n H1) as (ok & s2 & fl2 & L2 & -> & H2 & Hc2 & Ha2); [done..|].
  cbn [mbind option_bind]. destruct ok.
  { eexists. split; [done|]. split; [exists fl2, L2; by eapply holds_same|exact Hc2]. }
  destruct (ack_queue_spec s2 fl2 L2 QRetry n H2) as (ok & s3 & fl3 & L3 & -> & H3 & Hc3 & Ha3);
    [done|by rewrite Ha2|].
  cbn [mbind option_bind]. assert (Hc : ctl s3 = ctl s) by (by rewrite Hc3, Hc2).
  destruct ok; eexists; (split; [done|]); (split; [exists fl3, L3; by eapply holds_same|done]).
Qed.

Lemma status_msg_spec chan sysid compid n status s : inv_ctl (false, false) s ->
  exists s', remote_log_block_status_msg STOP START e chan sysid compid n status s = Some s' /\
    inv_ctl (false, false) s'.
Proof.
  intros [(fl & L & H) Hc]. injection Hc as Hh Hwr. unfold remote_log_block_status_msg.
  destruct (take_nonblocking e s) as [ok s1] eqn:Et.
  destruct (take_inv s fl L ok s1 Et H) as (H1 & Hh1 & Hw1 & _ & _).
  rewrite Hh in Hh1. simpl in Hh1. assert (Hi1 : inv s1) by (by exists fl, L).
  destruct ok; simpl.
  - assert (Hr : exists s2, (if status =? 0 then handle_retry e n s1
        else handle_ack STOP START e chan sysid compid n s1) = Some s2 /\ inv s2 /\ ctl s2 = ctl s1).
    { destruct (status =? 0); [by apply handle_retry_spec|by apply handle_ack_spec]. }
    destruct Hr as (s2 & -> & Hi2 & [= _ Hw2]). cbn [mbind option_bind].
    eexists. split; [done|]. split; [by apply give_inv|]. unfold ctl. simpl. congruence.
  - eexists. split; [done|]. split; [done|]. unfold ctl. congruence.
Qed.

(** ** Periodic work *)

Lemma resend_walk_spec fuel before p l s fl L : holds s fl L ->
  chain (_blocks (blk s)) p l -> (length l < fuel)%nat -> (forall i, i ∈ l -> i ∈ L QSent) ->
  exists ok s', resend_walk e fuel before p s = Some (ok, s') /\ holds s' fl L /\
    ctl s' = ctl s.
Proof.
  revert p l s. induction fuel as [|fuel IH]; intros p l s H Hc Hf Hl; [lia|].
  cbn [resend_walk]. destruct l as [|i l].
  { simpl in Hc. subst p. by exists true, s. }
  destruct Hc as (-> & b & Hb & Hc). rewrite Hb. cbn [mbind option_bind].
  assert (Hi : i ∈ L QSent) by (apply Hl, list_elem_of_here).
  assert (Hl' : forall j, j ∈ l -> j ∈ L QSent) by (intros; by apply Hl, list_elem_of_further).
  simpl in Hf. destruct (last_sent b <? before); [|apply (IH _ l); done || lia].
  destruct (send_log_block_spec s fl L QSent i H Hi)
    as (ok & s1 & -> & H1 & Hctl & _ & _ & Hch & _).
  cbn [mbind option_bind]. destruct ok; simpl; [|by do 2 eexists].
  pose proof (Hch (Some i) (i :: l)) as Hc1. simpl in Hc1.
  destruct Hc1 as (_ & b1 & Hb1 & Hc1); [split; [done|by exists b]|].
  rewrite Hb1. cbn [mbind option_bind].
  destruct (IH (next b1) l (set_sts (count_resend (sts s1)) s1)) as (ok & s' & Hr & H' & Hctl');
    [by eapply holds_same|done|lia|done|].
  exists ok, s'. split; [done|]. split; [done|]. by rewrite Hctl', <- Hctl.
Qed.

Lemma resend_passes_spec n before s : inv_ctl (false, false) s ->
  exists s', resend_passes e n before s = Some s' /\ inv_ctl (false, false) s'.
Proof.
  revert s. induction n as [|n IH]; intros s [(fl & L & H) Hc]; cbn [resend_passes].
  { exists s. split; [done|]. split; [by exists fl, L|done]. }
  injection Hc as Hh Hwr. destruct (take_nonblocking e s) as [ok s1] eqn:Et.
  destruct (take_inv s fl L ok s1 Et H) as (H1 & Hh1 & Hw1 & _ & _).
  rewrite Hh in Hh1. simpl in Hh1. destruct ok; cbn [negb].
  - pose proof (rp_queue _ _ _ _ (hd_rep _ _ _ H1) QSent) as [Hch _].
    pose proof (rep_total (hd_rep _ _ _ H1)) as Ht.
    destruct (resend_walk_spec (S (length (_blocks (blk s1)))) before _ _ s1 fl L H1 Hch)
      as (ok & s2 & Hr & H2 & [= _ Hc2]); [lia|done|].
    cbn [get_queue] in Hr. rewrite Hr. cbn [mbind option_bind].
    assert (Hs2 : inv_ctl (false, false) (give s2)).
    { split; [apply give_inv; by exists fl, L|]. unfold ctl. simpl. congruence. }
    destruct ok; cbn [negb]; [by apply IH|by eexists].
  - eexists. split; [done|]. split; [by exists fl, L|]. unfold ctl. congruence.
Qed.

Lemma do_resends_spec now s : inv_ctl (false, false) s ->
  exists s', do_resends e now s = Some s' /\ inv_ctl (false, false) s'.
Proof.
  intros Hs. unfold do_resends. destruct (_ || _); [by exists s|]. by apply resend_passes_spec.
Qed.

Lemma queue_size_spec p fl L xs : rep p fl L xs -> forall q,
  queue_size (_blocks p) (get_queue q p) = Some (zlen (L q)).
Proof.
  intros R q. pose proof (rep_total R). pose proof (rp_size _ _ _ _ R).
  pose proof (rp_count _ _ _ _ R). unfold queue_size.
  apply (stack_size_spec _ (L q)); [apply R|destruct q; lia..].
Qed.

Lemma stats_collect_spec s : inv_ctl (false, false) s ->
  exists s', stats_collect e s = Some s' /\ inv_ctl (false, false) s'.
Proof.
  intros [(fl & L & H) Hc]. unfold stats_collect.
  destruct (_ || _); [exists s; split; [done|]; split; [by exists fl, L|done]|].
  injection Hc as Hh Hwr. destruct (take_nonblocking e s) as [ok s1] eqn:Et.
  destruct (take_inv s fl L ok s1 Et H) as (H1 & Hh1 & Hw1 & _ & _).
  rewrite Hh in Hh1. simpl in Hh1. destruct ok; cbn [negb].
  2:{ eexists. split; [done|]. split; [by exists fl, L|]. unfold ctl. congruence. }
  pose proof (hd_rep _ _ _ H1) as R. pose proof (rep_total R) as Ht.
  pose proof (rp_size _ _ _ _ R). pose proof (rp_count _ _ _ _ R).
  rewrite (queue_size_spec _ _ _ _ R QPending : queue_size _ (_blocks_pending _) = _).
  cbn [mbind option_bind].
  rewrite (queue_size_spec _ _ _ _ R QSent : queue_size _ (_blocks_sent _) = _).
  cbn [mbind option_bind].
  rewrite (queue_size_spec _ _ _ _ R QRetry : queue_size _ (_blocks_retry _) = _).
  cbn [mbind option_bind].
  rewrite (stack_size_spec _ fl); [|apply R|lia..].
  cbn [mbind option_bind]. rewrite (rp_free_count _ _ _ _ R), Z.add_0_l, Z.eqb_refl. simpl.
  eexists. split; [done|]. split; [exists fl, L; by eapply holds_same|].
  unfold ctl. simpl. congruence.
Qed.
End ops.
