(* ===== verification/RemoteLogProperties.v ===== *)
(** What the log that a client receives over MAVLink contains, and when it
    receives it. *)
From S2P Require Import Prelude LogWriter LogWriterSpec RemoteLog RemoteLogSpec.
From S2P Require Import RemoteLogSession RemoteLogOps.
Import RemoteLog.

(** * Runs *)

(** The calls that the rest of the system makes: a message to log, a status
    message of the client, and the periodic task. *)
Inductive op :=
| OWrite (d : list Z) (is_critical : bool)
| OStatus (chan sysid compid n status : Z)
| OPeriodic.

Section runs.
Variables STOP START : Z.

Definition exec (e : env) (o : op) (s : t) : option t :=
  match o with
  | OWrite d crit =>
    '(_, s) ← WritePrioritisedBlock e (backend_write e) d crit s; Some s
  | OStatus chan sysid compid n status =>
    remote_log_block_status_msg STOP START e chan sysid compid n status s
  | OPeriodic => periodic_tasks e s
  end.

Fixpoint run (ops : list (env * op)) (s : t) : option t :=
  match ops with
  | [] => Some s
  | (e, o) :: ops => s ← exec e o s; run ops s
  end.

Definition call_ok (c : env * op) : Prop :=
  env_ok c.1 /\ match c.2 with OWrite d _ => zlen d <= 1600 | _ => True end.

Lemma log_block_spec e d crit s : env_ok e -> zlen d <= 1600 -> inv_ctl (false, false) s ->
  exists ok s', WritePrioritisedBlock e (backend_write e) d crit s = Some (ok, s') /\
    inv_ctl (false, false) s'.
Proof.
  intros He Hd Hs. apply WritePrioritisedBlock_ctl; [|done].
  intros s0 Hs0. by apply backend_write_spec.
Qed.

Lemma pack_stats_length e s : zlen (pack_stats e s) = 33.
Proof. unfold pack_stats. rewrite !length_app, !le_bytes_length. done. Qed.

Lemma periodic_1Hz_spec e s : env_ok e -> inv_ctl (false, false) s ->
  exists s', periodic_1Hz e s = Some s' /\ inv_ctl (false, false) s'.
Proof.
  intros He [Hi Hc]. unfold periodic_1Hz. destruct (_ && _).
  { eexists. split; [done|]. split; [by eapply inv_same|done]. }
  unfold stats_log. destruct (_ || _); [by exists s|]. destruct (_ =? _); [by exists s|].
  destruct (log_block_spec e (pack_stats e s) false s He) as (ok & s1 & Hw & Hi1 & Hc1);
    [rewrite pack_stats_length; lia|done|].
  unfold WriteBlock. rewrite Hw. cbn [mbind option_bind]. eexists. split; [done|].
  split; [by eapply inv_same|done].
Qed.

Lemma periodic_fullrate_spec e s : env_ok e -> inv_ctl (false, false) s ->
  exists s', periodic_fullrate e s = Some s' /\ inv_ctl (false, false) s'.
Proof.
  intros He Hs. unfold periodic_fullrate. apply (push_log_blocks_spec e He); [|done].
  intros d s0 Hd Hs0. by apply write_startup.
Qed.

Lemma periodic_spec e s : env_ok e -> inv_ctl (false, false) s ->
  exists s', periodic_tasks e s = Some s' /\ inv_ctl (false, false) s'.
Proof.
  intros He Hs. unfold periodic_tasks. cbv zeta.
  assert (H1 : exists s1, (if u32 (millis e - _last_periodic_1Hz s) >? 1000 then
       s ← periodic_1Hz e s; Some (set_periodic (millis e) (_last_periodic_10Hz s) s)
     else Some s) = Some s1 /\ inv_ctl (false, false) s1).
  { destruct (_ >? _); [|by exists s].
    destruct (periodic_1Hz_spec e s He Hs) as (s1 & -> & Hi & Hc). cbn [mbind option_bind].
    eexists. split; [done|]. split; [by eapply inv_same|done]. }
  destruct H1 as (s1 & -> & Hs1). cbn [mbind option_bind].
  assert (H2 : exists s2, (if u32 (millis e - _last_periodic_10Hz s1) >? 100 then
       s ← periodic_10Hz e (millis e) s1; Some (set_periodic (_last_periodic_1Hz s) (millis e) s)
     else Some s1) = Some s2 /\ inv_ctl (false, false) s2).
  { destruct (_ >? _); [|by exists s1]. unfold periodic_10Hz.
    destruct (do_resends_spec e (millis e) s1 Hs1) as (s2 & -> & Hs2). cbn [mbind option_bind].
    destruct (stats_collect_spec e s2 Hs2) as (s3 & -> & Hi & Hc). cbn [mbind option_bind].
    eexists. split; [done|]. split; [by eapply inv_same|done]. }
  destruct H2 as (s2 & -> & Hs2). cbn [mbind option_bind]. by apply periodic_fullrate_spec.
Qed.

Lemma run_spec ops s : Forall call_ok ops -> inv_ctl (false, false) s ->
  exists s', run ops s = Some s' /\ inv_ctl (false, false) s'.
Proof.
  intros Hok. revert s. induction Hok as [|[e o] ops [He Ho] _ IH]; intros s Hs; simpl.
  { by exists s. }
  assert (Hx : exists s1, exec e o s = Some s1 /\ inv_ctl (false, false) s1).
  { destruct o as [d crit|chan sysid compid n status|]; simpl.
    - destruct (log_block_spec e d crit s He Ho Hs) as (ok & s1 & -> & Hs1). by exists s1.
    - by apply status_msg_spec.
    - by apply periodic_spec. }
  destruct Hx as (s1 & -> & Hs1). cbn [mbind option_bind]. by apply IH.
Qed.

(** ** Initialisation *)

Lemma alloc_blocks_spec alloc : exists n ok, alloc_blocks 4 alloc 32 = Some (n, ok) /\
  (ok = true -> n = 8 \/ n = 16 \/ n = 32).
Proof.
  cbn [alloc_blocks Z.leb Z.compare Pos.compare Pos.compare_cont].
  destruct (alloc 32); [do 2 eexists; split; [done|]; auto|].
  change (32 / 2) with 16. cbn [Z.leb Z.compare Pos.compare Pos.compare_cont].
  destruct (alloc 16); [do 2 eexists; split; [done|]; auto|].
  change (16 / 2) with 8. cbn [Z.leb Z.compare Pos.compare Pos.compare_cont].
  destruct (alloc 8); [do 2 eexists; split; [done|]; auto|].
  change (8 / 2) with 4. cbn [Z.leb Z.compare Pos.compare Pos.compare_cont].
  by do 2 eexists.
Qed.

Lemma Init_spec alloc w : exists s, Init alloc (constructed w) = Some s /\
  (_initialised s = true -> inv_ctl (false, false) s).
Proof.
  unfold Init. change (_blockcount (blk (constructed w))) with 32.
  destruct (alloc_blocks_spec alloc) as (n & ok & -> & Hn). cbn [mbind option_bind].
  destruct ok; simpl negb; cbv match; [|by eexists].
  specialize (Hn eq_refl). set (p0 := mk_pool _ _ _ _ _ _ _ _ _ _).
  destruct (rep_free_all p0) as (p & Hp & R & Hc & Hl & Hb).
  - simpl. rewrite length_replicate. lia.
  - simpl. lia.
  - intros i b. simpl. intros [-> _]%lookup_replicate. done.
  - rewrite Hp. cbn [mbind option_bind]. eexists. split; [done|]. intros _.
    split; [|done]. exists (rev (seq 0 (length (_blocks p0)))), no_queues.
    constructor; simpl; rewrite ?Hc; [done| |done|].
    + unfold current_ok. rewrite Hc, Hl. right. split; [done|].
      rewrite Hb, length_rev, length_seq. simpl. rewrite length_replicate. lia.
    + intros _. apply session_start; try done. 
      unfold free_all_blocks in Hp. destruct (push_all_free _ _ _ _) as [[h f]|]; [|done].
      injection Hp as <-. done.
Qed.

End runs.

(** * Delivery *)

Section delivery.
Context (e : env).
Hypothesis link_free : forall n, tx_room e n = true.
Hypothesis semaphore_free : forall n, sem_free e n = true.

(** What pushing does not change. *)
Record pushed (s s' : t) : Prop := {
  pu_init : _initialised s' = _initialised s;
  pu_started : _logging_started s' = _logging_started s;
  pu_sending : _sending_to_client (lnk s') = _sending_to_client (lnk s);
  pu_writer : _startup_messagewriter s' = _startup_messagewriter s;
  pu_sem : sem_held s' = sem_held s;
  pu_stream : stream s' = stream s
}.

Lemma pushed_trans s1 s2 s3 : pushed s1 s2 -> pushed s2 s3 -> pushed s1 s3.
Proof. intros [] []. constructor; congruence. Qed.

Lemma send_log_block_room s i ok s' : _initialised s = true ->
  send_log_block e i s = Some (ok, s') ->
  ok = true /\ pushed s s' /\ length (wire s') = S (length (wire s)).
Proof.
  intros Hi. unfold send_log_block. rewrite Hi, link_free. simpl. unfold update.
  destruct (_ !! i) as [b|]; [|done]. simpl. intros [= <- <-]. split; [done|].
  split; [by constructor|]. simpl. rewrite length_app. simpl. lia.
Qed.

(** With room on the link, the loop sends what is left of its nine blocks. *)
Lemma send_loop_room fuel q n s fl L : holds s fl L -> q <> QSent ->
  _initialised s = true -> 0 <= n <= 9 -> (length (L q) < fuel)%nat ->
  exists s' L', send_loop e fuel q n s = Some (bool_decide (zlen (L q) <= 9 - n), s') /\
    holds s' fl L' /\ L' q = drop (Z.to_nat (9 - n)) (L q) /\
    (forall x, x <> q -> x <> QSent -> L' x = L x) /\ pushed s s' /\
    zlen (wire s') = zlen (wire s) + Z.min (9 - n) (zlen (L q)).
Proof.
  revert n s L. induction fuel as [|fuel IH]; intros n s L H Hq Hini Hn Hf; [lia|].
  cbn [send_loop]. pose proof (rp_queue _ _ _ _ (hd_rep _ _ _ H) q) as [Hc _].
  destruct (L q) as [|i l] eqn:HL.
  { simpl in Hc. rewrite Hc. exists s, L. rewrite bool_decide_eq_true_2 by (simpl; lia).
    split; [done|]. split; [done|]. split; [by rewrite HL, drop_nil|]. split; [done|].
    split; [by constructor|simpl; lia]. }
  destruct Hc as (-> & b0 & Hb0 & _). unfold _max_blocks_per_send_blocks.
  destruct (Z.gtb_spec n 8) as [Hgt|Hle].
  { exists s, L. assert (n = 9) as -> by lia. rewrite bool_decide_eq_false_2 by (simpl; lia).
    split; [done|]. split; [done|]. split; [by rewrite HL|]. split; [done|].
    split; [by constructor|simpl; lia]. }
  assert (Hi : i ∈ L q) by (rewrite HL; apply list_elem_of_here).
  destruct (send_log_block_spec e s fl L q i H Hi)
    as (ok & s1 & Hsend & H1 & _ & K & _ & _ & Hon & _ & _).
  destruct (send_log_block_room s i ok s1 Hini Hsend) as (-> & Hpu & Hlen).
  rewrite Hsend. cbn [mbind option_bind].
  destruct (Hon eq_refl) as (sq & d & Hinfo & Hw). simpl negb. cbv match beta.
  pose proof (count_sent_holds s1 fl L q H1) as H2.
  set (s2 := set_blk (count_sent q (blk s1)) s1) in *.
  assert (K2 : kept (blk s1) (blk s2)) by (constructor; by destruct q).
  rewrite <- (kp_info _ _ K), <- (kp_info _ _ K2) in Hinfo.
  apply info_lookup_inv in Hinfo as (b & Hb & Hsq & _). rewrite Hb. cbn [mbind option_bind].
  destruct (move_to_sent s2 fl L q i l b H2 Hq HL Hb) as (p1 & p2 & Hd & He & H3 & _);
    [by rewrite Hsq|].
  unfold on_blk. rewrite Hd. cbn [mbind option_bind]. simpl blk. rewrite He.
  cbn [mbind option_bind].
  change (set_blk p2 (set_blk p1 s2)) with (set_blk p2 s2).
  rewrite u8_small by lia.
  assert (HL3 : upd QSent (upd q l L QSent ++ [i]) (upd q l L) q = l)
    by (rewrite upd_ne by done; apply upd_eq).
  destruct (IH (n + 1) (set_blk p2 s2) _ H3 Hq) as (s' & L' & Hr & H' & HLq & Hoth & Hpu' & Hlen').
  { apply Hpu in Hini || (by rewrite <- Hini; apply Hpu). }
  { lia. }
  { rewrite HL3. simpl in Hf. lia. }
  rewrite HL3 in *. rewrite Hr. do 2 eexists. split; [|split; [done|]].
  - do 2 f_equal. apply bool_decide_ext. simpl. lia.
  - split; [|split; [|split]].
    + rewrite HLq. replace (Z.to_nat (9 - n)) with (S (Z.to_nat (9 - (n + 1)))) by lia. done.
    + intros x Hx Hxs. rewrite Hoth by done. by rewrite !upd_ne by congruence.
    + eapply pushed_trans; [exact Hpu|]. eapply pushed_trans; [|exact Hpu']. by constructor.
    + rewrite Hlen'. simpl. lia.
Qed.

Definition ready (s : t) : Prop :=
  _initialised s = true /\ _logging_started s = true /\
  _sending_to_client (lnk s) = true /\ log_finished s = true /\ sem_held s = false.

Lemma ready_pushed s s' : pushed s s' -> ready s -> ready s'.
Proof.
  intros [] (? & ? & ? & ? & ?). unfold ready, log_finished in *. intuition congruence.
Qed.

Lemma push_log_blocks_room w s fl L : holds s fl L -> ready s ->
  exists s' L', push_log_blocks e w s = Some s' /\ holds s' fl L' /\ pushed s s' /\
    L' QRetry = drop 9 (L QRetry) /\
    L' QPending = (if zlen (L QRetry) <=? 9 then drop 9 (L QPending) else L QPending) /\
    zlen (wire s') = zlen (wire s) + Z.min 9 (zlen (L QRetry)) +
      (if zlen (L QRetry) <=? 9 then Z.min 9 (zlen (L QPending)) else 0).
Proof.
  intros H (Hini & Hst & Hse & Hfin & Hsem). unfold push_log_blocks, WriteMoreStartupMessages.
  rewrite Hini, Hst, Hse, Hfin. simpl negb. cbn [orb mbind option_bind].
  unfold push_queues, take_nonblocking. rewrite Hsem, semaphore_free. simpl negb. cbv match.
  set (s1 := set_sem _ _ s). assert (H1 : holds s1 fl L) by (by eapply holds_same).
  pose proof (rep_total (hd_rep _ _ _ H1)) as Ht. unfold send_log_blocks_from_queue.
  destruct (send_loop_room (S (length (_blocks (blk s1)))) QRetry 0 s1 fl L H1)
    as (s2 & L2 & Hr & H2 & HLr & Hoth & Hpu & Hlen); [done|done|lia|lia|].
  rewrite Hr. cbn [mbind option_bind].
  assert (Hgive : forall s', pushed s1 s' -> pushed s (give s')).
  { intros s' []. constructor; simpl; done. }
  destruct (Z.leb_spec (zlen (L QRetry)) 9) as [Hle|Hgt].
  - rewrite bool_decide_eq_true_2 by lia. simpl negb. cbv match.
    pose proof (rep_total (hd_rep _ _ _ H2)) as Ht2.
    destruct (send_loop_room (S (length (_blocks (blk s2)))) QPending 0 s2 fl L2 H2)
      as (s3 & L3 & -> & H3 & HLp & Hoth3 & Hpu3 & Hlen3);
      [done|rewrite (pu_init _ _ Hpu); done|lia|lia|].
    cbn [mbind option_bind]. exists (give s3), L3. split; [done|].
    split; [by apply give_holds|]. split; [apply Hgive; by eapply pushed_trans|].
    rewrite (Hoth QPending) in * by done.
    split; [by rewrite Hoth3, HLr|]. split; [done|]. simpl. rewrite Hlen3, Hlen. simpl. lia.
  - rewrite bool_decide_eq_false_2 by lia. simpl negb. cbv match.
    exists (give s2), L2. split; [done|]. split; [by apply give_holds|].
    split; [by apply Hgive|]. split; [done|]. split; [by apply Hoth|].
    simpl. rewrite Hlen. simpl. lia.
Qed.

Fixpoint push_times (n : nat) (w : list Z -> t -> option (bool * t)) (s : t) : option t :=
  match n with
  | O => Some s
  | S n => s ← push_log_blocks e w s; push_times n w s
  end.

(** Each call takes nine blocks at least off the two queues. *)
Lemma push_times_room n w s fl L : holds s fl L -> ready s ->
  exists s' L', push_times n w s = Some s' /\ holds s' fl L' /\ pushed s s' /\
    (zlen (L' QRetry) + zlen (L' QPending) <=
     Z.max 0 (zlen (L QRetry) + zlen (L QPending) - 9 * Z.of_nat n)).
Proof.
  revert s L. induction n as [|n IH]; intros s L H Hr; simpl push_times.
  { exists s, L. split; [done|]. split; [done|]. split; [by constructor|lia]. }
  destruct (push_log_blocks_room w s fl L H Hr) as (s1 & L1 & -> & H1 & Hpu & Hre & Hpe & _).
  cbn [mbind option_bind].
  destruct (IH s1 L1 H1 (ready_pushed _ _ Hpu Hr)) as (s' & L' & -> & H' & Hpu' & Hlen).
  exists s', L'. split; [done|]. split; [done|]. split; [by eapply pushed_trans|].
  etrans; [exact Hlen|].
  assert (zlen (L1 QRetry) = Z.max 0 (zlen (L QRetry) - 9)) by (rewrite Hre, length_drop; lia).
  assert (zlen (L1 QPending) = if zlen (L QRetry) <=? 9
    then Z.max 0 (zlen (L QPending) - 9) else zlen (L QPending))
    by (rewrite Hpe; destruct (_ <=? _); [rewrite length_drop|]; lia).
  destruct (Z.leb_spec (zlen (L QRetry)) 9); lia.
Qed.

Lemma session_all_sent p L st wr ak q : session p L st wr ak -> L QPending = [] ->
  0 <= q < full st -> on_wire wr q.
Proof.
  intros Hs HL Hq. apply (ss_cover _ _ _ _ _ Hs). rewrite HL. simpl. lia.
Qed.
End delivery.

(** * Properties *)

(** C10. Whatever is written, whatever a client asks for or acknowledges and
    however full the link is, the remote log stays defined, raises no internal
    error and counts its free blocks right.  In a session every message on the
    wire carries the 200 bytes of the log that its number stands for, and every
    complete block of the log is either still in a queue with its bytes, or it
    was sent and the client has acknowledged it: nothing is lost or mixed up
    under retries, resends and repeated acknowledgements. *)
Theorem remote_log_stream STOP START alloc w s0 ops :
  Init alloc (constructed w) = Some s0 -> _initialised s0 = true ->
  Forall call_ok ops ->
  exists s, run STOP START ops s0 = Some s /\ _internal_errors s = 0 /\
    stack_size (S (length (_blocks (blk s)))) (_blocks (blk s)) (_blocks_free (blk s)) 0
      = Some (_blockcount_free (blk s)) /\
    (zlen (stream s) < log_limit ->
     (forall m, m ∈ wire s -> 0 <= msg_seqno m < full (stream s) /\
        msg_data m = piece (stream s) (msg_seqno m)) /\
     (forall q, 0 <= q < full (stream s) ->
        (exists x l i b, queue_rep (_blocks (blk s)) (get_queue x (blk s)) l /\ i ∈ l /\
           _blocks (blk s) !! i = Some b /\ seqno b = q /\ buf b = piece (stream s) q) \/
        (on_wire (wire s) q /\ q ∈ acks s))).
Proof.
  intros Hinit Hini Hops. destruct (Init_spec alloc w) as (s1 & Hs1 & Hinv).
  assert (s1 = s0) as -> by congruence.
  destruct (run_spec STOP START ops s0 Hops (Hinv Hini)) as (s & Hrun & (fl & L & H) & _).
  exists s. split; [done|]. split; [apply H|].
  pose proof (hd_rep _ _ _ H) as R. pose proof (rep_total R) as Ht.
  pose proof (rp_size _ _ _ _ R). pose proof (rp_count _ _ _ _ R). split.
  { rewrite (stack_size_spec _ fl); [|apply R|lia..].
    rewrite (rp_free_count _ _ _ _ R). f_equal. }
  intros Hlim. pose proof (hd_session _ _ _ H Hlim) as Ss.
  split; [apply Ss|]. intros q Hq.
  assert (Hheld : forall x i d, i ∈ L x -> info (_blocks (blk s)) !! i = Some (q, d) ->
    d = piece (stream s) q -> exists x l i b,
      queue_rep (_blocks (blk s)) (get_queue x (blk s)) l /\ i ∈ l /\
      _blocks (blk s) !! i = Some b /\ seqno b = q /\ buf b = piece (stream s) q).
  { intros x i d Hi Hinfo ->. apply info_lookup_inv in Hinfo as (b & Hb & Hs & Hd).
    exists x, (L x), i, b. split; [apply R|done]. }
  destruct (decide (q < full (stream s) - zlen (L QPending))).
  - destruct (ss_cover _ _ _ _ _ Ss q) as [Hon [Hak|(x & i & d & Hx & Hi & E)]]; [lia|by right|left].
    apply (Hheld x i d); [done|done|].
    destruct (ss_held _ _ _ _ _ Ss x i Hx Hi) as (q' & _ & E'). congruence.
  - left. set (k := Z.to_nat (q - (full (stream s) - zlen (L QPending)))).
    destruct (lookup_lt_is_Some_2 (L QPending) k) as [i Hi]; [lia|].
    pose proof (ss_pending _ _ _ _ _ Ss k i Hi) as E. cbv zeta in E.
    replace (full (stream s) - zlen (L QPending) + Z.of_nat k) with q in E by lia.
    by apply (Hheld QPending i _ (list_elem_of_lookup_2 _ _ _ Hi) E).
Qed.

(** A client connects, receives the startup messages and two blocks of a
    message of 450 bytes, acknowledges the first one and asks for the second one
    again. *)
Definition demo_env (now : Z) : env :=
  {| millis := now; writes_enabled := true; in_main_thread := true;
     vehicle_is_armed := true; log_while_disarmed := false; file_disarm_rot := true;
     sem_free := fun _ => true; tx_room := fun _ => true;
     pack := fun _ => replicate 20 7; vehicle_packets := None; stats_msg_id := 170;
     log_config := {| num_types := 2; num_units := 1; num_multipliers := 1;
       scalars := []; git_versions := false; system_id := false; mission := None |} |}.
Definition demo_log_start : log_start :=
  mk_log_start false false ls_init 0 0 0 0 [] sysinfo_reset mission_reset.
Definition demo_boot : t :=
  default (constructed demo_log_start) (Init (fun _ => true) (constructed demo_log_start)).
Definition demo_calls : list (env * op) :=
  [(demo_env 1000, OStatus 0 255 190 2147483646 1); (demo_env 1010, OPeriodic);
   (demo_env 1020, OWrite (replicate 450 3) false); (demo_env 1030, OPeriodic);
   (demo_env 1040, OStatus 0 255 190 0 1); (demo_env 1050, OStatus 0 255 190 1 0);
   (demo_env 1060, OPeriodic)].
Definition demo_state : t :=
  default demo_boot (run 2147483645 2147483646 demo_calls demo_boot).

Lemma demo_env_ok now : env_ok (demo_env now).
Proof. split; [intros i|]; simpl; lia || done. Qed.

Lemma demo_calls_ok : Forall call_ok demo_calls.
Proof. repeat constructor; simpl; lia || done. Qed.

Example demo_log :
  (zlen (stream demo_state), msg_seqno <$> wire demo_state, acks demo_state,
   _blockcount_free (blk demo_state)) = (590, [0; 1; 1], [0], 30).
Proof. vm_compute. reflexivity. Qed.

Lemma remote_log_stream_witness :
  exists s, run 2147483645 2147483646 demo_calls demo_boot = Some s /\
    _internal_errors s = 0 /\
    stack_size (S (length (_blocks (blk s)))) (_blocks (blk s)) (_blocks_free (blk s)) 0
      = Some (_blockcount_free (blk s)) /\
    (zlen (stream s) < log_limit ->
     (forall m, m ∈ wire s -> 0 <= msg_seqno m < full (stream s) /\
        msg_data m = piece (stream s) (msg_seqno m)) /\
     (forall q, 0 <= q < full (stream s) ->
        (exists x l i b, queue_rep (_blocks (blk s)) (get_queue x (blk s)) l /\ i ∈ l /\
           _blocks (blk s) !! i = Some b /\ seqno b = q /\ buf b = piece (stream s) q) \/
        (on_wire (wire s) q /\ q ∈ acks s))).
Proof.
  apply (remote_log_stream 2147483645 2147483646 (fun _ => true) demo_log_start demo_boot demo_calls).
  - vm_compute. reflexivity.
  - vm_compute. reflexivity.
  - exact demo_calls_ok.
Defined.

(** C25. With room on the link and the startup messages done, one call of the
    full-rate task sends nine blocks of the retry queue at most and, when that
    empties it, nine of the pending ones; after four calls every complete block
    of the log has been sent. *)
Theorem remote_log_delivery STOP START alloc w s0 ops s e wb :
  Init alloc (constructed w) = Some s0 -> _initialised s0 = true ->
  Forall call_ok ops -> run STOP START ops s0 = Some s ->
  (forall n, tx_room e n = true) -> (forall n, sem_free e n = true) -> ready s ->
  (exists r p s1,
     queue_size (_blocks (blk s)) (_blocks_retry (blk s)) = Some r /\
     queue_size (_blocks (blk s)) (_blocks_pending (blk s)) = Some p /\
     push_log_blocks e wb s = Some s1 /\
     zlen (wire s1) =
       zlen (wire s) + Z.min 9 r + (if r <=? 9 then Z.min 9 p else 0)) /\
  exists s4, push_times e 4 wb s = Some s4 /\ stream s4 = stream s /\
    oldest (_blocks_retry (blk s4)) = None /\ oldest (_blocks_pending (blk s4)) = None /\
    (zlen (stream s) < log_limit -> forall q, 0 <= q < full (stream s) -> on_wire (wire s4) q).
Proof.
  intros Hinit Hini Hops Hrun Htx Hsem Hready.
  destruct (Init_spec alloc w) as (s1 & Hs1 & Hinv). assert (s1 = s0) as -> by congruence.
  destruct (run_spec STOP START ops s0 Hops (Hinv Hini)) as (s1 & Hrun1 & (fl & L & H) & _).
  assert (s1 = s) as -> by congruence. pose proof (hd_rep _ _ _ H) as R. split.
  - destruct (push_log_blocks_room e Htx Hsem wb s fl L H Hready) as (s1 & L1 & Hp & _ & _ & _ & _ & Hlen).
    exists (zlen (L QRetry)), (zlen (L QPending)), s1.
    split; [apply (queue_size_spec _ _ _ _ R QRetry)|].
    split; [apply (queue_size_spec _ _ _ _ R QPending)|]. split; [done|]. exact Hlen.
  - destruct (push_times_room e Htx Hsem 4 wb s fl L H Hready) as (s4 & L4 & Hp & H4 & Hpu & Hlen).
    pose proof (rep_total R) as Ht. pose proof (rp_size _ _ _ _ R).
    pose proof (rp_count _ _ _ _ R).
    assert (L4 QRetry = [] /\ L4 QPending = []) as [Hre Hpe].
    { split; apply length_zero_iff_nil; lia. }
    exists s4. split; [done|]. split; [apply Hpu|].
    pose proof (rp_queue _ _ _ _ (hd_rep _ _ _ H4)) as Hq.
    split; [destruct (Hq QRetry) as [Hc _]; rewrite Hre in Hc; exact Hc|].
    split; [destruct (Hq QPending) as [Hc _]; rewrite Hpe in Hc; exact Hc|].
    intros Hlim q Hqq. rewrite <- (pu_stream _ _ Hpu) in Hlim, Hqq.
    eapply session_all_sent; [by apply H4|done|done].
Qed.

Lemma remote_log_delivery_witness :
  (exists r p s1,
     queue_size (_blocks (blk demo_state)) (_blocks_retry (blk demo_state)) = Some r /\
     queue_size (_blocks (blk demo_state)) (_blocks_pending (blk demo_state)) = Some p /\
     push_log_blocks (demo_env 1100) (fun _ _ => None) demo_state = Some s1 /\
     zlen (wire s1) =
       zlen (wire demo_state) + Z.min 9 r + (if r <=? 9 then Z.min 9 p else 0)) /\
  exists s4, push_times (demo_env 1100) 4 (fun _ _ => None) demo_state = Some s4 /\
    stream s4 = stream demo_state /\
    oldest (_blocks_retry (blk s4)) = None /\ oldest (_blocks_pending (blk s4)) = None /\
    (zlen (stream demo_state) < log_limit ->
     forall q, 0 <= q < full (stream demo_state) -> on_wire (wire s4) q).
Proof.
  apply (remote_log_delivery 2147483645 2147483646 (fun _ => true) demo_log_start demo_boot
    demo_calls demo_state (demo_env 1100) (fun _ _ => None)).
  - vm_compute. reflexivity.
  - vm_compute. reflexivity.
  - exact demo_calls_ok.
  - vm_compute. reflexivity.
  - done.
  - done.
  - vm_compute. done.
Defined.
