(* ===== verification/Float32Spec.v ===== *)
(** Rounding in single precision: what [binary_round_aux] of the Standard
    Library, which every operation of Float32.v ends with, does to the exact
    value, and what follows for the conversions between integers, numbers in
    memory and centimetres. *)
From S2P Require Import Prelude Float32.
#[local] Abbreviation fexp := (fexp prec emax).
#[local] Abbreviation digits m := (Z.pos (digits2_pos m)).

(** * Digits *)

Lemma digits_bounds m : 2 ^ (digits m - 1) <= Z.pos m < 2 ^ digits m.
Proof.
  induction m as [m IH|m IH|]; [..|done]; simpl digits2_pos; rewrite Pos2Z.inj_succ;
    replace (Z.succ (digits m) - 1) with (Z.succ (digits m - 1)) by lia;
    rewrite !Z.pow_succ_r by lia; lia.
Qed.

Lemma digits_eq m d : 0 < d -> 2 ^ (d - 1) <= Z.pos m < 2 ^ d -> digits m = d.
Proof.
  intros Hd Hm. pose proof (digits_bounds m) as Hb.
  destruct (Z.lt_trichotomy (digits m) d) as [Hl|[->|Hl]]; [|done|].
  - assert (2 ^ digits m <= 2 ^ (d - 1)) by (apply Z.pow_le_mono_r; lia). lia.
  - assert (2 ^ d <= 2 ^ (digits m - 1)) by (apply Z.pow_le_mono_r; lia). lia.
Qed.

Lemma digits_le m d : 0 <= d -> Z.pos m < 2 ^ d -> digits m <= d.
Proof.
  intros Hd Hm. pose proof (digits_bounds m) as [Hp _].
  destruct (Z.le_gt_cases (digits m) d) as [|Hgt]; [done|].
  assert (2 ^ d <= 2 ^ (digits m - 1)) by (apply Z.pow_le_mono_r; lia). lia.
Qed.

(** * The exact value

    [inb N D r]: the record [r] of the library stands for [N / D]: the integer
    part, whether the rest is half or more, and whether it is more than that. *)
Record inb (N D : Z) (r : shr_record) : Prop := {
  inb_pos : 0 <= N /\ 0 < D;
  inb_m : shr_m r = N / D;
  inb_r : shr_r r = (D <=? 2 * (N mod D));
  inb_s : shr_s r = negb ((2 * N) mod D =? 0)
}.

(** Rounding [N / D] to the nearest integer, to the even one of two. *)
Definition rne (N D : Z) : Z :=
  let q := N / D in
  match 2 * (N mod D) ?= D with
  | Lt => q
  | Eq => if Z.even q then q else q + 1
  | Gt => q + 1
  end.

Lemma rne_error N D : 0 < D -> 2 * Z.abs (D * rne N D - N) <= D.
Proof.
  intros HD. unfold rne. pose proof (Z.div_mod N D ltac:(lia)). pose proof (Z.mod_pos_bound N D HD).
  destruct (Z.compare_spec (2 * (N mod D)) D); [destruct (Z.even _)|..]; nia.
Qed.

Lemma rne_exact q D : 0 < D -> rne (q * D) D = q.
Proof.
  intros HD. unfold rne. rewrite Z.div_mul, Z.mod_mul by lia.
  by rewrite (proj2 (Z.compare_lt_iff _ _)) by lia.
Qed.

Lemma mod_twice N D : 0 < D -> N mod (2 * D) = N mod D + D * ((N / D) mod 2).
Proof. intros HD. rewrite (Z.mul_comm 2). by apply Z.rem_mul_r; lia. Qed.

Lemma double_mod N D : 0 < D -> (2 * N) mod D = if D <=? 2 * (N mod D) then 2 * (N mod D) - D else 2 * (N mod D).
Proof.
  intros HD. pose proof (Z.mod_pos_bound N D HD).
  rewrite <- Z.mul_mod_idemp_r, mod_wrap by lia. by rewrite Z.ltb_antisym, <- (negb_involutive (D <=? _)); destruct (D <=? _).
Qed.

(** A step of the shift halves the value. *)
Lemma shr_1_inb N D r : inb N D r -> inb N (2 * D) (shr_1 r).
Proof.
  intros [[HN HD] Hm Hr Hs]. destruct r as [m r s]. simpl in *.
  pose proof (Z.mod_pos_bound N D HD) as Hb. pose proof (Z.div_pos N D HN HD).
  assert (Hs' : r || s = negb ((2 * N) mod (2 * D) =? 0)).
  { rewrite Z.mul_mod_distr_l, Hr, Hs, double_mod by lia.
    destruct (Z.leb_spec D (2 * (N mod D))); simpl; symmetry.
    - apply negb_true_iff, Z.eqb_neq. lia.
    - by destruct (Z.eqb_spec (2 * (N mod D)) 0). }
  assert (Hm' : N / (2 * D) = m / 2) by (rewrite Z.mul_comm, <- Z.div_div, Hm by lia; done).
  assert (Hr' : (2 * D <=? 2 * (N mod (2 * D))) = Z.odd m).
  { rewrite mod_twice, <- Hm, Zodd_mod by done. pose proof (Z.mod_pos_bound m 2).
    destruct (Z.eqb_spec (m mod 2) 1) as [->|]; [apply Z.leb_le; lia|].
    replace (m mod 2) with 0 by lia. apply Z.leb_gt. lia. }
  assert (Hpos : 0 <= N /\ 0 < 2 * D) by lia.
  destruct m as [|[m|m|]|m]; [..|lia].
  - split; [done|rewrite Hm'; done|rewrite Hr'; done|rewrite <- Hs'; done].
  - split; [done|rewrite Hm'|rewrite Hr'; done|rewrite <- Hs'; done].
    rewrite <- (Z.div_unique (Z.pos m~1) 2 (Z.pos m) 1); [done|lia..].
  - split; [done|rewrite Hm'|rewrite Hr'; done|rewrite <- Hs'; done].
    rewrite <- (Z.div_unique (Z.pos m~0) 2 (Z.pos m) 0); [done|lia..].
  - split; [done|rewrite Hm'; done|rewrite Hr'; done|rewrite <- Hs'; done].
Qed.

Lemma iter_inb p : forall N D r, inb N D r -> inb N (2 ^ Z.pos p * D) (iter_pos shr_1 p r).
Proof.
  induction p as [p IH|p IH|]; intros N D r H; simpl iter_pos.
  - replace (2 ^ Z.pos p~1 * D) with (2 ^ Z.pos p * (2 ^ Z.pos p * (2 * D))).
    + by apply IH, IH, shr_1_inb.
    + replace (Z.pos p~1) with (Z.pos p + Z.pos p + 1) by lia.
      rewrite !Z.pow_add_r by lia. ring.
  - replace (2 ^ Z.pos p~0 * D) with (2 ^ Z.pos p * (2 ^ Z.pos p * D)); [by apply IH, IH|].
    replace (Z.pos p~0) with (Z.pos p + Z.pos p) by lia. rewrite Z.pow_add_r by lia. ring.
  - by apply shr_1_inb.
Qed.

Lemma shr_inb N D r e n : inb N D r ->
  let k := Z.max 0 n in
  (shr r e n).2 = e + k /\ inb N (2 ^ k * D) (shr r e n).1.
Proof.
  intros H k. subst k. destruct n as [|p|p]; cbn [shr fst snd].
  - rewrite Z.mul_1_l. split; [lia|done].
  - split; [lia|by apply iter_inb].
  - rewrite Z.mul_1_l. split; [lia|done].
Qed.

Lemma round_inb N D r : inb N D r ->
  round_nearest_even (shr_m r) (loc_of_shr_record r) = rne N D.
Proof.
  intros [[HN HD] Hm Hr Hs]. destruct r as [m r s]. simpl in *. subst m r s. unfold rne.
  rewrite double_mod by lia. pose proof (Z.mod_pos_bound N D HD).
  destruct (Z.leb_spec D (2 * (N mod D))); simpl.
  - destruct (Z.eqb_spec (2 * (N mod D) - D) 0); simpl.
    + by rewrite (proj2 (Z.compare_eq_iff _ _)) by lia.
    + by rewrite (proj2 (Z.compare_gt_iff _ _)) by lia.
  - rewrite (proj2 (Z.compare_lt_iff _ _)) by lia.
    by destruct (Z.eqb_spec (2 * (N mod D)) 0).
Qed.

Lemma exact_inb m : 0 <= m -> inb m 1 (shr_record_of_loc m loc_Exact).
Proof. intros H. split; simpl; rewrite ?Z.div_1_r, ?Z.mod_1_r; done || lia. Qed.

(** The location of a division. *)
Lemma location_inb N D : 0 <= N -> 0 < D ->
  inb N D (shr_record_of_loc (N / D) (new_location D (N mod D))).
Proof.
  intros HN HD. pose proof (Z.mod_pos_bound N D HD). pose proof (double_mod N D HD) as Hd.
  assert (Hloc : new_location D (N mod D) = if N mod D =? 0 then loc_Exact
    else loc_Inexact (2 * (N mod D) ?= D)).
  { unfold new_location, new_location_even, new_location_odd.
    destruct (Z.even D) eqn:He; destruct (Z.eqb_spec (N mod D) 0); try done. f_equal.
    assert (Ho : Z.odd D = true) by (by rewrite <- Z.negb_even, He).
    apply Z.odd_spec in Ho as [h Hh].
    destruct (Z.compare_spec (2 * (N mod D) + 1) D), (Z.compare_spec (2 * (N mod D)) D); done || lia. }
  rewrite Hloc. destruct (Z.eqb_spec (N mod D) 0) as [Hz|Hz].
  - split; simpl; [done|done|..].
    + symmetry. apply Z.leb_gt. lia.
    + rewrite Hd. rewrite (proj2 (Z.leb_gt _ _)) by lia. by rewrite Hz.
  - destruct (Z.compare_spec (2 * (N mod D)) D); split; simpl; try done;
      rewrite ?Hd; symmetry; rewrite ?Z.leb_le, ?Z.leb_gt; try lia.
    + rewrite (proj2 (Z.leb_le _ _)) by lia. apply negb_false_iff, Z.eqb_eq. lia.
    + rewrite (proj2 (Z.leb_gt _ _)) by lia. apply negb_true_iff, Z.eqb_neq. lia.
    + rewrite (proj2 (Z.leb_le _ _)) by lia. apply negb_true_iff, Z.eqb_neq. lia.
Qed.

(** * Rounding *)

Lemma fexp_eq d : fexp d = Z.max (d - 24) (-149).
Proof. done. Qed.

Lemma Zdigits2_bounds m : 0 <= m -> 0 <= Zdigits2 m /\ m < 2 ^ Zdigits2 m.
Proof. destruct m as [|m|m]; intros Hm; simpl Zdigits2; [done| |lia]. pose proof (digits_bounds m). lia. Qed.

Lemma rne_range N D n : 0 <= N -> 0 < D -> N / D < n -> 0 <= rne N D <= n.
Proof.
  intros HN HD Hn. pose proof (Z.div_pos N D HN HD). unfold rne.
  destruct (_ ?= _); [destruct (Z.even _)|..]; lia.
Qed.

(** The number [R * 2^E] of at most 24 bits, or of [2^24] ulps. *)
Definition finish (s : bool) (R E : Z) : spec_float :=
  if R =? 2 ^ 24 then S754_finite s (2 ^ 23) (E + 1)
  else match R with
       | Z0 => S754_zero s
       | Z.pos r => S754_finite s r E
       | Z.neg _ => S754_nan
       end.

(** The exponent that a value of the given digits is rounded to. *)
Definition round_exp (m e : Z) : Z := Z.max e (fexp (Zdigits2 m + e)).

Theorem round_aux_spec s m e l N D : inb N D (shr_record_of_loc m l) ->
  round_exp m e <= 104 ->
  round_exp m e < 104 \/ rne N (2 ^ (round_exp m e - e) * D) < 2 ^ 24 ->
  binary_round_aux prec emax s m e l =
    finish s (rne N (2 ^ (round_exp m e - e) * D)) (round_exp m e).
Proof.
  intros Hi HE HC. pose proof Hi as [[HN HD] Hm _ _].
  replace (shr_m (shr_record_of_loc m l)) with m in Hm by (by destruct l as [|[]]).
  assert (Hm0 : 0 <= m) by (subst m; by apply Z.div_pos).
  unfold binary_round_aux, shr_fexp. change (emax - prec) with 104.
  pose proof (shr_inb _ _ _ e (fexp (Zdigits2 m + e) - e) Hi) as [He1 Hi1].
  destruct (shr _ e _) as [r1 e1]. simpl fst in Hi1; simpl snd in He1.
  set (k := Z.max 0 _) in *. assert (Hk : k = round_exp m e - e) by (unfold k, round_exp; lia).
  assert (e1 = round_exp m e) as -> by lia. rewrite <- Hk in *. rewrite (round_inb _ _ _ Hi1).
  assert (HR : 0 <= rne N (2 ^ k * D) <= 2 ^ 24).
  { apply rne_range; [done|apply Z.mul_pos_pos; [apply Z.pow_pos_nonneg; lia|done]|].
    rewrite Z.mul_comm, <- Z.div_div, <- Hm by (try apply Z.pow_pos_nonneg; lia).
    apply Z.div_lt_upper_bound; [apply Z.pow_pos_nonneg; lia|].
    rewrite <- Z.pow_add_r by lia. pose proof (Zdigits2_bounds m Hm0) as [_ Hd].
    eapply Z.lt_le_trans; [exact Hd|]. apply Z.pow_le_mono_r; [lia|].
    unfold k. rewrite fexp_eq. lia. }
  set (R := rne N _) in *. clearbody R. clear r1 Hi1 He1. set (E := round_exp m e) in *.
  assert (HE' : -149 <= E) by (unfold E, round_exp; rewrite fexp_eq; lia). clearbody E.
  unfold finish. destruct (Z.eqb_spec R (2 ^ 24)) as [->|Hne].
  - replace (fexp (Zdigits2 (2 ^ 24) + E) - E) with 1 by (change (Zdigits2 (2 ^ 24)) with 25; rewrite fexp_eq; lia).
    simpl. by rewrite (proj2 (Z.leb_le _ _)) by lia.
  - assert (Hz : fexp (Zdigits2 R + E) - E <= 0).
    { rewrite fexp_eq. destruct R as [|p|p]; simpl Zdigits2; [lia| |lia].
      pose proof (digits_le p 24 ltac:(lia)). lia. }
    destruct (fexp (Zdigits2 R + E) - E) as [|p|p]; [..|]; [| lia |]; simpl;
      (destruct R; [done| |done]); by rewrite (proj2 (Z.leb_le _ _)) by lia.
Qed.

(** A number of 24 bits, or a smaller one of the smallest exponent. *)
Definition canonical (m : positive) (e : Z) : Prop :=
  (digits m = 24 /\ -149 <= e \/ digits m < 24 /\ e = -149) /\ e <= 104.

Lemma canonical_exp m e : canonical m e -> round_exp (Z.pos m) e = e.
Proof. intros [[[Hd He]|[Hd ->]] _]; unfold round_exp; simpl Zdigits2; rewrite fexp_eq; lia. Qed.

Lemma canonical_lt m e : canonical m e -> Z.pos m < 2 ^ 24.
Proof.
  intros [Hd _]. pose proof (digits_bounds m) as [_ Hm]. eapply Z.lt_le_trans; [exact Hm|].
  apply Z.pow_le_mono_r; lia.
Qed.

Lemma round_aux_canonical s m e : canonical m e ->
  binary_round_aux prec emax s (Z.pos m) e loc_Exact = S754_finite s m e.
Proof.
  intros Hc. pose proof (canonical_lt m e Hc). pose proof (canonical_exp m e Hc) as HE.
  pose proof (rne_exact (Z.pos m) 1 ltac:(lia)) as Hr. rewrite Z.mul_1_r in Hr.
  rewrite (round_aux_spec _ _ _ _ (Z.pos m) 1), HE, Z.sub_diag; change (2 ^ 0 * 1) with 1; rewrite ?Hr.
  - unfold finish. by rewrite (proj2 (Z.eqb_neq _ _)) by lia.
  - by apply exact_inb.
  - rewrite HE. apply Hc.
  - right. rewrite HE, Z.sub_diag. change (2 ^ 0 * 1) with 1. by rewrite Hr.
Qed.

(** * Integers as floats *)

(** The float of an integer of at most 24 bits. *)
Definition of_int (s : bool) (m : positive) : spec_float :=
  S754_finite s (Z.to_pos (Z.pos m * 2 ^ (24 - digits m))) (digits m - 24).

Lemma shl_align_spec m e e' : e' <= e ->
  shl_align m e e' = (Z.to_pos (Z.pos m * 2 ^ (e - e')), e').
Proof.
  intros He. unfold shl_align. destruct (e' - e) as [|d|d] eqn:Hd; [|lia|].
  - replace (e - e') with 0 by lia. replace e' with e by lia. change (2 ^ 0) with 1. by rewrite Z.mul_1_r.
  - replace (e - e') with (Z.pos d) by lia. f_equal.
    clear Hd He. induction d as [|d IH] using Pos.peano_ind; [by rewrite Z.mul_comm|].
    rewrite Pos.iter_succ, IH, Pos2Z.inj_succ, Z.pow_succ_r by lia.
    assert (0 < Z.pos m * 2 ^ Z.pos d) by (apply Z.mul_pos_pos; [lia|apply Z.pow_pos_nonneg; lia]).
    replace (Z.pos m * (2 * 2 ^ Z.pos d)) with (2 * (Z.pos m * 2 ^ Z.pos d)) by ring.
    by rewrite (Z2Pos.inj_mul 2) by lia.
Qed.

Lemma of_int_mantissa m : Z.pos m < 2 ^ 24 ->
  digits (Z.to_pos (Z.pos m * 2 ^ (24 - digits m))) = 24 /\ 1 <= digits m <= 24.
Proof.
  intros Hm. pose proof (digits_le m 24 ltac:(lia) Hm) as Hd. split; [|lia].
  apply digits_eq; [lia|]. pose proof (digits_bounds m) as [Hl Hh].
  assert (Hp : 0 < 2 ^ (24 - digits m)) by (apply Z.pow_pos_nonneg; lia).
  rewrite Z2Pos.id by (apply Z.mul_pos_pos; lia). split.
  - replace (24 - 1) with (digits m - 1 + (24 - digits m)) by lia.
    rewrite Z.pow_add_r by lia. apply Z.mul_le_mono_nonneg_r; lia.
  - apply Z.lt_le_trans with (2 ^ digits m * 2 ^ (24 - digits m)).
    + by apply Z.mul_lt_mono_pos_r.
    + rewrite <- Z.pow_add_r by lia. by replace (digits m + (24 - digits m)) with 24 by lia.
Qed.

Lemma binary_round_int s m : Z.pos m < 2 ^ 24 -> binary_round prec emax s m 0 = of_int s m.
Proof.
  intros Hm. pose proof (digits_le m 24 ltac:(lia) Hm) as Hd.
  unfold binary_round. rewrite fexp_eq, Z.max_l, shl_align_spec by lia.
  replace (0 - (digits m + 0 - 24)) with (24 - digits m) by lia.
  replace (digits m + 0 - 24) with (digits m - 24) by lia.
  assert (Hpos : 0 < Z.pos m * 2 ^ (24 - digits m)) by (apply Z.mul_pos_pos; [lia|apply Z.pow_pos_nonneg; lia]).
  rewrite <- (Z2Pos.id (Z.pos m * _)) by done. unfold of_int.
  apply round_aux_canonical. split; [left|lia]. split; [by apply of_int_mantissa|lia].
Qed.

Lemma of_Z_int v : Z.abs v < 2 ^ 24 ->
  f32_of_Z v = match v with
               | Z0 => S754_zero false
               | Z.pos m => of_int false m
               | Z.neg m => of_int true m
               end.
Proof. intros Hv. unfold f32_of_Z. destruct v; [done|apply binary_round_int; lia..]. Qed.

(** [(float)v] of an integer of 24 bits is exact. *)
Lemma trunc_of_Z v : Z.abs v < 2 ^ 24 -> f32_trunc (f32_of_Z v) = Some v.
Proof.
  intros Hv. rewrite of_Z_int by done. assert (Hm : forall s m, Z.pos m < 2 ^ 24 ->
    f32_trunc (of_int s m) = Some (if s then Z.neg m else Z.pos m)).
  { intros s m Hm. unfold of_int, f32_trunc. 
    pose proof (digits_le m 24 ltac:(lia) Hm) as Hd.
    assert (Hpow : 0 < 2 ^ (24 - digits m)) by (apply Z.pow_pos_nonneg; lia).
    rewrite Z2Pos.id by (apply Z.mul_pos_pos; lia). do 2 f_equal.
    destruct (Z.leb_spec 0 (digits m - 24)).
    - replace (digits m) with 24 by lia. simpl. destruct s; lia.
    - replace (- (digits m - 24)) with (24 - digits m) by lia. rewrite Z.div_mul by lia. by destruct s. }
  destruct v; [done|rewrite Hm; [done|lia]..].
Qed.

(** * Numbers in memory *)

(** Zero, or a number of 24 bits: what integers and the results of the
    operations on them are. *)
Definition plain (x : spec_float) : Prop :=
  match x with
  | S754_zero _ => True
  | S754_finite _ m e => digits m = 24 /\ -149 <= e <= 104
  | _ => False
  end.

Lemma f32_lit_normal m e : digits m = 24 -> -149 <= e <= 104 ->
  f32_lit (Z.pos m) e = S754_finite false m e.
Proof.
  intros Hd He. unfold f32_lit, binary_normalize, binary_round.
  rewrite Hd, fexp_eq, Z.max_l, shl_align_spec by lia.
  replace (e - (24 + e - 24)) with 0 by lia. replace (24 + e - 24) with e by lia.
  change (2 ^ 0) with 1. rewrite Z.mul_1_r. apply round_aux_canonical. split; [left|]; lia.
Qed.

Lemma f32_of_bits_of x : plain x -> f32_of_bits (bits_of_f32 x) = x.
Proof.
  destruct x as [[]|s| |s m e]; [done..|]. intros [Hd He]. unfold bits_of_f32.
  pose proof (digits_bounds m) as Hm. rewrite Hd in Hm. change (24 - 1) with 23 in Hm.
  rewrite (proj2 (Z.ltb_ge _ _)) by lia. unfold f32_of_bits.
  set (b := _ + _). assert (Hs : Z.testbit b 31 = s).
  { rewrite Z.testbit_odd, Z.shiftr_div_pow2 by lia.
    replace (b / 2 ^ 31) with (if s then 1 else 0) by (subst b; destruct s; zlia). by destruct s. }
  replace ((b / 2 ^ 23) mod 2 ^ 8) with (e + 150) by (subst b; destruct s; zlia).
  replace (b mod 2 ^ 23) with (Z.pos m - 2 ^ 23) by (subst b; destruct s; zlia).
  rewrite Hs. rewrite !(proj2 (Z.eqb_neq _ _)) by lia.
  replace (Z.pos m - 2 ^ 23 + 2 ^ 23) with (Z.pos m) by lia.
  replace (e + 150 - 150) with e by lia. rewrite f32_lit_normal by done. by destruct s.
Qed.

Lemma bits_range x : plain x -> 0 <= bits_of_f32 x < 2 ^ 32.
Proof.
  destruct x as [[]|s| |s m e]; [done..|]. intros [Hd He]. unfold bits_of_f32.
  pose proof (digits_bounds m) as Hm. rewrite Hd in Hm. change (24 - 1) with 23 in Hm.
  rewrite (proj2 (Z.ltb_ge _ _)) by lia. destruct s; lia.
Qed.

Lemma of_Z_plain v : Z.abs v < 2 ^ 24 -> plain (f32_of_Z v).
Proof.
  intros Hv. rewrite of_Z_int by done. destruct v as [|m|m]; [done|..];
    destruct (of_int_mantissa m); simpl; lia.
Qed.

Lemma f32_of_Z_opp v : Z.abs v < 2 ^ 24 -> v <> 0 -> f32_of_Z (- v) = SFopp (f32_of_Z v).
Proof. intros Hv Hz. rewrite !of_Z_int by lia. by destruct v. Qed.

(** The sign tests of the code. *)
Lemma of_Z_negative v : Z.abs v < 2 ^ 24 -> f32_lt (f32_of_Z v) (f32_of_Z 0) = (v <? 0).
Proof. intros Hv. rewrite of_Z_int by done. by destruct v. Qed.

Lemma of_Z_positive v : Z.abs v < 2 ^ 24 -> f32_lt (f32_of_Z 0) (f32_of_Z v) = (0 <? v).
Proof. intros Hv. rewrite (of_Z_int v) by done. by destruct v. Qed.

Lemma of_Z_abs v : Z.abs v < 2 ^ 24 -> SFabs (f32_of_Z v) = f32_of_Z (Z.abs v).
Proof. intros Hv. rewrite !of_Z_int by lia. by destruct v. Qed.

(** * Products and quotients *)

(** A number of 24 bits. *)
Definition normal (m : positive) : Prop := 2 ^ 23 <= Z.pos m < 2 ^ 24.

Lemma normal_digits m : digits m = 24 <-> normal m.
Proof.
  unfold normal. split; [intros Hd|intros Hm; by apply digits_eq].
  pose proof (digits_bounds m) as Hb. by rewrite Hd in Hb.
Qed.

Lemma finish_normal s R E : 2 ^ 23 <= R <= 2 ^ 24 ->
  exists m c, finish s R E = S754_finite s m (E + c) /\ normal m /\
    (c = 0 /\ Z.pos m = R \/ c = 1 /\ 2 * Z.pos m = R).
Proof.
  intros HR. unfold finish, normal. destruct (Z.eqb_spec R (2 ^ 24)) as [->|].
  - exists (Z.to_pos (2 ^ 23)), 1. split; [done|]. lia.
  - destruct R as [|r|r]; [lia| |lia]. exists r, 0. rewrite Z.add_0_r. split; [done|]. lia.
Qed.

Lemma rne_lower N D n : 0 < D -> n * D <= N -> n <= rne N D.
Proof.
  intros HD Hn. assert (n <= N / D) by (apply Z.div_le_lower_bound; lia). unfold rne.
  destruct (_ ?= _); [destruct (Z.even _)|..]; lia.
Qed.

(** The rounding of a value of [24 + k] digits to 24. *)
Lemma round_normal s m e l N D k : inb N D (shr_record_of_loc (Z.pos m) l) -> 0 <= k ->
  digits m = 24 + k -> -149 <= e + k < 104 ->
  exists R, binary_round_aux prec emax s (Z.pos m) e l = finish s R (e + k) /\
    2 ^ 23 <= R <= 2 ^ 24 /\ 2 * Z.abs (2 ^ k * D * R - N) <= 2 ^ k * D.
Proof.
  intros Hi Hk Hd He. pose proof Hi as [[HN HD] Hm _ _].
  replace (shr_m (shr_record_of_loc (Z.pos m) l)) with (Z.pos m) in Hm by (by destruct l as [|[]]).
  assert (HE : round_exp (Z.pos m) e = e + k)
    by (unfold round_exp; simpl Zdigits2; rewrite Hd, fexp_eq; lia).
  assert (Hp : 0 < 2 ^ k) by (apply Z.pow_pos_nonneg; lia).
  exists (rne N (2 ^ k * D)). rewrite (round_aux_spec _ _ _ _ _ _ Hi), HE by (try left; lia).
  replace (e + k - e) with k by lia. split; [done|]. split; [|apply rne_error; nia].
  pose proof (digits_bounds m) as Hb. rewrite Hd in Hb.
  replace (24 + k - 1) with (23 + k) in Hb by lia. rewrite !Z.pow_add_r in Hb by lia.
  pose proof (Z.mul_div_le N D HD) as Hle. split.
  - apply rne_lower; [nia|]. assert (2 ^ 23 * 2 ^ k * D <= N / D * D) by (apply Z.mul_le_mono_nonneg_r; lia). lia.
  - apply rne_range; [done|nia|]. rewrite Z.mul_comm, <- Z.div_div, <- Hm by lia.
    apply Z.div_lt_upper_bound; lia.
Qed.

Lemma mul_normal s1 m1 e1 s2 m2 e2 : normal m1 -> normal m2 -> -149 <= e1 + e2 + 23 < 103 ->
  exists k R, (SFmul prec emax (S754_finite s1 m1 e1) (S754_finite s2 m2 e2)) =
      finish (xorb s1 s2) R (e1 + e2 + k) /\
    (k = 23 \/ k = 24) /\ 2 ^ 23 <= R <= 2 ^ 24 /\
    2 * Z.abs (2 ^ k * R - Z.pos m1 * Z.pos m2) <= 2 ^ k.
Proof.
  intros H1 H2 He. unfold normal in *. simpl SFmul.
  assert (Hd : digits (m1 * m2) = 47 \/ digits (m1 * m2) = 48).
  { destruct (Z.lt_ge_cases (Z.pos (m1 * m2)) (2 ^ 47)).
    - left. apply digits_eq; [done|]. split; [|done]. rewrite Pos2Z.inj_mul. change (2 ^ (47 - 1)) with (2 ^ 23 * 2 ^ 23).
      apply Z.mul_le_mono_nonneg; lia.
    - right. apply digits_eq; [done|]. split; [done|]. rewrite Pos2Z.inj_mul. change (2 ^ 48) with (2 ^ 24 * 2 ^ 24).
      apply Z.mul_lt_mono_nonneg; lia. }
  set (k := digits (m1 * m2) - 24). exists k.
  destruct (round_normal (xorb s1 s2) (m1 * m2) (e1 + e2) loc_Exact (Z.pos (m1 * m2)) 1 k)
    as (R & Hr & HR & He'); [by apply exact_inb|lia..|].
  exists R. split; [done|]. split; [lia|]. split; [done|].
  rewrite Z.mul_1_r in He'. by rewrite <- Pos2Z.inj_mul.
Qed.

Lemma div_normal s1 m1 e1 s2 m2 e2 : normal m1 -> normal m2 -> -149 <= e1 - e2 - 24 < 103 ->
  exists k R, (SFdiv prec emax (S754_finite s1 m1 e1) (S754_finite s2 m2 e2)) =
      finish (xorb s1 s2) R (e1 - e2 - 24 + k) /\
    (k = 0 \/ k = 1) /\ 2 ^ 23 <= R <= 2 ^ 24 /\
    2 * Z.abs (2 ^ k * Z.pos m2 * R - Z.pos m1 * 2 ^ 24) <= 2 ^ k * Z.pos m2.
Proof.
  intros H1 H2 He. simpl SFdiv. unfold SFdiv_core_binary. simpl Zdigits2.
  rewrite (proj2 (normal_digits m1) H1), (proj2 (normal_digits m2) H2). unfold normal in *.
  replace (Z.min (fexp (24 + e1 - (24 + e2))) (e1 - e2)) with (e1 - e2 - 24) by (rewrite fexp_eq; lia).
  replace (e1 - e2 - (e1 - e2 - 24)) with 24 by lia. rewrite Z.shiftl_mul_pow2 by lia.
  set (N := Z.pos m1 * 2 ^ 24). assert (HN : 0 <= N) by lia.
  pose proof (location_inb N (Z.pos m2) HN ltac:(lia)) as Hi. revert Hi.
  pose proof (Z.div_mod N (Z.pos m2) ltac:(lia)) as Hdm.
  pose proof (Z.mod_pos_bound N (Z.pos m2) ltac:(lia)) as Hmod. revert Hdm Hmod.
  unfold Z.div, Z.modulo. destruct (Z.div_eucl N (Z.pos m2)) as [q r] eqn:Hq. intros Hdm Hmod Hi.
  assert (Hq1 : 2 ^ 23 <= q < 2 ^ 25) by nia.
  destruct q as [|q|q]; [lia| |lia].
  assert (Hd : digits q = 24 \/ digits q = 25).
  { destruct (Z.lt_ge_cases (Z.pos q) (2 ^ 24)); [left|right]; apply digits_eq; simpl; lia. }
  set (k := digits q - 24). exists k.
  destruct (round_normal (xorb s1 s2) q (e1 - e2 - 24) (new_location (Z.pos m2) r) N (Z.pos m2) k)
    as (R & Hr & HR & He'); [done|lia..|].
  exists R. split; [done|]. split; [lia|]. done.
Qed.

(** The integer part of a result. *)
Lemma trunc_finish s R E : 2 ^ 23 <= R <= 2 ^ 24 -> E < 0 ->
  f32_trunc (finish s R E) = Some (if s then - (R / 2 ^ (- E)) else R / 2 ^ (- E)).
Proof.
  intros HR HE. destruct (finish_normal s R E HR) as (m & c & -> & _ & [[-> Hm]|[-> Hm]]); simpl f32_trunc.
  - rewrite Z.add_0_r, (proj2 (Z.leb_gt _ _)), Hm by lia. done.
  - assert (Hh : R / 2 ^ (- E) = if 0 <=? E + 1 then Z.pos m * 2 ^ (E + 1) else Z.pos m / 2 ^ (- (E + 1))).
    { rewrite <- Hm. destruct (Z.leb_spec 0 (E + 1)).
      - replace E with (-1) by lia. rewrite Z.mul_comm. change (2 ^ (- -1)) with 2.
        rewrite Z.div_mul by lia. simpl. lia.
      - replace (- E) with (1 + - (E + 1)) by lia. rewrite Z.pow_add_r by lia.
        rewrite <- Z.div_div by (try apply Z.pow_pos_nonneg; lia).
        change (2 ^ 1) with 2. by rewrite (Z.mul_comm 2), Z.div_mul by lia. }
    rewrite Hh. by destruct (0 <=? E + 1).
Qed.

(** 100.0f and 0.01f *)
Definition f100 : spec_float := f32_of_Z 100.
Definition f001 : spec_float := f32_lit 10737418 (-30).

(** The sign of a length, and its amount. *)
Lemma of_Z_split a : Z.abs a < 2 ^ 24 -> a <> 0 ->
  exists m, f32_of_Z a = S754_finite (a <? 0) m (digits (Z.to_pos (Z.abs a)) - 24) /\ normal m /\
    Z.pos m = Z.abs a * 2 ^ (24 - digits (Z.to_pos (Z.abs a))) /\
    1 <= digits (Z.to_pos (Z.abs a)) <= 24.
Proof.
  intros Ha Hz. rewrite of_Z_int by done. 
  destruct a as [|a|a]; [done|..]; (exists (Z.to_pos (Z.pos a * 2 ^ (24 - digits a)))); simpl Z.abs; simpl Z.to_pos;
    (destruct (of_int_mantissa a) as [H1 H2]; [done|]); (split; [done|]);
    rewrite <- normal_digits, Z2Pos.id by (apply Z.mul_pos_pos; [lia|apply Z.pow_pos_nonneg; lia]); done.
Qed.


(** Lengths in centimetres: they fit the 24 bits of an altitude. *)
Definition max_cm : Z := 8300000.

(** The arithmetic of [a / 100.0f * 100.0f] for a length of mantissa [M = a * P]:
    the result is [R2 * 2^(k1+c+k2) / (P * 2^24)]. *)
Lemma div_back_core M P k1 R1 m c k2 R2 :
  2 ^ 23 <= M < 2 ^ 24 -> (P = 2 /\ M <= 2 * max_cm \/ 4 <= P) ->
  (k1 = 0 \/ k1 = 1) -> 2 ^ 23 <= R1 <= 2 ^ 24 ->
  2 * Z.abs (2 ^ k1 * 13107200 * R1 - M * 2 ^ 24) <= 2 ^ k1 * 13107200 ->
  normal m -> (c = 0 /\ Z.pos m = R1 \/ c = 1 /\ 2 * Z.pos m = R1) ->
  (k2 = 23 \/ k2 = 24) -> 2 ^ 23 <= R2 <= 2 ^ 24 ->
  2 * Z.abs (2 ^ k2 * R2 - Z.pos m * 13107200) <= 2 ^ k2 ->
  M * 2 ^ 24 - P * 2 ^ 24 <= R2 * 2 ^ (k1 + c + k2) < M * 2 ^ 24 + P * 2 ^ 24 /\
  k1 + c + k2 <= 25 /\ (P = 2 -> k1 + c + k2 <= 24).
Proof.
  unfold normal, max_cm. intros HM HP Hk1 HR1 H1 Hm Hc Hk2 HR2 H2.
  destruct Hk1 as [-> | ->], Hc as [[-> Hc]|[-> Hc]], Hk2 as [-> | ->]; simpl Z.add;
    repeat match goal with |- context [2 ^ ?n] => let v := eval vm_compute in (2 ^ n) in change (2 ^ n) with v end;
    repeat match goal with H : context [2 ^ ?n] |- _ => let v := eval vm_compute in (2 ^ n) in change (2 ^ n) with v in H end;
    destruct HP as [[-> HP]|HP]; lia.
Qed.

(** The same for [a * 0.01f * 100.0f], the result being
    [R2 * 2^(k1+c+k2) / (P * 2^47)]. *)
Lemma mul_back_core M P k1 R1 m c k2 R2 :
  2 ^ 23 <= M < 2 ^ 24 -> (P = 2 /\ M <= 2 * max_cm \/ 4 <= P) ->
  (k1 = 23 \/ k1 = 24) -> 2 ^ 23 <= R1 <= 2 ^ 24 ->
  2 * Z.abs (2 ^ k1 * R1 - M * 10737418) <= 2 ^ k1 ->
  normal m -> (c = 0 /\ Z.pos m = R1 \/ c = 1 /\ 2 * Z.pos m = R1) ->
  (k2 = 23 \/ k2 = 24) -> 2 ^ 23 <= R2 <= 2 ^ 24 ->
  2 * Z.abs (2 ^ k2 * R2 - Z.pos m * 13107200) <= 2 ^ k2 ->
  M * 2 ^ 47 - P * 2 ^ 47 <= R2 * 2 ^ (k1 + c + k2) < M * 2 ^ 47 + P * 2 ^ 47 /\
  k1 + c + k2 <= 48 /\ (P = 2 -> k1 + c + k2 <= 47).
Proof.
  unfold normal, max_cm. intros HM HP Hk1 HR1 H1 Hm Hc Hk2 HR2 H2.
  destruct Hk1 as [-> | ->], Hc as [[-> Hc]|[-> Hc]], Hk2 as [-> | ->]; simpl Z.add;
    repeat match goal with |- context [2 ^ ?n] => let v := eval vm_compute in (2 ^ n) in change (2 ^ n) with v end;
    repeat match goal with H : context [2 ^ ?n] |- _ => let v := eval vm_compute in (2 ^ n) in change (2 ^ n) with v in H end;
    destruct HP as [[-> HP]|HP]; lia.
Qed.

(** The integer part of such a result. *)
Lemma trunc_back s A d R j t : 0 <= t -> 1 <= d <= 23 -> 0 <= j -> 2 ^ 23 <= R <= 2 ^ 24 ->
  A * 2 ^ (24 - d) * 2 ^ t - 2 ^ (24 - d) * 2 ^ t <= R * 2 ^ j < A * 2 ^ (24 - d) * 2 ^ t + 2 ^ (24 - d) * 2 ^ t ->
  d - 24 - t + j < 0 ->
  exists b, f32_trunc (finish s R (d - 24 - t + j)) = Some (if s then - b else b) /\ (b = A \/ b = A - 1).
Proof.
  intros Ht Hd Hj HR HB HE. rewrite trunc_finish by done. exists (R / 2 ^ (- (d - 24 - t + j))).
  split; [done|]. set (Q := 2 ^ (- (d - 24 - t + j))).
  assert (HQ : 0 < Q) by (apply Z.pow_pos_nonneg; lia).
  assert (Hj' : 0 < 2 ^ j) by (apply Z.pow_pos_nonneg; lia).
  assert (HP : 2 ^ (24 - d) * 2 ^ t = Q * 2 ^ j)
    by (unfold Q; rewrite <- !Z.pow_add_r by lia; f_equal; lia).
  rewrite <- Z.mul_assoc, HP in HB. clearbody Q. clear HP HE.
  assert ((A - 1) * Q <= R < (A + 1) * Q) as [H1 H2].
  { split; [apply (Z.mul_le_mono_pos_r _ _ (2 ^ j))|apply (Z.mul_lt_mono_pos_r (2 ^ j))]; nia. }
  assert (A - 1 <= R / Q) by (apply Z.div_le_lower_bound; lia).
  assert (R / Q < A + 1) by (apply Z.div_lt_upper_bound; lia). lia.
Qed.

Lemma scaled_length a : 0 < Z.abs a <= max_cm ->
  exists d m, f32_of_Z a = S754_finite (a <? 0) m (d - 24) /\ normal m /\ 1 <= d <= 23 /\
    Z.pos m = Z.abs a * 2 ^ (24 - d) /\
    (2 ^ (24 - d) = 2 /\ Z.pos m <= 2 * max_cm \/ 4 <= 2 ^ (24 - d)).
Proof.
  unfold max_cm. intros Ha. destruct (of_Z_split a ltac:(lia) ltac:(lia)) as (m & Hf & Hm & Hv & Hd).
  set (d := digits (Z.to_pos (Z.abs a))) in *. exists d, m. split; [done|]. split; [done|].
  assert (d <= 23) by (apply digits_le; lia). split; [lia|]. split; [done|]. clearbody d.
  destruct (decide (d = 23)) as [->|]; [left; split; [done|]; change (2 ^ (24 - 23)) with 2 in Hv; lia|right].
  change 4 with (2 ^ 2). apply Z.pow_le_mono_r; lia.
Qed.

Lemma centi_div a : Z.abs a <= max_cm ->
  exists b, f32_trunc (f32_of_Z a / f100 * f100)%f32 = Some b /\ (b = a \/ b = a - Z.sgn a).
Proof.
  intros Ha. destruct (decide (a = 0)) as [->|Hz]; [exists 0; split; [reflexivity|lia]|].
  destruct (scaled_length a ltac:(lia)) as (d & m1 & -> & Hm1 & Hd & Hv & HP).
  change f100 with (S754_finite false 13107200 (-17)).
  destruct (div_normal (a <? 0) m1 (d - 24) false 13107200 (-17)) as (k1 & R1 & -> & Hk1 & HR1 & H1);
    [done|done|lia|].
  destruct (finish_normal (xorb (a <? 0) false) R1 (d - 24 - -17 - 24 + k1) HR1) as (m & c & -> & Hm & Hc).
  destruct (mul_normal (xorb (a <? 0) false) m (d - 24 - -17 - 24 + k1 + c) false 13107200 (-17))
    as (k2 & R2 & -> & Hk2 & HR2 & H2); [done|done|lia|].
  rewrite !xorb_false_r.
  destruct (div_back_core (Z.pos m1) (2 ^ (24 - d)) k1 R1 m c k2 R2) as (HB & Hj & HjP); try done.
  replace (d - 24 - -17 - 24 + k1 + c + -17 + k2) with (d - 24 - 24 + (k1 + c + k2)) by lia.
  rewrite Hv in HB.
  destruct (trunc_back (a <? 0) (Z.abs a) d R2 (k1 + c + k2) 24) as (b & -> & Hb); [lia..|done|done| |].
  - destruct (decide (d = 23)) as [->|]; [|lia]. specialize (HjP eq_refl). lia.
  - eexists. split; [done|]. clear - Hb Hz. destruct (Z.ltb_spec a 0); lia.
Qed.

Lemma centi_mul a : Z.abs a <= max_cm ->
  exists b, f32_trunc (f32_of_Z a * f001 * f100)%f32 = Some b /\ (b = a \/ b = a - Z.sgn a).
Proof.
  intros Ha. destruct (decide (a = 0)) as [->|Hz]; [exists 0; split; [reflexivity|lia]|].
  destruct (scaled_length a ltac:(lia)) as (d & m1 & -> & Hm1 & Hd & Hv & HP).
  change f100 with (S754_finite false 13107200 (-17)). change f001 with (S754_finite false 10737418 (-30)).
  destruct (mul_normal (a <? 0) m1 (d - 24) false 10737418 (-30)) as (k1 & R1 & -> & Hk1 & HR1 & H1);
    [done|done|lia|].
  destruct (finish_normal (xorb (a <? 0) false) R1 (d - 24 + -30 + k1) HR1) as (m & c & -> & Hm & Hc).
  destruct (mul_normal (xorb (a <? 0) false) m (d - 24 + -30 + k1 + c) false 13107200 (-17))
    as (k2 & R2 & -> & Hk2 & HR2 & H2); [done|done|lia|].
  rewrite !xorb_false_r.
  destruct (mul_back_core (Z.pos m1) (2 ^ (24 - d)) k1 R1 m c k2 R2) as (HB & Hj & HjP); try done.
  replace (d - 24 + -30 + k1 + c + -17 + k2) with (d - 24 - 47 + (k1 + c + k2)) by lia.
  rewrite Hv in HB.
  destruct (trunc_back (a <? 0) (Z.abs a) d R2 (k1 + c + k2) 47) as (b & -> & Hb); [lia..|done|done| |].
  - destruct (decide (d = 23)) as [->|]; [|lia]. specialize (HjP eq_refl). lia.
  - eexists. split; [done|]. clear - Hb Hz. destruct (Z.ltb_spec a 0); lia.
Qed.

(** An integer of 24 bits comes back from a mantissa with more of them. *)
Lemma digits_shift x n : 0 <= n -> digits (Z.to_pos (Z.pos x * 2 ^ n)) = digits x + n.
Proof.
  intros Hn. assert (Hp : 0 < 2 ^ n) by (apply Z.pow_pos_nonneg; lia).
  pose proof (digits_bounds x) as [Hl Hh]. apply digits_eq; [lia|].
  rewrite Z2Pos.id by (apply Z.mul_pos_pos; lia). 
  replace (digits x + n - 1) with (digits x - 1 + n) by lia. rewrite !Z.pow_add_r by lia. split.
  - apply Z.mul_le_mono_nonneg_r; lia.
  - by apply Z.mul_lt_mono_pos_r.
Qed.

Lemma round_aux_int s x n : Z.pos x < 2 ^ 24 -> 24 - digits x <= n <= 100 ->
  binary_round_aux prec emax s (Z.pos x * 2 ^ n) (- n) loc_Exact = of_int s x.
Proof.
  intros Hx Hn. destruct (of_int_mantissa x Hx) as [Hd Hx'].
  assert (Hp : 0 < 2 ^ n) by (apply Z.pow_pos_nonneg; lia).
  assert (HE : round_exp (Z.pos x * 2 ^ n) (- n) = digits x - 24).
  { unfold round_exp. rewrite <- (Z2Pos.id (Z.pos x * 2 ^ n)) by (apply Z.mul_pos_pos; lia).
    simpl Zdigits2. rewrite digits_shift, fexp_eq by lia. lia. }
  rewrite (round_aux_spec _ _ _ _ (Z.pos x * 2 ^ n) 1), HE; [|apply exact_inb; lia|lia|left; lia].
  replace (2 ^ n) with (2 ^ (24 - digits x) * 2 ^ (digits x - 24 - - n))
    by (rewrite <- Z.pow_add_r by lia; f_equal; lia).
  rewrite Z.mul_assoc, Z.mul_1_r, rne_exact by (apply Z.pow_pos_nonneg; lia).
  apply normal_digits in Hd. unfold normal in Hd.
  assert (0 < Z.pos x * 2 ^ (24 - digits x)) by (apply Z.mul_pos_pos; [lia|apply Z.pow_pos_nonneg; lia]).
  rewrite Z2Pos.id in Hd by done. unfold finish. rewrite (proj2 (Z.eqb_neq _ _)) by lia.
  unfold of_int. by destruct (Z.pos x * _).
Qed.

(** The product of two integers is exact when it has 24 bits. *)
Lemma mul_of_int sa a sb b : Z.pos a * Z.pos b < 2 ^ 24 ->
  SFmul prec emax (of_int sa a) (of_int sb b) = of_int (xorb sa sb) (a * b).
Proof.
  intros Hab. assert (Ha : Z.pos a * 1 <= Z.pos a * Z.pos b) by (apply Z.mul_le_mono_nonneg_l; lia).
  assert (Hb : 1 * Z.pos b <= Z.pos a * Z.pos b) by (apply Z.mul_le_mono_nonneg_r; lia).
  destruct (of_int_mantissa a ltac:(lia)) as [_ Ha2]. destruct (of_int_mantissa b ltac:(lia)) as [_ Hb2].
  assert (Hpa : 0 < 2 ^ (24 - digits a)) by (apply Z.pow_pos_nonneg; lia).
  assert (Hpb : 0 < 2 ^ (24 - digits b)) by (apply Z.pow_pos_nonneg; lia).
  unfold of_int at 1 2. unfold SFmul.
  rewrite <- (round_aux_int _ (a * b) (48 - digits a - digits b)).
  - f_equal; [|lia]. rewrite Pos2Z.inj_mul, !Z2Pos.id by (apply Z.mul_pos_pos; lia).
    replace (48 - digits a - digits b) with (24 - digits a + (24 - digits b)) by lia.
    rewrite Z.pow_add_r by lia. rewrite Pos2Z.inj_mul. ring.
  - lia.
  - assert (digits a + digits b - 1 <= digits (a * b)); [|lia].
    pose proof (digits_bounds a) as [Hla _]. pose proof (digits_bounds b) as [Hlb _].
    pose proof (digits_bounds (a * b)) as [_ Hh].
    assert (Hlt : 2 ^ (digits a - 1) * 2 ^ (digits b - 1) < 2 ^ digits (a * b)).
    { eapply Z.le_lt_trans; [|exact Hh]. rewrite Pos2Z.inj_mul. apply Z.mul_le_mono_nonneg; try done; apply Z.pow_nonneg; lia. }
    rewrite <- Z.pow_add_r in Hlt by lia. apply Z.pow_lt_mono_r_iff in Hlt; lia.
Qed.

Lemma mul_of_Z a b : Z.abs (a * b) < 2 ^ 24 -> a <> 0 -> b <> 0 ->
  (f32_of_Z a * f32_of_Z b)%f32 = f32_of_Z (a * b).
Proof.
  intros Hab Ha Hb. assert (Z.abs a < 2 ^ 24 /\ Z.abs b < 2 ^ 24) as [? ?].
  { rewrite Z.abs_mul in Hab. split; nia. }
  rewrite !of_Z_int by done. destruct a as [|a|a], b as [|b|b]; try done;
    simpl Z.mul; apply mul_of_int; lia.
Qed.

(** * Any number in memory *)

(** A number of the format; the 32 bits of a float are one. *)
Definition valid (x : spec_float) : Prop :=
  match x with S754_finite _ m e => canonical m e | _ => True end.

Lemma f32_of_bits_valid b : 0 <= b < 2 ^ 32 -> valid (f32_of_bits b).
Proof.
  intros Hb. unfold f32_of_bits. set (e := (b / 2 ^ 23) mod 2 ^ 8).
  assert (He : 0 <= e < 2 ^ 8) by (by apply Z.mod_pos_bound).
  assert (Hm : 0 <= b mod 2 ^ 23 < 2 ^ 23) by (by apply Z.mod_pos_bound).
  destruct (Z.eqb_spec e 255); [by destruct (_ =? 0)|].
  assert (Hv : valid (if e =? 0 then f32_lit (b mod 2 ^ 23) (-149)
                      else f32_lit (b mod 2 ^ 23 + 2 ^ 23) (e - 150))).
  { destruct (Z.eqb_spec e 0).
    - destruct (b mod 2 ^ 23) as [|m|m]; [done| |lia]. unfold f32_lit, binary_normalize, binary_round.
      pose proof (digits_le m 23 ltac:(lia)). rewrite fexp_eq, Z.max_r, shl_align_spec by lia.
      change (2 ^ (-149 - -149)) with 1. rewrite Z.mul_1_r. simpl Z.to_pos.
      rewrite round_aux_canonical by (split; [right|]; lia). split; [right|]; lia.
    - replace (b mod 2 ^ 23 + 2 ^ 23) with (Z.pos (Z.to_pos (b mod 2 ^ 23 + 2 ^ 23))) by lia.
      set (m := Z.to_pos _). assert (Hd : digits m = 24) by (apply digits_eq; unfold m; lia).
      rewrite f32_lit_normal by lia. split; [left|]; lia. }
  destruct (Z.testbit b 31); [|done]. by destruct (if e =? 0 then _ else _).
Qed.

(** An altitude in metres below 83 km converts to centimetres that fit. *)
Lemma trunc_small s R E : 0 <= R <= 2 ^ 24 -> E <= -30 -> f32_trunc (finish s R E) = Some 0.
Proof.
  intros HR HE. unfold finish.
  assert (Hd : forall m, 0 <= m <= 2 ^ 24 -> forall e, e <= -29 -> m / 2 ^ (- e) = 0).
  { intros m Hm e He. apply Z.div_small. assert (2 ^ 29 <= 2 ^ (- e)) by (apply Z.pow_le_mono_r; lia). lia. }
  destruct (Z.eqb_spec R (2 ^ 24)) as [->|]; [|destruct R as [|r|r]; [done| |lia]]; simpl f32_trunc;
    rewrite (proj2 (Z.leb_gt _ _)), Hd by lia; by destruct s.
Qed.

Lemma leb_finite m1 e1 s m2 e2 :
  SFleb (S754_finite false m1 e1) (SFabs (S754_finite s m2 e2)) = false ->
  e2 < e1 \/ e2 = e1 /\ Z.pos m2 < Z.pos m1.
Proof.
  unfold SFleb, SFcompare, SFabs. destruct (Z.compare_spec e1 e2) as [->| |]; [|done|by left].
  change (Pos.compare_cont Eq m1 m2) with (m1 ?= m2)%positive.
  destruct (Pos.compare_spec m1 m2); [done|done|]. right. lia.
Qed.

Lemma metres_to_cm x : valid x -> x <> S754_nan -> SFleb (f32_of_Z 83000) (SFabs x) = false ->
  exists v, f32_trunc (x * f100)%f32 = Some v /\ Z.abs v < max_cm.
Proof.
  unfold max_cm. intros Hv Hn Hl. destruct x as [s|s| |s m e]; [by exists 0|done|done|].
  change f100 with (S754_finite false 13107200 (-17)).
  change (f32_of_Z 83000) with (S754_finite false 10624000 (-7)) in Hl.
  assert (Hlt : e < -7 \/ e = -7 /\ Z.pos m < 10624000).
  { apply leb_finite in Hl. lia. }
  destruct (Z.le_gt_cases e (-60)) as [Hs|Hs].
  - simpl SFmul. pose proof (canonical_lt m e Hv) as Hm. destruct Hv as [Hc He].
    set (E := round_exp (Z.pos (m * 13107200)) (e + -17)).
    assert (Hd : digits (m * 13107200) <= 48) by (apply digits_le; lia).
    assert (HE : e + -17 <= E <= e + 7) by (unfold E, round_exp; simpl Zdigits2; rewrite fexp_eq; lia).
    rewrite (round_aux_spec _ _ _ _ (Z.pos (m * 13107200)) 1); [|by apply exact_inb|unfold E in HE; lia|unfold E in HE; lia].
    fold E. exists 0. split; [|lia]. apply trunc_small; [|lia].
    set (q := 2 ^ (E - (e + -17)) * 1).
    assert (0 < q) by (unfold q; rewrite Z.mul_1_r; apply Z.pow_pos_nonneg; lia).
    apply rne_range; [lia|done|]. apply Z.div_lt_upper_bound; [done|].
    unfold q. rewrite Z.mul_1_r, Z.mul_comm, <- Z.pow_add_r by lia.
    eapply Z.lt_le_trans; [apply digits_bounds|]. apply Z.pow_le_mono_r; [lia|].
    unfold E, round_exp. simpl Zdigits2. rewrite fexp_eq. lia.
  - assert (Hm : normal m) by (apply normal_digits; destruct Hv as [[]]; lia).
    destruct (mul_normal s m e false 13107200 (-17)) as (k & R & -> & Hk & HR & He); [done|done|lia|].
    unfold normal in Hm. assert (e = -7 -> k = 23).
    { intros ->. destruct Hk as [-> | ->]; [done|]. change (2 ^ 24) with 16777216 in He. lia. }
    rewrite trunc_finish by lia. eexists. split; [done|].
    set (v := R / _). assert (0 <= v < 8300000); [|destruct (xorb s false); lia].
    subst v. split; [apply Z.div_pos; [lia|apply Z.pow_pos_nonneg; lia]|].
    assert (Hlt' : R < 8300000 * 2 ^ (- (e + -17 + k))); [|rewrite Z.mul_comm in Hlt';
      apply Z.div_lt_upper_bound in Hlt'; [lia|apply Z.pow_pos_nonneg; lia]].
    destruct (decide (e = -7)) as [->|].
    + destruct Hk as [-> | ->]; simpl in *; lia.
    + destruct (decide (e = -8)) as [->|]; [destruct Hk as [-> | ->]; simpl in *; lia|].
      assert (2 ^ 2 <= 2 ^ (- (e + -17 + k))) by (apply Z.pow_le_mono_r; lia). lia.
Qed.

(** Fewer centimetres than the bound make a number of metres below 83 km. *)
Lemma metres_below s m e : e < -7 \/ e = -7 /\ Z.pos m < 10624000 ->
  SFleb (f32_of_Z 83000) (SFabs (S754_finite s m e)) = false.
Proof.
  intros H. change (f32_of_Z 83000) with (S754_finite false 10624000 (-7)).
  generalize dependent 10624000%positive. intros p H. unfold SFleb, SFcompare, SFabs.
  destruct (Z.compare_spec (-7) e); [|lia|done].
  change (Pos.compare_cont Eq p m) with (p ?= m)%positive.
  destruct (Pos.compare_spec p m); [lia|lia|done].
Qed.

Lemma centi_div_plain a : Z.abs a < max_cm -> plain (f32_of_Z a / f100)%f32 /\
  SFleb (f32_of_Z 83000) (SFabs (f32_of_Z a / f100)%f32) = false.
Proof.
  unfold max_cm. intros Ha. destruct (decide (a = 0)) as [->|Hz]; [done|].
  destruct (scaled_length a ltac:(unfold max_cm; lia)) as (d & m1 & -> & Hm1 & Hd & Hv & HP).
  change f100 with (S754_finite false 13107200 (-17)).
  destruct (div_normal (a <? 0) m1 (d - 24) false 13107200 (-17)) as (k1 & R1 & -> & Hk1 & HR1 & H1);
    [done|done|lia|].
  destruct (finish_normal (xorb (a <? 0) false) R1 (d - 24 - -17 - 24 + k1) HR1) as (m & c & -> & Hm & Hc).
  split; [split; [by apply normal_digits|lia]|]. apply metres_below.
  destruct (decide (d = 23)) as [->|].
  - change (2 ^ (24 - 23)) with 2 in *. unfold normal in *.
    destruct Hk1 as [-> | ->]; [simpl in *; lia|].
    change (2 ^ 1 * 13107200) with 26214400 in H1. change (2 ^ 24) with 16777216 in *.
    change (2 ^ 23) with 8388608 in *. clear - Hv Ha H1 HR1 Hm Hc. lia.
  - destruct Hc as [[-> Hc]|[-> Hc]]; lia.
Qed.

Lemma centi_mul_plain a : Z.abs a < max_cm -> plain (f32_of_Z a * f001)%f32 /\
  SFleb (f32_of_Z 83000) (SFabs (f32_of_Z a * f001)%f32) = false.
Proof.
  unfold max_cm. intros Ha. destruct (decide (a = 0)) as [->|Hz]; [done|].
  destruct (scaled_length a ltac:(unfold max_cm; lia)) as (d & m1 & -> & Hm1 & Hd & Hv & HP).
  change f001 with (S754_finite false 10737418 (-30)).
  destruct (mul_normal (a <? 0) m1 (d - 24) false 10737418 (-30)) as (k1 & R1 & -> & Hk1 & HR1 & H1);
    [done|done|lia|].
  destruct (finish_normal (xorb (a <? 0) false) R1 (d - 24 + -30 + k1) HR1) as (m & c & -> & Hm & Hc).
  split; [split; [by apply normal_digits|lia]|]. apply metres_below.
  destruct (decide (d = 23)) as [->|].
  - change (2 ^ (24 - 23)) with 2 in *. unfold normal in *.
    destruct Hk1 as [-> | ->]; [simpl in *; lia|].
    change (2 ^ 24) with 16777216 in *.
    change (2 ^ 23) with 8388608 in *. clear - Hv Ha H1 HR1 Hm Hc. lia.
  - destruct Hc as [[-> Hc]|[-> Hc]]; lia.
Qed.
