(* ===== verification/MissionItem.v ===== *)
(** The commands of a mission as MAVLink items: the conversions of
    libraries/AP_Mission/AP_Mission.cpp between the packet of a MISSION_ITEM_INT
    or MISSION_ITEM message and a [Mission_Command].

    The numbers of the generated MAVLink headers are a class.  A float of a packet
    is its 32 bits; a member of the union [Content] is read and written at its
    offset in the 12 bytes.  The build (plane or not, with terrain or not) is a
    parameter.  [None] is undefined behaviour: a float converted to an integer
    type that cannot hold it. *)
From S2P Require Import Prelude Float32 Mission.
Open Scope urus_scope.

(** * The numbers *)

(** The commands that the conversions know: the cases of their [switch]. *)
Inductive kind :=
| NAV_WAYPOINT | NAV_LOITER_UNLIM | NAV_LOITER_TURNS | NAV_LOITER_TIME
| NAV_RETURN_TO_LAUNCH | NAV_LAND | NAV_TAKEOFF | NAV_CONTINUE_AND_CHANGE_ALT
| NAV_LOITER_TO_ALT | NAV_SPLINE_WAYPOINT | NAV_GUIDED_ENABLE | NAV_DELAY
| CONDITION_DELAY | CONDITION_DISTANCE | CONDITION_YAW
| DO_SET_MODE | DO_JUMP | DO_CHANGE_SPEED | DO_SET_HOME | DO_SET_RELAY
| DO_REPEAT_RELAY | DO_SET_SERVO | DO_REPEAT_SERVO | DO_LAND_START | DO_SET_ROI
| DO_DIGICAM_CONFIGURE | DO_DIGICAM_CONTROL | DO_MOUNT_CONTROL
| DO_SET_CAM_TRIGG_DIST | DO_FENCE_ENABLE | DO_PARACHUTE | DO_INVERTED_FLIGHT
| DO_GRIPPER | DO_GUIDED_LIMITS | DO_AUTOTUNE_ENABLE | NAV_ALTITUDE_WAIT
| NAV_VTOL_TAKEOFF | NAV_VTOL_LAND | DO_VTOL_TRANSITION | DO_SET_REVERSE
| DO_ENGINE_CONTROL | NAV_PAYLOAD_PLACE | NAV_SET_YAW_SPEED | DO_WINCH.

#[export] Instance kind_eq_dec : EqDecision kind.
Proof. solve_decision. Defined.

Definition kinds : list kind :=
  [NAV_WAYPOINT; NAV_LOITER_UNLIM; NAV_LOITER_TURNS; NAV_LOITER_TIME;
   NAV_RETURN_TO_LAUNCH; NAV_LAND; NAV_TAKEOFF; NAV_CONTINUE_AND_CHANGE_ALT;
   NAV_LOITER_TO_ALT; NAV_SPLINE_WAYPOINT; NAV_GUIDED_ENABLE; NAV_DELAY;
   CONDITION_DELAY; CONDITION_DISTANCE; CONDITION_YAW;
   DO_SET_MODE; DO_JUMP; DO_CHANGE_SPEED; DO_SET_HOME; DO_SET_RELAY;
   DO_REPEAT_RELAY; DO_SET_SERVO; DO_REPEAT_SERVO; DO_LAND_START; DO_SET_ROI;
   DO_DIGICAM_CONFIGURE; DO_DIGICAM_CONTROL; DO_MOUNT_CONTROL;
   DO_SET_CAM_TRIGG_DIST; DO_FENCE_ENABLE; DO_PARACHUTE; DO_INVERTED_FLIGHT;
   DO_GRIPPER; DO_GUIDED_LIMITS; DO_AUTOTUNE_ENABLE; NAV_ALTITUDE_WAIT;
   NAV_VTOL_TAKEOFF; NAV_VTOL_LAND; DO_VTOL_TRANSITION; DO_SET_REVERSE;
   DO_ENGINE_CONTROL; NAV_PAYLOAD_PLACE; NAV_SET_YAW_SPEED; DO_WINCH].

(** Numbers of the generated MAVLink headers: [MAV_CMD_<kind>], the last of the
    navigation commands, and the frames. *)
Class MavNumbers := {
  mav_cmd : kind -> Z;
  NAV_LAST : Z;
  MAV_FRAME_MISSION : Z;
  MAV_FRAME_GLOBAL : Z;
  MAV_FRAME_GLOBAL_RELATIVE_ALT : Z;
  MAV_FRAME_GLOBAL_TERRAIN_ALT : Z
}.

(** The numbers that the mission itself uses. *)
#[export] Instance mission_cmds `{MavNumbers} : MavCmds := {
  MAV_CMD_NAV_WAYPOINT := mav_cmd NAV_WAYPOINT;
  MAV_CMD_NAV_TAKEOFF := mav_cmd NAV_TAKEOFF;
  MAV_CMD_NAV_GUIDED_ENABLE := mav_cmd NAV_GUIDED_ENABLE;
  MAV_CMD_NAV_DELAY := mav_cmd NAV_DELAY;
  MAV_CMD_NAV_LAST := NAV_LAST;
  MAV_CMD_DO_JUMP := mav_cmd DO_JUMP;
  MAV_CMD_DO_LAND_START := mav_cmd DO_LAND_START;
  MAV_CMD_NAV_SET_YAW_SPEED := mav_cmd NAV_SET_YAW_SPEED
}.

(** [MAV_MISSION_RESULT] *)
Inductive MAV_MISSION_RESULT :=
| MAV_MISSION_ACCEPTED | MAV_MISSION_ERROR | MAV_MISSION_UNSUPPORTED_FRAME
| MAV_MISSION_UNSUPPORTED | MAV_MISSION_NO_SPACE | MAV_MISSION_INVALID
| MAV_MISSION_INVALID_PARAM5_X | MAV_MISSION_INVALID_PARAM6_Y
| MAV_MISSION_INVALID_PARAM7 | MAV_MISSION_INVALID_SEQUENCE.

#[export] Instance MAV_MISSION_RESULT_eq_dec : EqDecision MAV_MISSION_RESULT.
Proof. solve_decision. Defined.

(** [mavlink_mission_item_int_t], and [mavlink_mission_item_t], whose [x] and [y]
    are floats. *)
Record mission_item := Item {
  param1 : Z; param2 : Z; param3 : Z; param4 : Z;
  item_x : Z; item_y : Z; item_z : Z;
  item_seq : Z; item_command : Z;
  target_system : Z; target_component : Z;
  item_frame : Z; item_current : Z; autocontinue : Z
}.

#[export] Instance mission_item_eq_dec : EqDecision mission_item.
Proof. solve_decision. Defined.

(** [= {}] *)
Definition no_item : mission_item := Item 0 0 0 0 0 0 0 0 0 0 0 0 0 0.

Module MissionItem.

(** * The union [Content] *)

(** Assignments of a float of a packet to a member at offset [o]: of the types
    float, uint8_t, int8_t, uint16_t, int16_t. *)
Definition put (o n : nat) (v : Z) (c : list Z) : option (list Z) :=
  Some (list_inserts o (le_bytes n v) c).

Definition put_float o (p : Z) (c : list Z) : option (list Z) := put o 4 p c.

Definition in_range (lo hi : Z) (p : spec_float) : option Z :=
  v ← f32_trunc p; if (lo <=? v) && (v <? hi) then Some v else None.

Definition to_uint16 (p : Z) : option Z := f32_to_uint16 (f32_of_bits p).

Definition put_uint8 o (p : Z) (c : list Z) : option (list Z) :=
  v ← in_range 0 256 (f32_of_bits p); put o 1 v c.
Definition put_int8 o (p : Z) (c : list Z) : option (list Z) :=
  v ← in_range (-128) 128 (f32_of_bits p); put o 1 v c.
Definition put_uint16 o (p : Z) (c : list Z) : option (list Z) :=
  v ← to_uint16 p; put o 2 v c.
Definition put_int16 o (p : Z) (c : list Z) : option (list Z) :=
  v ← in_range (-32768) 32768 (f32_of_bits p); put o 2 v c.

(** A member, and its assignment to a float of a packet. *)
Definition get (o n : nat) (c : list Z) : Z := le_val (take n (drop o c)).
Definition of_int (v : Z) : Z := bits_of_f32 (f32_of_Z v).

Definition get_float o c : Z := get o 4 c.
Definition get_uint8 o c : Z := of_int (get o 1 c).
Definition get_int8 o c : Z := of_int (i8 (get o 1 c)).
Definition get_uint16 o c : Z := of_int (get o 2 c).
Definition get_int16 o c : Z := of_int (i16 (get o 2 c)).

(** The bits of [Location_Option_Flags], in the first byte of a [Location]. *)
Definition relative_alt : Z := 0.
Definition loiter_ccw : Z := 2.
Definition terrain_alt : Z := 3.
Definition loiter_xtrack : Z := 5.

Definition flag (n : Z) (c : list Z) : bool := Z.testbit (get 0 1 c) n.
Definition set_flag (n : Z) (b : bool) (c : list Z) : list Z :=
  list_inserts 0 [if b then Z.setbit (get 0 1 c) n else Z.clearbit (get 0 1 c) n] c.

(** [int32_t alt:24] *)
Definition location_alt (c : list Z) : Z :=
  (get 1 3 c + 8388608) mod 16777216 - 8388608.

(** * Checks of a location (libraries/AP_Math/location.cpp) *)

Definition LOCATION_ALT_MAX_M : Z := 83000.

(** [labs] is undefined for the smallest [long], of 32 bits on the boards. *)
Definition labs (v : Z) : option Z := if v =? -2147483648 then None else Some (Z.abs v).
Definition check_lat (lat : Z) : option bool := a ← labs lat; Some (a <=? 900000000).
Definition check_lng (lng : Z) : option bool := a ← labs lng; Some (a <=? 1800000000).

(** The overloads for floats. *)
Definition check_lat_float (lat : spec_float) : bool := SFleb (SFabs lat) (f32_of_Z 90).
Definition check_lng_float (lng : spec_float) : bool := SFleb (SFabs lng) (f32_of_Z 180).

(** [is_negative] of libraries/AP_Math: not above -FLT_EPSILON. *)
Definition is_negative (p : spec_float) : bool := SFleb p (f32_lit (-1) (-23)).

Definition negative (p : spec_float) : bool := f32_lt p (f32_of_Z 0).
Definition positive (p : spec_float) : bool := f32_lt (f32_of_Z 0) p.

Definition LOWBYTE (i : Z) : Z := u8 i.
Definition HIGHBYTE (i : Z) : Z := u8 (u16 i >> 8).

Section conversions.
Context `{MavNumbers} (plane terrain : bool).

(** The case of the [switch] for a command. *)
Definition kind_of (id : Z) : option kind := find (fun k => mav_cmd k =? id) kinds.

(** * From a packet to a command *)

Definition with_p1 (cmd : Mission_Command) (v : Z) : Mission_Command :=
  Command (index cmd) (id cmd) v (content cmd).
Definition with_content (cmd : Mission_Command) (c : list Z) : Mission_Command :=
  Command (index cmd) (id cmd) (p1 cmd) c.

(** [cmd.p1 = p], for cases that store one parameter there. *)
Definition p1_from (p : Z) (cmd : Mission_Command) : option Mission_Command :=
  v ← to_uint16 p; Some (with_p1 cmd v).

(** [cmd.content.location.flags.<n> = b] *)
Definition flag_from (n : Z) (b : bool) (cmd : Mission_Command) : Mission_Command :=
  with_content cmd (set_flag n b (content cmd)).

(** The assignments of a case to members of the union. *)
Definition content_from (f : list Z -> option (list Z)) (cmd : Mission_Command)
  : option Mission_Command :=
  c ← f (content cmd); Some (with_content cmd c).

(** The case of the [switch]: the command after it, and [copy_location]. *)
Definition upload_case (k : kind) (packet : mission_item) (cmd : Mission_Command)
  : option (Mission_Command * bool) :=
  let p1' := param1 packet in let p2' := param2 packet in
  let p3' := param3 packet in let p4' := param4 packet in
  let num := f32_of_bits in
  let located (cmd : option Mission_Command) := c ← cmd; Some (c, true) in
  let plain (cmd : option Mission_Command) := c ← cmd; Some (c, false) in
  match k with
  | NAV_WAYPOINT =>
    if plane then
      acp ← to_uint16 p2';
      passby ← to_uint16 p3';
      let passby := Z.min 255 passby in
      let acp := Z.min 255 acp in
      Some (with_p1 cmd (u16 ((passby << 8) ||| (acp &&& 255))), true)
    else located (p1_from p1' cmd)
  | NAV_LOITER_UNLIM =>
    located (v ← f32_to_uint16 (SFabs (num p3'));
             Some (flag_from loiter_ccw (negative (num p3')) (with_p1 cmd v)))
  | NAV_LOITER_TURNS =>
    located (num_turns ← to_uint16 p1';
             radius_m ← f32_to_uint16 (SFabs (num p3'));
             let cmd := with_p1 cmd (u16 ((radius_m << 8) ||| (num_turns &&& 255))) in
             let cmd := flag_from loiter_ccw (negative (num p3')) cmd in
             Some (flag_from loiter_xtrack (positive (num p4')) cmd))
  | NAV_LOITER_TIME =>
    located (cmd ← p1_from p1' cmd;
             let cmd := flag_from loiter_ccw (negative (num p3')) cmd in
             Some (flag_from loiter_xtrack (positive (num p4')) cmd))
  | NAV_RETURN_TO_LAUNCH => plain (Some cmd)
  | NAV_LAND =>
    located (cmd ← p1_from p1' cmd; Some (flag_from loiter_ccw (is_negative (num p4')) cmd))
  | NAV_TAKEOFF => located (p1_from p1' cmd)
  | NAV_CONTINUE_AND_CHANGE_ALT => located (p1_from p1' cmd)
  | NAV_LOITER_TO_ALT =>
    located (v ← f32_to_uint16 (SFabs (num p2'));
             let cmd := flag_from loiter_ccw (negative (num p2')) (with_p1 cmd v) in
             Some (flag_from loiter_xtrack (positive (num p4')) cmd))
  | NAV_SPLINE_WAYPOINT => located (p1_from p1' cmd)
  | NAV_GUIDED_ENABLE => plain (p1_from p1' cmd)
  | NAV_DELAY =>               (* nav_delay: seconds, hour_utc, min_utc, sec_utc *)
    plain (content_from (fun c => c ← put_float 0 p1' c; c ← put_int8 4 p2' c;
                                  c ← put_int8 5 p3' c; put_int8 6 p4' c) cmd)
  | CONDITION_DELAY => plain (content_from (put_float 0 p1') cmd)     (* delay.seconds *)
  | CONDITION_DISTANCE => plain (content_from (put_float 0 p1') cmd)  (* distance.meters *)
  | CONDITION_YAW =>           (* yaw: angle_deg, turn_rate_dps, direction, relative_angle *)
    plain (content_from (fun c => c ← put_float 0 p1' c; c ← put_float 4 p2' c;
                                  c ← put_int8 8 p3' c; put_uint8 9 p4' c) cmd)
  | DO_SET_MODE => plain (p1_from p1' cmd)
  | DO_JUMP =>                 (* jump: target, num_times *)
    plain (content_from (fun c => c ← put_uint16 0 p1' c; put_int16 2 p2' c) cmd)
  | DO_CHANGE_SPEED =>         (* speed: speed_type, target_ms, throttle_pct *)
    plain (content_from (fun c => c ← put_uint8 0 p1' c; c ← put_float 1 p2' c;
                                  put_float 5 p3' c) cmd)
  | DO_SET_HOME => located (p1_from p1' cmd)
  | DO_SET_RELAY =>            (* relay: num, state *)
    plain (content_from (fun c => c ← put_uint8 0 p1' c; put_uint8 1 p2' c) cmd)
  | DO_REPEAT_RELAY =>         (* repeat_relay: num, repeat_count, cycle_time *)
    plain (content_from (fun c => c ← put_uint8 0 p1' c; c ← put_int16 1 p2' c;
                                  put_float 3 p3' c) cmd)
  | DO_SET_SERVO =>            (* servo: channel, pwm *)
    plain (content_from (fun c => c ← put_uint8 0 p1' c; put_uint16 1 p2' c) cmd)
  | DO_REPEAT_SERVO =>         (* repeat_servo: channel, pwm, repeat_count, cycle_time *)
    plain (content_from (fun c => c ← put_uint8 0 p1' c; c ← put_uint16 1 p2' c;
                                  c ← put_int16 3 p3' c; put_float 5 p4' c) cmd)
  | DO_LAND_START => located (Some cmd)
  | DO_SET_ROI => located (p1_from p1' cmd)
  | DO_DIGICAM_CONFIGURE =>    (* digicam_configure: shooting_mode, shutter_speed, aperture, *)
    plain (content_from       (* ISO, exposure_type, cmd_id, engine_cutoff_time *)
      (fun c => c ← put_uint8 0 p1' c; c ← put_uint16 1 p2' c;
                c ← put_uint8 3 p3' c; c ← put_uint16 4 p4' c;
                c ← put 6 1 (u8 (item_x packet)) c; c ← put 7 1 (u8 (item_y packet)) c;
                put_float 8 (item_z packet) c) cmd)
  | DO_DIGICAM_CONTROL =>      (* digicam_control: session, zoom_pos, zoom_step, *)
    plain (content_from       (* focus_lock, shooting_cmd, cmd_id *)
      (fun c => c ← put_uint8 0 p1' c; c ← put_uint8 1 p2' c;
                c ← put_int8 2 p3' c; c ← put_uint8 3 p4' c;
                c ← put 4 1 (u8 (item_x packet)) c; put 5 1 (u8 (item_y packet)) c) cmd)
  | DO_MOUNT_CONTROL =>        (* mount_control: pitch, roll, yaw *)
    plain (content_from (fun c => c ← put_float 0 p1' c; c ← put_float 4 p2' c;
                                  put_float 8 p3' c) cmd)
  | DO_SET_CAM_TRIGG_DIST => plain (content_from (put_float 0 p1') cmd)
  | DO_FENCE_ENABLE => plain (p1_from p1' cmd)
  | DO_PARACHUTE => plain (p1_from p1' cmd)
  | DO_INVERTED_FLIGHT => plain (p1_from p1' cmd)
  | DO_GRIPPER =>              (* gripper: num, action *)
    plain (content_from (fun c => c ← put_uint8 0 p1' c; put_uint8 1 p2' c) cmd)
  | DO_GUIDED_LIMITS =>        (* guided_limits: alt_min, alt_max, horiz_max *)
    plain (cmd ← p1_from p1' cmd;
           content_from (fun c => c ← put_float 0 p2' c; c ← put_float 4 p3' c;
                                  put_float 8 p4' c) cmd)
  | DO_AUTOTUNE_ENABLE => plain (p1_from p1' cmd)
  | NAV_ALTITUDE_WAIT =>       (* altitude_wait: altitude, descent_rate, wiggle_time *)
    plain (content_from (fun c => c ← put_float 0 p1' c; c ← put_float 4 p2' c;
                                  put_uint8 8 p3' c) cmd)
  | NAV_VTOL_TAKEOFF => located (Some cmd)
  | NAV_VTOL_LAND => located (Some cmd)
  | DO_VTOL_TRANSITION => plain (content_from (put_uint8 0 p1') cmd)
  | DO_SET_REVERSE => plain (p1_from p1' cmd)
  | DO_ENGINE_CONTROL =>       (* do_engine_control: start_control, cold_start, height_delay_cm *)
    plain (content_from (fun c =>
      c ← put 0 1 (if positive (num p1') then 1 else 0) c;
      c ← put 1 1 (if positive (num p2') then 1 else 0) c;
      v ← f32_to_uint16 (num p3' * f32_of_Z 100)%f32; put 2 2 v c) cmd)
  | NAV_PAYLOAD_PLACE =>
    located (v ← f32_to_uint16 (num p1' * f32_of_Z 100)%f32; Some (with_p1 cmd v))
  | NAV_SET_YAW_SPEED =>       (* set_yaw_speed: angle_deg, speed, relative_angle *)
    plain (content_from (fun c => c ← put_float 0 p1' c; c ← put_float 4 p2' c;
                                  put_uint8 8 p3' c) cmd)
  | DO_WINCH =>                (* winch: num, action, release_length, release_rate *)
    plain (content_from (fun c => c ← put_uint8 0 p1' c; c ← put_uint8 1 p2' c;
                                  c ← put_float 2 p3' c; put_float 6 p4' c) cmd)
  end.

(** The flags for the frame of the packet. *)
Definition frame_flags (packet : mission_item) (c : list Z) : MAV_MISSION_RESULT * list Z :=
  let f := item_frame packet in
  if (f =? MAV_FRAME_MISSION) || (f =? MAV_FRAME_GLOBAL) then
    (MAV_MISSION_ACCEPTED, set_flag relative_alt false c)
  else if f =? MAV_FRAME_GLOBAL_RELATIVE_ALT then
    (MAV_MISSION_ACCEPTED, set_flag relative_alt true c)
  else if terrain && (f =? MAV_FRAME_GLOBAL_TERRAIN_ALT) then
    (MAV_MISSION_ACCEPTED, set_flag terrain_alt true (set_flag relative_alt true c))
  else (MAV_MISSION_UNSUPPORTED_FRAME, c).

(** What follows the [switch] when [copy_location] is set; [copy_alt] never is. *)
Definition upload_location (packet : mission_item) (cmd : Mission_Command)
  : option (MAV_MISSION_RESULT * Mission_Command) :=
  lat_ok ← check_lat (item_x packet);
  if negb lat_ok then Some (MAV_MISSION_INVALID_PARAM5_X, cmd)
  else
    lng_ok ← check_lng (item_y packet);
    if negb lng_ok then Some (MAV_MISSION_INVALID_PARAM6_Y, cmd)
    else if SFleb (f32_of_Z LOCATION_ALT_MAX_M) (SFabs (f32_of_bits (item_z packet))) then
      Some (MAV_MISSION_INVALID_PARAM7, cmd)
    else
      c ← put 4 4 (u32 (item_x packet)) (content cmd);
      c ← put 8 4 (u32 (item_y packet)) c;
      alt ← f32_to_int32 (f32_of_bits (item_z packet) * f32_of_Z 100)%f32;
      c ← put 1 3 alt c;
      let '(result, c) := frame_flags packet c in
      Some (result, with_content cmd c).

Definition mavlink_int_to_mission_cmd (packet : mission_item) (cmd : Mission_Command)
  : option (MAV_MISSION_RESULT * Mission_Command) :=
  let cmd := Command (item_seq packet) (item_command packet) (p1 cmd)
               (list_inserts 0 [0] (content cmd)) in
  if id cmd =? 0 then Some (MAV_MISSION_INVALID, cmd)
  else match kind_of (id cmd) with
  | None => Some (MAV_MISSION_UNSUPPORTED, cmd)
  | Some k =>
    '(cmd, copy_location) ← upload_case k packet cmd;
    if copy_location : bool then upload_location packet cmd
    else Some (MAV_MISSION_ACCEPTED, cmd)
  end.

(** * From a command to a packet *)

Definition with_params (p : mission_item) (a b c d : Z) : mission_item :=
  Item a b c d (item_x p) (item_y p) (item_z p) (item_seq p) (item_command p)
    (target_system p) (target_component p) (item_frame p) (item_current p) (autocontinue p).
Definition with_xyz (p : mission_item) (vx vy vz : Z) : mission_item :=
  Item (param1 p) (param2 p) (param3 p) (param4 p) vx vy vz (item_seq p) (item_command p)
    (target_system p) (target_component p) (item_frame p) (item_current p) (autocontinue p).
Definition with_frame (p : mission_item) (v : Z) : mission_item :=
  Item (param1 p) (param2 p) (param3 p) (param4 p) (item_x p) (item_y p) (item_z p)
    (item_seq p) (item_command p) (target_system p) (target_component p) v
    (item_current p) (autocontinue p).

(** [packet.seq], [packet.command] and the defaults. *)
Definition with_defaults (cmd : Mission_Command) (p : mission_item) : mission_item :=
  Item 0 0 0 0 (item_x p) (item_y p) (item_z p) (index cmd) (id cmd)
    (target_system p) (target_component p) (item_frame p) 0 1.

Definition b2f (b : bool) : Z := of_int (if b then 1 else 0).

(** The case of the [switch]: the packet after it, and [copy_location]. *)
Definition download_case (k : kind) (cmd : Mission_Command) (packet : mission_item)
  : mission_item * bool :=
  let c := content cmd in
  let params := with_params packet in
  let ccw := flag loiter_ccw c in
  let xtrack := b2f (flag loiter_xtrack c) in
  match k with
  | NAV_WAYPOINT =>
    (if plane then params 0 (of_int (LOWBYTE (p1 cmd))) (of_int (HIGHBYTE (p1 cmd))) 0
     else params (of_int (p1 cmd)) 0 0 0, true)
  | NAV_LOITER_UNLIM =>
    let r := f32_of_Z (p1 cmd) in
    (params 0 0 (bits_of_f32 (if ccw then r * f32_of_Z (-1) else r)%f32) 0, true)
  | NAV_LOITER_TURNS =>
    let r := f32_of_Z (HIGHBYTE (p1 cmd)) in
    (params (of_int (LOWBYTE (p1 cmd))) 0 (bits_of_f32 (if ccw then SFopp r else r)) xtrack, true)
  | NAV_LOITER_TIME =>
    (params (of_int (p1 cmd)) 0 (of_int (if ccw then -1 else 1)) xtrack, true)
  | NAV_RETURN_TO_LAUNCH => (packet, false)
  | NAV_LAND => (params (of_int (p1 cmd)) 0 0 (of_int (if ccw then -1 else 1)), true)
  | NAV_TAKEOFF => (params (of_int (p1 cmd)) 0 0 0, true)
  | NAV_CONTINUE_AND_CHANGE_ALT => (params (of_int (p1 cmd)) 0 0 0, true)
  | NAV_LOITER_TO_ALT =>
    let r := f32_of_Z (p1 cmd) in
    (params 0 (bits_of_f32 (if ccw then SFopp r else r)) 0 xtrack, true)
  | NAV_SPLINE_WAYPOINT => (params (of_int (p1 cmd)) 0 0 0, true)
  | NAV_GUIDED_ENABLE => (params (of_int (p1 cmd)) 0 0 0, false)
  | NAV_DELAY => (params (get_float 0 c) (get_int8 4 c) (get_int8 5 c) (get_int8 6 c), false)
  | CONDITION_DELAY => (params (get_float 0 c) 0 0 0, false)
  | CONDITION_DISTANCE => (params (get_float 0 c) 0 0 0, false)
  | CONDITION_YAW => (params (get_float 0 c) (get_float 4 c) (get_int8 8 c) (get_uint8 9 c), false)
  | DO_SET_MODE => (params (of_int (p1 cmd)) 0 0 0, false)
  | DO_JUMP => (params (get_uint16 0 c) (get_int16 2 c) 0 0, false)
  | DO_CHANGE_SPEED => (params (get_uint8 0 c) (get_float 1 c) (get_float 5 c) 0, false)
  | DO_SET_HOME => (params (of_int (p1 cmd)) 0 0 0, true)
  | DO_SET_RELAY => (params (get_uint8 0 c) (get_uint8 1 c) 0 0, false)
  | DO_REPEAT_RELAY => (params (get_uint8 0 c) (get_int16 1 c) (get_float 3 c) 0, false)
  | DO_SET_SERVO => (params (get_uint8 0 c) (get_uint16 1 c) 0 0, false)
  | DO_REPEAT_SERVO =>
    (params (get_uint8 0 c) (get_uint16 1 c) (get_int16 3 c) (get_float 5 c), false)
  | DO_LAND_START => (packet, true)
  | DO_SET_ROI => (params (of_int (p1 cmd)) 0 0 0, true)
  | DO_DIGICAM_CONFIGURE =>
    (with_xyz (params (get_uint8 0 c) (get_uint16 1 c) (get_uint8 3 c) (get_uint16 4 c))
       (get 6 1 c) (get 7 1 c) (get_float 8 c), false)
  | DO_DIGICAM_CONTROL =>
    (with_xyz (params (get_uint8 0 c) (get_uint8 1 c) (get_int8 2 c) (get_uint8 3 c))
       (get 4 1 c) (get 5 1 c) (item_z packet), false)
  | DO_MOUNT_CONTROL => (params (get_float 0 c) (get_float 4 c) (get_float 8 c) 0, false)
  | DO_SET_CAM_TRIGG_DIST => (params (get_float 0 c) 0 0 0, false)
  | DO_FENCE_ENABLE => (params (of_int (p1 cmd)) 0 0 0, false)
  | DO_PARACHUTE => (params (of_int (p1 cmd)) 0 0 0, false)
  | DO_INVERTED_FLIGHT => (params (of_int (p1 cmd)) 0 0 0, false)
  | DO_GRIPPER => (params (get_uint8 0 c) (get_uint8 1 c) 0 0, false)
  | DO_GUIDED_LIMITS =>
    (params (of_int (p1 cmd)) (get_float 0 c) (get_float 4 c) (get_float 8 c), false)
  | DO_AUTOTUNE_ENABLE => (params (of_int (p1 cmd)) 0 0 0, false)
  | NAV_ALTITUDE_WAIT => (params (get_float 0 c) (get_float 4 c) (get_uint8 8 c) 0, false)
  | NAV_VTOL_TAKEOFF => (packet, true)
  | NAV_VTOL_LAND => (packet, true)
  | DO_VTOL_TRANSITION => (params (get_uint8 0 c) 0 0 0, false)
  | DO_SET_REVERSE => (params (of_int (p1 cmd)) 0 0 0, false)
  | DO_ENGINE_CONTROL =>
    (params (b2f (nz (get 0 1 c))) (b2f (nz (get 1 1 c)))
       (bits_of_f32 (f32_of_Z (get 2 2 c) * f32_lit 10737418 (-30))%f32) 0, false)
  | NAV_PAYLOAD_PLACE =>
    (params (bits_of_f32 (f32_of_Z (p1 cmd) / f32_of_Z 100)%f32) 0 0 0, true)
  | NAV_SET_YAW_SPEED => (params (get_float 0 c) (get_float 4 c) (get_uint8 8 c) 0, false)
  | DO_WINCH => (params (get_uint8 0 c) (get_uint8 1 c) (get_float 2 c) (get_float 6 c), false)
  end.

(** What follows the [switch] when [copy_location] is set; the literal 0.01f is
    10737418 * 2^-30. *)
Definition download_location (cmd : Mission_Command) (packet : mission_item)
  : bool * mission_item :=
  let c := content cmd in
  let alt := f32_of_Z (location_alt c) in
  let packet := with_xyz packet (Mission.location_lat cmd) (Mission.location_lng cmd)
                  (bits_of_f32 (alt / f32_of_Z 100)%f32) in
  let packet := with_frame packet
    (if flag relative_alt c then MAV_FRAME_GLOBAL_RELATIVE_ALT else MAV_FRAME_GLOBAL) in
  if terrain then
    if flag terrain_alt c then
      if negb (flag relative_alt c) then (false, packet)
      else (true, with_frame (with_xyz packet (item_x packet) (item_y packet)
                    (bits_of_f32 (alt * f32_lit 10737418 (-30))%f32)) MAV_FRAME_GLOBAL_TERRAIN_ALT)
    else (true, packet)
  else (negb (flag terrain_alt c), packet).

Definition mission_cmd_to_mavlink_int (cmd : Mission_Command) (packet : mission_item)
  : bool * mission_item :=
  let packet := with_defaults cmd packet in
  if id cmd =? 0 then (false, packet)
  else match kind_of (id cmd) with
  | None => (false, packet)
  | Some k =>
    let '(packet, copy_location) := download_case k cmd packet in
    if copy_location : bool then download_location cmd packet else (true, packet)
  end.

(** * Items whose [x] and [y] are floats *)

Definition digicam (command : Z) : bool :=
  (command =? mav_cmd DO_DIGICAM_CONTROL) || (command =? mav_cmd DO_DIGICAM_CONFIGURE).

(** A packet with the fields of [p] and the given [x] and [y]. *)
Definition item_at (p : mission_item) (vx vy : Z) : mission_item :=
  Item (param1 p) (param2 p) (param3 p) (param4 p) vx vy (item_z p) (item_seq p)
    (item_command p) (target_system p) (target_component p) (item_frame p)
    (item_current p) (autocontinue p).

(** [1.0e7f] is an integer of 24 bits. *)
Definition mavlink_to_mission_cmd (packet : mission_item) (cmd : Mission_Command)
  : option (MAV_MISSION_RESULT * Mission_Command) :=
  let fx := f32_of_bits (item_x packet) in
  let fy := f32_of_bits (item_y packet) in
  if digicam (item_command packet) then
    vx ← f32_to_int32 fx;
    vy ← f32_to_int32 fy;
    mavlink_int_to_mission_cmd (item_at packet vx vy) cmd
  else if negb (check_lat_float fx) then Some (MAV_MISSION_INVALID_PARAM5_X, cmd)
  else if negb (check_lng_float fy) then Some (MAV_MISSION_INVALID_PARAM6_Y, cmd)
  else
    vx ← f32_to_int32 (fx * f32_of_Z 10000000)%f32;
    vy ← f32_to_int32 (fy * f32_of_Z 10000000)%f32;
    mavlink_int_to_mission_cmd (item_at packet vx vy) cmd.

(** The literal [1.0e-7f] is 14073749 * 2^-47. *)
Definition mission_cmd_to_mavlink (cmd : Mission_Command) : bool * mission_item :=
  let '(ans, mav_cmd) := mission_cmd_to_mavlink_int cmd no_item in
  let vx := f32_of_Z (item_x mav_cmd) in
  let vy := f32_of_Z (item_y mav_cmd) in
  (ans, if digicam (item_command mav_cmd) then item_at mav_cmd (bits_of_f32 vx) (bits_of_f32 vy)
        else item_at mav_cmd (bits_of_f32 (vx * f32_lit 14073749 (-47))%f32)
                             (bits_of_f32 (vy * f32_lit 14073749 (-47))%f32)).

(** [mavlink_cmd_long_to_mission_cmd], of the parameters of a command. *)
Definition mavlink_cmd_long_to_mission_cmd (command a b c d system component : Z)
    (cmd : Mission_Command) : option (MAV_MISSION_RESULT * Mission_Command) :=
  mavlink_to_mission_cmd (Item a b c d 0 0 0 0 command system component 0 0 0) cmd.

End conversions.
End MissionItem.
