(* ===== verification/MissionItemSpec.v ===== *)
(** What is kept of a mission command that is sent to the vehicle, read back and
    sent again. *)
From S2P Require Import Prelude Float32 Float32Spec Mission MissionItem MissionSpec.
Open Scope urus_scope.
Import MissionItem.
#[local] Abbreviation length := (@Datatypes.length _).
#[local] Arguments f32_of_Z : simpl never.
#[local] Arguments f100 : simpl never.
#[local] Arguments f001 : simpl never.

(** The labels of a [switch] differ, and [case 0] is one; numbers of commands are
    16 bits wide, and two of them do not fit in 8. *)
Class MavNumberLaws `{MavNumbers} := {
  mav_cmd_range k : 0 < mav_cmd k < 65536;
  mav_cmd_inj k k' : mav_cmd k = mav_cmd k' -> k = k';
  frames_distinct : MAV_FRAME_GLOBAL <> MAV_FRAME_GLOBAL_RELATIVE_ALT /\
    MAV_FRAME_GLOBAL <> MAV_FRAME_GLOBAL_TERRAIN_ALT /\
    MAV_FRAME_GLOBAL_RELATIVE_ALT <> MAV_FRAME_GLOBAL_TERRAIN_ALT;
  long_commands k : 256 <= mav_cmd k -> k = DO_VTOL_TRANSITION \/ k = DO_WINCH;
  frame_mission_distinct : MAV_FRAME_MISSION <> MAV_FRAME_GLOBAL_RELATIVE_ALT /\
                           MAV_FRAME_MISSION <> MAV_FRAME_GLOBAL_TERRAIN_ALT
}.

(** * Conversions *)

Lemma to_uint16_of_int v : 0 <= v < 65536 -> to_uint16 (of_int v) = Some v.
Proof.
  intros Hv. unfold to_uint16, of_int, f32_to_uint16.
  rewrite f32_of_bits_of, trunc_of_Z by (try apply of_Z_plain; lia). simpl.
  by rewrite (proj2 (Z.leb_le _ _)), (proj2 (Z.ltb_lt _ _)) by lia.
Qed.

Lemma in_range_of_int lo hi v : Z.abs v < 2 ^ 24 -> lo <= v < hi ->
  in_range lo hi (f32_of_bits (of_int v)) = Some v.
Proof.
  intros Hv Hr. unfold in_range, of_int.
  rewrite f32_of_bits_of, trunc_of_Z by (try apply of_Z_plain; lia). simpl.
  by rewrite (proj2 (Z.leb_le _ _)), (proj2 (Z.ltb_lt _ _)) by lia.
Qed.

Lemma in_range_inv lo hi p v : in_range lo hi p = Some v -> lo <= v < hi.
Proof.
  unfold in_range. intros (w & _ & Hw)%bind_Some. revert Hw.
  destruct (Z.leb_spec lo w), (Z.ltb_spec w hi); simpl; intros; simplify_eq; lia.
Qed.

Lemma f32_to_uint16_inv p v : f32_to_uint16 p = Some v -> 0 <= v < 65536.
Proof. apply (in_range_inv 0 65536). Qed.

Lemma to_uint16_inv p v : to_uint16 p = Some v -> 0 <= v < 65536.
Proof. apply f32_to_uint16_inv. Qed.

(** A number with the sign of a flag, and its two halves. *)
Definition signed (ccw : bool) (v : Z) : spec_float :=
  if ccw then SFopp (f32_of_Z v) else f32_of_Z v.

Lemma signed_plain ccw v : 0 <= v < 2 ^ 24 -> plain (signed ccw v).
Proof.
  intros Hv. pose proof (of_Z_plain v ltac:(lia)) as Hp. unfold signed. destruct ccw; [|done].
  by destruct (f32_of_Z v).
Qed.

Lemma signed_abs ccw v : 0 <= v < 65536 ->
  f32_to_uint16 (SFabs (f32_of_bits (bits_of_f32 (signed ccw v)))) = Some v.
Proof.
  intros Hv. rewrite f32_of_bits_of by (apply signed_plain; lia).
  replace (SFabs (signed ccw v)) with (f32_of_Z v).
  - unfold f32_to_uint16. rewrite trunc_of_Z by lia. simpl.
    by rewrite (proj2 (Z.leb_le _ _)), (proj2 (Z.ltb_lt _ _)) by lia.
  - unfold signed. rewrite <- (Z.abs_eq v) at 1 by lia. rewrite <- of_Z_abs by lia.
    destruct ccw; [|done]. by destruct (f32_of_Z v).
Qed.

Lemma signed_negative ccw v : 0 <= v < 65536 ->
  negative (f32_of_bits (bits_of_f32 (signed ccw v))) = ccw && negb (v =? 0).
Proof.
  intros Hv. rewrite f32_of_bits_of by (apply signed_plain; lia). unfold negative, signed.
  destruct (Z.eqb_spec v 0) as [->|Hz]; [by destruct ccw|]. destruct ccw; simpl.
  - rewrite <- f32_of_Z_opp, of_Z_negative by lia. apply Z.ltb_lt. lia.
  - rewrite of_Z_negative by lia. apply Z.ltb_ge. lia.
Qed.

(** [packet.param3 *= -1] *)
Lemma signed_times (ccw : bool) v : 0 <= v < 65536 ->
  (if ccw then f32_of_Z v * f32_of_Z (-1) else f32_of_Z v)%f32 = signed ccw v.
Proof.
  intros Hv. unfold signed. destruct ccw; [|done].
  destruct (decide (v = 0)) as [->|]; [reflexivity|].
  rewrite mul_of_Z, <- f32_of_Z_opp by lia. f_equal. lia.
Qed.

Lemma b2f_positive b : positive (f32_of_bits (b2f b)) = b.
Proof. by destruct b. Qed.

Lemma sign_negative (b : bool) : negative (f32_of_bits (of_int (if b then -1 else 1))) = b.
Proof. by destruct b. Qed.

Lemma sign_is_negative (b : bool) : is_negative (f32_of_bits (of_int (if b then -1 else 1))) = b.
Proof. by destruct b. Qed.

Lemma low_high v : 0 <= v < 65536 -> u16 ((HIGHBYTE v << 8) ||| (LOWBYTE v &&& 255)) = v.
Proof.
  intros Hv. unfold HIGHBYTE, LOWBYTE. rewrite (u16_small v) by lia.
  rewrite Z.shiftr_div_pow2 by lia. change (2 ^ 8) with 256. rewrite (u8_small (v / 256)) by zlia.
  change 255 with (Z.ones 8). rewrite Z.land_ones by lia. change (2 ^ 8) with 256.
  rewrite (Z.mod_small (u8 v)) by apply u8_range.
  rewrite Z.shiftl_mul_pow2 by lia. change (2 ^ 8) with 256.
  assert (Hl : Z.land (v / 256 * 256) (u8 v) = 0).
  { change 256 with (2 ^ 8). rewrite <- Z.shiftl_mul_pow2 by lia.
    replace (u8 v) with (Z.land v (Z.ones 8)) by (rewrite Z.land_ones by lia; done).
    apply Z.bits_inj'. intros n Hn. rewrite Z.bits_0, !Z.land_spec.
    destruct (Z.lt_ge_cases n 8).
    - by rewrite Z.shiftl_spec_low.
    - rewrite Z.ones_spec_high by lia. by rewrite !andb_false_r. }
  rewrite <- Z.lxor_lor, <- Z.add_nocarry_lxor by done. unfold u8. rewrite u16_small by zlia. zlia.
Qed.

(** * The union *)

Lemma get_put_eq o n v c : (o + n <= length c)%nat ->
  get o n (list_inserts o (le_bytes n v) c) = v mod 256 ^ Z.of_nat n.
Proof.
  intros Hl. unfold get. assert (Hs : take n (drop o (list_inserts o (le_bytes n v) c)) = le_bytes n v).
  { apply list_eq. intros i. destruct (decide (i < n)%nat).
    - rewrite lookup_take_lt, lookup_drop, lookup_inserts_dec, le_bytes_length by done.
      rewrite !decide_True by lia. f_equal. lia.
    - rewrite lookup_take_ge, lookup_ge_None_2 by (rewrite ?le_bytes_length; lia). done. }
  rewrite Hs. apply le_val_mod.
Qed.

Lemma get_put_ne o n o' bs c : (o + n <= o' \/ o' + length bs <= o)%nat ->
  get o n (list_inserts o' bs c) = get o n c.
Proof.
  intros Hd. unfold get. f_equal. apply list_eq. intros i. destruct (decide (i < n)%nat).
  - rewrite !lookup_take_lt, !lookup_drop, lookup_inserts_dec by done. by rewrite decide_False by lia.
  - by rewrite !lookup_take_ge by lia.
Qed.

(** A [Location] in the union. *)
Definition location_bytes (opt alt lat lng : Z) : list Z :=
  opt :: le_bytes 3 alt ++ le_bytes 4 (u32 lat) ++ le_bytes 4 (u32 lng).

(** The four assignments fill the union but for its first byte. *)
Lemma put_location o l alt lat lng : length l = 11%nat ->
  list_inserts 1 (le_bytes 3 alt) (list_inserts 8 (le_bytes 4 (u32 lng))
    (list_inserts 4 (le_bytes 4 (u32 lat)) (o :: l))) = location_bytes o alt lat lng.
Proof.
  intros Hl. do 11 (destruct l as [|? l]; [done|]). by destruct l.
Qed.

(** The options that an item can set. *)
Definition options (ccw xtrack rel terr : bool) : Z :=
  (if ccw then 4 else 0) + (if xtrack then 32 else 0) + (if rel then 1 else 0) + (if terr then 8 else 0).

Definition int32 (v : Z) : Prop := -2147483648 <= v < 2147483648.

Lemma i32_u32 v : int32 v -> i32 (u32 v) = v.
Proof. unfold int32, i32, u32. intros Hv. zlia. Qed.

Section located.
Context (opt alt lat lng : Z) (Halt : Z.abs alt < 8388608) (Hlat : int32 lat) (Hlng : int32 lng).
#[local] Abbreviation c := (location_bytes opt alt lat lng).

Lemma location_options : get 0 1 c = opt.
Proof. unfold get. simpl. lia. Qed.

Lemma location_bytes_length : length c = 12%nat.
Proof. reflexivity. Qed.

Lemma location_alt_bytes : location_alt c = alt.
Proof.
  unfold location_alt, get. change (take 3 (drop 1 c)) with (le_bytes 3 alt).
  simpl le_bytes. simpl le_val. zlia.
Qed.

Lemma location_lat_bytes i id p : Mission.location_lat (Command i id p c) = lat.
Proof.
  unfold Mission.location_lat. simpl content. change (take 4 (drop 4 c)) with (le_bytes 4 (u32 lat)).
  rewrite le_val_bytes by apply u32_range. by apply i32_u32.
Qed.

Lemma location_lng_bytes i id p : Mission.location_lng (Command i id p c) = lng.
Proof.
  unfold Mission.location_lng. simpl content. change (take 4 (drop 8 c)) with (le_bytes 4 (u32 lng)).
  rewrite le_val_bytes by apply u32_range. by apply i32_u32.
Qed.
End located.

(** * Locations *)
#[local] Arguments list_inserts : simpl never.
#[local] Arguments le_bytes : simpl never.

Section location.
Context `{HN : MavNumbers, HL : !MavNumberLaws} (plane terrain : bool).

(** The frame of a location with the given flags. *)
Definition frame_of (rel terr : bool) : Z :=
  if terr then MAV_FRAME_GLOBAL_TERRAIN_ALT
  else if rel then MAV_FRAME_GLOBAL_RELATIVE_ALT else MAV_FRAME_GLOBAL.

Lemma set_flag_cons n b o l :
  set_flag n b (o :: l) = (if b then Z.setbit o n else Z.clearbit o n) :: l.
Proof.
  unfold set_flag. replace (get 0 1 (o :: l)) with o by (unfold get; simpl; lia). done.
Qed.

(** The options after the frame is known. *)
Definition framed (rel terr : bool) (o : Z) : Z :=
  if terr then Z.setbit (Z.setbit o 0) 3 else if rel then Z.setbit o 0 else Z.clearbit o 0.

Lemma frame_flags_inv pk o l l' : frame_flags terrain pk (o :: l) = (MAV_MISSION_ACCEPTED, l') ->
  exists rel terr, (terr = true -> rel = true /\ terrain = true) /\ l' = framed rel terr o :: l.
Proof.
  unfold frame_flags, framed. rewrite !set_flag_cons. destruct (_ || _).
  { intros ?; simplify_eq. by exists false, false. }
  destruct (_ =? _).
  { intros ?; simplify_eq. by exists true, false. }
  destruct terrain, (_ =? _); simpl; try done. intros ?; simplify_eq. by exists true, true.
Qed.

Lemma frame_flags_of rel terr pk o l : (terr = true -> rel = true /\ terrain = true) ->
  item_frame pk = frame_of rel terr ->
  frame_flags terrain pk (o :: l) = (MAV_MISSION_ACCEPTED, framed rel terr o :: l).
Proof.
  intros Ht Hf. pose proof frames_distinct as (Hd1 & Hd2 & Hd3).
  pose proof frame_mission_distinct as [Hm1 Hm2].
  unfold frame_flags, framed. rewrite Hf, !set_flag_cons.
  destruct terr; [destruct (Ht eq_refl) as [-> ->]|destruct rel]; simpl;
    repeat match goal with
    | |- context [?a =? ?b] => destruct (Z.eqb_spec a b); try congruence
    end; rewrite ?orb_true_r; done.
Qed.

(** Uploading a location. *)
Lemma upload_location_inv pk cmd cmd' o l : 0 <= item_z pk < 2 ^ 32 ->
  content cmd = o :: l -> length l = 11%nat ->
  upload_location terrain pk cmd = Some (MAV_MISSION_ACCEPTED, cmd') ->
  exists alt rel terr, Z.abs alt < max_cm /\
    Z.abs (item_x pk) <= 900000000 /\ Z.abs (item_y pk) <= 1800000000 /\
    f32_trunc (f32_of_bits (item_z pk) * f100)%f32 = Some alt /\
    (terr = true -> rel = true /\ terrain = true) /\
    cmd' = Command (index cmd) (id cmd) (p1 cmd) (location_bytes
      (framed rel terr o) alt (item_x pk) (item_y pk)).
Proof.
  intros Hz Hc Hl. unfold upload_location, check_lat, check_lng, labs.
  destruct (item_x pk =? _); simpl; [done|].
  destruct (Z.leb_spec (Z.abs (item_x pk)) 900000000); simpl; [|done].
  destruct (item_y pk =? _); simpl; [done|].
  destruct (Z.leb_spec (Z.abs (item_y pk)) 1800000000); simpl; [|done].
  unfold LOCATION_ALT_MAX_M. destruct (SFleb _ _) eqn:Hle; [done|]. unfold f32_to_int32. fold f100.
  intros (alt & (v & Hv & Hr)%bind_Some & Hrest)%bind_Some.
  pose proof (f32_of_bits_valid _ Hz) as Hval.
  destruct (metres_to_cm _ Hval) as (v' & Hv' & Hb); [intros Hn; by rewrite Hn in Hv|done|].
  rewrite Hv in Hv'. simplify_eq. revert Hr. destruct (_ && _); [|done]. intros ?; simplify_eq.
  simpl in Hrest. rewrite Hc in Hrest.
  rewrite put_location in Hrest by done. unfold location_bytes in Hrest.
  destruct (frame_flags _ _ _) as [res l'] eqn:Hf. simplify_eq.
  apply frame_flags_inv in Hf as (rel & terr & Ht & ->). exists alt, rel, terr.
  split; [done|]. split; [done|]. split; [done|]. split; [done|]. split; [done|]. done.
Qed.

Lemma upload_location_of pk cmd o l alt rel terr : content cmd = o :: l -> length l = 11%nat ->
  Z.abs (item_x pk) <= 900000000 -> Z.abs (item_y pk) <= 1800000000 ->
  SFleb (f32_of_Z 83000) (SFabs (f32_of_bits (item_z pk))) = false ->
  f32_trunc (f32_of_bits (item_z pk) * f100)%f32 = Some alt -> Z.abs alt <= max_cm ->
  (terr = true -> rel = true /\ terrain = true) -> item_frame pk = frame_of rel terr ->
  upload_location terrain pk cmd = Some (MAV_MISSION_ACCEPTED,
    Command (index cmd) (id cmd) (p1 cmd) (location_bytes
      (framed rel terr o) alt (item_x pk) (item_y pk))).
Proof.
  unfold max_cm. intros Hc Hl Hx Hy Hz Ht Ha Hf Hfr. unfold upload_location, check_lat, check_lng, labs.
  rewrite !(proj2 (Z.eqb_neq _ _)) by lia. simpl. rewrite !(proj2 (Z.leb_le _ _)) by lia. simpl.
  unfold LOCATION_ALT_MAX_M. rewrite Hz. unfold f32_to_int32. fold f100. rewrite Ht. simpl.
  rewrite (proj2 (Z.leb_le _ _)), (proj2 (Z.ltb_lt _ _)) by lia. simpl. rewrite Hc.
  rewrite put_location by done. unfold location_bytes. by rewrite (frame_flags_of rel terr).
Qed.
End location.

(** * The cases of the [switch] *)

(** The commands with a location. *)
Definition located (k : kind) : bool :=
  match k with
  | NAV_WAYPOINT | NAV_LOITER_UNLIM | NAV_LOITER_TURNS | NAV_LOITER_TIME | NAV_LAND
  | NAV_TAKEOFF | NAV_CONTINUE_AND_CHANGE_ALT | NAV_LOITER_TO_ALT | NAV_SPLINE_WAYPOINT
  | DO_SET_HOME | DO_LAND_START | DO_SET_ROI | NAV_VTOL_TAKEOFF | NAV_VTOL_LAND
  | NAV_PAYLOAD_PLACE => true
  | _ => false
  end.

(** The radius of a loiter, kept in [p1]. *)
Definition radius (k : kind) (v : Z) : Z :=
  match k with
  | NAV_LOITER_UNLIM | NAV_LOITER_TO_ALT => v
  | NAV_LOITER_TURNS => HIGHBYTE v
  | _ => 1
  end.

(** What may change of [p1] and of the direction of a loiter. *)
Definition again (k : kind) (v v' : Z) (ccw ccw' : bool) : Prop :=
  (v' = v \/ k = NAV_PAYLOAD_PLACE /\ v' = v - Z.sgn v) /\
  ccw' = ccw && negb (radius k v =? 0).

Definition same_params (p q : mission_item) : Prop :=
  param1 p = param1 q /\ param2 p = param2 q /\ param3 p = param3 q /\ param4 p = param4 q.

(** The conversion of a 16-bit integer and back, of [p1]. *)
Definition wide (v : Z) : Prop := 0 <= v < 65536.

Lemma flag_options l (ccw xtrack : bool) :
  (if xtrack then set_flag loiter_xtrack true else set_flag loiter_xtrack false)
    ((if ccw then set_flag loiter_ccw true else set_flag loiter_ccw false) (0 :: l)) =
  options ccw xtrack false false :: l.
Proof. destruct ccw, xtrack; by rewrite !set_flag_cons. Qed.

(** All assignments of a case, from the result of the [switch]. *)
Ltac inv_binds :=
  repeat match goal with
  | H : (_ ≫= _) = Some _ |- _ =>
    let v := fresh "v" in let Hv := fresh "Hv" in apply bind_Some in H as (v & Hv & H)
  | H : Some _ = Some _ |- _ => injection H as H; try subst
  | H : (_, _) = (_, _) |- _ => injection H as ? ?; subst
  | H : in_range _ _ _ = Some _ |- _ => apply in_range_inv in H
  | H : to_uint16 _ = Some _ |- _ => apply to_uint16_inv in H
  end.

Section cases.
Context (plane : bool).

Lemma payload_back v : wide v -> exists v',
  f32_to_uint16 (f32_of_bits (bits_of_f32 (f32_of_Z v / f32_of_Z 100)%f32) * f32_of_Z 100)%f32 = Some v' /\
  (v' = v \/ v' = v - Z.sgn v).
Proof.
  unfold wide. intros Hv. fold f100.
  destruct (centi_div_plain v) as [Hp _]; [unfold max_cm; lia|].
  rewrite f32_of_bits_of by done. destruct (centi_div v) as (b & Hb & Hv'); [unfold max_cm; lia|].
  exists b. split; [|done]. unfold f32_to_uint16. rewrite Hb. simpl.
  by rewrite (proj2 (Z.leb_le _ _)), (proj2 (Z.ltb_lt _ _)) by lia.
Qed.

(** The command [cmd] with what a case sets, [content cmd] being [0 :: l]. *)
Definition case_result (cmd : Mission_Command) (l : list Z) (v : Z) (ccw xtrack : bool) :=
  Command (index cmd) (id cmd) v (options ccw xtrack false false :: l).

(** The parameters that are sent for [v], [ccw] and [xtrack] bring them back. *)
Definition comes_back (k : kind) (cmd : Mission_Command) (l : list Z) v ccw xtrack : Prop :=
  forall c pk0, p1 c = v -> flag loiter_ccw (content c) = ccw ->
    flag loiter_xtrack (content c) = xtrack -> with_params pk0 0 0 0 0 = pk0 ->
  exists a1 a2 a3 a4, download_case plane k c pk0 = (with_params pk0 a1 a2 a3 a4, true) /\
  forall pk', same_params pk' (with_params pk0 a1 a2 a3 a4) ->
  exists v' ccw', again k v v' ccw ccw' /\
    upload_case plane k pk' cmd = Some (case_result cmd l v' ccw' xtrack, true).

Ltac send_again :=
  let c := fresh "c" in let pk0 := fresh "pk0" in let Hc := fresh "Hc" in
  let Hx := fresh "Hx" in let Hpk := fresh "Hpk" in
  intros c pk0 <- Hc Hx Hpk; cbn [download_case]; rewrite ?Hc, ?Hx; do 4 eexists;
  split; [first [reflexivity | by rewrite Hpk]|];
  let pk' := fresh "pk'" in intros pk' (H1 & H2 & H3 & H4); simpl in H1, H2, H3, H4;
  cbn [upload_case]; unfold p1_from; rewrite ?H1, ?H2, ?H3, ?H4.

Lemma case_flags cmd l ix idn v (ccw xtrack : bool) : content cmd = 0 :: l ->
  flag_from loiter_xtrack xtrack (flag_from loiter_ccw ccw (Command ix idn v (content cmd))) =
  Command ix idn v (options ccw xtrack false false :: l).
Proof.
  intros ->. unfold flag_from, with_content. simpl. rewrite !set_flag_cons. by destruct ccw, xtrack.
Qed.

Lemma case_flag cmd l ix idn v (ccw : bool) : content cmd = 0 :: l ->
  flag_from loiter_ccw ccw (Command ix idn v (content cmd)) =
  Command ix idn v (options ccw false false false :: l).
Proof.
  intros ->. unfold flag_from, with_content. simpl. rewrite !set_flag_cons. by destruct ccw.
Qed.

Section case.
Context (pk : mission_item) (cmd cmd1 : Mission_Command) (l : list Z).
Hypothesis Hc : content cmd = 0 :: l.

(** The cases that store one parameter in [p1]. *)
Definition one_param (k : kind) : bool :=
  match k with
  | NAV_TAKEOFF | NAV_CONTINUE_AND_CHANGE_ALT | NAV_SPLINE_WAYPOINT | DO_SET_HOME | DO_SET_ROI => true
  | NAV_WAYPOINT => negb plane
  | _ => false
  end.

Lemma one_param_upload k p : one_param k = true ->
  upload_case plane k p cmd = (c ← p1_from (param1 p) cmd; Some (c, true)).
Proof. destruct k; try done. simpl. by destruct plane. Qed.

Lemma one_param_download k c pk0 : one_param k = true ->
  download_case plane k c pk0 = (with_params pk0 (of_int (p1 c)) 0 0 0, true).
Proof. destruct k; try done. simpl. by destruct plane. Qed.

Lemma p1_from_result p c : p1_from p cmd = Some c ->
  exists v, wide v /\ c = case_result cmd l v false false.
Proof.
  unfold p1_from. intros (v & Hv & ?)%bind_Some. simplify_eq. exists v.
  split; [by apply to_uint16_inv in Hv|]. unfold case_result, with_p1. by rewrite Hc.
Qed.

Lemma one_param_again k : one_param k = true -> upload_case plane k pk cmd = Some (cmd1, true) ->
  exists v, wide v /\ cmd1 = case_result cmd l v false false /\ comes_back k cmd l v false false.
Proof.
  intros Hk. rewrite one_param_upload by done. intros (c & Hp & ?)%bind_Some. simplify_eq.
  apply p1_from_result in Hp as (v & Hw & ->). exists v. split; [done|]. split; [done|].
  intros c pk0 <- _ _ _. rewrite one_param_download by done. do 4 eexists. split; [reflexivity|].
  intros pk' (H1 & _). rewrite one_param_upload, H1 by done. simpl. unfold p1_from.
  rewrite to_uint16_of_int by done. exists (p1 c), false. split; [split; [by left|done]|].
  simpl. unfold case_result, with_p1. by rewrite Hc.
Qed.

Lemma waypoint_again : plane = true -> upload_case plane NAV_WAYPOINT pk cmd = Some (cmd1, true) ->
  exists v, wide v /\ cmd1 = case_result cmd l v false false /\
    comes_back NAV_WAYPOINT cmd l v false false.
Proof.
  intros Hp. cbn [upload_case]. rewrite Hp. intros (a & Ha & H)%bind_Some.
  apply bind_Some in H as (b & Hb & H). simplify_eq.
  exists (u16 ((Z.min 255 b << 8) ||| (Z.min 255 a &&& 255))). split; [apply u16_range|].
  split; [unfold case_result, with_p1; by rewrite Hc|].
  set (v := u16 _). assert (Hv : wide v) by apply u16_range. clearbody v.
  intros c pk0 <- _ _ _. cbn [download_case]. rewrite ?Hp. do 4 eexists. split; [reflexivity|].
  intros pk' (_ & H2 & H3 & _). cbn [upload_case]. rewrite ?Hp, H2, H3. simpl.
  assert (Hl : 0 <= LOWBYTE (p1 c) < 256) by apply u8_range.
  assert (Hh : 0 <= HIGHBYTE (p1 c) < 256) by apply u8_range.
  rewrite !to_uint16_of_int by lia. simpl. exists (p1 c), false. split; [split; [by left|done]|].
  rewrite !Z.min_r by lia. rewrite low_high by done. unfold case_result, with_p1. by rewrite Hc.
Qed.

Lemma loiter_unlim_again : upload_case plane NAV_LOITER_UNLIM pk cmd = Some (cmd1, true) ->
  exists v ccw, wide v /\ cmd1 = case_result cmd l v ccw false /\
    comes_back NAV_LOITER_UNLIM cmd l v ccw false.
Proof.
  cbn [upload_case]. intros (c & H & ?)%bind_Some. apply bind_Some in H as (v & Hv & H). simplify_eq.
  apply f32_to_uint16_inv in Hv. set (ccw := negative _). clearbody ccw. exists v, ccw. split; [done|].
  unfold with_p1, case_result. rewrite (case_flag cmd l) by done. split; [done|].
  send_again. rewrite signed_times by done. rewrite signed_abs by done. simpl.
  rewrite signed_negative by done. do 2 eexists. split; [split; [by left|reflexivity]|].
  unfold case_result, with_p1. by rewrite (case_flag cmd l).
Qed.

Lemma loiter_to_alt_again : upload_case plane NAV_LOITER_TO_ALT pk cmd = Some (cmd1, true) ->
  exists v ccw xtrack, wide v /\ cmd1 = case_result cmd l v ccw xtrack /\
    comes_back NAV_LOITER_TO_ALT cmd l v ccw xtrack.
Proof.
  cbn [upload_case]. intros (c & H & ?)%bind_Some. apply bind_Some in H as (v & Hv & H). simplify_eq.
  apply f32_to_uint16_inv in Hv. set (ccw := negative _). set (xtrack := positive _).
  clearbody ccw xtrack. exists v, ccw, xtrack. split; [done|].
  unfold with_p1, case_result. rewrite (case_flags cmd l) by done. split; [done|].
  send_again. fold (signed ccw (p1 c)). rewrite signed_abs by done. simpl.
  rewrite signed_negative, b2f_positive by done. do 2 eexists. split; [split; [by left|reflexivity]|].
  unfold case_result, with_p1. by rewrite (case_flags cmd l).
Qed.

Lemma loiter_turns_again : upload_case plane NAV_LOITER_TURNS pk cmd = Some (cmd1, true) ->
  exists v ccw xtrack, wide v /\ cmd1 = case_result cmd l v ccw xtrack /\
    comes_back NAV_LOITER_TURNS cmd l v ccw xtrack.
Proof.
  cbn [upload_case]. intros (c & H & ?)%bind_Some. apply bind_Some in H as (n & Hn & H).
  apply bind_Some in H as (r & Hr & H). simplify_eq.
  set (v := u16 _). assert (Hv : wide v) by apply u16_range. set (ccw := negative _).
  set (xtrack := positive _). clearbody v ccw xtrack. exists v, ccw, xtrack. split; [done|].
  unfold with_p1, case_result. rewrite (case_flags cmd l) by done. split; [done|].
  send_again. fold (signed ccw (HIGHBYTE (p1 c))).
  assert (Hl : 0 <= LOWBYTE (p1 c) < 256) by apply u8_range.
  assert (Hh : 0 <= HIGHBYTE (p1 c) < 256) by apply u8_range.
  rewrite to_uint16_of_int by lia. simpl. rewrite signed_abs by lia. simpl.
  rewrite signed_negative, b2f_positive by lia. do 2 eexists. split; [split; [by left|reflexivity]|].
  rewrite low_high by done. unfold case_result, with_p1. by rewrite (case_flags cmd l).
Qed.

Lemma loiter_time_again : upload_case plane NAV_LOITER_TIME pk cmd = Some (cmd1, true) ->
  exists v ccw xtrack, wide v /\ cmd1 = case_result cmd l v ccw xtrack /\
    comes_back NAV_LOITER_TIME cmd l v ccw xtrack.
Proof.
  cbn [upload_case]. unfold p1_from. intros (c & H & ?)%bind_Some. apply bind_Some in H as (v & Hv & H).
  apply bind_Some in Hv as (w & Hw & ?). simplify_eq. apply to_uint16_inv in Hw.
  set (ccw := negative _). set (xtrack := positive _). clearbody ccw xtrack.
  exists w, ccw, xtrack. split; [done|].
  unfold with_p1, case_result. rewrite (case_flags cmd l) by done. split; [done|].
  send_again. rewrite to_uint16_of_int by done. simpl. rewrite sign_negative, b2f_positive.
  exists (p1 c), ccw. split; [split; [by left|by rewrite andb_true_r]|].
  unfold case_result, with_p1. by rewrite (case_flags cmd l).
Qed.

Lemma land_again : upload_case plane NAV_LAND pk cmd = Some (cmd1, true) ->
  exists v ccw, wide v /\ cmd1 = case_result cmd l v ccw false /\
    comes_back NAV_LAND cmd l v ccw false.
Proof.
  cbn [upload_case]. unfold p1_from. intros (c & H & ?)%bind_Some. apply bind_Some in H as (v & Hv & H).
  apply bind_Some in Hv as (w & Hw & ?). simplify_eq. apply to_uint16_inv in Hw.
  set (ccw := is_negative _). clearbody ccw. exists w, ccw. split; [done|].
  unfold with_p1, case_result. rewrite (case_flag cmd l) by done. split; [done|].
  send_again. rewrite to_uint16_of_int by done. simpl. rewrite sign_is_negative.
  exists (p1 c), ccw. split; [split; [by left|by rewrite andb_true_r]|].
  unfold case_result, with_p1. by rewrite (case_flag cmd l).
Qed.

Lemma payload_again : upload_case plane NAV_PAYLOAD_PLACE pk cmd = Some (cmd1, true) ->
  exists v, wide v /\ cmd1 = case_result cmd l v false false /\
    comes_back NAV_PAYLOAD_PLACE cmd l v false false.
Proof.
  cbn [upload_case]. intros (c & H & ?)%bind_Some. apply bind_Some in H as (v & Hv & H). simplify_eq.
  apply f32_to_uint16_inv in Hv. exists v. split; [done|].
  split; [unfold case_result, with_p1; by rewrite Hc|].
  send_again. destruct (payload_back (p1 c) Hv) as (v' & -> & Hv'). simpl. exists v', false.
  split; [split; [naive_solver|done]|]. unfold case_result, with_p1. by rewrite Hc.
Qed.

(** The cases that set nothing but the location. *)
Lemma no_param_again k : wide (p1 cmd) ->
  k = DO_LAND_START \/ k = NAV_VTOL_TAKEOFF \/ k = NAV_VTOL_LAND ->
  upload_case plane k pk cmd = Some (cmd1, true) ->
  exists v, wide v /\ cmd1 = case_result cmd l v false false /\ comes_back k cmd l v false false.
Proof.
  intros Hw Hk H.
  assert (Hres : cmd = case_result cmd l (p1 cmd) false false)
    by (unfold case_result; change (options _ _ _ _) with 0; rewrite <- Hc; by destruct cmd).
  assert (Hup : forall p, upload_case plane k p cmd = Some (cmd, true)) by (by destruct Hk as [->|[->| ->]]).
  rewrite Hup in H. simplify_eq. exists (p1 cmd1). split; [done|]. split; [done|].
  intros c pk0 Hp _ _ Hpk. exists 0, 0, 0, 0. rewrite Hpk. split; [by destruct Hk as [->|[->| ->]]|].
  intros pk' _. rewrite Hup. exists (p1 cmd1), false. split; [split; [by left|done]|]. by rewrite <- Hres.
Qed.

(** Every command with a location. *)
Lemma case_again k : located k = true -> wide (p1 cmd) ->
  upload_case plane k pk cmd = Some (cmd1, true) ->
  exists v ccw xtrack, wide v /\ cmd1 = case_result cmd l v ccw xtrack /\
    comes_back k cmd l v ccw xtrack.
Proof.
  intros Hk Hw H. destruct (one_param k) eqn:H1.
  { destruct (one_param_again k H1 H) as (v & ?). by exists v, false, false. }
  destruct k; try done.
  - destruct waypoint_again as (v & ?); [by apply negb_false_iff|done|]. by exists v, false, false.
  - destruct loiter_unlim_again as (v & ccw & ?); [done|]. by exists v, ccw, false.
  - by apply loiter_turns_again.
  - by apply loiter_time_again.
  - destruct land_again as (v & ccw & ?); [done|]. by exists v, ccw, false.
  - by apply loiter_to_alt_again.
  - destruct (no_param_again DO_LAND_START Hw) as (v & ?); [by left|done|]. by exists v, false, false.
  - destruct (no_param_again NAV_VTOL_TAKEOFF Hw) as (v & ?); [by right; left|done|]. by exists v, false, false.
  - destruct (no_param_again NAV_VTOL_LAND Hw) as (v & ?); [by right; right|done|]. by exists v, false, false.
  - destruct payload_again as (v & ?); [done|]. by exists v, false, false.
Qed.
End case.

(** ** Commands without a location *)

(** The fields of a packet. *)
Definition item_ok (p : mission_item) : Prop :=
  Forall (fun v => 0 <= v < 2 ^ 32) [param1 p; param2 p; param3 p; param4 p; item_z p] /\
  Forall int32 [item_x p; item_y p] /\ 0 <= item_seq p < 65536 /\ 0 <= item_command p < 65536.

(** The height of the start of an engine may lose a centimetre. *)
Definition engine_again (k : kind) (c c' : list Z) : Prop :=
  k = DO_ENGINE_CONTROL /\ c' = list_inserts 2 (le_bytes 2 (get 2 2 c - 1)) c.

Lemma i8_mod v : -128 <= v < 128 -> i8 (v mod 256 ^ Z.of_nat 1) = v.
Proof. intros Hv. change (256 ^ Z.of_nat 1) with 256. unfold i8. zlia. Qed.

Lemma i16_mod v : -32768 <= v < 32768 -> i16 (v mod 256 ^ Z.of_nat 2) = v.
Proof. intros Hv. change (256 ^ Z.of_nat 2) with 65536. unfold i16. zlia. Qed.

Lemma u8_mod v : u8 (u8 v mod 256 ^ Z.of_nat 1) = u8 v.
Proof. change (256 ^ Z.of_nat 1) with 256. unfold u8. zlia. Qed.

Lemma bool_mod (b : bool) : nz ((if b then 1 else 0) mod 256 ^ Z.of_nat 1) = b.
Proof. by destruct b. Qed.

Lemma put_put o n v v' c : list_inserts o (le_bytes n v') (list_inserts o (le_bytes n v) c) =
  list_inserts o (le_bytes n v') c.
Proof.
  apply list_eq. intros i. rewrite !lookup_inserts_dec, length_inserts, !le_bytes_length.
  repeat case_decide; done || lia.
Qed.

Lemma put_len o n v c : length (list_inserts o (le_bytes n v) c) = length c.
Proof. by rewrite length_inserts. Qed.

Lemma engine_back v : wide v -> exists v',
  f32_to_uint16 (f32_of_bits (bits_of_f32 (f32_of_Z v * f32_lit 10737418 (-30))%f32) * f32_of_Z 100)%f32 = Some v' /\
  (v' = v \/ v' = v - Z.sgn v).
Proof.
  unfold wide. intros Hv. fold f100. fold f001.
  destruct (centi_mul_plain v) as [Hp _]; [unfold max_cm; lia|].
  rewrite f32_of_bits_of by done. destruct (centi_mul v) as (b & Hb & Hv'); [unfold max_cm; lia|].
  exists b. split; [|done]. unfold f32_to_uint16. rewrite Hb. simpl.
  by rewrite (proj2 (Z.leb_le _ _)), (proj2 (Z.ltb_lt _ _)) by lia.
Qed.

(** What was put is read. *)
Ltac reads :=
  repeat first
  [ rewrite get_put_eq by (rewrite ?put_len; lia)
  | rewrite get_put_ne by (rewrite ?le_bytes_length; lia) ];
  rewrite ?i8_mod, ?i16_mod by lia;
  repeat match goal with
  | |- context [?v mod 256 ^ Z.of_nat ?n] =>
    rewrite (Z.mod_small v (256 ^ Z.of_nat n)) by (simpl; lia)
  end.

Lemma unlocated_again k pk cmd cmd1 b pk0 : located k = false -> item_ok pk ->
  length (content cmd) = 12%nat ->
  upload_case plane k pk cmd = Some (cmd1, b) -> with_params pk0 0 0 0 0 = pk0 ->
  b = false /\ exists pk1, download_case plane k cmd1 pk0 = (pk1, false) /\
  exists cmd2, upload_case plane k pk1 cmd = Some (cmd2, false) /\
    index cmd1 = index cmd /\ id cmd1 = id cmd /\
    (cmd2 = cmd1 \/ cmd2 = with_content cmd1 (content cmd2) /\ engine_again k (content cmd1) (content cmd2)).
Proof.
  intros Hk Hok Hl H Hpk. destruct Hok as [Hok [Hxy _]].
  rewrite !Forall_cons in Hok. destruct Hok as (Hp1 & Hp2 & Hp3 & Hp4 & Hz & _).
  destruct k; try discriminate Hk; clear Hk; cbn [upload_case] in H;
    unfold p1_from, content_from, put_float, put_uint8, put_int8, put_uint16, put_int16, put in H.
  all: inv_binds; split; [reflexivity|]; cbn [download_case content p1]; eexists;
    (split; [reflexivity|]); cbn [upload_case with_params with_xyz param1 param2 param3 param4 item_x item_y item_z];
    unfold p1_from, content_from, put_float, put_uint8, put_int8, put_uint16, put_int16, put,
      get_float, get_uint8, get_int8, get_uint16, get_int16, with_content, with_p1;
    cbn [content p1 index id]; reads;
    rewrite ?in_range_of_int, ?to_uint16_of_int by lia; cbn [mbind option_bind].
  all: rewrite ?u8_mod, ?bool_mod, ?b2f_positive.
  all: try (eexists; split; [reflexivity|]; split; [done|]; split; [done|]; by left).
  match goal with Hv : f32_to_uint16 _ = Some ?w |- _ =>
    apply f32_to_uint16_inv in Hv; rename w into v; rename Hv into Hw end.
  rewrite Z.mod_small by (simpl; lia). destruct (engine_back v Hw) as (v' & -> & Hv'). simpl.
  eexists. split; [reflexivity|]. split; [done|]. split; [done|].
  destruct (decide (v' = v)) as [->|]; [by left|right]. split; [done|]. split; [done|]. simpl.
  rewrite get_put_eq by (rewrite !put_len; lia). rewrite Z.mod_small by (simpl; lia).
  rewrite put_put. by replace v' with (v - 1) by lia.
Qed.
End cases.

(** * Reading back *)

(** The command [c'] that is stored when what was read of [c] is sent again: the
    altitude may be a centimetre nearer to zero, as may the distance of a
    NAV_PAYLOAD_PLACE and the height of a DO_ENGINE_CONTROL; a loiter without a
    radius loses its direction; all else is the same. *)
Record reloaded (k : kind) (c c' : Mission_Command) : Prop := {
  re_index : index c' = index c;
  re_id : id c' = id c;
  re_p1 : p1 c' = p1 c \/ k = NAV_PAYLOAD_PLACE /\ p1 c' = p1 c - Z.sgn (p1 c);
  re_content : located k = false -> content c' = content c \/ engine_again k (content c) (content c');
  re_lat : located k = true -> Mission.location_lat c' = Mission.location_lat c;
  re_lng : located k = true -> Mission.location_lng c' = Mission.location_lng c;
  re_alt : located k = true -> location_alt (content c') = location_alt (content c) \/
    location_alt (content c') = location_alt (content c) - Z.sgn (location_alt (content c));
  re_flags : located k = true -> forall n, n <> loiter_ccw ->
    flag n (content c') = flag n (content c);
  re_ccw : located k = true ->
    flag loiter_ccw (content c') = flag loiter_ccw (content c) && negb (radius k (p1 c) =? 0)
}.

Lemma framed_options ccw xtrack rel terr : (terr = true -> rel = true) ->
  framed rel terr (options ccw xtrack false false) = options ccw xtrack rel terr.
Proof. intros H. destruct ccw, xtrack, rel, terr; try done; by specialize (H eq_refl). Qed.

Lemma flag_location ccw xtrack rel terr alt lat lng n :
  flag n (location_bytes (options ccw xtrack rel terr) alt lat lng) =
  Z.testbit (options ccw xtrack rel terr) n.
Proof. unfold flag. by rewrite location_options. Qed.

Lemma options_ccw ccw xtrack rel terr : Z.testbit (options ccw xtrack rel terr) 2 = ccw.
Proof. by destruct ccw, xtrack, rel, terr. Qed.
Lemma options_xtrack ccw xtrack rel terr : Z.testbit (options ccw xtrack rel terr) 5 = xtrack.
Proof. by destruct ccw, xtrack, rel, terr. Qed.
Lemma options_rel ccw xtrack rel terr : Z.testbit (options ccw xtrack rel terr) 0 = rel.
Proof. by destruct ccw, xtrack, rel, terr. Qed.
Lemma options_terr ccw xtrack rel terr : Z.testbit (options ccw xtrack rel terr) 3 = terr.
Proof. by destruct ccw, xtrack, rel, terr. Qed.

Lemma options_range ccw xtrack rel terr : 0 <= options ccw xtrack rel terr < 2 ^ 6.
Proof. unfold options. destruct ccw, xtrack, rel, terr; lia. Qed.

Lemma options_other ccw ccw' xtrack rel terr n : n <> 2 ->
  Z.testbit (options ccw xtrack rel terr) n = Z.testbit (options ccw' xtrack rel terr) n.
Proof.
  intros Hn. destruct (Z.lt_ge_cases n 0); [by rewrite !Z.testbit_neg_r|].
  destruct (Z.lt_ge_cases n 6).
  - assert (n = 0 \/ n = 1 \/ n = 3 \/ n = 4 \/ n = 5) as [->|[->|[->|[->| ->]]]] by lia;
      by destruct ccw, ccw', xtrack, rel, terr.
  - by rewrite !(testbit_above _ 6) by (done || apply options_range).
Qed.

(** The command that an item is converted into, [= {}]. *)
Abbreviation empty_cmd := (Command 0 0 0 (replicate 12 0)).

Section reading_back.
Context `{HN : MavNumbers, HL : !MavNumberLaws} (plane terrain : bool).

Lemma kind_of_spec idn k : kind_of idn = Some k <-> mav_cmd k = idn.
Proof.
  unfold kind_of. split.
  - intros H%find_some. destruct H as [_ ?%Z.eqb_eq]. done.
  - intros <-. destruct (find _ _) as [k'|] eqn:Hf.
    + apply find_some in Hf as [_ ?%Z.eqb_eq]. f_equal. by apply mav_cmd_inj.
    + assert (Hin : In k kinds) by (by destruct k; repeat (first [by left | right])).
      eapply find_none in Hf; [|exact Hin]. by rewrite Z.eqb_refl in Hf.
Qed.

Lemma upload_case_location k p cmd cmd1 b : upload_case plane k p cmd = Some (cmd1, b) -> b = located k.
Proof.
  destruct k; cbn [upload_case]; try (destruct plane); intros H;
    repeat match type of H with (_ ≫= _) = Some _ => apply bind_Some in H as (? & ? & H) end;
    by simplify_eq.
Qed.

(** The metres sent for an altitude. *)
Definition metres (terr : bool) (alt : Z) : spec_float :=
  if terr then (f32_of_Z alt * f001)%f32 else (f32_of_Z alt / f100)%f32.

Lemma metres_back terr alt : Z.abs alt < max_cm ->
  SFleb (f32_of_Z 83000) (SFabs (f32_of_bits (bits_of_f32 (metres terr alt)))) = false /\
  exists b, f32_trunc (f32_of_bits (bits_of_f32 (metres terr alt)) * f100)%f32 = Some b /\
    (b = alt \/ b = alt - Z.sgn alt).
Proof.
  intros Ha. unfold metres. destruct terr.
  - destruct (centi_mul_plain alt Ha) as [Hp Hl]. rewrite f32_of_bits_of by done.
    split; [done|]. apply centi_mul. lia.
  - destruct (centi_div_plain alt Ha) as [Hp Hl]. rewrite f32_of_bits_of by done.
    split; [done|]. apply centi_div. lia.
Qed.

Lemma download_location_of c pk ccw xtrack rel terr alt lat lng :
  Z.abs alt < max_cm -> int32 lat -> int32 lng -> (terr = true -> rel = true /\ terrain = true) ->
  content c = location_bytes (options ccw xtrack rel terr) alt lat lng ->
  download_location terrain c pk = (true, with_frame (with_xyz pk lat lng
    (bits_of_f32 (metres terr alt))) (frame_of rel terr)).
Proof.
  unfold max_cm. intros Ha Hlat Hlng Ht Hc. unfold download_location. rewrite Hc.
  rewrite !flag_location, options_rel, options_terr, location_alt_bytes by lia.
  destruct c as [i idn v ct]. simpl in Hc. subst ct.
  rewrite location_lat_bytes, location_lng_bytes by done. fold f100. fold f001.
  destruct terr; [destruct (Ht eq_refl) as [-> ->]; done|]. by destruct terrain, rel.
Qed.

(** A located command, sent again. *)
Lemma located_again k pk cmd l cmd1 c : located k = true -> item_ok pk -> wide (p1 cmd) ->
  content cmd = 0 :: l -> length l = 11%nat ->
  upload_case plane k pk cmd = Some (cmd1, true) ->
  upload_location terrain pk cmd1 = Some (MAV_MISSION_ACCEPTED, c) ->
  exists pk1 pk', download_case plane k c (with_defaults c no_item) = (pk1, true) /\
    download_location terrain c pk1 = (true, pk') /\
    item_seq pk' = index cmd /\ item_command pk' = id cmd /\
    exists cmd2 c', upload_case plane k pk' cmd = Some (cmd2, true) /\
      upload_location terrain pk' cmd2 = Some (MAV_MISSION_ACCEPTED, c') /\ reloaded k c c'.
Proof.
  intros Hk Hok Hw Hc Hl Hup Hloc. pose proof Hok as (Hfl & Hxy & _).
  rewrite !Forall_cons in Hfl. rewrite !Forall_cons in Hxy. destruct Hfl as (_&_&_&_&Hz&_). destruct Hxy as (Hx&Hy&_).
  assert (Hca := case_again plane pk cmd cmd1 l Hc k Hk Hw Hup). clear Hup.
  destruct Hca as (v & ccw & xtrack & Hv & Hr & Hback). subst cmd1.
  destruct (upload_location_inv terrain pk (case_result cmd l v ccw xtrack) c _ l Hz eq_refl Hl Hloc)
    as (alt & rel & terr & Ha & Hxr & Hyr & Hzt & Ht & Hcr). clear Hloc. subst c.
  assert (Ht' : terr = true -> rel = true) by naive_solver.
  simpl index; simpl id; simpl p1. rewrite framed_options by done.
  set (c := Command _ _ _ _).
  assert (Hcc : content c = location_bytes (options ccw xtrack rel terr) alt (item_x pk) (item_y pk)) by done.
  destruct (Hback c (with_defaults c no_item)) as (a1 & a2 & a3 & a4 & Hd & Hagain); [done|..|done|].
  { by rewrite Hcc, flag_location, options_ccw. }
  { by rewrite Hcc, flag_location, options_xtrack. }
  do 2 eexists. split; [exact Hd|]. 
  split; [by apply (download_location_of c _ ccw xtrack rel terr alt (item_x pk) (item_y pk))|].
  set (pk' := with_frame _ _). split; [done|]. split; [done|].
  destruct (Hagain pk') as (v' & ccw' & [Hv' Hccw] & Hup'); [done|].
  destruct (metres_back terr alt Ha) as (Hle & b & Hb & Hb').
  eexists. eexists. split; [exact Hup'|]. unfold max_cm in *. split.
  { apply (upload_location_of _ _ _ (options ccw' xtrack false false) l b rel terr);
      try done; unfold max_cm; lia. }
  simpl index; simpl id; simpl p1. rewrite framed_options by done. split; cbn [index id p1 content]; try done.
  - intros Hk'. by rewrite Hk in Hk'.
  - intros _. rewrite Hcc, !location_alt_bytes by lia. done.
  - intros _ n Hn. rewrite Hcc, !flag_location. by apply options_other.
  - intros _. by rewrite Hcc, !flag_location, !options_ccw.
Qed.

(** * Accepted items *)


Lemma bytes_put o n v c : bytes c -> bytes (list_inserts o (le_bytes n v) c).
Proof.
  unfold bytes. rewrite !Forall_lookup. intros Hc i b. rewrite lookup_inserts_dec.
  repeat case_decide; [|done|apply Hc].
  intros Hb. pose proof (le_bytes_bytes n v) as Hl. unfold bytes in Hl. rewrite Forall_lookup in Hl.
  by apply (Hl (i - o)%nat).
Qed.

Lemma location_bytes_bytes ccw xtrack rel terr alt lat lng :
  bytes (location_bytes (options ccw xtrack rel terr) alt lat lng).
Proof.
  pose proof (options_range ccw xtrack rel terr). constructor; [lia|].
  apply Forall_app. split; [|apply Forall_app; split]; apply le_bytes_bytes.
Qed.

(** The commands with a long number use the first bytes only. *)
Lemma long_content k pk cmd cmd1 b : k = DO_VTOL_TRANSITION \/ k = DO_WINCH ->
  length (content cmd) = 12%nat -> upload_case plane k pk cmd = Some (cmd1, b) ->
  drop 10 (content cmd1) = drop 10 (content cmd).
Proof.
  intros Hk Hl H. assert (Hd : forall o n v c, (o + n <= 10)%nat -> drop 10 (list_inserts o (le_bytes n v) c) = drop 10 c).
  { intros o n v c Ho. apply list_eq. intros i. rewrite !lookup_drop, lookup_inserts_dec, le_bytes_length.
    by rewrite decide_False by lia. }
  destruct Hk as [-> | ->]; cbn [upload_case] in H;
    unfold content_from, put_float, put_uint8, put in H; inv_binds; simpl; by rewrite !Hd by lia.
Qed.

Lemma unlocated_valid k pk cmd cmd1 b : located k = false -> wide (p1 cmd) ->
  length (content cmd) = 12%nat -> bytes (content cmd) ->
  upload_case plane k pk cmd = Some (cmd1, b) ->
  index cmd1 = index cmd /\ id cmd1 = id cmd /\ wide (p1 cmd1) /\
  length (content cmd1) = 12%nat /\ bytes (content cmd1).
Proof.
  intros Hk Hw Hl Hb H. destruct k; try discriminate Hk; clear Hk; cbn [upload_case] in H;
    unfold p1_from, content_from, put_float, put_uint8, put_int8, put_uint16, put_int16, put in H;
    inv_binds; simpl; rewrite ?put_len; (split; [done|]; split; [done|]; split; [done|]; split; [done|]);
    repeat apply bytes_put; done.
Qed.

Lemma upload_inv pk c0 b l c : content c0 = b :: l ->
  mavlink_int_to_mission_cmd plane terrain pk c0 = Some (MAV_MISSION_ACCEPTED, c) ->
  let cmd := Command (item_seq pk) (item_command pk) (p1 c0) (0 :: l) in
  item_command pk <> 0 /\ exists k, mav_cmd k = item_command pk /\
    if located k then exists cmd1, upload_case plane k pk cmd = Some (cmd1, true) /\
      upload_location terrain pk cmd1 = Some (MAV_MISSION_ACCEPTED, c)
    else upload_case plane k pk cmd = Some (c, false).
Proof.
  intros Hc H cmd. unfold mavlink_int_to_mission_cmd in H. rewrite Hc in H.
  change (list_inserts 0 [0] (b :: l)) with (0 :: l) in H. simpl id in H. fold cmd in H.
  destruct (Z.eqb_spec (item_command pk) 0); [done|]. split; [done|].
  destruct (kind_of _) as [k|] eqn:Hk; [|done]. apply kind_of_spec in Hk. exists k. split; [done|].
  apply bind_Some in H as ([cmd1 b'] & Hup & H). pose proof (upload_case_location _ _ _ _ _ Hup) as ->.
  destruct (located k); [by exists cmd1|]. by simplify_eq.
Qed.

Lemma upload_of pk c0 b l k cmd1 res c : content c0 = b :: l -> item_command pk = mav_cmd k ->
  let cmd := Command (item_seq pk) (item_command pk) (p1 c0) (0 :: l) in
  upload_case plane k pk cmd = Some (cmd1, located k) ->
  (if located k then upload_location terrain pk cmd1 else Some (MAV_MISSION_ACCEPTED, cmd1)) = Some (res, c) ->
  mavlink_int_to_mission_cmd plane terrain pk c0 = Some (res, c).
Proof.
  intros Hc Hk cmd Hup Hloc. unfold mavlink_int_to_mission_cmd. rewrite Hc.
  change (list_inserts 0 [0] (b :: l)) with (0 :: l). simpl id. fold cmd.
  pose proof (mav_cmd_range k). rewrite (proj2 (Z.eqb_neq _ _)) by lia.
  rewrite (proj2 (kind_of_spec _ k)) by done. rewrite Hup. simpl. by destruct (located k).
Qed.

Lemma download_case_ids k c pk pk1 b : download_case plane k c pk = (pk1, b) ->
  item_seq pk1 = item_seq pk /\ item_command pk1 = item_command pk.
Proof. destruct k; cbn [download_case]; try destruct plane; intros ?; by simplify_eq. Qed.

(** The index and the id of a command. *)
Lemma upload_ids k pk cmd cmd1 b : upload_case plane k pk cmd = Some (cmd1, b) ->
  index cmd1 = index cmd /\ id cmd1 = id cmd.
Proof.
  intros H. destruct k; cbn [upload_case] in H; try destruct plane;
    unfold p1_from, content_from, put_float, put_uint8, put_int8, put_uint16, put_int16, put in H;
    inv_binds; done.
Qed.

Lemma mission_item_id pk c : item_ok pk ->
  mavlink_int_to_mission_cmd plane terrain pk empty_cmd = Some (MAV_MISSION_ACCEPTED, c) ->
  index c = item_seq pk /\ id c = item_command pk.
Proof.
  intros (Hfl & _) H. rewrite !Forall_cons in Hfl. destruct Hfl as (_&_&_&_&Hz&_).
  apply (upload_inv _ _ 0 (replicate 11 0)) in H as (H0 & k & Hk & H); [|done].
  set (cmd := Command _ _ _ _) in H. destruct (located k) eqn:Hloc.
  - destruct H as (cmd1 & Hup & H).
    destruct (case_again plane pk cmd cmd1 _ eq_refl k Hloc ltac:(unfold wide; simpl; lia) Hup)
      as (v & ccw & xtrack & Hv & Hr & _). clear Hup. subst cmd1.
    destruct (upload_location_inv terrain pk (case_result cmd (replicate 11 0) v ccw xtrack) c _ (replicate 11 0) Hz eq_refl eq_refl H)
      as (alt & rel & terr & _ & _ & _ & _ & _ & Hcr). by rewrite Hcr.
  - by apply (upload_ids k pk cmd c false).
Qed.
End reading_back.

(** What is accepted, for the two theorems below and for the protocol. *)
Lemma accepted_valid `{HN : MavNumbers, HL : !MavNumberLaws} plane terrain pk c :
  item_ok pk ->
  mavlink_int_to_mission_cmd plane terrain pk empty_cmd = Some (MAV_MISSION_ACCEPTED, c) ->
  index c = item_seq pk /\ id c = item_command pk /\ MissionSpec.valid c /\
  (forall i, stored i blank c = Mission.with_index c i) /\
  forall k, mav_cmd k = item_command pk -> located k = true ->
    Mission.location_lat c = item_x pk /\ Z.abs (item_x pk) <= 900000000 /\
    Mission.location_lng c = item_y pk /\ Z.abs (item_y pk) <= 1800000000 /\
    f32_trunc (f32_of_bits (item_z pk) * f100)%f32 = Some (location_alt (content c)) /\
    Z.abs (location_alt (content c)) < max_cm.
Proof.
  intros Hok H. pose proof Hok as (Hfl & Hxy & Hseq & Hcmd).
  rewrite !Forall_cons in Hfl. rewrite !Forall_cons in Hxy.
  destruct Hfl as (_&_&_&_&Hz&_). destruct Hxy as (Hx&Hy&_).
  apply (upload_inv plane terrain _ _ 0 (replicate 11 0)) in H as (H0 & k & Hk & H); [|done].
  set (cmd := Command _ _ _ _) in H. destruct (located k) eqn:Hloc.
  - destruct H as (cmd1 & Hup & H).
    destruct (case_again plane pk cmd cmd1 _ eq_refl k Hloc ltac:(unfold wide; simpl; lia) Hup)
      as (v & ccw & xtrack & Hv & Hr & _). clear Hup. subst cmd1.
    destruct (upload_location_inv terrain pk (case_result cmd (replicate 11 0) v ccw xtrack) c _ (replicate 11 0) Hz eq_refl eq_refl H)
      as (alt & rel & terr & Ha & Hxr & Hyr & Hzt & Ht & Hcr). clear H. subst c. simpl.
    rewrite framed_options by naive_solver. split; [done|]. split; [done|]. split.
    { split; simpl; [lia|]. split; [done|]. split; [done|]. apply location_bytes_bytes. }
    split.
    + intros i. unfold stored. simpl. destruct (Z.ltb_spec (item_command pk) 256) as [|Hlong]; [done|].
      rewrite <- Hk in Hlong. by destruct (long_commands k Hlong) as [->| ->].
    + intros k' Hk' _. unfold max_cm in *.
      rewrite location_lat_bytes, location_lng_bytes, location_alt_bytes by (done || lia). done.
  - destruct (unlocated_valid plane k pk cmd c false Hloc) as (Hi & Hid & Hw & Hl & Hb); try done.
    { apply Forall_cons. split; [lia|]. by apply Forall_replicate. }
    rewrite Hi, Hid. split; [done|]. split; [done|]. split.
    { split; [rewrite Hid; simpl; lia|]. done. }
    split; [|intros k' Hk' Hl'; assert (k' = k) as -> by (apply mav_cmd_inj; congruence); congruence].
    intros i. unfold stored, Mission.with_index. rewrite Hid. f_equal.
    destruct (Z.ltb_spec (id cmd) 256) as [|Hlong]; [done|]. simpl id in Hlong. rewrite <- Hk in Hlong.
    pose proof (long_content plane k pk cmd c false (long_commands k Hlong) eq_refl H) as Hd.
    change (drop 10 (content blank)) with (drop 10 (content cmd)). by rewrite <- Hd, take_drop.
Qed.

Lemma accepted_reloaded `{HN : MavNumbers, HL : !MavNumberLaws} plane terrain pk c :
  item_ok pk ->
  mavlink_int_to_mission_cmd plane terrain pk empty_cmd = Some (MAV_MISSION_ACCEPTED, c) ->
  exists pk', mission_cmd_to_mavlink_int plane terrain c no_item = (true, pk') /\
    item_seq pk' = item_seq pk /\ item_command pk' = item_command pk /\
  exists c' k, mavlink_int_to_mission_cmd plane terrain pk' empty_cmd = Some (MAV_MISSION_ACCEPTED, c') /\
    mav_cmd k = item_command pk /\ reloaded k c c'.
Proof.
  intros Hok H. pose proof (mission_item_id plane terrain pk c Hok H) as [Hi Hid].
  apply (upload_inv plane terrain _ _ 0 (replicate 11 0)) in H as (H0 & k & Hk & H); [|done].
  set (cmd := Command _ _ _ _) in H. unfold mission_cmd_to_mavlink_int. rewrite Hid.
  rewrite (proj2 (Z.eqb_neq _ _)) by done. rewrite (proj2 (kind_of_spec _ k)) by done.
  destruct (located k) eqn:Hloc.
  - destruct H as (cmd1 & Hup & H).
    destruct (located_again plane terrain k pk cmd (replicate 11 0) cmd1 c Hloc Hok)
      as (pk1 & pk' & -> & Hd & Hs & Hc & cmd2 & c' & Hup' & Hup2 & Hre); try done.
    exists pk'. split; [done|]. split; [done|]. split; [done|]. exists c', k. split; [|done].
    apply (upload_of plane terrain pk' empty_cmd 0 (replicate 11 0) k cmd2); [done|by rewrite Hk| |by rewrite Hloc].
    rewrite Hs, Hc, Hloc. exact Hup'.
  - destruct (unlocated_again plane k pk cmd c false (with_defaults c no_item) Hloc Hok eq_refl H eq_refl)
      as (_ & pk1 & Hd & cmd2 & Hup & Hic & Hidc & Hres).
    rewrite Hd. exists pk1. destruct (download_case_ids plane k c (with_defaults c no_item) pk1 false Hd) as [Hs Hc].
    rewrite Hs, Hc. split; [done|]. split; [done|]. split; [done|]. exists cmd2, k. split.
    + apply (upload_of plane terrain pk1 empty_cmd 0 (replicate 11 0) k cmd2); [done|by rewrite Hc, Hk| |by rewrite Hloc].
      rewrite Hs, Hc, Hloc. simpl. rewrite Hi, Hid. exact Hup.
    + split; [done|]. destruct Hres as [->|[-> He]]; split; try done; try (intros; congruence).
      all: first [by left | by (intros _; left) | by (intros _; right)].
Qed.

(** C31. An item that is accepted, in an empty command, is a well-formed command:
    its index and id are those of the item, [p1] has 16 bits and the content is 12
    bytes, all of which survive the 15 bytes of storage, also when the id needs
    16 bits.  The latitude and longitude of a location are those of the item and
    in range, and its altitude is the centimetres of the item's metres, below 83
    km, which fit in the 24 bits kept of them. *)
Theorem mission_item_valid `{HN : MavNumbers, HL : !MavNumberLaws} plane terrain pk c :
  item_ok pk ->
  mavlink_int_to_mission_cmd plane terrain pk empty_cmd = Some (MAV_MISSION_ACCEPTED, c) ->
  index c = item_seq pk /\ id c = item_command pk /\ MissionSpec.valid c /\
  (forall i, stored i blank c = Mission.with_index c i) /\
  forall k, mav_cmd k = item_command pk -> located k = true ->
    Mission.location_lat c = item_x pk /\ Z.abs (item_x pk) <= 900000000 /\
    Mission.location_lng c = item_y pk /\ Z.abs (item_y pk) <= 1800000000 /\
    f32_trunc (f32_of_bits (item_z pk) * f100)%f32 = Some (location_alt (content c)) /\
    Z.abs (location_alt (content c)) < max_cm.
Proof. apply accepted_valid. Qed.

(** C28. Reading the commands of a mission back and sending them again keeps them:
    for an accepted item there is an item to be sent, with the same number, which
    is accepted too and makes the same command, but for what [reloaded] lists. *)
Theorem mission_item_reloaded `{HN : MavNumbers, HL : !MavNumberLaws} plane terrain pk c :
  item_ok pk ->
  mavlink_int_to_mission_cmd plane terrain pk empty_cmd = Some (MAV_MISSION_ACCEPTED, c) ->
  exists pk', mission_cmd_to_mavlink_int plane terrain c no_item = (true, pk') /\
    item_seq pk' = item_seq pk /\ item_command pk' = item_command pk /\
  exists c' k, mavlink_int_to_mission_cmd plane terrain pk' empty_cmd = Some (MAV_MISSION_ACCEPTED, c') /\
    mav_cmd k = item_command pk /\ reloaded k c c'.
Proof. apply accepted_reloaded. Qed.

(** * Examples *)

(** The numbers that MAVLink documents. *)
Definition demo_number (k : kind) : Z :=
  match k with
  | NAV_WAYPOINT => 16 | NAV_LOITER_UNLIM => 17 | NAV_LOITER_TURNS => 18 | NAV_LOITER_TIME => 19
  | NAV_RETURN_TO_LAUNCH => 20 | NAV_LAND => 21 | NAV_TAKEOFF => 22
  | NAV_CONTINUE_AND_CHANGE_ALT => 30 | NAV_LOITER_TO_ALT => 31 | NAV_SPLINE_WAYPOINT => 82
  | NAV_ALTITUDE_WAIT => 83 | NAV_VTOL_TAKEOFF => 84 | NAV_VTOL_LAND => 85
  | NAV_GUIDED_ENABLE => 92 | NAV_DELAY => 93 | NAV_PAYLOAD_PLACE => 94
  | CONDITION_DELAY => 112 | CONDITION_DISTANCE => 114 | CONDITION_YAW => 115
  | DO_SET_MODE => 176 | DO_JUMP => 177 | DO_CHANGE_SPEED => 178 | DO_SET_HOME => 179
  | DO_SET_RELAY => 181 | DO_REPEAT_RELAY => 182 | DO_SET_SERVO => 183 | DO_REPEAT_SERVO => 184
  | DO_LAND_START => 189 | DO_SET_REVERSE => 194 | DO_SET_ROI => 201
  | DO_DIGICAM_CONFIGURE => 202 | DO_DIGICAM_CONTROL => 203 | DO_MOUNT_CONTROL => 205
  | DO_SET_CAM_TRIGG_DIST => 206 | DO_FENCE_ENABLE => 207 | DO_PARACHUTE => 208
  | DO_INVERTED_FLIGHT => 210 | DO_GRIPPER => 211 | DO_AUTOTUNE_ENABLE => 212
  | NAV_SET_YAW_SPEED => 213 | DO_GUIDED_LIMITS => 222 | DO_ENGINE_CONTROL => 223
  | DO_VTOL_TRANSITION => 3000 | DO_WINCH => 42600
  end.

#[export] Instance demo_numbers : MavNumbers := {
  mav_cmd := demo_number;
  NAV_LAST := 95;
  MAV_FRAME_MISSION := 2;
  MAV_FRAME_GLOBAL := 0;
  MAV_FRAME_GLOBAL_RELATIVE_ALT := 3;
  MAV_FRAME_GLOBAL_TERRAIN_ALT := 10
}.

#[export] Instance demo_number_laws : MavNumberLaws.
Proof.
  split.
  - intros []; simpl; lia.
  - intros [] []; simpl; done || lia.
  - simpl. lia.
  - intros []; simpl; auto; lia.
  - simpl. lia.
Qed.

(** A loiter of two turns, counter-clockwise, around a point 100.5 m above home. *)
Definition demo_item : mission_item :=
  Item (of_int 2) 0 (of_int (-50)) 0 (-353632610) 1491652300 (bits_of_f32 (f32_lit 201 (-1)))
    3 18 1 1 3 0 1.
Definition demo_cmd : Mission_Command :=
  Command 3 18 (50 * 256 + 2) (location_bytes (options true false true false) 10050 (-353632610) 1491652300).

Lemma demo_item_ok : item_ok demo_item.
Proof. repeat split; repeat constructor; vm_compute; first [done | discriminate]. Qed.

Lemma mission_item_valid_witness :
  mavlink_int_to_mission_cmd false true demo_item empty_cmd = Some (MAV_MISSION_ACCEPTED, demo_cmd) /\
  Mission.location_lat demo_cmd = -353632610 /\ Z.abs (location_alt (content demo_cmd)) < max_cm.
Proof.
  assert (H : mavlink_int_to_mission_cmd false true demo_item empty_cmd = Some (MAV_MISSION_ACCEPTED, demo_cmd))
    by (vm_compute; reflexivity).
  split; [exact H|].
  destruct (mission_item_valid false true demo_item demo_cmd demo_item_ok H) as (_ & _ & _ & _ & Hl).
  destruct (Hl NAV_LOITER_TURNS eq_refl eq_refl) as (Hlat & _ & _ & _ & _ & Ha). split; [exact Hlat|exact Ha].
Defined.

Lemma mission_item_reloaded_witness :
  exists pk', mission_cmd_to_mavlink_int false true demo_cmd no_item = (true, pk') /\
    item_seq pk' = 3 /\ item_command pk' = 18.
Proof.
  destruct (mission_item_reloaded false true demo_item demo_cmd demo_item_ok) as (pk' & H & Hs & Hc & _).
  - vm_compute. reflexivity.
  - exists pk'. split; [exact H|]. split; [exact Hs|exact Hc].
Defined.

(** ** What is lost *)

(** The altitude of a location that is read back and sent again. *)
Definition reloaded_alt (alt : Z) : option Z := f32_trunc (f32_of_Z alt / f100 * f100)%f32.

(** 53 cm become 52, and 209 become 208. *)
Example altitude_lost : map reloaded_alt [53; 59; 105; 209; 100] =
  [Some 52; Some 58; Some 104; Some 208; Some 100].
Proof. vm_compute. reflexivity. Qed.

(** The radius of a loiter of turns is kept modulo 256 m. *)
Example radius_lost :
  (mavlink_int_to_mission_cmd false true
    (Item (of_int 2) 0 (of_int 300) 0 0 0 0 3 18 1 1 3 0 1) empty_cmd) =
  Some (MAV_MISSION_ACCEPTED, Command 3 18 (44 * 256 + 2) (location_bytes 1 0 0 0)).
Proof. vm_compute. reflexivity. Qed.

(** An altitude that is not a number passes the check, and is then converted. *)
Example nan_altitude :
  mavlink_int_to_mission_cmd false true
    (Item 0 0 0 0 0 0 (bits_of_f32 S754_nan) 3 16 1 1 3 0 1) empty_cmd = None.
Proof. vm_compute. reflexivity. Qed.
