(* ===== verification/MissionProtocol.v ===== *)
(** The mission protocol of a MAVLink link: libraries/GCS_MAVLink/GCS_Common.cpp.
    A ground station sends the commands of a mission one by one, as the vehicle
    asks for them, or reads them one by one.

    The generated code that packs and unpacks messages is left out: a message is
    its fields.  What the vehicle does on its own, and the link, are a class. *)
From S2P Require Import Prelude Storage Mission MissionItem.
Open Scope urus_scope.
Import StorageManager MissionItem.

(** A message that was sent, with its receiver. *)
Inductive sent_message :=
| SentCount (sysid compid n : Z)
| SentAck (sysid compid : Z) (result : MAV_MISSION_RESULT)
| SentRequest (sysid compid seq : Z)
| SentItemInt (p : mission_item)
| SentItem (p : mission_item)
| SentCurrent (seq : Z)
| SentReached (seq : Z)
| SentText (received : bool).   (* Flight plan received, or update rejected *)

(** The messages whose size is asked for. *)
Inductive sized := S_MISSION_ITEM | S_MISSION_REQUEST | S_MISSION_CURRENT | S_MISSION_ITEM_REACHED.

(** The link and the vehicle: the bytes that can be sent, the effect of a message
    on them, the size of messages ([packet_overhead], [MAVLINK_MSG_ID_<id>_LEN]),
    the requests to a guided vehicle, whether a vehicle's own [try_send_message]
    goes on, sending a message that is not about the mission, the signing timestamp
    and the log. *)
Class Ground (W : Type) := {
  comm_get_txspace : W -> Z;
  transmit : sent_message -> W -> W;
  packet_overhead : W -> Z;
  payload_len : sized -> Z;
  handle_guided_request : W -> Mission_Command -> bool * W;
  handle_change_alt_request : W -> Mission_Command -> W;
  may_send : Z -> W -> bool;
  try_send_other : Z -> W -> bool * W;
  save_signing_timestamp : W -> W;
  Log_Write_EntireMission : W -> W
}.

Module MissionProtocol.

(** [enum ap_message] *)
Definition MSG_HEARTBEAT : Z := 0.
Definition MSG_CURRENT_WAYPOINT : Z := 6.
Definition MSG_NEXT_WAYPOINT : Z := 19.
Definition MSG_MISSION_ITEM_REACHED : Z := 41.
Definition MSG_LAST : Z := 48.

Definition waypoint_receive_timeout : Z := 8000.

(** The messages of a ground station about the mission; [ITEM] has floats for [x]
    and [y] and [ITEM_INT] has not. *)
Inductive message :=
| REQUEST_LIST
| REQUEST (seq : Z)
| REQUEST_INT (seq : Z)
| SET_CURRENT (seq : Z)
| COUNT (count : Z)
| CLEAR_ALL
| WRITE_PARTIAL_LIST (start_index end_index : Z)
| ITEM (packet : mission_item)
| ITEM_INT (packet : mission_item)
| ACK.

Section protocol.
Context {S W : Type} `{HalStorage S, Vehicle W, MavNumbers, Ground W}.
(** The layout of the storage, the content of an uninitialised local, the build,
    and the bound of the searches of [set_current_cmd]. *)
Context (layout : list StorageArea) (junk : Mission_Command) (plane terrain : bool) (fuel : nat).

Record t := mk {
  initialised : bool;
  waypoint_receiving : bool;
  waypoint_request_i : Z;
  waypoint_request_last : Z;
  waypoint_dest_sysid : Z;
  waypoint_dest_compid : Z;
  waypoint_timelast_receive : Z;
  waypoint_timelast_request : Z;
  stream_slowdown : Z;
  mission_item_reached_index : Z;
  deferred_messages : list Z;
  next_deferred_message : Z;
  num_deferred_messages : Z;
  mission : Mission.t S W;
  sent : list sent_message          (* the last one first *)
}.
Implicit Types (g : t).

Definition set_mission g (m : Mission.t S W) : t :=
  mk (initialised g) (waypoint_receiving g) (waypoint_request_i g) (waypoint_request_last g)
    (waypoint_dest_sysid g) (waypoint_dest_compid g) (waypoint_timelast_receive g)
    (waypoint_timelast_request g) (stream_slowdown g) (mission_item_reached_index g)
    (deferred_messages g) (next_deferred_message g) (num_deferred_messages g) m (sent g).
Definition set_receiving g (b : bool) : t :=
  mk (initialised g) b (waypoint_request_i g) (waypoint_request_last g)
    (waypoint_dest_sysid g) (waypoint_dest_compid g) (waypoint_timelast_receive g)
    (waypoint_timelast_request g) (stream_slowdown g) (mission_item_reached_index g)
    (deferred_messages g) (next_deferred_message g) (num_deferred_messages g) (mission g) (sent g).
Definition set_request g (i last : Z) : t :=
  mk (initialised g) (waypoint_receiving g) i last
    (waypoint_dest_sysid g) (waypoint_dest_compid g) (waypoint_timelast_receive g)
    (waypoint_timelast_request g) (stream_slowdown g) (mission_item_reached_index g)
    (deferred_messages g) (next_deferred_message g) (num_deferred_messages g) (mission g) (sent g).
Definition set_dest g (sysid compid : Z) : t :=
  mk (initialised g) (waypoint_receiving g) (waypoint_request_i g) (waypoint_request_last g)
    sysid compid (waypoint_timelast_receive g)
    (waypoint_timelast_request g) (stream_slowdown g) (mission_item_reached_index g)
    (deferred_messages g) (next_deferred_message g) (num_deferred_messages g) (mission g) (sent g).
Definition set_times g (receive request : Z) : t :=
  mk (initialised g) (waypoint_receiving g) (waypoint_request_i g) (waypoint_request_last g)
    (waypoint_dest_sysid g) (waypoint_dest_compid g) receive
    request (stream_slowdown g) (mission_item_reached_index g)
    (deferred_messages g) (next_deferred_message g) (num_deferred_messages g) (mission g) (sent g).
Definition set_deferred g (msgs : list Z) (next num : Z) : t :=
  mk (initialised g) (waypoint_receiving g) (waypoint_request_i g) (waypoint_request_last g)
    (waypoint_dest_sysid g) (waypoint_dest_compid g) (waypoint_timelast_receive g)
    (waypoint_timelast_request g) (stream_slowdown g) (mission_item_reached_index g)
    msgs next num (mission g) (sent g).
Definition set_sent g (l : list sent_message) : t :=
  mk (initialised g) (waypoint_receiving g) (waypoint_request_i g) (waypoint_request_last g)
    (waypoint_dest_sysid g) (waypoint_dest_compid g) (waypoint_timelast_receive g)
    (waypoint_timelast_request g) (stream_slowdown g) (mission_item_reached_index g)
    (deferred_messages g) (next_deferred_message g) (num_deferred_messages g) (mission g) l.

Definition world g : W := Mission.vehicle (mission g).
Definition set_world g (w : W) : t := set_mission g (Mission.set_vehicle (mission g) w).
Definition now g : Z := u32 (millis (world g)).

(** A [mavlink_msg_..._send]. *)
Definition send g (m : sent_message) : t :=
  set_sent (set_world g (transmit m (world g))) (m :: sent g).

Definition HAVE_PAYLOAD_SPACE g (m : sized) : bool :=
  comm_get_txspace (world g) >=? packet_overhead (world g) + payload_len m.

(** * Sending, now or later *)

Definition queued_waypoint_send g : t :=
  if initialised g && waypoint_receiving g && (waypoint_request_i g <=? waypoint_request_last g)
  then send g (SentRequest (waypoint_dest_sysid g) (waypoint_dest_compid g) (waypoint_request_i g))
  else g.

(** [get_current_nav_index] *)
Definition get_current_nav_index g : Z :=
  let i := index (Mission._nav_cmd (mission g)) in
  if i =? Mission.AP_MISSION_CMD_INDEX_NONE then 0 else i.

(** [try_send_message] of the vehicle, with [try_send_mission_message]. *)
Definition try_send_message g (id : Z) : bool * t :=
  if negb (may_send id (world g)) then (false, g)
  else if id =? MSG_CURRENT_WAYPOINT then
    if HAVE_PAYLOAD_SPACE g S_MISSION_CURRENT
    then (true, send g (SentCurrent (get_current_nav_index g))) else (false, g)
  else if id =? MSG_MISSION_ITEM_REACHED then
    if HAVE_PAYLOAD_SPACE g S_MISSION_ITEM_REACHED
    then (true, send g (SentReached (mission_item_reached_index g))) else (false, g)
  else if id =? MSG_NEXT_WAYPOINT then
    if HAVE_PAYLOAD_SPACE g S_MISSION_REQUEST
    then (true, queued_waypoint_send g) else (false, g)
  else let '(ok, w) := try_send_other id (world g) in (ok, set_world g w).

(** The loop goes round once for each deferred message at most. *)
Fixpoint push_loop (n : nat) g : option t :=
  if num_deferred_messages g =? 0 then Some g
  else match n with
  | O => None
  | Datatypes.S n =>
    id ← arr_get (deferred_messages g) (next_deferred_message g);
    let '(ok, g) := try_send_message g id in
    if ok : bool then
      let next := u8 (next_deferred_message g + 1) in
      push_loop n (set_deferred g (deferred_messages g) (if next =? MSG_LAST then 0 else next)
                     (u8 (num_deferred_messages g - 1)))
    else Some g
  end.

Definition push_deferred_messages g : option t :=
  push_loop (Z.to_nat (num_deferred_messages g)) g.

Definition retry_deferred g : option t := push_deferred_messages g.

(** The search for a deferred message: whether it is found, and where it ends. *)
Fixpoint find_deferred (n : nat) (msgs : list Z) (id nextid : Z) : option (bool * Z) :=
  match n with
  | O => Some (false, nextid)
  | Datatypes.S n =>
    m ← arr_get msgs nextid;
    if m =? id then Some (true, nextid)
    else
      let nextid := u8 (nextid + 1) in
      find_deferred n msgs id (if nextid =? MSG_LAST then 0 else nextid)
  end.

Definition defer g (id : Z) : option t :=
  if num_deferred_messages g =? MSG_LAST then Some g
  else
    '(found, nextid) ← find_deferred (Z.to_nat (num_deferred_messages g))
                         (deferred_messages g) id (next_deferred_message g);
    if found : bool then Some g
    else
      msgs ← arr_set (deferred_messages g) nextid id;
      Some (set_deferred g msgs (next_deferred_message g) (u8 (num_deferred_messages g + 1))).

Definition send_message g (id : Z) : option t :=
  let g := if id =? MSG_HEARTBEAT then set_world g (save_signing_timestamp (world g)) else g in
  g ← push_deferred_messages g;
  if num_deferred_messages g =? 0 then
    let '(ok, g) := try_send_message g id in
    if ok : bool then Some g else defer g id
  else defer g id.

(** * The handlers *)

Definition handle_mission_request_list g (sysid compid : Z) : t :=
  set_receiving (send g (SentCount sysid compid (Mission.num_commands (mission g)))) false.

Definition mission_item_send_failed g (sysid compid : Z) : t :=
  send g (SentAck sysid compid MAV_MISSION_ERROR).

(** The packet that goes out: [current], [autocontinue], the target and the
    numbers are set again. *)
Definition reply_item g (cmd : Mission_Command) (p : mission_item) (sysid compid seq : Z) : mission_item :=
  let current := if id cmd =? u16 (index (Mission._nav_cmd (mission g))) then 1 else 0 in
  Item (param1 p) (param2 p) (param3 p) (param4 p) (item_x p) (item_y p) (item_z p)
    seq (id cmd) sysid compid (item_frame p) current 1.

Definition handle_mission_request_int g (sysid compid seq : Z) : t :=
  match Mission.read_cmd_from_storage layout (mission g) seq junk with
  | None => mission_item_send_failed g sysid compid
  | Some cmd =>
    let '(ok, ret_packet) := mission_cmd_to_mavlink_int plane terrain cmd no_item in
    if ok : bool then send g (SentItemInt (reply_item g cmd ret_packet sysid compid seq))
    else mission_item_send_failed g sysid compid
  end.

Definition handle_mission_request g (sysid compid seq : Z) : t :=
  if negb (seq =? 0) && (seq >=? Mission.num_commands (mission g)) then
    let g := send g (SentCount sysid compid (Mission.num_commands (mission g))) in
    mission_item_send_failed g sysid compid
  else
    match Mission.read_cmd_from_storage layout (mission g) seq junk with
    | None => mission_item_send_failed g sysid compid
    | Some cmd =>
      let '(ok, ret_packet) := mission_cmd_to_mavlink plane terrain cmd in
      if ok : bool then send g (SentItem (reply_item g cmd ret_packet sysid compid seq))
      else mission_item_send_failed g sysid compid
    end.

Definition handle_mission_set_current g (seq : Z) : option t :=
  '(ok, m) ← Mission.set_current_cmd layout junk fuel (mission g) seq;
  let g := set_mission g m in
  Some (if ok : bool then send g (SentCurrent seq) else g).

Definition handle_mission_count g (sysid compid count : Z) : t :=
  if count >? Mission.num_commands_max layout then
    send g (SentAck sysid compid MAV_MISSION_NO_SPACE)
  else
    let g := set_mission g (Mission.truncate (mission g) count) in
    let g := set_times g (now g) (waypoint_timelast_request g) in
    let g := set_receiving g true in
    let g := set_request g 0 count in
    let g := set_times g (waypoint_timelast_receive g) 0 in
    set_dest g sysid compid.

(** The acknowledgement has a MAV_RESULT_ACCEPTED, which is the same number. *)
Definition handle_mission_clear_all g (sysid compid : Z) : t :=
  let '(ok, m) := Mission.clear (mission g) in
  let g := set_mission g m in
  send g (SentAck sysid compid (if ok : bool then MAV_MISSION_ACCEPTED else MAV_MISSION_ERROR)).

(** The indices are [int16_t]. *)
Definition handle_mission_write_partial_list g (sysid compid start_index end_index : Z) : t :=
  let n := Mission.num_commands (mission g) in
  if (u32 start_index >? n) || (u32 end_index >? n) || (end_index <? start_index) then
    send g (SentText false)
  else
    let g := set_times g (now g) 0 in
    let g := set_receiving g true in
    let g := set_request g (u16 start_index) (u16 end_index) in
    set_dest g sysid compid.

(** ** [handle_mission_item] *)

(** [mission_ack] *)
Definition mission_ack g (sysid compid : Z) (result : MAV_MISSION_RESULT) : bool * t :=
  (false, send g (SentAck sysid compid result)).

(** Replacing or adding the command [seq]. *)
Definition store_command g (seq : Z) (cmd : Mission_Command) : bool * t :=
  let n := Mission.num_commands (mission g) in
  if seq <? n then
    let '(ok, m) := Mission.replace_cmd layout (mission g) seq cmd in (ok, set_mission g m)
  else if seq =? n then
    let '(ok, _, m) := Mission.add_cmd layout (mission g) cmd in (ok, set_mission g m)
  else (false, g).

(** The update of the state machine after a command is stored. *)
Definition next_item g (sysid compid : Z) : option (bool * t) :=
  let g := set_times g (now g) (waypoint_timelast_request g) in
  let g := set_request g (u16 (waypoint_request_i g + 1)) (waypoint_request_last g) in
  if waypoint_request_i g >=? waypoint_request_last g then
    let g := send g (SentAck sysid compid MAV_MISSION_ACCEPTED) in
    let g := send g (SentText true) in
    Some (true, set_receiving g false)
  else
    let g := set_times g (waypoint_timelast_receive g) (now g) in
    g ← (if HAVE_PAYLOAD_SPACE g S_MISSION_ITEM then Some (queued_waypoint_send g)
         else send_message g MSG_NEXT_WAYPOINT);
    Some (false, g).

(** The target of a DO_JUMP: a command of the mission, or of the upload. *)
Definition bad_jump g (cmd : Mission_Command) : bool :=
  (id cmd =? mav_cmd DO_JUMP) &&
  ((Mission.jump_target cmd >=? Mission.num_commands (mission g)) &&
   (Mission.jump_target cmd >=? waypoint_request_last g) || (Mission.jump_target cmd =? 0)).

Definition handle_mission_item g (sysid compid : Z) (float_item : bool) (packet : mission_item)
  : option (bool * t) :=
  let convert := if float_item then mavlink_to_mission_cmd plane terrain
                 else mavlink_int_to_mission_cmd plane terrain in
  '(result, cmd) ← convert packet (Command 0 0 0 (replicate 12 0));
  let ack g r := Some (mission_ack g sysid compid r) in
  if negb (bool_decide (result = MAV_MISSION_ACCEPTED)) then ack g result
  else if item_current packet =? 2 then
    let '(ok, w) := handle_guided_request (world g) cmd in
    ack (set_world g w) (if ok : bool then MAV_MISSION_ACCEPTED else MAV_MISSION_ERROR)
  else if item_current packet =? 3 then
    ack (set_world g (handle_change_alt_request (world g) cmd)) MAV_MISSION_ACCEPTED
  else if negb (waypoint_receiving g) then ack g MAV_MISSION_ERROR
  else if negb (item_seq packet =? waypoint_request_i g) then ack g MAV_MISSION_INVALID_SEQUENCE
  else if bad_jump g cmd then ack g MAV_MISSION_ERROR
  else
    let '(ok, g) := store_command g (item_seq packet) cmd in
    if ok : bool then next_item g sysid compid else ack g MAV_MISSION_ERROR.

(** [handle_common_mission_message], for a vehicle that has a mission. *)
Definition handle_common_mission_message g (sysid compid : Z) (msg : message) : option t :=
  let item float_item packet :=
    '(complete, g) ← handle_mission_item g sysid compid float_item packet;
    Some (if complete : bool then set_world g (Log_Write_EntireMission (world g)) else g) in
  match msg with
  | WRITE_PARTIAL_LIST a b => Some (handle_mission_write_partial_list g sysid compid a b)
  | ITEM packet => item true packet
  | ITEM_INT packet => item false packet
  | REQUEST_INT seq => Some (handle_mission_request_int g sysid compid seq)
  | REQUEST seq => Some (handle_mission_request g sysid compid seq)
  | SET_CURRENT seq => handle_mission_set_current g seq
  | REQUEST_LIST => Some (handle_mission_request_list g sysid compid)
  | COUNT n => Some (handle_mission_count g sysid compid n)
  | CLEAR_ALL => Some (handle_mission_clear_all g sysid compid)
  | ACK => Some g
  end.

(** The end of [update]: asking again, and giving up. *)
Definition update_waypoints g : option t :=
  if negb (waypoint_receiving g) then Some g
  else
    let tnow := now g in
    let wp_recv_time := u32 (1000 + stream_slowdown g * 20) in
    if u32 (tnow - waypoint_timelast_receive g) >? u32 (wp_recv_time + waypoint_receive_timeout) then
      Some (set_receiving g false)
    else if u32 (tnow - waypoint_timelast_request g) >? wp_recv_time then
      send_message (set_times g (waypoint_timelast_receive g) tnow) MSG_NEXT_WAYPOINT
    else Some g.

(** [handle_radio_status] adapts the pace to the transmit buffer of the radio. *)
Definition slowdown (txbuf s : Z) : Z :=
  if (txbuf <? 20) && (s <? 100) then u8 (s + 3)
  else if (txbuf <? 50) && (s <? 100) then u8 (s + 1)
  else if (txbuf >? 95) && (s >? 10) then u8 (s - 2)
  else if (txbuf >? 90) && negb (s =? 0) then u8 (s - 1)
  else s.

End protocol.
End MissionProtocol.
