(* ===== verification/MissionProtocolSpec.v ===== *)
(** What the mission protocol achieves: an upload that is acknowledged is in
    storage, and it is what a ground station reads back. *)
From S2P Require Import Prelude Float32 Float32Spec Storage StorageView Mission MissionSpec.
From S2P Require Import MissionDemo MissionItem MissionItemSpec MissionProtocol.
Open Scope urus_scope.
Import StorageManager MissionItem MissionProtocol.
#[local] Abbreviation length := (@Datatypes.length _).
(* The numbers of the commands are those of [MavNumbers]. *)
#[local] Remove Hints mav_common : typeclass_instances.

(** * Items as they are received *)

(** The command an item is converted into. *)
Definition convert `{MavNumbers} (plane terrain float_item : bool) (p : mission_item) :=
  (if float_item then mavlink_to_mission_cmd plane terrain else mavlink_int_to_mission_cmd plane terrain)
    p (Command 0 0 0 (replicate 12 0)).

(** The fields of a packet; [x] and [y] may be the bits of floats. *)
Definition packet_ok (float_item : bool) (p : mission_item) : Prop :=
  if float_item then
    Forall (fun v => 0 <= v < 2 ^ 32) [param1 p; param2 p; param3 p; param4 p; item_z p] /\
    0 <= item_seq p < 65536 /\ 0 <= item_command p < 65536
  else item_ok p.

(** The item of integers that an item stands for. *)
Lemma convert_int `{HN : MavNumbers} plane terrain float_item p c : packet_ok float_item p ->
  convert plane terrain float_item p = Some (MAV_MISSION_ACCEPTED, c) ->
  exists p', item_ok p' /\ item_seq p' = item_seq p /\ item_command p' = item_command p /\
    mavlink_int_to_mission_cmd plane terrain p' (Command 0 0 0 (replicate 12 0)) =
      Some (MAV_MISSION_ACCEPTED, c).
Proof.
  intros Hp. destruct float_item; [|by exists p]. destruct Hp as (Hf & Hs & Hc).
  assert (Hi : forall v w, f32_to_int32 v = Some w -> int32 w).
  { intros v w (u & _ & Hu)%bind_Some. revert Hu. unfold int32.
    destruct (Z.leb_spec (-2147483648) u), (Z.ltb_spec u 2147483648); simpl; intros; by simplify_eq. }
  assert (Hat : forall vx vy, int32 vx -> int32 vy -> item_ok (item_at p vx vy)).
  { intros vx vy Hx Hy. split; [exact Hf|]. split; [|done].
    apply Forall_cons. split; [done|]. by apply Forall_singleton. }
  unfold convert, mavlink_to_mission_cmd. destruct (digicam _).
  - intros (vx & Hx & H)%bind_Some. apply bind_Some in H as (vy & Hy & H).
    exists (item_at p vx vy). split; [by apply Hat; eapply Hi|done].
  - destruct (check_lat_float _); [|done]. destruct (check_lng_float _); [|done]. simpl negb. cbv iota.
    intros (vx & Hx & H)%bind_Some. apply bind_Some in H as (vy & Hy & H).
    exists (item_at p vx vy). split; [by apply Hat; eapply Hi|done].
Qed.

Section spec.
Context {S W : Type} `{HS : HalStorage S, HLaws : !HalStorageLaws S, HV : Vehicle W, HN : MavNumbers, HG : !Ground W, HL : !MavNumberLaws}.
Context (layout : list StorageArea) (junk : Mission_Command) (plane terrain : bool) (fuel : nat).
#[local] Abbreviation gcs := (@MissionProtocol.t S W).
#[local] Abbreviation maximum := (Mission.num_commands_max layout).
#[local] Abbreviation total g := (Mission._cmd_total (mission g)).
#[local] Abbreviation store g := (Mission._storage (mission g)).

(** A mission that its storage can hold, an empty one included. *)
Definition usable (m : Mission.t S W) : Prop :=
  board_ok layout (Mission._storage m) /\ 0 <= Mission._cmd_total m <= maximum.

(** The ring of deferred messages. *)
Definition deferred_ok (g : gcs) : Prop :=
  length (deferred_messages g) = 48%nat /\ 0 <= next_deferred_message g < 48 /\
  0 <= num_deferred_messages g <= 48.

Definition ready (g : gcs) : Prop := usable (mission g) /\ deferred_ok g.

(** What sending does not change. *)
Record keeps (g g' : gcs) : Prop := {
  k_receiving : waypoint_receiving g' = waypoint_receiving g;
  k_i : waypoint_request_i g' = waypoint_request_i g;
  k_last : waypoint_request_last g' = waypoint_request_last g;
  k_store : store g' = store g;
  k_total : total g' = total g;
  k_deferred : deferred_ok g -> deferred_ok g'
}.

Lemma keeps_refl g : keeps g g.
Proof. done. Qed.

Lemma keeps_trans g1 g2 g3 : keeps g1 g2 -> keeps g2 g3 -> keeps g1 g3.
Proof. intros [] []. split; [congruence..|auto]. Qed.

Lemma keeps_ready g g' : keeps g g' -> ready g -> ready g'.
Proof. intros [] [[Hb Ht] Hd]. split; [|auto]. unfold usable. by rewrite k_store0, k_total0. Qed.

Lemma keeps_send g m : keeps g (send g m).
Proof. done. Qed.

Lemma keeps_world g w : keeps g (set_world g w).
Proof. done. Qed.

Lemma keeps_queued g : keeps g (queued_waypoint_send g).
Proof. unfold queued_waypoint_send. by destruct (_ && _). Qed.

Lemma keeps_try g id ok g' : try_send_message g id = (ok, g') ->
  keeps g g' /\ deferred_messages g' = deferred_messages g /\
  next_deferred_message g' = next_deferred_message g /\ num_deferred_messages g' = num_deferred_messages g.
Proof.
  assert (Hq : deferred_messages (queued_waypoint_send g) = deferred_messages g /\
    next_deferred_message (queued_waypoint_send g) = next_deferred_message g /\
    num_deferred_messages (queued_waypoint_send g) = num_deferred_messages g)
    by (unfold queued_waypoint_send; by destruct (_ && _)).
  unfold try_send_message. repeat case_match; intros ?; simplify_eq; try done.
  split; [apply keeps_queued|done].
Qed.

Lemma ring_next i : 0 <= i < 48 -> 0 <= (if u8 (i + 1) =? MSG_LAST then 0 else u8 (i + 1)) < 48.
Proof. intros Hi. rewrite u8_small by lia. unfold MSG_LAST. destruct (Z.eqb_spec (i + 1) 48); lia. Qed.

Lemma push_loop_spec n : forall g, deferred_ok g -> (Z.to_nat (num_deferred_messages g) <= n)%nat ->
  exists g', push_loop n g = Some g' /\ keeps g g'.
Proof.
  induction n as [|n IH]; intros g Hd Hn; simpl push_loop;
    (destruct (Z.eqb_spec (num_deferred_messages g) 0); [by exists g|]); pose proof Hd as (Hl & Hx & Hm); [lia|].
  destruct (arr_get_Some (deferred_messages g) (next_deferred_message g)) as [id ->]; [lia|]. simpl.
  destruct (try_send_message g id) as [ok g1] eqn:Ht. apply keeps_try in Ht as (Hk & H1 & H2 & H3).
  destruct ok; [|by exists g1]. rewrite H1, H2, H3.
  set (g2 := set_deferred _ _ _ _). assert (Hd2 : deferred_ok g2).
  { split; [done|]. split; [by apply ring_next|]. simpl. rewrite u8_small by lia. lia. }
  destruct (IH g2 Hd2) as (g' & -> & Hk'); [simpl; rewrite u8_small by lia; lia|].
  exists g'. split; [done|]. eapply keeps_trans; [|exact Hk'].
  destruct Hk. by split.
Qed.

Lemma find_deferred_spec msgs id n : length msgs = 48%nat -> forall i, 0 <= i < 48 ->
  exists found j, find_deferred n msgs id i = Some (found, j) /\ 0 <= j < 48.
Proof.
  intros Hl. induction n as [|n IH]; intros i Hi; simpl; [by exists false, i|].
  destruct (arr_get_Some msgs i) as [m ->]; [lia|]. simpl. destruct (m =? id); [by exists true, i|].
  apply IH. by apply ring_next.
Qed.

Lemma defer_spec g id : deferred_ok g -> exists g', defer g id = Some g' /\ keeps g g'.
Proof.
  intros Hd. pose proof Hd as (Hl & Hx & Hm). unfold defer, MSG_LAST. destruct (Z.eqb_spec (num_deferred_messages g) 48); [by exists g|].
  destruct (find_deferred_spec (deferred_messages g) id (Z.to_nat (num_deferred_messages g)) Hl
    (next_deferred_message g) Hx) as (found & j & -> & Hj). simpl.
  destruct found; [by exists g|]. rewrite arr_set_Some by lia. simpl. eexists. split; [done|].
  split; try done. intros _. split; [simpl; by rewrite length_insert|]. split; [done|].
  simpl. rewrite u8_small by lia. lia.
Qed.

Lemma send_message_spec g id : deferred_ok g -> exists g', send_message g id = Some g' /\ keeps g g'.
Proof.
  intros Hd. unfold send_message. set (g1 := if _ =? _ then _ else g).
  assert (Hk1 : keeps g g1) by (unfold g1; by destruct (_ =? _)).
  destruct (push_loop_spec (Z.to_nat (num_deferred_messages g1)) g1) as (g2 & Hp & Hk2);
    [by apply Hk1|done|]. unfold push_deferred_messages. rewrite Hp. simpl.
  pose proof (keeps_trans _ _ _ Hk1 Hk2) as Hk. destruct (_ =? 0).
  - destruct (try_send_message g2 id) as [ok g3] eqn:Ht. apply keeps_try in Ht as (Hk3 & _).
    pose proof (keeps_trans _ _ _ Hk Hk3) as Hk'. destruct ok; [by exists g3|].
    destruct (defer_spec g3 id) as (g4 & -> & Hk4); [by apply Hk'|]. exists g4. split; [done|].
    by eapply keeps_trans.
  - destruct (defer_spec g2 id) as (g4 & -> & Hk4); [by apply Hk|]. exists g4. split; [done|].
    by eapply keeps_trans.
Qed.

Lemma update_waypoints_spec g : deferred_ok g -> exists g', update_waypoints g = Some g' /\
  (keeps g g' \/ waypoint_receiving g' = false /\ store g' = store g /\ total g' = total g /\ deferred_ok g').
Proof.
  intros Hd. unfold update_waypoints. destruct (waypoint_receiving g) eqn:Hr; simpl; [|exists g; auto using keeps_refl].
  destruct (_ >? _); [eexists; split; [done|]; by right|].
  destruct (_ >? _); [|exists g; auto using keeps_refl].
  set (g1 := set_times _ _ _). assert (Hk : keeps g g1) by done.
  destruct (send_message_spec g1 MSG_NEXT_WAYPOINT) as (g' & -> & Hk'); [done|].
  exists g'. split; [done|]. left. by eapply keeps_trans.
Qed.

(** * Storing *)

(** The 15 bytes of command [i]. *)
#[local] Abbreviation slot := (MissionSpec.slot layout).

Lemma maximum_small m : usable m -> 0 <= maximum <= 4368.
Proof. intros [Hb _]. by eapply max_commands. Qed.

Lemma utotal_usable m : usable m -> Mission.utotal m = Mission._cmd_total m.
Proof.
  intros Hu. pose proof (maximum_small m Hu). destruct Hu as [_ Ht]. unfold Mission.utotal. apply u32_small. lia.
Qed.

Lemma num_commands_usable m : usable m -> Mission.num_commands m = Mission._cmd_total m.
Proof.
  intros Hu. pose proof (maximum_small m Hu). destruct Hu as [_ Ht]. unfold Mission.num_commands.
  apply u16_small. lia.
Qed.

Lemma store_command_spec g n cmd : usable (mission g) -> MissionSpec.valid cmd ->
  0 <= n <= total g -> n < maximum ->
  exists m, store_command layout g n cmd = (true, set_mission g m) /\ usable m /\
    Mission._cmd_total m = Z.max (total g) (n + 1) /\
    slot (Mission._storage m) n = encode cmd /\
    forall j, 0 <= j -> j <> n -> slot (Mission._storage m) j = slot (store g) j.
Proof.
  intros Hu Hv Hn Hmax. pose proof (maximum_small _ Hu) as Hs. pose proof Hu as [Hb Ht].
  destruct (write_read layout (mission g) n cmd Hb Hv) as (st' & Hw & Hb' & _ & Hsn & Hsj); [lia|].
  unfold store_command. rewrite num_commands_usable by done. destruct (Z.ltb_spec n (total g)).
  - unfold Mission.replace_cmd. rewrite utotal_usable, Z.geb_leb, (proj2 (Z.leb_gt _ _)) by (done || lia).
    rewrite Hw. eexists. split; [done|]. split; [done|]. split; [simpl; lia|]. split; done.
  - rewrite (proj2 (Z.eqb_eq n (total g))) by lia. unfold Mission.add_cmd.
    replace (u16 (total g)) with n by (rewrite u16_small; lia). rewrite Hw.
    eexists. split; [done|]. cbn [Mission._cmd_total Mission._storage Mission.set_total Mission.set_storage].
    rewrite i16_small by lia. split; [split; [done|simpl; lia]|]. split; [lia|]. split; done.
Qed.

(** * An upload *)

(** The commands received so far are in storage, each in its place. *)
Definition holds (g : gcs) (acc : list Mission_Command) : Prop :=
  Z.of_nat (length acc) <= total g /\
  forall i c, (0 < i)%nat -> acc !! i = Some c ->
    MissionSpec.valid c /\ (forall j, stored j blank c = Mission.with_index c j) /\
    slot (store g) (Z.of_nat i) = encode c.

(** Where an upload of [n] commands is: [acc] are those received. *)
Definition uploading (n : Z) (g : gcs) (acc : list Mission_Command) : Prop :=
  ready g /\ total g <= n /\ Z.of_nat (length acc) <= n /\ holds g acc /\
  (waypoint_receiving g = true ->
     waypoint_request_i g = Z.of_nat (length acc) /\ waypoint_request_last g = n /\
     Z.of_nat (length acc) < n).

Lemma holds_keeps g g' acc : store g' = store g -> total g' = total g -> holds g acc -> holds g' acc.
Proof. unfold holds. by intros -> ->. Qed.

Lemma uploading_keeps n g g' acc : keeps g g' -> uploading n g acc -> uploading n g' acc.
Proof.
  intros Hk (Hr & Ht & Hl & Hh & Hi). split; [by eapply keeps_ready|]. destruct Hk.
  split; [lia|]. split; [done|]. split; [by apply (holds_keeps g)|].
  by rewrite k_receiving0, k_i0, k_last0.
Qed.

(** The start of an upload. *)
Lemma count_uploading g sysid compid n : ready g -> 0 < n <= maximum ->
  let g' := handle_mission_count layout g sysid compid n in
  uploading n g' [] /\ waypoint_receiving g' = true /\ waypoint_dest_sysid g' = sysid /\
  waypoint_dest_compid g' = compid.
Proof.
  intros [Hu Hd] Hn. pose proof (maximum_small _ Hu) as Hm. pose proof Hu as [Hb Ht].
  unfold handle_mission_count. rewrite Z.gtb_ltb, (proj2 (Z.ltb_ge _ _)) by lia. simpl.
  split; [|done]. assert (Hut : usable (Mission.truncate (mission g) n) /\
    Mission._cmd_total (Mission.truncate (mission g) n) <= n).
  { unfold Mission.truncate. rewrite utotal_usable by done. rewrite Z.gtb_ltb.
    destruct (Z.ltb_spec n (total g)); [|done]. split; [split; [done|]|]; simpl; rewrite i16_small; lia. }
  destruct Hut as [Hu' Ht']. split; [by split|]. split; [done|]. simpl. split; [lia|].
  split; [|lia]. split; [simpl; apply Hu'|]. intros i c _ Hi. done.
Qed.

(** An item that is accepted is the next one. *)
Lemma store_uploading n g acc cmd : uploading n g acc -> waypoint_receiving g = true ->
  n <= maximum -> MissionSpec.valid cmd -> (forall j, stored j blank cmd = Mission.with_index cmd j) ->
  exists m, store_command layout g (Z.of_nat (length acc)) cmd = (true, set_mission g m) /\
    ready (set_mission g m) /\ Mission._cmd_total m <= n /\ holds (set_mission g m) (acc ++ [cmd]).
Proof.
  intros ([Hu Hd] & Ht & Hl & [Hlen Hh] & Hi) Hrec Hn Hv Hst. destruct (Hi Hrec) as (_ & _ & Hlt).
  destruct (store_command_spec g (Z.of_nat (length acc)) cmd Hu Hv) as (m & Hs & Hu' & Htm & Hsn & Hsj); [lia..|].
  exists m. split; [done|]. split; [by split|]. split; [lia|]. split; [simpl; rewrite length_app; simpl; lia|].
  intros i c Hip Hic. simpl. apply lookup_app_Some in Hic as [Hic|[Hge Hic]].
  - destruct (Hh i c Hip Hic) as (Hvc & Hsc & Hslot). split; [done|]. split; [done|].
    apply lookup_lt_Some in Hic. by rewrite Hsj by lia.
  - pose proof (lookup_lt_Some _ _ _ Hic) as Hlt'. simpl in Hlt'.
    assert (i = length acc) as -> by lia. rewrite Nat.sub_diag in Hic. simpl in Hic. by simplify_eq.
Qed.

Lemma next_item_spec n g acc sysid compid : ready g -> total g <= n -> holds g acc -> 0 < n <= 4368 ->
  waypoint_request_i g + 1 = Z.of_nat (length acc) -> waypoint_request_last g = n ->
  Z.of_nat (length acc) <= n ->
  exists g', next_item g sysid compid = Some (Z.of_nat (length acc) =? n, g') /\ uploading n g' acc /\
    waypoint_receiving g' = (waypoint_receiving g && negb (Z.of_nat (length acc) =? n)) /\
    (Z.of_nat (length acc) = n -> exists g1 : gcs, sent g' = SentText true :: SentAck sysid compid MAV_MISSION_ACCEPTED :: sent g1).
Proof.
  intros Hr Ht Hh Hn Hi Hlast Hl. unfold next_item.
  cbn [waypoint_request_i waypoint_request_last set_request set_times].
  rewrite Hi, u16_small, Hlast, Z.geb_leb by lia.
  destruct (Z.leb_spec n (Z.of_nat (length acc))).
  - rewrite (proj2 (Z.eqb_eq _ _)) by lia. eexists. split; [done|]. split.
    + split; [done|]. split; [done|]. split; [done|]. split; [done|]. done.
    + split; [by rewrite andb_false_r|]. intros _. by exists g.
  - rewrite (proj2 (Z.eqb_neq _ _)) by lia. rewrite andb_true_r.
    set (g1 := set_times _ _ _). assert (Hup : uploading n g1 acc).
    { split; [done|]. split; [done|]. split; [done|]. split; [done|]. simpl. lia. }
    destruct (HAVE_PAYLOAD_SPACE g1 S_MISSION_ITEM).
    + eexists. split; [done|]. split; [by apply (uploading_keeps n g1); [apply keeps_queued|]|].
      split; [|lia]. by rewrite (k_receiving _ _ (keeps_queued g1)).
    + destruct (send_message_spec g1 MSG_NEXT_WAYPOINT) as (g' & -> & Hk); [by apply Hr|].
      exists g'. split; [done|]. split; [by apply (uploading_keeps n g1)|]. split; [|lia].
      by rewrite (k_receiving _ _ Hk).
Qed.
Lemma convert_valid float_item p c : packet_ok float_item p ->
  convert plane terrain float_item p = Some (MAV_MISSION_ACCEPTED, c) ->
  index c = item_seq p /\ MissionSpec.valid c /\ forall j, stored j blank c = Mission.with_index c j.
Proof.
  intros Hp H. destruct (convert_int plane terrain float_item p c Hp H) as (p' & Hok & Hs & _ & H').
  destruct (accepted_valid plane terrain p' c Hok H') as (Hi & _ & Hv & Hst & _).
  split; [congruence|]. by split.
Qed.

(** Every item of the ground station, accepted or not. *)
Lemma item_uploading n g acc sysid compid float_item p b g' : uploading n g acc -> 0 < n <= maximum ->
  packet_ok float_item p ->
  handle_mission_item layout plane terrain g sysid compid float_item p = Some (b, g') ->
  b = false /\ uploading n g' acc \/
  exists cmd, convert plane terrain float_item p = Some (MAV_MISSION_ACCEPTED, cmd) /\
    item_seq p = Z.of_nat (length acc) /\ uploading n g' (acc ++ [cmd]) /\
    b = (Z.of_nat (length acc) + 1 =? n) /\
    (b = true -> waypoint_receiving g' = false /\
       exists g1 : gcs, sent g' = SentText true :: SentAck sysid compid MAV_MISSION_ACCEPTED :: sent g1).
Proof.
  intros Hup Hn Hp H. unfold handle_mission_item in H. fold (convert plane terrain float_item p) in H.
  apply bind_Some in H as ([result cmd] & Hc & H).
  assert (Hack : forall g1 r, keeps g g1 -> Some (mission_ack g1 sysid compid r) = Some (b, g') ->
    b = false /\ uploading n g' acc).
  { unfold mission_ack. intros g1 r Hk [= <- <-]. split; [done|]. eapply uploading_keeps; [|exact Hup].
    by eapply keeps_trans. }
  destruct (bool_decide_reflect (result = MAV_MISSION_ACCEPTED)) as [->|]; simpl in H;
    [|left; eapply Hack, H; done].
  destruct (_ =? 2). { destruct (handle_guided_request _ _). left. eapply Hack, H. done. }
  destruct (_ =? 3). { left. eapply Hack, H. done. }
  destruct (waypoint_receiving g) eqn:Hrec; simpl in H; [|left; eapply Hack, H; done].
  destruct (Z.eqb_spec (item_seq p) (waypoint_request_i g)) as [Hseq|]; simpl in H; [|left; eapply Hack, H; done].
  destruct (bad_jump g cmd); [left; eapply Hack, H; done|].
  destruct (convert_valid float_item p cmd Hp Hc) as (_ & Hv & Hst).
  pose proof Hup as (Hr & _ & _ & _ & Hi). destruct (Hi Hrec) as (Hi1 & Hi2 & Hi3).
  pose proof (maximum_small _ (proj1 Hr)). rewrite Hseq, Hi1 in H.
  destruct (store_uploading n g acc cmd Hup Hrec ltac:(lia) Hv Hst) as (m & Hm & Hr' & Ht' & Hh').
  rewrite Hm in H.
  destruct (next_item_spec n (set_mission g m) (acc ++ [cmd]) sysid compid Hr' Ht' Hh')
    as (g2 & H2 & Hup2 & Hrec2 & Hs2); [lia|simpl; rewrite length_app; simpl; lia|done|rewrite length_app; simpl; lia|].
  rewrite H2 in H. simplify_eq. right. exists cmd. split; [done|]. split; [congruence|]. split; [done|].
  rewrite length_app, Nat2Z.inj_add in *. simpl Z.of_nat in *. split; [done|].
  intros Hb. apply Z.eqb_eq in Hb. split; [|by apply Hs2].
  rewrite Hrec2, Hb, Z.eqb_refl. apply andb_false_r.
Qed.

(** ** Runs *)

(** A message that changes neither the mission nor the progress of an upload. *)
Definition reading (m : message) : bool :=
  match m with REQUEST _ | REQUEST_INT _ | REQUEST_LIST | ACK => true | _ => false end.

(** What happens during an upload: items, with those received as the label; other
    messages; the periodic update; other messages to be sent; and all that changes
    the mission, or the vehicle, without changing its list of commands. *)
Inductive step : gcs -> list (bool * mission_item) -> gcs -> Prop :=
| step_item g sysid compid float_item p b g' : packet_ok float_item p ->
    handle_mission_item layout plane terrain g sysid compid float_item p = Some (b, g') ->
    step g [(float_item, p)] g'
| step_read g sysid compid m g' : reading m = true ->
    handle_common_mission_message layout junk plane terrain fuel g sysid compid m = Some g' ->
    step g [] g'
| step_update g g' : update_waypoints g = Some g' -> step g [] g'
| step_send g id g' : send_message g id = Some g' -> step g [] g'
| step_mission g m : Mission._storage m = store g -> Mission._cmd_total m = total g ->
    step g [] (set_mission g m).

Inductive steps (g : gcs) : list (bool * mission_item) -> gcs -> Prop :=
| steps_nil : steps g [] g
| steps_snoc tr l g1 g2 : steps g tr g1 -> step g1 l g2 -> steps g (tr ++ l) g2.

(** The commands received are those of items of the run, in their order. *)
Definition received (tr : list (bool * mission_item)) (acc : list Mission_Command) : Prop :=
  forall i c, acc !! i = Some c -> exists float_item p, (float_item, p) ∈ tr /\
    packet_ok float_item p /\ item_seq p = Z.of_nat i /\
    convert plane terrain float_item p = Some (MAV_MISSION_ACCEPTED, c).

Lemma received_more tr l acc : received tr acc -> received (tr ++ l) acc.
Proof.
  intros Hr i c Hi. destruct (Hr i c Hi) as (f & p & Hin & ?). exists f, p. split; [|done].
  apply elem_of_app. by left.
Qed.

Lemma received_snoc tr f p acc c : received tr acc -> packet_ok f p ->
  item_seq p = Z.of_nat (length acc) ->
  convert plane terrain f p = Some (MAV_MISSION_ACCEPTED, c) -> received (tr ++ [(f, p)]) (acc ++ [c]).
Proof.
  intros Hr Hp Hs Hc i c' Hi. apply lookup_app_Some in Hi as [Hi|[Hge Hi]].
  - by apply (received_more tr [(f, p)] acc Hr).
  - pose proof (lookup_lt_Some _ _ _ Hi) as Hlt. simpl in Hlt.
    assert (i = length acc) as -> by lia. rewrite Nat.sub_diag in Hi. simpl in Hi. simplify_eq.
    exists f, p. split; [apply elem_of_app; right; by left|]. done.
Qed.

Lemma reading_keeps g sysid compid m g' n acc : reading m = true -> uploading n g acc ->
  handle_common_mission_message layout junk plane terrain fuel g sysid compid m = Some g' ->
  uploading n g' acc.
Proof.
  intros Hm Hup H. assert (Hk : keeps g g' \/ m = REQUEST_LIST).
  { destruct m; try done; simpl in H; simplify_eq; [by right|..]; left.
    - unfold handle_mission_request. repeat case_match; done.
    - unfold handle_mission_request_int. repeat case_match; done.
    - done. }
  destruct Hk as [Hk| ->]; [by eapply uploading_keeps|]. simpl in H. simplify_eq.
  destruct Hup as (Hr & Ht & Hl & Hh & _). split; [done|]. split; [done|]. split; [done|]. by split.
Qed.

Lemma step_uploading n g l g' acc tr : 0 < n <= maximum -> uploading n g acc -> received tr acc ->
  step g l g' -> exists acc', uploading n g' acc' /\ received (tr ++ l) acc'.
Proof.
  intros Hn Hup Hrec Hs. destruct Hs.
  - destruct (item_uploading n g acc sysid compid float_item p b g' Hup Hn) as [[_ H']|(c & Hc & Hq & H' & _)]; [done..| |].
    + exists acc. split; [done|by apply received_more].
    + exists (acc ++ [c]). split; [done|by apply received_snoc].
  - exists acc. rewrite app_nil_r. split; [by eapply reading_keeps|done].
  - exists acc. rewrite app_nil_r. split; [|done].
    pose proof Hup as (Hr & Ht & Hl & Hh & _).
    destruct (update_waypoints_spec g (proj2 Hr)) as (g2 & H2 & [Hk|(Hf & Hst & Htt & Hd)]); simplify_eq;
      [by eapply uploading_keeps|].
    split; [split; [|done]; unfold usable; rewrite Hst, Htt; apply Hr|]. rewrite Htt. split; [done|]. split; [done|].
    split; [by apply (holds_keeps g)|]. by rewrite Hf.
  - exists acc. rewrite app_nil_r. split; [|done].
    destruct (send_message_spec g id) as (g2 & H2 & Hk); [apply Hup|]. simplify_eq. by eapply uploading_keeps.
  - exists acc. rewrite app_nil_r. split; [|done]. eapply uploading_keeps; [|exact Hup]. by split.
Qed.

Lemma steps_uploading n g tr g' : 0 < n <= maximum -> uploading n g [] -> steps g tr g' ->
  exists acc, uploading n g' acc /\ received tr acc.
Proof.
  intros Hn Hup Hs. induction Hs as [|tr l g1 g2 _ (acc & Hup1 & Hrec) Hst].
  - exists []. split; [done|]. by intros i c Hi.
  - by eapply step_uploading.
Qed.
(** What is in storage is read. *)
Lemma holds_read g acc i c old : ready g -> holds g acc -> (0 < i)%nat -> acc !! i = Some c ->
  length (content old) = 12%nat ->
  Mission.read_cmd_from_storage layout (mission g) (Z.of_nat i) old = Some (stored (Z.of_nat i) old c).
Proof.
  intros [Hu _] [Hl Hh] Hi Hc Ho. destruct (Hh i c Hi Hc) as (Hv & _ & Hs).
  apply lookup_lt_Some in Hc. pose proof Hu as [Hb Ht].
  rewrite read_cmd_spec by (rewrite ?utotal_usable by done; done || lia). by rewrite Hs, decode_encode.
Qed.

(** ** An upload without faults *)

Fixpoint run_items (g : gcs) (sysid compid : Z) (ps : list (bool * mission_item)) : option (list bool * gcs) :=
  match ps with
  | [] => Some ([], g)
  | (float_item, p) :: ps =>
    '(b, g) ← handle_mission_item layout plane terrain g sysid compid float_item p;
    '(bs, g) ← run_items g sysid compid ps;
    Some (b :: bs, g)
  end.

(** The items of a mission of [n] commands, the first of them being number [i]. *)
Fixpoint mission_items (n i : Z) (ps : list (bool * mission_item)) : Prop :=
  match ps with
  | [] => True
  | (float_item, p) :: ps =>
    packet_ok float_item p /\ item_seq p = i /\ item_current p <> 2 /\ item_current p <> 3 /\
    (exists c, convert plane terrain float_item p = Some (MAV_MISSION_ACCEPTED, c) /\
       (id c = mav_cmd DO_JUMP -> 0 < Mission.jump_target c < n)) /\
    mission_items n (i + 1) ps
  end.

Lemma run_uploading n sysid compid ps : 0 < n <= maximum -> ps <> [] ->
  forall g acc, uploading n g acc -> waypoint_receiving g = true ->
  Z.of_nat (length acc) + Z.of_nat (length ps) = n ->
  mission_items n (Z.of_nat (length acc)) ps ->
  exists g', run_items g sysid compid ps = Some (replicate (length ps - 1) false ++ [true], g').
Proof.
  intros Hn. induction ps as [|[f p] ps IH]; intros Hne g acc Hup Hrec Hlen Hps; [done|].
  destruct Hps as (Hp & Hs & H2 & H3 & (c & Hc & Hj) & Hps). simpl in Hlen.
  destruct (convert_valid f p c Hp Hc) as (_ & Hv & Hst).
  pose proof Hup as (Hr & _ & _ & _ & Hi). destruct (Hi Hrec) as (Hi1 & Hi2 & Hi3).
  pose proof (maximum_small _ (proj1 Hr)) as Hmax.
  destruct (store_uploading n g acc c Hup Hrec ltac:(lia) Hv Hst) as (m & Hm & Hr' & Ht' & Hh').
  destruct (next_item_spec n (set_mission g m) (acc ++ [c]) sysid compid Hr' Ht' Hh')
    as (g2 & Hg2 & Hup2 & Hrec2 & _); [lia|simpl; rewrite length_app; simpl; lia|done|rewrite length_app; simpl; lia|].
  assert (Hb : bad_jump g c = false).
  { unfold bad_jump. destruct (Z.eqb_spec (id c) (mav_cmd DO_JUMP)) as [He|]; [|done]. specialize (Hj He).
    rewrite Hi2, (proj2 (Z.eqb_neq (Mission.jump_target c) 0)) by lia.
    rewrite (Z.geb_leb _ n), (proj2 (Z.leb_gt _ _)) by lia. by rewrite andb_false_r. }
  assert (Hitem : handle_mission_item layout plane terrain g sysid compid f p =
    Some (Z.of_nat (length acc) + 1 =? n, g2)).
  { unfold handle_mission_item. fold (convert plane terrain f p). rewrite Hc. simpl.
    rewrite !(proj2 (Z.eqb_neq (item_current p) _)) by done. rewrite Hrec, Hs, Hi1, Z.eqb_refl. simpl.
    rewrite Hb, Hm, Hg2. by rewrite length_app, Nat2Z.inj_add. }
  simpl run_items. rewrite Hitem. simpl. rewrite length_app, Nat2Z.inj_add in *. simpl Z.of_nat in *.
  destruct ps as [|q ps].
  - simpl in *. rewrite (proj2 (Z.eqb_eq _ _)) by lia. by exists g2.
  - simpl in Hlen. rewrite (proj2 (Z.eqb_neq _ _)) in * by lia.
    destruct (IH ltac:(done) g2 (acc ++ [c]) Hup2) as (g' & Hrun).
    + rewrite Hrec2. change (Z.of_nat 1) with 1. rewrite (proj2 (Z.eqb_neq _ _)) by lia. simpl. by rewrite Hrec.
    + rewrite length_app, Nat2Z.inj_add. simpl. lia.
    + by rewrite length_app, Nat2Z.inj_add.
    + rewrite Hrun. simpl. rewrite Nat.sub_0_r. by exists g'.
Qed.

(** * A download *)

(** What an item is made into does not depend on its receiver, nor on [current]
    and [autocontinue]. *)
Lemma upload_readdressed p a b cur auto c0 :
  mavlink_int_to_mission_cmd plane terrain
    (Item (param1 p) (param2 p) (param3 p) (param4 p) (item_x p) (item_y p) (item_z p)
       (item_seq p) (item_command p) a b (item_frame p) cur auto) c0 =
  mavlink_int_to_mission_cmd plane terrain p c0.
Proof.
  unfold mavlink_int_to_mission_cmd. simpl. destruct (_ =? 0); [done|].
  destruct (kind_of _) as [k|]; [|done]. by destruct k.
Qed.

(** The bytes that storage does not keep are not sent. *)
Lemma download_stored i old c k : mav_cmd k = id c -> length (content c) = 12%nat ->
  mission_cmd_to_mavlink_int plane terrain (stored i old c) no_item =
  mission_cmd_to_mavlink_int plane terrain (Mission.with_index c i) no_item.
Proof.
  intros Hk Hl. unfold stored. destruct (Z.ltb_spec (id c) 256) as [|Hlong]; [done|].
  assert (Hg : forall o n, (o + n <= 10)%nat ->
    get o n (take 10 (content c) ++ drop 10 (content old)) = get o n (content c)).
  { intros o n Hon. unfold get. f_equal. apply list_eq. intros j. destruct (decide (j < n)%nat).
    - rewrite !lookup_take_lt, !lookup_drop by done.
      rewrite lookup_app_l, lookup_take_lt by (rewrite ?length_take; lia). done.
    - by rewrite !lookup_take_ge by lia. }
  unfold mission_cmd_to_mavlink_int. simpl. destruct (_ =? 0); [done|].
  rewrite (proj2 (kind_of_spec _ k)) by done. rewrite <- Hk in Hlong.
  destruct (long_commands k Hlong) as [-> | ->]; simpl; unfold get_uint8, get_float; by rewrite !Hg by lia.
Qed.
End spec.

(** C27. A mission that is uploaded is the one that was sent: after a
    MISSION_COUNT of [n], whatever happens on the link (items lost, repeated, out
    of order or refused, requests, timeouts, other messages to be sent) and
    whatever else the vehicle does with its mission but for editing it, when the
    vehicle acknowledges the last item with MAV_MISSION_ACCEPTED the mission has
    [n] commands; command [i] is the conversion of an item with number [i] that was
    received, and reads back from storage. *)
Theorem mission_upload {S W} `{HS : HalStorage S, !HalStorageLaws S, Vehicle W, MavNumbers,
    !Ground W, !MavNumberLaws} layout junk plane terrain fuel
    (g : @MissionProtocol.t S W) g1 g2 n sysid compid s c float_item p tr :
  ready layout g -> 0 < n <= Mission.num_commands_max layout ->
  steps layout junk plane terrain fuel (handle_mission_count layout g sysid compid n) tr g1 ->
  packet_ok float_item p ->
  handle_mission_item layout plane terrain g1 s c float_item p = Some (true, g2) ->
  ready layout g2 /\ waypoint_receiving g2 = false /\ Mission._cmd_total (mission g2) = n /\
  (exists g3 : @MissionProtocol.t S W, sent g2 = SentText true :: SentAck s c MAV_MISSION_ACCEPTED :: sent g3) /\
  exists cmds, Z.of_nat (length cmds) = n /\ received plane terrain (tr ++ [(float_item, p)]) cmds /\
    forall i cmd old, (0 < i)%nat -> cmds !! i = Some cmd -> length (content old) = 12%nat ->
      Mission.read_cmd_from_storage layout (mission g2) (Z.of_nat i) old =
        Some (stored (Z.of_nat i) old cmd).
Proof.
  intros Hr Hn Hs Hp Hit.
  destruct (count_uploading layout g sysid compid n Hr Hn) as (Hup & _).
  destruct (steps_uploading layout junk plane terrain fuel n _ tr g1 Hn Hup Hs) as (acc & Hup1 & Hrec).
  destruct (item_uploading layout plane terrain n g1 acc s c float_item p true g2 Hup1 Hn Hp Hit)
    as [[? _]|(cmd & Hc & Hq & Hup2 & Hb & Hdone)]; [done|].
  destruct (Hdone eq_refl) as [Hf Hsent]. symmetry in Hb. apply Z.eqb_eq in Hb.
  pose proof Hup2 as (Hr2 & Ht & Hl & Hh & _). pose proof (proj1 Hh) as Hlen.
  rewrite length_app, Nat2Z.inj_add in Hlen, Hl. simpl in Hlen, Hl.
  split; [done|]. split; [done|]. split; [lia|]. split; [done|].
  exists (acc ++ [cmd]). split; [rewrite length_app; simpl; lia|].
  split; [by apply received_snoc|]. intros i cmd' old Hi Hc' Ho. by eapply holds_read.
Qed.

(** C30. An upload succeeds: on a vehicle with room for [n] commands, whatever its
    mission, its link and its queue of messages are like, a ground station that
    announces [n] commands and sends [n] items in order, each of which makes a
    command and no jump of which leads outside of the mission, gets the last of
    them acknowledged. *)
Theorem mission_upload_completes {S W} `{HS : HalStorage S, !HalStorageLaws S, Vehicle W, MavNumbers,
    !Ground W, !MavNumberLaws} layout plane terrain (g : @MissionProtocol.t S W) n sysid compid ps :
  ready layout g -> 0 < n <= Mission.num_commands_max layout ->
  Z.of_nat (length ps) = n -> mission_items plane terrain n 0 ps ->
  exists g', run_items layout plane terrain (handle_mission_count layout g sysid compid n) sysid compid ps =
    Some (replicate (length ps - 1) false ++ [true], g').
Proof.
  intros Hr Hn Hl Hps. destruct (count_uploading layout g sysid compid n Hr Hn) as (Hup & Hrec & _).
  apply (run_uploading layout plane terrain n sysid compid ps Hn) with (acc := []); try done.
  intros ->. simpl in Hl. lia.
Qed.

(** C29. What is uploaded can be downloaded: for a command [i] in storage that an
    item was made into, the vehicle answers a MISSION_REQUEST_INT for [i] with an
    item of this number, to the one who asked, and this item is accepted and makes
    the same command, but for what [reloaded] lists. *)
Theorem mission_download {S W} `{HS : HalStorage S, !HalStorageLaws S, Vehicle W, MavNumbers,
    !Ground W, !MavNumberLaws} layout junk plane terrain (g : @MissionProtocol.t S W) sysid compid
    i c float_item p :
  packet_ok float_item p -> item_seq p = i ->
  convert plane terrain float_item p = Some (MAV_MISSION_ACCEPTED, c) ->
  Mission.read_cmd_from_storage layout (mission g) i junk = Some (stored i junk c) ->
  exists p' c' k, handle_mission_request_int layout junk plane terrain g sysid compid i =
      send g (SentItemInt p') /\
    item_seq p' = i /\ item_command p' = id c /\ target_system p' = sysid /\ target_component p' = compid /\
    convert plane terrain false p' = Some (MAV_MISSION_ACCEPTED, c') /\
    mav_cmd k = id c /\ reloaded k c c'.
Proof.
  intros Hp Hi Hc Hread.
  destruct (convert_int plane terrain float_item p c Hp Hc) as (q & Hok & Hs & Hcmd & Hq).
  destruct (accepted_valid plane terrain q c Hok Hq) as (Hix & Hid & Hv & _).
  destruct (accepted_reloaded plane terrain q c Hok Hq) as (r & Hr & Hrs & Hrc & c' & k & Hup & Hk & Hre).
  unfold handle_mission_request_int. rewrite Hread, (download_stored _ _ _ _ _ k); [|congruence|apply Hv].
  assert (Hci : Mission.with_index c i = c) by (unfold Mission.with_index; destruct c; simpl in *; congruence).
  rewrite Hci, Hr. do 3 eexists. split; [reflexivity|].
  split; [done|]. split; [done|]. split; [done|]. split; [done|]. split; [|split; [|exact Hre]; congruence].
  unfold convert, reply_item. simpl id.
  replace i with (item_seq r) by congruence. replace (id c) with (item_command r) by congruence.
  rewrite upload_readdressed. exact Hup.
Qed.

(** * Examples *)

(** A link on which 40 bytes can be sent at a time, and the vehicle of the
    mission examples. *)
#[export] Instance demo_ground : Ground (list Z) := {
  comm_get_txspace _ := 40;
  transmit _ w := w;
  packet_overhead _ := 8;
  payload_len m := match m with S_MISSION_ITEM => 37 | S_MISSION_REQUEST => 4 | _ => 2 end;
  handle_guided_request w _ := (false, w);
  handle_change_alt_request w _ := w;
  may_send _ _ := true;
  try_send_other _ w := (true, w);
  save_signing_timestamp w := w;
  Log_Write_EntireMission w := w
}.

Definition demo_gcs : @MissionProtocol.t (list Z) (list Z) :=
  mk true false 0 0 0 0 0 0 0 0 (replicate 48 0) 0 0 demo_empty [].

Definition demo_nth (seq : Z) : mission_item :=
  Item (of_int 2) 0 (of_int (-50)) 0 (-353632610) 1491652300 (bits_of_f32 (f32_lit 201 (-1)))
    seq 18 1 1 3 0 1.

(** The same place as two floats. *)
Definition demo_float (seq : Z) : mission_item :=
  Item (of_int 2) 0 (of_int (-50)) 0 (of_int (-35)) (of_int 149) (of_int 100) seq 18 1 1 3 0 1.

Definition demo_count : @MissionProtocol.t (list Z) (list Z) :=
  handle_mission_count demo_layout demo_gcs 255 190 2.

(** One item after another; the state at the end. *)
Definition demo_run (g : @MissionProtocol.t (list Z) (list Z)) (ps : list (bool * mission_item))
  : @MissionProtocol.t (list Z) (list Z) :=
  match run_items demo_layout false true g 255 190 ps with Some (_, g) => g | None => g end.

Lemma demo_ready : ready demo_layout demo_gcs.
Proof.
  split; [split|].
  - apply demo_board. vm_compute. reflexivity.
  - vm_compute. split; discriminate.
  - split; [reflexivity|]. vm_compute. repeat split; discriminate.
Qed.

Lemma demo_packet_ok seq : 0 <= seq < 65536 -> packet_ok false (demo_nth seq).
Proof.
  intros Hs. destruct demo_item_ok as (Hf & Hxy & Hn & Hrest). split; [exact Hf|]. split; [exact Hxy|].
  split; [exact Hs|exact Hrest].
Qed.

Lemma demo_float_ok seq : 0 <= seq < 65536 -> packet_ok true (demo_float seq).
Proof.
  intros Hs. split; [|split; [exact Hs|]]; simpl; [|lia].
  repeat constructor; vm_compute; first [done|discriminate].
Qed.

(** The first item twice, the second of them refused, a request for an item, an
    update, and the last item, with floats. *)
Lemma mission_upload_witness :
  exists g, handle_mission_item demo_layout false true (demo_run demo_count [(false, demo_nth 0); (false, demo_nth 0)])
    255 190 true (demo_float 1) = Some (true, g) /\
  Mission._cmd_total (mission g) = 2 /\
  exists c, Mission.read_cmd_from_storage demo_layout (mission g) 1 demo_junk = Some (stored 1 demo_junk c).
Proof.
  set (g1 := demo_run demo_count [(false, demo_nth 0); (false, demo_nth 0)]).
  destruct (handle_mission_item demo_layout false true g1 255 190 true (demo_float 1)) as [[b g2]|] eqn:E;
    [|vm_compute in E; discriminate].
  assert (b = true) as -> by (vm_compute in E; congruence).
  exists g2. split; [reflexivity|].
  assert (Hs : steps demo_layout demo_junk false true 9 demo_count
    (([] ++ [(false, demo_nth 0)]) ++ [(false, demo_nth 0)]) g1).
  { eapply steps_snoc; [eapply steps_snoc; [apply steps_nil|]|].
    - eapply (step_item demo_layout demo_junk false true 9 demo_count 255 190 false (demo_nth 0));
        [apply demo_packet_ok; lia|vm_compute; reflexivity].
    - eapply (step_item demo_layout demo_junk false true 9 _ 255 190 false (demo_nth 0));
        [apply demo_packet_ok; lia|vm_compute; reflexivity]. }
  destruct (mission_upload demo_layout demo_junk false true 9 demo_gcs g1 g2 2 255 190 255 190 true (demo_float 1)
    _ demo_ready ltac:(vm_compute; split; [reflexivity|discriminate]) Hs (demo_float_ok 1 ltac:(lia)) E)
    as (_ & _ & Ht & _ & cmds & Hl & _ & Hread).
  split; [exact Ht|].
  destruct cmds as [|c0 [|c1 cmds]]; [discriminate Hl|discriminate Hl|].
  exists c1. exact (Hread 1%nat c1 demo_junk ltac:(lia) eq_refl eq_refl).
Defined.

Lemma mission_upload_completes_witness :
  exists g, run_items demo_layout false true demo_count 255 190 [(false, demo_nth 0); (true, demo_float 1)] =
    Some ([false; true], g).
Proof.
  apply (mission_upload_completes demo_layout false true demo_gcs 2 255 190
    [(false, demo_nth 0); (true, demo_float 1)]).
  - exact demo_ready.
  - vm_compute. split; [reflexivity|discriminate].
  - reflexivity.
  - split; [apply demo_packet_ok; lia|]. split; [reflexivity|]. split; [discriminate|]. split; [discriminate|].
    split; [eexists; split; [vm_compute; reflexivity|discriminate]|].
    split; [apply demo_float_ok; lia|]. split; [reflexivity|]. split; [discriminate|]. split; [discriminate|].
    split; [eexists; split; [vm_compute; reflexivity|discriminate]|]. exact I.
Defined.

Lemma mission_download_witness :
  exists p' c, handle_mission_request_int demo_layout demo_junk false true
      (demo_run demo_count [(false, demo_nth 0); (false, demo_nth 1)]) 255 190 1 =
    send (demo_run demo_count [(false, demo_nth 0); (false, demo_nth 1)]) (SentItemInt p') /\
    item_seq p' = 1 /\ convert false true false p' = Some (MAV_MISSION_ACCEPTED, c).
Proof.
  destruct (convert false true false (demo_nth 1)) as [[r c]|] eqn:E; [|vm_compute in E; discriminate].
  assert (r = MAV_MISSION_ACCEPTED) as -> by (vm_compute in E; congruence).
  destruct (mission_download demo_layout demo_junk false true
    (demo_run demo_count [(false, demo_nth 0); (false, demo_nth 1)]) 255 190 1 c false (demo_nth 1)
    (demo_packet_ok 1 ltac:(lia)) eq_refl E) as (p' & c' & k & H1 & H2 & _ & _ & _ & H3 & _).
  - vm_compute in E. injection E as <-. vm_compute. reflexivity.
  - exists p', c'. split; [exact H1|]. split; [exact H2|exact H3].
Defined.

(** A count of 0 is not acknowledged: the vehicle waits for a command 0, and one
    that comes is acknowledged. *)
Example count_zero :
  let g := handle_mission_count demo_layout demo_gcs 255 190 0 in
  sent g = [] /\ waypoint_receiving g = true /\
  sent (demo_run g [(false, demo_nth 0)]) = [SentText true; SentAck 255 190 MAV_MISSION_ACCEPTED].
Proof. vm_compute. done. Qed.

(** An upload of the commands 0 to 1 ends with command 0, like one of 0 to 0. *)
Example partial_list :
  map (fun last => sent (demo_run (handle_mission_write_partial_list
         (demo_run demo_count [(false, demo_nth 0); (true, demo_float 1)]) 255 190 0 last)
       [(false, demo_nth 0)])) [0; 1] =
  let acks := [SentText true; SentAck 255 190 MAV_MISSION_ACCEPTED] in
  replicate 2 (acks ++ acks ++ [SentRequest 255 190 1]).
Proof. vm_compute. done. Qed.
