(* ===== verification/ParamNames.v ===== *)
(** The parameters by name and in order: libraries/AP_Param, the names of the
    variables, [find], and the walk over all of them ([first], [next],
    [next_scalar]) that a ground station's list of parameters comes from.

    A [char] buffer is the string in it, up to its terminator or its end.  A group
    may refer to its own table through a pointer, so the recursion of [find] has a
    bound, [levels]; ParamNamesSpec.v shows that 3 is enough for a table that
    [check_var_info] accepts. *)
From S2P Require Import Prelude Float32 Storage Param.
From Stdlib Require Import String Ascii.
Open Scope urus_scope.
Import StorageManager AP_Param.
#[local] Abbreviation length := (@Datatypes.length _).

Module ParamNames.

Definition AP_MAX_NAME_SIZE : Z := 16.
Definition AP_PARAM_FLAG_IGNORE_ENABLE : Z := 32.

(** * Strings of the C library *)

Definition lower (c : ascii) : ascii :=
  let n := N_of_ascii c in
  if (65 <=? n)%N && (n <=? 90)%N then ascii_of_N (n + 32) else c.
Definition same_char (case : bool) (a b : ascii) : bool :=
  if case then Ascii.eqb a b else Ascii.eqb (lower a) (lower b).

(** What follows [p] in [s]: [strncmp] or [strncasecmp] with the length of [p]
    is 0. *)
Fixpoint after (case : bool) (p s : string) : option string :=
  match p, s with
  | EmptyString, _ => Some s
  | String a p, String b s => if same_char case a b then after case p s else None
  | _, EmptyString => None
  end.

(** [strcasecmp] is 0. *)
Definition same_name (a b : string) : bool :=
  match after false a b with Some EmptyString => true | _ => false end.

(** The first [n] characters; [strnlen] is the length of it. *)
Fixpoint take_string (n : nat) (s : string) : string :=
  match n, s with
  | S n, String c s => String c (take_string n s)
  | _, _ => EmptyString
  end.
Definition slen (s : string) : Z := Z.of_nat (String.length s).

Section names.
Context (_var_info : list Info) (deref : Z -> Z) (table_at : Z -> option (list GroupInfo)).
Context (_frame_type_flags : Z) (_hide_disabled_groups : bool).

(** * Names *)

(** [strncpy] to the end of what is in the buffer. *)
Definition append_name (size : Z) (buffer name : string) : string :=
  let len := u8 (slen buffer) in
  if len <? size then buffer ++ take_string (Z.to_nat (size - len)) name else buffer.

Definition add_vector3f_suffix (buffer : string) (buffer_size idx : Z) : string :=
  if slen buffer + 2 <=? buffer_size
  then buffer ++ String "_" (String (ascii_of_N (Z.to_N (u8 (88 + idx)))) EmptyString)
  else buffer.

Definition copy_name_info (f : found) (buffer_size : Z) (force_scalar : bool) : string :=
  let buffer := take_string (Z.to_nat buffer_size) (i_name (info f)) in
  let buffer := fold_left (fun b g => append_name buffer_size b (name g)) (nesting f) buffer in
  let suffix type buffer :=
    if (force_scalar || negb (vec_idx f =? 0)) && (AP_PARAM_VECTOR3F =? type)
    then add_vector3f_suffix buffer buffer_size (vec_idx f) else buffer in
  match ginfo f with
  | Some g => suffix (type g) (append_name buffer_size buffer (name g))
  | None => suffix (i_type (info f)) buffer
  end.

(** [find_var_info_token], for the row [v] of the key of the token. *)
Definition find_var_info_token (v : Info) (this : Z) : option found :=
  base ← get_base deref v;
  if i_type v =? AP_PARAM_GROUP then
    group_info ← get_group_info table_at (i_content v) (i_flags v);
    find_var_info_group deref table_at 3 this v group_info 0 0 0 []
  else if base =? this then Some (Found v 0 None [] 0)
  else if (i_type v =? AP_PARAM_VECTOR3F) && ((base + 4 =? this) || (base + 2 * 4 =? this))
  then Some (Found v 0 None [] ((this - base) / 4))
  else None.

(** A token used for [first] and [next]; its fields have 9, 5 and 18 bits. *)
Record ParamToken := Token { t_key : Z; t_idx : Z; t_element : Z }.

Definition token_at (vindex idx group_element : Z) : ParamToken :=
  Token (vindex mod 2 ^ 9) (idx mod 2 ^ 5) (group_element mod 2 ^ 18).

(** The row of a token; no token out of the table is ever given out. *)
Definition row_of_token (token : ParamToken) : option Info := _var_info !! Z.to_nat (t_key token).

Definition copy_name_token (token : ParamToken) (this buffer_size : Z) (force_scalar : bool)
  : option string :=
  v ← row_of_token token;
  Some (match find_var_info_token v this with
        | None => EmptyString
        | Some f => copy_name_info f buffer_size force_scalar
        end).

(** The element of a vector that a name with a suffix stands for. *)
Definition vector_suffix (vector nm : string) : option Z :=
  match after true (take_string (Z.to_nat AP_MAX_NAME_SIZE) vector) nm with
  | Some (String u (String c _)) =>
    if Ascii.eqb u "_" then
      if Ascii.eqb c "X" then Some 0
      else if Ascii.eqb c "Y" then Some 1
      else if Ascii.eqb c "Z" then Some 2
      else None
    else None
  | _ => None
  end.

(** [find_group]: the type and the address. *)
Fixpoint find_group_rows (nested : string -> list GroupInfo -> Z -> option (Z * Z))
    (nm : string) (v : Info) (rows : list GroupInfo) (group_offset : Z) : option (Z * Z) :=
  match rows with
  | [] => None
  | g :: rows =>
    let continue := find_group_rows nested nm v rows group_offset in
    if type g =? AP_PARAM_NONE then None
    else if type g =? AP_PARAM_GROUP then
      match after false (name g) nm with
      | None => continue
      | Some rest =>
        match get_group_info table_at (content g) (flags g) with
        | None => continue
        | Some ginfo =>
          match adjust_group_offset deref v g group_offset with
          | None => continue
          | Some new_offset =>
            match nested rest ginfo new_offset with
            | Some ap => Some ap
            | None => continue
            end
          end
        end
      end
    else if same_name nm (name g) then
      match get_base deref v with
      | None => continue
      | Some base => Some (type g, base + offset g + group_offset)
      end
    else if type g =? AP_PARAM_VECTOR3F then
      match vector_suffix (name g) nm with
      | None => continue
      | Some k =>
        match get_base deref v with
        | None => continue
        | Some base => Some (AP_PARAM_FLOAT, base + offset g + group_offset + 4 * k)
        end
      end
    else continue
  end.

Fixpoint find_group (levels : nat) (nm : string) (v : Info) (group_info : list GroupInfo)
    (group_offset : Z) : option (Z * Z) :=
  match levels with
  | O => None
  | S levels =>
    find_group_rows (fun nm ginfo offset => find_group levels nm v ginfo offset)
      nm v group_info group_offset
  end.

Fixpoint find_loop (levels : nat) (nm : string) (rows : list Info) : option (Z * Z) :=
  match rows with
  | [] => None
  | v :: rows =>
    if i_type v =? AP_PARAM_GROUP then
      match after true (take_string (Z.to_nat AP_MAX_NAME_SIZE) (i_name v)) nm with
      | None => find_loop levels nm rows
      | Some rest =>
        match get_group_info table_at (i_content v) (i_flags v) with
        | None => find_loop levels nm rows
        | Some group_info =>
          match find_group levels rest v group_info 0 with
          | Some ap => Some ap
          | None => find_loop levels nm rows
          end
        end
      end
    else if same_name nm (i_name v) then
      base ← get_base deref v; Some (i_type v, base)
    else find_loop levels nm rows
  end.
Definition find (levels : nat) (nm : string) : option (Z * Z) := find_loop levels nm _var_info.

Fixpoint find_object_loop (nm : string) (rows : list Info) : option Z :=
  match rows with
  | [] => None
  | v :: rows => if same_name nm (i_name v) then get_base deref v else find_object_loop nm rows
  end.
Definition find_object (nm : string) : option Z := find_object_loop nm _var_info.

(** * The walk over the variables *)

Definition check_frame_type (flags : Z) : bool :=
  let frame_flags := flags >> AP_PARAM_FRAME_TYPE_SHIFT in
  (frame_flags =? 0) || nz (frame_flags &&& _frame_type_flags).

Definition first : ParamToken * option (Z * Z) :=
  (Token 0 0 0,
   match _var_info with
   | [] => None
   | v :: _ => base ← get_base deref v; Some (i_type v, base)
   end).

(** [next_group]: the result is [*found_current], the token, and the variable. *)
Fixpoint next_rows
    (nested : list GroupInfo -> bool -> Z -> Z -> ParamToken -> bool * ParamToken * option (Z * Z))
    (vindex : Z) (v : Info) (rows : list GroupInfo) (found_current : bool)
    (group_base group_shift group_offset : Z) (token : ParamToken)
  : bool * ParamToken * option (Z * Z) :=
  match rows with
  | [] => (found_current, token, None)
  | g :: rows =>
    let continue found_current token :=
      next_rows nested vindex v rows found_current group_base group_shift group_offset token in
    let id := group_id g group_base group_shift in
    if type g =? AP_PARAM_NONE then (found_current, token, None)
    else if negb (check_frame_type (flags g)) then continue found_current token
    else if type g =? AP_PARAM_GROUP then
      match get_group_info table_at (content g) (flags g) with
      | None => continue found_current token
      | Some ginfo =>
        match adjust_group_offset deref v g group_offset with
        | None => continue found_current token
        | Some new_offset =>
          let '(found_current, token, ap) := nested ginfo found_current id new_offset token in
          match ap with
          | Some ap => (found_current, token, Some ap)
          | None => continue found_current token
          end
        end
      end
    else if found_current then
      let token := token_at vindex 0 id in
      match get_base deref v with
      | None => continue found_current token
      | Some base => (found_current, token, Some (type g, base + offset g + group_offset))
      end
    else if id =? t_element token then
      if (type g =? AP_PARAM_VECTOR3F) && (t_idx token <? 3) then
        let token := Token (t_key token) ((t_idx token + 1) mod 2 ^ 5) (t_element token) in
        match get_base deref v with
        | None => continue true token
        | Some base =>
          (true, token,
           Some (AP_PARAM_FLOAT, base + offset g + group_offset + 4 * (t_idx token - 1)))
        end
      else continue true token
    else continue false token
  end.

Fixpoint next_group (levels : nat) (vindex : Z) (v : Info) (group_info : list GroupInfo)
    (found_current : bool) (group_base group_shift group_offset : Z) (token : ParamToken)
  : bool * ParamToken * option (Z * Z) :=
  match levels with
  | O => (found_current, token, None)
  | S levels =>
    next_rows
      (fun ginfo found_current base offset token =>
         next_group levels vindex v ginfo found_current base
           (u8 (group_shift + _group_level_shift)) offset token)
      vindex v group_info found_current group_base group_shift group_offset token
  end.

(** The loop of [next] from row [i] on. *)
Fixpoint next_loop (levels : nat) (i : Z) (rows : list Info) (found_current : bool)
    (token : ParamToken) : ParamToken * option (Z * Z) :=
  match rows with
  | [] => (token, None)
  | v :: rows =>
    if negb (check_frame_type (i_flags v)) then next_loop levels (i + 1) rows found_current token
    else if i_type v =? AP_PARAM_GROUP then
      match get_group_info table_at (i_content v) (i_flags v) with
      | None => next_loop levels (i + 1) rows found_current token
      | Some group_info =>
        let '(found_current, token, ap) :=
          next_group levels i v group_info found_current 0 0 0 token in
        match ap with
        | Some ap => (token, Some ap)
        | None => next_loop levels (i + 1) rows found_current token
        end
      end
    else (token_at i 0 0, Some (i_type v, ptr v))
  end.

Definition next (levels : nat) (token : ParamToken) : ParamToken * option (Z * Z) :=
  let i := t_key token in
  match drop (Z.to_nat i) _var_info with
  | [] => (token, None)          (* illegal token *)
  | v :: rows =>
    if (i_type v =? AP_PARAM_VECTOR3F) && (t_idx token <? 3) then
      let token := Token (t_key token) ((t_idx token + 1) mod 2 ^ 5) (t_element token) in
      (token, Some (AP_PARAM_FLOAT, (t_idx token - 1) * 4 + ptr v))
    else if negb (i_type v =? AP_PARAM_GROUP) then next_loop levels (i + 1) rows true token
    else next_loop levels i (v :: rows) false token
  end.

(** ** Scalars *)

(** The first loop of [next_scalar]. *)
Fixpoint next_to_scalar (fuel levels : nat) (token : ParamToken)
  : outcome (ParamToken * option (Z * Z)) :=
  match fuel with
  | O => OutOfFuel
  | S fuel =>
    let '(token, ap) := next levels token in
    match ap with
    | Some (type, _) =>
      if type >? AP_PARAM_FLOAT then next_to_scalar fuel levels token else Done (token, ap)
    | None => Done (token, None)
    end
  end.

(** The loop over the variables that a disabled group hides; [level] is how deep
    the enabling variable is. *)
Fixpoint hide_loop (fuel levels : nat) (level : Z) (token token2 : ParamToken) : outcome ParamToken :=
  match fuel with
  | O => OutOfFuel
  | S fuel =>
    let '(token2, ap2) := next levels token2 in
    match ap2 with
    | None => Done token
    | Some _ =>
      if negb (t_key token2 =? t_key token) then Done token
      else if negb (level =? 0) &&
              negb ((t_element token &&& 0x3F) =? (t_element token2 &&& 0x3F)) then Done token
      else hide_loop fuel levels level token2 token2
    end
  end.

(** The depth of the variable, if it disables its group. *)
Definition disables (m : Z -> Z) (v : Info) (ap : Z) : option Z :=
  f ← find_var_info_token v ap;
  g ← ginfo f;
  if nz (flags g &&& AP_PARAM_FLAG_ENABLE) && negb (nz (flags g &&& AP_PARAM_FLAG_IGNORE_ENABLE)) &&
     (i8 (le_val (mem_read m ap 1)) =? 0) && _hide_disabled_groups
  then Some (zlen (nesting f)) else None.

Definition next_scalar (fuel levels : nat) (m : Z -> Z) (token : ParamToken)
  : outcome (ParamToken * option (Z * Z)) :=
  '(token, ap) ← next_to_scalar fuel levels token;
  match ap with
  | Some (type, a) =>
    if type =? AP_PARAM_INT8 then
      v ← access (row_of_token token);
      match disables m v a with
      | None => Done (token, ap)
      | Some level => token ← hide_loop fuel levels level token token; Done (token, ap)
      end
    else Done (token, ap)
  | None => Done (token, None)
  end.

Fixpoint find_by_index_loop (fuel levels : nat) (m : Z -> Z) (idx count : Z) (token : ParamToken)
    (ap : option (Z * Z)) : outcome (ParamToken * option (Z * Z)) :=
  match fuel with
  | O => OutOfFuel
  | S f =>
    match ap with
    | Some _ =>
      if count <? idx then
        '(token, ap) ← next_scalar fuel levels m token;
        find_by_index_loop f levels m idx (u16 (count + 1)) token ap
      else Done (token, ap)
    | None => Done (token, None)
    end
  end.
Definition find_by_index (fuel levels : nat) (m : Z -> Z) (idx : Z)
  : outcome (ParamToken * option (Z * Z)) :=
  let '(token, ap) := first in find_by_index_loop fuel levels m idx 0 token ap.

Fixpoint count_loop (fuel levels : nat) (m : Z -> Z) (ret : Z) (token : ParamToken) : outcome Z :=
  match fuel with
  | O => OutOfFuel
  | S f =>
    let ret := u16 (ret + 1) in
    '(token, vp) ← next_scalar fuel levels m token;
    match vp with
    | Some _ => count_loop f levels m ret token
    | None => Done ret
    end
  end.

(** [count_parameters], with the count kept since the last time, 0 if none. *)
Definition count_parameters (fuel levels : nat) (m : Z -> Z) (_parameter_count : Z) : outcome Z :=
  if 0 =? _parameter_count then count_loop fuel levels m 0 first.1
  else Done _parameter_count.
End names.
End ParamNames.
