(* ===== verification/ParamNamesSpec.v ===== *)
(** The variables of a parameter table as a list, and the searches of AP_Param as
    searches in this list: by address, by name, and of the next one. *)
From S2P Require Import Prelude Float32 Storage Param ParamLog ParamTables ParamNames.
From Stdlib Require Import String Ascii.
Open Scope urus_scope.
Import AP_Param ParamNames.
#[local] Abbreviation length := (@Datatypes.length _).

(** * The first of a list *)

Fixpoint pick {A B} (f : A -> option B) (l : list A) : option B :=
  match l with
  | [] => None
  | x :: l => match f x with Some y => Some y | None => pick f l end
  end.

Lemma pick_app {A B} (f : A -> option B) l l' :
  pick f (l ++ l') = match pick f l with Some y => Some y | None => pick f l' end.
Proof. induction l as [|x l IH]; simpl; [done|]. by destruct (f x). Qed.

Lemma pick_None {A B} (f : A -> option B) l : Forall (fun x => f x = None) l -> pick f l = None.
Proof. induction 1 as [|x l Hx _ IH]; simpl; [done|]. by rewrite Hx. Qed.

Lemma pick_ext {A B} (f g : A -> option B) l : Forall (fun x => f x = g x) l -> pick f l = pick g l.
Proof. induction 1 as [|x l Hx _ IH]; simpl; [done|]. by rewrite Hx, IH. Qed.

(** What is picked is picked wherever it is. *)
Lemma pick_unique {A B} (f : A -> option B) l x y : x ∈ l -> f x = Some y ->
  (forall x' y', x' ∈ l -> f x' = Some y' -> y' = y) -> pick f l = Some y.
Proof.
  induction l as [|x0 l IH]; [by intros ?%elem_of_nil|]. intros Hin Hy Ho. simpl.
  destruct (f x0) as [y0|] eqn:E; [f_equal; eapply Ho; [left|done]|].
  apply IH; [|done|intros x' y' Hx; apply Ho; by right].
  apply elem_of_cons in Hin as [->|]; [congruence|done].
Qed.

Lemma forallb_rev {A} (f : A -> bool) l : forallb f (rev l) = forallb f l.
Proof. induction l as [|x l IH]; simpl; [done|]. rewrite forallb_app, IH. simpl. by rewrite andb_true_r, andb_comm. Qed.

Lemma elem_of_filter_bool {A} (f : A -> bool) l x : x ∈ List.filter f l <-> x ∈ l /\ f x = true.
Proof. rewrite !list_elem_of_In. apply List.filter_In. Qed.

(** An element of two lists is in the first or in the second. *)
Lemma app_eq_cases {A} (x : A) l1 l2 a b : l1 ++ l2 = a ++ x :: b ->
  (exists b1, l1 = a ++ x :: b1 /\ b = b1 ++ l2) \/ (exists a1, a = l1 ++ a1 /\ l2 = a1 ++ x :: b).
Proof.
  revert a. induction l1 as [|y l1 IH]; intros a; simpl; [intros ->; right; by exists a|].
  destruct a as [|z a]; simpl; intros [= -> H]; [left; by exists l1|].
  destruct (IH a H) as [(b1&->&->)|(a1&->&->)]; [left; by exists b1|right; by exists a1].
Qed.

(** * The variables of a group *)

(** A variable: its row in the table of the vehicle, the groups on the way to it,
    its row in its group, its id and its address. *)
Record entry := Entry {
  e_index : Z;
  e_info : Info;
  e_path : list GroupInfo;
  e_row : option GroupInfo;
  e_id : Z;
  e_addr : Z
}.

Definition e_type (e : entry) : Z :=
  match e_row e with Some g => type g | None => i_type (e_info e) end.

Section group.
Context (deref : Z -> Z) (table_at : Z -> option (list GroupInfo)).

Fixpoint leaf_rows (nested : list GroupInfo -> Z -> Z -> list GroupInfo -> list entry)
    (i : Z) (v : Info) (base : Z) (rows : list GroupInfo)
    (group_base group_shift group_offset : Z) (nest : list GroupInfo) : list entry :=
  match rows with
  | [] => []
  | g :: rows =>
    let rest := leaf_rows nested i v base rows group_base group_shift group_offset nest in
    let id := group_id g group_base group_shift in
    if type g =? AP_PARAM_NONE then []
    else if type g =? AP_PARAM_GROUP then
      match get_group_info table_at (content g) (flags g) with
      | None => rest
      | Some ginfo =>
        match adjust_group_offset deref v g group_offset with
        | None => rest
        | Some new_offset => nested ginfo id new_offset (g :: nest) ++ rest
        end
      end
    else Entry i v (rev nest) (Some g) id (base + offset g + group_offset) :: rest
  end.

Fixpoint leaves (levels : nat) (i : Z) (v : Info) (base : Z) (gi : list GroupInfo)
    (group_base group_shift group_offset : Z) (nest : list GroupInfo) : list entry :=
  match levels with
  | O => []
  | S levels =>
    leaf_rows (fun gi gb go nest =>
        leaves levels i v base gi gb (u8 (group_shift + _group_level_shift)) go nest)
      i v base gi group_base group_shift group_offset nest
  end.

(** ** What the check of a group says *)

(** The rows of a group with [levels] levels from it down; the bits of [used] are
    taken by the rows before. *)
Inductive good : nat -> Z -> Z -> list GroupInfo -> Prop :=
| good_nil l s u : good l s u []
| good_end l s u g rows : type g = AP_PARAM_NONE -> good l s u (g :: rows)
| good_leaf l s u g rows : type g <> AP_PARAM_NONE -> (type g =? AP_PARAM_GROUP) = false ->
    0 <= idx g < 64 -> Z.testbit u (mask_bit g s) = false -> 0 < type_size (type g) ->
    good (S l) s (u ||| (1 << mask_bit g s)) rows -> good (S l) s u (g :: rows)
| good_group l s u g rows : type g <> AP_PARAM_NONE -> (type g =? AP_PARAM_GROUP) = true ->
    0 <= idx g < 64 -> Z.testbit u (mask_bit g s) = false -> s + 6 < 18 ->
    (forall gi, get_group_info table_at (content g) (flags g) = Some gi -> good l (s + 6) 0 gi) ->
    good (S l) s (u ||| (1 << mask_bit g s)) rows -> good (S l) s u (g :: rows).

Lemma check_good levels : forall gi total shift plen total', shift_of shift levels ->
  rows_wf table_at levels gi -> check_group_info table_at levels gi total shift plen = Some total' ->
  good levels shift 0 gi.
Proof.
  induction levels as [|levels IH]; intros gi total shift plen total' Hs Hwf Hc; [done|].
  cbn [check_group_info] in Hc. cbn [rows_wf] in Hwf. pose proof Hs as [Hsum H0].
  rewrite u8_small in Hc by (unfold _group_level_shift; lia). unfold _group_level_shift in Hc.
  assert (Hs' : shift_of (shift + 6) levels) by (split; lia).
  revert total Hc. generalize 0 as used.
  induction Hwf as [|g rows [Hi Hwf] Hrows IHrows]; intros used total Hc; [constructor|].
  destruct (Z.eqb_spec (type g) AP_PARAM_NONE) as [|Hty]; [by constructor|].
  destruct (check_row table_at shift _ g rows used total plen total' Hty (proj1 Hi) Hc)
    as (Hi'&Hm&(t1&Hc1)&Hrow).
  destruct (type g =? AP_PARAM_GROUP) eqn:Hg.
  - destruct Hrow as [H18 Hrow]. apply good_group; try done; [lia| |exact (IHrows _ _ Hc1)].
    intros gi Hgi. destruct (Hrow gi Hgi) as (t&p&t'&Hc'). by apply (IH gi t (shift + 6) p t' Hs' (Hwf gi Hgi)).
  - apply good_leaf; try done; [lia|]. exact (IHrows _ _ Hc1).
Qed.

Lemma good_shift l s u rows : good (S l) s u rows -> shift_of s (S l) ->
  u8 (s + _group_level_shift) = s + 6 /\ shift_of (s + 6) l.
Proof. intros _ [Hs H0]. split; [apply u8_small; unfold _group_level_shift; lia|split; lia]. Qed.

(** Where the variables of a group are from. *)
Lemma leaves_path levels : forall i v base gi gb s go nest,
  Forall (fun e => e_index e = i /\ e_info e = v /\ (exists p, e_path e = rev nest ++ p) /\
      exists g, e_row e = Some g)
    (leaves levels i v base gi gb s go nest).
Proof.
  induction levels as [|levels IH]; intros i v base gi gb s go nest; [done|]. cbn [leaves].
  induction gi as [|g gi IHgi]; [done|]. cbn [leaf_rows]. destruct (type g =? AP_PARAM_NONE); [done|].
  destruct (type g =? AP_PARAM_GROUP).
  - destruct (get_group_info _ _ _) as [gi'|]; [|done]. destruct (adjust_group_offset _ _ _ _) as [no|]; [|done].
    apply Forall_app. split; [|done]. eapply Forall_impl; [apply IH|].
    intros e (?&?&(p&Hp)&?). split_and!; try done. exists (g :: p). rewrite Hp. simpl.
    by rewrite <- app_assoc.
  - constructor; [|done]. simpl. split_and!; try done; [|by eexists]. exists []. by rewrite app_nil_r.
Qed.

(** More levels than those checked make no difference. *)
Lemma leaves_more n l s u gi : good l s u gi -> shift_of s l -> forall i v base gb go nest,
  leaves (l + n) i v base gi gb s go nest = leaves l i v base gi gb s go nest.
Proof.
  induction 1 as [l s u|l s u g rows Hty|l s u g rows Hty Hg Hi Hm Hsz _ IH|l s u g rows Hty Hg Hi Hm Hs _ IHn Hgood IH];
    intros Hsh i v base gb go nest.
  - by destruct l, n.
  - destruct l, n; simpl; by rewrite ?Hty.
  - cbn [Nat.add leaves leaf_rows] in *. rewrite (proj2 (Z.eqb_neq _ _)), Hg by done. f_equal. by apply IH.
  - destruct (good_shift _ _ _ _ Hgood Hsh) as [Hu Hsh'].
    cbn [Nat.add leaves leaf_rows] in *. rewrite (proj2 (Z.eqb_neq _ _)), Hg by done.
    rewrite Hu in *. destruct (get_group_info _ _ _) as [gi'|]; [|by apply IH].
    destruct (adjust_group_offset _ _ _ _) as [no|]; [|by apply IH]. f_equal; [by apply IHn|by apply IH].
Qed.

(** The ids of a group differ, and each is below the id of the group. *)
Lemma leaves_ids l s u gi : good l s u gi -> shift_of s l -> forall i v base gb go nest,
  0 <= gb < 2 ^ s ->
  let es := leaves l i v base gi gb s go nest in
  Forall (fun e => row_of s (e_id e) gb u /\ 0 <= e_id e < 2 ^ 18) es /\ NoDup (map e_id es).
Proof.
  induction 1 as [l s u|l s u g rows Hty|l s u g rows Hty Hg Hi Hm Hsz Hgood IH|l s u g rows Hty Hg Hi Hm Hs _ IHn Hgood IH];
    intros Hsh i v base gb go nest Hgb; simpl.
  - destruct l; simpl; (split; [done|constructor]).
  - destruct l; simpl; rewrite ?Hty; simpl; (split; [done|constructor]).
  - destruct (good_shift _ _ _ _ Hgood Hsh) as [Hu Hsh'].
    destruct (group_id_eq g gb s l Hsh Hi Hgb) as [Hid Hidr].
    destruct (IH Hsh i v base gb go nest Hgb) as [Hf Hn]. cbn [leaves] in Hf, Hn.
    rewrite (proj2 (Z.eqb_neq _ _)), Hg by done. split.
    + constructor; simpl.
      * split; [apply (row_of_here l s Hsh _ _ _ g); try done; by apply Z.mod_small|].
        destruct Hsh as [Hsh _]. split; [lia|]. apply Z.lt_le_trans with (2 ^ (s + 6)); [lia|].
        apply Z.pow_le_mono_r; lia.
      * eapply Forall_impl; [exact Hf|]. intros e [? ?]. split; [|done]. by apply (row_of_weaken s _ _ _ g).
    + simpl. constructor; [|done]. intros (e&He&Hin)%list_elem_of_fmap.
      rewrite Forall_forall in Hf. destruct (Hf e Hin) as [Hr _].
      apply (row_of_later l s Hsh) in Hr; [|done]. rewrite <- He, <- Hid in Hr. apply Hr.
      by apply Z.mod_small.
  - destruct (good_shift _ _ _ _ Hgood Hsh) as [Hu Hsh'].
    destruct (group_id_eq g gb s l Hsh Hi Hgb) as [Hid Hidr].
    destruct (IH Hsh i v base gb go nest Hgb) as [Hf Hn]. cbn [leaves] in Hf, Hn.
    rewrite (proj2 (Z.eqb_neq _ _)), Hg by done. rewrite Hu in *.
    assert (Hf' : Forall (fun e => row_of s (e_id e) gb u /\ 0 <= e_id e < 2 ^ 18)
      (leaf_rows (fun gi gb go nest => leaves l i v base gi gb (s + 6) go nest) i v base rows gb s go nest)).
    { eapply Forall_impl; [exact Hf|]. intros e [? ?]. split; [|done]. by apply (row_of_weaken s _ _ _ g). }
    destruct (get_group_info _ _ _) as [gi'|]; [|by split].
    destruct (adjust_group_offset _ _ _ _) as [no|]; [|by split].
    destruct (IHn gi' eq_refl Hsh' i v base (group_id g gb s) no (g :: nest)) as [Hf1 Hn1]; [done|].
    split.
    + apply Forall_app. split; [|done]. eapply Forall_impl; [exact Hf1|].
      intros e [Hr ?]. split; [|done]. apply (row_of_here l s Hsh _ _ _ g); try done.
      destruct l as [|l]; [destruct Hsh'; lia|]. by apply (row_of_base l (s + 6) Hsh' _ _ 0).
    + rewrite map_app. apply NoDup_app. split; [done|]. split; [|done].
      intros x (e1&->&H1)%list_elem_of_fmap (e2&He&H2)%list_elem_of_fmap.
      rewrite Forall_forall in Hf, Hf1. destruct (Hf e2 H2) as [Hr2 _]. destruct (Hf1 e1 H1) as [Hr1 _].
      apply (row_of_later l s Hsh) in Hr2; [|done]. apply Hr2. rewrite <- Hid, <- He.
      destruct l as [|l]; [destruct Hsh'; lia|]. by apply (row_of_base l (s + 6) Hsh' _ _ 0).
Qed.

Lemma leaves_sized l s u gi : good l s u gi -> forall i v base gb sh go nest e,
  e ∈ leaves l i v base gi gb sh go nest -> 0 < type_size (e_type e).
Proof.
  induction 1 as [l s u|l s u g rows Hty|l s u g rows Hty Hg Hi Hm Hsz _ IH|l s u g rows Hty Hg Hi Hm Hs _ IHn _ IH];
    intros i v base gb sh go nest e; simpl.
  - destruct l; by intros ?%elem_of_nil.
  - destruct l; simpl; rewrite ?Hty; by intros ?%elem_of_nil.
  - rewrite (proj2 (Z.eqb_neq _ _)), Hg by done. intros [->|He]%elem_of_cons; [done|by eapply IH].
  - rewrite (proj2 (Z.eqb_neq _ _)), Hg by done.
    destruct (get_group_info _ _ _) as [gi'|]; [|by eapply IH].
    destruct (adjust_group_offset _ _ _ _) as [no|]; [|by eapply IH].
    intros [He|He]%elem_of_app; [by eapply IHn|by eapply IH].
Qed.

(** ** The walk over a group *)

Section frame.
Context (_frame_type_flags : Z).
#[local] Abbreviation shown g := (check_frame_type _frame_type_flags (flags g)).

(** The groups of a variable, and its own row, are for the frame. *)
Definition visible_row (e : entry) : bool :=
  forallb (fun g => shown g) (e_path e) && match e_row e with Some g => shown g | None => true end.

Definition tok_of (e : entry) (k : Z) : ParamToken := token_at (e_index e) k (e_id e).

(** The same walk over a list of variables. *)
Fixpoint walk (es : list entry) (found_current : bool) (token : ParamToken)
  : bool * ParamToken * option (Z * Z) :=
  match es with
  | [] => (found_current, token, None)
  | e :: es =>
    if found_current then (true, tok_of e 0, Some (e_type e, e_addr e))
    else if e_id e =? t_element token then
      if (e_type e =? AP_PARAM_VECTOR3F) && (t_idx token <? 3) then
        let token := Token (t_key token) ((t_idx token + 1) mod 2 ^ 5) (t_element token) in
        (true, token, Some (AP_PARAM_FLOAT, e_addr e + 4 * (t_idx token - 1)))
      else walk es true token
    else walk es false token
  end.

Lemma walk_app es es' fc tok : walk (es ++ es') fc tok =
  let '(fc, tok, ap) := walk es fc tok in
  match ap with Some ap => (fc, tok, Some ap) | None => walk es' fc tok end.
Proof.
  revert fc tok. induction es as [|e es IH]; intros fc tok; simpl; [done|].
  destruct fc; [done|]. destruct (_ =? _); [|apply IH]. destruct (_ && _); [done|apply IH].
Qed.

Lemma next_group_walk v base levels : get_base deref v = Some base ->
  forall i gi gb s go nest fc tok, forallb (fun g => shown g) nest = true ->
  next_group deref table_at _frame_type_flags levels i v gi fc gb s go tok =
  walk (List.filter visible_row (leaves levels i v base gi gb s go nest)) fc tok.
Proof.
  intros Hb. induction levels as [|levels IH]; intros i gi gb s go nest fc tok Hn; [done|].
  cbn [next_group leaves]. revert fc tok. induction gi as [|g gi IHgi]; intros fc tok; [done|].
  cbn [next_rows leaf_rows]. destruct (type g =? AP_PARAM_NONE); [done|].
  destruct (shown g) eqn:Hs; simpl negb; cbv iota.
  - destruct (type g =? AP_PARAM_GROUP).
    + destruct (get_group_info _ _ _) as [gi'|]; [|apply IHgi].
      destruct (adjust_group_offset _ _ _ _) as [no|]; [|apply IHgi].
      rewrite List.filter_app, walk_app, (IH _ _ _ _ _ (g :: nest)) by (simpl; by rewrite Hs).
      destruct (walk _ _ _) as [[fc' tok'] [ap|]]; [done|apply IHgi].
    + set (e := Entry _ _ _ _ _ _). assert (Hv : visible_row e = true).
      { unfold visible_row. simpl. by rewrite forallb_rev, Hn, Hs. }
      cbn [List.filter]. rewrite Hv. cbn [walk e_id e_addr e_type e_row e]. rewrite Hb.
      destruct fc; [done|]. change (e_type e) with (type g). simpl (e_id e). simpl (e_addr e).
      destruct (_ =? t_element tok); [|apply IHgi]. destruct (_ && _); [done|apply IHgi].
  - assert (Hrest : forall es, Forall (fun e => exists p, e_path e = rev (g :: nest) ++ p) es ->
      List.filter visible_row es = []).
    { induction 1 as [|e es (p&Hp) _ IHes]; [done|]. cbn [List.filter]. unfold visible_row at 1.
      rewrite Hp, forallb_app, forallb_rev. simpl. by rewrite Hs. }
    destruct (type g =? AP_PARAM_GROUP).
    + destruct (get_group_info _ _ _) as [gi'|]; [|apply IHgi].
      destruct (adjust_group_offset _ _ _ _) as [no|]; [|apply IHgi].
      rewrite List.filter_app, Hrest; [apply IHgi|].
      eapply Forall_impl; [apply leaves_path|]. by intros e (_&_&?&_).
    + cbn [List.filter]. unfold visible_row at 1. simpl. rewrite Hs, andb_false_r. apply IHgi.
Qed.

(** Where an object is not allocated nothing is found. *)
Lemma next_group_no_base v levels : get_base deref v = None -> forall i gi gb s go fc tok,
  exists fc' tok', next_group deref table_at _frame_type_flags levels i v gi fc gb s go tok = (fc', tok', None) /\
    (fc = true -> fc' = true).
Proof.
  intros Hb. induction levels as [|levels IH]; intros i gi gb s go fc tok; [by eexists _, _|].
  cbn [next_group]. revert fc tok. induction gi as [|g gi IHgi]; intros fc tok; [by eexists _, _|].
  cbn [next_rows]. destruct (type g =? AP_PARAM_NONE); [by eexists _, _|].
  destruct (negb _); [apply IHgi|]. destruct (type g =? AP_PARAM_GROUP).
  - destruct (get_group_info _ _ _) as [gi'|]; [|apply IHgi].
    destruct (adjust_group_offset _ _ _ _) as [no|]; [|apply IHgi].
    destruct (IH i gi' (group_id g gb s) (u8 (s + _group_level_shift)) no fc tok) as (fc1&tok1&->&H1).
    destruct (IHgi fc1 tok1) as (fc2&tok2&->&H2). exists fc2, tok2. auto.
  - rewrite Hb. destruct fc; [apply IHgi|].
    destruct (_ =? t_element tok); [destruct (_ && _)|];
      edestruct IHgi as (fc2&tok2&->&_); by eexists _, _.
Qed.
End frame.

(** ** By address *)

(** The element of a variable that an address is of. *)
Definition hit (this : Z) (e : entry) : option Z :=
  if this =? e_addr e then Some 0
  else if (e_type e =? AP_PARAM_VECTOR3F) && ((e_addr e + 4 =? this) || (e_addr e + 2 * 4 =? this))
  then Some ((this - e_addr e) / 4) else None.

Definition found_of (e : entry) (k : Z) : found := Found (e_info e) (e_id e) (e_row e) (e_path e) k.
Definition look (this : Z) (e : entry) : option found := k ← hit this e; Some (found_of e k).

Lemma find_var_pick this l s u gi : good l s u gi -> shift_of s l -> forall i v base gb go nest,
  get_base deref v = Some base -> s = 6 * zlen nest ->
  find_var_info_group deref table_at l this v gi gb s go nest =
  pick (look this) (leaves l i v base gi gb s go nest).
Proof.
  induction 1 as [l s u|l s u g rows Hty|l s u g rows Hty Hg Hi Hm Hsz Hgood IH|l s u g rows Hty Hg Hi Hm Hs _ IHn Hgood IH];
    intros Hsh i v base gb go nest Hb Hn.
  - destruct l; simpl; by rewrite ?Hb.
  - destruct l; simpl; by rewrite ?Hb, ?Hty.
  - specialize (IH Hsh i v base gb go nest Hb Hn). cbn [find_var_info_group leaves] in *. rewrite Hb in *.
    cbn [find_var_rows leaf_rows]. rewrite (proj2 (Z.eqb_neq _ _)), Hg by done. cbn [pick].
    rewrite Z.add_assoc. unfold look at 1, hit. cbn [e_addr e_type e_row e_info e_id e_path].
    change (e_type (Entry i v (rev nest) (Some g) (group_id g gb s) (base + offset g + go))) with (type g).
    destruct (this =? _); [done|]. destruct (_ && _); [done|]. apply IH.
  - destruct (good_shift _ _ _ _ Hgood Hsh) as [Hu Hsh'].
    specialize (IH Hsh i v base gb go nest Hb Hn). cbn [find_var_info_group leaves] in *. rewrite Hb in *.
    cbn [find_var_rows leaf_rows]. rewrite (proj2 (Z.eqb_neq _ _)), Hg by done. rewrite Hu in *.
    destruct (get_group_info _ _ _) as [gi'|]; [|apply IH].
    destruct (_ >=? _group_bits) eqn:Hbits.
    { rewrite Z.geb_leb in Hbits. apply Z.leb_le in Hbits. unfold _group_level_shift, _group_bits in Hbits. lia. }
    destruct (adjust_group_offset _ _ _ _) as [no|]; [|apply IH].
    destruct (zlen nest >=? 2) eqn:H2; [rewrite Z.geb_leb in H2; apply Z.leb_le in H2; lia|].
    rewrite pick_app, <- (IHn gi' eq_refl Hsh' i v base _ no (g :: nest) Hb), IH;
      [done|rewrite length_cons; lia].
Qed.

(** ** By name *)

(** What is left of a name after the names of some groups. *)
Fixpoint eat (path : list GroupInfo) (nm : string) : option string :=
  match path with
  | [] => Some nm
  | g :: path => rest ← after false (name g) nm; eat path rest
  end.

Lemma eat_app p q nm : eat (p ++ q) nm = (rest ← eat p nm; eat q rest).
Proof.
  revert nm. induction p as [|g p IH]; intros nm; simpl; [done|].
  destruct (after _ _ _) as [rest|]; simpl; [apply IH|done].
Qed.

(** What a variable of a group is for the last part of a name. *)
Definition claim_row (nm : string) (e : entry) : option (Z * Z) :=
  g ← e_row e;
  if same_name nm (name g) then Some (e_type e, e_addr e)
  else if e_type e =? AP_PARAM_VECTOR3F then
    k ← vector_suffix (name g) nm; Some (AP_PARAM_FLOAT, e_addr e + 4 * k)
  else None.

Definition claim_group (nm : string) (e : entry) : option (Z * Z) :=
  rest ← eat (e_path e) nm; claim_row rest e.

Lemma find_group_pick full v base levels : get_base deref v = Some base ->
  forall i gi gb s go nest nm, eat (rev nest) full = Some nm ->
  find_group deref table_at levels nm v gi go =
  pick (claim_group full) (leaves levels i v base gi gb s go nest).
Proof.
  intros Hb. induction levels as [|levels IH]; intros i gi gb s go nest nm Hn; [done|].
  cbn [find_group leaves]. induction gi as [|g gi IHgi]; [done|].
  cbn [find_group_rows leaf_rows]. destruct (type g =? AP_PARAM_NONE); [done|].
  destruct (type g =? AP_PARAM_GROUP).
  - destruct (after false (name g) nm) as [rest|] eqn:Ha.
    + destruct (get_group_info _ _ _) as [gi'|]; [|done].
      destruct (adjust_group_offset _ _ _ _) as [no|]; [|done].
      rewrite pick_app, (IH i gi' (group_id g gb s) (u8 (s + _group_level_shift)) no (g :: nest) rest), IHgi; [done|].
      simpl. rewrite eat_app, Hn. simpl. by rewrite Ha.
    + destruct (get_group_info _ _ _) as [gi'|]; [|done].
      destruct (adjust_group_offset _ _ _ _) as [no|]; [|done].
      rewrite pick_app, (pick_None _ (leaves _ _ _ _ _ _ _ _ _)); [done|].
      eapply Forall_impl; [apply leaves_path|]. intros e (_&_&(p&Hp)&_).
      unfold claim_group. rewrite Hp. simpl. by rewrite !eat_app, Hn; simpl; rewrite Ha.
  - cbn [pick]. unfold claim_group at 1. cbn [e_path]. rewrite Hn. cbn.
    unfold claim_row. cbn. rewrite Hb. destruct (same_name _ _); [done|].
    unfold e_type. cbn. destruct (type g =? AP_PARAM_VECTOR3F); [|apply IHgi].
    destruct (vector_suffix _ _) as [k|]; [done|apply IHgi].
Qed.

Lemma find_group_no_base v levels : get_base deref v = None -> forall nm gi go,
  find_group deref table_at levels nm v gi go = None.
Proof.
  intros Hb. induction levels as [|levels IH]; intros nm gi go; [done|]. cbn [find_group].
  induction gi as [|g gi IHgi]; [done|]. cbn [find_group_rows]. rewrite Hb, IHgi.
  destruct (type g =? AP_PARAM_NONE); [done|]. destruct (type g =? AP_PARAM_GROUP).
  - destruct (after _ _ _); [|done]. destruct (get_group_info _ _ _); [|done].
    destruct (adjust_group_offset _ _ _ _); [|done]. by rewrite IH.
  - destruct (same_name _ _); [done|]. destruct (type g =? _); [|done]. by destruct (vector_suffix _ _).
Qed.

End group.

(** * The table of a vehicle *)

Section table.
Context (deref : Z -> Z) (table_at : Z -> option (list GroupInfo)) (_frame_type_flags : Z).

(** The variables of row [i] of the table, and those of the rows from [i] on. *)
Definition entries_of (i : Z) (v : Info) : list entry :=
  match get_base deref v with
  | None => []
  | Some base =>
    if i_type v =? AP_PARAM_GROUP then
      match get_group_info table_at (i_content v) (i_flags v) with
      | None => []
      | Some gi => leaves deref table_at 3 i v base gi 0 0 0 []
      end
    else [Entry i v [] None 0 base]
  end.

Fixpoint entries (i : Z) (rows : list Info) : list entry :=
  match rows with
  | [] => []
  | v :: rows => entries_of i v ++ entries (i + 1) rows
  end.

(** What a row that was checked is like. *)
Definition good_var (v : Info) : Prop :=
  if i_type v =? AP_PARAM_GROUP then
    forall gi, get_group_info table_at (i_content v) (i_flags v) = Some gi -> good table_at 3 0 0 gi
  else 0 < type_size (i_type v) /\ get_base deref v = Some (ptr v).

Lemma check_plain v rows first total : check_var_rows table_at (v :: rows) first total = true ->
  (i_type v =? AP_PARAM_GROUP) = false -> get_base deref v = Some (ptr v).
Proof.
  cbn [check_var_rows]. intros Hc Hg. rewrite Hg in Hc. destruct (type_size _ =? 0); [done|].
  destruct (duplicate_key _ _); [done|]. simpl in Hc. unfold get_base. by destruct (nz _).
Qed.

Lemma check_good_vars rows : Forall (info_wf table_at) rows -> forall first total,
  check_var_rows table_at rows first total = true -> Forall good_var rows.
Proof.
  induction 1 as [|v rows [Hk Hwf] _ IH]; intros first total Hc; [done|].
  destruct (check_info table_at v rows first total Hc) as ((t&Ht)&Hcase).
  constructor; [|by eapply IH]. unfold good_var. destruct (i_type v =? AP_PARAM_GROUP) eqn:Hg.
  - intros gi Hgi. destruct Hcase as [[_ Hn]|(_&gi'&t1&plen&t2&Hgi'&Hchk)]; [congruence|].
    replace gi with gi' by congruence. eapply check_good; [|by apply Hwf|exact Hchk]. done.
  - destruct Hcase as [[? _]|[_ ?]]; [done|]. split; [done|]. by eapply check_plain.
Qed.

Lemma check_first v rows total : check_var_rows table_at (v :: rows) true total = true ->
  (i_type v =? AP_PARAM_GROUP) = false.
Proof. cbn [check_var_rows]. by destruct (i_type v =? AP_PARAM_GROUP). Qed.

Lemma entries_of_info i v : Forall (fun e => e_index e = i /\ e_info e = v) (entries_of i v).
Proof.
  unfold entries_of. destruct (get_base _ _) as [base|]; [|done].
  destruct (i_type v =? AP_PARAM_GROUP); [|by repeat constructor].
  destruct (get_group_info _ _ _) as [gi|]; [|done]. eapply Forall_impl; [apply leaves_path|].
  by intros e (?&?&_).
Qed.

Lemma entries_index rows : forall i e, e ∈ entries i rows -> i <= e_index e < i + zlen rows.
Proof.
  induction rows as [|v rows IH]; intros i e; simpl; [by intros ?%elem_of_nil|].
  intros [H|H]%elem_of_app.
  - pose proof (entries_of_info i v) as Hf. rewrite Forall_forall in Hf. destruct (Hf e H). lia.
  - apply IH in H. lia.
Qed.

(** ** The variables that are listed *)

(** The first row always is; another one is when it is for the frame. *)
Definition visible (e : entry) : bool :=
  (e_index e =? 0) ||
  (check_frame_type _frame_type_flags (i_flags (e_info e)) && visible_row _frame_type_flags e).

Abbreviation listed es := (List.filter visible es).

Lemma listed_of i v : 0 < i -> listed (entries_of i v) =
  if check_frame_type _frame_type_flags (i_flags v)
  then List.filter (visible_row _frame_type_flags) (entries_of i v) else [].
Proof.
  intros Hi. generalize (entries_of_info i v). generalize (entries_of i v) as es.
  induction 1 as [|e es [Hx Hv] _ IH]; [by destruct (check_frame_type _ _)|].
  cbn [List.filter]. unfold visible at 1. rewrite Hx, (proj2 (Z.eqb_neq _ _)), Hv, IH by lia.
  by destruct (check_frame_type _ _).
Qed.

(** What a walk that has passed its variable comes to. *)
Definition comes_to (r : ParamToken * option (Z * Z)) (es : list entry) : Prop :=
  match es with
  | [] => r.2 = None
  | e :: _ => r = (tok_of e 0, Some (e_type e, e_addr e))
  end.

Lemma next_loop_true n rows : Forall good_var rows -> forall i tok, 0 < i ->
  comes_to (next_loop deref table_at _frame_type_flags (3 + n) i rows true tok) (listed (entries i rows)).
Proof.
  induction 1 as [|v rows Hv Hrows IH]; intros i tok Hi; [done|].
  cbn [next_loop entries]. rewrite List.filter_app, listed_of by done.
  destruct (check_frame_type _ _); simpl negb; cbv iota; [|apply IH; lia].
  unfold entries_of, good_var in *. destruct (i_type v =? AP_PARAM_GROUP) eqn:Hg.
  - destruct (get_group_info _ _ _) as [gi|]; [|destruct (get_base _ _); apply IH; lia].
    specialize (Hv gi eq_refl). destruct (get_base deref v) as [base|] eqn:Hb.
    + rewrite (next_group_walk _ _ _ v base _ Hb) with (nest := []) by done.
      rewrite (leaves_more _ _ _ _ _ _ _ Hv) by done.
      destruct (List.filter _ (leaves _ _ _ _ _ _ _ _ _ _ _)) as [|e es]; [apply IH; lia|done].
    + destruct (next_group_no_base deref table_at _frame_type_flags v (3 + n) Hb i gi 0 0 0 true tok)
        as (fc&tok'&->&Hfc). rewrite Hfc by done. apply IH; lia.
  - destruct Hv as [_ ->]. cbn [List.filter]. unfold visible_row. simpl. done.
Qed.
(** ** From one variable to the next *)

Lemma entries_split rows : forall i A e B, listed (entries i rows) = A ++ e :: B ->
  exists n v rows' A1 B1, drop n rows = v :: rows' /\ e_index e = i + Z.of_nat n /\
    listed (entries_of (e_index e) v) = A1 ++ e :: B1 /\
    B = B1 ++ listed (entries (e_index e + 1) rows').
Proof.
  induction rows as [|v rows IH]; intros i A e B; [by destruct A|].
  cbn [entries]. rewrite List.filter_app. intros H.
  assert (Hx : forall A1 B1, listed (entries_of i v) = A1 ++ e :: B1 -> e_index e = i).
  { intros A1 B1 E. pose proof (entries_of_info i v) as Hf. rewrite Forall_forall in Hf.
    apply Hf. apply (elem_of_filter_bool visible). rewrite E. apply elem_of_app. right. by left. }
  destruct (app_eq_cases e _ _ _ _ H) as [(B1&E&->)|(A1&_&E)].
  - exists 0%nat, v, rows, A, B1. split; [done|]. rewrite (Hx _ _ E). split; [lia|]. by split.
  - destruct (IH (i + 1) A1 e B E) as (n&v'&rows'&A2&B2&Hd&Hi&He&HB). exists (S n), v', rows', A2, B2.
    split; [done|]. split; [lia|]. by split.
Qed.

Lemma entries_of_ids i v : good_var v ->
  Forall (fun e => 0 <= e_id e < 2 ^ 18) (entries_of i v) /\ NoDup (map e_id (entries_of i v)).
Proof.
  unfold entries_of, good_var. intros Hv. destruct (get_base _ _) as [base|]; [|by split; [|constructor]].
  destruct (i_type v =? AP_PARAM_GROUP).
  - destruct (get_group_info _ _ _) as [gi|]; [|by split; [|constructor]].
    destruct (leaves_ids deref table_at 3 0 0 gi (Hv gi eq_refl) ltac:(done) i v base 0 0 []) as [Hf Hn]; [done|].
    split; [|done]. eapply Forall_impl; [exact Hf|]. by intros e [_ ?].
  - split; [by repeat constructor|]. repeat constructor. by intros ?%elem_of_nil.
Qed.

Lemma listed_ids i v : good_var v ->
  Forall (fun e => 0 <= e_id e < 2 ^ 18) (listed (entries_of i v)) /\
  NoDup (map e_id (listed (entries_of i v))).
Proof.
  intros [Hf Hn]%(entries_of_ids i). split.
  - rewrite Forall_forall in *. intros e [He _]%elem_of_filter_bool. by apply Hf.
  - clear Hf. induction (entries_of i v) as [|e es IH]; [done|]. cbn [List.filter].
    apply NoDup_cons in Hn as [H1 H2]. destruct (visible e); [|by apply IH].
    apply NoDup_cons. split; [|by apply IH]. intros (e'&He&[? _]%elem_of_filter_bool)%list_elem_of_fmap.
    apply H1. apply list_elem_of_fmap. by exists e'.
Qed.

Lemma walk_found es1 es2 e tok : NoDup (map e_id (es1 ++ e :: es2)) -> t_element tok = e_id e ->
  walk (es1 ++ e :: es2) false tok =
  if (e_type e =? AP_PARAM_VECTOR3F) && (t_idx tok <? 3) then
    let tok := Token (t_key tok) ((t_idx tok + 1) mod 2 ^ 5) (t_element tok) in
    (true, tok, Some (AP_PARAM_FLOAT, e_addr e + 4 * (t_idx tok - 1)))
  else walk es2 true tok.
Proof.
  intros Hn Ht. induction es1 as [|e1 es1 IH]; simpl in *; [by rewrite Ht, Z.eqb_refl|].
  apply NoDup_cons in Hn as [H1 H2]. rewrite Ht in *.
  destruct (Z.eqb_spec (e_id e1) (e_id e)) as [E|_]; [|by apply IH].
  destruct H1. rewrite E. apply list_elem_of_fmap. exists e. split; [done|].
  apply elem_of_app. right. by left.
Qed.

Lemma token_at_small i k id : 0 <= i < 512 -> 0 <= k < 32 -> 0 <= id < 2 ^ 18 ->
  token_at i k id = Token i k id.
Proof. intros. unfold token_at. by rewrite !Z.mod_small. Qed.

(** The table is one that was checked. *)
Definition good_table (_var_info : list Info) : Prop :=
  Forall good_var _var_info /\ zlen _var_info <= 512 /\
  match _var_info with [] => True | v :: _ => (i_type v =? AP_PARAM_GROUP) = false end.

Lemma param_next_spec n _var_info A e B k : good_table _var_info ->
  listed (entries 0 _var_info) = A ++ e :: B -> 0 <= k <= 3 ->
  let r := next _var_info deref table_at _frame_type_flags (3 + n) (tok_of e k) in
  if (e_type e =? AP_PARAM_VECTOR3F) && (k <? 3)
  then r = (tok_of e (k + 1), Some (AP_PARAM_FLOAT, e_addr e + 4 * k))
  else comes_to r B.
Proof.
  intros (Hgood & Hlen & Hfirst) HL Hk.
  destruct (entries_split _var_info 0 A e B HL) as (m&v&rows&A1&B1&Hd&Hi&Hrow&->).
  assert (Hm : drop m _var_info = v :: rows) by done. apply (f_equal length) in Hd.
  rewrite length_drop in Hd. simpl in Hd.
  assert (Hv : good_var v /\ Forall good_var rows).
  { apply (Forall_drop _ m) in Hgood. rewrite Hm in Hgood. by apply Forall_cons in Hgood. }
  destruct Hv as [Hv Hrows].
  destruct (listed_ids (e_index e) v Hv) as [Hids Hnd]. rewrite Hrow in Hids, Hnd.
  assert (Hid : 0 <= e_id e < 2 ^ 18) by (apply Forall_app in Hids as [_ Hids]; by apply Forall_cons in Hids as [? _]).
  assert (Hinfo : e_info e = v /\ e ∈ entries_of (e_index e) v).
  { assert (He : e ∈ entries_of (e_index e) v).
    { apply (elem_of_filter_bool visible). rewrite Hrow. apply elem_of_app. right. by left. }
    pose proof (entries_of_info (e_index e) v) as Hf. rewrite Forall_forall in Hf. by destruct (Hf e He). }
  destruct Hinfo as [Hinfo Hin]. unfold next, tok_of.
  rewrite !(token_at_small (e_index e)) by lia. cbn [t_key t_idx t_element].
  rewrite Hi, Z.add_0_l, Nat2Z.id, Hm, <- (Z.add_0_l (Z.of_nat m)), <- Hi. cbv zeta.
  destruct (i_type v =? AP_PARAM_GROUP) eqn:Hg.
  - rewrite (proj2 (Z.eqb_neq (i_type v) AP_PARAM_VECTOR3F)) by (apply Z.eqb_eq in Hg; rewrite Hg; done).
    simpl andb. cbv iota. simpl negb. cbv iota.
    assert (Hpos : 0 < e_index e). { destruct m as [|m]; [|lia]. destruct _var_info; simpl in Hm; [done|]. simplify_eq. congruence. }
    rewrite listed_of in Hrow by done. cbn [next_loop].
    destruct (check_frame_type _ (i_flags v)); [simpl negb; cbv iota|by destruct A1].
    unfold entries_of, good_var in Hrow, Hv. rewrite Hg in Hrow, Hv |- *.
    destruct (get_base deref v) as [base|] eqn:Hb; [|by destruct A1].
    destruct (get_group_info _ _ _) as [gi|]; [|by destruct A1]. specialize (Hv gi eq_refl).
    rewrite (next_group_walk _ _ _ v base _ Hb) with (nest := []) by done.
    rewrite (leaves_more _ _ _ _ _ _ _ Hv) by done. rewrite Hrow.
    rewrite walk_found by done. cbn [t_key t_idx t_element].
    destruct (_ && _).
    + rewrite !Z.mod_small by lia. cbn [t_key t_idx t_element]. do 3 f_equal. lia.
    + destruct B1 as [|e1 B1]; [by apply next_loop_true; [|lia]|done].
  - unfold entries_of, good_var in Hin, Hv. rewrite Hg in Hin, Hv. destruct Hv as [_ Hb]. rewrite Hb in Hin.
    apply list_elem_of_singleton in Hin.
    assert (B1 = []) as ->.
    { apply (f_equal length) in Hrow. unfold entries_of in Hrow. rewrite Hb, Hg, length_app in Hrow.
      simpl in Hrow. destruct (visible _); simpl in Hrow; [|lia]. destruct B1; [done|simpl in Hrow; lia]. }
    replace (e_type e) with (i_type v) by (rewrite Hin; done).
    replace (e_addr e) with (ptr v) by (rewrite Hin; done). simpl negb. cbv iota.
    destruct (_ && _).
    + rewrite !Z.mod_small by lia. cbn [t_key t_idx t_element]. do 3 f_equal. lia.
    + apply next_loop_true; [done|lia].
Qed.
End table.
