(* ===== verification/ParamList.v ===== *)
(** The list of parameters that a ground station gets: its order, its length, and
    the names in it. *)
From S2P Require Import Prelude Float32 Storage Param ParamLog ParamTables ParamNames ParamNamesSpec.
From Stdlib Require Import String Ascii.
Open Scope urus_scope.
Import AP_Param ParamNames.
#[local] Abbreviation length := (@Datatypes.length _).

Section table.
Context (deref : Z -> Z) (table_at : Z -> option (list GroupInfo)) (_frame_type_flags : Z).
Context (_hide_disabled_groups : bool) (_var_info : list Info).

(** * Positions *)

(** All variables, and those listed. *)
Definition all_entries : list entry := entries deref table_at 0 _var_info.
Definition listed_entries : list entry := List.filter (visible _frame_type_flags) all_entries.

(** A variable, or the k-th element (from 1) of a vector. *)
Definition position : Type := entry * Z.

Definition p_tok (p : position) : ParamToken := tok_of p.1 p.2.
Definition p_var (p : position) : Z * Z :=
  if p.2 =? 0 then (e_type p.1, e_addr p.1) else (AP_PARAM_FLOAT, e_addr p.1 + 4 * (p.2 - 1)).

(** A vector is listed as itself, and then as three floats. *)
Definition expand (e : entry) : list position :=
  if e_type e =? AP_PARAM_VECTOR3F then [(e, 0); (e, 1); (e, 2); (e, 3)] else [(e, 0)].

Definition positions : list position := flat_map expand listed_entries.

(** The walk is at the start of [ps]. *)
Definition is_at (r : ParamToken * option (Z * Z)) (ps : list position) : Prop :=
  match ps with
  | [] => r.2 = None
  | p :: _ => r = (p_tok p, Some (p_var p))
  end.

#[local] Abbreviation next n := (next _var_info deref table_at _frame_type_flags (3 + n)).
#[local] Abbreviation good_table := (good_table deref table_at _var_info).

Lemma flat_map_split {A B} (f : A -> list B) l a x b : flat_map f l = a ++ x :: b ->
  exists l1 y l2 a1 b1, l = l1 ++ y :: l2 /\ f y = a1 ++ x :: b1 /\ b = b1 ++ flat_map f l2.
Proof.
  revert a. induction l as [|y l IH]; intros a; simpl; [by destruct a|].
  intros [(b1&E&->)|(a1&->&E)]%app_eq_cases.
  - by exists [], y, l, a, b1.
  - destruct (IH a1 E) as (l1&z&l2&a2&b2&->&Hf&->). by exists (y :: l1), z, l2, a2, b2.
Qed.

Lemma comes_to_at r es : comes_to r es -> is_at r (flat_map expand es).
Proof. destruct es as [|e es]; simpl; [done|]. intros ->. unfold expand. by destruct (_ =? _). Qed.

Lemma next_at n A p B : good_table -> positions = A ++ p :: B -> is_at (next n (p_tok p)) B.
Proof.
  intros Hg H. apply flat_map_split in H as (l1&e&l2&a1&b1&Hl&He&->).
  assert (Hk : forall k, 0 <= k <= 3 -> let r := next n (tok_of e k) in
    if (e_type e =? AP_PARAM_VECTOR3F) && (k <? 3)
    then r = (tok_of e (k + 1), Some (AP_PARAM_FLOAT, e_addr e + 4 * k))
    else comes_to r l2).
  { intros k Hk. by apply (param_next_spec deref table_at _frame_type_flags n _var_info l1 e l2 k). }
  unfold expand in He. destruct (e_type e =? AP_PARAM_VECTOR3F) eqn:Hv.
  - destruct a1 as [|? [|? [|? [|? a1]]]]; simpl in He; simplify_eq; unfold p_tok; cbn [fst snd].
    + rewrite (Hk 0) by lia. done.
    + rewrite (Hk 1) by lia. done.
    + rewrite (Hk 2) by lia. done.
    + apply comes_to_at. apply (Hk 3). lia.
    + by destruct a1.
  - destruct a1 as [|? a1]; simpl in He; simplify_eq; [|by destruct a1].
    apply comes_to_at. apply (Hk 0). lia.
Qed.

Lemma first_at : good_table -> is_at (first _var_info deref) positions.
Proof.
  intros (Hv & _ & Hf). unfold first, positions, listed_entries, all_entries. destruct _var_info as [|v rows]; [done|].
  apply Forall_cons in Hv as [Hv _]. cbn [entries]. unfold good_var in Hv. rewrite Hf in Hv. destruct Hv as [_ Hb].
  unfold entries_of. rewrite Hb, Hf. apply (comes_to_at _ (_ :: _)). done.
Qed.

(** * Tokens and rows *)

(** The row of a variable, and the ranges of the fields of its token. *)
Lemma entries_row rows : forall i e, e ∈ entries deref table_at i rows ->
  exists n, rows !! n = Some (e_info e) /\ e_index e = i + Z.of_nat n /\
    e ∈ entries_of deref table_at (e_index e) (e_info e).
Proof.
  induction rows as [|v rows IH]; intros i e; simpl; [by intros ?%elem_of_nil|].
  intros [H|H]%elem_of_app.
  - pose proof (entries_of_info deref table_at i v) as Hf. rewrite Forall_forall in Hf.
    destruct (Hf e H) as [Hi Hv]. exists 0%nat. rewrite Hi, Hv. split; [done|]. split; [lia|done].
  - destruct (IH _ _ H) as (n&Hn&Hi&He). exists (S n). split; [done|]. split; [lia|done].
Qed.

Lemma entries_of_all e n v : _var_info !! n = Some v ->
  e ∈ entries_of deref table_at (Z.of_nat n) v -> e ∈ all_entries.
Proof.
  unfold all_entries. rewrite <- (Z.add_0_l (Z.of_nat n)). generalize 0. revert n.
  induction _var_info as [|v0 rows IH]; intros [|n] i Hn He; simplify_eq/=; apply elem_of_app.
  - left. by rewrite Z.add_0_r in He.
  - right. apply (IH n); [done|]. by replace (i + 1 + Z.of_nat n) with (i + Z.of_nat (S n)) by lia.
Qed.

Lemma entry_row e : good_table -> e ∈ all_entries ->
  _var_info !! Z.to_nat (e_index e) = Some (e_info e) /\ 0 <= e_index e < 512 /\ 0 <= e_id e < 2 ^ 18 /\
  good_var deref table_at (e_info e) /\ e ∈ entries_of deref table_at (e_index e) (e_info e).
Proof.
  intros (Hv & Hl & _) He. destruct (entries_row _ _ _ He) as (n&Hn&Hi&Hin).
  pose proof (Forall_lookup_1 _ _ _ _ Hv Hn) as Hg. pose proof (lookup_lt_Some _ _ _ Hn) as Hlt.
  split; [by rewrite Hi, Z.add_0_l, Nat2Z.id|]. split; [lia|].
  destruct (entries_of_ids deref table_at (e_index e) (e_info e) Hg) as [Hf _].
  rewrite Forall_forall in Hf. auto.
Qed.

Lemma position_entry p : p ∈ positions -> p.1 ∈ all_entries /\ 0 <= p.2 <= 3 /\
  (p.2 = 0 \/ (e_type p.1 =? AP_PARAM_VECTOR3F) = true).
Proof.
  unfold positions. intros (e&He&Hp)%list_elem_of_In%in_flat_map.
  apply list_elem_of_In in He. apply elem_of_filter_bool in He as [He _].
  unfold expand in Hp. destruct (e_type e =? AP_PARAM_VECTOR3F) eqn:Hv; simpl in Hp;
    repeat (destruct Hp as [<-|Hp]; [simpl; split; [done|]; split; [lia|]; auto|]); done.
Qed.

Lemma p_tok_eq p : good_table -> p ∈ positions ->
  p_tok p = Token (e_index p.1) p.2 (e_id p.1) /\
  row_of_token _var_info (p_tok p) = Some (e_info p.1).
Proof.
  intros Hg Hp. destruct (position_entry p Hp) as (He&Hk&_).
  destruct (entry_row _ Hg He) as (Hrow&Hi&Hid&_).
  assert (E : p_tok p = Token (e_index p.1) p.2 (e_id p.1)) by (apply token_at_small; lia).
  split; [done|]. rewrite E. exact Hrow.
Qed.

(** ** The variable at an address *)

(** The variables of a row do not overlap in memory. *)
Definition apart : Prop := forall e e', e ∈ all_entries -> e' ∈ all_entries ->
  e_index e = e_index e' -> e = e' \/
  e_addr e + type_size (e_type e) <= e_addr e' \/ e_addr e' + type_size (e_type e') <= e_addr e.

Lemma find_token_pick v i this : good_var deref table_at v ->
  find_var_info_token deref table_at v this = pick (look this) (entries_of deref table_at i v).
Proof.
  unfold find_var_info_token, entries_of, good_var. intros Hv. destruct (get_base _ _) as [base|] eqn:Hb; [|done].
  simpl. destruct (i_type v =? AP_PARAM_GROUP).
  - destruct (get_group_info _ _ _) as [gi|]; [|done]. simpl. by apply (find_var_pick deref table_at this 3 0 0 gi (Hv gi eq_refl)).
  - cbn [pick]. unfold look, hit, e_type. cbn [e_addr e_row e_info]. rewrite (Z.eqb_sym base this).
    destruct (this =? base); [done|]. by destruct (_ && _).
Qed.

Lemma entry_sized e : good_table -> e ∈ all_entries -> 0 < type_size (e_type e).
Proof.
  intros Hg He. destruct (entry_row e Hg He) as (_&_&_&Hv&Hin). clear He.
  unfold entries_of, good_var in *. destruct (get_base _ _) as [base|]; [|by apply elem_of_nil in Hin].
  destruct (i_type (e_info e) =? AP_PARAM_GROUP) eqn:Ht.
  - destruct (get_group_info _ _ _) as [gi|]; [|by apply elem_of_nil in Hin].
    by apply (leaves_sized deref table_at 3 0 0 gi (Hv gi eq_refl)) in Hin.
  - apply list_elem_of_singleton in Hin. rewrite Hin. unfold e_type. simpl. apply Hv.
Qed.

Lemma hit_inside this e j : 0 < type_size (e_type e) -> hit this e = Some j ->
  this = e_addr e + 4 * j /\ e_addr e <= this < e_addr e + type_size (e_type e) /\ 0 <= j < 3.
Proof.
  unfold hit. intros Hs. destruct (Z.eqb_spec this (e_addr e)) as [->|_]; [intros [= <-]; lia|].
  destruct (Z.eqb_spec (e_type e) AP_PARAM_VECTOR3F) as [->|]; [|done]. change (type_size AP_PARAM_VECTOR3F) with 12.
  simpl. destruct (Z.eqb_spec (e_addr e + 4) this), (Z.eqb_spec (e_addr e + 2 * 4) this); simpl;
    intros Hj; try discriminate Hj; injection Hj as <-; zlia.
Qed.

Lemma find_token_entry e j : good_table -> apart -> e ∈ all_entries ->
  hit (e_addr e + 4 * j) e = Some j ->
  find_var_info_token deref table_at (e_info e) (e_addr e + 4 * j) = Some (found_of e j).
Proof.
  intros Hg Ha He Hh. destruct (entry_row e Hg He) as (Hrow&_&_&Hv&Hin).
  rewrite (find_token_pick _ (e_index e)) by done.
  apply (pick_unique _ _ e); [done|unfold look; by rewrite Hh|].
  intros e' f He' Hl. unfold look in Hl. apply bind_Some in Hl as (j'&Hh'&[= <-]).
  assert (Hall : e' ∈ all_entries).
  { apply (entries_of_all _ _ _ Hrow). destruct (entry_row e Hg He) as (_&?&_). by rewrite Z2Nat.id by lia. }
  pose proof (entries_of_info deref table_at (e_index e) (e_info e)) as Hf. rewrite Forall_forall in Hf.
  destruct (Hf e' He') as [Hi' _].
  pose proof (hit_inside _ _ _ (entry_sized e Hg He) Hh) as (_&?&_).
  pose proof (hit_inside _ _ _ (entry_sized e' Hg Hall) Hh') as (Hj'&?&_).
  destruct (Ha e e' He Hall ltac:(congruence)) as [<-|?]; [|lia]. f_equal. lia.
Qed.

(** * The parameters of the list *)

Section memory.
Context (m : Z -> Z).

Definition is_scalar (p : position) : bool := (p_var p).1 <=? AP_PARAM_FLOAT.

(** What a variable hides after it: an enabling variable that is 0 hides the rest
    of its row, if it is at the top of the object, and the variables of the same
    group of the first level otherwise. *)
Definition hidden_by (p : position) : option (Z * option Z) :=
  g ← e_row p.1;
  if (type g =? AP_PARAM_INT8) && nz (flags g &&& AP_PARAM_FLAG_ENABLE) &&
     negb (nz (flags g &&& AP_PARAM_FLAG_IGNORE_ENABLE)) &&
     (i8 (le_val (mem_read m (e_addr p.1) 1)) =? 0) && _hide_disabled_groups
  then Some (e_index p.1, if zlen (e_path p.1) =? 0 then None else Some (e_id p.1 &&& 0x3F))
  else None.

Definition hides (h : option (Z * option Z)) (p : position) : bool :=
  match h with
  | None => false
  | Some (i, None) => e_index p.1 =? i
  | Some (i, Some low) => (e_index p.1 =? i) && ((e_id p.1 &&& 0x3F) =? low)
  end.

(** The scalars of a list that are not hidden. *)
Fixpoint scalars (h : option (Z * option Z)) (ps : list position) : list position :=
  match ps with
  | [] => []
  | p :: ps =>
    if hides h p then scalars h ps
    else if is_scalar p then p :: scalars (hidden_by p) ps
    else scalars None ps
  end.

(** The parameters of the vehicle, from the first variable on. *)
Definition parameters : list position :=
  match positions with [] => [] | p :: ps => p :: scalars None ps end.

#[local] Abbreviation split A p B := (positions = A ++ p :: B).

Lemma split_in A p B : split A p B -> p ∈ positions.
Proof. intros ->. apply elem_of_app. right. by left. Qed.

Lemma split_next A p q B : split A p (q :: B) -> split (A ++ [p]) q B.
Proof. intros ->. by rewrite <- app_assoc. Qed.

Lemma next_split n A p B : good_table -> split A p B -> is_at (next n (p_tok p)) B.
Proof. apply next_at. Qed.

Lemma to_scalar n B : good_table -> forall fuel A p, split A p B -> (length B < fuel)%nat ->
  match scalars None B with
  | [] => exists tok, next_to_scalar _var_info deref table_at _frame_type_flags fuel (3 + n) (p_tok p) = Done (tok, None)
  | q :: S' => exists A' R, split A' q R /\ (length R < length B)%nat /\
      next_to_scalar _var_info deref table_at _frame_type_flags fuel (3 + n) (p_tok p) = Done (p_tok q, Some (p_var q)) /\
      is_scalar q = true /\ S' = scalars (hidden_by q) R
  end.
Proof.
  intros Hg. induction B as [|q B IH]; intros [|fuel] A p Hp Hf; simpl in Hf; try lia;
    cbn [next_to_scalar]; pose proof (next_split n A p _ Hg Hp) as Hn; cbn [is_at] in Hn.
  - destruct (next n (p_tok p)) as [tok ap]. simpl in Hn. subst ap. simpl. by exists tok.
  - rewrite Hn. destruct (p_var q) as [ty a] eqn:Hv.
    assert (Hsc : is_scalar q = (ty <=? AP_PARAM_FLOAT)) by (unfold is_scalar; by rewrite Hv).
    cbn [scalars hides]. rewrite Z.gtb_ltb, Z.ltb_antisym, <- Hsc.
    destruct (is_scalar q) eqn:Hs; simpl negb; cbv iota.
    + exists (A ++ [p]), B. split; [by apply split_next|]. split; [simpl; lia|]. by rewrite Hv.
    + specialize (IH fuel (A ++ [p]) q (split_next _ _ _ _ Hp) ltac:(lia)).
      destruct (scalars None B) as [|r S']; [done|]. destruct IH as (A'&R&?&?&?). exists A', R. simpl. split; [done|].
      split; [lia|done].
Qed.

(** The loop over the hidden variables ends at the last of them. *)
Lemma hide_spec n level h B : good_table -> forall fuel A p, split A p B -> (length B < fuel)%nat ->
  h = Some (e_index p.1, if level =? 0 then None else Some (e_id p.1 &&& 0x3F)) ->
  exists A' p' R, split A' p' R /\ (length R <= length B)%nat /\ e_index p'.1 = e_index p.1 /\
    hide_loop _var_info deref table_at _frame_type_flags fuel (3 + n) level (p_tok p) (p_tok p) = Done (p_tok p') /\
    scalars h B = scalars None R.
Proof.
  intros Hg. induction B as [|q B IH]; intros [|fuel] A p Hp Hf Hh; simpl in Hf; try lia;
    cbn [hide_loop]; pose proof (next_split n A p _ Hg Hp) as Hn; cbn [is_at] in Hn.
  - destruct (next n (p_tok p)) as [tok ap]. simpl in Hn. subst ap. exists A, p, []. done.
  - rewrite Hn. pose proof (split_next _ _ _ _ Hp) as Hq.
    destruct (p_tok_eq p Hg (split_in _ _ _ Hp)) as [-> _].
    destruct (p_tok_eq q Hg (split_in _ _ _ Hq)) as [Eq _]. rewrite Eq. cbn [t_key t_element].
    assert (Hd : forall b : bool, b = hides h q ->
      (if b then hide_loop _var_info deref table_at _frame_type_flags fuel (3 + n) level (p_tok q) (p_tok q)
       else Done (p_tok p)) =
      (if negb (e_index q.1 =? e_index p.1) then Done (p_tok p)
       else if negb (level =? 0) && negb ((e_id p.1 &&& 0x3F) =? (e_id q.1 &&& 0x3F)) then Done (p_tok p)
       else hide_loop _var_info deref table_at _frame_type_flags fuel (3 + n) level (p_tok q) (p_tok q))).
    { intros b ->. rewrite Hh. simpl. rewrite (Z.eqb_sym (e_id p.1 &&& _)).
      destruct (level =? 0); simpl; destruct (_ =? e_index p.1); simpl; try done. by destruct (_ =? _). }
    rewrite <- Eq. destruct (p_tok_eq p Hg (split_in _ _ _ Hp)) as [<- _].
    rewrite <- (Hd _ eq_refl). cbn [scalars]. destruct (hides h q) eqn:Hhq.
    + destruct (IH fuel (A ++ [p]) q Hq ltac:(lia)) as (A'&p'&R&?&?&Hi&?&?).
      { rewrite Hh in Hhq |- *. simpl in Hhq. destruct (level =? 0); simpl in Hhq.
        - apply Z.eqb_eq in Hhq. by rewrite Hhq.
        - apply andb_true_iff in Hhq as [H1 H2]. apply Z.eqb_eq in H1, H2. by rewrite H1, H2. }
      exists A', p', R. split; [done|]. split; [simpl; lia|]. split; [|done]. rewrite Hi.
      rewrite Hh in Hhq. simpl in Hhq. destruct (level =? 0); simpl in Hhq.
      * by apply Z.eqb_eq in Hhq.
      * apply andb_true_iff in Hhq as [Hx _]. by apply Z.eqb_eq in Hx.
    + exists A, p, (q :: B). split; [done|]. split; [done|]. split; [done|]. split; [done|].
      done.
Qed.
Lemma p_var_int8 q : q ∈ positions -> (p_var q).1 = AP_PARAM_INT8 ->
  q.2 = 0 /\ e_type q.1 = AP_PARAM_INT8 /\ (p_var q).2 = e_addr q.1.
Proof. unfold p_var. intros _. by destruct (Z.eqb_spec q.2 0). Qed.

Lemma disables_hidden q : good_table -> apart -> q ∈ positions -> (p_var q).1 = AP_PARAM_INT8 ->
  hidden_by q =
    (level ← disables deref table_at _hide_disabled_groups m (e_info q.1) (p_var q).2;
     Some (e_index q.1, if level =? 0 then None else Some (e_id q.1 &&& 0x3F))).
Proof.
  intros Hg Ha Hq Hv. destruct (p_var_int8 q Hq Hv) as (_&Ht&->).
  destruct (position_entry q Hq) as (He&_). unfold disables, hidden_by.
  pose proof (find_token_entry q.1 0 Hg Ha He) as Hf. rewrite Z.mul_0_r, Z.add_0_r in Hf.
  rewrite Hf by (unfold hit; by rewrite Z.eqb_refl). unfold found_of. cbn [ginfo nesting mbind option_bind].
  unfold e_type in Ht. destruct (e_row q.1) as [g|]; [|done]. simpl. rewrite Ht.
  change (AP_PARAM_INT8 =? AP_PARAM_INT8) with true. rewrite andb_true_l. by destruct (_ && _).
Qed.

Lemma hidden_by_other q : q ∈ positions -> (p_var q).1 <> AP_PARAM_INT8 -> hidden_by q = None.
Proof.
  intros Hq Hv. destruct (position_entry q Hq) as (_&_&Hk). unfold hidden_by, p_var, e_type in *.
  destruct (e_row q.1) as [g|]; [|done]. simpl. destruct (Z.eqb_spec (type g) AP_PARAM_INT8) as [E|]; [|done].
  exfalso. rewrite E in *. destruct (Z.eqb_spec q.2 0); [done|]. destruct Hk; done.
Qed.

#[local] Abbreviation next_scalar fuel n :=
  (next_scalar _var_info deref table_at _frame_type_flags _hide_disabled_groups fuel (3 + n) m).

Lemma next_scalar_split n fuel A p B : good_table -> apart -> split A p B -> (length B < fuel)%nat ->
  match scalars None B with
  | [] => exists tok, next_scalar fuel n (p_tok p) = Done (tok, None)
  | q :: S' => exists A' p' R, split A' p' R /\ (length R < length B)%nat /\
      e_index p'.1 = e_index q.1 /\ q ∈ positions /\
      next_scalar fuel n (p_tok p) = Done (p_tok p', Some (p_var q)) /\ S' = scalars None R
  end.
Proof.
  intros Hg Ha Hp Hf. pose proof (to_scalar n B Hg fuel A p Hp Hf) as Hs. unfold ParamNames.next_scalar.
  destruct (scalars None B) as [|q S'].
  { destruct Hs as (tok&->). by exists tok. }
  destruct Hs as (A'&R&Hq&Hl&->&Hsc&->). cbn [mbind outcome_bind]. pose proof (split_in _ _ _ Hq) as Hin.
  destruct (p_var q) as [ty a] eqn:Hv. destruct (Z.eqb_spec ty AP_PARAM_INT8) as [->|Hne].
  - destruct (p_tok_eq q Hg Hin) as [_ ->]. cbn [mbind outcome_bind access].
    pose proof (disables_hidden q Hg Ha Hin) as Hd. rewrite Hv in Hd. specialize (Hd eq_refl). cbn [snd] in Hd.
    destruct (disables _ _ _ _ _ _) as [level|].
    + destruct (hide_spec n level (hidden_by q) R Hg fuel A' q Hq ltac:(lia) Hd)
        as (A2&p'&R2&Hp'&Hl2&Hi&->&->). exists A2, p', R2. split; [done|]. split; [lia|]. done.
    + cbn in Hd. rewrite Hd. by exists A', q, R.
  - rewrite hidden_by_other by (done || by rewrite Hv). by exists A', q, R.
Qed.

(** ** Counting, and the parameter of an index *)

Lemma count_from n B : good_table -> apart -> forall fuel A p ret, split A p B -> (length B < fuel)%nat ->
  count_loop _var_info deref table_at _frame_type_flags _hide_disabled_groups fuel (3 + n) m ret (p_tok p) =
  Done (u16 (ret + 1 + zlen (scalars None B))).
Proof.
  intros Hg Ha fuel. revert B. induction fuel as [|fuel IH]; intros B A p ret Hp Hf; [lia|]. cbn [count_loop].
  pose proof (next_scalar_split n (S fuel) A p B Hg Ha Hp Hf) as Hn. destruct (scalars None B) as [|q S'].
  - destruct Hn as (tok&->). simpl. f_equal. f_equal. lia.
  - destruct Hn as (A'&p'&R&Hp'&Hl&_&_&->&->). cbn [mbind outcome_bind]. rewrite (IH R A' p') by (done || lia). f_equal.
    rewrite length_cons. unfold u16. rewrite <- !Z.add_assoc, Zplus_mod_idemp_l. f_equal. lia.
Qed.

Lemma index_from n : good_table -> apart -> forall fuel B A p q idx count, split A p B -> (length B < fuel)%nat ->
  0 <= count <= idx -> idx < 65536 -> e_index p.1 = e_index q.1 ->
  exists tok, find_by_index_loop _var_info deref table_at _frame_type_flags _hide_disabled_groups
      (S fuel) (3 + n) m idx count (p_tok p) (Some (p_var q)) =
    Done (tok, p_var <$> (q :: scalars None B) !! Z.to_nat (idx - count)) /\
    forall r, (q :: scalars None B) !! Z.to_nat (idx - count) = Some r -> t_key tok = e_index r.1.
Proof.
  intros Hg Ha. induction fuel as [|fuel IH]; intros B A p q idx count Hp Hf Hc Hidx Hpq; [lia|].
  remember (S fuel) as fuel1 eqn:Ef. cbn [find_by_index_loop]. destruct (Z.ltb_spec count idx) as [Hlt|].
  - pose proof (next_scalar_split n (S fuel1) A p B Hg Ha Hp ltac:(lia)) as Hn.
    replace (Z.to_nat (idx - count)) with (S (Z.to_nat (idx - (count + 1)))) by lia.
    destruct (scalars None B) as [|q' S'].
    + destruct Hn as (tok&->). cbn. subst fuel1. exists tok. cbn. split; [done|]. intros r Hr. done.
    + destruct Hn as (A'&p'&R&Hp'&Hl&Hi&_&->&->). cbn [mbind outcome_bind]. rewrite u16_small by lia. subst fuel1.
      destruct (IH R A' p' q' idx (count + 1) Hp') as (tok&E&Htok); [lia..|done|]. exists tok.
      split; [exact E|exact Htok].
  - replace (Z.to_nat (idx - count)) with 0%nat by lia. exists (p_tok p). split; [done|]. intros r [= <-].
    destruct (p_tok_eq p Hg (split_in _ _ _ Hp)) as [-> _]. done.
Qed.
Lemma parameters_in p : p ∈ parameters -> p ∈ positions.
Proof.
  unfold parameters. destruct positions as [|p0 ps] eqn:E; [done|]. intros [->|Hp]%elem_of_cons; [by left|].
  right. revert Hp. generalize (@None (Z * option Z)). clear E. induction ps as [|q ps IH]; intros h; [done|]. cbn [scalars].
  destruct (hides h q); [intros Hp; right; by eapply IH|]. destruct (is_scalar q).
  - intros [->|Hp]%elem_of_cons; [by left|right; by eapply IH].
  - intros Hp. right. by eapply IH.
Qed.

Lemma count_spec n fuel : good_table -> apart -> positions <> [] -> (length positions <= fuel)%nat ->
  count_parameters _var_info deref table_at _frame_type_flags _hide_disabled_groups fuel (3 + n) m 0 =
  Done (u16 (zlen parameters)).
Proof.
  intros Hg Ha Hne Hf. unfold count_parameters, parameters. simpl (0 =? 0). cbv iota.
  pose proof (first_at Hg) as H1. destruct positions as [|p B] eqn:E; [done|]. simpl in H1, Hf. rewrite H1.
  simpl (_.1). rewrite (count_from n B Hg Ha fuel [] p 0 E) by lia. rewrite length_cons. do 2 f_equal. lia.
Qed.

Lemma index_spec n fuel idx : good_table -> apart -> (length positions <= fuel)%nat -> 0 <= idx < 65536 ->
  exists tok, find_by_index _var_info deref table_at _frame_type_flags _hide_disabled_groups
      (S fuel) (3 + n) m idx = Done (tok, p_var <$> parameters !! Z.to_nat idx) /\
    forall r, parameters !! Z.to_nat idx = Some r -> t_key tok = e_index r.1.
Proof.
  intros Hg Ha Hf Hi. unfold find_by_index, parameters. pose proof (first_at Hg) as H1.
  destruct positions as [|p B] eqn:E; cbn [is_at] in H1.
  - destruct (first _ _) as [tok ap]. cbn [snd] in H1. subst ap. exists tok. by split.
  - rewrite H1. simpl in Hf.
    destruct (index_from n Hg Ha fuel B [] p p idx 0 E) as (tok&Hx&Ht); [lia..|done|].
    rewrite Z.sub_0_r in Hx, Ht. by exists tok.
Qed.
End memory.
End table.
