(* ===== verification/ParamListProperties.v ===== *)
(** Names of parameters are read back: the theorems on the list of parameters. *)
From S2P Require Import Prelude Float32 Storage Param ParamLog ParamTables ParamNames ParamNamesSpec.
From S2P Require Import ParamList.
From Stdlib Require Import String Ascii.
Open Scope urus_scope.
Import AP_Param ParamNames.
#[local] Abbreviation length := (@Datatypes.length _).

(** * Strings *)

Lemma string_app_assoc a b c : ((a ++ b) ++ c = a ++ (b ++ c))%string.
Proof. induction a as [|x a IH]; simpl; [done|]. by rewrite IH. Qed.

Lemma string_app_empty a : (a ++ "" = a)%string.
Proof. induction a as [|x a IH]; simpl; [done|]. by rewrite IH. Qed.

Lemma slen_app a b : slen (a ++ b) = slen a + slen b.
Proof. unfold slen. induction a as [|x a IH]; [done|]. simpl. lia. Qed.

Lemma slen_nonneg a : 0 <= slen a.
Proof. unfold slen. lia. Qed.

Lemma take_string_all n a : slen a <= Z.of_nat n -> take_string n a = a.
Proof.
  revert n. induction a as [|x a IH]; intros [|n] H; unfold slen in *; simpl in *; try done.
  rewrite IH; [done|lia].
Qed.

Lemma take_name a : slen a <= 16 -> take_string (Z.to_nat AP_MAX_NAME_SIZE) a = a.
Proof. intros H. apply take_string_all. exact H. Qed.

Lemma same_char_refl case c : same_char case c c = true.
Proof. unfold same_char. destruct case; apply Ascii.eqb_refl. Qed.

Lemma after_app case p s : after case p (p ++ s) = Some s.
Proof. induction p as [|c p IH]; simpl; [done|]. by rewrite same_char_refl. Qed.

Lemma after_slen case p : forall s r, after case p s = Some r -> slen s = slen p + slen r.
Proof.
  unfold slen. induction p as [|c p IH]; intros [|d s] r; simpl; try done; try (intros [= <-]; simpl; lia).
  destruct (same_char _ _ _); [|done]. intros H%IH. lia.
Qed.

Lemma same_name_refl s : same_name s s = true.
Proof. unfold same_name. by rewrite <- (string_app_empty s) at 2; rewrite after_app. Qed.

Lemma same_name_slen a b : same_name a b = true -> slen a = slen b.
Proof.
  unfold same_name. destruct (after false a b) as [r|] eqn:E; [|done]. destruct r; [|done]. intros _.
  apply after_slen in E. unfold slen in *. simpl in E. lia.
Qed.

(** * Names *)

Fixpoint path_name (path : list GroupInfo) : string :=
  match path with [] => "" | g :: path => name g ++ path_name path end.

Definition row_name (e : entry) : string := match e_row e with Some g => name g | None => "" end.

(** The element of a vector that a position is, and its letter. *)
Definition element_of (p : position) : Z := if p.2 =? 0 then 0 else p.2 - 1.
Definition axis (k : Z) : string := String "_" (String (ascii_of_N (Z.to_N (88 + k))) "").
Definition suffix (p : position) : string :=
  if e_type p.1 =? AP_PARAM_VECTOR3F then axis (element_of p) else "".

Definition full_name (p : position) : string :=
  i_name (e_info p.1) ++ path_name (e_path p.1) ++ row_name p.1 ++ suffix p.

(** What a variable is for a name. *)
Definition claim (nm : string) (e : entry) : option (Z * Z) :=
  match e_row e with
  | None => if same_name nm (i_name (e_info e)) then Some (e_type e, e_addr e) else None
  | Some _ =>
    rest ← after true (take_string (Z.to_nat AP_MAX_NAME_SIZE) (i_name (e_info e))) nm;
    claim_group rest e
  end.

Lemma slen_axis k : slen (axis k) = 2.
Proof. done. Qed.

Lemma eat_path path r : eat path (path_name path ++ r) = Some r.
Proof.
  induction path as [|g path IH]; simpl; [done|]. rewrite string_app_assoc, after_app. exact IH.
Qed.

Lemma vector_suffix_axis nm k : slen nm <= 16 -> k = 0 \/ k = 1 \/ k = 2 ->
  vector_suffix nm (nm ++ axis k) = Some k.
Proof.
  intros Hs Hk. unfold vector_suffix. rewrite take_name by lia. rewrite after_app.
  by destruct Hk as [->|[->| ->]].
Qed.

(** A variable is claimed by its own name. *)
Lemma claim_own p : 0 <= p.2 <= 3 -> (p.2 = 0 \/ (e_type p.1 =? AP_PARAM_VECTOR3F) = true) ->
  is_scalar p = true -> (e_row p.1 = None -> e_path p.1 = [] /\ e_type p.1 <> AP_PARAM_VECTOR3F) ->
  slen (full_name p) <= 16 -> claim (full_name p) p.1 = Some (p_var p).
Proof.
  intros Hk Hkv Hsc Htop Hlen. unfold full_name in *. rewrite !slen_app in Hlen.
  pose proof (slen_nonneg (i_name (e_info p.1))). pose proof (slen_nonneg (path_name (e_path p.1))).
  pose proof (slen_nonneg (row_name p.1)). pose proof (slen_nonneg (suffix p)).
  unfold claim, row_name, is_scalar, p_var in *. destruct (e_row p.1) as [g|] eqn:Hrow.
  - rewrite take_name by lia. rewrite after_app. cbn [mbind option_bind].
    unfold claim_group. rewrite eat_path. cbn [mbind option_bind]. unfold claim_row. rewrite Hrow.
    cbn [mbind option_bind]. unfold suffix, element_of in *.
    destruct (e_type p.1 =? AP_PARAM_VECTOR3F) eqn:Hv.
    + destruct (Z.eqb_spec p.2 0) as [E|E]; simpl in Hsc.
      { apply Z.eqb_eq in Hv. rewrite Hv in Hsc. done. }
      destruct (same_name _ _) eqn:Hs.
      { apply same_name_slen in Hs. rewrite slen_app, slen_axis in Hs. lia. }
      rewrite vector_suffix_axis by lia. done.
    + destruct Hkv as [->|]; [|done]. by rewrite string_app_empty, same_name_refl.
  - destruct (Htop eq_refl) as [Hp Hv]. apply Z.eqb_neq in Hv. unfold suffix. rewrite Hp, Hv.
    destruct Hkv as [->|]; [|congruence]. simpl. by rewrite !string_app_empty, same_name_refl.
Qed.

(** The buffer of a name that fits is the name. *)
Lemma append_name_fits size b nm : 0 <= size < 256 -> slen b + slen nm < size ->
  append_name size b nm = (b ++ nm)%string.
Proof.
  intros Hs Hl. pose proof (slen_nonneg b). pose proof (slen_nonneg nm). unfold append_name.
  rewrite u8_small, (proj2 (Z.ltb_lt _ _)) by lia. by rewrite take_string_all by lia.
Qed.

Lemma append_path size path : forall b, 0 <= size < 256 -> slen b + slen (path_name path) < size ->
  fold_left (fun b g => append_name size b (name g)) path b = (b ++ path_name path)%string.
Proof.
  induction path as [|g path IH]; intros b Hs Hl; simpl in *; [by rewrite string_app_empty|].
  rewrite slen_app in Hl. pose proof (slen_nonneg (path_name path)).
  rewrite append_name_fits by lia. rewrite IH by (rewrite ?slen_app; lia). by rewrite string_app_assoc.
Qed.

Lemma copy_name_fits p : 0 <= p.2 <= 3 -> (e_row p.1 = None -> e_path p.1 = []) ->
  slen (full_name p) <= 16 ->
  copy_name_info (found_of p.1 (element_of p)) 17 true = full_name p.
Proof.
  intros Hk Htop Hlen. unfold full_name in *. rewrite !slen_app in Hlen.
  pose proof (slen_nonneg (i_name (e_info p.1))). pose proof (slen_nonneg (path_name (e_path p.1))).
  pose proof (slen_nonneg (row_name p.1)). pose proof (slen_nonneg (suffix p)).
  unfold copy_name_info, found_of. cbn [info nesting ginfo vec_idx].
  rewrite (take_string_all (Z.to_nat 17)) by lia. rewrite append_path by lia.
  assert (Hsuf : forall b, slen b + slen (suffix p) <= 16 ->
    (if (true || negb (element_of p =? 0)) && (AP_PARAM_VECTOR3F =? e_type p.1)
     then add_vector3f_suffix b 17 (element_of p) else b) = (b ++ suffix p)%string).
  { intros b Hb. unfold suffix in *. rewrite orb_true_l, andb_true_l, (Z.eqb_sym AP_PARAM_VECTOR3F).
    destruct (e_type p.1 =? AP_PARAM_VECTOR3F); [|by rewrite string_app_empty].
    rewrite slen_axis in Hb. unfold add_vector3f_suffix, axis. rewrite (proj2 (Z.leb_le _ _)) by lia.
    rewrite u8_small; [done|]. unfold element_of. destruct (p.2 =? 0); lia. }
  unfold row_name, e_type in *. destruct (e_row p.1) as [g|].
  - rewrite append_name_fits by (rewrite ?slen_app; lia). rewrite Hsuf by (rewrite ?slen_app; lia).
    by rewrite !string_app_assoc.
  - rewrite (Htop eq_refl) in *. simpl path_name in *. rewrite string_app_empty, Hsuf by lia. done.
Qed.

(** [find] is the first variable that the name is a name of. *)
Lemma find_pick deref table_at n nm rows : Forall (good_var deref table_at) rows -> forall i,
  find_loop deref table_at (3 + n) nm rows = pick (claim nm) (entries deref table_at i rows).
Proof.
  induction 1 as [|v rows Hv _ IH]; intros i; [done|]. cbn [find_loop entries]. rewrite pick_app.
  rewrite (IH (i + 1)). unfold entries_of, good_var in *. destruct (i_type v =? AP_PARAM_GROUP).
  - destruct (get_base deref v) as [base|] eqn:Hb.
    + destruct (get_group_info _ _ _) as [gi|]; [|by destruct (after _ _ _)]. specialize (Hv gi eq_refl).
      assert (Hc : Forall (fun e => claim nm e =
          (rest ← after true (take_string (Z.to_nat AP_MAX_NAME_SIZE) (i_name v)) nm; claim_group rest e))
        (leaves deref table_at 3 i v base gi 0 0 0 [])).
      { eapply Forall_impl; [apply leaves_path|]. intros e (_&He&_&(g&Hg)). unfold claim. by rewrite Hg, He. }
      rewrite (pick_ext _ _ _ Hc). destruct (after _ _ _) as [rest|]; cbn [mbind option_bind].
      * rewrite (find_group_pick deref table_at rest v base (3 + n) Hb i gi 0 0 0 [] rest eq_refl).
        rewrite (leaves_more deref table_at n 3 0 0 gi Hv) by done.
        done.
      * rewrite (pick_None (fun _ => None)); [done|by apply Forall_forall].
    + destruct (after _ _ _) as [rest|]; [|done]. destruct (get_group_info _ _ _) as [gi|]; [|done].
      by rewrite find_group_no_base.
  - destruct Hv as [_ ->]. cbn [pick claim e_row e_info e_type e_addr].
    by destruct (same_name _ _).
Qed.

Section theorems.
Context (deref : Z -> Z) (table_at : Z -> option (list GroupInfo)) (_frame_type_flags : Z).
Context (_hide_disabled_groups : bool) (_var_info : list Info) (m : Z -> Z).

Lemma checked_table : check_var_info _var_info table_at = true -> Forall (info_wf table_at) _var_info ->
  zlen _var_info <= 512 -> good_table deref table_at _var_info.
Proof.
  intros Hc Hwf Hl. split; [by eapply check_good_vars|]. split; [done|].
  unfold check_var_info in Hc. destruct _var_info as [|v rows]; [done|]. by apply check_first in Hc.
Qed.

Lemma entry_top e : e ∈ all_entries deref table_at _var_info -> e_row e = None -> e_path e = [].
Proof.
  intros He. destruct (entries_row deref table_at _ _ _ He) as (_&_&_&Hin). clear He.
  unfold entries_of in Hin. destruct (get_base _ _) as [base|]; [|by apply elem_of_nil in Hin].
  destruct (i_type _ =? AP_PARAM_GROUP).
  - destruct (get_group_info _ _ _) as [gi|]; [|by apply elem_of_nil in Hin].
    pose proof (leaves_path deref table_at 3 (e_index e) (e_info e) base gi 0 0 0 []) as Hf.
    rewrite Forall_forall in Hf. destruct (Hf e Hin) as (_&_&_&(g&->)). done.
  - apply list_elem_of_singleton in Hin. by rewrite Hin.
Qed.

#[local] Abbreviation all := (all_entries deref table_at _var_info).
#[local] Abbreviation listed_positions := (positions deref table_at _frame_type_flags _var_info).

(** Only one variable has the name. *)
Definition only_name (p : position) : Prop :=
  forall e r, e ∈ all -> claim (full_name p) e = Some r -> r = p_var p.

Lemma named p tok n : good_table deref table_at _var_info -> apart deref table_at _var_info ->
  p ∈ listed_positions -> is_scalar p = true -> slen (full_name p) <= 16 ->
  (e_row p.1 = None -> e_type p.1 <> AP_PARAM_VECTOR3F) -> only_name p -> t_key tok = e_index p.1 ->
  copy_name_token _var_info deref table_at tok (p_var p).2 17 true = Some (full_name p) /\
  find _var_info deref table_at (3 + n) (full_name p) = Some (p_var p).
Proof.
  intros Hg Ha Hp Hsc Hlen Hvec Honly Htok. destruct (position_entry _ _ _ _ p Hp) as (He&Hk&Hkv).
  pose proof (entry_top p.1 He) as Htop. destruct (entry_row _ _ _ _ Hg He) as (Hrow&Hi&_&_&_). split.
  - unfold copy_name_token, row_of_token. rewrite Htok, Hrow. cbn [mbind option_bind].
    assert (Hx : (p_var p).2 = e_addr p.1 + 4 * element_of p /\
      hit (e_addr p.1 + 4 * element_of p) p.1 = Some (element_of p)).
    { unfold p_var, element_of, is_scalar, p_var in *. destruct (Z.eqb_spec p.2 0) as [E|E].
      - rewrite Z.mul_0_r, Z.add_0_r. split; [done|]. unfold hit. by rewrite Z.eqb_refl.
      - split; [done|]. destruct Hkv as [|Hv]; [done|]. unfold hit. rewrite Hv.
        assert (Hc : p.2 = 1 \/ p.2 = 2 \/ p.2 = 3) by lia. destruct Hc as [->|[->| ->]]; simpl.
        + by rewrite Z.add_0_r, Z.eqb_refl.
        + rewrite (proj2 (Z.eqb_neq _ _)), Z.eqb_refl by lia. simpl. f_equal. zlia.
        + rewrite (proj2 (Z.eqb_neq _ _)) by lia. rewrite Z.eqb_refl, orb_true_r. f_equal. zlia. }
    destruct Hx as [-> Hh]. rewrite (find_token_entry _ _ _ _ _ Hg Ha He Hh).
    f_equal. apply copy_name_fits; [lia|done|done].
  - unfold find. rewrite (find_pick _ _ n _ _ (proj1 Hg) 0).
    apply (pick_unique _ _ p.1); [done| |intros e r Hin Hc; by apply (Honly e r)].
    apply claim_own; try done. auto.
Qed.

End theorems.

(** C20. The walk of [first] and [next] goes through the list of the variables in
    the order of the tables: every variable for the frame, of every object that is
    allocated, once, through nested groups, a vector followed by its three floats;
    after the last one there is none.  The token alone says where the walk is. *)
Theorem param_walk deref table_at _frame_type_flags _var_info n :
  check_var_info _var_info table_at = true -> Forall (info_wf table_at) _var_info ->
  zlen _var_info <= 512 ->
  let list := positions deref table_at _frame_type_flags _var_info in
  is_at (first _var_info deref) list /\
  forall A p B, list = A ++ p :: B ->
    is_at (next _var_info deref table_at _frame_type_flags (3 + n) (p_tok p)) B.
Proof.
  intros Hc Hwf Hl list. pose proof (checked_table deref table_at _var_info Hc Hwf Hl) as Hg.
  split; [by apply first_at|]. intros A p B. by apply next_at.
Qed.

(** The count of the parameters, and the parameter of an index, are those of
    one list: the first variable, and then the scalars of the walk but for those
    that an enabling variable of value 0 hides. *)
Theorem param_count deref table_at _frame_type_flags hide _var_info m n fuel :
  check_var_info _var_info table_at = true -> Forall (info_wf table_at) _var_info ->
  zlen _var_info <= 512 -> apart deref table_at _var_info -> _var_info <> [] ->
  (length (positions deref table_at _frame_type_flags _var_info) < fuel)%nat ->
  let list := parameters deref table_at _frame_type_flags hide _var_info m in
  (zlen list < 65536 ->
   count_parameters _var_info deref table_at _frame_type_flags hide fuel (3 + n) m 0 = Done (zlen list)) /\
  forall idx, 0 <= idx < 65536 -> exists tok,
    find_by_index _var_info deref table_at _frame_type_flags hide fuel (3 + n) m idx =
      Done (tok, p_var <$> list !! Z.to_nat idx).
Proof.
  intros Hc Hwf Hl Ha Hne Hf list. pose proof (checked_table deref table_at _var_info Hc Hwf Hl) as Hg.
  assert (Hp : positions deref table_at _frame_type_flags _var_info <> []).
  { intros E. pose proof (first_at deref table_at _frame_type_flags _var_info Hg) as H1. rewrite E in H1.
    destruct _var_info as [|v rows]; [done|]. destruct Hg as (Hv&_&H0). apply Forall_cons in Hv as [Hv _].
    unfold good_var in Hv. rewrite H0 in Hv. destruct Hv as [_ Hb]. simpl in H1. by rewrite Hb in H1. }
  split.
  - intros Hlen. unfold list in *. rewrite count_spec by (done || lia). by rewrite u16_small by lia.
  - intros idx Hi. destruct fuel as [|fuel]; [lia|].
    destruct (index_spec deref table_at _frame_type_flags hide _var_info m n fuel idx Hg Ha ltac:(lia) Hi)
      as (tok&E&_). by exists tok.
Qed.

(** C19. A parameter can be set by the name it is listed with: the name that
    [copy_name_token] makes for the parameter of an index is its full name (of the
    vehicle's row, of the groups, and of its own row, with the axis of an element of
    a vector), and [find] leads from the name back to the type and the address of
    the parameter, if the name fits in 16 characters and no other variable has it.
    Excepted are the elements of a vector that is a row of the vehicle itself, outside
    of every group: they are listed, and [find] does not know them ([odd_names]). *)
Theorem param_names deref table_at _frame_type_flags hide _var_info m n fuel idx p :
  check_var_info _var_info table_at = true -> Forall (info_wf table_at) _var_info ->
  zlen _var_info <= 512 -> apart deref table_at _var_info -> 0 <= idx < 65536 ->
  (length (positions deref table_at _frame_type_flags _var_info) < fuel)%nat ->
  parameters deref table_at _frame_type_flags hide _var_info m !! Z.to_nat idx = Some p ->
  is_scalar p = true -> slen (full_name p) <= 16 ->
  (e_row p.1 = None -> e_type p.1 <> AP_PARAM_VECTOR3F) -> only_name deref table_at _var_info p ->
  exists tok,
    find_by_index _var_info deref table_at _frame_type_flags hide fuel (3 + n) m idx =
      Done (tok, Some (p_var p)) /\
    copy_name_token _var_info deref table_at tok (p_var p).2 17 true = Some (full_name p) /\
    find _var_info deref table_at (3 + n) (full_name p) = Some (p_var p).
Proof.
  intros Hc Hwf Hl Ha Hi Hf Hp Hsc Hlen Hvec Honly.
  pose proof (checked_table deref table_at _var_info Hc Hwf Hl) as Hg. destruct fuel as [|fuel]; [lia|].
  destruct (index_spec deref table_at _frame_type_flags hide _var_info m n fuel idx Hg Ha ltac:(lia) Hi)
    as (tok&E&Htok). exists tok. rewrite Hp in E. split; [exact E|].
  apply (named _ _ _frame_type_flags); try done; [|by apply Htok].
  eapply parameters_in, list_elem_of_lookup_2, Hp.
Qed.

(** * Examples *)

#[local] Abbreviation demo_zero := (fun _ : Z => 0).
#[local] Abbreviation demo_list := (parameters demo_deref demo_tables 0 true demo_vars demo_zero).

Lemma demo_apart : apart demo_deref demo_tables demo_vars.
Proof.
  intros e e' He He'. vm_compute in He, He'.
  repeat (apply elem_of_cons in He as [->|He]); try (by apply elem_of_nil in He);
    repeat (apply elem_of_cons in He' as [->|He']); try (by apply elem_of_nil in He');
    vm_compute; intros Hi; try discriminate Hi; first [by left | right; left; discriminate | right; right; discriminate].
Qed.

(** The objects of both groups are disabled, so the rates are not listed. *)
Example demo_names : map full_name demo_list =
  ["FORMAT"; "DEV_P"; "DEV_OFS_X"; "DEV_OFS_Y"; "DEV_OFS_Z"; "DEV_A_ENABLE"; "DEV_B_ENABLE"]%string.
Proof. vm_compute. reflexivity. Qed.

Lemma param_walk_witness :
  is_at (next demo_vars demo_deref demo_tables 0 3 (first demo_vars demo_deref).1)
    (drop 1 (positions demo_deref demo_tables 0 demo_vars)).
Proof.
  destruct (param_walk demo_deref demo_tables 0 demo_vars 0 eq_refl demo_vars_wf) as [H1 Hn]; [vm_compute; discriminate|].
  exact (Hn [] _ _ eq_refl).
Defined.

Lemma param_count_witness :
  count_parameters demo_vars demo_deref demo_tables 0 true 20 3 demo_zero 0 = Done 7.
Proof.
  apply (param_count demo_deref demo_tables 0 true demo_vars demo_zero 0 20 eq_refl demo_vars_wf).
  - vm_compute. discriminate.
  - exact demo_apart.
  - discriminate.
  - vm_compute. lia.
  - vm_compute. reflexivity.
Defined.

Lemma param_names_witness : exists tok,
  find_by_index demo_vars demo_deref demo_tables 0 true 20 3 demo_zero 3 = Done (tok, Some (AP_PARAM_FLOAT, 0x208)) /\
  copy_name_token demo_vars demo_deref demo_tables tok 0x208 17 true = Some "DEV_OFS_Y"%string /\
  find demo_vars demo_deref demo_tables 3 "DEV_OFS_Y" = Some (AP_PARAM_FLOAT, 0x208).
Proof.
  destruct (demo_list !! 3%nat) as [p|] eqn:E; [|vm_compute in E; discriminate E].
  assert (Hp : full_name p = "DEV_OFS_Y"%string /\ p_var p = (AP_PARAM_FLOAT, 0x208) /\ e_row p.1 <> None)
    by (vm_compute in E; injection E as <-; vm_compute; split; [reflexivity|]; split; [reflexivity|discriminate]).
  destruct Hp as (Hn & Hv & Hr).
  destruct (param_names demo_deref demo_tables 0 true demo_vars demo_zero 0 20 3 p eq_refl demo_vars_wf)
    as (tok & H1 & H2 & H3).
  - vm_compute. discriminate.
  - exact demo_apart.
  - lia.
  - vm_compute. lia.
  - exact E.
  - unfold is_scalar. rewrite Hv. reflexivity.
  - rewrite Hn. vm_compute. discriminate.
  - intros Hx. destruct (Hr Hx).
  - intros e r He. rewrite Hn, Hv. vm_compute in He.
    repeat (apply elem_of_cons in He as [->|He]); try (by apply elem_of_nil in He);
      vm_compute; first [discriminate | by intros [= <-]].
  - exists tok. rewrite Hn, Hv in *. split; [exact H1|]. split; [exact H2|exact H3].
Defined.

(** ** What the names do not do *)

Definition end_row : GroupInfo := group_row AP_PARAM_NONE 0 "" 0 (GroupTable None) 0.

(** A vector of the top level, and a vector with a long name. *)
Definition odd_group : list GroupInfo := [
  group_row AP_PARAM_VECTOR3F 0 "OFFSETS" 0 (DefValue (f32_of_Z 0)) 0; end_row].
Definition odd_vars : list Info := [
  info_row AP_PARAM_VECTOR3F "TRIM" 1 0x100 (DefValue (f32_of_Z 0)) 0;
  info_row AP_PARAM_GROUP "COMPASS_" 2 0x200 (GroupTable (Some odd_group)) 0].

(** The table is accepted.  The elements of TRIM are listed but not found; a name is
    found that goes on after its axis. *)
Example odd_names :
  check_var_info odd_vars demo_tables = true /\
  map full_name (parameters demo_deref demo_tables 0 true odd_vars demo_zero) =
    ["TRIM_X"; "TRIM_X"; "TRIM_Y"; "TRIM_Z"; "COMPASS_OFFSETS_X"; "COMPASS_OFFSETS_Y"; "COMPASS_OFFSETS_Z"]%string /\
  map (find odd_vars demo_deref demo_tables 3) ["TRIM"; "TRIM_X"; "COMPASS_OFFSETS_X"; "COMPASS_OFFSETS_Xyz"]%string =
    [Some (AP_PARAM_VECTOR3F, 0x100); None; Some (AP_PARAM_FLOAT, 0x200); Some (AP_PARAM_FLOAT, 0x200)].
Proof. vm_compute. done. Qed.

(** The check counts the name of a vector without its axis: this one has 15
    characters, and its elements fill a buffer of 17 without a terminator. *)
Example unterminated : copy_name_token odd_vars demo_deref demo_tables (Token 1 0 0) 0x204 17 true =
    Some "COMPASS_OFFSETS_Y"%string /\ slen "COMPASS_OFFSETS_Y" = 17.
Proof. vm_compute. done. Qed.

(** An enabling variable of the second level hides what follows its group. *)
Definition inner_group : list GroupInfo := [
  group_row AP_PARAM_INT8 1 "ENABLE" 0 (DefValue (f32_of_Z 0)) AP_PARAM_FLAG_ENABLE; end_row].
Definition outer_group : list GroupInfo := [
  group_row AP_PARAM_GROUP 1 "S_" 4 (GroupTable (Some inner_group)) AP_PARAM_FLAG_NESTED_OFFSET;
  group_row AP_PARAM_INT16 2 "RATE" 0 (DefValue (f32_of_Z 0)) 0; end_row].
Definition nested_vars : list Info := [
  info_row AP_PARAM_INT16 "FORMAT" 0 0x100 (DefValue (f32_of_Z 13)) 0;
  info_row AP_PARAM_GROUP "D_" 2 0x200 (GroupTable (Some [
    group_row AP_PARAM_GROUP 1 "A_" 0 (GroupTable (Some outer_group)) AP_PARAM_FLAG_NESTED_OFFSET; end_row])) 0].

Example hidden_sibling :
  check_var_info nested_vars demo_tables = true /\
  map full_name (parameters demo_deref demo_tables 0 false nested_vars demo_zero) =
    ["FORMAT"; "D_A_S_ENABLE"; "D_A_RATE"]%string /\
  map full_name (parameters demo_deref demo_tables 0 true nested_vars demo_zero) =
    ["FORMAT"; "D_A_S_ENABLE"]%string.
Proof. vm_compute. done. Qed.
