(* ===== verification/ParamSet.v ===== *)
(** Setting the parameters: libraries/AP_Param, the values set by name, with a
    rounding, or in an object; the conversion of old parameters; the defaults
    embedded in the firmware; and the loading of an object allocated later.

    [atof] of the C library is a parameter.  A panic has no result, as undefined
    behaviour.  Of the messages, those of [notify] are modelled. *)
From S2P Require Import Prelude Float32 Storage Param ParamNames.
From Stdlib Require Import String Ascii.
Open Scope urus_scope.
Import StorageManager AP_Param ParamNames.
#[local] Abbreviation length := (@Datatypes.length _).

Module ParamSet.

Definition FLT_EPSILON : spec_float := f32_lit 1 (-23).
Definition CONVERT_FLAG_REVERSE : Z := 1.
Definition CONVERT_FLAG_FORCE : Z := 2.

(** * Values with a rounding *)

Definition is_inf (x : spec_float) : bool := match x with S754_infinity _ => true | _ => false end.

Definition set_float (value : spec_float) (var_type this : Z) (m : Z -> Z) : option (Z -> Z) :=
  if is_nan value || is_inf value then Some m
  else
    let rounding_addition := (f32_of_Z 1 / f32_of_Z 100)%f32 in        (* 0.01f *)
    let rounding_addition :=
      if f32_lt value (f32_of_Z 0) then SFopp rounding_addition else rounding_addition in
    let v low high :=
      constrain_float (value + rounding_addition)%f32 (f32_of_Z low) (f32_of_Z high) in
    if var_type =? AP_PARAM_FLOAT then set_value var_type this value m
    else if var_type =? AP_PARAM_INT32 then set_value var_type this (v (-2147483648) 2147483647) m
    else if var_type =? AP_PARAM_INT16 then set_value var_type this (v (-32768) 32767) m
    else if var_type =? AP_PARAM_INT8 then set_value var_type this (v (-128) 127) m
    else Some m.

(** * Lines of a file of parameters *)

Definition is_delim (c : ascii) : bool :=
  Ascii.eqb c "," || Ascii.eqb c " " || Ascii.eqb c "=" || Ascii.eqb c "009".

Fixpoint skip_delims (delim : ascii -> bool) (s : string) : string :=
  match s with
  | String c s' => if delim c then skip_delims delim s' else s
  | EmptyString => EmptyString
  end.
(** The characters up to a delimiter, and what follows it. *)
Fixpoint token (delim : ascii -> bool) (s : string) : string * string :=
  match s with
  | String c s =>
    if delim c then (EmptyString, s) else let '(t, rest) := token delim s in (String c t, rest)
  | EmptyString => (EmptyString, EmptyString)
  end.
(** [strtok_r]: the token, and where to go on. *)
Definition strtok (delim : ascii -> bool) (s : string) : option (string * string) :=
  match skip_delims delim s with
  | EmptyString => None
  | s => Some (token delim s)
  end.

(** The string of a buffer, up to its terminator. *)
Fixpoint c_str (s : string) : string :=
  match s with
  | String c s => if Ascii.eqb c "000" then EmptyString else String c (c_str s)
  | EmptyString => EmptyString
  end.

(** What is before a newline in the first [n] characters, and what is after it. *)
Fixpoint split_line (n : nat) (ptr : string) : option (string * string) :=
  match n, ptr with
  | S n, String c ptr =>
    if Ascii.eqb c "010" then Some (EmptyString, ptr)
    else '(line, rest) ← split_line n ptr; Some (String c line, rest)
  | _, _ => None
  end.

(** The loop over the lines of [ptr], each less than the 100 bytes of [line]. *)
Fixpoint each_line {A} (fuel : nat) (body : string -> A -> outcome A) (ptr : string) (a : A)
  : outcome A :=
  match fuel with
  | O => OutOfFuel
  | S fuel =>
    match ptr with
    | EmptyString => Done a
    | _ =>
      match split_line 99 ptr with
      | None => Done a               (* no newline *)
      | Some (line, ptr) => a ← body (c_str line) a; each_line fuel body ptr a
      end
    end
  end.
(** [fgets] of at most [n] characters, up to a newline, which it keeps. *)
Fixpoint fgets (n : nat) (f : string) : string * string :=
  match n, f with
  | S n, String c f =>
    if Ascii.eqb c "010" then (String c EmptyString, f)
    else let '(line, f) := fgets n f in (String c line, f)
  | _, _ => (EmptyString, f)
  end.

(** The loop over [fgets] of 99 bytes, the terminator among them. *)
Fixpoint each_fgets {A} (fuel : nat) (body : string -> A -> outcome A) (f : string) (a : A) : outcome A :=
  match fuel with
  | O => OutOfFuel
  | S fuel =>
    match f with
    | EmptyString => Done a
    | _ => let '(line, f) := fgets 98 f in a ← body (c_str line) a; each_fgets fuel body f a
    end
  end.

(** The loop over the names of [filename], until one of them gives [false]. *)
Fixpoint each_name {A} (fuel : nat) (body : string -> A -> outcome (bool * A)) (filename : string) (a : A)
  : outcome (bool * A) :=
  match fuel with
  | O => OutOfFuel
  | S fuel =>
    match strtok (Ascii.eqb ",") filename with
    | None => Done (true, a)
    | Some (pname, saveptr) =>
      '(ok, a) ← body pname a;
      if ok : bool then each_name fuel body saveptr a else Done (false, a)
    end
  end.
Definition lines_fuel (ptr : string) : nat := S (String.length ptr).

(** [line[0] == '#' || line[0] == 0] *)
Definition comment_line (line : string) : bool :=
  match line with EmptyString => true | String c _ => Ascii.eqb c "#" end.

Section parameters.
Context (_var_info : list Info) (deref : Z -> Z) (table_at : Z -> option (list GroupInfo)).
Context (atof : string -> spec_float).

Definition parse_param_line (line : string) : option (string * spec_float) :=
  match line with
  | String "#" _ => None
  | _ =>
    '(pname, saveptr) ← strtok is_delim line;
    if slen pname >? AP_MAX_NAME_SIZE then None
    else '(value_s, _) ← strtok is_delim saveptr; Some (pname, atof value_s)
  end.

(** * The messages of a change *)

(** [send_parameter]: what [send_parameter_value_all] is called with. *)
Definition send_parameter (m : Z -> Z) (this : Z) (name : string) (var_type idx : Z)
  : list (string * Z * spec_float) :=
  let var_type :=
    if negb (idx =? 0) && (var_type =? AP_PARAM_VECTOR3F) then AP_PARAM_FLOAT else var_type in
  if var_type >? AP_PARAM_VECTOR3F then []
  else if negb (var_type =? AP_PARAM_VECTOR3F) then [(name, var_type, cast_to_float var_type this m)]
  else
    let axis (c : ascii) :=
      (substring 0 (String.length name - 1) (take_string (Z.to_nat AP_MAX_NAME_SIZE) name) ++
       String c EmptyString)%string in
    [(axis "X"%char, AP_PARAM_FLOAT, f32_of_bits (le_val (mem_read m this 4)));
     (axis "Y"%char, AP_PARAM_FLOAT, f32_of_bits (le_val (mem_read m (this + 4) 4)));
     (axis "Z"%char, AP_PARAM_FLOAT, f32_of_bits (le_val (mem_read m (this + 8) 4)))].

Definition notify (m : Z -> Z) (this : Z) : list (string * Z * spec_float) :=
  match find_var_info _var_info deref table_at this with
  | None => []
  | Some f =>
    let name := copy_name_info f (AP_MAX_NAME_SIZE + 1) true in
    send_parameter m this name (found_type f) (vec_idx f)
  end.

(** * Pointers to objects *)

(** [find_key_by_pointer_group]: the key, if found. *)
Fixpoint key_by_pointer_rows (nested : list GroupInfo -> Z -> option Z) (p : Z) (v : Info)
    (rows : list GroupInfo) (ofs : Z) : option Z :=
  match rows with
  | [] => None
  | g :: rows =>
    let continue := key_by_pointer_rows nested p v rows ofs in
    if type g =? AP_PARAM_NONE then None
    else if negb (type g =? AP_PARAM_GROUP) then continue
    else
      match get_base deref v with
      | None => continue
      | Some base =>
        let here := base + offset g + ofs in
        if p =? (if nz (flags g &&& AP_PARAM_FLAG_POINTER) then deref here else here)
        then Some (key v)
        else
          match adjust_group_offset deref v g ofs with
          | None => continue
          | Some new_offset =>
            match get_group_info table_at (content g) (flags g) with
            | None => continue
            | Some ginfo =>
              match nested ginfo new_offset with
              | Some k => Some k
              | None => continue
              end
            end
          end
      end
  end.

Fixpoint find_key_by_pointer_group (levels : nat) (p : Z) (v : Info) (group_info : list GroupInfo)
    (ofs : Z) : option Z :=
  match levels with
  | O => None
  | S levels =>
    key_by_pointer_rows (fun ginfo ofs => find_key_by_pointer_group levels p v ginfo ofs)
      p v group_info ofs
  end.

Fixpoint find_key_by_pointer_loop (levels : nat) (p : Z) (rows : list Info) : option Z :=
  match rows with
  | [] => None
  | v :: rows =>
    if negb (i_type v =? AP_PARAM_GROUP) then find_key_by_pointer_loop levels p rows
    else if nz (i_flags v &&& AP_PARAM_FLAG_POINTER) && (p =? deref (ptr v)) then Some (key v)
    else
      match get_group_info table_at (i_content v) (i_flags v) with
      | None => find_key_by_pointer_loop levels p rows
      | Some ginfo =>
        match find_key_by_pointer_group levels p v ginfo 0 with
        | Some k => Some k
        | None => find_key_by_pointer_loop levels p rows
        end
      end
  end.
Definition find_key_by_pointer (levels : nat) (p : Z) : option Z :=
  find_key_by_pointer_loop levels p _var_info.

(** * What changes the parameters *)
Section storage.
Context {St : Type} `{HalStorage St}.
Context (layout : list StorageArea).

Definition set_overrides (s : t St) (o : list (Z * spec_float)) : t St :=
  mk (_storage s) (mem s) (_parameter_count s) o.

(** ** Configured *)

Definition configured_in_defaults_file (this : Z) (s : t St) : bool :=
  match find_var_info _var_info deref table_at this with
  | None => false
  | Some _ => existsb (fun o => this =? o.1) (param_overrides s)
  end.

Definition configured (junk : list Z) (this : Z) (s : t St) : outcome bool :=
  if configured_in_defaults_file this s then Done true
  else configured_in_storage _var_info deref table_at layout junk this s.

(** ** Setting by name, for the types that are supported *)

Definition supported (vtype : Z) : bool := (AP_PARAM_INT8 <=? vtype) && (vtype <=? AP_PARAM_FLOAT).

Definition set (vtype this : Z) (v : spec_float) (s : t St) : outcome (t St) :=
  m ← access (set_value vtype this v (mem s)); Done (set_mem s m).

Definition set_default (junk : list Z) (vtype this : Z) (v : spec_float) (s : t St) : outcome (t St) :=
  there ← configured junk this s;
  if there : bool then access (set_value vtype this v (mem s)) ≫= fun _ => Done s
  else set vtype this v s.

(** [fabsf((float)(_value - v)) < FLT_EPSILON], with [v] of the type of the
    variable; the difference of two 32-bit integers may overflow. *)
Definition unchanged (vtype this : Z) (v : spec_float) (m : Z -> Z) : option bool :=
  if vtype =? AP_PARAM_FLOAT then
    Some (f32_lt (SFabs (f32_of_bits (le_val (mem_read m this 4)) - v)%f32) FLT_EPSILON)
  else
    let n := type_size vtype in
    let signed b := if b <? 2 ^ (8 * n - 1) then b else b - 2 ^ (8 * n) in
    m' ← set_value vtype this v m;
    let d := signed (le_val (mem_read m this n)) - signed (le_val (mem_read m' this n)) in
    if (-2147483648 <=? d) && (d <? 2147483648)
    then Some (f32_lt (SFabs (f32_of_Z d)) FLT_EPSILON) else None.

Definition set_and_save (junk : list Z) (vtype this : Z) (v : spec_float) (s : t St)
  : outcome (bool * t St) :=
  force ← access (unchanged vtype this v (mem s));
  s ← set vtype this v s;
  save _var_info deref table_at layout junk force this s.

(** [v == _value], with [v] of the type of the variable. *)
Definition equals (vtype this : Z) (v : spec_float) (m : Z -> Z) : option bool :=
  if vtype =? AP_PARAM_FLOAT then Some (SFeqb v (f32_of_bits (le_val (mem_read m this 4))))
  else
    m' ← set_value vtype this v m;
    Some (bool_decide (mem_read m' this (type_size vtype) = mem_read m this (type_size vtype))).

Definition set_and_save_ifchanged (junk : list Z) (vtype this : Z) (v : spec_float) (s : t St)
  : outcome (bool * t St) :=
  same ← access (equals vtype this v (mem s));
  if same : bool then Done (true, s)
  else s ← set vtype this v s; save _var_info deref table_at layout junk true this s.

(** [set_and_notify]: the messages and the state. *)
Definition set_and_notify (vtype this : Z) (v : spec_float) (s : t St)
  : outcome (list (string * Z * spec_float) * t St) :=
  same ← access (equals vtype this v (mem s));
  if same : bool then Done ([], s)
  else s ← set vtype this v s; Done (notify (mem s) this, s).

Definition set_by_name (levels : nat) (name : string) (value : spec_float) (s : t St)
  : outcome (bool * t St) :=
  match find _var_info deref table_at levels name with
  | None => Done (false, s)
  | Some (vtype, vp) =>
    if supported vtype then s ← set vtype vp value s; Done (true, s) else Done (false, s)
  end.

Definition set_default_by_name (junk : list Z) (levels : nat) (name : string) (value : spec_float)
    (s : t St) : outcome (bool * t St) :=
  match find _var_info deref table_at levels name with
  | None => Done (false, s)
  | Some (vtype, vp) =>
    if supported vtype then s ← set_default junk vtype vp value s; Done (true, s) else Done (false, s)
  end.

Definition set_and_save_by_name (junk : list Z) (levels : nat) (name : string) (value : spec_float)
    (s : t St) : outcome (bool * t St) :=
  match find _var_info deref table_at levels name with
  | None => Done (false, s)
  | Some (vtype, vp) =>
    if supported vtype then '(_, s) ← set_and_save junk vtype vp value s; Done (true, s)
    else Done (false, s)
  end.

(** [set_object_value] for an object at [base]. *)
Fixpoint set_object_value (base : Z) (rows : list GroupInfo) (nm : string) (value : spec_float)
    (found : bool) (s : t St) : outcome (bool * t St) :=
  match rows with
  | [] => Done (found, s)
  | g :: rows =>
    if type g =? AP_PARAM_NONE then Done (found, s)
    else if String.eqb nm (name g) && (type g <=? AP_PARAM_FLOAT) then
      s ← set (type g) (base + offset g) value s;
      set_object_value base rows nm value true s
    else set_object_value base rows nm value found s
  end.

(** The loop of [setup_sketch_defaults]. *)
Fixpoint sketch_defaults_loop (rows : list Info) (s : t St) : outcome (t St) :=
  match rows with
  | [] => Done s
  | v :: rows =>
    if i_type v <=? AP_PARAM_FLOAT then
      match get_base deref v with
      | None => sketch_defaults_loop rows s
      | Some base =>
        let def := match i_content v with DefValue x => x | _ => S754_nan end in
        s ← set (i_type v) base (get_default_value s base def) s;
        sketch_defaults_loop rows s
      end
    else sketch_defaults_loop rows s
  end.
Definition setup_sketch_defaults (junk : list Z) (s : t St) : outcome (t St) :=
  sketch_defaults_loop _var_info (set_storage s (setup layout junk (_storage s))).

(** ** Conversion of old parameters *)

Record ConversionInfo := Conversion {
  old_key : Z; old_group_element : Z; c_type : Z; new_name : string
}.

Definition convert_old_parameter (junk : list Z) (levels : nat) (c : ConversionInfo)
    (scaler : spec_float) (flags : Z) (s : t St) : outcome (t St) :=
  old ← find_old_parameter layout junk (c_type c) (old_key c) (old_group_element c) s;
  match old with
  | None => Done s
  | Some old_value =>
    match find _var_info deref table_at levels (new_name c) with
    | None => Done s
    | Some (ptype, ap2) =>
      done ← (if nz (flags &&& CONVERT_FLAG_FORCE) then Done false
              else configured_in_storage _var_info deref table_at layout junk ap2 s);
      if done : bool then Done s
      else if (ptype =? c_type c) && is_equal scaler (f32_of_Z 1) && (flags =? 0) then
        if bool_decide (mem_read (mem s) ap2 (zlen old_value) = old_value) then Done s
        else
          let s := set_mem s (mem_write (mem s) ap2 old_value) in
          '(_, s) ← save _var_info deref table_at layout junk false ap2 s; Done s
      else if (ptype <=? AP_PARAM_FLOAT) && (c_type c <=? AP_PARAM_FLOAT) then
        let v := cast_to_float (c_type c) 0 (mem_write (fun _ => 0) 0 old_value) in
        let v := if nz (flags &&& CONVERT_FLAG_REVERSE)
                 then if is_equal v (f32_of_Z (-1)) then f32_of_Z 1 else f32_of_Z 0 else v in
        if negb (is_equal v (cast_to_float ptype ap2 (mem s))) then
          s ← set ptype ap2 (v * scaler)%f32 s;
          '(_, s) ← save _var_info deref table_at layout junk false ap2 s; Done s
        else Done s
      else Done s
    end
  end.

Fixpoint convert_old_parameters (junk : list Z) (levels : nat) (table : list ConversionInfo)
    (flags : Z) (s : t St) : outcome (t St) :=
  match table with
  | [] => Done s
  | c :: table =>
    s ← convert_old_parameter junk levels c (f32_of_Z 1) flags s;
    convert_old_parameters junk levels table flags s
  end.

(** [convert_parent_class]; a group in the table has an array of no bytes. *)
Fixpoint convert_parent_class (junk : list Z) (param_key object_pointer : Z) (rows : list GroupInfo)
    (s : t St) : outcome (t St) :=
  match rows with
  | [] => Done s
  | g :: rows =>
    if type g =? AP_PARAM_NONE then Done s
    else
      old ← find_old_parameter layout junk (type g) param_key (u16 (idx g) << 6) s;
      convert_parent_class junk param_key object_pointer rows
        (match old with
         | None => s
         | Some old_value => set_mem s (mem_write (mem s) (object_pointer + offset g) old_value)
         end)
  end.

(** ** Defaults embedded in the firmware *)

(** The variable and the value of a line. *)
Definition line_default (levels : nat) (line : string) : option (option (Z * Z) * spec_float) :=
  if comment_line line then None
  else '(pname, value) ← parse_param_line line; Some (find _var_info deref table_at levels pname, value).

Definition count_embedded_param_defaults (levels : nat) (data : string) (panic_on_error : bool)
  : outcome Z :=
  each_line (lines_fuel data) (fun line count =>
    match line_default levels line with
    | None => Done count
    | Some (None, _) => if panic_on_error then Undefined else Done count
    | Some (Some _, _) => Done (u16 (count + 1))
    end) data 0.

(** The second loop; [param_overrides] is an array of [num_defaults] elements, and
    [num_param_overrides] is 0 in the meantime. *)
Definition load_embedded_lines (junk : list Z) (levels : nat) (data : string)
    (overrides : list (Z * spec_float)) (s : t St)
  : outcome (list (Z * spec_float) * Z * t St) :=
  each_line (lines_fuel data) (fun line '(overrides, idx, s) =>
    match line_default levels line with
    | None | Some (None, _) => Done (overrides, idx, s)
    | Some (Some (var_type, vp), value) =>
      overrides ← access (arr_set overrides idx (vp, value));
      there ← configured_in_storage _var_info deref table_at layout junk vp s;
      if there : bool then Done (overrides, u16 (idx + 1), s)
      else
        m ← access (set_float value var_type vp (mem s));
        Done (overrides, u16 (idx + 1), set_mem s m)
    end) data (overrides, 0, s).

(** [fresh n] is an array just allocated. *)
Definition load_embedded_param_defaults (junk : list Z) (fresh : Z -> list (Z * spec_float))
    (levels : nat) (data : string) (panic_on_error : bool) (s : t St) : outcome (t St) :=
  let s := set_overrides s [] in
  num_defaults ← count_embedded_param_defaults levels data panic_on_error;
  '(overrides, _, s) ← load_embedded_lines junk levels data (fresh num_defaults) s;
  Done (set_overrides s overrides).

(** ** Defaults in files

    [fopen] gives what is in a file.  Between the two passes over a file it does not
    change. *)
Context (fopen : string -> option string).

(** The variable and the value of a line of a file. *)
Definition file_default (levels : nat) (line : string) : option (option (Z * Z) * spec_float) :=
  '(pname, value) ← parse_param_line line; Some (find _var_info deref table_at levels pname, value).

Definition count_defaults_in_file (levels : nat) (panic_on_error : bool) (filename : string)
    (num_defaults : Z) : outcome (bool * Z) :=
  match fopen filename with
  | None => Done (false, num_defaults)
  | Some f =>
    num_defaults ← each_fgets (lines_fuel f) (fun line n =>
      match file_default levels line with
      | None => Done n
      | Some (None, _) => if panic_on_error then Undefined else Done n
      | Some (Some _, _) => Done (u16 (n + 1))
      end) f num_defaults;
    Done (true, num_defaults)
  end.

Definition read_param_defaults_file (junk : list Z) (levels : nat) (filename : string)
    '((overrides, s) : list (Z * spec_float) * t St) : outcome (bool * (list (Z * spec_float) * t St)) :=
  match fopen filename with
  | None => Undefined
  | Some f =>
    '(overrides, _, s) ← each_fgets (lines_fuel f) (fun line '(overrides, idx, s) =>
      match file_default levels line with
      | None | Some (None, _) => Done (overrides, idx, s)
      | Some (Some (var_type, vp), value) =>
        overrides ← access (arr_set overrides idx (vp, value));
        there ← configured_in_storage _var_info deref table_at layout junk vp s;
        if there : bool then Done (overrides, u16 (idx + 1), s)
        else
          m ← access (set_float value var_type vp (mem s));
          Done (overrides, u16 (idx + 1), set_mem s m)
      end) f (overrides, 0, s);
    Done (true, (overrides, s))
  end.

Definition load_defaults_file (junk : list Z) (fresh : Z -> list (Z * spec_float)) (levels : nat)
    (filename : option string) (panic_on_error : bool) (s : t St) : outcome (bool * t St) :=
  match filename with
  | None => Done (false, s)
  | Some filename =>
    '(ok, num_defaults) ← each_name (lines_fuel filename)
                            (count_defaults_in_file levels panic_on_error) filename 0;
    if negb ok then Done (false, s)
    else
      '(ok, (overrides, s)) ← each_name (lines_fuel filename)
                                (read_param_defaults_file junk levels) filename
                                (fresh num_defaults, set_overrides s []);
      if ok : bool then Done (true, set_overrides s overrides) else Done (false, s)
  end.

(** [data] is the text embedded, [custom] the file of the HAL, if any. *)
Definition reload_defaults_file (junk : list Z) (fresh : Z -> list (Z * spec_float)) (levels : nat)
    (data : string) (custom : option string) (panic_on_error : bool) (s : t St) : outcome (t St) :=
  if negb (slen data =? 0) then load_embedded_param_defaults junk fresh levels data false s
  else
    match custom with
    | None => Done s
    | Some f => '(_, s) ← load_defaults_file junk fresh levels (Some f) panic_on_error s; Done s
    end.

(** ** Objects allocated later *)

(** [AP_VAREND] ends the table. *)
Definition var_end : Info := info_row AP_PARAM_NONE "" 0 0 (GroupTable None) 0.
Definition var_row (i : Z) : option Info := (_var_info ++ [var_end]) !! Z.to_nat i.

(** The loop over the storage for the row [g] of an object. *)
Fixpoint load_row_loop (fuel : nat) (phdr : list Z) (k object_pointer : Z) (g : GroupInfo) (ofs : Z)
    (s : t St) : outcome (list Z * t St) :=
  match fuel with
  | O => OutOfFuel
  | S fuel =>
    if ofs <? size layout then
      let phdr := read_into layout (_storage s) phdr ofs in
      let h := header_at phdr in
      if is_sentinal h then Done (phdr, s)
      else
        let continue := load_row_loop fuel phdr k object_pointer g
                          (u16 (ofs + (type_size (h_type h) + 4))) s in
        if get_key h =? k then
          match find_by_header _var_info deref table_at h with
          | None => continue
          | Some p =>
            if p =? object_pointer + offset g then
              let '(_, bs) := read_block layout StorageParam (_storage s) [] (u16 (ofs + 4))
                                (type_size (h_type h)) in
              Done (phdr, set_mem s (mem_write (mem s) p bs))
            else continue
          end
        else continue
    else Done (phdr, s)
  end.

(** [adjust_group_offset] for the row [k], which it reads for a pointer only. *)
Definition adjust_at (k : Z) (g : GroupInfo) : outcome (option Z) :=
  if nz (flags g &&& AP_PARAM_FLAG_NESTED_OFFSET) || negb (nz (flags g &&& AP_PARAM_FLAG_POINTER))
  then Done (adjust_group_offset deref var_end g 0)
  else v ← access (var_row k); Done (adjust_group_offset deref v g 0).

(** The loop over the rows; the key [k] is passed as an index of [_var_info]. *)
Fixpoint load_object_rows (nested : Z -> list GroupInfo -> t St -> outcome (t St)) (phdr : list Z)
    (k object_pointer : Z) (rows : list GroupInfo) (s : t St) : outcome (t St) :=
  match rows with
  | [] => Done s
  | g :: rows =>
    if type g =? AP_PARAM_NONE then Done s
    else
      let read s :=
        '(phdr, s) ← load_row_loop (scan_fuel layout) phdr k object_pointer g 4 s;
        load_object_rows nested phdr k object_pointer rows s in
      if type g =? AP_PARAM_GROUP then
        adjusted ← adjust_at k g;
        match adjusted with
        | None => load_object_rows nested phdr k object_pointer rows s
        | Some new_offset =>
          match get_group_info table_at (content g) (flags g) with
          | None => read s
          | Some ginfo => s ← nested (object_pointer + new_offset) ginfo s; read s
          end
        end
      else read s
  end.

Fixpoint load_object_from_eeprom (levels : nat) (junk : list Z) (object_pointer : Z)
    (group_info : list GroupInfo) (s : t St) : outcome (t St) :=
  match levels with
  | O => OutOfFuel
  | S levels =>
    let s := mk (_storage s) (mem s) 0 (param_overrides s) in
    match find_key_by_pointer 3 object_pointer with
    | None => Done s
    | Some k =>
      load_object_rows (load_object_from_eeprom levels junk) junk k object_pointer group_info s
    end
  end.
End storage.
End parameters.
End ParamSet.
