(* ===== verification/ParamSetSpec.v ===== *)
(** What setting the parameters does: the defaults embedded in the firmware as the
    list of the values that their lines give, and the conversion of old parameters
    on the record in storage. *)
From S2P Require Import Prelude Float32 Storage StorageView Param ParamLog ParamTables ParamSpec.
From S2P Require Import ParamDemo ParamProperties ParamNames ParamSet.
From Stdlib Require Import String Ascii.
Open Scope urus_scope.
Import StorageManager AP_Param ParamNames ParamSet.
#[local] Abbreviation length := (@Datatypes.length _).

(** * The bytes of a value *)

(** What [set_value] writes for a value. *)
Definition value_bytes (type : Z) (v : spec_float) : option (list Z) :=
  if type =? AP_PARAM_INT8 then
    x ← f32_trunc v; if (-128 <=? x) && (x <? 128) then Some (le_bytes 1 x) else None
  else if type =? AP_PARAM_INT16 then
    x ← f32_trunc v; if (-32768 <=? x) && (x <? 32768) then Some (le_bytes 2 x) else None
  else if type =? AP_PARAM_INT32 then x ← f32_to_int32 v; Some (le_bytes 4 x)
  else if type =? AP_PARAM_FLOAT then Some (le_bytes 4 (bits_of_f32 v))
  else Some [].

(** What [set_float] writes. *)
Definition float_bytes (v : spec_float) (type : Z) : option (list Z) :=
  if is_nan v || is_inf v then Some []
  else
    let r := (f32_of_Z 1 / f32_of_Z 100)%f32 in
    let r := if f32_lt v (f32_of_Z 0) then SFopp r else r in
    let c low high := constrain_float (v + r)%f32 (f32_of_Z low) (f32_of_Z high) in
    if type =? AP_PARAM_FLOAT then value_bytes type v
    else if type =? AP_PARAM_INT32 then value_bytes type (c (-2147483648) 2147483647)
    else if type =? AP_PARAM_INT16 then value_bytes type (c (-32768) 32767)
    else if type =? AP_PARAM_INT8 then value_bytes type (c (-128) 127)
    else Some [].

Definition put_bytes (m : Z -> Z) (a : Z) (bs : list Z) : Z -> Z :=
  match bs with [] => m | _ => mem_write m a bs end.

Lemma set_value_bytes type a v m :
  set_value type a v m = put_bytes m a <$> value_bytes type v.
Proof.
  unfold set_value, value_bytes. repeat case_match; try done;
    destruct (f32_trunc v) as [x|] eqn:Hx; unfold f32_to_int32; rewrite ?Hx; try done; cbn [mbind option_bind];
    case_match; done.
Qed.

Lemma set_float_bytes v type a m : set_float v type a m = put_bytes m a <$> float_bytes v type.
Proof.
  unfold set_float, float_bytes. destruct (_ || _); [done|].
  repeat (match goal with |- context [type =? ?t] => destruct (type =? t) end; [by rewrite set_value_bytes|]).
  done.
Qed.

Lemma value_bytes_length type v bs : value_bytes type v = Some bs ->
  bs = [] \/ (1 <= type <= AP_PARAM_FLOAT /\ zlen bs = type_size type /\ bytes bs).
Proof.
  unfold value_bytes. intros H.
  destruct (Z.eqb_spec type AP_PARAM_INT8) as [->|_];
    [|destruct (Z.eqb_spec type AP_PARAM_INT16) as [->|_];
    [|destruct (Z.eqb_spec type AP_PARAM_INT32) as [->|_];
    [|destruct (Z.eqb_spec type AP_PARAM_FLOAT) as [->|_]; [|left; by injection H as <-]]]];
    right; (split; [vm_compute; split; discriminate|]);
    repeat (match type of H with
            | context [mbind _ ?x] => destruct x; [|done]
            end; cbn [mbind option_bind] in H); try (case_match; [|done]);
    apply (inj Some) in H; subst bs; (split; [by rewrite le_bytes_length|apply le_bytes_bytes]).
Qed.

Lemma float_bytes_length v type bs : float_bytes v type = Some bs ->
  bs = [] \/ (1 <= type <= AP_PARAM_FLOAT /\ zlen bs = type_size type /\ bytes bs).
Proof.
  unfold float_bytes. intros H. destruct (_ || _); [left; by injection H as <-|].
  repeat (match type of H with context [type =? ?t] => destruct (type =? t) end;
    [by eapply value_bytes_length|]).
  left. by injection H as <-.
Qed.

Lemma mem_read_ext m m' a n : (forall x, m x = m' x) -> mem_read m a n = mem_read m' a n.
Proof. intros Hm. unfold mem_read. apply map_ext. auto. Qed.

Lemma put_bytes_ext m m' a bs : (forall x, m x = m' x) -> forall x, put_bytes m a bs x = put_bytes m' a bs x.
Proof. intros Hm x. destruct bs; [done|]. unfold put_bytes, mem_write. by case_match. Qed.

Lemma put_bytes_twice m a bs x : put_bytes (put_bytes m a bs) a bs x = put_bytes m a bs x.
Proof. destruct bs; [done|]. unfold put_bytes, mem_write. by case_match. Qed.

Lemma put_bytes_apart m a n b bs : 0 <= n -> apart a n b (zlen bs) ->
  mem_read (put_bytes m b bs) a n = mem_read m a n.
Proof. destruct bs; [done|]. apply mem_read_apart. Qed.

Lemma put_bytes_read m m' a bs n : 0 <= n -> n <= zlen bs ->
  mem_read (put_bytes m a bs) a n = mem_read (put_bytes m' a bs) a n.
Proof.
  intros Hn Hb. unfold mem_read. apply map_ext_in. intros k Hk%in_seq.
  destruct bs; [simpl in Hb; lia|]. unfold put_bytes, mem_write.
  by rewrite (proj2 (Z.leb_le _ _)), (proj2 (Z.ltb_lt _ _)) by lia.
Qed.

Lemma put_bytes_bytes m a bs : mem_bytes m -> bytes bs -> mem_bytes (put_bytes m a bs).
Proof.
  intros Hm Hb x. destruct bs as [|b bs]; [apply Hm|]. unfold put_bytes, mem_write.
  case_match; [|apply Hm]. destruct (nth_in_or_default (Z.to_nat (x - a)) (b :: bs) 0) as [Hi| ->]; [|lia].
  apply list_elem_of_In in Hi. by eapply Forall_forall in Hb.
Qed.

(** * On the record in storage *)
Section record.
Context {St : Type} `{HL : HalStorageLaws St}.
Context (layout : list StorageArea).
Abbreviation ok := (area_ok layout StorageParam).
Abbreviation pview := (aview layout StorageParam).
Context (_var_info : list Info) (deref : Z -> Z) (table_at : Z -> option (list GroupInfo)).
Abbreviation at_address := (find_var_info _var_info deref table_at).
Implicit Types (s : t St) (es : list entry) (h : Param_header).

(** The variable at [this] is recorded. *)
Definition in_record es (this : Z) : bool :=
  match at_address this with
  | None => false
  | Some f => bool_decide (is_Some (value es (found_header f))) &&
              ((found_type f =? AP_PARAM_VECTOR3F) || (vec_idx f =? 0))
  end.

(** No header of the variable at [this] is taken for a sentinal. *)
Definition searchable (this : Z) : Prop :=
  forall f, at_address this = Some f -> is_sentinal (found_header f) = false.

Lemma scan_value st es h0 junk h : ok st -> logged_at (pview st) es h0 -> length junk = 4%nat ->
  header_wf h -> is_sentinal h = false ->
  exists ofs, scan layout junk st h = Done (bool_decide (is_Some (value es h)), ofs) /\
    (value es h = None -> ofs = log_end es).
Proof.
  intros Hok Hl Hj Hw Hs. rewrite (scan_log layout st es h0) by done.
  destruct (value es h) as [d|] eqn:Hv.
  - destruct (position es h) as [p|] eqn:Hp; [by eexists|].
    apply position_value in Hp. congruence.
  - apply position_value in Hv. rewrite Hv. by eexists.
Qed.

Lemma configured_value junk this s es h0 : ok (_storage s) -> logged_at (pview (_storage s)) es h0 ->
  length junk = 4%nat -> searchable this ->
  configured_in_storage _var_info deref table_at layout junk this s = Done (in_record es this).
Proof.
  intros Hok Hl Hj Hs. unfold configured_in_storage, in_record.
  destruct (at_address this) as [f|] eqn:Hf; [|done].
  destruct (scan_value (_storage s) es h0 junk (found_header f)) as (ofs&->&_); try done;
    [apply make_header_wf|by apply Hs].
Qed.

(** [find_old_parameter] is the value recorded. *)
Lemma find_old_value junk type k ge s es h0 : ok (_storage s) -> logged_at (pview (_storage s)) es h0 ->
  length junk = 4%nat -> 0 < type_size type -> is_sentinal (make_header type k ge) = false ->
  find_old_parameter layout junk type k ge s = Done (value es (make_header type k ge)).
Proof.
  intros Hok Hl Hj Ht Hs. unfold find_old_parameter.
  pose proof (make_header_wf type k ge) as Hw. rewrite (scan_log layout _ es h0) by done.
  cbn [mbind outcome_bind]. set (h := make_header type k ge) in *.
  assert (Hty : h_type h = type) by (unfold h, make_header; simpl; apply Z.mod_small;
    pose proof (type_size_stored _ Ht); lia).
  destruct (position es h) as [p|] eqn:Hp; cbn [negb]; [|f_equal; symmetry; by apply position_value].
  destruct (position_split es h p Hp) as (es1&d&es2&->&->&Hn). apply position_value in Hn.
  rewrite value_app, Hn. unfold value at 1. cbn [List.find e_hdr].
  rewrite bool_decide_true by done. cbn [fmap option_fmap option_map e_data].
  do 2 f_equal. apply (recorded_data layout (_storage s) es1 h d es2 h0); [done|done|by rewrite Hty].
Qed.

(** * Defaults embedded in the firmware *)
Context (atof : string -> spec_float) (levels : nat).

(** A default: the type and the address of its variable, and the value. *)
Abbreviation default_of := ((Z * Z) * spec_float)%type.

(** The lines of the text, up to the first that is not ended or too long. *)
Fixpoint lines_of (fuel : nat) (ptr : string) : list string :=
  match fuel with
  | O => []
  | S fuel =>
    match split_line 99 ptr with
    | None => []
    | Some (line, ptr) => c_str line :: lines_of fuel ptr
    end
  end.

(** The defaults they give to variables that there are. *)
Definition default_line (line : string) : option default_of :=
  '(o, v) ← line_default _var_info deref table_at atof levels line;
  x ← o; Some (x, v).
Definition defaults (data : string) : list default_of :=
  omap default_line (lines_of (lines_fuel data) data).

(** What the defaults make of the memory: one after the other, each for a variable
    that is not recorded. *)
Fixpoint apply_defaults es (ds : list default_of) (m : Z -> Z) : option (Z -> Z) :=
  match ds with
  | [] => Some m
  | ((type, a), v) :: ds =>
    m ← (if in_record es a then Some m else set_float v type a m); apply_defaults es ds m
  end.

(** The loop over the lines is a loop over the list of them. *)
Fixpoint mfold {A B} (f : B -> A -> outcome A) (l : list B) (a : A) : outcome A :=
  match l with
  | [] => Done a
  | x :: l => a ← f x a; mfold f l a
  end.

Lemma split_line_shorter n ptr line rest : split_line n ptr = Some (line, rest) ->
  (String.length rest < String.length ptr)%nat.
Proof.
  revert ptr line rest. induction n as [|n IH]; intros [|c ptr] line rest Hs; try done. simpl in Hs.
  destruct (Ascii.eqb c "010"); [injection Hs as <- <-; simpl; lia|].
  destruct (split_line n ptr) as [[l r]|] eqn:E; [|done]. injection Hs as <- <-.
  apply IH in E. simpl. lia.
Qed.

Lemma each_line_mfold {A} (body : string -> A -> outcome A) : forall fuel ptr a,
  (String.length ptr < fuel)%nat ->
  each_line fuel body ptr a = mfold body (lines_of fuel ptr) a.
Proof.
  induction fuel as [|fuel IH]; intros ptr a Hf; [lia|]. cbn [each_line lines_of].
  destruct ptr as [|c ptr]; [done|]. destruct (split_line 99 _) as [[line rest]|] eqn:E; [|done].
  cbn [mfold]. destruct (body _ _) as [a'| |]; cbn [mbind outcome_bind]; [|done..].
  apply IH. apply split_line_shorter in E. lia.
Qed.

Lemma lines_length fuel ptr : (length (lines_of fuel ptr) <= String.length ptr)%nat.
Proof.
  revert ptr. induction fuel as [|fuel IH]; intros ptr; [simpl; lia|]. cbn [lines_of].
  destruct (split_line 99 ptr) as [[line rest]|] eqn:E; [|simpl; lia].
  apply split_line_shorter in E. pose proof (IH rest). simpl. lia.
Qed.

Lemma omap_step {A B} (f : A -> option B) x l :
  omap f (x :: l) = match f x with Some y => y :: omap f l | None => omap f l end.
Proof. done. Qed.

Lemma omap_length {A B} (f : A -> option B) l : (length (omap f l) <= length l)%nat.
Proof. induction l as [|x l IH]; [done|]. rewrite omap_step. destruct (f x); simpl; lia. Qed.

Lemma defaults_length data : (length (defaults data) <= String.length data)%nat.
Proof. etrans; [apply omap_length|]. apply lines_length. Qed.

(** The first pass counts them. *)
Lemma count_spec_lines data : slen data < 65536 ->
  count_embedded_param_defaults _var_info deref table_at atof levels data false =
    Done (zlen (defaults data)).
Proof.
  intros Hl. unfold count_embedded_param_defaults. rewrite each_line_mfold by (unfold lines_fuel; lia).
  pose proof (lines_length (lines_fuel data) data) as Hn. unfold defaults.
  assert (Hn' : forall l k, 0 <= k -> k + zlen l < 65536 -> mfold (fun line count =>
      match line_default _var_info deref table_at atof levels line with
      | None => Done count
      | Some (None, _) => Done count
      | Some (Some _, _) => Done (u16 (count + 1))
      end) l k = Done (k + zlen (omap default_line l))).
  { induction l as [|x l IH]; intros k Hk Hlen; [simpl; by rewrite Z.add_0_r|]. simpl in Hlen. cbn [mfold].
    rewrite omap_step. unfold default_line at 1.
    destruct (line_default _ _ _ _ _ _) as [[[o|] v]|]; cbn [mbind outcome_bind option_bind].
    - rewrite u16_small by lia. rewrite IH by lia. simpl. f_equal. lia.
    - by rewrite IH by lia.
    - by rewrite IH by lia. }
  rewrite Hn'; [done|lia|]. unfold slen in Hl. lia.
Qed.

(** The body of the second pass. *)
Definition load_body (junk : list Z) (line : string)
    '((overrides, idx, s) : list (Z * spec_float) * Z * t St)
  : outcome (list (Z * spec_float) * Z * t St) :=
  match line_default _var_info deref table_at atof levels line with
  | None | Some (None, _) => Done (overrides, idx, s)
  | Some (Some (var_type, vp), value) =>
    overrides ← access (arr_set overrides idx (vp, value));
    there ← configured_in_storage _var_info deref table_at layout junk vp s;
    if there : bool then Done (overrides, u16 (idx + 1), s)
    else
      m ← access (set_float value var_type vp (mem s));
      Done (overrides, u16 (idx + 1), set_mem s m)
  end.

Lemma load_body_spec junk s es h0 x done0 todo m : ok (_storage s) ->
  logged_at (pview (_storage s)) es h0 -> length junk = 4%nat ->
  match default_line x with
  | None => load_body junk x (done0 ++ todo, zlen done0, set_mem s m) = Done (done0 ++ todo, zlen done0, set_mem s m)
  | Some ((ty, a), v) => forall y, searchable a -> zlen done0 < 65535 ->
    load_body junk x (done0 ++ y :: todo, zlen done0, set_mem s m) =
      m ← access (if in_record es a then Some m else set_float v ty a m);
      Done ((done0 ++ [(a, v)]) ++ todo, zlen (done0 ++ [(a, v)]), set_mem s m)
  end.
Proof.
  intros Hok Hl Hj. unfold default_line, load_body.
  destruct (line_default _ _ _ _ _ _) as [[[[ty a]|] v]|]; cbn [mbind outcome_bind option_bind]; try done.
  intros y Hs Hlen. rewrite arr_set_Some by (rewrite length_app; simpl; lia). cbn [access mbind outcome_bind].
  rewrite (configured_value junk a (set_mem s m) es h0) by done. cbn [mbind outcome_bind].
  rewrite Nat2Z.id, insert_app_r_alt, Nat.sub_diag, length_app, <- app_assoc by lia. cbn [insert list_insert app].
  rewrite u16_small, Nat2Z.inj_add by lia. destruct (in_record es a); [done|].
  change (mem (set_mem s m)) with m. by destruct (set_float v ty a m).
Qed.

(** The second pass stores them, and applies them. *)
Lemma load_lines_spec junk s es h0 : ok (_storage s) -> logged_at (pview (_storage s)) es h0 ->
  length junk = 4%nat -> forall l done0 todo m,
  Forall (fun d => searchable d.1.2) (omap default_line l) ->
  length todo = length (omap default_line l) -> zlen done0 + zlen todo < 65536 ->
  mfold (load_body junk) l (done0 ++ todo, zlen done0, set_mem s m) =
    m ← access (apply_defaults es (omap default_line l) m);
    Done (done0 ++ ((fun d => (d.1.2, d.2)) <$> omap default_line l),
          zlen done0 + zlen (omap default_line l), set_mem s m).
Proof.
  intros Hok Hl Hj. induction l as [|x l IH]; intros done0 todo m.
  { intros _ Ht _. destruct todo; [|done]. simpl. by rewrite Z.add_0_r. }
  rewrite omap_step. cbn [mfold]. pose proof (load_body_spec junk s es h0 x done0) as Hb.
  destruct (default_line x) as [[[ty a] v]|]; intros Hs Ht Hlen.
  - apply Forall_cons in Hs as [Hx Hs]. destruct todo as [|y todo]; [done|]. simpl in Ht, Hx, Hlen.
    rewrite Hb by (done || lia). cbn [apply_defaults].
    destruct (if in_record es a then _ else _) as [m'|]; [|done]. cbn [access mbind outcome_bind option_bind].
    rewrite IH by (done || lia || (rewrite length_app; simpl; lia)).
    destruct (apply_defaults _ _ _); [|done]. cbn [access mbind outcome_bind].
    rewrite fmap_cons, <- app_assoc. do 3 f_equal. rewrite length_app. cbn [length]. lia.
  - rewrite Hb by done. cbn [mbind outcome_bind]. by apply IH.
Qed.

Lemma apply_defaults_app es ds ds' m :
  apply_defaults es (ds ++ ds') m = m ← apply_defaults es ds m; apply_defaults es ds' m.
Proof.
  revert m. induction ds as [|[[ty a] v] ds IH]; intros m; [done|]. cbn [app apply_defaults].
  destruct (if in_record es a then _ else _) as [m'|]; [|done]. apply IH.
Qed.

(** Defaults that leave the [n] bytes at [a] alone. *)
Definition leaves_alone es (a n : Z) (d : default_of) : Prop :=
  in_record es d.1.2 = true \/ apart a n d.1.2 (type_size d.1.1).

Lemma set_float_alone v ty a n b m m' : 0 <= n -> apart a n b (type_size ty) ->
  set_float v ty b m = Some m' -> mem_read m' a n = mem_read m a n.
Proof.
  intros Hn Hap. rewrite set_float_bytes. destruct (float_bytes v ty) as [bs|] eqn:E; [|done].
  intros [= <-]. destruct (float_bytes_length _ _ _ E) as [->|(_&Hl&_)]; [done|].
  apply put_bytes_apart; [done|by rewrite Hl].
Qed.

Lemma apply_alone es ds m m' a n : 0 <= n -> Forall (leaves_alone es a n) ds ->
  apply_defaults es ds m = Some m' -> mem_read m' a n = mem_read m a n.
Proof.
  intros Hn Hf. revert m. induction Hf as [|[[ty b] v] ds Hd _ IH]; intros m; [by intros [= <-]|].
  cbn [apply_defaults]. destruct (if in_record es b then _ else _) as [m1|] eqn:E; [|done].
  cbn [mbind option_bind]. intros H1. rewrite (IH _ H1). destruct Hd as [Hr|Hap]; cbn in *.
  - rewrite Hr in E. by injection E as ->.
  - destruct (in_record es b); [by injection E as ->|]. by eapply set_float_alone.
Qed.

(** * Conversion *)

Definition old_header (c : ConversionInfo) : Param_header :=
  make_header (c_type c) (old_key c) (old_group_element c).

(** Equal states; the memory is a function. *)
Definition same_state s1 s2 : Prop :=
  _storage s1 = _storage s2 /\ _parameter_count s1 = _parameter_count s2 /\
  param_overrides s1 = param_overrides s2 /\ forall a, mem s1 a = mem s2 a.

Lemma recorded_bytes v es h0 h d : logged_at v es h0 -> bytes v -> value es h = Some d -> bytes d.
Proof.
  intros (_&_&_&pre&rest&_&->) Hb Hv. destruct (value_split _ _ _ Hv) as (es1&d0&es2&->&_&Hn).
  rewrite value_app, Hn in Hv. unfold value in Hv. cbn [List.find e_hdr] in Hv.
  rewrite bool_decide_true in Hv by done. injection Hv as ->.
  rewrite entries_app, entries_cons in Hb. unfold entry_bytes, bytes in *. cbn [e_hdr e_data] in Hb.
  rewrite !Forall_app in Hb. tauto.
Qed.

(** [save] of a variable that is not recorded, as an equation. *)
Definition forget_count (f : found) s : t St :=
  if (found_type f =? AP_PARAM_INT8) &&
     match ginfo f with Some g => nz (flags g &&& AP_PARAM_FLAG_ENABLE) | None => false end
  then mk (_storage s) (mem s) 0 (param_overrides s) else s.

Definition as_default (f : found) (this : Z) s : bool :=
  (found_type f <=? AP_PARAM_FLOAT) &&
  same_as_default (found_type f) (cast_to_float (found_type f) this (mem s))
    (get_default_value s this (found_default f)).

Lemma save_new junk this f s es h0 : length junk = 4%nat -> ok (_storage s) ->
  logged_at (pview (_storage s)) es h0 -> variable _var_info deref table_at this f ->
  value es (found_header f) = None ->
  save _var_info deref table_at layout junk false this s =
    let s1 := forget_count f s in
    Done (if as_default f this s then (true, s1)
          else if log_end es + var_size f + 8 >=? size layout then (false, s1)
          else (true, set_storage s1 (append layout (_storage s) (log_end es) (found_header f) (data_of s this f)))).
Proof.
  intros Hj Hok Hl Hv Hval. pose proof (variable_header _ _ _ _ _ Hv) as (Hw&Hty&Hr).
  pose proof (variable_vector _ _ _ _ _ Hv) as Hvec. pose proof Hv as (Hfind&Hsz0&Hsent&_).
  unfold save. rewrite Hfind, Hvec, Hty. fold (forget_count f s).
  assert (Hs : _storage (forget_count f s) = _storage s /\ mem (forget_count f s) = mem s /\
    param_overrides (forget_count f s) = param_overrides s) by (unfold forget_count; by case_match).
  destruct Hs as (Hst&Hm&Ho). rewrite Hst, Hm. rewrite (scan_log layout _ es h0) by done.
  apply position_value in Hval. rewrite Hval. cbn [mbind outcome_bind].
  pose proof (logged_length _ _ _ Hl). destruct (ok_size layout _ Hok).
  rewrite (proj2 (Z.eqb_neq _ _)) by lia. rewrite andb_true_r.
  assert (Hg : forall x, get_default_value (forget_count f s) this x = get_default_value s this x)
    by (intros; unfold get_default_value; by rewrite Ho).
  rewrite Hg. unfold as_default. cbv zeta. destruct ((found_type f <=? AP_PARAM_FLOAT) && _); [done|].
  unfold var_size. change (2 * 4) with 8. by destruct (_ >=? size layout).
Qed.

(** The bytes that a conversion writes: none, if the variable has the value. *)
Definition conversion (c : ConversionInfo) (scaler : spec_float) (flags ptype a : Z) (old : list Z)
    (m : Z -> Z) : option (option (list Z)) :=
  if (ptype =? c_type c) && is_equal scaler (f32_of_Z 1) && (flags =? 0) then
    Some (if bool_decide (mem_read m a (zlen old) = old) then None else Some old)
  else if (ptype <=? AP_PARAM_FLOAT) && (c_type c <=? AP_PARAM_FLOAT) then
    let v := cast_to_float (c_type c) 0 (mem_write (fun _ => 0) 0 old) in
    let v := if nz (flags &&& CONVERT_FLAG_REVERSE)
             then if is_equal v (f32_of_Z (-1)) then f32_of_Z 1 else f32_of_Z 0 else v in
    if is_equal v (cast_to_float ptype a m) then Some None else Some <$> value_bytes ptype (v * scaler)%f32
  else Some None.

Lemma convert_form junk c scaler flags s es h0 : length junk = 4%nat -> ok (_storage s) ->
  logged_at (pview (_storage s)) es h0 -> 0 < type_size (c_type c) -> is_sentinal (old_header c) = false ->
  nz (flags &&& CONVERT_FLAG_FORCE) = false ->
  (forall ptype a, find _var_info deref table_at levels (new_name c) = Some (ptype, a) -> searchable a) ->
  convert_old_parameter _var_info deref table_at layout junk levels c scaler flags s =
    match value es (old_header c) with
    | None => Done s
    | Some old =>
      match find _var_info deref table_at levels (new_name c) with
      | None => Done s
      | Some (ptype, a) =>
        if in_record es a then Done s
        else
          w ← access (conversion c scaler flags ptype a old (mem s));
          match w with
          | None => Done s
          | Some bs =>
            '(_, s) ← save _var_info deref table_at layout junk false a (set_mem s (put_bytes (mem s) a bs));
            Done s
          end
      end
    end.
Proof.
  intros Hj Hok Hl Ht Hs Hforce Hsr. unfold convert_old_parameter.
  rewrite (find_old_value junk _ _ _ s es h0) by done. cbn [mbind outcome_bind]. fold (old_header c).
  destruct (value es (old_header c)) as [old|] eqn:Hold; [|done].
  destruct (find _ _ _ _ _) as [[ptype a]|] eqn:Hf; [|done]. rewrite Hforce.
  rewrite (configured_value junk a s es h0) by (try done; by eapply Hsr). cbn [mbind outcome_bind].
  destruct (in_record es a); [done|]. unfold conversion. destruct (_ && (flags =? 0)).
  - case_bool_decide as E; [done|]. cbn [access mbind outcome_bind].
    destruct old as [|b old]; [|done]. exfalso. by apply E.
  - destruct (_ && _); [|done].
    destruct (is_equal _ (cast_to_float ptype _ _)); cbn [negb]; [done|].
    unfold set. rewrite set_value_bytes. by destruct (value_bytes _ _).
Qed.

Lemma conversion_again c scaler flags ptype a old m m' bs : 
  conversion c scaler flags ptype a old m = Some (Some bs) -> (forall x, m' x = put_bytes m a bs x) ->
  conversion c scaler flags ptype a old m' = Some None \/
  conversion c scaler flags ptype a old m' = Some (Some bs).
Proof.
  unfold conversion. intros Hc Hm. destruct (_ && (flags =? 0)).
  - case_bool_decide; [done|]. injection Hc as <-. left. rewrite bool_decide_true; [done|].
    rewrite (mem_read_ext m' _ a _ Hm). destruct old; [done|]. apply mem_read_write.
  - destruct (_ && _); [|done]. cbv zeta in *. destruct (is_equal _ (cast_to_float ptype a m)); [done|].
    destruct (is_equal _ (cast_to_float ptype a m')); [by left|by right].
Qed.

Lemma conversion_bytes c scaler flags ptype a old m bs : bytes old ->
  conversion c scaler flags ptype a old m = Some (Some bs) -> bytes bs.
Proof.
  unfold conversion. intros Ho Hc. destruct (_ && (flags =? 0)).
  - case_bool_decide; [done|]. by injection Hc as <-.
  - destruct (_ && _); [|done]. cbv zeta in *. destruct (is_equal _ (cast_to_float ptype a m)); [done|].
    destruct (value_bytes _ _) as [bs'|] eqn:E; [|done]. injection Hc as <-.
    destruct (value_bytes_length _ _ _ E) as [->|(_&_&Hb)]; [constructor|done].
Qed.

Lemma cast_to_float_ext ty a m m' : (forall x, m x = m' x) -> cast_to_float ty a m = cast_to_float ty a m'.
Proof. intros Hm. unfold cast_to_float. by rewrite !(mem_read_ext m m') by done. Qed.

Lemma as_default_ext f this s1 s2 : param_overrides s1 = param_overrides s2 ->
  (forall x, mem s1 x = mem s2 x) -> as_default f this s1 = as_default f this s2.
Proof.
  intros Ho Hm. unfold as_default, get_default_value. by rewrite Ho, (cast_to_float_ext _ _ _ _ Hm).
Qed.

Lemma forget_count_spec f s : _storage (forget_count f s) = _storage s /\ mem (forget_count f s) = mem s /\
  param_overrides (forget_count f s) = param_overrides s /\
  _parameter_count (forget_count f (forget_count f s)) = _parameter_count (forget_count f s).
Proof. unfold forget_count. by destruct (_ && _). Qed.

Lemma forget_count_count f s1 s2 : _parameter_count s1 = _parameter_count s2 ->
  _parameter_count (forget_count f s1) = _parameter_count (forget_count f s2).
Proof. unfold forget_count. by destruct (_ && _). Qed.

Lemma unrecorded es this f : variable _var_info deref table_at this f ->
  in_record es this = bool_decide (is_Some (value es (found_header f))).
Proof.
  intros (Hf&_&_&Hv). unfold in_record. rewrite Hf. destruct Hv as [->| ->].
  - by rewrite Z.eqb_refl, andb_true_r.
  - by rewrite Z.eqb_refl, orb_true_r, andb_true_r.
Qed.

Lemma variable_searchable this f : variable _var_info deref table_at this f -> searchable this.
Proof. intros (Hf&_&Hs&_) f' Hf'. congruence. Qed.

(** What a conversion leaves: the state as it was, a value in memory that is as good
    as the default or has no room, or a new entry. *)
Inductive converted (c : ConversionInfo) (scaler : spec_float) (flags : Z) s es s' : Prop :=
| nothing_done : s' = s -> converted c scaler flags s es s'
| value_set ptype a f old bs s1 :
    value es (old_header c) = Some old ->
    find _var_info deref table_at levels (new_name c) = Some (ptype, a) ->
    variable _var_info deref table_at a f -> value es (found_header f) = None ->
    conversion c scaler flags ptype a old (mem s) = Some (Some bs) ->
    s1 = set_mem s (put_bytes (mem s) a bs) ->
    (s' = forget_count f s1 /\
     (as_default f a s1 = true \/ as_default f a s1 = false /\ log_end es + var_size f + 8 >= size layout) \/
     s' = set_storage (forget_count f s1) (_storage s') /\ ok (_storage s') /\ elsewhere layout (_storage s) (_storage s') /\
     logged_at (pview (_storage s')) (es ++ [Entry (found_header f) (data_of s1 a f)]) sentinal) ->
    converted c scaler flags s es s'.

Lemma convert_spec junk c scaler flags s s' es h0 : length junk = 4%nat -> mem_bytes (mem s) ->
  ok (_storage s) -> bytes (pview (_storage s)) ->
  logged_at (pview (_storage s)) es h0 -> 0 < type_size (c_type c) -> is_sentinal (old_header c) = false ->
  nz (flags &&& CONVERT_FLAG_FORCE) = false ->
  (forall ptype a, find _var_info deref table_at levels (new_name c) = Some (ptype, a) ->
     exists f, variable _var_info deref table_at a f) ->
  convert_old_parameter _var_info deref table_at layout junk levels c scaler flags s = Done s' ->
  converted c scaler flags s es s'.
Proof.
  intros Hj Hm Hok Hb Hl Ht Hs Hforce Hvar. rewrite (convert_form junk c scaler flags s es h0) by
    (done || (intros ptype a Hf; destruct (Hvar _ _ Hf); by eapply variable_searchable)).
  destruct (value es (old_header c)) as [old|] eqn:Hold; [|intros [= <-]; by left].
  destruct (find _ _ _ _ _) as [[ptype a]|] eqn:Hf; [|intros [= <-]; by left].
  destruct (Hvar _ _ eq_refl) as [f Hv]. rewrite (unrecorded es a f Hv).
  case_bool_decide as Hin; [intros [= <-]; by left|].
  destruct (conversion _ _ _ _ _ _ _) as [[bs|]|] eqn:Hc; cbn [access mbind outcome_bind];
    [|intros [= <-]; by left|done].
  assert (Hval : value es (found_header f) = None) by (destruct (value es (found_header f)); [by destruct Hin|done]).
  assert (Hm1 : mem_bytes (put_bytes (mem s) a bs)).
  { apply put_bytes_bytes; [done|]. eapply conversion_bytes; [|done]. by eapply recorded_bytes. }
  set (s1 := set_mem s (put_bytes (mem s) a bs)).
  rewrite (save_new junk a f s1 es h0) by done. cbv zeta.
  intros Hd. eapply (value_set _ _ _ _ _ _ ptype a f old bs s1); try done.
  destruct (as_default f a s1) eqn:Hdef; [left; injection Hd as <-; auto|].
  destruct (_ >=? _) eqn:Hfull; cbn [mbind outcome_bind] in Hd; injection Hd as <-.
  - left. split; [done|]. right. split; [done|]. apply Z.geb_le in Hfull. lia.
  - right. rewrite Z.geb_leb in Hfull. apply Z.leb_gt in Hfull.
    pose proof (data_entry _var_info deref table_at s1 a f Hv) as He. destruct (ok_size layout _ Hok) as [Hsz Hlt].
    assert (Hd : zlen (data_of s1 a f) = var_size f) by (apply mem_read_length; unfold var_size; destruct Hv; lia).
    assert (0 < var_size f) by (unfold var_size; destruct Hv as (_&?&_); lia).
    destruct (append_log layout (_storage s) es h0 (found_header f) (data_of s1 a f)) as (Hok'&Hl'&He');
      [done|done|done|by apply data_bytes|lia|lia|].
    split; [done|]. split; [exact Hok'|]. split; [exact He'|exact Hl'].
Qed.

(** A conversion of the same type without a factor gives the value over. *)
Lemma convert_direct junk c scaler flags s es h0 old a f : length junk = 4%nat ->
  ok (_storage s) -> logged_at (pview (_storage s)) es h0 -> 0 < type_size (c_type c) ->
  is_sentinal (old_header c) = false -> flags = 0 ->
  value es (old_header c) = Some old -> find _var_info deref table_at levels (new_name c) = Some (c_type c, a) ->
  variable _var_info deref table_at a f -> value es (found_header f) = None ->
  is_equal scaler (f32_of_Z 1) = true ->
  exists s', convert_old_parameter _var_info deref table_at layout junk levels c scaler flags s = Done s' /\
    mem_read (mem s') a (zlen old) = old.
Proof.
  intros Hj Hok Hl Ht Hs -> Hold Hf Hv Hnew Hsc.
  rewrite (convert_form junk c scaler 0 s es h0) by
    (done || (intros ptype a' Hf'; rewrite Hf in Hf'; injection Hf' as <- <-; by eapply variable_searchable)).
  rewrite Hold, Hf, (unrecorded es a f Hv), Hnew, bool_decide_false by (by intros [? ?]).
  unfold conversion. rewrite Z.eqb_refl, Hsc. cbn [andb]. change (0 =? 0) with true. cbv iota.
  case_bool_decide as E; cbn [access mbind outcome_bind]; [by exists s|].
  rewrite (save_new junk a f _ es h0) by done. cbv zeta.
  set (s1 := set_mem s (put_bytes (mem s) a old)).
  assert (Hm : mem_read (mem s1) a (zlen old) = old) by (destruct old; [by destruct E|apply mem_read_write]).
  destruct (forget_count_spec f s1) as (_&Hmem&_).
  repeat case_match; cbn [mbind outcome_bind]; eexists; (split; [reflexivity|]); cbn [set_storage mem]; by rewrite Hmem.
Qed.

Lemma converted_kept c scaler flags s es h0 s' : ok (_storage s) ->
  logged_at (pview (_storage s)) es h0 -> converted c scaler flags s es s' ->
  ok (_storage s') /\ exists es' h0', logged_at (pview (_storage s')) es' h0' /\
    forall h d, value es h = Some d -> value es' h = Some d.
Proof.
  intros Hok Hl [->|ptype a f old bs s1 _ _ _ _ _ -> [[-> _]|(_&Hok'&_&Hl')]]; [by eauto| |].
  - destruct (forget_count_spec f (set_mem s (put_bytes (mem s) a bs))) as (->&_). by eauto.
  - split; [done|]. do 2 eexists. split; [exact Hl'|]. intros h d Hd. by rewrite value_app, Hd.
Qed.

(** Converting again changes nothing. *)
Lemma converted_again junk c scaler flags s es h0 s' : length junk = 4%nat ->
  ok (_storage s) -> logged_at (pview (_storage s)) es h0 -> 0 < type_size (c_type c) ->
  is_sentinal (old_header c) = false -> nz (flags &&& CONVERT_FLAG_FORCE) = false ->
  (forall ptype a, find _var_info deref table_at levels (new_name c) = Some (ptype, a) ->
     exists f, variable _var_info deref table_at a f) ->
  convert_old_parameter _var_info deref table_at layout junk levels c scaler flags s = Done s' ->
  converted c scaler flags s es s' ->
  exists s'', convert_old_parameter _var_info deref table_at layout junk levels c scaler flags s' = Done s'' /\
    same_state s'' s'.
Proof.
  intros Hj Hok Hl Ht Hs Hforce Hvar Hrun.
  assert (Hsr : forall ptype a, find _var_info deref table_at levels (new_name c) = Some (ptype, a) -> searchable a)
    by (intros ptype a Hf; destruct (Hvar _ _ Hf); by eapply variable_searchable).
  intros [->|ptype a f old bs s1 Hold Hf Hv Hnew Hc Hs1 [[-> Hcase]|(Hs'&Hok'&_&Hl')]].
  - by exists s.
  - destruct (forget_count_spec f s1) as (Hst&Hm&Ho&Hcnt).
    assert (Hst1 : _storage (forget_count f s1) = _storage s) by (rewrite Hst; by subst s1).
    rewrite (convert_form junk c scaler flags _ es h0) by (done || by rewrite Hst1).
    rewrite Hold, Hf, (unrecorded es a f Hv), Hnew, bool_decide_false by (by intros [? ?]).
    destruct (conversion_again c scaler flags ptype a old (mem s) (mem (forget_count f s1)) bs Hc) as [E|E];
      [intros x; rewrite Hm; by subst s1|rewrite E; by eexists|].
    rewrite E. cbn [access mbind outcome_bind]. set (s2 := set_mem _ _).
    rewrite (save_new junk a f s2 es h0) by (done || by cbn [s2 set_mem _storage]; rewrite Hst1). cbv zeta.
    assert (Hsame : forall x, mem s2 x = mem s1 x).
    { intros x. cbn [s2 set_mem mem]. rewrite (put_bytes_ext _ (mem s1)) by (by intros; rewrite Hm).
      subst s1. apply put_bytes_twice. }
    rewrite (as_default_ext f a s2 s1) by done.
    assert (Hend : same_state (forget_count f s2) (forget_count f s1)).
    { destruct (forget_count_spec f s2) as (H1&H2&H3&_). split; [by rewrite H1|]. split; [|split; [by rewrite H3|]].
      - rewrite <- Hcnt. by apply forget_count_count.
      - intros x. by rewrite H2, Hm. }
    destruct Hcase as [->|[-> Hfull]]; [by eexists|].
    rewrite (proj2 (Z.geb_le _ _)) by lia. by eexists.
  - rewrite (convert_form junk c scaler flags s' _ sentinal Hj Hok' Hl') by done.
    rewrite value_app, Hold, Hf, (unrecorded _ a f Hv), value_app, Hnew, value_one, decide_True by done.
    rewrite bool_decide_true by by eexists. by exists s'.
Qed.

End record.
