(* ===== verification/ParamSetFloat.v ===== *)
(** [set_float] of AP_Param, which rounds a number of the ground station to an
    integer parameter: sums in single precision, and what they are cut to. *)
From S2P Require Import Prelude Float32 Float32Spec Param ParamSet ParamSetSpec.
Open Scope urus_scope.
Import AP_Param ParamSet.
#[local] Abbreviation digits m := (Z.pos (digits2_pos m)).

(** * The result of a sum *)

(** A result of rounding is zero, infinite, or has a mantissa of 24 bits. *)
Definition small (x : spec_float) : Prop :=
  match x with
  | S754_finite _ m _ => Z.pos m < 2 ^ 24
  | S754_nan => False
  | _ => True
  end.

Lemma shr_exact m e : 0 <= m -> exists k, 0 <= k /\ Zdigits2 m - 24 <= k /\
  inb m (2 ^ k) (shr_fexp prec emax m e loc_Exact).1.
Proof.
  intros Hm. unfold shr_fexp. set (n := SpecFloat.fexp prec emax _ - e).
  pose proof (shr_inb _ _ _ e n (exact_inb m Hm)) as [_ Hi]. rewrite Z.mul_1_r in Hi.
  exists (Z.max 0 n). split; [lia|]. split; [|done]. unfold n. rewrite fexp_eq. lia.
Qed.

Lemma round_small s m e : small (binary_round_aux prec emax s (Z.pos m) e loc_Exact).
Proof.
  unfold binary_round_aux. destruct (shr_exact (Z.pos m) e) as (k & Hk & _ & Hi); [lia|].
  destruct (shr_fexp prec emax (Z.pos m) e loc_Exact) as [r e1]. cbn [fst] in Hi.
  rewrite (round_inb _ _ _ Hi). assert (Hp : 0 < 2 ^ k) by (apply Z.pow_pos_nonneg; lia).
  assert (HR : 0 <= rne (Z.pos m) (2 ^ k)) by (apply rne_lower; lia).
  set (R := rne _ _) in *. clearbody R. destruct (shr_exact R e1 HR) as (k' & Hk' & Hd & Hi').
  destruct (shr_fexp prec emax R e1 loc_Exact) as [r' e2]. cbn [fst] in Hi'.
  destruct Hi' as [_ Hm' _ _]. pose proof (Zdigits2_bounds R HR) as [_ Hlt].
  assert (Hp' : 0 < 2 ^ k') by (apply Z.pow_pos_nonneg; lia).
  assert (Hq : 0 <= shr_m r' < 2 ^ 24).
  { rewrite Hm'. split; [apply Z.div_pos; lia|]. apply Z.div_lt_upper_bound; [done|].
    rewrite <- Z.pow_add_r by lia. eapply Z.lt_le_trans; [exact Hlt|]. apply Z.pow_le_mono_r; lia. }
  destruct (shr_m r'); [done| |lia]. destruct (_ <=? _); [|done]. apply Hq.
Qed.

Lemma normalize_small m e : small (binary_normalize prec emax m e false).
Proof. unfold binary_normalize. destruct m; [done|..]; unfold binary_round; destruct (shl_align _ _ _); apply round_small. Qed.

Lemma add_small x s m e : is_nan x || is_inf x = false -> Z.pos m < 2 ^ 24 ->
  small (x + S754_finite s m e)%f32.
Proof. intros Hx Hm. destruct x; try done. apply normalize_small. Qed.

(** * Limits *)

(** What a number of this magnitude is cut to. *)
Definition cut (m : positive) (e : Z) : Z :=
  if 0 <=? e then Z.pos m * 2 ^ e else Z.pos m / 2 ^ (- e).

Lemma trunc_cut s m e : f32_trunc (S754_finite s m e) = Some (if s then - cut m e else cut m e).
Proof. done. Qed.

Lemma cut_nonneg m e : 0 <= cut m e.
Proof.
  unfold cut. case_match.
  - pose proof (Z.pow_nonneg 2 e). nia.
  - apply Z.div_pos; [lia|]. apply Z.pow_pos_nonneg; lia.
Qed.

(** The mantissa and the exponent of a whole number [h] of [d] digits. *)
Definition whole (h : Z) (m : positive) (e : Z) : Prop :=
  normal m /\ -23 <= e <= 0 /\ Z.pos m = h * 2 ^ (- e).

Lemma whole_of_Z a : Z.abs a < 2 ^ 24 -> a <> 0 ->
  exists m e, f32_of_Z a = S754_finite (a <? 0) m e /\ whole (Z.abs a) m e.
Proof.
  intros Ha Hz. destruct (of_Z_split a Ha Hz) as (m&E&Hm&Hv&Hd).
  exists m, (digits (Z.to_pos (Z.abs a)) - 24). split; [done|]. split; [done|]. split; [lia|].
  rewrite Hv. do 2 f_equal. lia.
Qed.

Lemma cut_below m e h mh eh : Z.pos m < 2 ^ 24 -> whole h mh eh ->
  (e < eh \/ e = eh /\ Z.pos m <= Z.pos mh) -> cut m e <= h.
Proof.
  intros Hm ([Hn1 Hn2]&He&Hv) Hc. unfold cut. assert (Hp : 0 < 2 ^ (- eh)) by (apply Z.pow_pos_nonneg; lia).
  assert (Hh : 0 < h) by nia. destruct (Z.leb_spec 0 e) as [H0|H0].
  - assert (e = 0) as -> by lia. assert (eh = 0) as -> by lia. change (2 ^ (- 0)) with 1 in Hv. lia.
  - assert (Hpe : 0 < 2 ^ (- e)) by (apply Z.pow_pos_nonneg; lia).
    apply Z.lt_succ_r, Z.div_lt_upper_bound; [done|]. destruct Hc as [Hc|[-> Hc]]; [|nia].
    assert (2 ^ (1 + - eh) <= 2 ^ (- e)) by (apply Z.pow_le_mono_r; lia). rewrite Z.pow_add_r in * by lia. nia.
Qed.

Lemma cut_above m e h mh eh : normal m -> e <= 0 -> whole h mh eh ->
  (eh < e \/ e = eh /\ Z.pos mh < Z.pos m) -> h <= cut m e.
Proof.
  intros [Hm1 Hm2] He0 ([Hn1 Hn2]&He&Hv) Hc. unfold cut.
  assert (Hp : 0 < 2 ^ (- eh)) by (apply Z.pow_pos_nonneg; lia).
  destruct (Z.leb_spec 0 e) as [H0|H0].
  - assert (e = 0) as -> by lia. change (2 ^ 0) with 1. rewrite Z.mul_1_r.
    destruct Hc as [Hc|[<- Hc]]; [|change (2 ^ (- 0)) with 1 in Hv; lia].
    assert (2 ^ 1 <= 2 ^ (- eh)) by (apply Z.pow_le_mono_r; lia). nia.
  - assert (Hpe : 0 < 2 ^ (- e)) by (apply Z.pow_pos_nonneg; lia).
    apply Z.div_le_lower_bound; [done|]. destruct Hc as [Hc|[-> Hc]]; [|lia].
    assert (2 ^ (1 + - e) <= 2 ^ (- eh)) by (apply Z.pow_le_mono_r; lia). rewrite Z.pow_add_r in * by lia. nia.
Qed.

(** The comparison of numbers of one sign. *)
Lemma lt_same_sign s m1 e1 m2 e2 :
  f32_lt (S754_finite s m1 e1) (S754_finite s m2 e2) =
  let below m1 e1 m2 e2 := (e1 <? e2) || ((e1 =? e2) && (Z.pos m1 <? Z.pos m2)) in
  if s then below m2 e2 m1 e1 else below m1 e1 m2 e2.
Proof.
  unfold f32_lt, SFltb, SFcompare. change (Pos.compare_cont Eq m1 m2) with (Pos.compare m1 m2). cbv zeta.
  destruct s; destruct (Z.compare_spec e1 e2) as [->|He|He];
    rewrite ?Z.ltb_irrefl, ?Z.eqb_refl, ?(proj2 (Z.ltb_lt _ _) He), ?(proj2 (Z.ltb_ge _ _) (Z.lt_le_incl _ _ He)),
      ?(proj2 (Z.eqb_neq e1 e2)), ?(proj2 (Z.eqb_neq e2 e1)) by lia; try done; cbn [orb andb].
  destruct (Pos.compare_spec m1 m2) as [->|Hm|Hm]; simpl; symmetry.
  - apply Z.ltb_irrefl.
  - apply Z.ltb_ge. lia.
  - apply Z.ltb_lt. lia.
Qed.

Lemma not_below m1 e1 m2 e2 : (e1 <? e2) || ((e1 =? e2) && (Z.pos m1 <? Z.pos m2)) = false ->
  e2 < e1 \/ e2 = e1 /\ Z.pos m2 <= Z.pos m1.
Proof.
  intros [H1 H2]%orb_false_iff. apply Z.ltb_ge in H1. apply andb_false_iff in H2 as [H2|H2].
  - apply Z.eqb_neq in H2. lia.
  - apply Z.ltb_ge in H2. lia.
Qed.

Lemma is_below m1 e1 m2 e2 : (e1 <? e2) || ((e1 =? e2) && (Z.pos m1 <? Z.pos m2)) = true ->
  e1 < e2 \/ e2 = e1 /\ Z.pos m1 < Z.pos m2.
Proof.
  intros [H1|[H1 H2]%andb_true_iff]%orb_true_iff; [apply Z.ltb_lt in H1; lia|].
  apply Z.eqb_eq in H1. apply Z.ltb_lt in H2. lia.
Qed.

(** A number within limits is cut to a number within limits. *)
Lemma constrain_range x lo hi : small x -> - 2 ^ 24 < lo < 0 -> 0 < hi < 2 ^ 24 ->
  exists v, f32_trunc (constrain_float x (f32_of_Z lo) (f32_of_Z hi)) = Some v /\ lo <= v <= hi.
Proof.
  intros Hx Hlo Hhi. pose proof (trunc_of_Z lo ltac:(lia)) as Tlo. pose proof (trunc_of_Z hi ltac:(lia)) as Thi.
  unfold constrain_float. destruct (is_nan x) eqn:Hnan; [by destruct x|].
  destruct (f32_lt x (f32_of_Z lo)) eqn:L1; [exists lo; split; [done|lia]|].
  destruct (f32_lt (f32_of_Z hi) x) eqn:L2; [exists hi; split; [done|lia]|].
  destruct (whole_of_Z lo) as (ml&el&El&Wl); [lia..|]. destruct (whole_of_Z hi) as (mh&eh&Eh&Wh); [lia..|].
  rewrite El, (proj2 (Z.ltb_lt _ _)) in L1 by lia. rewrite Eh, (proj2 (Z.ltb_ge _ _)) in L2 by lia.
  destruct x as [s|[|]| |[|] m e]; try done.
  - exists 0. split; [done|lia].
  - rewrite trunc_cut. eexists. split; [done|]. rewrite lt_same_sign in L1. apply not_below in L1.
    pose proof (cut_nonneg m e). pose proof (cut_below m e _ _ _ Hx Wl). lia.
  - rewrite trunc_cut. eexists. split; [done|]. rewrite lt_same_sign in L2. apply not_below in L2.
    pose proof (cut_nonneg m e). pose proof (cut_below m e _ _ _ Hx Wh). lia.
Qed.

(** * Whole numbers *)

(** 0.01f, as the code adds it. *)
Lemma f001_eq : (f32_of_Z 1 / f32_of_Z 100)%f32 = S754_finite false 10737418 (-30).
Proof. vm_compute. reflexivity. Qed.

Lemma sum_normalize s m e : -23 <= e <= 0 -> normal m ->
  (S754_finite s m e + S754_finite s 10737418 (-30))%f32 =
  binary_round prec emax s (Z.to_pos (Z.pos m * 2 ^ (e + 30) + 10737418)) (-30).
Proof.
  intros He Hm. unfold SFadd. replace (Z.min e (-30)) with (-30) by lia.
  rewrite !shl_align_spec by lia. cbn [fst]. replace (e - -30) with (e + 30) by lia. change (2 ^ (-30 - -30)) with 1.
  rewrite Z.mul_1_r. assert (Hp : 0 < Z.pos m * 2 ^ (e + 30)) by (apply Z.mul_pos_pos; [lia|apply Z.pow_pos_nonneg; lia]).
  destruct (Z.pos m * 2 ^ (e + 30)) as [|p|p]; [lia| |lia]. by destruct s.
Qed.

Lemma sum_whole s n m e : 0 < n -> whole n m e ->
  exists R, (S754_finite s m e + S754_finite s 10737418 (-30))%f32 = S754_finite s R e /\ normal R /\ cut R e = n.
Proof.
  intros Hn (Hm&He&Hv). rewrite sum_normalize by done. unfold normal in Hm.
  set (A := 2 ^ (- e)) in *. set (K := 2 ^ (e + 30)).
  assert (HA : 0 < A) by (apply Z.pow_pos_nonneg; lia). assert (HK : 0 < K) by (apply Z.pow_pos_nonneg; lia).
  assert (HAK : A * K = 2 ^ 30) by (unfold A, K; rewrite <- Z.pow_add_r by lia; f_equal; lia).
  assert (HK2 : 2 ^ 7 <= K <= 2 ^ 30) by (split; apply Z.pow_le_mono_r; lia).
  assert (Hmul : Z.pos m * K = n * 2 ^ 30) by (rewrite Hv, <- Z.mul_assoc, HAK; done).
  rewrite Hmul. set (mz := Z.to_pos _). assert (Hmz : Z.pos mz = n * 2 ^ 30 + 10737418) by (apply Z2Pos.id; lia).
  assert (Htop : (n + 1) * A <= 2 ^ 24).
  { unfold A in *. assert (Hx : 2 ^ 24 = 2 ^ (24 + e) * 2 ^ (- e)) by (rewrite <- Z.pow_add_r by lia; f_equal; lia).
    rewrite Hx. apply Z.mul_le_mono_nonneg_r; [lia|]. apply Z.le_succ_l. nia. }
  assert (Hlow : 2 ^ 23 * K <= Z.pos mz) by nia.
  assert (Hhigh : Z.pos mz < 2 ^ 24 * K).
  { assert ((n + 1) * A * K <= 2 ^ 24 * K) by (apply Z.mul_le_mono_nonneg_r; lia).
    rewrite <- Z.mul_assoc, HAK in *. lia. }
  assert (Hd : digits mz = 24 + (e + 30)).
  { apply digits_eq; [lia|]. replace (24 + (e + 30) - 1) with (23 + (e + 30)) by lia.
    rewrite (Z.pow_add_r 2 23), (Z.pow_add_r 2 24) by lia. fold K. lia. }
  assert (Hround : binary_round prec emax s mz (-30) = binary_round_aux prec emax s (Z.pos mz) (-30) loc_Exact).
  { unfold binary_round. rewrite fexp_eq, Hd. unfold shl_align.
    destruct (_ - -30) as [|p|p] eqn:E; [done|done|lia]. }
  destruct (round_normal s mz (-30) loc_Exact (Z.pos mz) 1 (e + 30)) as (R & E & HR & Herr);
    [by apply exact_inb|lia..|]. rewrite Hround, E. clear Hround E.
  fold K in Herr. rewrite Z.mul_1_r, Hmz in Herr. replace (-30 + (e + 30)) with e by lia.
  assert (HRlow : n * A <= R) by nia.
  assert (HRhigh : R < (n + 1) * A) by nia.
  unfold finish. rewrite (proj2 (Z.eqb_neq _ _)) by lia. destruct R as [|r|r]; [lia| |lia].
  exists r. split; [done|]. split; [unfold normal; lia|]. unfold cut. destruct (Z.leb_spec 0 e).
  - assert (e = 0) as -> by lia. change (2 ^ 0) with 1. change A with 1 in *. lia.
  - fold A. symmetry. apply (Z.div_unique _ _ _ (Z.pos r - n * A)); lia.
Qed.

(** A limit of magnitude [h] on the side of sign [s]: no whole number passes it. *)
Definition limit (s : bool) (L : spec_float) (h : Z) : Prop :=
  (exists m e, L = S754_finite s m e /\ -23 <= e) /\
  forall R e, normal R -> -23 <= e <= 0 ->
    (if s then f32_lt (S754_finite s R e) L else f32_lt L (S754_finite s R e)) = true ->
    h <= cut R e /\ f32_trunc L = Some (if s then - h else h).

Lemma limit_of_Z (s : bool) h : 0 < h < 2 ^ 24 -> limit s (f32_of_Z (if s then - h else h)) h.
Proof.
  intros Hh. set (a := if s then - h else h). assert (Ha : Z.abs a = h /\ (a <? 0) = s /\ a <> 0).
  { subst a. destruct s; repeat split; [lia|apply Z.ltb_lt; lia|lia|lia|apply Z.ltb_ge; lia|lia]. }
  destruct Ha as (Habs&Hsign&Hz). destruct (whole_of_Z a) as (m&e&E&W); [lia|done|].
  rewrite Habs, Hsign in *. split; [exists m, e; split; [done|apply W]|].
  intros R e' HR He' Hlt. split.
  - rewrite E in Hlt. eapply cut_above; [exact HR|lia|exact W|].
    destruct s; rewrite lt_same_sign in Hlt; apply is_below in Hlt; lia.
  - rewrite trunc_of_Z by lia. subst a. by destruct s.
Qed.

Lemma limit_int32 (s : bool) : limit s (f32_of_Z (if s then -2147483648 else 2147483647)) (2 ^ 31).
Proof.
  assert (E : f32_of_Z (if s then -2147483648 else 2147483647) = S754_finite s 8388608 8)
    by (destruct s; vm_compute; reflexivity).
  rewrite E. split; [by exists 8388608%positive, 8|]. intros R e HR He Hlt. exfalso.
  destruct s; rewrite lt_same_sign in Hlt; apply is_below in Hlt; lia.
Qed.

(** A whole number within the limits is cut to itself. *)
Lemma rounded n lo hi l h : Z.abs n < 2 ^ 24 -> limit true lo l -> limit false hi h -> - l <= n <= h ->
  f32_trunc (constrain_float (f32_of_Z n +
    (if f32_lt (f32_of_Z n) (f32_of_Z 0) then SFopp (f32_of_Z 1 / f32_of_Z 100) else f32_of_Z 1 / f32_of_Z 100))%f32
    lo hi) = Some n.
Proof.
  intros Hn [(ml&el&Elo&_) Hlo] [(mh&eh&Ehi&Heh) Hhi] Hr. rewrite of_Z_negative, f001_eq by done. cbn [SFopp negb].
  destruct (Z.eq_dec n 0) as [->|Hz].
  { change (f32_of_Z 0) with (S754_zero false). change (0 <? 0) with false. cbn [SFadd].
    unfold constrain_float. cbn [is_nan]. rewrite Elo. change (f32_lt (S754_finite false _ _) (S754_finite true _ _)) with false. cbv iota.
    destruct (f32_lt hi _) eqn:L; [|done].
    exfalso. rewrite Ehi, lt_same_sign in L. apply is_below in L. lia. }
  destruct (whole_of_Z n) as (m&e&E&W); [lia..|]. rewrite E.
  destruct (sum_whole (n <? 0) (Z.abs n) m e ltac:(lia) W) as (R&Es&HR&Hc). pose proof W as (_&He&_).
  assert (Hsum : (S754_finite (n <? 0) m e + (if n <? 0 then S754_finite true 10737418 (-30) else S754_finite false 10737418 (-30)))%f32
    = S754_finite (n <? 0) R e) by (rewrite <- Es; by destruct (n <? 0)).
  rewrite Hsum. unfold constrain_float. cbn [is_nan]. destruct (Z.ltb_spec n 0) as [Hneg|Hpos].
  - destruct (f32_lt (S754_finite true R e) lo) eqn:L.
    + destruct (Hlo R e HR He L) as [H1 ->]. f_equal. lia.
    + rewrite Ehi. change (f32_lt (S754_finite false _ _) (S754_finite true _ _)) with false. cbv iota.
      rewrite trunc_cut, Hc. f_equal. lia.
  - rewrite Elo. change (f32_lt (S754_finite false _ _) (S754_finite true _ _)) with false. cbv iota.
    destruct (f32_lt hi (S754_finite false R e)) eqn:L.
    + destruct (Hhi R e HR He L) as [H1 ->]. f_equal. lia.
    + rewrite trunc_cut, Hc. f_equal. lia.
Qed.

(** * Values of a type *)

(** The whole numbers of a type, of 24 bits at most. *)
Definition whole_of_type (ty n : Z) : Prop :=
  (ty = AP_PARAM_INT8 /\ -128 <= n < 128) \/ (ty = AP_PARAM_INT16 /\ -32768 <= n < 32768) \/
  ((ty = AP_PARAM_INT32 \/ ty = AP_PARAM_FLOAT) /\ Z.abs n < 2 ^ 24).

Lemma of_Z_finite n : Z.abs n < 2 ^ 24 -> is_nan (f32_of_Z n) || is_inf (f32_of_Z n) = false.
Proof. intros Hn. rewrite of_Z_int by done. by destruct n. Qed.

Lemma f32_to_int32_whole x n : f32_trunc x = Some n -> Z.abs n < 2 ^ 24 -> f32_to_int32 x = Some n.
Proof.
  intros Hx Hn. unfold f32_to_int32. rewrite Hx. cbn [mbind option_bind].
  by rewrite (proj2 (Z.leb_le _ _)), (proj2 (Z.ltb_lt _ _)) by lia.
Qed.

(** Comparisons of constants. *)
Ltac known_eqb :=
  repeat match goal with
  | |- context [?a =? ?b] =>
    match eval vm_compute in (a =? b) with
    | true => change (a =? b) with true
    | false => change (a =? b) with false
    end
  end; cbv iota.

(** A whole number is written as it is. *)
Lemma float_bytes_whole ty n : whole_of_type ty n -> float_bytes (f32_of_Z n) ty =
  Some (if ty =? AP_PARAM_FLOAT then le_bytes 4 (bits_of_f32 (f32_of_Z n)) else le_bytes (Z.to_nat (type_size ty)) n).
Proof.
  intros Hw. assert (Hn : Z.abs n < 2 ^ 24) by (destruct Hw as [[_ ?]|[[_ ?]|[_ ?]]]; lia).
  unfold float_bytes. rewrite of_Z_finite by done. cbv zeta.
  destruct Hw as [[-> Hr]|[[-> Hr]|[[->| ->] _]]]; known_eqb; unfold value_bytes; known_eqb.
  - rewrite (rounded n _ _ 128 127) by
      (lia || (apply (limit_of_Z true 128); lia) || (apply (limit_of_Z false 127); lia)).
    cbn [mbind option_bind]. by rewrite (proj2 (Z.leb_le _ _)), (proj2 (Z.ltb_lt _ _)) by lia.
  - rewrite (rounded n _ _ 32768 32767) by
      (lia || (apply (limit_of_Z true 32768); lia) || (apply (limit_of_Z false 32767); lia)).
    cbn [mbind option_bind]. by rewrite (proj2 (Z.leb_le _ _)), (proj2 (Z.ltb_lt _ _)) by lia.
  - by rewrite (f32_to_int32_whole _ n) by
      (done || (apply (rounded n _ _ (2 ^ 31) (2 ^ 31)); [done|apply (limit_int32 true)|apply (limit_int32 false)|lia])).
  - done.
Qed.

(** What is read back. *)
Lemma cast_whole ty n a m : whole_of_type ty n ->
  cast_to_float ty a (put_bytes m a (if ty =? AP_PARAM_FLOAT then le_bytes 4 (bits_of_f32 (f32_of_Z n))
    else le_bytes (Z.to_nat (type_size ty)) n)) = f32_of_Z n.
Proof.
  assert (Hread : forall k v, (0 < k)%nat -> mem_read (put_bytes m a (le_bytes k v)) a (Z.of_nat k) = le_bytes k v).
  { intros k v Hk. destruct k as [|k]; [lia|]. cbn [le_bytes put_bytes].
    pose proof (ParamProperties.mem_read_write m a (le_bytes (S k) v)) as E. rewrite le_bytes_length in E. exact E. }
  intros [[-> Hr]|[[-> Hr]|[[->| ->] Hr]]]; unfold cast_to_float; known_eqb.
  - change (Z.to_nat _) with 1%nat. rewrite (Hread 1%nat) by lia. rewrite le_val_mod. f_equal.
    unfold i8. change (256 ^ Z.of_nat 1) with 256. zlia.
  - change (Z.to_nat _) with 2%nat. rewrite (Hread 2%nat) by lia. rewrite le_val_mod. f_equal.
    unfold i16. change (256 ^ Z.of_nat 2) with 65536. zlia.
  - change (Z.to_nat _) with 4%nat. rewrite (Hread 4%nat) by lia. rewrite le_val_mod. f_equal.
    unfold i32. change (256 ^ Z.of_nat 4) with 4294967296. zlia.
  - rewrite (Hread 4%nat) by lia. rewrite le_val_mod.
    rewrite Z.mod_small by (pose proof (bits_range _ (of_Z_plain n Hr)); done). by apply f32_of_bits_of, of_Z_plain.
Qed.

(** No number, nor NaN nor an infinity, makes the conversion to 8 or 16 bits
    undefined. *)
Lemma float_bytes_defined v ty : ty = AP_PARAM_INT8 \/ ty = AP_PARAM_INT16 -> is_Some (float_bytes v ty).
Proof.
  intros Hty. unfold float_bytes. destruct (is_nan v || is_inf v) eqn:Hv; [by eexists|]. cbv zeta.
  rewrite f001_eq. assert (Hs : small (v + (if f32_lt v (f32_of_Z 0) then SFopp (S754_finite false 10737418 (-30))
    else S754_finite false 10737418 (-30)))%f32) by (destruct (f32_lt _ _); by apply add_small).
  destruct Hty as [-> | ->]; known_eqb; unfold value_bytes; known_eqb.
  - destruct (constrain_range _ (-128) 127 Hs) as (x&->&Hx); [lia..|]. cbn [mbind option_bind].
    rewrite (proj2 (Z.leb_le _ _)), (proj2 (Z.ltb_lt _ _)) by lia. by eexists.
  - destruct (constrain_range _ (-32768) 32767 Hs) as (x&->&Hx); [lia..|]. cbn [mbind option_bind].
    rewrite (proj2 (Z.leb_le _ _)), (proj2 (Z.ltb_lt _ _)) by lia. by eexists.
Qed.
