(* ===== verification/ParamSetProperties.v ===== *)
(** What setting the parameters promises: the defaults embedded in the firmware, and
    the conversion of old parameters; examples of what they do not do. *)
From S2P Require Import Prelude Float32 Storage StorageView Param ParamLog ParamTables ParamSpec.
From S2P Require Import ParamDemo ParamProperties ParamNames ParamSet ParamSetSpec ParamSetFloat.
From Stdlib Require Import String Ascii.
Open Scope urus_scope.
Import StorageManager AP_Param ParamNames ParamSet.
#[local] Abbreviation length := (@Datatypes.length _).

(** C22. The defaults embedded in the firmware: the variables that are not recorded
    in storage get the values of their lines, one line after the other, and the
    table of defaults is the list of the lines' values, exactly as long as it was
    allocated.  So a variable recorded or not named keeps its bytes, and the last
    line with a name gives the value. *)
Theorem param_defaults {St} `{HL : HalStorageLaws St} layout _var_info deref table_at atof levels
    junk fresh data (s : t St) es h0 :
  length junk = 4%nat -> area_ok layout StorageParam (_storage s) ->
  logged_at (aview layout StorageParam (_storage s)) es h0 -> slen data < 65536 ->
  (forall n, 0 <= n -> zlen (fresh n) = n) ->
  let ds := defaults _var_info deref table_at atof levels data in
  let alone := leaves_alone _var_info deref table_at es in
  Forall (fun d => searchable _var_info deref table_at d.1.2) ds ->
  load_embedded_param_defaults _var_info deref table_at atof layout junk fresh levels data false s =
    (m ← access (apply_defaults _var_info deref table_at es ds (mem s));
     Done (mk (_storage s) m (_parameter_count s) ((fun d => (d.1.2, d.2)) <$> ds))) /\
  forall m, apply_defaults _var_info deref table_at es ds (mem s) = Some m ->
    (forall a n, 0 <= n -> Forall (alone a n) ds -> mem_read m a n = mem_read (mem s) a n) /\
    forall A ty a v B, ds = A ++ ((ty, a), v) :: B -> in_record _var_info deref table_at es a = false ->
      Forall (alone a (type_size ty)) B ->
      exists m0 m1, apply_defaults _var_info deref table_at es A (mem s) = Some m0 /\
        set_float v ty a m0 = Some m1 /\
        mem_read m a (type_size ty) = mem_read m1 a (type_size ty).
Proof.
  intros Hj Hok Hl Hlen Hfresh ds alone Hs. pose proof (defaults_length _var_info deref table_at atof levels data).
  fold ds in H0. unfold slen in Hlen. split.
  - unfold load_embedded_param_defaults. rewrite count_spec_lines by done. cbn [mbind outcome_bind].
    unfold load_embedded_lines. rewrite each_line_mfold by (unfold lines_fuel; lia).
    pose proof (Hfresh (zlen ds) ltac:(lia)) as Hf.
    pose proof (load_lines_spec layout _var_info deref table_at atof levels junk (set_overrides s []) es h0 Hok Hl Hj
      (lines_of (lines_fuel data) data) [] (fresh (zlen ds)) (mem s) Hs ltac:(change (omap _ _) with ds; lia) ltac:(simpl; lia)) as E.
    change (set_mem (set_overrides s []) (mem s)) with (set_overrides s []) in E.
    etrans; [apply (f_equal (fun x => '(overrides, _, s) ← x; Done (set_overrides s overrides)) E)|].
    change (omap _ _) with ds. by destruct (apply_defaults _ _ _ _ _ _).
  - intros m Hm. split; [intros a n Hn Ha; by eapply apply_alone|].
    intros A ty a v B E Hin HB. rewrite E, apply_defaults_app in Hm.
    destruct (apply_defaults _ _ _ _ A _) as [m0|]; [|done]. cbn [mbind option_bind apply_defaults] in Hm.
    rewrite Hin in Hm. destruct (set_float v ty a m0) as [m1|] eqn:E1; [|done].
    exists m0, m1. split; [done|]. split; [done|]. eapply apply_alone; [|done..].
    apply type_size_range.
Qed.

(** C21. The conversion of an old parameter, without the flag that forces it: nothing
    recorded in storage is lost, a value of the same type is given over, and a
    second conversion, as at every start, changes nothing. *)
Theorem param_convert {St} `{HL : HalStorageLaws St} layout _var_info deref table_at levels
    junk c scaler flags (s : t St) es h0 :
  length junk = 4%nat -> mem_bytes (mem s) -> area_ok layout StorageParam (_storage s) ->
  bytes (aview layout StorageParam (_storage s)) ->
  logged_at (aview layout StorageParam (_storage s)) es h0 ->
  0 < type_size (c_type c) -> is_sentinal (old_header c) = false ->
  nz (flags &&& CONVERT_FLAG_FORCE) = false ->
  (forall ptype a, find _var_info deref table_at levels (new_name c) = Some (ptype, a) ->
     exists f, variable _var_info deref table_at a f) ->
  let convert := convert_old_parameter _var_info deref table_at layout junk levels c scaler flags in
  (forall old a f, value es (old_header c) = Some old ->
     find _var_info deref table_at levels (new_name c) = Some (c_type c, a) ->
     variable _var_info deref table_at a f -> value es (found_header f) = None ->
     is_equal scaler (f32_of_Z 1) = true -> flags = 0 ->
     exists s', convert s = Done s' /\ mem_read (mem s') a (zlen old) = old) /\
  forall s', convert s = Done s' ->
    area_ok layout StorageParam (_storage s') /\
    (exists es' h0', logged_at (aview layout StorageParam (_storage s')) es' h0' /\
       forall h d, value es h = Some d -> value es' h = Some d) /\
    exists s'', convert s' = Done s'' /\ same_state s'' s'.
Proof.
  intros Hj Hm Hok Hb Hl Ht Hs Hforce Hvar convert. split.
  - intros old a f Hold Hf Hv Hnew Hsc Hfl. by eapply convert_direct.
  - intros s' Hrun.
    pose proof (convert_spec layout _var_info deref table_at levels junk c scaler flags s s' es h0
      Hj Hm Hok Hb Hl Ht Hs Hforce Hvar Hrun) as Hc.
    destruct (converted_kept _ _ _ _ _ _ _ _ _ _ h0 _ Hok Hl Hc) as [Hok' Hkept].
    split; [done|]. split; [done|]. exact (converted_again layout _var_info deref table_at levels junk c scaler flags s es h0 s' Hj Hok Hl Ht Hs Hforce Hvar Hrun Hc).
Qed.

(** C23. A number that is set for an integer parameter: whatever it is, NaN and the
    infinities too, the conversion to 8 or 16 bits is defined; and a whole number
    of the type, of 24 bits at most, is read back as it was set, though a hundredth
    is added before it is cut; the bytes of other variables are left alone. *)
Theorem param_set_float ty this (m : Z -> Z) :
  (ty = AP_PARAM_INT8 \/ ty = AP_PARAM_INT16 -> forall v, is_Some (set_float v ty this m)) /\
  (forall n, whole_of_type ty n -> exists m', set_float (f32_of_Z n) ty this m = Some m' /\
     cast_to_float ty this m' = f32_of_Z n) /\
  forall v m' a k, 0 <= k -> apart a k this (type_size ty) -> set_float v ty this m = Some m' ->
    mem_read m' a k = mem_read m a k.
Proof.
  split; [|split].
  - intros Hty v. rewrite set_float_bytes. destruct (float_bytes_defined v ty Hty) as [bs ->]. by eexists.
  - intros n Hn. rewrite set_float_bytes, (float_bytes_whole ty n Hn). eexists. split; [done|]. by apply cast_whole.
  - intros v m' a k Hk Hap. by apply set_float_alone.
Qed.

(** * Examples *)

(** [atof] of a number of decimal digits, as far as they go. *)
Fixpoint digits_of (s : string) (n : Z) : Z :=
  match s with
  | String c s =>
    let d := Z.of_N (N_of_ascii c) - 48 in
    if (0 <=? d) && (d <? 10) then digits_of s (10 * n + d) else n
  | EmptyString => n
  end.
Definition demo_atof (s : string) : spec_float := f32_of_Z (digits_of s 0).

Definition newline : string := String "010" EmptyString.
Definition demo_defaults : string :=
  ("FORMAT=14" ++ newline ++ "# DEV_P 7" ++ newline ++ "dev_p 9" ++ newline ++ "DEV_P = 2" ++ newline ++
   "FORMAT,15" ++ newline ++ "DEV_NO=1" ++ newline ++ "DEV_P=5")%string.
Definition demo_fresh (n : Z) : list (Z * spec_float) := replicate (Z.to_nat n) (0, S754_nan).
Abbreviation demo_ds := (defaults demo_vars demo_deref demo_tables demo_atof 3 demo_defaults).

(** The names of groups keep their case, the last line is not ended, and one name
    is unknown. *)
Example demo_lines : demo_ds =
  [((AP_PARAM_INT16, 0x100), f32_of_Z 14); ((AP_PARAM_FLOAT, 0x200), f32_of_Z 2);
   ((AP_PARAM_INT16, 0x100), f32_of_Z 15)].
Proof. vm_compute. reflexivity. Qed.

Lemma param_defaults_witness : exists s,
  load_embedded_param_defaults demo_vars demo_deref demo_tables demo_atof param_layout junk4 demo_fresh 3
    demo_defaults false demo_state = Done s /\
  param_overrides s = [(0x100, f32_of_Z 14); (0x200, f32_of_Z 2); (0x100, f32_of_Z 15)].
Proof.
  destruct (param_defaults param_layout demo_vars demo_deref demo_tables demo_atof 3 junk4 demo_fresh
    demo_defaults demo_state [] sentinal) as [E _].
  - reflexivity.
  - apply param_board. vm_compute. reflexivity.
  - apply erased_logged.
  - vm_compute. reflexivity.
  - intros n Hn. unfold demo_fresh. rewrite length_replicate. lia.
  - rewrite demo_lines. repeat constructor; intros f Hf; vm_compute in Hf; injection Hf as <-; vm_compute; reflexivity.
  - assert (Hd : match apply_defaults demo_vars demo_deref demo_tables [] demo_ds demo_mem with
                 | Some _ => true | None => false end = true) by (vm_compute; reflexivity).
    change (mem demo_state) with demo_mem in E. destruct (apply_defaults _ _ _ _ _ _) as [m|]; [|discriminate Hd].
    eexists. split; [exact E|]. vm_compute. reflexivity.
Defined.

(** A record with the value 9 of an old variable of key 7, and the numbers 1 of
    another, of key 8. *)
Definition old_entries : list entry := [
  Entry (make_header AP_PARAM_INT16 7 0) (le_bytes 2 9);
  Entry (make_header AP_PARAM_FLOAT 8 0) (le_bytes 4 (bits_of_f32 (f32_of_Z 1)))].
Definition old_storage : list Z :=
  append param_layout (append param_layout erased 4 (make_header AP_PARAM_INT16 7 0) (le_bytes 2 9)) 10
    (make_header AP_PARAM_FLOAT 8 0) (le_bytes 4 (bits_of_f32 (f32_of_Z 1))).
Definition old_state : AP_Param.t (list Z) :=
  mk old_storage (mem_write demo_mem 0x200 (le_bytes 4 (bits_of_f32 (f32_of_Z 1)))) 5 [].

Lemma old_logged : logged_at (aview param_layout StorageParam old_storage) old_entries sentinal.
Proof.
  split; [repeat constructor; vm_compute; try reflexivity; discriminate|].
  split; [apply sentinal_wf|]. split; [reflexivity|].
  exists [0x50; 0x41; 6; 0], (drop 22 old_storage). split; [reflexivity|]. vm_compute. reflexivity.
Qed.

Definition to_format : ConversionInfo := Conversion 7 0 AP_PARAM_INT16 "FORMAT".
Definition to_dev_p : ConversionInfo := Conversion 8 0 AP_PARAM_FLOAT "DEV_P".

Lemma param_convert_witness : exists s' s'',
  convert_old_parameter demo_vars demo_deref demo_tables param_layout junk4 3 to_format (f32_of_Z 1) 0 old_state
    = Done s' /\ mem_read (mem s') 0x100 2 = [9; 0] /\
  convert_old_parameter demo_vars demo_deref demo_tables param_layout junk4 3 to_format (f32_of_Z 1) 0 s'
    = Done s'' /\ same_state s'' s'.
Proof.
  destruct (param_convert param_layout demo_vars demo_deref demo_tables 3 junk4 to_format (f32_of_Z 1) 0
    old_state old_entries sentinal) as [Hdirect Hagain].
  - reflexivity.
  - intros a. cbn [old_state mem]. unfold mem_write. case_match; [|apply demo_mem_bytes].
    destruct (nth_in_or_default (Z.to_nat (a - 0x200)) (le_bytes 4 (bits_of_f32 (f32_of_Z 1))) 0) as [Hi| ->]; [|lia].
    apply list_elem_of_In in Hi. eapply Forall_forall in Hi; [exact Hi|apply le_bytes_bytes].
  - apply param_board. vm_compute. reflexivity.
  - apply (bool_decide_unpack _). vm_compute. exact I.
  - apply old_logged.
  - reflexivity.
  - reflexivity.
  - reflexivity.
  - intros ptype a Hf. exists (demo_found a). vm_compute in Hf. injection Hf as <- <-.
    apply demo_variable; vm_compute; reflexivity.
  - destruct (Hdirect (le_bytes 2 9) 0x100 (demo_found 0x100)) as (s'&Hs'&Hm);
      [reflexivity|reflexivity|apply demo_variable; vm_compute; reflexivity|reflexivity|reflexivity|reflexivity|].
    destruct (Hagain s' Hs') as (_&_&s''&Hs''&Hsame). exists s', s''.
    split; [exact Hs'|]. split; [exact Hm|]. split; [exact Hs''|exact Hsame].
Defined.

(** ** What it does not do *)

(** A factor is applied after the comparison with the new variable: the old value
    1 times a hundredth is not converted, as the variable is 1. *)
Example unscaled :
  convert_old_parameter demo_vars demo_deref demo_tables param_layout junk4 3 to_dev_p
    (f32_of_Z 1 / f32_of_Z 100)%f32 0 old_state = Done old_state.
Proof. vm_compute. reflexivity. Qed.

(** A name with two lines: the variable has the value of the last one, its default
    for [save] and [load] is that of the first. *)
Example two_defaults :
  match load_embedded_param_defaults demo_vars demo_deref demo_tables demo_atof param_layout junk4 demo_fresh 3
          demo_defaults false demo_state with
  | Done s => mem_read (mem s) 0x100 2 = [15; 0] /\ get_default_value s 0x100 (f32_of_Z 13) = f32_of_Z 14
  | _ => False
  end.
Proof. vm_compute. split; reflexivity. Qed.

(** 2147483647 as a float is 2^31, which no [int32_t] holds. *)
Example large_value : set_float (f32_lit 3 30) AP_PARAM_INT32 0x100 demo_mem = None.
Proof. vm_compute. reflexivity. Qed.

(** In 12 bytes there is no room for a variable: the answer is [true] all the same. *)
Example not_saved :
  let layout := [area StorageParam 0 12] in
  let s := mk (erase_all layout (replicate 12 7)) demo_mem 5 [] in
  match set_and_save_by_name demo_vars demo_deref demo_tables layout junk4 3 "FORMAT" (f32_of_Z 20) s with
  | Done (ok, s') => ok = true /\ _storage s' = _storage s
  | _ => False
  end.
Proof. vm_compute. split; reflexivity. Qed.

(** The key of an object is taken for the index of its row: 300 is outside the table
    of two rows. *)
Example key_as_index :
  load_object_from_eeprom demo_vars demo_deref demo_tables param_layout 2 junk4 0x210
    [group_row AP_PARAM_GROUP 3 "B_" 32 (GroupTable (Some demo_sub)) AP_PARAM_FLAG_POINTER] demo_state = Undefined.
Proof. vm_compute. reflexivity. Qed.

Lemma param_set_float_witness : exists m', set_float (f32_of_Z (-3)) AP_PARAM_INT16 0x100 demo_mem = Some m' /\
  cast_to_float AP_PARAM_INT16 0x100 m' = f32_of_Z (-3) /\ mem_read m' 0x102 4 = mem_read demo_mem 0x102 4.
Proof.
  destruct (param_set_float AP_PARAM_INT16 0x100 demo_mem) as (_&Hw&Ha).
  destruct (Hw (-3)) as (m'&Hs&Hc); [right; left; split; [reflexivity|lia]|].
  exists m'. split; [exact Hs|]. split; [exact Hc|].
  apply (Ha (f32_of_Z (-3)) m' 0x102 4); [lia|right; vm_compute; discriminate|exact Hs].
Defined.

(** Two files: the table of the second starts over that of the first, and its end
    keeps what was in memory. *)
Definition demo_files (name : string) : option string :=
  if String.eqb name "a" then Some ("FORMAT=14" ++ newline)%string
  else if String.eqb name "b" then Some ("DEV_P=2" ++ newline)%string else None.

Example two_files :
  match load_defaults_file demo_vars demo_deref demo_tables demo_atof param_layout demo_files junk4 demo_fresh 3
          (Some "a,b"%string) false demo_state with
  | Done (ok, s) => ok = true /\ mem_read (mem s) 0x100 2 = [14; 0] /\
                    param_overrides s = [(0x200, f32_of_Z 2); (0, S754_nan)]
  | _ => False
  end.
Proof. vm_compute. repeat split; reflexivity. Qed.
