(* ===== verification/SmartRTL.v ===== *)
(** The way back: libraries/AP_SmartRTL, the list of positions that a vehicle keeps
    while it flies, and its cleanup in the background, with the parts of AP_Math on
    vectors that it uses.

    Single precision is SpecFloat; [powf(x, 2)] is [x * x].  A call of the background
    thread is given the answers of the semaphore and the readings of the clock.
    The messages and the log are left out. *)
From S2P Require Import Prelude Float32 HalStorage.
Open Scope urus_scope.
#[local] Abbreviation length := (@Datatypes.length _).

Module Vector3.
Record t := vec { x : spec_float; y : spec_float; z : spec_float }.

Definition sub (a b : t) : t := vec (x a - x b)%f32 (y a - y b)%f32 (z a - z b)%f32.
Definition add (a b : t) : t := vec (x a + x b)%f32 (y a + y b)%f32 (z a + z b)%f32.
Definition scale (a : t) (num : spec_float) : t := vec (x a * num)%f32 (y a * num)%f32 (z a * num)%f32.
Definition divide (a : t) (num : spec_float) : t := vec (x a / num)%f32 (y a / num)%f32 (z a / num)%f32.
Definition dot (a b : t) : spec_float := (x a * x b + y a * y b + z a * z b)%f32.

Definition sq (v : spec_float) : spec_float := (v * v)%f32.
Definition length (a : t) : spec_float := SFsqrt prec emax (sq (x a) + (sq (y a) + sq (z a)))%f32.
Definition safe_sqrt (v : spec_float) : spec_float :=
  match SFsqrt prec emax v with S754_nan => f32_of_Z 0 | r => r end.

Definition distance_squared (a b : t) : spec_float :=
  let d := sub a b in (x d * x d + y d * y d + z d * z d)%f32.

Definition distance_to_segment (this seg_start seg_end : t) : spec_float :=
  let a := length (sub this seg_start) in
  let b := length (sub seg_start seg_end) in
  let c := length (sub seg_end this) in
  if is_zero b then f32_of_Z 0
  else
    let s := ((a + b + c) * f32_lit 1 (-1))%f32 in
    let area_squared := (s * (s - a) * (s - b) * (s - c))%f32 in
    let area_squared := if f32_lt area_squared (f32_of_Z 0) then f32_of_Z 0 else area_squared in
    let area := safe_sqrt area_squared in
    (f32_of_Z 2 * area / b)%f32.
End Vector3.

Module SmartRTL.
Abbreviation Vector3f := Vector3.t.

Definition SMARTRTL_POINTS_MAX : Z := 500.
Definition SMARTRTL_TIMEOUT : Z := 15000.
Definition SMARTRTL_CLEANUP_POINT_TRIGGER : Z := 50.
Definition SMARTRTL_CLEANUP_START_MARGIN : Z := 10.
Definition SMARTRTL_CLEANUP_POINT_MIN : Z := 10.
Definition SMARTRTL_SIMPLIFY_TIME_US : Z := 200.
Definition SMARTRTL_PRUNING_LOOP_TIME_US : Z := 200.

Inductive ThoroughCleanupType :=
| THOROUGH_CLEAN_DEFAULT
| THOROUGH_CLEAN_ALL
| THOROUGH_CLEAN_SIMPLIFY_ONLY
| THOROUGH_CLEAN_PRUNE_ONLY.

(** * State *)

(** [_simplify]; an element of the stack is [(start, finish)]. *)
Record simplify_t := Simplify {
  s_complete : bool;
  removal_required : bool;
  s_points_count : Z;
  s_points_completed : Z;
  stack : list (Z * Z);
  stack_count : Z;
  bitmask : Bitmask.t
}.

Record prune_loop_t := Loop {
  start_index : Z; end_index : Z; midpoint : Vector3f; length_squared : spec_float
}.

(** [_prune]; [loops] is the array, of [loops_max] elements. *)
Record prune_t := Prune {
  p_complete : bool;
  p_points_count : Z;
  p_points_completed : Z;
  p_i : Z;
  p_j : Z;
  loops : list prune_loop_t;
  loops_count : Z
}.

Record t := mk {
  _active : bool;
  _home_saved : bool;
  _last_good_position_ms : Z;
  _last_position_save_ms : Z;
  _thorough_clean_request_ms : Z;
  _thorough_clean_complete_ms : Z;
  _thorough_clean_type : ThoroughCleanupType;
  _path : list Vector3f;              (* of [_path_points_max] elements *)
  _path_points_count : Z;
  _path_points_completed_limit : Z;
  _simplify : simplify_t;
  _prune : prune_t
}.
Definition _path_points_max (s : t) : Z := zlen (_path s).
Definition stack_max (q : simplify_t) : Z := zlen (stack q).
Definition loops_max (p : prune_t) : Z := zlen (loops p).

Definition set_active (s : t) v : t :=
  mk v (_home_saved s) (_last_good_position_ms s) (_last_position_save_ms s) (_thorough_clean_request_ms s)
     (_thorough_clean_complete_ms s) (_thorough_clean_type s) (_path s) (_path_points_count s)
     (_path_points_completed_limit s) (_simplify s) (_prune s).
Definition set_path (s : t) p n : t :=
  mk (_active s) (_home_saved s) (_last_good_position_ms s) (_last_position_save_ms s) (_thorough_clean_request_ms s)
     (_thorough_clean_complete_ms s) (_thorough_clean_type s) p n
     (_path_points_completed_limit s) (_simplify s) (_prune s).
Definition set_limit (s : t) v : t :=
  mk (_active s) (_home_saved s) (_last_good_position_ms s) (_last_position_save_ms s) (_thorough_clean_request_ms s)
     (_thorough_clean_complete_ms s) (_thorough_clean_type s) (_path s) (_path_points_count s)
     v (_simplify s) (_prune s).
Definition set_simplify (s : t) v : t :=
  mk (_active s) (_home_saved s) (_last_good_position_ms s) (_last_position_save_ms s) (_thorough_clean_request_ms s)
     (_thorough_clean_complete_ms s) (_thorough_clean_type s) (_path s) (_path_points_count s)
     (_path_points_completed_limit s) v (_prune s).
Definition set_prune (s : t) v : t :=
  mk (_active s) (_home_saved s) (_last_good_position_ms s) (_last_position_save_ms s) (_thorough_clean_request_ms s)
     (_thorough_clean_complete_ms s) (_thorough_clean_type s) (_path s) (_path_points_count s)
     (_path_points_completed_limit s) (_simplify s) v.
Definition set_times (s : t) good save : t :=
  mk (_active s) (_home_saved s) good save (_thorough_clean_request_ms s)
     (_thorough_clean_complete_ms s) (_thorough_clean_type s) (_path s) (_path_points_count s)
     (_path_points_completed_limit s) (_simplify s) (_prune s).
Definition set_request (s : t) request complete type : t :=
  mk (_active s) (_home_saved s) (_last_good_position_ms s) (_last_position_save_ms s) request
     complete type (_path s) (_path_points_count s) (_path_points_completed_limit s) (_simplify s) (_prune s).

(** What the background thread meets: the semaphore, when points are removed, and the
    readings of [micros]. *)
Record io := Io { take_sem : bool; micros : nat -> Z }.

(** What [init] gets: the semaphore and the three arrays. *)
Record memory := Memory { new_semaphore : bool; calloc_path : bool; calloc_loops : bool; calloc_stack : bool }.
Definition all_memory : memory := Memory true true true true.

Section rtl.
Context (_accuracy : spec_float).

Definition SMARTRTL_SIMPLIFY_EPSILON : spec_float := (_accuracy * f32_lit 1 (-1))%f32.

(** [_accuracy * 0.99] is of double precision. *)
Definition to_double (v : spec_float) : spec_float :=
  match v with
  | S754_finite s m e => binary_normalize 53 1024 (if s then Z.neg m else Z.pos m) e s
  | v => v
  end.
Definition near (distance : spec_float) : bool :=
  SFltb (to_double distance)
    (SFmul 53 1024 (to_double _accuracy)
       (SFdiv 53 1024 (binary_normalize 53 1024 99 0 false) (binary_normalize 53 1024 100 0 false))).

(** * The path *)

Definition is_positive (v : spec_float) : bool := SFleb (f32_lit 1 (-23)) v.

(** [init]; [None] is a SmartRTL without a path, of which no method does anything.  Of
    one that did not get all of its memory the pointer to the path is left as it is and
    [_path_points_max] stays 0: what was given back is an empty array here, every access
    to which is undefined. *)
Definition init (m : memory) (_points_max : Z) : option t :=
  let _points_max := if _points_max <? 0 then 0
                     else if _points_max >? SMARTRTL_POINTS_MAX then SMARTRTL_POINTS_MAX else _points_max in
  if (_points_max =? 0) || negb (is_positive _accuracy) then None
  else if negb (new_semaphore m) then None
  else
    lmax ← f32_to_uint16 (f32_of_Z _points_max * f32_lit 1 (-2))%f32;
    smax ← f32_to_uint16 (f32_of_Z _points_max * (f32_of_Z 2 / f32_of_Z 3) + f32_of_Z 1)%f32;
    ones ← Bitmask.setall (Bitmask.create SMARTRTL_POINTS_MAX);
    let zero := Vector3.vec (f32_of_Z 0) (f32_of_Z 0) (f32_of_Z 0) in
    let start path stack loops :=
      mk false false 0 0 0 0 THOROUGH_CLEAN_DEFAULT path 0 0
        (Simplify false false 0 SMARTRTL_POINTS_MAX stack 0 ones) (Prune false 0 0 0 0 loops 0) in
    if negb (calloc_path m && calloc_loops m && calloc_stack m) then
      if calloc_path m then Some (start [] [] []) else None
    else
      Some (start (replicate (Z.to_nat _points_max) zero) (replicate (Z.to_nat smax) (0, 0))
              (replicate (Z.to_nat lmax) (Loop 0 0 zero (f32_of_Z 0)))).

Definition get_num_points (s : t) : Z := _path_points_count s.

(** [take] is the answer of the semaphore. *)
Definition pop_point (take : bool) (s : t) : outcome (option Vector3f * t) :=
  if negb (_active s) then Done (None, s)
  else if negb take then Done (None, s)
  else if _path_points_count s =? 0 then Done (None, s)
  else
    let n := u16 (_path_points_count s - 1) in
    point ← access (arr_get (_path s) n);
    Done (Some point, set_limit (set_path s (_path s) n) n).

Definition add_point (take : bool) (point : Vector3f) (s : t) : outcome (bool * t) :=
  if negb take then Done (false, s)
  else
    let n := _path_points_count s in
    far ← (if n >? 0 then
             last_pos ← access (arr_get (_path s) (n - 1));
             Done (negb (f32_lt (Vector3.distance_squared last_pos point) (Vector3.sq _accuracy)))
           else Done true);
    if negb far : bool then Done (true, s)
    else if n >=? _path_points_max s then Done (false, s)
    else
      p ← access (arr_set (_path s) n point);
      Done (true, set_path s p (u16 (n + 1))).

Definition restart_simplification (path_points_count : Z) (q : simplify_t) : outcome simplify_t :=
  b ← access (Bitmask.setall (bitmask q));
  Done (Simplify false false path_points_count (s_points_completed q) (stack q) 0 b).

Definition reset_simplification (q : simplify_t) : outcome simplify_t :=
  q ← restart_simplification 0 q;
  Done (Simplify (s_complete q) (removal_required q) (s_points_count q) 0 (stack q) (stack_count q) (bitmask q)).

Definition restart_pruning (path_points_count : Z) (p : prune_t) : prune_t :=
  Prune false path_points_count (p_points_completed p)
    (if path_points_count >? 0 then path_points_count - 1 else 0) 0 (loops p) (loops_count p).

Definition reset_pruning (p : prune_t) : prune_t :=
  let p := restart_pruning 0 p in
  Prune (p_complete p) (p_points_count p) 0 (p_i p) (p_j p) (loops p) 0.

Definition set_home (take : bool) (now : Z) (position_ok : bool) (current_pos : Vector3f) (s : t) : outcome t :=
  let s := set_path s (_path s) 0 in
  q ← reset_simplification (_simplify s);
  let s := set_prune (set_simplify s q) (reset_pruning (_prune s)) in
  if negb position_ok then Done s
  else
    '(ok, s) ← add_point take current_pos s;
    if negb ok : bool then Done s
    else
      Done (mk true true now (_last_position_save_ms s) (_thorough_clean_request_ms s)
              (_thorough_clean_complete_ms s) (_thorough_clean_type s) (_path s) (_path_points_count s)
              (_path_points_completed_limit s) (_simplify s) (_prune s)).

Definition deactivate (s : t) : t := set_active s false.

(** [update] with a position; [now] and [later] are the two readings of [millis]. *)
Definition update_position (take : bool) (now later : Z) (position_ok : bool) (current_pos : Vector3f) (s : t)
  : outcome t :=
  if negb (_active s) then Done s
  else if position_ok then
    let s := set_times s now (_last_position_save_ms s) in
    '(ok, s) ← add_point take current_pos s;
    if ok : bool then Done (set_times s (_last_good_position_ms s) now)
    else if u32 (later - _last_position_save_ms s) >? SMARTRTL_TIMEOUT then Done (deactivate s) else Done s
  else if u32 (now - _last_good_position_ms s) >? SMARTRTL_TIMEOUT then Done (deactivate s) else Done s.

(** [update]; [pos] is what the AHRS answers; [take0], [now0] and [pos0] are the semaphore,
    the time and the answer for the home. *)
Definition update (take0 take : bool) (now0 now later : Z) (pos0 pos : bool * Vector3f)
    (position_ok save_position : bool) (s : t) : outcome t :=
  s ← (if position_ok && negb (_home_saved s) then set_home take0 now0 pos0.1 pos0.2 s else Done s);
  if negb (_active s) || negb save_position then Done s
  else update_position take now later (position_ok && pos.1) pos.2 s.

Definition request_thorough_cleanup (now : Z) (clean_type : ThoroughCleanupType) (s : t) : bool * t :=
  if negb (_active s) then (false, s)
  else if _thorough_clean_request_ms s =? 0 then
    (false, set_request s now (_thorough_clean_complete_ms s)
              (match clean_type with THOROUGH_CLEAN_DEFAULT => _thorough_clean_type s | c => c end))
  else if _thorough_clean_complete_ms s =? _thorough_clean_request_ms s then
    (true, set_request s 0 (_thorough_clean_complete_ms s) (_thorough_clean_type s))
  else (false, s).

Definition cancel_request_for_thorough_cleanup (s : t) : t :=
  set_request s 0 (_thorough_clean_complete_ms s) (_thorough_clean_type s).

(** * Simplification *)

(** The loop over the points between [start_index] and [end_index], from [i] on, [n]
    of them: the farthest of the marked ones from the segment. *)
Fixpoint farthest (n : nat) (i : Z) (path : list Vector3f) (b : Bitmask.t) (start_index end_index : Z)
    (max_dist : spec_float) (farthest_point_index : Z) : outcome (spec_float * Z) :=
  match n with
  | O => Done (max_dist, farthest_point_index)
  | S n =>
    marked ← access (Bitmask.get b i);
    if marked : bool then
      point ← access (arr_get path i);
      first ← access (arr_get path start_index);
      last ← access (arr_get path end_index);
      let dist := Vector3.distance_to_segment point first last in
      if f32_lt max_dist dist then farthest n (u16 (i + 1)) path b start_index end_index dist i
      else farthest n (u16 (i + 1)) path b start_index end_index max_dist farthest_point_index
    else farthest n (u16 (i + 1)) path b start_index end_index max_dist farthest_point_index
  end.

Fixpoint clear_between (n : nat) (i : Z) (b : Bitmask.t) : outcome Bitmask.t :=
  match n with
  | O => Done b
  | S n => b ← access (Bitmask.clear b i); clear_between n (u16 (i + 1)) b
  end.

(** The loop over the stack, from the reading [k] of the clock on. *)
Fixpoint simplify_loop (fuel : nat) (micros : nat -> Z) (k : nat) (path : list Vector3f) (q : simplify_t)
  : outcome simplify_t :=
  match fuel with
  | O => OutOfFuel
  | S fuel =>
    if stack_count q >? 0 then
      if u32 (micros k - micros O) >? SMARTRTL_SIMPLIFY_TIME_US then Done q
      else
        let count := stack_count q - 1 in
        '(start_index, end_index) ← access (arr_get (stack q) count);
        let n := Z.to_nat (end_index - start_index - 1) in
        '(max_dist, farthest_point_index) ←
          farthest n (u16 (start_index + 1)) path (bitmask q) start_index end_index (f32_of_Z 0) start_index;
        if f32_lt SMARTRTL_SIMPLIFY_EPSILON max_dist then
          if count >=? stack_max q then
            Done (Simplify true (removal_required q) (s_points_count q) (s_points_completed q) (stack q) count
                    (bitmask q))
          else
            st ← access (arr_set (stack q) count (start_index, farthest_point_index));
            st ← access (arr_set st (count + 1) (farthest_point_index, end_index));
            simplify_loop fuel micros (S k) path
              (Simplify (s_complete q) (removal_required q) (s_points_count q) (s_points_completed q) st
                 (u16 (count + 2)) (bitmask q))
        else
          b ← clear_between n (u16 (start_index + 1)) (bitmask q);
          simplify_loop fuel micros (S k) path
            (Simplify (s_complete q) (match n with O => removal_required q | _ => true end) (s_points_count q)
               (s_points_completed q) (stack q) count b)
    else
      Done (Simplify true (removal_required q) (s_points_count q) (s_points_count q) (stack q) (stack_count q)
              (bitmask q))
  end.

Definition detect_simplifications (fuel : nat) (micros : nat -> Z) (path : list Vector3f) (q : simplify_t)
  : outcome simplify_t :=
  if s_points_count q <? 3 then
    Done (Simplify true (removal_required q) (s_points_count q) (s_points_completed q) (stack q) (stack_count q)
            (bitmask q))
  else
    q ← (if stack_count q =? 0 then
           st ← access (arr_set (stack q) 0
                  (if s_points_completed q >? 0 then s_points_completed q - 1 else 0, s_points_count q - 1));
           Done (Simplify (s_complete q) (removal_required q) (s_points_count q) (s_points_completed q) st 1
                   (bitmask q))
         else Done q);
    simplify_loop fuel micros 1 path q.

Definition restart_simplify_if_new_points (path_points_count : Z) (q : simplify_t) : outcome simplify_t :=
  if negb (s_points_count q =? path_points_count) then restart_simplification path_points_count q else Done q.

(** The loop over the path from [src] on, [n] points. *)
Fixpoint compact (n : nat) (src dest removed : Z) (b : Bitmask.t) (path : list Vector3f)
  : outcome (list Vector3f * Z) :=
  match n with
  | O => Done (path, removed)
  | S n =>
    kept ← access (Bitmask.get b src);
    if negb kept : bool then compact n (u16 (src + 1)) dest (u16 (removed + 1)) b path
    else
      point ← access (arr_get path src);
      path ← access (arr_set path dest point);
      compact n (u16 (src + 1)) (u16 (dest + 1)) removed b path
  end.

Definition remove_points_by_simplify_bitmask (take : bool) (s : t) : outcome t :=
  if negb take then Done s
  else
    let q := _simplify s in
    '(path, removed) ← compact (Z.to_nat (_path_points_count s - 1)) 1 1 0 (bitmask q) (_path s);
    b ← access (Bitmask.setall (bitmask q));
    if (_path_points_count s >? removed) && (s_points_count q >? removed) then
      let n := s_points_count q - removed in
      Done (set_simplify (set_path s path (_path_points_count s - removed))
              (Simplify (s_complete q) false n n (stack q) (stack_count q) b))
    else
      Done (deactivate (set_simplify (set_path s path (_path_points_count s))
              (Simplify (s_complete q) false (s_points_count q) (s_points_completed q) (stack q)
                 (stack_count q) b))).

(** * Pruning *)

Definition FLT_MAX : spec_float := S754_finite false 16777215 104.

Definition segment_segment_dist (p1 p2 p3 p4 : Vector3f) : spec_float * Vector3f :=
  let line1 := Vector3.sub p2 p1 in
  let line2 := Vector3.sub p4 p3 in
  let line_start_diff := Vector3.sub p1 p3 in
  let a := Vector3.dot line1 line1 in
  let b := Vector3.dot line1 line2 in
  let c := Vector3.dot line2 line2 in
  let d := Vector3.dot line1 line_start_diff in
  let e := Vector3.dot line2 line_start_diff in
  if is_zero (a * c - b * b)%f32 then
    (FLT_MAX, Vector3.vec (f32_of_Z 0) (f32_of_Z 0) (f32_of_Z 0))
  else
    let t1 := ((b * e - c * d) / (a * c - b * b))%f32 in
    let t2 := ((a * e - b * d) / (a * c - b * b))%f32 in
    let t1 := constrain_float t1 (f32_of_Z 0) (f32_of_Z 1) in
    let t2 := constrain_float t2 (f32_of_Z 0) (f32_of_Z 1) in
    let dP := Vector3.sub (Vector3.add line_start_diff (Vector3.scale line1 t1)) (Vector3.scale line2 t2) in
    let midpoint :=
      Vector3.divide
        (Vector3.add (Vector3.add (Vector3.add p1 (Vector3.scale line1 t1)) p3) (Vector3.scale line2 t2))
        (f32_of_Z 2) in
    (Vector3.length dP, midpoint).

Definition loops_overlap (loop1 loop2 : prune_loop_t) : bool :=
  if (start_index loop1 >=? start_index loop2) && (end_index loop1 <=? end_index loop2) then true
  else if (start_index loop2 >=? start_index loop1) && (end_index loop2 <=? end_index loop1) then true
  else
    let loop1_start_in_loop2 :=
      (start_index loop1 >=? start_index loop2) && (start_index loop1 <=? end_index loop2) in
    let loop1_end_in_loop2 :=
      (end_index loop1 >=? start_index loop2) && (end_index loop1 <=? end_index loop2) in
    if negb (Bool.eqb loop1_start_in_loop2 loop1_end_in_loop2) then true else false.

(** The lengths of the [n] segments from the point [i] on. *)
Fixpoint add_lengths (n : nat) (i : Z) (path : list Vector3f) (sum : spec_float) : outcome spec_float :=
  match n with
  | O => Done sum
  | S n =>
    p ← access (arr_get path i);
    p' ← access (arr_get path (i + 1));
    add_lengths n (u16 (i + 1)) path (sum + Vector3.distance_squared p p')%f32
  end.

(** The recorded loops that overlap the new one, from [idx] on, [n] of them. *)
Fixpoint overlapping (n : nat) (idx : Z) (ls : list prune_loop_t) (new_loop : prune_loop_t)
    (any : bool) (sum : spec_float) : outcome (bool * spec_float) :=
  match n with
  | O => Done (any, sum)
  | S n =>
    l ← access (arr_get ls idx);
    if loops_overlap l new_loop then overlapping n (u16 (idx + 1)) ls new_loop true (sum + length_squared l)%f32
    else overlapping n (u16 (idx + 1)) ls new_loop any sum
  end.

Fixpoint drop_overlapping (n : nat) (src_idx dest_idx removed : Z) (ls : list prune_loop_t)
    (new_loop : prune_loop_t) : outcome (list prune_loop_t * Z) :=
  match n with
  | O => Done (ls, removed)
  | S n =>
    l ← access (arr_get ls src_idx);
    if loops_overlap l new_loop then
      drop_overlapping n (u16 (src_idx + 1)) dest_idx (u16 (removed + 1)) ls new_loop
    else
      ls ← access (arr_set ls dest_idx l);
      drop_overlapping n (u16 (src_idx + 1)) (u16 (dest_idx + 1)) removed ls new_loop
  end.

Definition set_loops (p : prune_t) (ls : list prune_loop_t) (n : Z) : prune_t :=
  Prune (p_complete p) (p_points_count p) (p_points_completed p) (p_i p) (p_j p) ls n.

Definition add_loop (path : list Vector3f) (start_index end_index : Z) (midpoint : Vector3f) (p : prune_t)
  : outcome (bool * prune_t) :=
  if loops_count p >=? loops_max p then Done (false, p)
  else if end_index <=? start_index then Done (false, p)
  else
    first ← access (arr_get path start_index);
    last ← access (arr_get path end_index);
    len ← add_lengths (Z.to_nat (end_index - start_index)) start_index path
            (Vector3.distance_squared midpoint first + Vector3.distance_squared midpoint last)%f32;
    let new_loop := Loop start_index end_index midpoint len in
    '(overlapping_loops, overlapping_loop_length) ←
      overlapping (Z.to_nat (loops_count p)) 0 (loops p) new_loop false (f32_of_Z 0);
    if (overlapping_loops : bool) && f32_lt len overlapping_loop_length then Done (true, p)
    else
      '(ls, removed) ← (if overlapping_loops : bool then
                          drop_overlapping (Z.to_nat (loops_count p)) 0 0 0 (loops p) new_loop
                        else Done (loops p, 0));
      let n := u16 (loops_count p - removed) in
      ls ← access (arr_set ls n new_loop);
      Done (true, set_loops p ls (u16 (n + 1))).

Definition set_search (p : prune_t) (complete : bool) (completed i j : Z) : prune_t :=
  Prune complete (p_points_count p) completed i j (loops p) (loops_count p).

(** The next pair: the inner loop goes on, or the outer one, and whether it is the outer
    one. *)
Definition advance (p : prune_t) : bool * Z * Z :=
  let j := u16 (p_j p + 1) in
  if j >? p_i p - 2 then (true, u16 (p_i p - 1), 1) else (false, p_i p, j).

(** The loop over pairs of segments, from the reading [k] of the clock on. *)
Fixpoint detect_loop (fuel : nat) (micros : nat -> Z) (k : nat) (path : list Vector3f) (p : prune_t)
  : outcome prune_t :=
  match fuel with
  | O => OutOfFuel
  | S fuel =>
    if u32 (micros k - micros O) <? SMARTRTL_PRUNING_LOOP_TIME_US then
      let '(outer, i, j) := advance p in
      if outer && ((i <? 4) || (i <? p_points_completed p)) then
        Done (set_search p true (p_points_count p) i j)
      else
        p1 ← access (arr_get path i);
        p2 ← access (arr_get path (i - 1));
        p3 ← access (arr_get path (j - 1));
        p4 ← access (arr_get path j);
        let '(distance, midpoint) := segment_segment_dist p1 p2 p3 p4 in
        if near distance then
          '(ok, p) ← add_loop path j (i - 1) midpoint p;
          detect_loop fuel micros (S k) path
            (set_search p (if ok : bool then p_complete p else true) (p_points_completed p) i i)
        else
          detect_loop fuel micros (S k) path (set_search p (p_complete p) (p_points_completed p) i j)
    else Done p
  end.

Definition detect_loops (fuel : nat) (micros : nat -> Z) (path : list Vector3f) (p : prune_t) : outcome prune_t :=
  if p_points_count p <? 4 then Done (set_search p true (p_points_completed p) (p_i p) (p_j p))
  else detect_loop fuel micros 1 path p.

Definition restart_pruning_if_new_points (s : t) : t :=
  if negb (p_points_count (_prune s) =? s_points_completed (_simplify s)) then
    set_prune s (restart_pruning (s_points_completed (_simplify s)) (_prune s))
  else s.

(** The points from [dest + by] on move down, [n] of them. *)
Fixpoint shift_down (n : nat) (dest by_ : Z) (path : list Vector3f) : outcome (list Vector3f) :=
  match n with
  | O => Done path
  | S n =>
    point ← access (arr_get path (dest + by_));
    path ← access (arr_set path dest point);
    shift_down n (u16 (dest + 1)) by_ path
  end.

(** One recorded loop after the removal of another. *)
Definition fix_indices (loop : prune_loop_t) (n : Z) (l : prune_loop_t) : prune_loop_t :=
  Loop (if start_index l >=? end_index loop then u16 (start_index l - n) else start_index l)
       (if end_index l >=? end_index loop then u16 (end_index l - n) else end_index l)
       (midpoint l) (length_squared l).

(** The midpoint in the place of a loop; the points after it move down. *)
Definition remove_one (l : prune_loop_t) (count : Z) (path : list Vector3f) : outcome (list Vector3f) :=
  path ← access (arr_set path (start_index l) (midpoint l));
  let n := u16 (end_index l - start_index l) in
  let dest := u16 (start_index l + 1) in
  shift_down (Z.to_nat (count - n - dest)) dest n path.

(** The loop over the recorded loops, from the last one, the [i]-th, down. *)
Fixpoint remove_loops (i : nat) (num_points_to_remove removed_points : Z) (s : t) : outcome t :=
  match i with
  | O => Done s
  | S i =>
    if removed_points <? num_points_to_remove then
      loop ← access (arr_get (loops (_prune s)) (Z.of_nat i));
      path ← remove_one loop (_path_points_count s) (_path s);
      let n := u16 (end_index loop - start_index loop) in
      if _path_points_count s >? n then
        let s := set_path s path (_path_points_count s - n) in
        let p := _prune s in
        let ls := map (fix_indices loop n) (take i (loops p)) ++ drop i (loops p) in
        remove_loops i num_points_to_remove (u16 (removed_points + n))
          (set_prune s (set_loops p ls (u16 (loops_count p - 1))))
      else Done (deactivate (set_path s path (_path_points_count s)))
    else Done s
  end.

Definition remove_points_by_loops (take : bool) (num_points_to_remove : Z) (s : t) : outcome (bool * t) :=
  if loops_count (_prune s) =? 0 then Done (true, s)
  else if negb take then Done (false, s)
  else
    s ← remove_loops (Z.to_nat (loops_count (_prune s))) num_points_to_remove 0 s;
    Done (true, s).

(** * The cleanup in the background *)

Definition run_detect_simplifications (fuel : nat) (m : nat -> Z) (s : t) : outcome t :=
  q ← detect_simplifications fuel m (_path s) (_simplify s); Done (set_simplify s q).
Definition run_detect_loops (fuel : nat) (m : nat -> Z) (s : t) : outcome t :=
  p ← detect_loops fuel m (_path s) (_prune s); Done (set_prune s p).

Definition routine_cleanup (fuel : nat) (e : io) (path_points_count path_points_completed_limit : Z) (s : t)
  : outcome t :=
  if negb (s_complete (_simplify s)) then run_detect_simplifications fuel (micros e) s
  else if removal_required (_simplify s) then remove_points_by_simplify_bitmask (take_sem e) s
  else
    let s := if p_complete (_prune s) then restart_pruning_if_new_points s else s in
    if negb (p_complete (_prune s)) then run_detect_loops fuel (micros e) s
    else
      let limit := path_points_completed_limit in
      let q := _simplify s in
      let p := _prune s in
      let s := set_simplify s (Simplify (s_complete q) (removal_required q) (s_points_count q)
                 (if s_points_completed q >? limit then limit else s_points_completed q)
                 (stack q) (stack_count q) (bitmask q)) in
      let s := set_prune s (set_search p (p_complete p)
                 (if p_points_completed p >? limit then limit else p_points_completed p) (p_i p) (p_j p)) in
      let completed := s_points_completed (_simplify s) in
      let points_to_simplify :=
        if path_points_count >? completed then path_points_count - completed else 0 in
      let low_on_space := _path_points_max s - path_points_count <=? SMARTRTL_CLEANUP_START_MARGIN in
      if (points_to_simplify >=? SMARTRTL_CLEANUP_POINT_TRIGGER) ||
         (low_on_space && (points_to_simplify >=? SMARTRTL_CLEANUP_POINT_MIN)) then
        q ← restart_simplification path_points_count (_simplify s);
        Done (set_simplify s q)
      else if low_on_space then
        '(_, s) ← remove_points_by_loops (take_sem e) SMARTRTL_CLEANUP_POINT_MIN s;
        Done s
      else Done s.

Definition is_prune_only (c : ThoroughCleanupType) : bool :=
  match c with THOROUGH_CLEAN_PRUNE_ONLY => true | _ => false end.
Definition is_simplify_only (c : ThoroughCleanupType) : bool :=
  match c with THOROUGH_CLEAN_SIMPLIFY_ONLY => true | _ => false end.

(** The second half of [thorough_cleanup]. *)
Definition thorough_prune (fuel : nat) (e : io) (clean_type : ThoroughCleanupType) (s : t) : outcome (bool * t) :=
  if is_simplify_only clean_type then Done (true, s)
  else
    let s := if p_complete (_prune s) then restart_pruning_if_new_points s else s in
    if negb (p_complete (_prune s)) then s ← run_detect_loops fuel (micros e) s; Done (false, s)
    else remove_points_by_loops (take_sem e) SMARTRTL_POINTS_MAX s.

Definition thorough_cleanup (fuel : nat) (e : io) (path_points_count : Z) (clean_type : ThoroughCleanupType)
    (s : t) : outcome (bool * t) :=
  if is_prune_only clean_type then thorough_prune fuel e clean_type s
  else
    q ← (if s_complete (_simplify s) then restart_simplify_if_new_points path_points_count (_simplify s)
         else Done (_simplify s));
    let s := set_simplify s q in
    if negb (s_complete (_simplify s)) then
      s ← run_detect_simplifications fuel (micros e) s; Done (false, s)
    else if removal_required (_simplify s) then
      s ← remove_points_by_simplify_bitmask (take_sem e) s; Done (false, s)
    else thorough_prune fuel e clean_type s.

(** [run_background_cleanup] in two parts, between which the main thread may run: the
    counts that are read under the semaphore, and the work with them. *)
Definition background_begin (take : bool) (s : t) : option (Z * Z) * t :=
  if negb (_active s) then (None, s)
  else if negb take then (None, s)
  else (Some (_path_points_count s, _path_points_completed_limit s), set_limit s SMARTRTL_POINTS_MAX).

Definition background_work (fuel : nat) (e : io) (path_points_count path_points_completed_limit : Z) (s : t)
  : outcome t :=
  if _thorough_clean_request_ms s >? 0 then
    if negb (_thorough_clean_complete_ms s =? _thorough_clean_request_ms s) then
      '(ok, s) ← thorough_cleanup fuel e path_points_count (_thorough_clean_type s) s;
      if ok : bool then
        Done (set_request s (_thorough_clean_request_ms s) (_thorough_clean_request_ms s)
                (_thorough_clean_type s))
      else Done s
    else Done s
  else
    routine_cleanup fuel e path_points_count path_points_completed_limit
      (set_request s (_thorough_clean_request_ms s) 0 (_thorough_clean_type s)).

Definition run_background_cleanup (fuel : nat) (take : bool) (e : io) (s : t) : outcome t :=
  match background_begin take s with
  | (Some (count, limit), s) => background_work fuel e count limit s
  | (None, s) => Done s
  end.
End rtl.
End SmartRTL.
