(* ===== verification/SmartRTLSpec.v ===== *)
(** The simplification of the way back: at every interruption of the algorithm the
    points that it has given up are within the tolerance of the line through the two
    points kept around them, and the work is bounded by the number of points. *)
From S2P Require Import Prelude Float32 HalStorage HalStorageSpec SmartRTL.
Open Scope urus_scope.
Import SmartRTL.
#[local] Abbreviation length := (@Datatypes.length _).

(** * The order of the numbers *)

Module FloatOrder.
(** A number as a triple in lexicographic order. *)
Definition rank (v : spec_float) : option (Z * Z * Z) :=
  match v with
  | S754_nan => None
  | S754_zero _ => Some (0, 0, 0)
  | S754_infinity s => Some (if s then (-2, 0, 0) else (2, 0, 0))
  | S754_finite s m e => Some (if s then (-1, - e, - Z.pos m) else (1, e, Z.pos m))
  end.

Definition below (a b : Z * Z * Z) : Prop :=
  a.1.1 < b.1.1 \/ a.1.1 = b.1.1 /\ (a.1.2 < b.1.2 \/ a.1.2 = b.1.2 /\ a.2 < b.2).

Lemma f32_lt_rank x y :
  f32_lt x y = true <-> exists a b, rank x = Some a /\ rank y = Some b /\ below a b.
Proof.
  assert (Hr : forall a b, rank x = Some a -> rank y = Some b -> f32_lt x y = true <-> below a b).
  { unfold f32_lt, SFltb, below. intros a b Ha Hb.
    destruct x as [?|[]| |[] m e], y as [?|[]| |[] m' e']; simpl in *; simplify_eq; simpl;
      try (split; [done|lia]); try (split; [lia|done]);
      destruct (Z.compare_spec e e') as [->| |]; simpl; try (split; [done|lia]); try (split; [lia|done]);
      change (Pos.compare_cont Eq m m') with (Pos.compare m m');
      destruct (Pos.compare_spec m m') as [->| |]; simpl; try (split; [done|lia]); split; (lia || done). }
  split.
  - intros Hlt. destruct (rank x) as [a|] eqn:Ha; [destruct (rank y) as [b|] eqn:Hb|].
    + exists a, b. split; [done|]. split; [done|]. by apply (Hr a b).
    + destruct y; try done; try (destruct s; done). by destruct x as [?|[]| |[]].
    + destruct x; try done; try (destruct s; done).
  - intros (a & b & Ha & Hb & Hlt). by apply (Hr a b).
Qed.

Lemma f32_lt_trans x y z : f32_lt x y = true -> f32_lt y z = true -> f32_lt x z = true.
Proof.
  rewrite !f32_lt_rank. intros (a & b & Ha & Hb & Hab) (b' & c & Hb' & Hc & Hbc).
  exists a, c. split; [done|]. split; [done|]. simplify_eq. unfold below in *. lia.
Qed.

Lemma f32_lt_below x y z : f32_lt x y = true -> z <> S754_nan -> f32_lt z y = false -> f32_lt x z = true.
Proof.
  rewrite !f32_lt_rank. intros (a & b & Ha & Hb & Hab) Hz Hn.
  destruct (rank z) as [c|] eqn:Hc.
  - exists a, c. split; [done|]. split; [done|]. unfold below in *.
    assert (~ (exists a b, rank z = Some a /\ rank y = Some b /\ below a b)) as Hn'.
    { rewrite <- f32_lt_rank. by rewrite Hn. }
    destruct (decide (c.1.1 < b.1.1 \/ c.1.1 = b.1.1 /\ (c.1.2 < b.1.2 \/ c.1.2 = b.1.2 /\ c.2 < b.2))) as [Hd|].
    + exfalso. apply Hn'. by exists c, b.
    + lia.
  - by destruct z as [?|[]| |[]].
Qed.

Lemma f32_lt_number x y : f32_lt x y = true -> y <> S754_nan.
Proof. rewrite f32_lt_rank. by intros (a & b & Ha & Hb & Hab) ->. Qed.
End FloatOrder.
Import FloatOrder.

(** * The marks *)

Module Marks.
Import BitmaskSpec.
Abbreviation bit := BitmaskSpec.bit.

Record ok (b : Bitmask.t) : Prop := {
  ok_wf : BitmaskSpec.wf b;
  ok_numbits : Bitmask.numbits b = SMARTRTL_POINTS_MAX
}.

Definition all_set : Bitmask.t := Bitmask.mk 500 16 (replicate 15 0xffffffff ++ [0xfffff]).

Lemma all_set_bit k : 0 <= k < SMARTRTL_POINTS_MAX -> bit all_set k = true.
Proof. apply (forall_range (fun k => bit all_set k) 0 SMARTRTL_POINTS_MAX). by vm_compute. Qed.

Lemma all_set_ok : ok all_set.
Proof.
  split; [|done]. constructor; simpl; [done|done|done| |].
  - repeat constructor; lia.
  - intros j Hj. cbn in Hj. unfold bit. cbn [Bitmask.bits all_set]. change 0xffffffff with (2 ^ 32 - 1).
    destruct (decide (j < 512)) as [Hl|].
    + replace (Z.to_nat (j / 32)) with 15%nat by zlia. cbn [nth replicate app].
      apply (testbit_above _ 20); [lia|]. zlia.
    + rewrite nth_overflow; [apply Z.bits_0|]. simpl. zlia.
Qed.

Lemma setall_spec b : ok b -> Bitmask.setall b = Some all_set.
Proof.
  intros [Hw Hn]. destruct b as [n w l]. cbn [Bitmask.numbits] in Hn. subst n.
  pose proof (wf_words _ Hw) as Hww. pose proof (wf_length _ Hw) as Hl. cbn in Hww, Hl.
  change ((SMARTRTL_POINTS_MAX + 31) / 32) with 16 in Hww. subst w.
  assert (Hl' : length l = 16%nat) by lia. clear Hl Hw.
  unfold Bitmask.setall. cbn [Bitmask.numbits Bitmask.numwords Bitmask.bits].
  change (Z.to_nat (16 - 1)) with 15%nat.
  do 16 (destruct l as [|? l]; [done|]). destruct l; [|done]. reflexivity.
Qed.

Lemma get_ok b k : ok b -> 0 <= k < SMARTRTL_POINTS_MAX -> Bitmask.get b k = Some (bit b k).
Proof. intros [Hw Hn] Hk. apply get_spec; [done|]. by rewrite Hn. Qed.

Lemma clear_ok b k : ok b -> 0 <= k < SMARTRTL_POINTS_MAX -> exists b', Bitmask.clear b k = Some b' /\ ok b' /\
  forall j, 0 <= j -> bit b' j = bit b j && negb (k =? j).
Proof.
  intros [Hw Hn] Hk. destruct (clear_spec b k Hw) as (b' & He & Hw' & Hn' & Hb); [by rewrite Hn|].
  exists b'. split; [done|]. split; [|done]. split; [done|]. by rewrite Hn'.
Qed.

Lemma clear_between_spec n : forall i b, ok b -> 0 <= i -> i + Z.of_nat n <= SMARTRTL_POINTS_MAX ->
  exists b', clear_between n i b = Done b' /\ ok b' /\
    forall j, 0 <= j -> bit b' j = bit b j && negb ((i <=? j) && (j <? i + Z.of_nat n)).
Proof.
  unfold SMARTRTL_POINTS_MAX. induction n as [|n IH]; intros i b Hb Hi Hn.
  - exists b. split; [done|]. split; [done|]. intros j Hj.
    destruct (Z.leb_spec i j), (Z.ltb_spec j (i + Z.of_nat 0)); simpl; try lia; by rewrite andb_true_r.
  - destruct (clear_ok b i Hb ltac:(unfold SMARTRTL_POINTS_MAX; lia)) as (b1 & E1 & Hb1 & Hbit1).
    simpl. rewrite E1. cbn [access mbind outcome_bind]. rewrite u16_small by lia.
    destruct (IH (i + 1) b1 Hb1 ltac:(lia) ltac:(lia)) as (b2 & E2 & Hb2 & Hbit2).
    exists b2. split; [done|]. split; [done|]. intros j Hj. rewrite Hbit2, Hbit1 by done.
    rewrite <- andb_assoc. f_equal.
    destruct (Z.eqb_spec i j), (Z.leb_spec (i + 1) j), (Z.leb_spec i j), (Z.ltb_spec j (i + 1 + Z.of_nat n)),
      (Z.ltb_spec j (i + Z.of_nat (S n))); simpl; done || lia.
Qed.
End Marks.
Import Marks.

(** * Simplification *)

Section simplification.
Context (_accuracy : spec_float).
#[local] Abbreviation epsilon := (SMARTRTL_SIMPLIFY_EPSILON _accuracy).
#[local] Abbreviation MAX := SMARTRTL_POINTS_MAX.

(** The distance of the point [k] from the line through the points [s] and [e]. *)
Definition dist (path : list Vector3f) (k s e : Z) : spec_float :=
  match arr_get path k, arr_get path s, arr_get path e with
  | Some p, Some a, Some b => Vector3.distance_to_segment p a b
  | _, _, _ => S754_nan
  end.

Lemma farthest_spec n : forall i path b s e m f, ok b ->
  0 <= i -> i + Z.of_nat n <= MAX -> i + Z.of_nat n <= zlen path ->
  0 <= s < zlen path -> 0 <= e < zlen path -> m <> S754_nan ->
  exists m' f', farthest n i path b s e m f = Done (m', f') /\ m' <> S754_nan /\
    (f32_lt epsilon m = true -> f32_lt epsilon m' = true) /\
    (forall k, i <= k < i + Z.of_nat n -> bit b k = true -> f32_lt epsilon (dist path k s e) = true ->
       f32_lt epsilon m' = true) /\
    (m' = m /\ f' = f \/ i <= f' < i + Z.of_nat n).
Proof.
  unfold SMARTRTL_POINTS_MAX. induction n as [|n IH]; intros i path b s e m f Hb Hi Hn Hp Hs He Hm.
  - exists m, f. split; [done|]. split; [done|]. split; [done|]. split; [lia|by left].
  - simpl. rewrite get_ok by (done || unfold SMARTRTL_POINTS_MAX; lia). cbn [access mbind outcome_bind].
    rewrite u16_small by lia.
    assert (Hrest : forall m1 f1, m1 <> S754_nan -> (f32_lt epsilon m = true -> f32_lt epsilon m1 = true) ->
      (bit b i = true -> f32_lt epsilon (dist path i s e) = true -> f32_lt epsilon m1 = true) ->
      (m1 = m /\ f1 = f \/ f1 = i) -> exists m' f', farthest n (i + 1) path b s e m1 f1 = Done (m', f') /\
      m' <> S754_nan /\ (f32_lt epsilon m = true -> f32_lt epsilon m' = true) /\
      (forall k, i <= k < i + Z.of_nat (S n) -> bit b k = true -> f32_lt epsilon (dist path k s e) = true ->
         f32_lt epsilon m' = true) /\
      (m' = m /\ f' = f \/ i <= f' < i + Z.of_nat (S n))).
    { intros m1 f1 Hm1 Hle Hk1 Hf1.
      destruct (IH (i + 1) path b s e m1 f1 Hb) as (m' & f' & E & Hm' & Hle' & Hk' & Hf'); [lia..|done|].
      exists m', f'. split; [done|]. split; [done|]. split; [auto|]. split.
      - intros k Hk Hbk Hd. destruct (decide (k = i)) as [->|]; [auto|]. apply (Hk' k); [lia|done|done].
      - destruct Hf' as [[-> ->]|]; [destruct Hf1 as [[-> ->]| ->]; [by left|right; lia]|right; lia]. }
    destruct (bit b i) eqn:Hbi; [|apply Hrest; auto; done].
    destruct (arr_get_Some path i) as [p Hpi]; [lia|]. destruct (arr_get_Some path s Hs) as [a Ha].
    destruct (arr_get_Some path e He) as [c Hc]. rewrite Hpi, Ha, Hc. cbn [access mbind outcome_bind].
    assert (Hd : dist path i s e = Vector3.distance_to_segment p a c) by (unfold dist; by rewrite Hpi, Ha, Hc).
    rewrite <- Hd. destruct (f32_lt m (dist path i s e)) eqn:Hlt; apply Hrest; auto.
    + by apply (f32_lt_number m).
    + intros Hem. by apply (f32_lt_trans _ m).
    + intros _ Hed. by apply (f32_lt_below _ (dist path i s e)).
Qed.

(** A point that is given up: it lies between two kept ones, next to each other, and
    not farther than the tolerance from the line through them. *)
Definition dropped (path : list Vector3f) (n : Z) (b : Bitmask.t) (k : Z) : Prop :=
  exists s e, 0 <= s < k /\ k < e < n /\ bit b s = true /\ bit b e = true /\
    (forall j, s < j < e -> bit b j = false) /\ f32_lt epsilon (dist path k s e) = false.

(** The segments on the stack, from the bottom, join the points [lo] and [hi]. *)
Fixpoint chain (lo hi : Z) (l : list (Z * Z)) : Prop :=
  match l with
  | [] => lo = hi
  | (s, e) :: l => s = lo /\ s < e /\ chain e hi l
  end.

Definition pending (q : simplify_t) : list (Z * Z) := take (Z.to_nat (stack_count q)) (stack q).

(** The number of steps that a segment can take. *)
Definition weight (x : Z * Z) : Z := Z.max 1 (2 * (x.2 - x.1) - 1).
Definition work (l : list (Z * Z)) : Z := foldr (fun x w => weight x + w) 0 l.

(** With [strict], the points given up are as they should be on this path; without, on
    whatever path they were compared. *)
Context (strict : bool).

Record core (path : list Vector3f) (q : simplify_t) : Prop := {
  core_marks : ok (bitmask q);
  core_count : 0 <= s_points_count q <= MAX;
  core_path : s_points_count q <= zlen path;
  core_stack : 0 <= stack_count q <= stack_max q;
  core_max : stack_max q < 65535;
  core_dropped : strict = true -> forall k, 0 <= k < MAX -> bit (bitmask q) k = false ->
    dropped path (s_points_count q) (bitmask q) k;
  core_pending : stack_count q = 0 \/
    (exists lo hi, chain lo hi (pending q) /\ 0 <= lo /\ hi < s_points_count q /\
       forall k, 0 <= k <= hi -> bit (bitmask q) k = true) \/
    (exists s e, pending q = [(s, e)] /\ e <= s)
}.

(** Between two calls: an empty stack is either the start or the end. *)
Definition inv (path : list Vector3f) (q : simplify_t) : Prop :=
  core path q /\
  (s_complete q = false -> stack_count q = 0 -> forall k, 0 <= k < MAX -> bit (bitmask q) k = true).

(** With room for a segment between any two neighbours the stack cannot overflow. *)
Definition room (q : simplify_t) : Prop := s_points_count q <= stack_max q + 1.

Lemma chain_snoc l : forall lo hi s e,
  chain lo hi (l ++ [(s, e)]) <-> chain lo s l /\ s < e /\ e = hi.
Proof.
  induction l as [|[a b] l IH]; intros lo hi s e; simpl; [split; intros; lia|]. rewrite IH. tauto.
Qed.

Lemma chain_segments l : forall lo hi, chain lo hi l -> zlen l <= hi - lo.
Proof.
  induction l as [|[a b] l IH]; intros lo hi; simpl; [lia|].
  intros (-> & Hab & Hc%IH). lia.
Qed.

Lemma work_snoc l x : work (l ++ [x]) = work l + weight x.
Proof. unfold work. induction l as [|y l IH]; simpl; [lia|]. rewrite IH. lia. Qed.

Lemma chain_work l : forall lo hi, chain lo hi l -> work l <= 2 * (hi - lo) - zlen l.
Proof.
  induction l as [|[a b] l IH]; intros lo hi; [simpl; lia|]. intros (-> & Hab & Hc%IH).
  change (work ((lo, b) :: l)) with (Z.max 1 (2 * (b - lo) - 1) + work l). rewrite length_cons. lia.
Qed.

(** The top of the stack, and two elements in its place. *)
Lemma pending_top q : 0 < stack_count q -> stack_count q <= stack_max q ->
  exists x, arr_get (stack q) (stack_count q - 1) = Some x /\
    pending q = take (Z.to_nat (stack_count q - 1)) (stack q) ++ [x].
Proof.
  unfold stack_max. intros Hp Hm. destruct (arr_get_Some (stack q) (stack_count q - 1)) as [x Hx]; [lia|].
  exists x. split; [done|]. unfold pending. rewrite arr_get_lookup in Hx by lia.
  replace (Z.to_nat (stack_count q)) with (S (Z.to_nat (stack_count q - 1))) by lia.
  by apply take_S_r.
Qed.

Lemma take_push {A} (c : nat) (x y : A) (l : list A) : (c + 1 < length l)%nat ->
  take (c + 2) (<[(c + 1)%nat := y]> (<[c := x]> l)) = (take c l ++ [x]) ++ [y].
Proof.
  intros Hl. replace (c + 2)%nat with (S (c + 1)) by lia.
  rewrite (take_S_r _ _ y) by (apply list_lookup_insert_eq; rewrite length_insert; lia).
  rewrite take_insert_ge by lia. replace (c + 1)%nat with (S c) by lia.
  rewrite (take_S_r _ _ x) by (apply list_lookup_insert_eq; lia).
  by rewrite take_insert_ge by lia.
Qed.

Lemma chain_le l : forall lo hi, chain lo hi l -> lo <= hi.
Proof. intros lo hi Hc%chain_segments. lia. Qed.

Lemma pending_length q : 0 <= stack_count q <= stack_max q -> zlen (pending q) = stack_count q.
Proof. unfold pending, stack_max. intros ?. rewrite length_take. lia. Qed.

(** The points between the ends of the top segment are given up. *)
Lemma core_drop path q s e b : core path q -> 0 < stack_count q ->
  pending q = take (Z.to_nat (stack_count q - 1)) (stack q) ++ [(s, e)] -> ok b ->
  (forall k, s < k < e -> bit (bitmask q) k = true -> f32_lt epsilon (dist path k s e) = false) ->
  (forall j, 0 <= j -> bit b j = bit (bitmask q) j && negb ((s <? j) && (j <? e))) -> forall r,
  core path (Simplify (s_complete q) r (s_points_count q) (s_points_completed q) (stack q) (stack_count q - 1) b).
Proof.
  intros Hc Hp Hpend Hb Hfar Hbit r.
  assert (Hone : forall j, 0 <= j -> bit b j = true <-> bit (bitmask q) j = true /\ ~ (s < j < e)).
  { intros j Hj. rewrite Hbit by done. destruct (bit (bitmask q) j), (Z.ltb_spec s j), (Z.ltb_spec j e);
      simpl; split; try done; try lia. }
  assert (Hzero : forall j, 0 <= j -> bit b j = false <-> bit (bitmask q) j = false \/ s < j < e).
  { intros j Hj. rewrite Hbit by done. destruct (bit (bitmask q) j), (Z.ltb_spec s j), (Z.ltb_spec j e);
      simpl; split; try done; try lia; auto; intros [?|?]; done || lia. }
  pose proof (core_stack _ _ Hc) as Hst. destruct (core_pending _ _ Hc) as [|Hch]; [lia|].
  assert (Hcases : (exists lo, chain lo e (pending q) /\ chain lo s (take (Z.to_nat (stack_count q - 1)) (stack q)) /\
      0 <= lo /\ s < e /\ e < s_points_count q /\ forall k, 0 <= k <= e -> bit (bitmask q) k = true) \/
    stack_count q = 1 /\ e <= s).
  { destruct Hch as [(lo & hi & Hch & Hlo & Hhi & Hset)|(s' & e' & Heq & Hle)].
    - left. exists lo. pose proof Hch as Hch'. rewrite Hpend, chain_snoc in Hch'.
      destruct Hch' as (Hch1 & Hse & ->). auto 10.
    - right. pose proof (pending_length q Hst) as Hl. rewrite Heq in Hl. simpl in Hl. rewrite Hpend in Heq.
      destruct (take _ _) as [|? [|??]]; simplify_eq/=. lia. }
  constructor; cbn [bitmask s_points_count stack_count stack s_complete]; try apply Hc.
  - done.
  - unfold stack_max in *. cbn [stack]. lia.
  - intros Hstrict k Hk Hf. apply Hzero in Hf; [|lia].
    assert (Hold : bit (bitmask q) k = false -> dropped path (s_points_count q) b k).
    { intros Hf0. destruct (core_dropped _ _ Hc Hstrict k Hk Hf0) as (s1 & e1 & Hs1 & He1 & Hbs & Hbe & Hmid & Hd).
      exists s1, e1. split; [done|]. split; [done|].
      destruct Hcases as [(lo & _ & _ & Hlo & Hse & Hen & Hset)|[_ Hle]].
      - assert (Hk' : e < k).
        { destruct (decide (k <= e)); [|lia]. rewrite Hset in Hf0 by lia. done. }
        assert (e <= s1).
        { destruct (decide (s1 < e)); [|lia]. specialize (Hmid e ltac:(lia)). rewrite Hset in Hmid by lia. done. }
        split; [apply Hone; [lia|split; [done|lia]]|]. split; [apply Hone; [lia|split; [done|lia]]|].
        split; [|done]. intros j Hj. apply Hzero; [lia|]. left. by apply Hmid.
      - split; [apply Hone; [lia|split; [done|lia]]|]. split; [apply Hone; [lia|split; [done|lia]]|].
        split; [|done]. intros j Hj. apply Hzero; [lia|]. left. by apply Hmid. }
    destruct Hf as [Hf0|Hf]; [by apply Hold|].
    destruct Hcases as [(lo & _ & Hch1%chain_le & Hlo & Hse & Hen & Hset)|[_ Hle]]; [|lia].
    exists s, e. split; [lia|]. split; [lia|].
    split; [apply Hone; [lia|split; [apply Hset; lia|lia]]|].
    split; [apply Hone; [lia|split; [apply Hset; lia|lia]]|].
    split; [intros j Hj; apply Hzero; [lia|by right]|].
    apply Hfar; [done|]. apply Hset. lia.
  - destruct Hcases as [(lo & _ & Hch1 & Hlo & Hse & Hen & Hset)|[Hone1 Hle]]; [|left; lia].
    right. left. exists lo, s. split; [done|]. split; [done|]. split; [lia|].
    intros k Hk. apply Hone; [lia|]. split; [apply Hset|]; lia.
Qed.

(** Two segments in the place of the top one. *)
Lemma core_split path q s e f : core path q -> 0 < stack_count q -> stack_count q < stack_max q ->
  pending q = take (Z.to_nat (stack_count q - 1)) (stack q) ++ [(s, e)] -> s < f < e ->
  exists st1 st, arr_set (stack q) (stack_count q - 1) (s, f) = Some st1 /\
    arr_set st1 (stack_count q) (f, e) = Some st /\
    let q' := Simplify (s_complete q) (removal_required q) (s_points_count q) (s_points_completed q) st
                (stack_count q + 1) (bitmask q) in
    core path q' /\ work (pending q') = work (pending q) - 1 /\ stack_max q' = stack_max q /\
    pending q' = (take (Z.to_nat (stack_count q - 1)) (stack q) ++ [(s, f)]) ++ [(f, e)].
Proof.
  intros Hc Hp Hm Hpend Hf. unfold stack_max in *.
  rewrite arr_set_Some by lia. eexists _, _. split; [reflexivity|].
  rewrite arr_set_Some by (rewrite length_insert; lia). split; [reflexivity|]. cbn zeta.
  set (st := <[Z.to_nat (stack_count q) := (f, e)]> _). cbn [stack].
  assert (Hl : zlen st = zlen (stack q)) by (unfold st; by rewrite !length_insert).
  assert (Hpend' : take (Z.to_nat (stack_count q + 1)) st
      = (take (Z.to_nat (stack_count q - 1)) (stack q) ++ [(s, f)]) ++ [(f, e)]).
  { unfold st. rewrite <- take_push by lia.
    replace (Z.to_nat (stack_count q)) with (Z.to_nat (stack_count q - 1) + 1)%nat by lia. f_equal. lia. }
  pose proof (core_stack _ _ Hc) as Hst. unfold stack_max in Hst.
  split; [|split; [|done]].
  - constructor; unfold stack_max, pending; cbn [bitmask s_points_count stack_count stack s_complete];
      rewrite ?Hl, ?Hpend'; try apply Hc; [lia|].
    right. left. destruct (core_pending _ _ Hc) as [|[(lo & hi & Hch & Hlo & Hhi & Hset)|(s' & e' & Heq & Hle)]].
    + lia.
    + rewrite Hpend, chain_snoc in Hch. exists lo, hi. rewrite !chain_snoc. intuition lia.
    + rewrite Hpend in Heq. destruct (take _ _) as [|? [|??]]; simplify_eq/=. lia.
  - unfold pending. cbn [stack stack_count]. rewrite Hpend'. fold (pending q). rewrite Hpend.
    rewrite !work_snoc. unfold weight. cbn [fst snd]. lia.
Qed.

(** * The Ramer-Douglas-Peucker algorithm *)

(** The farthest of [n] points from [i] on. *)
Fixpoint argmax (path : list Vector3f) (n : nat) (i s e : Z) (m : spec_float) (f : Z) : spec_float * Z :=
  match n with
  | O => (m, f)
  | S n => if f32_lt m (dist path i s e) then argmax path n (i + 1) s e (dist path i s e) i
           else argmax path n (i + 1) s e m f
  end.
Definition farthest_point (path : list Vector3f) (s e : Z) : spec_float * Z :=
  argmax path (Z.to_nat (e - s - 1)) (s + 1) s e (f32_of_Z 0) s.

(** The points that the recursive algorithm keeps between [s] and [e]. *)
Inductive rdp (path : list Vector3f) : Z -> Z -> list Z -> Prop :=
| rdp_flat s e : f32_lt epsilon (farthest_point path s e).1 = false -> rdp path s e []
| rdp_split s e l r : f32_lt epsilon (farthest_point path s e).1 = true ->
    rdp path s (farthest_point path s e).2 l -> rdp path (farthest_point path s e).2 e r ->
    rdp path s e (l ++ (farthest_point path s e).2 :: r).

Definition kept (b : Bitmask.t) (lo hi : Z) : list Z := filter (fun k => bit b k = true) (seqZ lo (hi - lo)).

(** What the algorithm keeps of the segments on the stack. *)
Inductive pieces (path : list Vector3f) : list (Z * Z) -> list Z -> Prop :=
| pieces_nil : pieces path [] []
| pieces_snoc l s e R ks : pieces path l R -> rdp path s e ks -> pieces path (l ++ [(s, e)]) (R ++ s :: ks).

(** The stack and the marks together are a state of the recursive algorithm on the
    segment from [s0] to the last point. *)
Definition recursion (path : list Vector3f) (s0 : Z) (q : simplify_t) : Prop :=
  exists hi, chain s0 hi (pending q) /\ hi <= s_points_count q - 1 /\
    (forall k, 0 <= k <= hi -> bit (bitmask q) k = true) /\
    forall R, pieces path (pending q) R -> exists T,
      s0 :: T = R ++ kept (bitmask q) hi (s_points_count q - 1) /\ rdp path s0 (s_points_count q - 1) T.

Lemma pieces_snoc_inv path l s e R : pieces path (l ++ [(s, e)]) R ->
  exists R0 ks, R = R0 ++ s :: ks /\ pieces path l R0 /\ rdp path s e ks.
Proof.
  intros Hp. inversion Hp as [Heq|l1 s1 e1 R1 ks1 Hp1 Hr Heq].
  - by destruct l.
  - apply app_inj_tail in Heq as [-> [= -> ->]]. by exists R1, ks1.
Qed.

Lemma farthest_argmax n : forall i path b s e m f, ok b ->
  0 <= i -> i + Z.of_nat n <= MAX -> i + Z.of_nat n <= zlen path ->
  0 <= s < zlen path -> 0 <= e < zlen path -> (forall k, i <= k < i + Z.of_nat n -> bit b k = true) ->
  farthest n i path b s e m f = Done (argmax path n i s e m f).
Proof.
  unfold SMARTRTL_POINTS_MAX. induction n as [|n IH]; intros i path b s e m f Hb Hi Hn Hp Hs He Hset; [done|].
  simpl. rewrite get_ok, Hset by (done || unfold SMARTRTL_POINTS_MAX; lia). cbn [access mbind outcome_bind].
  rewrite u16_small by lia. unfold dist.
  destruct (arr_get_Some path i) as [p Hpi]; [lia|]. destruct (arr_get_Some path s Hs) as [a Ha].
  destruct (arr_get_Some path e He) as [c Hc]. rewrite Hpi, Ha, Hc. cbn [access mbind outcome_bind].
  destruct (f32_lt m _); apply IH; try done; try lia; intros k Hk; apply Hset; lia.
Qed.

Lemma kept_split b lo mid hi : lo <= mid <= hi -> kept b lo hi = kept b lo mid ++ kept b mid hi.
Proof.
  intros Hm. unfold kept. replace (hi - lo) with ((mid - lo) + (hi - mid)) by lia.
  rewrite seqZ_app by lia. rewrite filter_app. do 3 f_equal; lia.
Qed.

Lemma kept_none b lo hi : (forall k, lo <= k < hi -> bit b k = false) -> kept b lo hi = [].
Proof.
  intros Hn. unfold kept. apply elem_of_nil_inv. intros k Hk. apply list_elem_of_filter in Hk as [Ht Hk].
  apply elem_of_seqZ in Hk. by rewrite Hn in Ht by lia.
Qed.

Lemma kept_one b lo : bit b lo = true -> kept b lo (lo + 1) = [lo].
Proof.
  intros Ht. unfold kept. replace (lo + 1 - lo) with 1 by lia. rewrite seqZ_cons by lia.
  rewrite filter_cons_True by done. by replace (Z.pred 1) with 0 by lia.
Qed.

Lemma kept_ext b b' lo hi : (forall k, lo <= k < hi -> bit b k = bit b' k) -> kept b lo hi = kept b' lo hi.
Proof.
  intros He. unfold kept.
  assert (Hl : Forall (fun k => bit b k = bit b' k) (seqZ lo (hi - lo))).
  { apply Forall_forall. intros k Hk%elem_of_seqZ. apply He. lia. }
  induction Hl as [|k l Hk _ IH]; [done|]. rewrite !filter_cons. by rewrite Hk, IH.
Qed.

(** Both steps keep the state of the recursive algorithm. *)
Lemma recursion_split path s0 q s e st : core path q -> 0 < stack_count q ->
  pending q = take (Z.to_nat (stack_count q - 1)) (stack q) ++ [(s, e)] ->
  f32_lt epsilon (farthest_point path s e).1 = true -> s < (farthest_point path s e).2 < e ->
  take (Z.to_nat (stack_count q + 1)) st = (take (Z.to_nat (stack_count q - 1)) (stack q) ++
    [(s, (farthest_point path s e).2)]) ++ [((farthest_point path s e).2, e)] ->
  recursion path s0 q ->
  recursion path s0 (Simplify (s_complete q) (removal_required q) (s_points_count q) (s_points_completed q) st
                (stack_count q + 1) (bitmask q)).
Proof.
  intros Hc Hp Hpend Hfar Hin Hst (hi & Hch & Hhi & Hset & Href). exists hi.
  unfold pending at 1 2. cbn [stack stack_count s_points_count bitmask]. rewrite Hst.
  rewrite Hpend, chain_snoc in Hch. rewrite !chain_snoc. split; [intuition lia|]. split; [done|]. split; [done|].
  intros R (R1 & r & -> & HR1 & Hr)%pieces_snoc_inv. apply pieces_snoc_inv in HR1 as (R2 & l & -> & HR2 & Hl).
  destruct (Href (R2 ++ s :: (l ++ (farthest_point path s e).2 :: r))) as (T & HT & Hrdp).
  { rewrite Hpend. constructor; [done|]. by constructor. }
  exists T. split; [|done]. rewrite HT, <- !app_assoc. simpl. by rewrite <- app_assoc.
Qed.

Lemma recursion_drop path s0 q s e b r : core path q -> 0 < stack_count q -> 0 <= s < e ->
  pending q = take (Z.to_nat (stack_count q - 1)) (stack q) ++ [(s, e)] ->
  f32_lt epsilon (farthest_point path s e).1 = false ->
  (forall k, 0 <= k <= e -> bit (bitmask q) k = true) ->
  (forall j, 0 <= j -> bit b j = bit (bitmask q) j && negb ((s <? j) && (j <? e))) ->
  recursion path s0 q ->
  recursion path s0
    (Simplify (s_complete q) r (s_points_count q) (s_points_completed q) (stack q) (stack_count q - 1) b).
Proof.
  intros Hc Hp Hs Hpend Hfar Hset Hbit (hi & Hch & Hhi & _ & Href). exists s.
  unfold pending at 1 2. cbn [stack stack_count s_points_count bitmask].
  rewrite Hpend, chain_snoc in Hch. destruct Hch as (Hch & Hse & <-).
  split; [done|]. split; [lia|]. split.
  { intros k Hk. rewrite Hbit, Hset by lia. rewrite (proj2 (Z.ltb_ge s k)) by lia. done. }
  intros R HR. destruct (Href (R ++ [s])) as (T & HT & Hrdp).
  { rewrite Hpend. constructor; [done|]. by constructor. }
  exists T. split; [|done]. rewrite HT, <- app_assoc. f_equal.
  rewrite (kept_split b s (s + 1) _), (kept_split b (s + 1) e _) by lia. rewrite (kept_one b s), (kept_none b (s + 1) e).
  - simpl. f_equal. apply kept_ext. intros k Hk. rewrite Hbit by lia.
    rewrite (proj2 (Z.ltb_ge k e)) by lia. by rewrite andb_false_r, andb_true_r.
  - intros k Hk. rewrite Hbit by lia. rewrite (proj2 (Z.ltb_lt s k)), (proj2 (Z.ltb_lt k e)) by lia.
    by rewrite andb_false_r.
  - rewrite Hbit, Hset by lia. by rewrite Z.ltb_irrefl.
Qed.

(** The top segment of the stack: the ends out of order, or a segment of marked points. *)
Definition top_segment (q : simplify_t) (s e : Z) : Prop :=
  e <= s \/ 0 <= s < e /\ e < s_points_count q /\ stack_count q <= s + 1 /\
     forall k, 0 <= k <= e -> bit (bitmask q) k = true.

Lemma core_top path q : core path q -> 0 < stack_count q -> exists s e,
  arr_get (stack q) (stack_count q - 1) = Some (s, e) /\
  pending q = take (Z.to_nat (stack_count q - 1)) (stack q) ++ [(s, e)] /\
  top_segment q s e.
Proof.
  unfold top_segment. intros Hc Hp. pose proof (core_stack _ _ Hc) as Hst.
  destruct (pending_top q Hp) as ([s e] & Hx & Hpend); [lia|]. exists s, e. split; [done|]. split; [done|].
  destruct (core_pending _ _ Hc) as [|[(lo & hi & Hch & Hlo & Hhi & Hset)|(s' & e' & Heq & Hle)]].
  - lia.
  - right. rewrite Hpend, chain_snoc in Hch. destruct Hch as (Hch1 & Hse & ->).
    apply chain_segments in Hch1. rewrite length_take in Hch1. unfold stack_max in Hst. auto with lia.
  - left. rewrite Hpend in Heq. destruct (take _ _) as [|? [|??]]; by simplify_eq/=.
Qed.

(** What a call leaves: the numbers of points are kept, and when the stack cannot
    overflow a call that completes has nothing left to do. *)
Record after (path : list Vector3f) (q q' : simplify_t) : Prop := {
  after_inv : inv path q';
  after_count : s_points_count q' = s_points_count q;
  after_max : stack_max q' = stack_max q;
  after_done : s_complete q' = true -> stack_count q' = 0 /\ s_points_completed q' = s_points_count q';
  after_open : s_complete q' = false -> stack_count q' <> 0 /\ s_points_completed q' = s_points_completed q
}.

Hypothesis epsilon_pos : f32_lt epsilon (f32_of_Z 0) = false.

Lemma top_farthest path q s e : core path q -> top_segment q s e ->
  let n := Z.to_nat (e - s - 1) in
  exists m f, farthest n (u16 (s + 1)) path (bitmask q) s e (f32_of_Z 0) s = Done (m, f) /\
    (f32_lt epsilon m = true -> s < f < e) /\ (s < e -> farthest_point path s e = (m, f)) /\
    (f32_lt epsilon m = false -> forall k, s < k < e -> bit (bitmask q) k = true ->
       f32_lt epsilon (dist path k s e) = false).
Proof.
  intros Hc Hcase n. pose proof (core_count _ _ Hc) as Hn. pose proof (core_path _ _ Hc) as Hpath.
  unfold SMARTRTL_POINTS_MAX in Hn. destruct Hcase as [Hle|(Hs & He & _ & Hset)].
  - exists (f32_of_Z 0), s. subst n. replace (Z.to_nat (e - s - 1)) with O by lia.
    split; [done|]. split; [by rewrite epsilon_pos|]. split; lia.
  - rewrite u16_small by lia.
    pose proof (farthest_argmax n (s + 1) path (bitmask q) s e (f32_of_Z 0) s (core_marks _ _ Hc)) as Harg.
    destruct (farthest_spec n (s + 1) path (bitmask q) s e (f32_of_Z 0) s (core_marks _ _ Hc))
      as (m & f & E & Hm & _ & Hall & Hf); try (subst n; unfold SMARTRTL_POINTS_MAX; lia); [done|].
    exists m, f. split; [done|]. split; [|split].
    + intros Hem. destruct Hf as [[-> ->]|Hf]; [by rewrite epsilon_pos in Hem|]. subst n. lia.
    + intros _. rewrite Harg in E; try (subst n; unfold SMARTRTL_POINTS_MAX; lia); [by injection E|].
      intros j Hj. apply Hset. subst n. lia.
    + intros Hem j Hj Hb. destruct (f32_lt epsilon (dist path j s e)) eqn:Hd; [|done].
      rewrite (Hall j) in Hem; [done|subst n; lia|done|done].
Qed.

Lemma top_cleared path q s e : core path q -> top_segment q s e ->
  exists b, clear_between (Z.to_nat (e - s - 1)) (u16 (s + 1)) (bitmask q) = Done b /\ ok b /\
    forall j, 0 <= j -> bit b j = bit (bitmask q) j && negb ((s <? j) && (j <? e)).
Proof.
  intros Hc Hcase. pose proof (core_count _ _ Hc) as Hn. unfold SMARTRTL_POINTS_MAX in Hn.
  destruct Hcase as [Hle|(Hs & He & _ & _)].
  - exists (bitmask q). replace (Z.to_nat (e - s - 1)) with O by lia.
    split; [done|]. split; [apply Hc|]. intros j Hj.
    destruct (Z.ltb_spec s j), (Z.ltb_spec j e); simpl; try lia; by rewrite andb_true_r.
  - rewrite u16_small by lia. destruct (clear_between_spec (Z.to_nat (e - s - 1)) (s + 1) (bitmask q)) as (b & E & Hb & Hbit);
      [apply Hc|lia|unfold SMARTRTL_POINTS_MAX; lia|].
    exists b. split; [done|]. split; [done|]. intros j Hj. rewrite Hbit by done. f_equal. f_equal.
    destruct (Z.leb_spec (s + 1) j), (Z.ltb_spec s j), (Z.ltb_spec j e),
      (Z.ltb_spec j (s + 1 + Z.of_nat (Z.to_nat (e - s - 1)))); simpl; done || lia.
Qed.

(** A run of the loop from the reading [k] of the clock on comes closer to the end,
    unless its time is over before it begins. *)
Definition closer (micros : nat -> Z) (k : nat) (q q' : simplify_t) : Prop :=
  s_complete q' = true \/ work (pending q') <= work (pending q) /\
    (u32 (micros k - micros O) <= SMARTRTL_SIMPLIFY_TIME_US -> work (pending q') < work (pending q)).

Lemma closer_step micros k q q1 q' : work (pending q1) < work (pending q) -> closer micros (S k) q1 q' ->
  closer micros k q q'.
Proof. intros Hw [?|[Hle _]]; [by left|]. right. lia. Qed.

Lemma work_nonneg l : 0 <= work l.
Proof. unfold work, weight. induction l as [|[a b] l IH]; simpl; lia. Qed.

Lemma simplify_loop_spec micros fuel : forall k path q,
  core path q -> s_complete q = false -> work (pending q) < Z.of_nat fuel ->
  match simplify_loop _accuracy fuel micros k path q with
  | Done q' => after path q q' /\ (forall s0, recursion path s0 q -> recursion path s0 q') /\ closer micros k q q'
  | Undefined => ~ room q
  | OutOfFuel => False
  end.
Proof.
  induction fuel as [|fuel IH]; intros k path q Hc Hq Hw; [pose proof (work_nonneg (pending q)); lia|].
  pose proof (core_stack _ _ Hc) as Hst. pose proof (core_max _ _ Hc) as Hmax. cbn [simplify_loop].
  rewrite Z.gtb_ltb. destruct (Z.ltb_spec 0 (stack_count q)) as [Hp|Hz].
  2:{ split; [|by split; [|left]]. constructor; cbn; try done; [split; [by destruct Hc|done]|].
      intros _. split; [lia|done]. }
  destruct (Z.gtb_spec (u32 (micros k - micros O)) SMARTRTL_SIMPLIFY_TIME_US).
  { split; [|split; [done|right; lia]]. constructor; try done; [split; [done|intros; lia]| |]; [by rewrite Hq|].
    intros _. split; [lia|done]. }
  destruct (core_top path q Hc Hp) as (s & e & Hx & Hpend & Hcase). rewrite Hx. cbn [access mbind outcome_bind].
  destruct (top_farthest path q s e Hc Hcase) as (m & f & -> & Hin & Hpoint & Hout). cbn [access mbind outcome_bind].
  destruct (f32_lt epsilon m) eqn:Hem.
  - rewrite Z.geb_leb, (proj2 (Z.leb_gt _ _)) by lia. replace (stack_count q - 1 + 1) with (stack_count q) by lia.
    destruct Hcase as [Hle|(Hs & He & Hsc & _)]; [specialize (Hin eq_refl); lia|].
    destruct (decide (stack_count q < stack_max q)) as [Hroom|Hfull].
    + destruct (core_split path q s e f Hc Hp Hroom Hpend (Hin eq_refl)) as (st1 & st & E1 & E2 & Hc' & Hw' & Hm' & Hst').
      rewrite E1. cbn [access mbind outcome_bind]. rewrite E2. cbn [access mbind outcome_bind].
      replace (stack_count q - 1 + 2) with (stack_count q + 1) by lia.
      rewrite u16_small by lia. specialize (IH (S k) path _ Hc' Hq ltac:(lia)).
      destruct (simplify_loop _ _ _ _ _ _) as [q'| |]; [|by unfold room in *; rewrite Hm' in IH|done].
      destruct IH as ([H1 H2 H3 H4 H5] & H6 & H7). split; [constructor; try done; by rewrite H3|].
      split; [|refine (closer_step _ _ _ _ _ _ H7); lia].
      intros s0 Hrec. apply H6. specialize (Hpoint ltac:(lia)). apply (recursion_split path s0 q s e); try done;
        rewrite Hpoint; [done|exact (Hin eq_refl)|done].
    + rewrite arr_set_Some by (unfold stack_max in *; lia). cbn [access mbind outcome_bind].
      rewrite arr_set_None by (rewrite length_insert; unfold stack_max in *; lia). cbn [access mbind outcome_bind].
      specialize (Hin eq_refl). unfold room. lia.
  - destruct (top_cleared path q s e Hc Hcase) as (b & -> & Hb & Hbit). cbn [mbind outcome_bind].
    pose proof (core_drop path q s e b Hc Hp Hpend Hb (Hout eq_refl) Hbit
      (match Z.to_nat (e - s - 1) with O => removal_required q | _ => true end)) as Hc'.
    match goal with |- context [simplify_loop _ fuel micros (S k) path ?x] => set (q1 := x) in * end.
    assert (Hw' : work (pending q1) < work (pending q)).
    { rewrite Hpend, work_snoc. unfold weight, pending. cbn [q1 stack stack_count]. lia. }
    specialize (IH (S k) path q1 Hc' Hq ltac:(lia)). destruct (simplify_loop _ _ _ _ _ _) as [q'| |]; [|done|done].
    destruct IH as ([H1 H2 H3 H4 H5] & H6 & H7). split; [by constructor|].
    split; [|apply (closer_step _ _ _ _ _ Hw' H7)].
    intros s0 Hrec. apply H6. destruct Hcase as [Hle|(Hs & He & _ & Hset)].
    + exfalso. destruct Hrec as (hi & Hch & _). rewrite Hpend, chain_snoc in Hch. lia.
    + apply (recursion_drop path s0 q s e); try done. by rewrite (Hpoint ltac:(lia)).
Qed.

Lemma inv_count path q : inv path q -> 0 <= s_points_count q <= MAX /\ s_points_count q <= zlen path.
Proof. intros [Hc _]. split; apply Hc. Qed.

(** The steps that are left, before the first call and between two. *)
Definition remaining (q : simplify_t) : Z := if stack_count q =? 0 then 1000 else work (pending q).

(** A call of [detect_simplifications]. *)
Lemma detect_simplifications_spec fuel micros path q :
  inv path q -> s_complete q = false -> 3 <= s_points_count q -> 1000 <= Z.of_nat fuel ->
  match detect_simplifications _accuracy fuel micros path q with
  | Done q' => after path q q' /\
      (stack_count q <> 0 -> forall s0, recursion path s0 q -> recursion path s0 q') /\
      (stack_count q = 0 -> let s0 := if s_points_completed q >? 0 then s_points_completed q - 1 else 0 in
         s0 < s_points_count q - 1 -> recursion path s0 q') /\
      (u32 (micros 1%nat - micros O) <= SMARTRTL_SIMPLIFY_TIME_US -> s_complete q' = true \/ remaining q' < remaining q)
  | Undefined => ~ room q
  | OutOfFuel => False
  end.
Proof.
  intros [Hc Hfresh] Hq Hn Hfuel. unfold detect_simplifications.
  pose proof (core_count _ _ Hc) as Hcount. unfold SMARTRTL_POINTS_MAX in Hcount.
  rewrite (proj2 (Z.ltb_ge _ _)) by lia. destruct (Z.eqb_spec (stack_count q) 0) as [Hz|Hz].
  - set (s0 := if s_points_completed q >? 0 then s_points_completed q - 1 else 0).
    assert (Hs0 : 0 <= s0) by (unfold s0; destruct (Z.gtb_spec (s_points_completed q) 0); lia).
    destruct (decide (0 < stack_max q)) as [Hm|Hm].
    2:{ rewrite arr_set_None by (unfold stack_max in *; lia). simpl. unfold room. lia. }
    rewrite arr_set_Some by (unfold stack_max in *; lia). cbn [access mbind outcome_bind].
    set (st := <[Z.to_nat 0 := (s0, s_points_count q - 1)]> (stack q)).
    match goal with |- context [simplify_loop _ _ _ _ _ ?x] => set (q1 := x) end.
    assert (Hpend : pending q1 = [(s0, s_points_count q - 1)]).
    { unfold pending, q1, st, stack_max in *. cbn [stack stack_count]. destruct (stack q); [simpl in Hm; lia|done]. }
    assert (Hm1 : stack_max q1 = stack_max q) by (unfold q1, st, stack_max; simpl; by rewrite length_insert).
    assert (Hset : forall k, 0 <= k < MAX -> bit (bitmask q) k = true) by auto.
    assert (Hc1 : core path q1).
    { constructor; rewrite ?Hm1; try apply Hc; [unfold q1; simpl; lia|].
      rewrite Hpend. destruct (decide (s0 < s_points_count q - 1)).
      - right. left. exists s0, (s_points_count q - 1). split; [done|]. split; [done|].
        split; [unfold q1; simpl; lia|]. intros k Hk. apply Hset. unfold SMARTRTL_POINTS_MAX. lia.
      - right. right. exists s0, (s_points_count q - 1). split; [done|lia]. }
    assert (Hw : work (pending q1) < Z.of_nat fuel).
    { rewrite Hpend. unfold work, weight. simpl. lia. }
    assert (Hw1 : work (pending q1) < 1000) by (rewrite Hpend; unfold work, weight; simpl; lia).
    pose proof (simplify_loop_spec micros fuel 1 path q1 Hc1 Hq Hw) as Hl.
    destruct (simplify_loop _ _ _ _ _ _) as [q'| |]; [|by unfold room in *; rewrite Hm1 in Hl|done].
    destruct Hl as ([H1 H2 H3 H4 H5] & H6 & H7). split; [constructor; try done; by rewrite H3|]. split; [done|].
    split.
    2:{ intros _. destruct (s_complete q') eqn:Hc'; [by left|]. right. destruct (H5 eq_refl) as [Hne _].
        unfold remaining. rewrite Hz, (proj2 (Z.eqb_neq _ _) Hne). destruct H7; [congruence|simpl; lia]. }
    intros _ Hlt. apply H6. exists (s_points_count q - 1). rewrite Hpend. cbn [chain s_points_count bitmask q1].
    split; [done|]. split; [lia|]. split; [intros k Hk; apply Hset; unfold SMARTRTL_POINTS_MAX; lia|].
    intros R HR. apply (pieces_snoc_inv path []) in HR as (R0 & ks & -> & HR0 & Hr).
    inversion HR0; [subst|by destruct l]. exists ks. rewrite kept_none, app_nil_r by lia. done.
  - cbn [mbind outcome_bind].
    assert (Hw : work (pending q) < Z.of_nat fuel).
    { destruct (core_pending _ _ Hc) as [|[(lo & hi & Hch & Hlo & Hhi & _)|(s' & e' & Heq & Hle)]]; [done| |].
      - apply chain_work in Hch. lia.
      - rewrite Heq. unfold work, weight. simpl. lia. }
    pose proof (simplify_loop_spec micros fuel 1 path q Hc Hq Hw) as Hl.
    destruct (simplify_loop _ _ _ _ _ _) as [q'| |]; [|done|done]. destruct Hl as (Ha & Hr & Hcl). split; [done|].
    split; [done|]. split; [done|]. intros Htime. destruct (s_complete q') eqn:Hc'; [by left|]. right.
    destruct (after_open _ _ _ Ha Hc') as [Hne _]. unfold remaining.
    rewrite (proj2 (Z.eqb_neq _ _) Hne), (proj2 (Z.eqb_neq _ _) Hz). destruct Hcl as [|[_ Hlt]]; [congruence|by apply Hlt].
Qed.

(** * Calls, while the path changes after the points in question *)

Definition same_points (n : Z) (path path' : list Vector3f) : Prop :=
  n <= zlen path' /\ take (Z.to_nat n) path' = take (Z.to_nat n) path.

Lemma same_points_get n path path' k : same_points n path path' -> k < n -> arr_get path' k = arr_get path k.
Proof.
  intros [Hn Ht] Hk. destruct (decide (0 <= k)) as [H0|H0].
  - rewrite !arr_get_lookup by done. apply (f_equal (fun l => l !! Z.to_nat k)) in Ht.
    by rewrite !lookup_take_lt in Ht by lia.
  - unfold arr_get. by rewrite (proj2 (Z.leb_gt 0 k)) by lia.
Qed.

Lemma dist_same n path path' k s e : same_points n path path' -> k < n -> s < n -> e < n ->
  dist path' k s e = dist path k s e.
Proof. intros Hs Hk Hss He. unfold dist. by rewrite !(same_points_get n path path') by done. Qed.

Lemma core_same path path' q : same_points (s_points_count q) path path' -> core path q -> core path' q.
Proof.
  intros Hs Hc. constructor; try apply Hc; [apply Hs|]. intros Hstrict k Hk Hf.
  destruct (core_dropped _ _ Hc Hstrict k Hk Hf) as (s & e & H1 & H2 & H3 & H4 & H5 & Hd). exists s, e.
  rewrite (dist_same _ _ _ _ _ _ Hs) by lia. auto 10.
Qed.

Lemma inv_same_points path path' q : same_points (s_points_count q) path path' -> inv path q -> inv path' q.
Proof. intros Hs [Hc Hf]. split; [by apply (core_same path)|done]. Qed.

Lemma argmax_same n path path' s e : same_points n path path' -> s < n -> e < n ->
  forall c i m f, i + Z.of_nat c <= n -> argmax path' c i s e m f = argmax path c i s e m f.
Proof.
  intros Hs Hs' He. induction c as [|c IH]; intros i m f Hc; [done|]. simpl.
  rewrite (dist_same n path path') by (done || lia). destruct (f32_lt m _); apply IH; lia.
Qed.

Lemma farthest_same n path path' s e : same_points n path path' -> s < n -> e < n ->
  farthest_point path' s e = farthest_point path s e.
Proof. intros Hs Hs' He. apply (argmax_same n); try done. lia. Qed.

Lemma farthest_range path s e : f32_lt epsilon (farthest_point path s e).1 = true ->
  s < (farthest_point path s e).2 < e.
Proof.
  unfold farthest_point.
  assert (Hr : forall c i m f, argmax path c i s e m f = (m, f) \/ i <= (argmax path c i s e m f).2 < i + Z.of_nat c).
  { induction c as [|c IH]; intros i m f; simpl; [by left|].
    destruct (f32_lt m _).
    - destruct (IH (i + 1) (dist path i s e) i) as [->|]; right; simpl; lia.
    - destruct (IH (i + 1) m f) as [->|]; [by left|right; lia]. }
  destruct (Hr (Z.to_nat (e - s - 1)) (s + 1) (f32_of_Z 0) s) as [->|]; [cbn [fst]; by rewrite epsilon_pos|lia].
Qed.

Lemma rdp_same n path path' s e ks : same_points n path path' -> s < n -> e < n -> rdp path s e ks -> rdp path' s e ks.
Proof.
  intros Hs Hse He Hr. revert Hse He.
  induction Hr as [s e Hf|s e l r Hf Hl IHl Hr IHr]; intros Hse He.
  - constructor. by rewrite (farthest_same n path path').
  - pose proof (farthest_range path s e Hf) as Hrange.
    rewrite <- (farthest_same n path path') by done. constructor;
      rewrite (farthest_same n path path') by done; [done|apply IHl|apply IHr]; lia.
Qed.

Lemma pieces_same n path path' l : same_points n path path' -> forall lo hi R, chain lo hi l -> hi < n ->
  pieces path l R -> pieces path' l R.
Proof.
  intros Hs lo hi R Hch Hhi Hp. revert lo hi Hch Hhi. induction Hp as [|l s e R ks Hp IH Hr]; intros lo hi Hch Hhi.
  - constructor.
  - apply chain_snoc in Hch as (Hch & Hse & ->). constructor; [apply (IH lo s); [done|lia]|].
    apply (rdp_same n path); done || lia.
Qed.

Lemma same_points_sym n path path' : n <= zlen path -> same_points n path path' -> same_points n path' path.
Proof. intros Hn [_ Ht]. by split. Qed.

Lemma recursion_same path path' s0 q : s_points_count q <= zlen path -> s0 < s_points_count q ->
  same_points (s_points_count q) path path' ->
  recursion path s0 q -> recursion path' s0 q.
Proof.
  intros Hn Hs0 Hs (hi & Hch & Hhi & Hset & Href). exists hi. split; [done|]. split; [done|]. split; [done|].
  intros R HR. destruct (Href R) as (T & HT & Hr).
  { apply (pieces_same (s_points_count q) path' path _ (same_points_sym _ _ _ Hn Hs) s0 hi); done || lia. }
  exists T. split; [done|]. apply (rdp_same (s_points_count q) path); done || lia.
Qed.

(** One call after another, until it is complete, each with the path at its time and
    the readings of the clock. *)
Fixpoint calls (fuel : nat) (l : list (list Vector3f * (nat -> Z))) (q : simplify_t) : outcome simplify_t :=
  match l with
  | [] => Done q
  | (path, m) :: l =>
    if s_complete q then Done q else q ← detect_simplifications _accuracy fuel m path q; calls fuel l q
  end.

Lemma calls_spec fuel path n l : 3 <= n -> n <= zlen path -> 1000 <= Z.of_nat fuel ->
  Forall (fun x => same_points n path x.1) l ->
  forall q, s_points_count q = n -> inv path q -> s_complete q = false ->
  match calls fuel l q with
  | Done q' => inv path q' /\ s_points_count q' = n /\ stack_max q' = stack_max q /\
      (s_complete q' = true -> stack_count q' = 0 /\ s_points_completed q' = n) /\
      (s_complete q' = true ->
         (stack_count q <> 0 -> forall s0, s0 < n -> recursion path s0 q -> recursion path s0 q') /\
         (stack_count q = 0 -> let s0 := if s_points_completed q >? 0 then s_points_completed q - 1 else 0 in
            s0 < n - 1 -> recursion path s0 q'))
  | Undefined => ~ room q
  | OutOfFuel => False
  end.
Proof.
  intros Hn3 Hn Hfuel Hl. induction Hl as [|[path1 m] l Hs Hl IH]; intros q Hq Hinv Hc.
  { simpl. by rewrite Hc. }
  simpl in Hs. simpl. rewrite Hc. rewrite <- Hq in Hs, Hn.
  pose proof (detect_simplifications_spec fuel m path1 q (inv_same_points _ _ _ Hs Hinv) Hc ltac:(lia) Hfuel) as Hd.
  destruct (detect_simplifications _ _ _ _ _) as [q1| |]; [|done|done]. cbn [mbind outcome_bind].
  destruct Hd as ([Hinv1 Hcount1 Hmax1 Hdone1 Hopen1] & Hrec1 & Hstart1 & _).
  pose proof (same_points_sym _ _ _ Hn Hs) as Hs'.
  assert (Hinv1' : inv path q1) by (apply (inv_same_points path1); [by rewrite Hcount1|done]).
  assert (Hrec : (stack_count q <> 0 -> forall s0, s0 < n -> recursion path s0 q -> recursion path s0 q1) /\
    (stack_count q = 0 -> let s0 := if s_points_completed q >? 0 then s_points_completed q - 1 else 0 in
       s0 < n - 1 -> recursion path s0 q1)).
  { split.
    - intros Hz s0 Hs0 Hr. apply (recursion_same path1); rewrite ?Hcount1; [apply Hs|lia|done|].
      apply Hrec1; [done|]. apply (recursion_same path); done || lia.
    - intros Hz s0 Hs0. apply (recursion_same path1); rewrite ?Hcount1; [apply Hs|lia|done|].
      apply Hstart1; [done|]. fold s0. lia. }
  destruct (s_complete q1) eqn:Hc1.
  - assert (E : calls fuel l q1 = Done q1) by (destruct l as [|[??] ?]; simpl; by rewrite ?Hc1).
    rewrite E. split; [done|]. split; [congruence|]. split; [done|]. split; [|done].
    intros _. destruct (Hdone1 eq_refl) as [-> ->]. split; [done|congruence].
  - specialize (IH q1 ltac:(congruence) Hinv1' Hc1). destruct (calls fuel l q1) as [q2| |]; [| |done].
    2:{ unfold room in *. by rewrite Hcount1, Hmax1 in IH. }
    destruct IH as (Hi2 & Hn2 & Hm2 & Hd2 & Hr2). split; [done|]. split; [done|]. split; [congruence|].
    split; [done|]. intros Hc2. specialize (Hr2 Hc2). destruct Hr2 as [Hr2 Hs2].
    assert (Hnz : stack_count q1 <> 0) by by apply Hopen1.
    split; intros Hz.
    + intros s0 Hs0 Hr. apply Hr2; [done|done|]. by apply Hrec.
    + intros Hs0. apply Hr2; [done|lia|]. by apply Hrec.
Qed.
End simplification.
