(* ===== verification/SmartRTLSimplify.v ===== *)
(** What the simplification of the way back does to the path: the properties of
    [detect_simplifications] over many calls and of the removal of points. *)
From S2P Require Import Prelude Float32 HalStorage HalStorageSpec SmartRTL SmartRTLSpec.
Open Scope urus_scope.
Import SmartRTL FloatOrder Marks.
#[local] Abbreviation length := (@Datatypes.length _).

Section removal.
Context (_accuracy : spec_float).
#[local] Abbreviation epsilon := (SMARTRTL_SIMPLIFY_EPSILON _accuracy).
#[local] Abbreviation MAX := SMARTRTL_POINTS_MAX.

(** The points of a list, the first with the number [i], that are not given up. *)
Fixpoint keep (b : Bitmask.t) (i : Z) (l : list Vector3f) : list Vector3f :=
  match l with
  | [] => []
  | p :: l => if bit b i then p :: keep b (i + 1) l else keep b (i + 1) l
  end.

Lemma keep_app b l1 l2 : forall i, keep b i (l1 ++ l2) = keep b i l1 ++ keep b (i + zlen l1) l2.
Proof.
  induction l1 as [|p l1 IH]; intros i; [simpl; by rewrite Z.add_0_r|]. cbn [keep app]. rewrite IH, length_cons.
  replace (i + 1 + zlen l1) with (i + Z.of_nat (S (length l1))) by lia. by destruct (bit b i).
Qed.

Lemma keep_none b l : forall i, (forall k, i <= k < i + zlen l -> bit b k = false) -> keep b i l = [].
Proof.
  induction l as [|p l IH]; intros i Hn; [done|]. rewrite length_cons in Hn. cbn [keep].
  rewrite Hn by lia. apply IH. intros k Hk. apply Hn. lia.
Qed.

Lemma keep_all b l : forall i, (forall k, i <= k < i + zlen l -> bit b k = true) -> keep b i l = l.
Proof.
  induction l as [|p l IH]; intros i Hn; [done|]. rewrite length_cons in Hn. cbn [keep].
  rewrite Hn by lia. f_equal. apply IH. intros k Hk. apply Hn. lia.
Qed.

Lemma keep_length b l : forall i, zlen (keep b i l) <= zlen l.
Proof.
  induction l as [|p l IH]; intros i; [done|]. cbn [keep]. specialize (IH (i + 1)).
  destruct (bit b i); rewrite ?length_cons; lia.
Qed.

Lemma keep_sublist b l : forall i, keep b i l `sublist_of` l.
Proof.
  induction l as [|p l IH]; intros i; [done|]. cbn [keep]. destruct (bit b i); by constructor.
Qed.

Lemma compact_spec b n : ok b -> forall src dest removed path,
  0 <= dest <= src -> removed = src - dest -> src + Z.of_nat n <= MAX -> src + Z.of_nat n <= zlen path ->
  let l := keep b src (take n (drop (Z.to_nat src) path)) in
  exists path', compact n src dest removed b path = Done (path', src + Z.of_nat n - (dest + zlen l)) /\
    length path' = length path /\
    take (Z.to_nat dest + length l) path' = take (Z.to_nat dest) path ++ l.
Proof.
  unfold SMARTRTL_POINTS_MAX. intros Hb.
  induction n as [|n IH]; intros src dest removed path Hd -> Hn Hp; cbn zeta.
  { exists path. split; [simpl; do 2 f_equal; lia|]. split; [done|]. simpl. by rewrite Nat.add_0_r, app_nil_r. }
  destruct (arr_get_Some path src) as [p Hpi]; [lia|].
  pose proof Hpi as Hl. rewrite arr_get_lookup in Hl by lia.
  assert (E : take (S n) (drop (Z.to_nat src) path) = p :: take n (drop (Z.to_nat (src + 1)) path)).
  { rewrite (drop_S _ p _ Hl). cbn [take]. do 3 f_equal. lia. }
  rewrite E. cbn [compact keep]. rewrite (get_ok b src Hb) by (unfold SMARTRTL_POINTS_MAX; lia).
  cbn [access mbind outcome_bind]. rewrite !u16_small by lia. destruct (bit b src); cbn [negb].
  - rewrite Hpi. cbn [access mbind outcome_bind]. rewrite arr_set_Some by lia.
    cbn [access mbind outcome_bind]. rewrite ?u16_small by lia.
    set (path1 := <[Z.to_nat dest := p]> path).
    assert (Hl1 : length path1 = length path) by (unfold path1; by rewrite length_insert).
    assert (Ed : drop (Z.to_nat (src + 1)) path1 = drop (Z.to_nat (src + 1)) path).
    { unfold path1. by rewrite drop_insert_lt by lia. }
    destruct (IH (src + 1) (dest + 1) (src - dest) path1) as (path' & E1 & Hl' & Ht); try lia.
    rewrite Ed in E1, Ht. exists path'. rewrite E1. split; [do 2 f_equal; rewrite length_cons; lia|].
    split; [lia|]. rewrite length_cons.
    replace (Z.to_nat dest + S (length (keep b (src + 1) (take n (drop (Z.to_nat (src + 1)) path)))))%nat
      with (Z.to_nat (dest + 1) + length (keep b (src + 1) (take n (drop (Z.to_nat (src + 1)) path))))%nat by lia.
    rewrite Ht. replace (Z.to_nat (dest + 1)) with (S (Z.to_nat dest)) by lia.
    unfold path1. rewrite (take_S_r _ _ p) by (apply list_lookup_insert_eq; lia).
    rewrite take_insert_ge by lia. by rewrite <- app_assoc.
  - destruct (IH (src + 1) dest (src - dest + 1) path) as (path' & E1 & Hl' & Ht); try lia.
    exists path'. rewrite E1. split; [do 2 f_equal; lia|]. by split.
Qed.

(** A path after the removal of points: what is left is in order, with the first and
    the last point, and each point that is gone is within the tolerance of the line
    through two points of the new path, next to each other. *)
Record simplified (old new : list Vector3f) : Prop := {
  simplified_sublist : new `sublist_of` old;
  simplified_head : head new = head old;
  simplified_last : last new = last old;
  simplified_close : forall k p, old !! k = Some p -> p ∈ new \/
    exists i a c, new !! i = Some a /\ new !! S i = Some c /\
      f32_lt epsilon (Vector3.distance_to_segment p a c) = false
}.

Lemma keep_elem b l : forall i (k : nat) p, l !! k = Some p -> bit b (i + Z.of_nat k) = true -> p ∈ keep b i l.
Proof.
  induction l as [|x l IH]; intros i k p Hk Hb; [done|]. cbn [keep]. destruct k as [|k].
  - simpl in Hk. simplify_eq. rewrite Z.add_0_r in Hb. rewrite Hb. by left.
  - simpl in Hk. assert (p ∈ keep b (i + 1) l).
    { apply (IH _ k); [done|]. rewrite <- Hb. f_equal. lia. }
    destruct (bit b i); [by right|done].
Qed.

(** Two kept points with nothing kept between them become neighbours. *)
Lemma keep_neighbours b l (s e : nat) a c : l !! s = Some a -> l !! e = Some c -> (s < e)%nat ->
  bit b (Z.of_nat s) = true -> bit b (Z.of_nat e) = true ->
  (forall j, Z.of_nat s < j < Z.of_nat e -> bit b j = false) ->
  exists i, keep b 0 l !! i = Some a /\ keep b 0 l !! S i = Some c.
Proof.
  intros Ha Hc Hse Hbs Hbe Hmid. pose proof (lookup_lt_Some _ _ _ Hc) as Hle.
  assert (Hd : drop (S s) l !! (e - S s)%nat = Some c) by (rewrite lookup_drop, <- Hc; f_equal; lia).
  set (mid := take (e - S s) (drop (S s) l)). set (rest := drop (S (e - S s)) (drop (S s) l)).
  assert (El : l = take s l ++ [a] ++ mid ++ [c] ++ rest).
  { unfold mid, rest. simpl. by rewrite (take_drop_middle _ _ _ Hd), (take_drop_middle _ _ _ Ha). }
  assert (Hm : zlen mid = Z.of_nat e - Z.of_nat s - 1).
  { unfold mid. rewrite length_take, length_drop. lia. }
  assert (Ek : exists r, keep b 0 l = keep b 0 (take s l) ++ [a] ++ [c] ++ r).
  { exists (keep b (Z.of_nat e + 1) rest). rewrite El at 1. rewrite !keep_app, (keep_none b mid).
    - cbn [keep app length]. rewrite length_take_le by lia.
      replace (0 + Z.of_nat s) with (Z.of_nat s) by lia. rewrite Hbs.
      replace (Z.of_nat s + Z.of_nat 1 + zlen mid) with (Z.of_nat e) by lia. by rewrite Hbe.
    - cbn [length]. rewrite length_take_le by lia. intros k Hk. apply Hmid. lia. }
  destruct Ek as [r Ek]. exists (length (keep b 0 (take s l))). rewrite Ek. split.
  - by rewrite lookup_app_r, Nat.sub_diag by lia.
  - rewrite lookup_app_r by lia. by replace (S _ - _)%nat with 1%nat by lia.
Qed.

Lemma keep_simplified path n b count : n <= count <= MAX -> count <= zlen path -> 0 < n ->
  (forall k, 0 <= k < MAX -> bit b k = false -> dropped _accuracy path n b k) ->
  simplified (take (Z.to_nat count) path) (keep b 0 (take (Z.to_nat count) path)).
Proof.
  unfold SMARTRTL_POINTS_MAX. intros Hn Hp H0 Hdrop.
  assert (Hset : forall k, 0 <= k < 500 -> k = 0 \/ n - 1 <= k -> bit b k = true).
  { intros k Hk Hor. destruct (bit b k) eqn:Hb; [done|].
    destruct (Hdrop k Hk Hb) as (s & e & Hs & He & _). lia. }
  set (l := take (Z.to_nat count) path). assert (Hl : zlen l = count) by (unfold l; rewrite length_take; lia).
  constructor.
  - apply keep_sublist.
  - destruct l as [|p l']; [done|]. cbn [keep]. by rewrite Hset by lia.
  - destruct (last_is_Some l) as [_ [p Hlast]]; [intros E; rewrite E in Hl; simpl in Hl; lia|].
    pose proof Hlast as Hl2. apply last_Some in Hl2 as [l' ->]. rewrite length_app in Hl. simpl in Hl.
    rewrite keep_app. cbn [keep]. rewrite Hset by lia. by rewrite !last_snoc.
  - intros k p Hk. pose proof (lookup_lt_Some _ _ _ Hk) as Hkl.
    destruct (bit b (Z.of_nat k)) eqn:Hb; [left; by apply (keep_elem b l 0 k)|]. right.
    destruct (Hdrop (Z.of_nat k) ltac:(lia) Hb) as (s & e & Hs & He & Hbs & Hbe & Hmid & Hd).
    destruct (lookup_lt_is_Some_2 l (Z.to_nat s)) as [a Ha]; [lia|].
    destruct (lookup_lt_is_Some_2 l (Z.to_nat e)) as [c Hc]; [lia|].
    destruct (keep_neighbours b l (Z.to_nat s) (Z.to_nat e) a c) as (i & Hia & Hic);
      rewrite ?Z2Nat.id by lia; try done; [lia|].
    exists i, a, c. split; [done|]. split; [done|]. rewrite <- Hd. f_equal. unfold dist, l in *.
    rewrite !arr_get_lookup, Nat2Z.id by lia. rewrite lookup_take_lt in Hk, Ha, Hc by lia.
    by rewrite Hk, Ha, Hc.
Qed.

Lemma restart_inv path n q : ok (bitmask q) -> stack_max q < 65535 -> 0 <= n <= MAX -> n <= zlen path ->
  exists q0, restart_simplification n q = Done q0 /\ inv _accuracy true path q0 /\ s_points_count q0 = n /\
    s_complete q0 = false /\ stack_count q0 = 0 /\ stack_max q0 = stack_max q /\
    s_points_completed q0 = s_points_completed q.
Proof.
  intros Hb Hm Hn Hp. unfold restart_simplification. rewrite setall_spec by done. eexists.
  split; [reflexivity|]. split; [|done]. split.
  - constructor; cbn; try done; [apply all_set_ok|unfold stack_max; simpl; lia| |by left].
    intros _ k Hk Hf. by rewrite all_set_bit in Hf.
  - intros _ _. apply all_set_bit.
Qed.

Lemma remove_simplified path n s : inv _accuracy true path (_simplify s) -> s_points_count (_simplify s) = n ->
  3 <= n -> same_points n path (_path s) -> n <= _path_points_count s <= zlen (_path s) ->
  zlen (_path s) <= MAX ->
  exists s', remove_points_by_simplify_bitmask true s = Done s' /\ _active s' = _active s /\
    _path_points_count s' <= zlen (_path s') /\ zlen (_path s') = zlen (_path s) /\
    simplified (take (Z.to_nat (_path_points_count s)) (_path s))
      (take (Z.to_nat (_path_points_count s')) (_path s')).
Proof.
  intros Hinv Hq Hn Hs Hc Hmax. pose proof (inv_same_points _ true _ _ _ ltac:(by rewrite Hq) Hinv) as [Hcore _].
  pose proof (core_marks _ _ _ _ Hcore) as Hb. pose proof (core_dropped _ _ _ _ Hcore eq_refl) as Hdrop. rewrite Hq in Hdrop.
  unfold SMARTRTL_POINTS_MAX in *.
  unfold remove_points_by_simplify_bitmask. cbn [negb].
  set (count := _path_points_count s) in *.
  destruct (compact_spec (bitmask (_simplify s)) (Z.to_nat (count - 1)) Hb 1 1 0 (_path s))
    as (path' & E & Hl & Ht); try (unfold SMARTRTL_POINTS_MAX; lia).
  rewrite E. cbn [mbind outcome_bind]. rewrite setall_spec by done. cbn [access mbind outcome_bind].
  assert (Hset : forall k, 0 <= k < 500 -> k = 0 \/ n - 1 <= k -> bit (bitmask (_simplify s)) k = true).
  { intros k Hk Hor. destruct (bit _ k) eqn:Hk'; [done|]. destruct (Hdrop k Hk Hk') as (a & e & Ha & He & _). lia. }
  set (old := take (Z.to_nat count) (_path s)).
  assert (Hold : exists p, old = p :: take (Z.to_nat (count - 1)) (drop (Z.to_nat 1) (_path s))).
  { unfold old. destruct (_path s) as [|p l]; [simpl in Hc; lia|]. exists p.
    by replace (Z.to_nat count) with (S (Z.to_nat (count - 1))) by lia. }
  destruct Hold as [p Hold].
  set (new := keep (bitmask (_simplify s)) 0 old).
  set (l := keep (bitmask (_simplify s)) 1 _) in *.
  assert (Hnew : new = take (Z.to_nat 1) (_path s) ++ l).
  { unfold new. rewrite Hold. cbn [keep]. rewrite Hset by lia.
    unfold old in Hold. destruct (_path s) as [|p' l']; [simpl in Hc; lia|].
    replace (Z.to_nat count) with (S (Z.to_nat (count - 1))) in Hold by lia. simpl in Hold. by simplify_eq. }
  assert (Hle : zlen new = 1 + zlen l) by (rewrite Hnew, length_app, length_take; lia).
  assert (Holdl : zlen old = count) by (unfold old; rewrite length_take; lia).
  assert (Hremoved : count - zlen new < n).
  { pose proof Holdl as Holdl'. rewrite <- (take_drop (Z.to_nat (n - 1)) old) in Holdl. unfold new.
    rewrite <- (take_drop (Z.to_nat (n - 1)) old), keep_app.
    rewrite (keep_all _ (drop _ old)).
    - rewrite length_app in Holdl |- *. rewrite length_take in Holdl. lia.
    - rewrite length_app in Holdl. intros k Hk. rewrite length_take in *. apply Hset; lia. }
  assert (Hnewl : zlen new <= count) by (rewrite <- Holdl; apply keep_length).
  replace (1 + Z.of_nat (Z.to_nat (count - 1)) - (1 + zlen l)) with (count - zlen new) by lia.
  rewrite !Z.gtb_ltb, (proj2 (Z.ltb_lt _ count)), (proj2 (Z.ltb_lt _ (s_points_count _))) by lia.
  cbn [andb]. eexists. split; [reflexivity|]. cbn [_active set_simplify set_path _path_points_count _path].
  split; [done|]. split; [lia|]. split; [lia|]. replace (count - (count - zlen new)) with (zlen new) by lia.
  replace (take (Z.to_nat (zlen new)) path') with new.
  - apply (keep_simplified _ n); try done; unfold SMARTRTL_POINTS_MAX; lia.
  - replace (Z.to_nat (zlen new)) with (Z.to_nat 1 + length l)%nat by lia. by rewrite Ht.
Qed.

(** C14. After any number of calls of [detect_simplifications], cut short by the clock
    anywhere and with points added to the path between them, the removal of the points
    that are marked so far leaves a path in order, with its first and last point, in
    which every point that is gone is within the tolerance of the line through two
    neighbours.  The calls are defined whenever the stack has room for one segment less
    than there are points, and a call always ends. *)
Theorem simplification_kept fuel path n q l :
  f32_lt epsilon (f32_of_Z 0) = false -> ok (bitmask q) -> stack_max q < 65535 -> 3 <= n <= MAX -> n <= zlen path ->
  1000 <= Z.of_nat fuel -> Forall (fun x => same_points n path x.1) l ->
  match (q0 ← restart_simplification n q; calls _accuracy fuel l q0) with
  | Done q1 =>
    forall s, _simplify s = q1 -> same_points n path (_path s) -> n <= _path_points_count s <= zlen (_path s) ->
      zlen (_path s) <= MAX ->
      exists s', remove_points_by_simplify_bitmask true s = Done s' /\ _active s' = _active s /\
        _path_points_count s' <= zlen (_path s') /\ zlen (_path s') = zlen (_path s) /\
        simplified (take (Z.to_nat (_path_points_count s)) (_path s))
          (take (Z.to_nat (_path_points_count s')) (_path s'))
  | Undefined => stack_max q + 1 < n
  | OutOfFuel => False
  end.
Proof.
  intros Heps Hb Hm Hn Hp Hfuel Hl.
  destruct (restart_inv path n q Hb Hm ltac:(lia) Hp) as (q0 & E & Hinv & Hq & Hc & _ & Hmax & _).
  rewrite E. cbn [mbind outcome_bind].
  pose proof (calls_spec _ true Heps fuel path n l ltac:(lia) Hp Hfuel Hl q0 Hq Hinv Hc) as Hcalls.
  destruct (calls _ _ _ _) as [q1| |]; [|unfold room in Hcalls; lia|done].
  destruct Hcalls as (Hinv1 & Hq1 & _). intros s <- Hs Hcount Hpath.
  apply (remove_simplified path n); done || lia.
Qed.

(** C17. However the calls are cut short by the clock, when [detect_simplifications] is
    complete the points that are marked to stay between the last simplified one and the
    last one are those that the recursive Ramer-Douglas-Peucker algorithm keeps, and
    no other point is given up. *)
Theorem simplification_reference fuel path n q l q1 :
  f32_lt epsilon (f32_of_Z 0) = false -> ok (bitmask q) -> stack_max q < 65535 -> 3 <= n <= MAX -> n <= zlen path ->
  1000 <= Z.of_nat fuel -> Forall (fun x => same_points n path x.1) l ->
  (q0 ← restart_simplification n q; calls _accuracy fuel l q0) = Done q1 -> s_complete q1 = true ->
  let s0 := if s_points_completed q >? 0 then s_points_completed q - 1 else 0 in
  s0 < n - 1 ->
  s_points_completed q1 = n /\
  exists ks, rdp _accuracy path s0 (n - 1) ks /\
    forall k, 0 <= k < MAX -> bit (bitmask q1) k = true <-> ~ (s0 < k < n - 1) \/ k ∈ ks.
Proof.
  intros Heps Hb Hm Hn Hp Hfuel Hl Hcalls Hc1 s0 Hs0.
  destruct (restart_inv path n q Hb Hm ltac:(lia) Hp) as (q0 & E & Hinv & Hq & Hc & Hz & Hmax & Hcompl).
  rewrite E in Hcalls. cbn [mbind outcome_bind] in Hcalls.
  pose proof (calls_spec _ true Heps fuel path n l ltac:(lia) Hp Hfuel Hl q0 Hq Hinv Hc) as Hspec.
  rewrite Hcalls in Hspec. destruct Hspec as ([Hcore _] & Hq1 & _ & Hd & Hr). split; [by apply Hd|].
  destruct (Hd Hc1) as [Hz1 _]. destruct (Hr Hc1) as [_ Hr1]. rewrite Hcompl in Hr1.
  destruct (Hr1 Hz Hs0) as (hi & Hch & _ & Hset & Href). fold s0 in Hch, Hset, Href.
  unfold pending in Hch, Href. rewrite Hz1 in Hch, Href. simpl in Hch. subst hi.
  destruct (Href [] ltac:(constructor)) as (T & HT & Hrdp). rewrite Hq1 in HT, Hrdp. cbn [app] in HT.
  exists T. split; [done|]. intros k Hk.
  assert (Hin : k ∈ kept (bitmask q1) s0 (n - 1) <-> bit (bitmask q1) k = true /\ s0 <= k < n - 1).
  { unfold kept. rewrite list_elem_of_filter, elem_of_seqZ. intuition lia. }
  rewrite <- HT, elem_of_cons in Hin. split.
  - intros Hb1. destruct (decide (s0 < k < n - 1)); [|by left]. right.
    destruct (proj2 Hin) as [->|]; [split; [done|lia]|lia|done].
  - intros [Hout|Hk1]; [|by apply Hin; right].
    destruct (decide (k <= s0)); [apply Hset; lia|]. destruct (bit (bitmask q1) k) eqn:Hb1; [done|].
    destruct (core_dropped _ _ _ _ Hcore eq_refl k Hk Hb1) as (s & e & Hs & He & _). rewrite Hq1 in He. lia.
Qed.
End removal.

(** * Examples *)

Definition point (x y : Z) : Vector3f := Vector3.vec (f32_of_Z x) (f32_of_Z y) (f32_of_Z 0).
Definition demo_accuracy : spec_float := f32_of_Z 2.

(** The state for ten points, after the home was set. *)
Definition demo_simplify : simplify_t :=
  match init demo_accuracy all_memory 10 with
  | Some s => match reset_simplification (_simplify s) with Done q => q | _ => _simplify s end
  | None => Simplify false false 0 0 [] 0 Marks.all_set
  end.

Definition demo_path : list Vector3f :=
  [point 0 0; point 10 0; point 20 0; point 20 10; point 20 20; point 30 20].

(** A clock that stops a call after two segments. *)
Definition demo_clock (k : nat) : Z := if (k <? 3)%nat then 0 else 300.
Definition demo_calls := replicate 3 (demo_path, demo_clock).
Definition demo_marks : list bool := [true; false; true; false; true; true].

Lemma demo_simplify_ok : ok (bitmask demo_simplify) /\ stack_max demo_simplify = 7.
Proof. vm_compute. split; [|done]. exact all_set_ok. Qed.

Lemma demo_same : Forall (fun x => same_points 5 demo_path x.1) demo_calls.
Proof. repeat constructor; vm_compute; done. Qed.

Lemma simplification_kept_witness :
  match (q0 ← restart_simplification 5 demo_simplify; calls demo_accuracy 1000 demo_calls q0) with
  | Done q1 => map (bit (bitmask q1)) (seqZ 0 6) = demo_marks /\
    forall s, _simplify s = q1 -> _path s = demo_path -> _path_points_count s = 6 ->
      exists s', remove_points_by_simplify_bitmask true s = Done s' /\ _active s' = _active s /\
        _path_points_count s' <= zlen (_path s') /\ zlen (_path s') = zlen (_path s) /\
        simplified demo_accuracy (take (Z.to_nat (_path_points_count s)) (_path s))
          (take (Z.to_nat (_path_points_count s')) (_path s'))
  | _ => False
  end.
Proof.
  pose proof (simplification_kept demo_accuracy 1000 demo_path 5 demo_simplify demo_calls eq_refl
    (proj1 demo_simplify_ok) ltac:(rewrite (proj2 demo_simplify_ok); lia) ltac:(done) ltac:(done) ltac:(lia)
    demo_same) as H.
  assert (Hm : match (q0 ← restart_simplification 5 demo_simplify; calls demo_accuracy 1000 demo_calls q0) with
    | Done q1 => bool_decide (map (bit (bitmask q1)) (seqZ 0 6) = demo_marks) | _ => false end = true)
    by by vm_compute.
  destruct (q0 ← _; _) as [q1| |]; [|discriminate Hm|discriminate Hm].
  split; [exact (bool_decide_eq_true_1 _ Hm)|]. intros s Hs Hp Hc.
  apply (H s Hs); rewrite ?Hp, ?Hc; [split; [discriminate|reflexivity]|split; discriminate|discriminate].
Defined.

Lemma simplification_reference_witness : exists q1,
  (q0 ← restart_simplification 5 demo_simplify; calls demo_accuracy 1000 demo_calls q0) = Done q1 /\
  s_points_completed q1 = 5 /\
  exists ks, rdp demo_accuracy demo_path 0 4 ks /\
    forall k, 0 <= k < SMARTRTL_POINTS_MAX -> bit (bitmask q1) k = true <-> ~ (0 < k < 4) \/ k ∈ ks.
Proof.
  eexists. split; [vm_compute; reflexivity|].
  refine (simplification_reference demo_accuracy 1000 demo_path 5 demo_simplify demo_calls _ eq_refl
    (proj1 demo_simplify_ok) ltac:(rewrite (proj2 demo_simplify_ok); lia) ltac:(done) ltac:(done) ltac:(lia)
    demo_same _ _ _); [vm_compute; reflexivity|reflexivity|reflexivity].
Defined.

(** The list of segments is checked for the room of one element, two are written: on a
    path that swings to and fro nine points write past its end. *)
Definition swinging_path : list Vector3f :=
  [point 0 0; point 200 0; point 0 10; point 180 10; point 20 20; point 160 20; point 40 30; point 140 30;
   point 60 40; point 120 40].
Example simplify_stack_overflow :
  (q0 ← restart_simplification 9 demo_simplify;
   detect_simplifications demo_accuracy 1000 (fun _ => 0) swinging_path q0) = Undefined.
Proof. by vm_compute. Qed.

(** [distance_to_segment] is the distance from the line: a point fifty metres beyond
    the end of the segment is at no distance, and so is every point when the ends are
    the same. *)
Example distance_beyond_the_end :
  is_zero (Vector3.distance_to_segment (point 100 0) (point 0 0) (point 50 0)) = true /\
  is_zero (Vector3.distance_to_segment (point 100 0) (point 0 0) (point 0 0)) = true.
Proof. split; by vm_compute. Qed.
