(* ===== verification/SmartRTLPrune.v ===== *)
(** The pruning of the way back: the recorded loops never overlap, and removing them one
    by one, with the indices of the others put right each time, is the same as cutting
    them all at once out of the path on which they were found. *)
From S2P Require Import Prelude Float32 HalStorage HalStorageSpec SmartRTL SmartRTLSpec.
Open Scope urus_scope.
Import SmartRTL.
#[local] Abbreviation length := (@Datatypes.length _).

(** * Loops as intervals *)

Definition disjoint_loops (l1 l2 : prune_loop_t) : Prop :=
  end_index l1 < start_index l2 \/ end_index l2 < start_index l1.

Lemma disjoint_sym l1 l2 : disjoint_loops l1 l2 -> disjoint_loops l2 l1.
Proof. unfold disjoint_loops. lia. Qed.

(** The four cases of [loops_overlap] are the intersection of closed intervals. *)
Lemma loops_overlap_spec l1 l2 : start_index l1 <= end_index l1 -> start_index l2 <= end_index l2 ->
  loops_overlap l1 l2 = false <-> disjoint_loops l1 l2.
Proof.
  unfold loops_overlap, disjoint_loops. rewrite !Z.geb_leb. intros H1 H2.
  destruct (Z.leb_spec (start_index l2) (start_index l1)), (Z.leb_spec (end_index l1) (end_index l2)),
    (Z.leb_spec (start_index l1) (start_index l2)), (Z.leb_spec (end_index l2) (end_index l1)),
    (Z.leb_spec (start_index l1) (end_index l2)), (Z.leb_spec (start_index l2) (end_index l1)); simpl;
    split; intros; done || lia.
Qed.

(** The recorded loops: inside an array of [bound] points, apart from each other. *)
Definition in_bounds (bound : Z) (l : prune_loop_t) : Prop := 1 <= start_index l < end_index l /\ end_index l < bound.
Definition good_loops (bound : Z) (ls : list prune_loop_t) : Prop :=
  Forall (in_bounds bound) ls /\ ForallOrdPairs disjoint_loops ls.

Lemma good_snoc bound ls l : good_loops bound (ls ++ [l]) <->
  good_loops bound ls /\ in_bounds bound l /\ Forall (fun l' => disjoint_loops l' l) ls.
Proof.
  unfold good_loops. rewrite Forall_app, Forall_singleton.
  assert (Hp : ForallOrdPairs disjoint_loops (ls ++ [l]) <->
    ForallOrdPairs disjoint_loops ls /\ Forall (fun l' => disjoint_loops l' l) ls); [|tauto].
  induction ls as [|x ls IH]; simpl.
  - split; [intros; split; constructor|repeat constructor].
  - split.
    + inversion 1 as [|? ? Hx Hls]; subst. apply IH in Hls as [H1 H2].
      apply Forall_app in Hx as [Hx1 Hx2]. rewrite Forall_singleton in Hx2. split; by constructor.
    + intros [H1 H2]. inversion H1; subst. inversion H2; subst. constructor; [|by apply IH].
      apply Forall_app. split; [done|]. by apply Forall_singleton.
Qed.

Lemma good_filter bound ls (P : prune_loop_t -> Prop) `{!forall l, Decision (P l)} :
  good_loops bound ls -> good_loops bound (filter P ls).
Proof.
  intros [Hb Hd]. split.
  - apply Forall_forall. intros l [_ Hl]%list_elem_of_filter. by apply (proj1 (Forall_forall _ _) Hb).
  - clear Hb. induction Hd as [|x ls Hx Hd IH]; [constructor|]. rewrite filter_cons.
    case_decide; [|done]. constructor; [|done]. apply Forall_forall. intros l [_ Hl]%list_elem_of_filter.
    by apply (proj1 (Forall_forall _ _) Hx).
Qed.

(** * Cutting *)

Definition inside (k : Z) (l : prune_loop_t) : bool := (start_index l <=? k) && (k <=? end_index l).

(** What becomes of the point [p] with the number [k]. *)
Definition cut_at (ls : list prune_loop_t) (k : Z) (p : Vector3f) : option Vector3f :=
  match find (inside k) ls with
  | Some l => if k =? start_index l then Some (midpoint l) else None
  | None => Some p
  end.

(** A path, the first point with the number [k], with all the loops cut out: the
    midpoint in the place of each. *)
Fixpoint cut (ls : list prune_loop_t) (k : Z) (path : list Vector3f) : list Vector3f :=
  match path with
  | [] => []
  | p :: path =>
    match cut_at ls k p with Some q => q :: cut ls (k + 1) path | None => cut ls (k + 1) path end
  end.

(** One loop cut out. *)
Definition cut_one (l : prune_loop_t) (path : list Vector3f) : list Vector3f :=
  take (Z.to_nat (start_index l)) path ++ [midpoint l] ++ drop (Z.to_nat (end_index l + 1)) path.

Lemma cut_nil k path : cut [] k path = path.
Proof. revert k. induction path as [|p path IH]; intros k; [done|]. simpl. by rewrite IH. Qed.

Lemma cut_app ls l1 l2 : forall k, cut ls k (l1 ++ l2) = cut ls k l1 ++ cut ls (k + zlen l1) l2.
Proof.
  induction l1 as [|p l1 IH]; intros k; [simpl; by rewrite Z.add_0_r|]. cbn [cut app]. rewrite IH, length_cons.
  replace (k + 1 + zlen l1) with (k + Z.of_nat (S (length l1))) by lia. by destruct (cut_at ls k p).
Qed.

(** Two cuts of the same points agree where each point fares the same. *)
Lemma cut_ext ls ls' path : forall k k',
  (forall j p, 0 <= j < zlen path -> cut_at ls (k + j) p = cut_at ls' (k' + j) p) -> cut ls k path = cut ls' k' path.
Proof.
  induction path as [|p path IH]; intros k k' He; [done|]. rewrite length_cons in He. cbn [cut].
  replace (cut_at ls k p) with (cut_at ls' k' p).
  2:{ specialize (He 0 p ltac:(lia)). by rewrite !Z.add_0_r in He. }
  assert (E : cut ls (k + 1) path = cut ls' (k' + 1) path); [|by rewrite E].
  apply IH. intros j q Hj. specialize (He (1 + j) q ltac:(lia)). by rewrite !Z.add_assoc in He.
Qed.

Lemma cut_none ls path : forall k, (forall j p, 0 <= j < zlen path -> cut_at ls (k + j) p = None) -> cut ls k path = [].
Proof.
  induction path as [|p path IH]; intros k He; [done|]. rewrite length_cons in He. cbn [cut].
  pose proof (He 0 p ltac:(lia)) as H0. rewrite Z.add_0_r in H0. rewrite H0. apply IH.
  intros j q Hj. specialize (He (1 + j) q ltac:(lia)). by rewrite Z.add_assoc in He.
Qed.

Lemma find_snoc {A} (f : A -> bool) l x :
  find f (l ++ [x]) = match find f l with Some y => Some y | None => if f x then Some x else None end.
Proof. induction l as [|y l IH]; simpl; [done|]. by destruct (f y). Qed.

Lemma find_false {A} (f : A -> bool) l : Forall (fun x => f x = false) l -> find f l = None.
Proof. induction 1 as [|x l Hx _ IH]; simpl; [done|]. by rewrite Hx. Qed.

Lemma find_map_ext {A} (f g : A -> bool) (h : A -> A) l : Forall (fun x => g (h x) = f x) l ->
  find g (map h l) = h <$> find f l.
Proof. induction 1 as [|x l Hx _ IH]; simpl; [done|]. rewrite Hx. by destruct (f x). Qed.

(** The indices of a loop [l'], apart from the loop [l], when [l] is gone. *)
Lemma fix_spec bound l l' : bound <= 65536 -> in_bounds bound l -> in_bounds bound l' -> disjoint_loops l' l ->
  let n := end_index l - start_index l in
  midpoint (fix_indices l n l') = midpoint l' /\
  (end_index l' < start_index l /\ start_index (fix_indices l n l') = start_index l' /\
     end_index (fix_indices l n l') = end_index l' \/
   end_index l < start_index l' /\ start_index (fix_indices l n l') = start_index l' - n /\
     end_index (fix_indices l n l') = end_index l' - n).
Proof.
  intros Hbd [Hl1 Hl2] [Hl1' Hl2'] Hd n. split; [done|]. unfold fix_indices. cbn [start_index end_index].
  rewrite !Z.geb_leb. unfold disjoint_loops in Hd.
  destruct (Z.leb_spec (end_index l) (start_index l')), (Z.leb_spec (end_index l) (end_index l')); try lia.
  right. rewrite !u16_small by lia. lia.
Qed.

Section step.
Context (bound : Z) (ls : list prune_loop_t) (l : prune_loop_t).
Hypothesis Hbound : bound <= 65536.
Hypothesis Hgood : good_loops bound (ls ++ [l]).
#[local] Abbreviation n := (end_index l - start_index l).

Lemma last_loop : 1 <= start_index l < end_index l /\ end_index l < bound.
Proof. by apply good_snoc in Hgood as (_ & ? & _). Qed.

Lemma fixed : Forall (fun l' => let f := fix_indices l n l' in midpoint f = midpoint l' /\ 
  (1 <= start_index l' < end_index l' /\ end_index l' < start_index l /\
     start_index f = start_index l' /\ end_index f = end_index l' \/
   end_index l < start_index l' /\ start_index l' < end_index l' < bound /\
     start_index f = start_index l' - n /\ end_index f = end_index l' - n)) ls.
Proof.
  apply good_snoc in Hgood as ([Hb _] & Hl & Hd). apply Forall_forall. intros l' Hin.
  pose proof (proj1 (Forall_forall _ _) Hb l' Hin) as Hl'. pose proof (proj1 (Forall_forall _ _) Hd l' Hin) as Hd'.
  destruct (fix_spec bound l l' Hbound Hl Hl' Hd') as [Hm Hf]. split; [done|]. destruct Hl', Hf; lia.
Qed.

(** The other loops stay in the array and apart. *)
Lemma good_fixed : good_loops (bound - n) (map (fix_indices l n) ls).
Proof.
  pose proof fixed as Hf. apply good_snoc in Hgood as ([Hb Hp] & [Hl1 Hl2] & _). split.
  - apply Forall_map. eapply Forall_impl; [exact Hf|]. intros l' [_ H]. unfold in_bounds. simpl in *. lia.
  - clear Hb. induction Hp as [|x r Hx Hp IH]; [constructor|]. apply Forall_cons in Hf as [Hfx Hf]. simpl.
    constructor; [|by apply IH]. apply Forall_map. apply Forall_forall. intros y Hy.
    pose proof (proj1 (Forall_forall _ _) Hx y Hy) as Hxy. pose proof (proj1 (Forall_forall _ _) Hf y Hy) as Hfy.
    unfold disjoint_loops in *. destruct Hfx as [_ Hfx], Hfy as [_ Hfy]. simpl in *. lia.
Qed.

Lemma cut_at_before k p : k < start_index l ->
  cut_at (ls ++ [l]) k p = cut_at (map (fix_indices l n) ls) k p.
Proof.
  intros Hk. pose proof last_loop. unfold cut_at. rewrite find_snoc.
  assert (Hl : inside k l = false) by (unfold inside; destruct (Z.leb_spec (start_index l) k); [lia|done]).
  rewrite Hl. rewrite (find_map_ext (inside k)).
  2:{ eapply Forall_impl; [exact fixed|]. intros l' [_ Hf]. unfold inside. cbn zeta in Hf.
      destruct Hf as [(H1 & H2 & -> & ->)|(H1 & H2 & -> & ->)]; [done|].
      rewrite (proj2 (Z.leb_gt _ k)) by lia. by rewrite (proj2 (Z.leb_gt (start_index l') k)) by lia. }
  destruct (find _ ls) as [l'|] eqn:E; [|done]. cbn [fmap option_fmap option_map]. apply find_some in E as [Hin Hk'].
  apply list_elem_of_In in Hin. destruct (proj1 (Forall_forall _ _) fixed l' Hin) as [Hm Hf].
  cbn zeta in Hm, Hf. unfold inside in Hk'. 
  destruct Hf as [(H1 & H2 & -> & _)|(H1 & H2 & -> & _)]; [done|]. lia.
Qed.

Lemma cut_at_after k p : end_index l < k ->
  cut_at (ls ++ [l]) k p = cut_at (map (fix_indices l n) ls) (k - n) p.
Proof.
  intros Hk. pose proof last_loop. unfold cut_at. rewrite find_snoc.
  assert (Hl : inside k l = false).
  { unfold inside. by rewrite (proj2 (Z.leb_gt k _)), andb_false_r by lia. }
  rewrite Hl. rewrite (find_map_ext (inside k)).
  2:{ eapply Forall_impl; [exact fixed|]. intros l' [_ Hf]. unfold inside. cbn zeta in Hf.
      destruct Hf as [(H1 & H2 & -> & ->)|(H1 & H2 & -> & ->)].
      - rewrite (proj2 (Z.leb_gt (k - n) (end_index l'))) by lia.
        by rewrite (proj2 (Z.leb_gt k (end_index l'))), !andb_false_r by lia.
      - f_equal; apply eq_bool_prop_intro; rewrite !Is_true_true, !Z.leb_le; lia. }
  destruct (find _ ls) as [l'|] eqn:E; [|done]. cbn [fmap option_fmap option_map]. apply find_some in E as [Hin Hk'].
  apply list_elem_of_In in Hin. destruct (proj1 (Forall_forall _ _) fixed l' Hin) as [Hm Hf].
  cbn zeta in Hm, Hf. unfold inside in Hk'.
  destruct Hf as [(H1 & H2 & -> & _)|(H1 & H2 & -> & _)]; [lia|].
  replace (k - n =? start_index l' - n) with (k =? start_index l'); [done|].
  apply eq_bool_prop_intro. rewrite !Is_true_true, !Z.eqb_eq. lia.
Qed.

Lemma cut_at_within k p : start_index l <= k <= end_index l ->
  cut_at (ls ++ [l]) k p = if k =? start_index l then Some (midpoint l) else None.
Proof.
  intros Hk. pose proof last_loop. unfold cut_at. rewrite find_snoc, find_false.
  - unfold inside. by rewrite !(proj2 (Z.leb_le _ _)) by lia.
  - eapply Forall_impl; [exact fixed|]. intros l' [_ Hf]. unfold inside. cbn zeta in Hf.
    destruct Hf as [(H1 & H2 & _)|(H1 & H2 & _)].
    + by rewrite (proj2 (Z.leb_gt k _)), andb_false_r by lia.
    + by rewrite (proj2 (Z.leb_gt _ k)) by lia.
Qed.

(** Cutting the last loop first, then the others with their new indices. *)
Lemma cut_step path : bound <= zlen path ->
  cut (ls ++ [l]) 0 path = cut (map (fix_indices l n) ls) 0 (cut_one l path).
Proof.
  intros Hp. pose proof Hgood as Hg. apply good_snoc in Hg as (_ & [Hl1 Hl2] & _).
  set (A := take (Z.to_nat (start_index l)) path). set (C := drop (Z.to_nat (end_index l + 1)) path).
  set (B := take (Z.to_nat n) (drop (Z.to_nat (start_index l + 1)) path)).
  destruct (lookup_lt_is_Some_2 path (Z.to_nat (start_index l))) as [p Hps]; [lia|].
  assert (Epath : path = A ++ [p] ++ B ++ C).
  { unfold A, B, C. replace (Z.to_nat (end_index l + 1)) with (Z.to_nat (start_index l + 1) + Z.to_nat n)%nat by lia.
    rewrite <- drop_drop, take_drop. replace (Z.to_nat (start_index l + 1)) with (S (Z.to_nat (start_index l))) by lia.
    simpl. by rewrite take_drop_middle. }
  assert (HA : zlen A = start_index l) by (unfold A; rewrite length_take; lia).
  assert (HB : zlen B = n) by (unfold B; rewrite length_take, length_drop; lia).
  unfold cut_one. fold A C. rewrite Epath at 1. rewrite !cut_app, !HA, HB. cbn [length].
  rewrite (cut_none (ls ++ [l]) B).
  2:{ intros j q Hj. rewrite cut_at_within by lia. rewrite (proj2 (Z.eqb_neq _ _)) by lia. done. }
  rewrite !(cut_ext (ls ++ [l]) (map (fix_indices l n) ls) A 0 0).
  2:{ intros j q Hj. apply cut_at_before. lia. }
  f_equal. assert (Hmid : cut (map (fix_indices l n) ls) (0 + start_index l) [midpoint l] = [midpoint l]).
  { rewrite Z.add_0_l. cbn [cut]. unfold cut_at. rewrite find_false; [done|]. apply Forall_map.
    eapply Forall_impl; [exact fixed|]. intros l' [_ Hf]. unfold compose, inside. cbn zeta in Hf.
    destruct Hf as [(H1 & H2 & -> & ->)|(H1 & H2 & -> & ->)].
    - by rewrite (proj2 (Z.leb_gt (start_index l) (end_index l'))), andb_false_r by lia.
    - by rewrite (proj2 (Z.leb_gt _ (start_index l))) by lia. }
  rewrite Hmid. cbn [cut]. rewrite Z.add_0_l, cut_at_within, Z.eqb_refl by lia. cbn [app]. f_equal.
  apply cut_ext. intros j q Hj. rewrite cut_at_after by lia. f_equal. lia.
Qed.
End step.

(** * Removal *)

Lemma shift_down_spec n : forall dest by_ path, 0 <= dest -> 0 <= by_ -> dest + by_ + Z.of_nat n <= zlen path ->
  zlen path < 65536 ->
  exists path', shift_down n dest by_ path = Done path' /\ length path' = length path /\
    forall k : nat, path' !! k =
      if decide (dest <= Z.of_nat k < dest + Z.of_nat n) then path !! (k + Z.to_nat by_)%nat else path !! k.
Proof.
  induction n as [|n IH]; intros dest by_ path Hd Hb Hn Hp.
  - exists path. split; [done|]. split; [done|]. intros k. by rewrite decide_False by lia.
  - destruct (arr_get_Some path (dest + by_)) as [p Hpi]; [lia|]. simpl. rewrite Hpi.
    cbn [access mbind outcome_bind]. rewrite arr_set_Some by lia. cbn [access mbind outcome_bind].
    rewrite arr_get_lookup in Hpi by lia. rewrite u16_small by lia.
    destruct (IH (dest + 1) by_ (<[Z.to_nat dest := p]> path)) as (path' & E & Hl & Hk);
      rewrite ?length_insert; try lia.
    exists path'. split; [done|]. rewrite length_insert in Hl. split; [done|]. intros k. rewrite Hk.
    destruct (decide (Z.of_nat k = dest)) as [E1|].
    + rewrite decide_False, decide_True by lia. replace k with (Z.to_nat dest) by lia.
      rewrite list_lookup_insert_eq by lia. rewrite <- Hpi. f_equal. lia.
    + repeat case_decide; try lia; by rewrite list_lookup_insert_ne by lia.
Qed.

Lemma remove_one_spec l count path : in_bounds (zlen path) l -> 0 <= count <= zlen path -> zlen path < 65536 ->
  exists path', remove_one l count path = Done path' /\ length path' = length path /\
    (end_index l < count ->
     take (Z.to_nat (count - (end_index l - start_index l))) path' = cut_one l (take (Z.to_nat count) path)).
Proof.
  intros [Hl1 Hl2] Hc Hp. unfold remove_one. rewrite arr_set_Some by lia. cbn [access mbind outcome_bind].
  rewrite !u16_small by lia. set (n := end_index l - start_index l).
  set (path1 := <[Z.to_nat (start_index l) := midpoint l]> path).
  assert (Hl : length path1 = length path) by (unfold path1; by rewrite length_insert).
  destruct (shift_down_spec (Z.to_nat (count - n - (start_index l + 1))) (start_index l + 1) n path1)
    as (path' & E & Hl' & Hk); try (unfold n; lia).
  exists path'. split; [done|]. split; [lia|]. intros He. unfold cut_one. apply list_eq. intros k.
  rewrite take_take. replace (Z.to_nat (start_index l) `min` Z.to_nat count)%nat with (Z.to_nat (start_index l)) by lia.
  destruct (decide (Z.of_nat k < count - n)) as [Hkc|Hkc].
  - rewrite lookup_take_lt, Hk by lia. destruct (decide (Z.of_nat k < start_index l)) as [Hlt|Hlt].
    { rewrite decide_False by lia. rewrite lookup_app_l by (rewrite length_take; lia).
      rewrite lookup_take_lt by lia. unfold path1. by rewrite list_lookup_insert_ne by lia. }
    rewrite lookup_app_r by (rewrite length_take; lia). rewrite length_take_le by lia.
    destruct (decide (Z.of_nat k = start_index l)) as [Eq|Hne].
    + rewrite decide_False by lia. replace k with (Z.to_nat (start_index l)) by lia. rewrite Nat.sub_diag.
      unfold path1. by rewrite list_lookup_insert_eq by lia.
    + rewrite decide_True by (unfold n in *; lia). unfold path1. rewrite list_lookup_insert_ne by (unfold n; lia).
      rewrite lookup_app_r by (simpl; lia). cbn [length]. rewrite lookup_drop, lookup_take_lt by (unfold n in *; lia).
      f_equal. unfold n. lia.
  - rewrite lookup_take_ge by lia. symmetry. apply lookup_ge_None_2.
    rewrite !length_app, length_drop, !length_take. cbn [length]. unfold n in *. lia.
Qed.

Definition live (p : prune_t) : list prune_loop_t := take (Z.to_nat (loops_count p)) (loops p).
Definition points (s : t) : list Vector3f := take (Z.to_nat (_path_points_count s)) (_path s).
Definition size (ls : list prune_loop_t) : Z := foldr (fun l n => end_index l - start_index l + n) 0 ls.

(** Only the path and the loops change. *)
Definition rest_kept (s s' : t) : Prop :=
  s' = set_prune (set_path s (_path s') (_path_points_count s'))
         (set_loops (_prune s) (loops (_prune s')) (loops_count (_prune s'))) /\
  length (_path s') = length (_path s) /\ length (loops (_prune s')) = length (loops (_prune s)).

Lemma rest_kept_refl s : rest_kept s s.
Proof. split; [|done]. by destruct s as [? ? ? ? ? ? ? ? ? ? ? []]. Qed.

Lemma size_snoc ls l : size (ls ++ [l]) = size ls + (end_index l - start_index l).
Proof. unfold size. induction ls as [|x ls IH]; simpl; [lia|]. rewrite IH. lia. Qed.

Lemma size_fixed bound ls l : bound <= 65536 -> good_loops bound (ls ++ [l]) -> forall m,
  size (drop m (map (fix_indices l (end_index l - start_index l)) ls)) = size (drop m ls).
Proof.
  intros Hb Hg m. pose proof (fixed bound ls l Hb Hg) as Hf. rewrite <- fmap_drop. apply Forall_drop with (n := m) in Hf.
  induction Hf as [|x r [_ Hx] Hf IH]; [done|]. unfold size in *. cbn [fmap list_fmap foldr].
  rewrite IH. cbn zeta in Hx. lia.
Qed.

Lemma drop_app_le' {A} (l1 l2 : list A) m : (m <= length l1)%nat -> drop m (l1 ++ l2) = drop m l1 ++ l2.
Proof. intros Hm. rewrite drop_app. by replace (m - length l1)%nat with O by lia. Qed.

Lemma good_drop bound ls m : good_loops bound ls -> good_loops bound (drop m ls).
Proof.
  intros [Hb Hd]. split; [by apply Forall_drop|]. clear Hb. revert m.
  induction Hd as [|x r Hx Hd IH]; intros m; [rewrite drop_nil; constructor|].
  destruct m as [|m]; [by constructor|]. apply IH.
Qed.

(** The loops from the last one down, until enough points are gone. *)
Record removed_loops (num removed : Z) (s s' : t) (m : nat) : Prop := {
  removed_rest : rest_kept s s';
  removed_count : loops_count (_prune s') = Z.of_nat m;
  removed_some : (m <= length (live (_prune s)))%nat;
  removed_points : points s' = cut (drop m (live (_prune s))) 0 (points s);
  removed_size : _path_points_count s' = _path_points_count s - size (drop m (live (_prune s)));
  removed_good : good_loops (_path_points_count s') (live (_prune s'));
  removed_live : cut (live (_prune s')) 0 (points s') = cut (live (_prune s)) 0 (points s);
  removed_enough : m = O \/ num <= removed + size (drop m (live (_prune s)));
  removed_needed : forall j, (m < j <= length (live (_prune s)))%nat ->
    removed + size (drop j (live (_prune s))) < num
}.

Lemma remove_loops_spec i : forall num removed s,
  loops_count (_prune s) = Z.of_nat i -> loops_count (_prune s) <= loops_max (_prune s) < 65536 ->
  good_loops (_path_points_count s) (live (_prune s)) -> 0 < _path_points_count s <= zlen (_path s) ->
  zlen (_path s) <= SMARTRTL_POINTS_MAX -> 0 <= removed -> removed + _path_points_count s <= 65535 ->
  exists s' m, remove_loops i num removed s = Done s' /\ removed_loops num removed s s' m.
Proof.
  unfold SMARTRTL_POINTS_MAX, loops_max.
  induction i as [|i IH]; intros num removed s Hi Hm Hg Hc Hp Hr0 Hr.
  { exists s, O. split; [done|]. assert (E : live (_prune s) = []) by (unfold live; by rewrite Hi).
    constructor; rewrite ?E; simpl; try done; try lia.
    - apply rest_kept_refl.
    - by rewrite cut_nil.
    - by rewrite E in Hg. }
  assert (Hlen : (i < length (loops (_prune s)))%nat) by lia.
  destruct (lookup_lt_is_Some_2 (loops (_prune s)) i Hlen) as [l Hl].
  set (ls := take i (loops (_prune s))).
  assert (Hlive : live (_prune s) = ls ++ [l]).
  { unfold live. rewrite Hi, Nat2Z.id. by apply take_S_r. }
  assert (Hlls : length ls = i) by (unfold ls; rewrite length_take; lia).
  cbn [remove_loops]. destruct (Z.ltb_spec removed num) as [Hlt|Hge].
  2:{ exists s, (S i). split; [done|]. constructor.
      - apply rest_kept_refl.
      - done.
      - rewrite Hlive, length_app. simpl. lia.
      - rewrite Hlive, drop_ge, cut_nil by (rewrite length_app; simpl; lia). done.
      - rewrite Hlive, drop_ge by (rewrite length_app; simpl; lia). simpl. lia.
      - done.
      - done.
      - right. rewrite Hlive, drop_ge by (rewrite length_app; simpl; lia). simpl. lia.
      - intros j. rewrite Hlive, length_app. simpl. lia. }
  rewrite Hlive in Hg. pose proof Hg as Hg1. apply good_snoc in Hg1 as (Hgls & [Hl1 Hl2] & Hd).
  set (n := end_index l - start_index l) in *.
  rewrite arr_get_lookup, Nat2Z.id, Hl by lia. cbn [access mbind outcome_bind].
  destruct (remove_one_spec l (_path_points_count s) (_path s)) as (path' & E & Hlp & Htake);
    [split; lia|lia|lia|]. specialize (Htake Hl2).
  rewrite E. cbn [mbind outcome_bind]. rewrite (u16_small (end_index l - start_index l)) by lia. fold n.
  rewrite Z.gtb_ltb, (proj2 (Z.ltb_lt n _)) by (unfold n; lia). rewrite (u16_small (removed + n)) by (unfold n; lia).
  match goal with |- context [remove_loops i num _ ?x] => set (s1 := x) end.
  set (ls1 := map (fix_indices l n) ls).
  assert (Hlls1 : length ls1 = i) by (unfold ls1; by rewrite length_map).
  assert (Hlive1 : live (_prune s1) = ls1).
  { unfold live, s1. cbn. rewrite Hi. replace (u16 (Z.of_nat (S i) - 1)) with (Z.of_nat i) by (rewrite u16_small; lia).
    rewrite Nat2Z.id. fold ls ls1. by rewrite take_app_length'. }
  assert (Hpoints1 : points s1 = cut_one l (points s)) by exact Htake.
  assert (Hg' : good_loops (_path_points_count s1) (live (_prune s1))).
  { rewrite Hlive1. apply (good_fixed (_path_points_count s) ls l); [lia|done]. }
  assert (Hcount1 : loops_count (_prune s1) = Z.of_nat i).
  { unfold s1. cbn. rewrite Hi, u16_small by lia. lia. }
  assert (Hloops1 : length (loops (_prune s1)) = length (loops (_prune s))).
  { unfold s1. cbn. fold ls. rewrite length_app, length_map, length_drop, Hlls. lia. }
  destruct (IH num (removed + n) s1 Hcount1) as (s' & m & Es & [Hrest Hcm Hsome Hpts Hsz Hgd Hcut Hen Hne]);
    [rewrite Hcount1, Hloops1; lia|done|cbn; unfold n; lia|cbn; lia|unfold n; lia|cbn; unfold n; lia|].
  exists s', m. split; [done|]. rewrite Hlive1 in *.
  assert (Hm' : (m <= i)%nat) by lia.
  assert (Hdrop : forall j, (j <= i)%nat -> drop j (ls ++ [l]) = drop j ls ++ [l]).
  { intros j Hj. apply drop_app_le'. lia. }
  assert (Hsize : forall j, (j <= i)%nat -> size (drop j (ls ++ [l])) = size (drop j ls1) + n).
  { intros j Hj. rewrite Hdrop, size_snoc by done. unfold ls1, n.
    by rewrite (size_fixed (_path_points_count s) ls l) by (done || lia). }
  assert (Hstep : forall r, good_loops (_path_points_count s) (r ++ [l]) ->
    cut (r ++ [l]) 0 (points s) = cut (map (fix_indices l n) r) 0 (points s1)).
  { intros r Hr'. rewrite Hpoints1. apply (cut_step (_path_points_count s)); [lia|done|].
    unfold points. rewrite length_take. lia. }
  destruct Hrest as (Hs' & Hl1' & Hl2'). constructor.
  - split; [rewrite Hs'; by destruct s as [? ? ? ? ? ? ? ? ? ? ? []]|]. split; [by rewrite Hl1'|by rewrite Hl2'].
  - done.
  - rewrite Hlive, length_app. simpl. lia.
  - rewrite Hlive, Hdrop, Hstep, Hpts by (done || rewrite <- Hdrop by done; by apply good_drop).
    f_equal. unfold ls1. by rewrite fmap_drop.
  - rewrite Hlive, Hsize, Hsz by done. cbn. fold n. lia.
  - done.
  - rewrite Hlive, Hcut, Hstep by done. done.
  - rewrite Hlive, Hsize by done. destruct Hen; [by left|right; lia].
  - intros j. rewrite Hlive, length_app. cbn [length]. intros Hj. destruct (decide (j <= i)%nat) as [Hji|].
    + rewrite Hsize by done. specialize (Hne j ltac:(lia)). lia.
    + rewrite drop_ge by (rewrite length_app; simpl; lia). simpl. lia.
Qed.
