(* ===== verification/SmartRTLLoops.v ===== *)
(** What pruning does to the way back: the search for loops never leaves its arrays and
    always ends, each recorded loop is a place where the path comes near itself, and
    the removal cuts the recorded loops out. *)
From S2P Require Import Prelude Float32 HalStorage HalStorageSpec SmartRTL SmartRTLSpec SmartRTLPrune.
Open Scope urus_scope.
Import SmartRTL.
#[local] Abbreviation length := (@Datatypes.length _).

(** * Recording a loop *)

Lemma add_lengths_defined n : forall i path sum, 0 <= i -> i + Z.of_nat n < zlen path -> zlen path < 65536 ->
  exists r, add_lengths n i path sum = Done r.
Proof.
  induction n as [|n IH]; intros i path sum Hi Hn Hp; [by eexists|]. simpl.
  destruct (arr_get_Some path i) as [p Hpi]; [lia|]. destruct (arr_get_Some path (i + 1)) as [p' Hpi']; [lia|].
  rewrite Hpi. cbn [access mbind outcome_bind]. rewrite Hpi'. cbn [access mbind outcome_bind].
  rewrite u16_small by lia. apply IH; lia.
Qed.

Lemma drop_cons_get {A} (l : list A) i x : 0 <= i -> arr_get l i = Some x ->
  drop (Z.to_nat i) l = x :: drop (Z.to_nat (i + 1)) l.
Proof.
  intros Hi Hx. rewrite arr_get_lookup in Hx by done. rewrite (drop_S _ _ _ Hx). do 2 f_equal. lia.
Qed.

Lemma overlapping_spec new n : forall idx ls any sum, 0 <= idx -> idx + Z.of_nat n <= zlen ls -> zlen ls < 65536 ->
  exists r, overlapping n idx ls new any sum =
    Done (any || existsb (fun l => loops_overlap l new) (take n (drop (Z.to_nat idx) ls)), r).
Proof.
  induction n as [|n IH]; intros idx ls any sum Hi Hn Hl; [exists sum; simpl; by rewrite orb_false_r|]. simpl.
  destruct (arr_get_Some ls idx) as [l Hli]; [lia|]. rewrite Hli. cbn [access mbind outcome_bind].
  rewrite u16_small by lia. rewrite (drop_cons_get ls idx l) by done. cbn [take existsb].
  destruct (loops_overlap l new).
  - destruct (IH (idx + 1) ls true (sum + length_squared l)%f32) as [r E]; [lia..|]. exists r. rewrite E.
    by destruct any.
  - destruct (IH (idx + 1) ls any sum) as [r E]; [lia..|]. by exists r.
Qed.

Lemma take_insert_snoc {A} (l : list A) (i : Z) x : 0 <= i < zlen l ->
  take (Z.to_nat (i + 1)) (<[Z.to_nat i := x]> l) = take (Z.to_nat i) l ++ [x].
Proof.
  intros Hi. replace (Z.to_nat (i + 1)) with (S (Z.to_nat i)) by lia.
  rewrite (take_S_r _ _ x) by (apply list_lookup_insert_eq; lia). by rewrite take_insert_ge by lia.
Qed.

Lemma filter_all {A} (P : A -> Prop) `{!forall x, Decision (P x)} l : Forall P l -> filter P l = l.
Proof. induction 1 as [|x l Hx _ IH]; [done|]. by rewrite filter_cons_True, IH. Qed.

Abbreviation apart new := (filter (fun l => loops_overlap l new = false)).

Lemma drop_overlapping_spec new n : forall src dest removed ls,
  0 <= dest <= src -> removed = src - dest -> src + Z.of_nat n <= zlen ls -> zlen ls < 65536 ->
  let r := apart new (take n (drop (Z.to_nat src) ls)) in
  exists ls', drop_overlapping n src dest removed ls new = Done (ls', src + Z.of_nat n - (dest + zlen r)) /\
    length ls' = length ls /\ take (Z.to_nat (dest + zlen r)) ls' = take (Z.to_nat dest) ls ++ r.
Proof.
  induction n as [|n IH]; intros src dest removed ls Hd -> Hn Hp; cbn zeta.
  { exists ls. simpl. rewrite app_nil_r. split; [do 2 f_equal; lia|]. by rewrite Z.add_0_r. }
  destruct (arr_get_Some ls src) as [l Hl]; [lia|]. rewrite (drop_cons_get ls src l) by (done || lia).
  cbn [take]. rewrite filter_cons. cbn [drop_overlapping]. rewrite Hl. cbn [access mbind outcome_bind].
  rewrite (u16_small (src + 1)), (u16_small (src - dest + 1)) by lia. destruct (loops_overlap l new).
  - rewrite decide_False by done.
    destruct (IH (src + 1) dest (src - dest + 1) ls) as (ls' & E & Hl' & Ht); [lia..|].
    exists ls'. rewrite E. split; [do 2 f_equal; lia|]. by split.
  - rewrite decide_True by done. rewrite arr_set_Some by lia. cbn [access mbind outcome_bind].
    rewrite u16_small by lia. set (ls1 := <[Z.to_nat dest := l]> ls).
    assert (Hl1 : length ls1 = length ls) by (unfold ls1; by rewrite length_insert).
    destruct (IH (src + 1) (dest + 1) (src - dest) ls1) as (ls' & E & Hl' & Ht); [lia..|].
    assert (Ed : drop (Z.to_nat (src + 1)) ls1 = drop (Z.to_nat (src + 1)) ls).
    { unfold ls1. by rewrite drop_insert_lt by lia. }
    rewrite Ed in E, Ht. exists ls'. rewrite E, length_cons. split; [do 2 f_equal; lia|]. split; [lia|].
    unfold ls1 in Ht. rewrite take_insert_snoc in Ht by lia. rewrite <- app_assoc in Ht. cbn [app] in Ht.
    rewrite <- Ht. f_equal. lia.
Qed.

(** Only the loops change. *)
Definition search_kept (p p' : prune_t) : Prop :=
  p' = set_loops p (loops p') (loops_count p') /\ length (loops p') = length (loops p).

Definition counted (p : prune_t) : Prop := 0 <= loops_count p <= loops_max p /\ loops_max p < 65536.

Lemma live_nonempty p : counted p -> live p <> [] <-> 0 < loops_count p.
Proof.
  unfold counted, loops_max. intros [Hc _]. unfold live. split.
  - intros Hl. destruct (decide (loops_count p = 0)) as [E|]; [|lia]. by rewrite E in Hl.
  - intros H0 Hl. apply (f_equal (fun l => zlen l)) in Hl. rewrite length_take in Hl. simpl in Hl. lia.
Qed.

(** A new loop is recorded last, in the place of those that it overlaps, or not at all. *)
Lemma add_loop_spec bound path s e m p : good_loops bound (live p) -> counted p -> 1 <= s < e -> e < bound ->
  bound <= zlen path -> zlen path < 65536 ->
  exists ok p', add_loop path s e m p = Done (ok, p') /\ search_kept p p' /\ counted p' /\
    good_loops bound (live p') /\
    (live p' = live p \/ exists len, live p' = apart (Loop s e m len) (live p) ++ [Loop s e m len]) /\
    (0 < loops_max p -> live p' <> []).
Proof.
  unfold counted, loops_max. intros Hg [Hc Hm] Hs He Hb Hp. unfold add_loop. rewrite Z.geb_leb.
  assert (Hsame : search_kept p p) by (split; [by destruct p|done]). unfold loops_max.
  destruct (Z.leb_spec (zlen (loops p)) (loops_count p)).
  { exists false, p. split; [done|]. split; [done|]. split; [done|]. split; [done|]. split; [by left|].
    intros Hm0. apply live_nonempty; [done|lia]. }
  rewrite (proj2 (Z.leb_gt e s)) by lia.
  destruct (arr_get_Some path s) as [a Ha]; [lia|]. rewrite Ha. cbn [access mbind outcome_bind].
  destruct (arr_get_Some path e) as [b Hbp]; [lia|]. rewrite Hbp. cbn [access mbind outcome_bind].
  destruct (add_lengths_defined (Z.to_nat (e - s)) s path
    (Vector3.distance_squared m a + Vector3.distance_squared m b)%f32) as [len Hlen]; [lia..|].
  rewrite Hlen. cbn [mbind outcome_bind]. set (new := Loop s e m len).
  destruct (overlapping_spec new (Z.to_nat (loops_count p)) 0 (loops p) false (f32_of_Z 0)) as [sum E]; [lia..|].
  rewrite E. cbn [mbind outcome_bind orb]. clear E. change (drop (Z.to_nat 0) (loops p)) with (loops p).
  fold (live p). set (any := existsb _ (live p)).
  destruct (any && f32_lt len sum) eqn:Hdiscard.
  { exists true, p. split; [done|]. split; [done|]. split; [done|]. split; [done|]. split; [by left|].
    intros _ El. apply andb_true_iff in Hdiscard as [Hany _]. subst any. by rewrite El in Hany. }
  assert (Hr : exists ls, (if any then drop_overlapping (Z.to_nat (loops_count p)) 0 0 0 (loops p) new
      else Done (loops p, 0)) = Done (ls, loops_count p - zlen (apart new (live p))) /\
      length ls = length (loops p) /\ take (Z.to_nat (zlen (apart new (live p)))) ls = apart new (live p)).
  { assert (Hll : zlen (live p) = loops_count p) by (unfold live; rewrite length_take; lia).
    destruct any eqn:Hany.
    - destruct (drop_overlapping_spec new (Z.to_nat (loops_count p)) 0 0 0 (loops p)) as (ls & E & Hl & Ht); [lia..|].
      exists ls. rewrite E. change (drop (Z.to_nat 0) (loops p)) with (loops p) in *. fold (live p) in *.
      split; [do 2 f_equal; lia|]. by split.
    - exists (loops p). assert (Ha' : apart new (live p) = live p).
      { apply filter_all, Forall_forall. intros l Hl. subst any. destruct (loops_overlap l new) eqn:Ho; [|done].
        apply not_true_iff_false in Hany. exfalso. apply Hany, existsb_exists. exists l. split; [|done].
        by apply list_elem_of_In. }
      rewrite Ha', Hll. split; [do 2 f_equal; lia|]. done. }
  destruct Hr as (ls & -> & Hl & Ht). cbn [mbind outcome_bind].
  assert (Hcount : zlen (apart new (live p)) <= loops_count p).
  { etrans; [|apply Z.eq_le_incl; instantiate (1 := zlen (live p)); unfold live; rewrite length_take; lia].
    apply inj_le, length_filter. }
  rewrite (u16_small (loops_count p - _)) by lia.
  replace (loops_count p - (loops_count p - zlen (apart new (live p)))) with (zlen (apart new (live p))) by lia.
  rewrite arr_set_Some by lia. cbn [access mbind outcome_bind]. rewrite u16_small by lia.
  eexists true, _. split; [reflexivity|]. unfold search_kept. cbn [loops loops_count set_loops].
  assert (Hlive : live (set_loops p (<[Z.to_nat (zlen (apart new (live p))) := new]> ls)
      (zlen (apart new (live p)) + 1)) = apart new (live p) ++ [new]).
  { unfold live at 1. cbn [loops loops_count set_loops]. rewrite take_insert_snoc by lia. by rewrite Ht. }
  rewrite Hlive, length_insert. split; [by split|]. split; [lia|].
  split; [|split; [right; by exists len|intros _; by destruct (apart new (live p))]].
  apply good_snoc. split; [by apply good_filter|]. split; [done|]. apply Forall_forall.
  intros l [Ho Hin]%list_elem_of_filter. pose proof (proj1 (Forall_forall _ _) (proj1 Hg) l Hin) as [Hl1 Hl2].
  apply loops_overlap_spec; [lia|simpl; lia|done].
Qed.

(** * The search *)

Section search.
Context (_accuracy : spec_float).
#[local] Abbreviation MAX := SMARTRTL_POINTS_MAX.

(** A loop that the search may record: the segment after it comes near the segment
    before it, with its midpoint. *)
Definition near_miss (path : list Vector3f) (l : prune_loop_t) : Prop :=
  exists p1 p2 p3 p4 d, arr_get path (end_index l + 1) = Some p1 /\ arr_get path (end_index l) = Some p2 /\
    arr_get path (start_index l - 1) = Some p3 /\ arr_get path (start_index l) = Some p4 /\
    segment_segment_dist p1 p2 p3 p4 = (d, midpoint l) /\ near _accuracy d = true.

(** The recorded loops, of the first [n] points of a path; with [strict], they are
    near misses on this path. *)
Record loops_inv (strict : bool) (path : list Vector3f) (n : Z) (p : prune_t) : Prop := {
  li_counted : counted p;
  li_good : good_loops (n - 1) (live p);
  li_near : strict = true -> Forall (near_miss path) (live p)
}.

(** Where the search stands. *)
Definition search_at (n : Z) (p : prune_t) : Prop := 3 <= p_i p < n /\ 0 <= p_j p <= n.

Definition fuel_enough (fuel : nat) : Prop := 2 ^ 18 <= Z.of_nat fuel.
Definition steps (p : prune_t) : Z := p_i p * 512 - p_j p + 512.

(** The segments that end at the points [i] and [j] come near each other. *)
Definition near_pair (path : list Vector3f) (i j : Z) : bool :=
  match arr_get path i, arr_get path (i - 1), arr_get path (j - 1), arr_get path j with
  | Some p1, Some p2, Some p3, Some p4 => near _accuracy (segment_segment_dist p1 p2 p3 p4).1
  | _, _, _, _ => false
  end.

(** Nothing was found so far among the first [n] points. *)
Definition clear_so_far (path : list Vector3f) (n : Z) (p : prune_t) : Prop :=
  forall i j, 4 <= i < n -> 1 <= j <= i - 2 -> p_i p < i \/ p_i p = i /\ j <= p_j p -> near_pair path i j = false.

(** A loop is recorded, or there is none among the pairs that were compared. *)
Definition so_far (path : list Vector3f) (n : Z) (p : prune_t) : Prop :=
  live p <> [] \/ p_complete p = false /\ clear_so_far path n p.
Definition found_or_clear (path : list Vector3f) (n : Z) (p : prune_t) : Prop :=
  so_far path n p \/
  p_complete p = true /\ forall i j, 4 <= i < n -> 1 <= j <= i - 2 -> near_pair path i j = false.

Lemma search_kept_loops strict path n p p' :
  live p' = live p -> counted p' -> loops_inv strict path n p -> loops_inv strict path n p'.
Proof. intros El Hc [H1 H2 H3]. constructor; rewrite ?El; done. Qed.

Lemma next_pair_spec n p : search_at n p -> n <= MAX -> exists outer i j, advance p = (outer, i, j) /\
  1 <= j /\ i < n /\ 2 <= i /\ i * 512 - j < p_i p * 512 - p_j p /\
  (outer = false /\ i = p_i p /\ j = p_j p + 1 /\ j <= i - 2 \/
   outer = true /\ i = p_i p - 1 /\ j = 1 /\ p_i p - 2 < p_j p + 1).
Proof.
  unfold search_at, SMARTRTL_POINTS_MAX, advance. intros Hat Hn. rewrite (u16_small (p_j p + 1)) by lia.
  destruct (Z.gtb_spec (p_j p + 1) (p_i p - 2)).
  - rewrite u16_small by lia. eexists _, _, _. split; [reflexivity|]. lia.
  - eexists _, _, _. split; [reflexivity|]. lia.
Qed.

(** The end of the search: all the pairs were compared. *)
Lemma search_over path n p i j outer : search_at n p -> n <= MAX -> advance p = (outer, i, j) ->
  outer && ((i <? 4) || (i <? p_points_completed p)) = true -> p_points_completed p <= 4 ->
  clear_so_far path n p -> forall i' j', 4 <= i' < n -> 1 <= j' <= i' - 2 -> near_pair path i' j' = false.
Proof.
  intros Hat Hn Ha Hend Hcomp Hclear i' j' Hi' Hj'. apply Hclear; [done|done|].
  destruct (next_pair_spec n p Hat Hn) as (o & i1 & j1 & E & H). rewrite Ha in E. injection E as <- <- <-.
  apply andb_true_iff in Hend as [-> Hor]. apply orb_true_iff in Hor as [Hor|Hor]; apply Z.ltb_lt in Hor; lia.
Qed.

(** One more pair was compared. *)
Lemma clear_advance path n p i j outer p' : search_at n p -> n <= MAX -> advance p = (outer, i, j) ->
  near_pair path i j = false -> p_i p' = i -> p_j p' = j -> clear_so_far path n p -> clear_so_far path n p'.
Proof.
  intros Hat Hn Ha Hpair Ei Ej Hclear i' j' Hi1 Hj1 Hor. rewrite Ei, Ej in Hor.
  destruct (next_pair_spec n p Hat Hn) as (o & i1 & j1 & E & H). rewrite Ha in E. injection E as <- <- <-.
  destruct (decide (i' = i /\ j' = j)) as [[-> ->]|Hne]; [done|]. apply Hclear; lia.
Qed.

(** A run of the loop from the reading [k] of the clock on is closer to the end. *)
Definition search_closer (micros : nat -> Z) (k : nat) (p p' : prune_t) : Prop :=
  p_complete p' = true \/ steps p' <= steps p /\
    (u32 (micros k - micros O) < SMARTRTL_PRUNING_LOOP_TIME_US -> steps p' < steps p).

(** What a run leaves, of a search of the first [n] points. *)
Record searched (strict : bool) (path : list Vector3f) (n : Z) (p p' : prune_t) : Prop := {
  sd_inv : loops_inv strict path n p';
  sd_count : p_points_count p' = p_points_count p;
  sd_max : loops_max p' = loops_max p;
  sd_open : p_complete p' = false -> search_at n p' /\ p_points_completed p' = p_points_completed p;
  sd_completed : p_points_completed p' = p_points_completed p \/ p_points_completed p' = p_points_count p;
  sd_found : 0 < loops_max p -> p_points_completed p <= 4 -> so_far path n p -> found_or_clear path n p'
}.

Lemma searched_step strict path n p p1 p' : searched strict path n p1 p' -> p_points_count p1 = p_points_count p ->
  loops_max p1 = loops_max p -> p_points_completed p1 = p_points_completed p ->
  (0 < loops_max p -> so_far path n p -> so_far path n p1) -> searched strict path n p p'.
Proof.
  intros [H1 H2 H3 H4 H5 H6] Hn Hm Hc Hso. rewrite Hn in H2, H5. rewrite Hm in H3, H6. rewrite Hc in H4, H5, H6.
  by constructor; auto.
Qed.

(** A near pair is recorded, or the recorded loops are better. *)
Lemma add_near_pair strict path n p i j p1 p2 p3 p4 d m : loops_inv strict path n p -> n <= MAX -> n <= zlen path ->
  zlen path < 65536 -> 1 <= j <= i - 2 -> i < n ->
  arr_get path i = Some p1 -> arr_get path (i - 1) = Some p2 -> arr_get path (j - 1) = Some p3 ->
  arr_get path j = Some p4 -> segment_segment_dist p1 p2 p3 p4 = (d, m) -> near _accuracy d = true ->
  exists ok p', add_loop path j (i - 1) m p = Done (ok, p') /\ search_kept p p' /\ loops_inv strict path n p' /\
    (0 < loops_max p -> live p' <> []).
Proof.
  intros Hinv Hn Hp Hlp Hj Hi H1 H2 H3 H4 Hd Hnear.
  destruct (add_loop_spec (n - 1) path j (i - 1) m p (li_good _ _ _ _ Hinv) (li_counted _ _ _ _ Hinv))
    as (ok & p' & E & Hk & Hc & Hg & Hlive & Hfound); [lia..|].
  exists ok, p'. split; [done|]. split; [done|]. split; [|done]. constructor; [done|done|]. intros Hstrict.
  destruct Hlive as [->|[len ->]]; [by apply Hinv|]. apply Forall_app. split.
  - apply Forall_forall. intros l [_ Hl]%list_elem_of_filter.
    apply (proj1 (Forall_forall _ _) (li_near _ _ _ _ Hinv Hstrict) l Hl).
  - apply Forall_singleton. exists p1, p2, p3, p4, d. cbn [end_index start_index midpoint].
    replace (i - 1 + 1) with i by lia. auto 10.
Qed.

Lemma detect_loop_spec strict micros fuel : forall k path n p, loops_inv strict path n p -> search_at n p ->
  n <= MAX -> n <= zlen path -> zlen path < 65536 -> steps p < Z.of_nat fuel ->
  exists p', detect_loop _accuracy fuel micros k path p = Done p' /\ searched strict path n p p' /\
    search_closer micros k p p'.
Proof.
  induction fuel as [|fuel IH]; intros k path n p Hinv Hat Hn Hp Hlp Hf.
  { unfold search_at, steps, SMARTRTL_POINTS_MAX in *. lia. }
  cbn [detect_loop]. destruct (Z.ltb_spec (u32 (micros k - micros O)) SMARTRTL_PRUNING_LOOP_TIME_US) as [Ht|Ht].
  2:{ exists p. split; [done|]. split; [|right; lia]. constructor; try done; [by left|]. intros _ _ ?. by left. }
  destruct (next_pair_spec n p Hat Hn) as (outer & i & j & Ha & Hj & Hi & Hi2 & Hdec & Hcase). rewrite Ha.
  destruct (outer && _) eqn:Hend.
  { eexists. split; [reflexivity|]. split; [|by left]. constructor; try done.
    - by apply (search_kept_loops _ _ _ p); [|apply Hinv|].
    - by right.
    - intros _ Hcomp [Hl|[Hc Hclear]]; [left; by left|]. right. split; [done|].
      by apply (search_over path n p i j outer). }
  assert (Hji : j <= i - 2 /\ 3 <= i).
  { destruct Hcase as [H|(-> & H)]; [unfold search_at in Hat; lia|]. cbn [andb] in Hend.
    apply orb_false_iff in Hend as [Hend _]. apply Z.ltb_ge in Hend. lia. }
  destruct (arr_get_Some path i) as [p1 H1]; [lia|]. destruct (arr_get_Some path (i - 1)) as [p2 H2]; [lia|].
  destruct (arr_get_Some path (j - 1)) as [p3 H3]; [lia|]. destruct (arr_get_Some path j) as [p4 H4]; [lia|].
  rewrite H1. cbn [access mbind outcome_bind]. rewrite H2. cbn [access mbind outcome_bind].
  rewrite H3. cbn [access mbind outcome_bind]. rewrite H4. cbn [access mbind outcome_bind].
  destruct (segment_segment_dist p1 p2 p3 p4) as [d m] eqn:Hd.
  assert (Hnext : forall p2', loops_inv strict path n p2' -> p_i p2' = i -> (p_j p2' = j \/ p_j p2' = i) ->
    p_points_count p2' = p_points_count p -> loops_max p2' = loops_max p ->
    p_points_completed p2' = p_points_completed p -> (0 < loops_max p -> so_far path n p -> so_far path n p2') ->
    exists p', detect_loop _accuracy fuel micros (S k) path p2' = Done p' /\ searched strict path n p p' /\
      search_closer micros k p p').
  { intros p2' Hinv' Ei Ej En Em Ec Hso.
    destruct (IH (S k) path n p2' Hinv') as (p' & E' & Hs' & Hcl'); try (unfold search_at, steps in *; lia).
    exists p'. split; [done|]. split; [by apply (searched_step _ _ _ _ p2')|].
    destruct Hcl' as [|[Hle _]]; [by left|]. right. unfold steps in *. lia. }
  destruct (near _accuracy d) eqn:Hnear.
  - destruct (add_near_pair strict path n p i j p1 p2 p3 p4 d m Hinv Hn Hp Hlp) as (ok & p1' & E & [Hk Hlen] & Hinv1 & Hf1);
      try done; [lia|]. rewrite E. cbn [mbind outcome_bind]. apply Hnext; try done.
    + destruct Hinv1. by constructor.
    + by right.
    + cbn. by rewrite Hk.
    + unfold loops_max. cbn. by rewrite Hlen.
    + cbn. by rewrite Hk.
    + intros Hmax _. left. by apply Hf1.
  - apply Hnext; try done; [by apply (search_kept_loops _ _ _ p); [|apply Hinv|]|by left|].
    intros _ [Hl|[Hc Hclear]]; [by left|]. right. split; [done|].
    apply (clear_advance path n p i j outer); try done. unfold near_pair. by rewrite H1, H2, H3, H4, Hd.
Qed.

Lemma detect_loops_spec strict fuel micros path n p : loops_inv strict path n p ->
  (p_complete p = false -> 4 <= p_points_count p -> search_at n p) -> p_complete p = false ->
  n <= MAX -> n <= zlen path -> zlen path < 65536 -> fuel_enough fuel ->
  exists p', detect_loops _accuracy fuel micros path p = Done p' /\ loops_inv strict path n p' /\
    p_points_count p' = p_points_count p /\ loops_max p' = loops_max p /\
    (p_complete p' = false -> search_at n p' /\ p_points_completed p' = p_points_completed p) /\
    (0 < loops_max p -> p_points_completed p <= 4 -> n = p_points_count p -> so_far path n p ->
     found_or_clear path n p') /\
    (u32 (micros 1%nat - micros O) < SMARTRTL_PRUNING_LOOP_TIME_US -> p_complete p' = true \/ steps p' < steps p).
Proof.
  intros Hinv Hat Hc Hn Hp Hlp Hf. unfold detect_loops. destruct (Z.ltb_spec (p_points_count p) 4).
  - eexists. split; [reflexivity|]. split; [by apply (search_kept_loops _ _ _ p); [|apply Hinv|]|].
    split; [done|]. split; [done|]. split; [done|]. split; [|by left].
    intros _ _ -> _. right. split; [done|]. lia.
  - specialize (Hat Hc ltac:(lia)).
    destruct (detect_loop_spec strict micros fuel 1 path n p Hinv Hat) as (p' & E & [H1 H2 H3 H4 H5 H6] & Hcl); try done.
    { unfold fuel_enough, steps, search_at in *. unfold SMARTRTL_POINTS_MAX in Hn. lia. }
    exists p'. split; [done|]. split; [done|]. split; [done|]. split; [done|]. split; [done|].
    split; [intros; by apply H6|]. intros Ht. destruct Hcl as [|[_ Hlt]]; [by left|right; by apply Hlt].
Qed.

Lemma good_loops_le b b' ls : b <= b' -> good_loops b ls -> good_loops b' ls.
Proof.
  intros Hb [Hin Hd]. split; [|done]. eapply Forall_impl; [exact Hin|]. intros l [H1 H2]. split; [done|lia].
Qed.

Lemma loops_inv_same strict path path' n p : same_points n path path' -> loops_inv strict path n p -> loops_inv strict path' n p.
Proof.
  intros Hs [Hc Hg Hnear]. split; [done|done|]. intros Hstrict. apply Forall_forall. intros l Hl.
  pose proof (proj1 (Forall_forall _ _) (proj1 Hg) l Hl) as [Hb1 Hb2].
  destruct (proj1 (Forall_forall _ _) (Hnear Hstrict) l Hl) as (p1 & p2 & p3 & p4 & d & H).
  exists p1, p2, p3, p4, d. by rewrite !(same_points_get n path path') by (done || lia).
Qed.

Lemma near_pair_same n path path' i j : same_points n path path' -> 1 <= j <= i - 2 -> i < n ->
  near_pair path' i j = near_pair path i j.
Proof. intros Hs Hj Hi. unfold near_pair. by rewrite !(same_points_get n path path') by (done || lia). Qed.

Lemma found_or_clear_same n path path' p : same_points n path path' ->
  found_or_clear path n p -> found_or_clear path' n p.
Proof.
  intros Hs [[Hl|[Hc Hclear]]|[Hc Hclear]].
  - left. by left.
  - left. right. split; [done|]. intros i j Hi Hj Hor. rewrite (near_pair_same n path) by (done || lia). by apply Hclear.
  - right. split; [done|]. intros i j Hi Hj. rewrite (near_pair_same n path) by (done || lia). by apply Hclear.
Qed.

(** One call after another, each with the path at its time and the clock. *)
Fixpoint prune_calls (fuel : nat) (l : list (list Vector3f * (nat -> Z))) (p : prune_t) : outcome prune_t :=
  match l with
  | [] => Done p
  | (path, m) :: l =>
    if p_complete p then Done p else p ← detect_loops _accuracy fuel m path p; prune_calls fuel l p
  end.

Lemma prune_calls_spec strict fuel path n l : n <= MAX -> n <= zlen path -> fuel_enough fuel ->
  Forall (fun x => same_points n path x.1 /\ zlen x.1 < 65536) l ->
  forall p, loops_inv strict path n p -> (p_complete p = false -> 4 <= p_points_count p -> search_at n p) ->
  exists p', prune_calls fuel l p = Done p' /\ loops_inv strict path n p' /\ p_points_count p' = p_points_count p /\
    (0 < loops_max p -> p_points_completed p <= 4 -> n = p_points_count p -> found_or_clear path n p ->
     found_or_clear path n p').
Proof.
  intros Hn Hp Hf Hl. induction Hl as [|[path1 m] l [Hs Hl1] Hl IH]; intros p Hinv Hat.
  { exists p. by split; [|split; [|split]]. }
  simpl in *. destruct (p_complete p) eqn:Hc; [exists p; by split; [|split; [|split]]|].
  destruct (detect_loops_spec strict fuel m path1 n p (loops_inv_same _ _ _ _ _ Hs Hinv)) as
    (p1 & E & Hinv1 & Hn1 & Hm1 & Hat1 & Hfound1 & _); try done; [intros _; by apply Hat|apply Hs|].
  rewrite E. cbn [mbind outcome_bind].
  pose proof (same_points_sym _ _ _ Hp Hs) as Hs'.
  destruct (IH p1) as (p' & E' & Hinv' & Hn' & Hfound').
  - by apply (loops_inv_same _ path1).
  - intros Hc1 _. by apply Hat1.
  - exists p'. split; [done|]. split; [done|]. split; [congruence|].
    intros Hmax Hcomp En Hso. assert (Hso1 : found_or_clear path n p1).
    { apply (found_or_clear_same n path1); [done|]. apply Hfound1; try done.
      destruct (found_or_clear_same n path path1 p Hs Hso) as [|[Hc' _]]; [done|congruence]. }
    destruct (p_complete p1) eqn:Hc1.
    + destruct l as [|[path2 m2] l2]; simpl in E'; [|rewrite Hc1 in E']; by injection E' as <-.
    + apply Hfound'; try congruence. destruct (Hat1 eq_refl) as [_ ->]. done.
Qed.

(** The ends of the path stay. *)
Lemma cut_at_outside ls k p : Forall (fun l => inside k l = false) ls -> cut_at ls k p = Some p.
Proof. intros Hl. unfold cut_at. by rewrite find_false. Qed.

Lemma cut_ends n ls path : good_loops (n - 1) ls -> n <= zlen path ->
  head (cut ls 0 path) = head path /\ last (cut ls 0 path) = last path.
Proof.
  intros [Hg _] Hn.
  assert (Hout : forall k p, k = 0 \/ n - 1 <= k -> cut_at ls k p = Some p).
  { intros k p Hk. apply cut_at_outside. eapply Forall_impl; [exact Hg|]. intros l [H1 H2]. unfold inside.
    destruct (Z.leb_spec (start_index l) k), (Z.leb_spec k (end_index l)); simpl; done || lia. }
  split.
  - destruct path as [|p path]; [done|]. cbn [cut]. by rewrite Hout by lia.
  - destruct path as [|p path _] using rev_ind; [done|]. rewrite cut_app. cbn [cut].
    rewrite length_app in Hn. simpl in Hn. rewrite Hout by lia. by rewrite !last_snoc.
Qed.

Lemma size_lt i : forall bound ls, length ls = i -> good_loops bound ls -> bound <= 65536 -> ls <> [] -> size ls < bound.
Proof.
  induction i as [|i IH]; intros bound ls Hi Hg Hb Hne; [by destruct ls|].
  destruct ls as [|l ls _] using rev_ind; [done|]. rewrite size_snoc.
  pose proof Hg as Hg'. apply good_snoc in Hg' as (_ & [Hl1 Hl2] & _).
  pose proof (good_fixed bound ls l Hb Hg) as Hf. pose proof (size_fixed bound ls l Hb Hg 0) as Hs.
  rewrite !drop_0 in Hs. rewrite length_app in Hi. simpl in Hi.
  destruct ls as [|x ls]; [simpl; lia|].
  assert (Hlt : size (x :: ls) < bound - (end_index l - start_index l)); [|lia].
  rewrite <- Hs. apply IH; [rewrite length_map; simpl in *; lia|done|lia|done].
Qed.

(** C15. After any number of calls of [detect_loops], cut short by the clock anywhere,
    the recorded loops are apart from each other and each is a place where the path
    comes nearer to itself than the tolerance.  The removal cuts the last recorded
    loops, as many as are needed, out of the path on which they were found, all at
    once, and keeps both ends of it; the loops that are left mean the same points as
    before; and a thorough cleanup leaves none. *)
Theorem pruning_cuts fuel path n p l : loops_inv true path (p_points_count p) p -> p_points_count p <= n ->
  n <= MAX -> n <= zlen path -> fuel_enough fuel ->
  Forall (fun x => same_points n path x.1 /\ zlen x.1 < 65536) l ->
  exists p', prune_calls fuel l (restart_pruning n p) = Done p' /\
    Forall (near_miss path) (live p') /\ good_loops (n - 1) (live p') /\
    forall s num, _prune s = p' -> same_points n path (_path s) -> 0 < _path_points_count s ->
      n <= _path_points_count s <= zlen (_path s) -> zlen (_path s) <= MAX ->
      exists s' m, remove_points_by_loops true num s = Done (true, s') /\ rest_kept s s' /\
        points s' = cut (drop m (live p')) 0 (points s) /\
        head (points s') = head (points s) /\ last (points s') = last (points s) /\
        cut (live (_prune s')) 0 (points s') = cut (live p') 0 (points s) /\
        length (live (_prune s')) = m /\
        (m = O \/ num <= size (drop m (live p'))) /\
        (forall j, (m < j <= length (live p'))%nat -> size (drop j (live p')) < num) /\
        (num = MAX -> m = O).
Proof.
  intros Hinv Hle Hn Hp Hf Hl.
  assert (Hinv' : loops_inv true path n (restart_pruning n p)).
  { destruct Hinv as [Hc Hg Hnear]. split; [exact Hc| |exact Hnear].
    by apply (good_loops_le (p_points_count p - 1)); [lia|]. }
  assert (Hat : p_complete (restart_pruning n p) = false -> 4 <= p_points_count (restart_pruning n p) ->
    search_at n (restart_pruning n p)).
  { intros _ H4. cbn in H4. unfold search_at. cbn. rewrite Z.gtb_ltb, (proj2 (Z.ltb_lt 0 n)) by lia. lia. }
  destruct (prune_calls_spec true fuel path n l Hn Hp Hf Hl _ Hinv' Hat) as (p' & E & [Hc Hg Hnear] & _ & _).
  exists p'. split; [done|]. split; [by apply Hnear|]. split; [done|]. intros s num Hs Hsame H0 Hcount Hmax.
  subst p'. destruct Hc as [Hc1 Hc2]. unfold SMARTRTL_POINTS_MAX in *.
  set (i := Z.to_nat (loops_count (_prune s))).
  destruct (remove_loops_spec i num 0 s) as (s' & m & Es & Hr); try (unfold SMARTRTL_POINTS_MAX; lia);
    [by apply (good_loops_le (n - 1)); [lia|]|].
  assert (Hrun : remove_points_by_loops true num s = Done (true, s') /\ removed_loops num 0 s s' m).
  { unfold remove_points_by_loops. destruct (Z.eqb_spec (loops_count (_prune s)) 0) as [Hz|].
    - subst i. rewrite Hz in Es. simpl in Es. injection Es as <-. by split.
    - fold i. rewrite Es. by split. }
  clear Hr. destruct Hrun as [Hrun [Hrest Hcm Hsome Hpts Hsz Hgd Hcut Hen Hne]].
  exists s', m. split; [done|]. split; [done|]. split; [done|].
  destruct (cut_ends n (drop m (live (_prune s))) (points s)) as [Hh Hla]; [by apply good_drop| |].
  { unfold points. rewrite length_take. lia. }
  rewrite Hpts at 1 2. split; [done|]. split; [done|]. split; [done|].
  destruct Hrest as (_ & _ & Hll). split.
  { unfold live in *. rewrite Hcm, Nat2Z.id, length_take. rewrite length_take in Hsome. lia. }
  split; [destruct Hen; [by left|right; lia]|]. split; [intros j Hj; by apply Hne|].
  intros ->. destruct Hen as [|Hen]; [done|]. exfalso.
  assert (Hd : drop m (live (_prune s)) <> []).
  { intros Ed. rewrite Ed in Hen. unfold SMARTRTL_POINTS_MAX in Hen. simpl in Hen. lia. }
  pose proof (size_lt _ (n - 1) _ eq_refl (good_drop _ _ m Hg) ltac:(lia) Hd).
  unfold SMARTRTL_POINTS_MAX in Hen. lia.
Qed.

(** A search of a path from its start that is complete, however it was cut short in
    between, misses nothing: when it has recorded no loop, no two segments of the path
    come near each other of which the first ends at the point 4 or later and the second
    at least two segments earlier. *)
Theorem pruning_finds fuel path n p l : n <= MAX -> n <= zlen path -> 5 <= n -> fuel_enough fuel ->
  counted p -> 0 < loops_max p ->
  Forall (fun x => same_points n path x.1 /\ zlen x.1 < 65536) l ->
  exists p', prune_calls fuel l (restart_pruning n (reset_pruning p)) = Done p' /\
    (p_complete p' = true -> live p' = [] ->
     forall i j, 4 <= i < n -> 1 <= j <= i - 2 -> near_pair path i j = false).
Proof.
  unfold counted. intros Hn Hp H5 Hf [Hc1 Hc2] Hmax Hl. set (p0 := restart_pruning n (reset_pruning p)).
  assert (Hlive : live p0 = []) by done.
  assert (Hinv : loops_inv true path n p0).
  { split; [unfold counted, p0, loops_max in *; cbn; lia| |by rewrite Hlive]. rewrite Hlive. split; constructor. }
  assert (Hat : p_complete p0 = false -> 4 <= p_points_count p0 -> search_at n p0).
  { intros _ _. unfold search_at, p0. cbn. rewrite Z.gtb_ltb, (proj2 (Z.ltb_lt 0 n)) by lia. lia. }
  destruct (prune_calls_spec true fuel path n l Hn Hp Hf Hl p0 Hinv Hat) as (p' & E & Hinv' & _ & Hfound).
  exists p'. split; [done|]. intros Hcomplete El.
  assert (Hfc : found_or_clear path n p').
  { apply Hfound; try done. left. right. split; [done|]. intros i j Hi Hj Hor. exfalso. revert Hor.
    unfold p0. cbn. rewrite Z.gtb_ltb, (proj2 (Z.ltb_lt 0 n)) by lia. lia. }
  destruct Hfc as [[|[? _]]|[_ Hclear]]; [done|congruence|done].
Qed.
End search.

(** * Examples *)

Definition spot (x y : Z) : Vector3f := Vector3.vec (f32_of_Z x) (f32_of_Z y) (f32_of_Z 0).
Definition demo_delta : spec_float := f32_of_Z 2.
Definition demo_prune : prune_t :=
  match init demo_delta all_memory 10 with Some s => reset_pruning (_prune s) | None => Prune true 0 0 0 0 [] 0 end.

(** The way crosses itself at (15, 0). *)
Definition crossing : list Vector3f :=
  [spot 0 0; spot 10 0; spot 20 0; spot 20 20; spot 15 20; spot 15 (-10); spot 15 (-30)].
Definition straight : list Vector3f :=
  [spot 0 0; spot 10 0; spot 20 0; spot 30 1; spot 40 3; spot 50 6].

(** A clock that stops a call after three pairs. *)
Definition demo_ticks (k : nat) : Z := if (k <? 4)%nat then 0 else 300.
Definition demo_fuel : nat := Z.to_nat (2 ^ 18).

Lemma demo_fuel_enough : fuel_enough demo_fuel.
Proof. unfold fuel_enough, demo_fuel. rewrite Z2Nat.id by lia. lia. Qed.

Lemma demo_calls_same path n k : n <= zlen path -> zlen path < 65536 ->
  Forall (fun x => same_points n path x.1 /\ zlen x.1 < 65536) (replicate k (path, demo_ticks)).
Proof. intros Hn Hp. apply Forall_replicate. by split. Qed.

Lemma demo_prune_inv path : loops_inv demo_delta true path (p_points_count demo_prune) demo_prune.
Proof. constructor; [split; vm_compute; split; discriminate || done|split; constructor|constructor]. Qed.

Definition bounds (ls : list prune_loop_t) : list (Z * Z) := map (fun l => (start_index l, end_index l)) ls.

Lemma pruning_cuts_witness : exists p',
  prune_calls demo_delta demo_fuel (replicate 6 (crossing, demo_ticks)) (restart_pruning 7 demo_prune) = Done p' /\
  Forall (near_miss demo_delta crossing) (live p') /\
  forall s, _prune s = p' -> _path s = crossing -> _path_points_count s = 7 ->
    exists s' m, remove_points_by_loops true SMARTRTL_POINTS_MAX s = Done (true, s') /\
      points s' = cut (live p') 0 crossing /\ length (live (_prune s')) = m /\ m = O.
Proof.
  destruct (pruning_cuts demo_delta demo_fuel crossing 7 demo_prune (replicate 6 (crossing, demo_ticks))
    (demo_prune_inv crossing) ltac:(by vm_compute) ltac:(by vm_compute) ltac:(by vm_compute) demo_fuel_enough
    (demo_calls_same crossing 7 6 ltac:(by vm_compute) ltac:(by vm_compute))) as (p' & E & Hnear & _ & Hcut).
  exists p'. split; [exact E|]. split; [exact Hnear|]. intros s Hs Hp Hc.
  destruct (Hcut s SMARTRTL_POINTS_MAX Hs) as (s' & m & Er & _ & Hpts & _ & _ & _ & Hlive & _ & _ & Hm);
    [rewrite Hp; by split|rewrite Hc; by split|rewrite Hp, Hc; by split|by rewrite Hp|].
  exists s', m. split; [exact Er|]. rewrite (Hm eq_refl) in Hpts. unfold points in Hpts at 2. rewrite Hp, Hc in Hpts.
  assert (Et : take (Z.to_nat 7) crossing = crossing) by reflexivity. rewrite Et in Hpts.
  split; [exact Hpts|]. split; [exact Hlive|exact (Hm eq_refl)].
Defined.

Lemma pruning_finds_witness : exists p',
  prune_calls demo_delta demo_fuel (replicate 6 (straight, demo_ticks)) (restart_pruning 6 (reset_pruning demo_prune)) =
    Done p' /\ p_complete p' = true /\ live p' = [] /\
  forall i j, 4 <= i < 6 -> 1 <= j <= i - 2 -> near_pair demo_delta straight i j = false.
Proof.
  destruct (pruning_finds demo_delta demo_fuel straight 6 demo_prune (replicate 6 (straight, demo_ticks))
    ltac:(done) ltac:(done) ltac:(done) demo_fuel_enough ltac:(by vm_compute) ltac:(by vm_compute)
    (demo_calls_same straight 6 6 ltac:(done) ltac:(done))) as (p' & E & H).
  exists p'. split; [exact E|].
  assert (Hm : match prune_calls demo_delta demo_fuel (replicate 6 (straight, demo_ticks))
      (restart_pruning 6 (reset_pruning demo_prune)) with
    | Done q => p_complete q && (loops_count q =? 0) | _ => false end = true) by by vm_compute.
  rewrite E in Hm. apply andb_true_iff in Hm as [Hc Hz]. apply Z.eqb_eq in Hz.
  assert (Hl : live p' = []) by (unfold live; by rewrite Hz).
  split; [exact Hc|]. split; [exact Hl|]. exact (H Hc Hl).
Defined.

(** What is found on the crossing way, and what is left of it. *)
Example crossing_cut :
  match prune_calls demo_delta demo_fuel (replicate 6 (crossing, demo_ticks)) (restart_pruning 7 demo_prune) with
  | Done p => (p_complete p, bounds (live p), length (cut (live p) 0 crossing))
  | _ => (false, [], 0%nat)
  end = (true, [(2, 4)], 5%nat).
Proof. by vm_compute. Qed.

(** The first and the third segment are compared on a path of four points, and on no
    longer one. *)
Definition early_crossing : list Vector3f := [spot 0 0; spot 20 0; spot 10 10; spot 10 (-10); spot 10 (-50)].
Example early_crossing_missed :
  map (fun n => match prune_calls demo_delta demo_fuel (replicate 6 (early_crossing, demo_ticks))
                       (restart_pruning n demo_prune) with
                | Done p => Some (p_complete p, bounds (live p)) | _ => None end) [4; 5]
  = [Some (true, [(1, 2)]); Some (true, [])].
Proof. by vm_compute. Qed.
