(* ===== verification/SmartRTLSafety.v ===== *)
(** The way back as a whole: whatever the vehicle and the background thread do, in
    whatever order, every access is inside its array and every loop ends, as long as
    the stack of the simplification is long enough. *)
From S2P Require Import Prelude Float32 HalStorage HalStorageSpec SmartRTL SmartRTLSpec SmartRTLSimplify.
From S2P Require Import SmartRTLPrune SmartRTLLoops.
Open Scope urus_scope.
Import SmartRTL FloatOrder Marks.
#[local] Abbreviation length := (@Datatypes.length _).

(** * The tolerance *)

Lemma round_aux_not_negative m e l : f32_lt (binary_round_aux prec emax false m e l) (f32_of_Z 0) = false.
Proof.
  unfold binary_round_aux. destruct (shr_fexp _ _ _ _ _) as [mrs' e']. destruct (shr_fexp _ _ _ _ _) as [mrs'' e''].
  destruct (shr_m mrs'') as [|p|p]; try done. by destruct (_ <=? _).
Qed.

(** [is_positive(_accuracy)] *)
Lemma epsilon_not_negative a : is_positive a = true ->
  f32_lt (SMARTRTL_SIMPLIFY_EPSILON a) (f32_of_Z 0) = false.
Proof.
  intros Ha. unfold SMARTRTL_SIMPLIFY_EPSILON. destruct a as [s|s| |s m e]; try done; destruct s; try done.
  change (f32_lit 1 (-1)) with (S754_finite false 8388608 (-24)). cbn [SFmul xorb]. apply round_aux_not_negative.
Qed.

(** * Removal of loops, whatever the path has become *)

Lemma live_drop_last p i : loops_count p = Z.of_nat (S i) -> counted p -> exists l,
  arr_get (loops p) (Z.of_nat i) = Some l /\ live p = take i (loops p) ++ [l].
Proof.
  unfold counted, loops_max. intros Hi [Hc _]. destruct (lookup_lt_is_Some_2 (loops p) i) as [l Hl]; [lia|].
  exists l. rewrite arr_get_lookup, Nat2Z.id by lia. split; [done|]. unfold live. rewrite Hi, Nat2Z.id. by apply take_S_r.
Qed.

(** What the removal may change. *)
Record pruned (bound : Z) (s s' : t) : Prop := {
  pr_active : _active s' = true -> _active s = true;
  pr_path : length (_path s') = length (_path s);
  pr_count : 0 <= _path_points_count s' <= _path_points_count s;
  pr_counted : counted (_prune s');
  pr_good : good_loops bound (live (_prune s'));
  pr_search : exists ls n, _prune s' = set_loops (_prune s) ls n;
  pr_rest : _simplify s' = _simplify s /\ _path_points_completed_limit s' = _path_points_completed_limit s
}.

Lemma remove_loops_safe bound i : forall num removed s, loops_count (_prune s) = Z.of_nat i -> counted (_prune s) ->
  good_loops bound (live (_prune s)) -> bound <= zlen (_path s) -> 0 <= _path_points_count s <= zlen (_path s) ->
  zlen (_path s) <= SMARTRTL_POINTS_MAX ->
  exists s', remove_loops i num removed s = Done s' /\ pruned bound s s'.
Proof.
  unfold SMARTRTL_POINTS_MAX. induction i as [|i IH]; intros num removed s Hi Hcd Hg Hb Hc Hp.
  { exists s. split; [done|]. constructor; try done; [lia|]. exists (loops (_prune s)), (loops_count (_prune s)).
    by destruct (_prune s). }
  cbn [remove_loops]. destruct (_ <? _).
  2:{ exists s. split; [done|]. constructor; try done; [lia|]. exists (loops (_prune s)), (loops_count (_prune s)).
      by destruct (_prune s). }
  destruct (live_drop_last _ _ Hi Hcd) as (l & Hl & Hlive). rewrite Hl. cbn [access mbind outcome_bind].
  rewrite Hlive in Hg. pose proof Hg as Hg1. apply good_snoc in Hg1 as (_ & [Hl1 Hl2] & _).
  destruct (remove_one_spec l (_path_points_count s) (_path s)) as (path' & E & Hlp & _); [split; lia|lia|lia|].
  rewrite E. cbn [mbind outcome_bind]. rewrite (u16_small (end_index l - start_index l)) by lia.
  destruct (_ >? _) eqn:Hgt.
  2:{ eexists. split; [reflexivity|]. constructor; cbn; try done; [lia|by rewrite Hlive|].
      exists (loops (_prune s)), (loops_count (_prune s)). by destruct (_prune s). }
  apply Z.gtb_lt in Hgt. set (n := end_index l - start_index l) in *.
  match goal with |- context [remove_loops i num ?r ?x] => set (s1 := x); set (r1 := r) end.
  destruct Hcd as [Hcd1 Hcd2]. unfold loops_max in *.
  assert (Hls : length (take i (loops (_prune s))) = i) by (rewrite length_take; lia).
  assert (Hcount1 : loops_count (_prune s1) = Z.of_nat i).
  { unfold s1. cbn. rewrite Hi, u16_small by lia. lia. }
  assert (Hlen1 : length (loops (_prune s1)) = length (loops (_prune s))).
  { unfold s1. cbn. rewrite length_app, length_map, length_drop, Hls. lia. }
  assert (Hlive1 : live (_prune s1) = map (fix_indices l n) (take i (loops (_prune s)))).
  { unfold live. rewrite Hcount1, Nat2Z.id. unfold s1. cbn. rewrite take_app_length'; [done|]. by rewrite length_map. }
  destruct (IH num r1 s1 Hcount1) as (s' & Es & [Ha Hpl Hcn Hcd' Hgd (ls & m & Hpr) [Hq Hlim]]).
  - unfold counted, loops_max. rewrite Hcount1, Hlen1. lia.
  - rewrite Hlive1. apply (good_loops_le (bound - n)); [unfold n; lia|]. apply good_fixed; [lia|done].
  - cbn. lia.
  - cbn. lia.
  - cbn. lia.
  - exists s'. split; [done|]. constructor; try done; [by rewrite Hpl|cbn in Hcn; unfold n in *; lia|].
    exists ls, m. by rewrite Hpr.
Qed.

(** * The state *)

Section safety.
Context (_accuracy : spec_float).
#[local] Abbreviation MAX := SMARTRTL_POINTS_MAX.
Hypothesis accuracy_positive : is_positive _accuracy = true.

(** The state between two steps: [pending] is what the background thread has read. *)
Record sinv (s : t) (pending : option (Z * Z)) : Prop := {
  si_path : 0 < zlen (_path s) <= MAX;
  si_count : 0 <= _path_points_count s <= zlen (_path s);
  si_marks : ok (bitmask (_simplify s));
  si_stack : stack_max (_simplify s) < 65535;
  si_points : 0 <= s_points_count (_simplify s) <= zlen (_path s);
  si_simplify : s_complete (_simplify s) = false -> inv _accuracy false (_path s) (_simplify s);
  si_completed : _active s = true \/ pending <> None -> s_points_completed (_simplify s) <= zlen (_path s);
  si_prune : loops_inv _accuracy false (_path s) (zlen (_path s)) (_prune s);
  si_search : p_complete (_prune s) = false -> 4 <= p_points_count (_prune s) ->
    search_at (zlen (_path s)) (_prune s);
  si_pending : forall c l, pending = Some (c, l) -> 0 <= c <= zlen (_path s)
}.

Lemma epsilon_ok : f32_lt (SMARTRTL_SIMPLIFY_EPSILON _accuracy) (f32_of_Z 0) = false.
Proof. by apply epsilon_not_negative. Qed.

Lemma inv_weaken path q : inv _accuracy true path q -> inv _accuracy false path q.
Proof. intros [[] Hf]. by split. Qed.

(** The path may change in any way. *)
Lemma inv_any_path path path' q : length path' = length path -> inv _accuracy false path q -> inv _accuracy false path' q.
Proof.
  intros Hl [Hc Hf]. split; [|done]. destruct Hc. constructor; try done. by rewrite Hl.
Qed.

Lemma loops_any_path path path' n p : loops_inv _accuracy false path n p -> loops_inv _accuracy false path' n p.
Proof. intros [Hc Hg _]. by split. Qed.

(** Another path of the same length, points of it, times and answers. *)
Lemma sinv_path s s' pending : sinv s pending -> length (_path s') = length (_path s) ->
  0 <= _path_points_count s' <= zlen (_path s) -> _simplify s' = _simplify s -> _prune s' = _prune s ->
  (_active s' = true -> _active s = true) -> sinv s' pending.
Proof.
  intros [H1 H2 H3 H4 H5 H6 H7 H8 H9 H10] Hl Hc Hq Hp Ha. constructor; rewrite ?Hl, ?Hq, ?Hp; try done.
  - intros Hf. by apply (inv_any_path (_path s)); [|apply H6].
  - intros [?|?]; apply H7; auto.
  - by apply (loops_any_path (_path s)).
Qed.

Lemma sinv_simplify s q pending : sinv s pending -> ok (bitmask q) -> stack_max q < 65535 ->
  0 <= s_points_count q <= zlen (_path s) -> (s_complete q = false -> inv _accuracy false (_path s) q) ->
  s_points_completed q <= Z.max (s_points_completed (_simplify s)) 0 \/ s_points_completed q <= zlen (_path s) ->
  sinv (set_simplify s q) pending.
Proof.
  intros [H1 H2 H3 H4 H5 H6 H7 H8 H9 H10] Hb Hm Hn Hi Hd. constructor; try done. cbn. intros Hor. specialize (H7 Hor). lia.
Qed.

Lemma sinv_prune s p pending : sinv s pending -> loops_inv _accuracy false (_path s) (zlen (_path s)) p ->
  (p_complete p = false -> 4 <= p_points_count p -> search_at (zlen (_path s)) p) -> sinv (set_prune s p) pending.
Proof. intros [] Hp Hs. by constructor. Qed.

(** Every step is defined, except that the stack of the simplification may be full. *)
Definition safe (s : t) (pending : option (Z * Z)) (r : outcome t) : Prop :=
  match r with
  | Done s' => sinv s' pending /\ length (_path s') = length (_path s) /\
      stack_max (_simplify s') = stack_max (_simplify s)
  | Undefined => stack_max (_simplify s) + 1 < zlen (_path s)
  | OutOfFuel => False
  end.

Lemma add_point_safe take point s pending : sinv s pending -> exists ok s', add_point _accuracy take point s = Done (ok, s') /\
  sinv s' pending /\ length (_path s') = length (_path s) /\ _simplify s' = _simplify s /\ _prune s' = _prune s /\
  _active s' = _active s.
Proof.
  intros Hs. pose proof (si_path _ _ Hs) as Hp. pose proof (si_count _ _ Hs) as Hc. unfold SMARTRTL_POINTS_MAX in Hp.
  unfold add_point. destruct take; cbn [negb]; [|by exists false, s].
  assert (Hfar : exists b, (if _path_points_count s >? 0 then
             last_pos ← access (arr_get (_path s) (_path_points_count s - 1));
             Done (negb (f32_lt (Vector3.distance_squared last_pos point) (Vector3.sq _accuracy)))
           else Done true) = Done b).
  { destruct (Z.gtb_spec (_path_points_count s) 0); [|by eexists].
    destruct (arr_get_Some (_path s) (_path_points_count s - 1)) as [q ->]; [lia|]. by eexists. }
  destruct Hfar as [b ->]. cbn [mbind outcome_bind]. destruct b; cbn [negb]; [|by exists true, s].
  unfold _path_points_max. rewrite Z.geb_leb. destruct (Z.leb_spec (zlen (_path s)) (_path_points_count s)); [by exists false, s|].
  rewrite arr_set_Some by lia. cbn [access mbind outcome_bind]. eexists true, _. split; [reflexivity|].
  cbn. rewrite length_insert. split; [|done]. rewrite u16_small by lia. eapply sinv_path; try done; cbn; [by rewrite length_insert|lia].
Qed.

Lemma pop_point_safe take s pending : sinv s pending ->
  exists r s', pop_point take s = Done (r, s') /\ sinv s' pending /\ length (_path s') = length (_path s) /\
    _simplify s' = _simplify s.
Proof.
  intros Hs. pose proof (si_path _ _ Hs) as Hp. pose proof (si_count _ _ Hs) as Hc. unfold SMARTRTL_POINTS_MAX in Hp.
  unfold pop_point. destruct (_active s); cbn [negb]; [|by exists None, s].
  destruct take; cbn [negb]; [|by exists None, s]. destruct (Z.eqb_spec (_path_points_count s) 0); [by exists None, s|].
  rewrite u16_small by lia. destruct (arr_get_Some (_path s) (_path_points_count s - 1)) as [q ->]; [lia|].
  cbn [access mbind outcome_bind]. eexists _, _. split; [reflexivity|]. cbn. split; [|done].
  eapply sinv_path; try done; cbn; lia.
Qed.

Lemma reset_simplification_safe s pending : sinv s pending -> exists q, reset_simplification (_simplify s) = Done q /\
  ok (bitmask q) /\ stack_max q = stack_max (_simplify s) /\ s_points_count q = 0 /\ s_points_completed q = 0 /\
  inv _accuracy false (_path s) q.
Proof.
  intros Hs. destruct (restart_inv _accuracy (_path s) 0 (_simplify s)) as (q & E & [Hc Hf] & Hq & Hq2 & Hq3 & Hq4 & _);
    [apply Hs|apply Hs|done|lia|].
  unfold reset_simplification. rewrite E. cbn [mbind outcome_bind]. eexists. split; [reflexivity|].
  cbn. split; [apply Hc|]. split; [done|]. split; [done|]. split; [done|]. split; [|done].
  destruct Hc. by constructor.
Qed.

Lemma set_home_safe take now okp pos s pending : sinv s pending -> exists s',
  set_home _accuracy take now okp pos s = Done s' /\ sinv s' pending /\ length (_path s') = length (_path s) /\
  stack_max (_simplify s') = stack_max (_simplify s).
Proof.
  intros Hs. unfold set_home. pose proof (si_path _ _ Hs) as Hp. unfold SMARTRTL_POINTS_MAX in Hp.
  destruct (reset_simplification_safe s pending Hs) as (q & E & Hb & Hm & Hn & Hcm & Hi).
  cbn [_simplify set_path]. rewrite E. cbn [mbind outcome_bind].
  match goal with |- context [add_point _ _ _ ?x] => set (s1 := x) end.
  assert (Hpr : loops_inv _accuracy false (_path s) (zlen (_path s)) (reset_pruning (_prune s))).
  { pose proof (li_counted _ _ _ _ _ (si_prune _ _ Hs)) as [H1 H2]. split; [|split; constructor|done].
    split; [unfold loops_max; cbn; lia|exact H2]. }
  assert (Hs1 : sinv s1 pending).
  { constructor; cbn; try rewrite Hm; try rewrite Hn; try rewrite Hcm; try done; try lia; try apply Hs. }
  destruct okp; cbn [negb]; [|by exists s1].
  destruct (add_point_safe take pos s1 pending Hs1) as (ok' & s2 & E2 & Hs2 & Hl & Hq & Hpr2 & Ha).
  rewrite E2. cbn [mbind outcome_bind]. assert (Hm2 : stack_max (_simplify s2) = stack_max (_simplify s)) by by rewrite Hq.
  destruct ok'; cbn [negb]; [|by exists s2]. eexists. split; [reflexivity|]. cbn. split; [|done].
  destruct Hs2. constructor; try done. cbn. intros _. rewrite Hq. cbn. rewrite Hcm. lia.
Qed.

Lemma update_position_safe take now later okp pos s pending : sinv s pending -> exists s',
  update_position _accuracy take now later okp pos s = Done s' /\ sinv s' pending /\
  length (_path s') = length (_path s) /\ stack_max (_simplify s') = stack_max (_simplify s).
Proof.
  intros Hs. pose proof (si_count _ _ Hs) as Hc.
  assert (Hsame : forall s', _path s' = _path s -> _path_points_count s' = _path_points_count s ->
    _simplify s' = _simplify s -> _prune s' = _prune s -> (_active s' = true -> _active s = true) ->
    sinv s' pending /\ length (_path s') = length (_path s) /\ stack_max (_simplify s') = stack_max (_simplify s)).
  { intros s' E1 E2 E3 E4 Ha. split; [|by rewrite E1, E3]. apply (sinv_path s); try done; [by rewrite E1|by rewrite E2]. }
  unfold update_position. destruct (_active s) eqn:Ha; cbn [negb]; [|by exists s].
  destruct okp.
  - match goal with |- context [add_point _ _ _ ?x] => set (s1 := x) end.
    destruct (Hsame s1) as (Hs1 & Hl1 & Hm1); try done.
    destruct (add_point_safe take pos s1 pending Hs1) as (ok' & s2 & E2 & Hs2 & Hl2 & Hq2 & Hp2 & Ha2).
    rewrite E2. cbn [mbind outcome_bind].
    assert (Hsame2 : forall s', _path s' = _path s2 -> _path_points_count s' = _path_points_count s2 ->
      _simplify s' = _simplify s2 -> _prune s' = _prune s2 -> (_active s' = true -> _active s2 = true) ->
      exists s'', Done s' = Done s'' /\ sinv s'' pending /\ length (_path s'') = length (_path s) /\
        stack_max (_simplify s'') = stack_max (_simplify s)).
    { intros s' F1 F2 F3 F4 Fa. exists s'. split; [done|]. split; [|by rewrite F1, F3, Hl2, Hq2].
      apply (sinv_path s2); try done; [by rewrite F1|rewrite F2; apply Hs2]. }
    destruct ok'; [by apply Hsame2|]. destruct (_ >? _); by apply Hsame2.
  - destruct (_ >? _); eexists; (split; [reflexivity|]); by apply Hsame.
Qed.

Lemma update_safe take0 take now0 now later pos0 pos okp save s pending : sinv s pending -> exists s',
  update _accuracy take0 take now0 now later pos0 pos okp save s = Done s' /\ sinv s' pending /\
  length (_path s') = length (_path s) /\ stack_max (_simplify s') = stack_max (_simplify s).
Proof.
  intros Hs. unfold update.
  assert (Hh : exists s1, (if okp && negb (_home_saved s) then set_home _accuracy take0 now0 pos0.1 pos0.2 s else Done s)
      = Done s1 /\ sinv s1 pending /\ length (_path s1) = length (_path s) /\
      stack_max (_simplify s1) = stack_max (_simplify s)).
  { destruct (okp && _); [by apply set_home_safe|by exists s]. }
  destruct Hh as (s1 & -> & Hs1 & Hl1 & Hm1). cbn [mbind outcome_bind].
  destruct (_ || _); [by exists s1|].
  destruct (update_position_safe take now later (okp && pos.1) pos.2 s1 pending Hs1) as (s2 & E & Hs2 & Hl2 & Hm2).
  exists s2. split; [done|]. split; [done|]. split; congruence.
Qed.

(** * The background thread *)

Section background.
Context (fuel : nat) (Hfuel : fuel_enough fuel).

Lemma bind_safe {A} s pending (m : outcome A) (f : A -> outcome t) :
  match m with Done a => safe s pending (f a) | Undefined => stack_max (_simplify s) + 1 < zlen (_path s)
             | OutOfFuel => False end -> safe s pending (a ← m; f a).
Proof. by destruct m. Qed.

Lemma detect_simplifications_safe micros s pending : sinv s pending -> s_complete (_simplify s) = false ->
  safe s pending (run_detect_simplifications _accuracy fuel micros s).
Proof.
  intros Hs Hc. apply bind_safe. pose proof (si_simplify _ _ Hs Hc) as Hi. pose proof (si_path _ _ Hs) as Hp.
  destruct (decide (s_points_count (_simplify s) < 3)) as [Hlt|Hge].
  - unfold detect_simplifications. rewrite (proj2 (Z.ltb_lt _ _)) by lia. split; [|done].
    apply sinv_simplify; cbn; try apply Hs; [done|]. left. lia.
  - pose proof (detect_simplifications_spec _accuracy false epsilon_ok fuel micros (_path s) (_simplify s) Hi Hc
      ltac:(lia)) as Hd.
    unfold fuel_enough in Hfuel. specialize (Hd ltac:(lia)).
    destruct (detect_simplifications _ _ _ _ _) as [q| |]; [| |done].
    2:{ pose proof (si_points _ _ Hs). unfold room in Hd. lia. }
    destruct Hd as ([Hiq Hn Hm Hdone Hopen] & _ & _). split; [|by split; [|exact Hm]].
    apply sinv_simplify; rewrite ?Hm, ?Hn; try apply Hs; [apply Hiq|done|].
    destruct (s_complete q) eqn:Hcq.
    + destruct (Hdone eq_refl) as [_ ->]. right. rewrite Hn. apply Hs.
    + destruct (Hopen eq_refl) as [_ ->]. left. lia.
Qed.

Lemma detect_loops_safe micros s pending : sinv s pending -> p_complete (_prune s) = false ->
  safe s pending (run_detect_loops _accuracy fuel micros s).
Proof.
  intros Hs Hc. pose proof (si_path _ _ Hs) as Hp. unfold SMARTRTL_POINTS_MAX in Hp. unfold run_detect_loops.
  destruct (detect_loops_spec _accuracy false fuel micros (_path s) (zlen (_path s)) (_prune s)) as
    (p' & E & Hinv & Hn & _ & Hat & _); try apply Hs; try done; try lia.
  rewrite E. split; [|done]. apply sinv_prune; try done. intros Hc' _. by apply Hat.
Qed.

Lemma remove_simplified_safe take s pending : sinv s pending -> s_complete (_simplify s) = true ->
  safe s pending (remove_points_by_simplify_bitmask take s).
Proof.
  intros Hs Hc. pose proof (si_path _ _ Hs) as Hp. pose proof (si_count _ _ Hs) as Hn. pose proof (si_points _ _ Hs) as Hq.
  unfold SMARTRTL_POINTS_MAX in Hp. unfold remove_points_by_simplify_bitmask. destruct take; cbn [negb]; [|done].
  set (count := _path_points_count s) in *.
  destruct (decide (count = 0)) as [Hz|Hnz].
  { rewrite Hz. cbn [Z.to_nat Z.sub compact Z.add Z.opp Z.pos_sub mbind outcome_bind].
    rewrite setall_spec by apply Hs. cbn. split; [|done].
    destruct Hs. constructor; cbn; try done; [lia|apply all_set_ok|by rewrite Hc|].
    intros [?|?]; [done|]. apply si_completed0. by right. }
  destruct (compact_spec (bitmask (_simplify s)) (Z.to_nat (count - 1)) (si_marks _ _ Hs) 1 1 0 (_path s))
    as (path' & E & Hl & _); try (unfold SMARTRTL_POINTS_MAX; lia).
  rewrite E. cbn [mbind outcome_bind]. rewrite setall_spec by apply Hs. cbn [access mbind outcome_bind].
  match goal with |- context [1 + Z.of_nat (Z.to_nat (count - 1)) - ?x] => set (r := 1 + Z.of_nat (Z.to_nat (count - 1)) - x) end.
  assert (Hr : 0 <= r).
  { unfold r. match goal with |- context [zlen (keep ?b ?i ?l)] => pose proof (keep_length b l i) as Hk end.
    rewrite length_take in Hk. lia. }
  assert (Hs' : forall c, 0 <= c <= zlen (_path s) -> sinv (set_path s path' c) pending).
  { intros c Hc'. apply (sinv_path s); done. }
  destruct (_ && _) eqn:Hcond.
  - apply andb_true_iff in Hcond as [H1%Z.gtb_lt H2%Z.gtb_lt]. split; [|cbn; by rewrite Hl].
    apply (sinv_simplify (set_path s path' (count - r))); cbn; rewrite ?Hl; try apply Hs; [apply Hs'; lia|apply all_set_ok|lia| |].
    + by rewrite Hc.
    + right. lia.
  - split; [|cbn; by rewrite Hl]. apply (sinv_path (set_simplify (set_path s path' count)
      (Simplify (s_complete (_simplify s)) false (s_points_count (_simplify s)) (s_points_completed (_simplify s))
         (stack (_simplify s)) (stack_count (_simplify s)) all_set))); try done; [|cbn; lia].
    apply (sinv_simplify (set_path s path' count)); cbn; rewrite ?Hl; try apply Hs; [by apply Hs'|apply all_set_ok| |].
    + by rewrite Hc.
    + left. lia.
Qed.

Lemma remove_loops_by_safe take num s pending : sinv s pending ->
  exists r s', remove_points_by_loops take num s = Done (r, s') /\ sinv s' pending /\
    length (_path s') = length (_path s) /\ stack_max (_simplify s') = stack_max (_simplify s).
Proof.
  intros Hs. unfold remove_points_by_loops. destruct (_ =? 0); [by exists true, s|].
  destruct take; cbn [negb]; [|by exists false, s].
  pose proof (si_prune _ _ Hs) as [[Hc1 Hc2] Hg _]. pose proof (si_path _ _ Hs) as Hp. unfold SMARTRTL_POINTS_MAX in Hp.
  destruct (remove_loops_safe (zlen (_path s) - 1) (Z.to_nat (loops_count (_prune s))) num 0 s) as
    (s' & E & [Ha Hl Hc [Hd1 Hd2] Hgd (ls & n & Hpr) [Hq Hlim]]);
    [lia|by split|exact Hg|lia|apply Hs|unfold SMARTRTL_POINTS_MAX; lia|].
  rewrite E. exists true, s'. split; [done|]. rewrite Hq. split; [|done].
  destruct Hs. constructor; rewrite ?Hl, ?Hq; try done; [lia| | |].
  - intros Hc'. by apply (inv_any_path (_path s)); [|apply si_simplify0].
  - intros [?|?]; apply si_completed0; auto.
  - by rewrite Hpr.
Qed.

(** The pruning starts again up to the last simplified point. *)
Lemma restart_pruning_safe s pending : sinv s pending -> pending <> None -> sinv (restart_pruning_if_new_points s) pending.
Proof.
  intros Hs Hpend. unfold restart_pruning_if_new_points. destruct (negb _); [|done].
  pose proof (si_completed _ _ Hs (or_intror Hpend)) as Hc. pose proof (si_prune _ _ Hs) as [Hcd Hg _].
  apply sinv_prune; [done|by split|]. intros _ H4. cbn in H4. unfold search_at. cbn.
  rewrite Z.gtb_ltb, (proj2 (Z.ltb_lt 0 _)) by lia. lia.
Qed.

Lemma routine_cleanup_safe e c l s : sinv s (Some (c, l)) -> safe s (Some (c, l)) (routine_cleanup _accuracy fuel e c l s).
Proof.
  intros Hs. unfold routine_cleanup. destruct (s_complete (_simplify s)) eqn:Hc; cbn [negb].
  2:{ by apply detect_simplifications_safe. }
  destruct (removal_required (_simplify s)); [by apply remove_simplified_safe|].
  set (s1 := if p_complete (_prune s) then _ else _).
  assert (Hs1 : sinv s1 (Some (c, l)) /\ _path s1 = _path s /\ _simplify s1 = _simplify s).
  { unfold s1. destruct (p_complete _); [|done]. split; [by apply restart_pruning_safe|].
    unfold restart_pruning_if_new_points. by destruct (negb _). }
  destruct Hs1 as (Hs1 & Ep & Eq).
  assert (Hback : forall r, safe s1 (Some (c, l)) r -> safe s (Some (c, l)) r).
  { intros r. unfold safe. by rewrite Ep, Eq. }
  apply Hback. clearbody s1. clear Hback.
  destruct (p_complete (_prune s1)) eqn:Hpc; cbn [negb]; [|by apply detect_loops_safe].
  pose proof (si_path _ _ Hs1) as Hp. pose proof (si_pending _ _ Hs1 c l eq_refl) as Hcl.
  match goal with |- context [restart_simplification c (_simplify ?x)] => set (s2 := x) end.
  assert (Hs2 : sinv s2 (Some (c, l))).
  { apply sinv_prune.
    - apply sinv_simplify; cbn; try apply Hs1; [congruence|]. left. destruct (Z.gtb_spec (s_points_completed (_simplify s1)) l); lia.
    - pose proof (si_prune _ _ Hs1) as [Hcd Hg _]. by split.
    - cbn. congruence. }
  destruct (_ || _).
  - destruct (restart_inv _accuracy (_path s) c (_simplify s2)) as (q & E & Hi & Hq & Hq2 & Hq3 & Hq4 & Hq5);
      [apply Hs2|apply Hs2|lia|rewrite <- Ep; lia|].
    rewrite E. cbn [mbind outcome_bind]. split; [|by split; [|exact Hq4]].
    apply sinv_simplify; rewrite ?Hq, ?Hq4, ?Hq5; try done; [apply Hi|apply Hs2| |left; lia].
    intros _. change (_path s2) with (_path s1). rewrite Ep. by apply inv_weaken.
  - destruct (_ <=? _).
    + destruct (remove_loops_by_safe (take_sem e) SMARTRTL_CLEANUP_POINT_MIN s2 _ Hs2) as (r & s3 & E & Hs3 & Hl & Hm).
      rewrite E. by split.
    + by split.
Qed.

Lemma thorough_prune_safe e type s pending : sinv s pending -> pending <> None -> exists r s',
  thorough_prune _accuracy fuel e type s = Done (r, s') /\ sinv s' pending /\
  length (_path s') = length (_path s) /\ stack_max (_simplify s') = stack_max (_simplify s).
Proof.
  intros Hs Hpend. unfold thorough_prune. destruct (is_simplify_only type); [by exists true, s|].
  set (s1 := if p_complete (_prune s) then _ else _).
  assert (Hs1 : sinv s1 pending /\ _path s1 = _path s /\ _simplify s1 = _simplify s).
  { unfold s1. destruct (p_complete _); [|done]. split; [by apply restart_pruning_safe|].
    unfold restart_pruning_if_new_points. by destruct (negb _). }
  destruct Hs1 as (Hs1 & <- & <-). clearbody s1. destruct (p_complete (_prune s1)) eqn:Hc; cbn [negb].
  - by apply remove_loops_by_safe.
  - pose proof (detect_loops_safe (micros e) s1 pending Hs1 Hc) as Hd.
    assert (Hdone : exists s2, run_detect_loops _accuracy fuel (micros e) s1 = Done s2).
    { pose proof (si_path _ _ Hs1) as Hp. unfold SMARTRTL_POINTS_MAX in Hp.
      destruct (detect_loops_spec _accuracy false fuel (micros e) (_path s1) (zlen (_path s1)) (_prune s1)) as
        (p' & E & _); try apply Hs1; try done; try lia. unfold run_detect_loops. rewrite E. by eexists. }
    destruct Hdone as [s2 E]. rewrite E in *. exists false, s2. by split.
Qed.

Lemma thorough_cleanup_safe e c l type s : sinv s (Some (c, l)) ->
  match thorough_cleanup _accuracy fuel e c type s with
  | Done (_, s') => safe s (Some (c, l)) (Done s')
  | Undefined => safe s (Some (c, l)) Undefined
  | OutOfFuel => False
  end.
Proof.
  intros Hs. unfold thorough_cleanup.
  assert (Hprune : forall s1, sinv s1 (Some (c, l)) -> length (_path s1) = length (_path s) ->
    stack_max (_simplify s1) = stack_max (_simplify s) ->
    match thorough_prune _accuracy fuel e type s1 with
    | Done (_, s') => safe s (Some (c, l)) (Done s') | Undefined => safe s (Some (c, l)) Undefined
    | OutOfFuel => False end).
  { intros s1 Hs1 Hl Hm.
    destruct (thorough_prune_safe e type s1 (Some (c, l)) Hs1 ltac:(done)) as (r & s2 & E & Hs2 & Hl2 & Hm2).
    rewrite E. split; [done|]. split; congruence. }
  destruct (is_prune_only type); [by apply Hprune|].
  pose proof (si_path _ _ Hs) as Hp. pose proof (si_pending _ _ Hs c l eq_refl) as Hcl.
  assert (Hq : exists q, (if s_complete (_simplify s) then restart_simplify_if_new_points c (_simplify s)
      else Done (_simplify s)) = Done q /\ sinv (set_simplify s q) (Some (c, l)) /\
      stack_max q = stack_max (_simplify s)).
  { assert (Hsame : sinv (set_simplify s (_simplify s)) (Some (c, l))) by (apply (sinv_path s); try done; apply Hs).
    destruct (s_complete _); [|by exists (_simplify s)]. unfold restart_simplify_if_new_points.
    destruct (negb _); [|by exists (_simplify s)].
    destruct (restart_inv _accuracy (_path s) c (_simplify s)) as (q & E & Hi & Hq & Hq2 & Hq3 & Hq4 & Hq5);
      [apply Hs|apply Hs|lia|lia|].
    exists q. split; [done|]. split; [|done].
    apply sinv_simplify; rewrite ?Hq, ?Hq4, ?Hq5; try done; [apply Hi|apply Hs|intros _; by apply inv_weaken|left; lia]. }
  destruct Hq as (q & -> & Hs1 & Hm1). cbn [mbind outcome_bind]. set (s1 := set_simplify s q) in *.
  assert (Hback : forall r, safe s1 (Some (c, l)) r -> safe s (Some (c, l)) r).
  { intros r. unfold safe. cbn. by rewrite Hm1. }
  assert (Hone : forall m : outcome t, safe s1 (Some (c, l)) m ->
    match (s2 ← m; Done (false, s2)) with
    | Done (_, s') => safe s (Some (c, l)) (Done s') | Undefined => safe s (Some (c, l)) Undefined
    | OutOfFuel => False end).
  { intros m Hm%Hback. by destruct m. }
  destruct (s_complete (_simplify s1)) eqn:Hc1; cbn [negb].
  2:{ apply Hone. by apply detect_simplifications_safe. }
  destruct (removal_required _); [|by apply Hprune].
  apply Hone. by apply remove_simplified_safe.
Qed.

Lemma sinv_none s pending : sinv s pending -> sinv s None.
Proof. intros []. constructor; try done. intros [?|?]; [|done]. apply si_completed0. by left. Qed.

(** The flags of the requests do not matter. *)
Lemma sinv_request s pending r c type : sinv s pending -> sinv (set_request s r c type) pending.
Proof. intros Hs. apply (sinv_path s); try done. apply Hs. Qed.

Lemma background_work_safe e c l s : sinv s (Some (c, l)) -> safe s None (background_work _accuracy fuel e c l s).
Proof.
  intros Hs.
  assert (Hnone : forall r, safe s (Some (c, l)) r -> safe s None r).
  { intros [s'| |]; [|done|done]. intros (H & H1 & H2). split; [by apply (sinv_none _ (Some (c, l)))|done]. }
  apply Hnone. unfold background_work. destruct (_ >? 0).
  - destruct (negb _); [|by split].
    pose proof (thorough_cleanup_safe e c l (_thorough_clean_type s) s Hs) as Ht.
    destruct (thorough_cleanup _ _ _ _ _ _) as [[b s1]| |]; [|done|done]. cbn [mbind outcome_bind].
    destruct b; [|done]. destruct Ht as (H & H1 & H2). split; [by apply sinv_request|done].
  - apply (routine_cleanup_safe e c l (set_request s _ 0 _)). by apply sinv_request.
Qed.
End background.

(** * All the steps *)

(** What the vehicle and the background thread do; the work of the background thread
    is a step of its own. *)
Inductive step :=
| SetHome (take : bool) (now : Z) (position_ok : bool) (current_pos : Vector3f)
| Update (take0 take : bool) (now0 now later : Z) (pos0 pos : bool * Vector3f) (position_ok save_position : bool)
| Pop (take : bool)
| Request (now : Z) (clean_type : ThoroughCleanupType)
| Cancel
| Begin (take : bool)
| Work (e : io).

Definition run_step (fuel : nat) (x : step) (c : t * option (Z * Z)) : outcome (t * option (Z * Z)) :=
  let '(s, pending) := c in
  match x with
  | SetHome take now ok pos => s ← set_home _accuracy take now ok pos s; Done (s, pending)
  | Update take0 take now0 now later pos0 pos ok save =>
    s ← update _accuracy take0 take now0 now later pos0 pos ok save s; Done (s, pending)
  | Pop take => '(_, s) ← pop_point take s; Done (s, pending)
  | Request now type => Done ((request_thorough_cleanup now type s).2, pending)
  | Cancel => Done (cancel_request_for_thorough_cleanup s, pending)
  | Begin take =>
    match pending with
    | None => let '(r, s) := background_begin take s in Done (s, r)
    | Some _ => Done (s, pending)
    end
  | Work e =>
    match pending with
    | Some (count, limit) => s ← background_work _accuracy fuel e count limit s; Done (s, None)
    | None => Done (s, None)
    end
  end.

Fixpoint run_steps (fuel : nat) (l : list step) (c : t * option (Z * Z)) : outcome (t * option (Z * Z)) :=
  match l with
  | [] => Done c
  | x :: l => c ← run_step fuel x c; run_steps fuel l c
  end.

Definition safe_config (s : t) (r : outcome (t * option (Z * Z))) : Prop :=
  match r with
  | Done (s', pending) => sinv s' pending /\ length (_path s') = length (_path s) /\
      stack_max (_simplify s') = stack_max (_simplify s)
  | Undefined => stack_max (_simplify s) + 1 < zlen (_path s)
  | OutOfFuel => False
  end.

Lemma run_step_safe fuel x s pending : fuel_enough fuel -> sinv s pending -> safe_config s (run_step fuel x (s, pending)).
Proof.
  intros Hf Hs. destruct x as [take now ok pos|take0 take now0 now later pos0 pos ok save|take|now type| |take|e]; cbn [run_step].
  - destruct (set_home_safe take now ok pos s pending Hs) as (s' & -> & H). exact H.
  - destruct (update_safe take0 take now0 now later pos0 pos ok save s pending Hs) as (s' & -> & H). exact H.
  - destruct (pop_point_safe take s pending Hs) as (r & s' & -> & H1 & H2 & H3). cbn. by rewrite H3.
  - unfold request_thorough_cleanup. destruct (negb _); [by split|].
    destruct (_ =? 0); [split; [by apply sinv_request|done]|].
    destruct (_ =? _); [split; [by apply sinv_request|done]|by split].
  - split; [by apply sinv_request|done].
  - destruct pending as [[c l]|]; [by split|]. unfold background_begin. destruct (_active s) eqn:Ha; cbn [negb]; [|by split].
    destruct take; cbn [negb]; [|by split]. split; [|done]. destruct Hs. constructor; try done.
    + intros _. apply si_completed0. by left.
    + by intros c l [= <- <-].
  - destruct pending as [[c l]|]; [|by split]. pose proof (background_work_safe fuel Hf e c l s Hs) as Hw.
    by destruct (background_work _ _ _ _ _ _).
Qed.

Lemma run_steps_safe fuel l : fuel_enough fuel -> forall s pending, sinv s pending -> safe_config s (run_steps fuel l (s, pending)).
Proof.
  intros Hf. induction l as [|x l IH]; intros s pending Hs; [by split|]. cbn [run_steps].
  pose proof (run_step_safe fuel x s pending Hf Hs) as Hx.
  destruct (run_step _ _ _) as [[s1 p1]| |]; [|done|done]. cbn [mbind outcome_bind].
  destruct Hx as (Hs1 & Hl1 & Hm1). specialize (IH s1 p1 Hs1). unfold safe_config in *. by rewrite <- Hl1, <- Hm1.
Qed.
(** * A longer stack *)

(** The same state, with [ext] at the end of the stack of the simplification. *)
Definition longer_stack (ext : list (Z * Z)) (s : t) : t :=
  let q := _simplify s in
  set_simplify s (Simplify (s_complete q) (removal_required q) (s_points_count q) (s_points_completed q) (stack q ++ ext)
    (stack_count q) (bitmask q)).

(** A call that is undefined for want of room on the stack: of the same state, with as
    much more of a stack as the path can need, it is defined. *)
Definition overflows {A} (call : t -> outcome A) (s : t) : Prop :=
  call s = Undefined /\
  forall ext, zlen (_path s) <= stack_max (_simplify s) + zlen ext + 1 -> stack_max (_simplify s) + zlen ext < 65535 ->
    exists r, call (longer_stack ext s) = Done r.

Lemma longer_stack_max ext s : stack_max (_simplify (longer_stack ext s)) = stack_max (_simplify s) + zlen ext.
Proof. unfold stack_max. cbn. rewrite length_app. lia. Qed.

Lemma sinv_longer ext s p : sinv s p -> stack_max (_simplify s) + zlen ext < 65535 -> sinv (longer_stack ext s) p.
Proof.
  intros Hs Hext. apply sinv_simplify; cbn; try apply Hs; [|intros Hc|left; lia].
  - pose proof (longer_stack_max ext s) as Hm. cbn in Hm. lia.
  - destruct (si_simplify _ _ Hs Hc) as [Hcore Hfresh]. split; [|exact Hfresh]. destruct Hcore as [H1 H2 H3 H4 H5 H6 H7].
    unfold pending, stack_max in *.
    constructor; unfold pending, stack_max; cbn; rewrite ?length_app; try done; try lia.
    by rewrite take_app_le by lia.
Qed.

Lemma run_steps_app fuel l1 l2 c : run_steps fuel (l1 ++ l2) c = (c1 ← run_steps fuel l1 c; run_steps fuel l2 c1).
Proof.
  revert c. induction l1 as [|x l1 IH]; intros c; [done|]. cbn [app run_steps].
  destruct (run_step _ _ _) as [c1| |]; cbn [mbind outcome_bind]; [by rewrite IH|done|done].
Qed.

(** A run that is undefined ends in a step for which the stack is too short. *)
Lemma run_steps_overflow fuel l : fuel_enough fuel -> forall s pending, sinv s pending ->
  run_steps fuel l (s, pending) = Undefined ->
  exists l1 x l2 s1 p1, l = l1 ++ x :: l2 /\ run_steps fuel l1 (s, pending) = Done (s1, p1) /\
    overflows (fun s1 => run_step fuel x (s1, p1)) s1.
Proof.
  intros Hf. induction l as [|x l IH]; intros s pending Hs; [done|]. cbn [run_steps].
  pose proof (run_step_safe fuel x s pending Hf Hs) as Hx.
  destruct (run_step _ _ _) as [[s1 p1]| |] eqn:E; [|intros _|done]; cbn [mbind outcome_bind].
  - destruct Hx as (Hs1 & _). intros (l1 & y & l2 & s2 & p2 & -> & Hrun & Ho)%(IH _ _ Hs1).
    exists (x :: l1), y, l2, s2, p2. split; [done|]. split; [|done]. cbn [run_steps]. by rewrite E.
  - exists [], x, l, s, pending. split; [done|]. split; [done|]. split; [done|]. intros ext Hlen Hmax.
    pose proof (run_step_safe fuel x _ pending Hf (sinv_longer ext s pending Hs Hmax)) as Hx'.
    cbn beta. destruct (run_step fuel x (longer_stack ext s, pending)) as [r| |]; [by eexists| |done]. exfalso.
    cbn [safe_config] in Hx'. rewrite longer_stack_max in Hx'. cbn [longer_stack _path set_simplify] in Hx'. lia.
Qed.

(** * Without memory *)

(** What [init] leaves when it did not get the memory: nothing is ever added. *)
Record idle (s : t) : Prop := {
  id_path : _path s = [];
  id_count : _path_points_count s = 0;
  id_active : _active s = false;
  id_marks : ok (bitmask (_simplify s))
}.

Lemma set_home_idle take now okp pos s : idle s -> exists s', set_home _accuracy take now okp pos s = Done s' /\ idle s'.
Proof.
  intros [Hp Hn Ha Hb]. unfold set_home, reset_simplification, restart_simplification. cbn [_simplify set_path].
  rewrite setall_spec by done. cbn [access mbind outcome_bind]. destruct okp; cbn [negb].
  2:{ eexists. split; [done|]. constructor; try done. apply all_set_ok. }
  unfold add_point. destruct take; cbn; rewrite ?Hp; eexists; (split; [done|]); constructor; try done; apply all_set_ok.
Qed.

Lemma run_step_idle fuel x s : idle s -> exists s', run_step fuel x (s, None) = Done (s', None) /\ idle s'.
Proof.
  intros Hs. pose proof (id_active _ Hs) as Ha.
  destruct x as [take now okp pos|take0 take now0 now later pos0 pos okp save|take|now type| |take|e]; cbn [run_step].
  - destruct (set_home_idle take now okp pos s Hs) as (s' & -> & H). by exists s'.
  - assert (Hh : exists s1, (if okp && negb (_home_saved s) then set_home _accuracy take0 now0 pos0.1 pos0.2 s else Done s)
      = Done s1 /\ idle s1) by (destruct (okp && _); [by apply set_home_idle|by exists s]).
    destruct Hh as (s1 & E & Hs1). unfold update. rewrite E. cbn [mbind outcome_bind]. rewrite (id_active _ Hs1).
    by exists s1.
  - unfold pop_point. rewrite Ha. by exists s.
  - unfold request_thorough_cleanup. rewrite Ha. by exists s.
  - eexists. split; [done|]. by destruct Hs.
  - unfold background_begin. rewrite Ha. by exists s.
  - by exists s.
Qed.

Lemma run_steps_idle fuel l : forall s, idle s -> exists s', run_steps fuel l (s, None) = Done (s', None) /\ idle s'.
Proof.
  induction l as [|x l IH]; intros s Hs; [by exists s|]. cbn [run_steps].
  destruct (run_step_idle fuel x s Hs) as (s1 & -> & Hs1). cbn [mbind outcome_bind]. by apply IH.
Qed.
End safety.

(** * From the start *)

Definition stack_length (n : Z) : option Z :=
  f32_to_uint16 (f32_of_Z n * (f32_of_Z 2 / f32_of_Z 3) + f32_of_Z 1)%f32.

Lemma stack_length_range n : 1 <= n < 501 -> exists k, stack_length n = Some k /\ 0 <= k < 65535 /\ (n <= 6 -> n <= k + 1).
Proof.
  intros Hn. pose proof (forall_range (fun n => match stack_length n with
    | Some k => (0 <=? k) && (k <? 65535) && ((6 <? n) || (n <=? k + 1)) | None => false end) 1 501
    ltac:(by vm_compute) n Hn) as H. cbv beta in H.
  destruct (stack_length n) as [k|]; [|done]. exists k. split; [done|].
  destruct (Z.leb_spec 0 k), (Z.ltb_spec k 65535), (Z.ltb_spec 6 n), (Z.leb_spec n (k + 1)); done || lia.
Qed.

Lemma init_spec a m n s : init a m n = Some s -> is_positive a = true /\
  (_path s = [] /\ idle s \/
   _path s <> [] /\ sinv a s None /\ zlen (_path s) = Z.min n 500 /\
     (n <= 6 -> zlen (_path s) <= stack_max (_simplify s) + 1)).
Proof.
  unfold init, SMARTRTL_POINTS_MAX. rewrite Z.gtb_ltb.
  set (len := if n <? 0 then 0 else if 500 <? n then 500 else n).
  destruct (Z.eqb_spec len 0) as [|Hlen]; [done|]. destruct (is_positive a) eqn:Ha; cbn [negb orb]; [|done].
  destruct (new_semaphore m); cbn [negb]; [|done].
  assert (Hlen1 : 1 <= len < 501 /\ len = Z.min n 500).
  { subst len. destruct (Z.ltb_spec n 0); [done|]. destruct (Z.ltb_spec 500 n); lia. }
  destruct Hlen1 as [Hlen1 El]. destruct (f32_to_uint16 (f32_of_Z len * f32_lit 1 (-2))%f32) as [lmax|] eqn:Emax; [|done].
  cbn [mbind option_bind]. fold (stack_length len).
  destruct (stack_length_range len Hlen1) as (k & -> & Hk & Hk6). cbn [mbind option_bind].
  change (Bitmask.setall (Bitmask.create 500)) with (Some Marks.all_set). cbn [mbind option_bind].
  destruct (negb (_ && _)).
  { destruct (calloc_path m); [|done]. intros [= <-]. split; [done|]. left. split; [done|]. constructor; try done. exact all_set_ok. }
  intros [= <-]. clearbody len. split; [done|]. right. assert (Hl : 0 <= lmax < 65536).
  { unfold f32_to_uint16 in Emax. destruct (f32_trunc _) as [v|]; [|done]. cbn [mbind option_bind] in Emax.
    destruct (Z.leb_spec 0 v), (Z.ltb_spec v 65536); cbn in Emax; by simplify_eq. }
  split; [cbn; destruct (Z.to_nat len) eqn:E; [lia|done]|]. split.
  - constructor; unfold stack_max; cbn [_path _path_points_count _simplify _prune stack bitmask s_points_count s_complete
      s_points_completed p_complete p_points_count _active]; rewrite ?length_replicate; try done; try lia.
    + unfold SMARTRTL_POINTS_MAX. lia.
    + exact all_set_ok.
    + intros _. split; [|intros _ _; apply all_set_bit]. constructor; unfold stack_max; cbn; rewrite ?length_replicate; try done; try lia.
      * exact all_set_ok.
    + intros [?|?]; done.
    + split; [|split; constructor|done]. split; unfold loops_max; cbn; rewrite length_replicate; lia.
  - unfold stack_max. cbn. rewrite !length_replicate. lia.
Qed.

(** C13. From [init] on, whatever the vehicle and the background thread do and in whatever
    order, every call ends, and no access is outside of its array except one: a path of
    more than six points can have a run that is cut short in a step whose simplification
    needs a longer stack.  That nothing else is wrong with this step is that the very
    same state with more elements at the end of its stack makes the step well.  Where
    [init] did not get its memory the path stays empty and SmartRTL is never active. *)
Theorem smart_rtl_safe a m n s0 fuel l : init a m n = Some s0 -> fuel_enough fuel ->
  match run_steps a fuel l (s0, None) with
  | Done (s, pending) =>
    match _path s0 with
    | [] => idle s /\ pending = None
    | _ => sinv a s pending /\ length (_path s) = length (_path s0) /\ stack_max (_simplify s) = stack_max (_simplify s0)
    end
  | Undefined => 6 < n /\ exists l1 x l2 s pending, l = l1 ++ x :: l2 /\
      run_steps a fuel l1 (s0, None) = Done (s, pending) /\ overflows (fun s => run_step a fuel x (s, pending)) s
  | OutOfFuel => False
  end.
Proof.
  intros Hinit Hf. destruct (init_spec a m n s0 Hinit) as (Ha & [(Hp & Hi)|(Hp & Hs & _ & H6)]).
  { destruct (run_steps_idle a fuel l s0 Hi) as (s & -> & His). by rewrite Hp. }
  pose proof (run_steps_safe a Ha fuel l Hf s0 None Hs) as Hr.
  destruct (run_steps _ _ _ _) as [[s pending]| |] eqn:E; [| |done].
  { cbn [safe_config] in Hr. by destruct (_path s0). }
  split; [simpl in Hr; lia|].
  by apply run_steps_overflow.
Qed.

(** * Examples *)

Definition no_wait : io := Io true (fun _ => 0).
Definition fly (points : list Vector3f) : list step :=
  map (fun p => Update true true 100 100 100 (true, p) (true, p) true true) points.
Definition background (k : nat) : list step := concat (replicate k [Begin true; Work no_wait]).

(** A flight of six points with a corner, its thorough cleanup and the way back; a
    point is popped while the background thread is at work. *)
Definition demo_flight : list step :=
  SetHome true 50 true (spot 0 0) :: fly [spot 10 0; spot 20 0; spot 20 10; spot 20 20; spot 20 30] ++
  [Request 200 THOROUGH_CLEAN_DEFAULT] ++ background 8 ++
  [Request 300 THOROUGH_CLEAN_DEFAULT; Pop true; Begin true; Pop true; Work no_wait; Request 400 THOROUGH_CLEAN_ALL;
   Begin true; Cancel; Work no_wait].

Definition places (s : t) : list (option Z * option Z) :=
  map (fun p => (f32_trunc (Vector3.x p), f32_trunc (Vector3.y p))) (points s).

Definition demo_start : t :=
  match init demo_delta all_memory 6 with Some s => s | None => mk false false 0 0 0 0 THOROUGH_CLEAN_DEFAULT [] 0 0
    (Simplify false false 0 0 [] 0 Marks.all_set) (Prune false 0 0 0 0 [] 0) end.

Lemma smart_rtl_safe_witness : init demo_delta all_memory 6 = Some demo_start /\
  exists s pending, run_steps demo_delta demo_fuel demo_flight (demo_start, None) = Done (s, pending) /\
    sinv demo_delta s pending.
Proof.
  assert (Hi : init demo_delta all_memory 6 = Some demo_start) by reflexivity. split; [exact Hi|].
  pose proof (smart_rtl_safe demo_delta all_memory 6 demo_start demo_fuel demo_flight Hi demo_fuel_enough) as H.
  assert (Hp : _path demo_start <> []) by (intros E; vm_compute in E; discriminate E).
  destruct (run_steps _ _ _ _) as [[s pending]| |]; [|destruct H as [H _]; by vm_compute in H|destruct H].
  exists s, pending. split; [reflexivity|]. destruct (_path demo_start) as [|v path]; [by destruct Hp|exact (proj1 H)].
Defined.

(** Without the memory for the stack. *)
Example no_memory :
  match init demo_delta (Memory true true true false) 6 with
  | Some s => match run_steps demo_delta demo_fuel demo_flight (s, None) with
              | Done (s, _) => Some (_active s, _home_saved s, _path_points_count s) | _ => None end
  | None => None end = Some (false, false, 0).
Proof. by vm_compute. Qed.

(** The corner is what the cleanup leaves between the ends, and the two points popped
    are the end and the corner. *)
Example demo_cleanup :
  map (fun k => match run_steps demo_delta demo_fuel (take k demo_flight) (demo_start, None) with
                | Done (s, _) => Some (places s, _active s) | _ => None end) [6%nat; 23%nat; length demo_flight]
  = [Some ([(Some 0, Some 0); (Some 10, Some 0); (Some 20, Some 0); (Some 20, Some 10); (Some 20, Some 20);
            (Some 20, Some 30)], true);
     Some ([(Some 0, Some 0); (Some 20, Some 0); (Some 20, Some 30)], true);
     Some ([(Some 0, Some 0)], true)].
Proof. by vm_compute. Qed.

(** The same with room for ten points, swinging to and fro: the thorough cleanup writes
    past the end of the stack of the simplification. *)
Definition start_of (n : Z) : t := match init demo_delta all_memory n with Some s => s | None => demo_start end.
Example cleanup_overflows :
  run_steps demo_delta demo_fuel
    (SetHome true 50 true (spot 0 0) ::
     fly [spot 200 0; spot 0 10; spot 180 10; spot 20 20; spot 160 20; spot 40 30; spot 140 30; spot 60 40] ++
     [Request 200 THOROUGH_CLEAN_DEFAULT] ++ background 2) (start_of 10, None) = Undefined.
Proof. by vm_compute. Qed.

(** [pop_point] keeps the loops that were recorded for the points it takes away.  On the
    way that crosses itself the vehicle is back at the fourth point, inside of the loop,
    when the loop is removed: that point and the one before it go, and the crossing in
    their place is lost too. *)
Definition recorded : t :=
  match prune_calls demo_delta demo_fuel (replicate 6 (crossing, demo_ticks)) (restart_pruning 7 demo_prune) with
  | Done p => set_active (set_prune (set_path (start_of 10) (crossing ++ replicate 3 (spot 0 0)) 7) p) true
  | _ => demo_start
  end.
Example popped_loop_removed :
  match (s ← run_steps demo_delta demo_fuel [Pop true; Pop true; Pop true] (recorded, None);
         r ← remove_points_by_loops true SMARTRTL_POINTS_MAX s.1; Done (places s.1, places r.2)) with
  | Done r => r | _ => ([], []) end
  = ([(Some 0, Some 0); (Some 10, Some 0); (Some 20, Some 0); (Some 20, Some 20)],
     [(Some 0, Some 0); (Some 10, Some 0)]).
Proof. by vm_compute. Qed.

(** When the last point is popped while marked points wait for their removal, the
    removal takes the empty path for a program error and SmartRTL is off. *)
Example empty_path_deactivates :
  match run_steps demo_delta demo_fuel
    (SetHome true 50 true (spot 0 0) :: fly [spot 10 0; spot 20 0; spot 30 0] ++
     [Request 200 THOROUGH_CLEAN_DEFAULT] ++ background 2 ++ [Cancel] ++ replicate 4 (Pop true) ++ background 1)
    (start_of 10, None) with
  | Done (s, _) => (_home_saved s, _active s, _path_points_count s) | _ => (false, true, 1) end = (true, false, 0).
Proof. by vm_compute. Qed.
