(* ===== verification/SmartRTLProgress.v ===== *)
(** A thorough cleanup that is requested is completed: while the vehicle waits, every
    call of the background thread comes nearer to its end. *)
From S2P Require Import Prelude Float32 HalStorage HalStorageSpec SmartRTL SmartRTLSpec SmartRTLSimplify.
From S2P Require Import SmartRTLPrune SmartRTLLoops SmartRTLSafety.
Open Scope urus_scope.
Import SmartRTL FloatOrder Marks.
#[local] Abbreviation length := (@Datatypes.length _).

(** The semaphore is free, and the clock leaves the time for one step of the work. *)
Definition lively (e : io) : Prop :=
  take_sem e = true /\ u32 (micros e 1%nat - micros e O) <= SMARTRTL_SIMPLIFY_TIME_US /\
  u32 (micros e 1%nat - micros e O) < SMARTRTL_PRUNING_LOOP_TIME_US.

(** [n] calls of the thread, from the [i]-th meeting on. *)
Fixpoint cleanups (_accuracy : spec_float) (fuel : nat) (e : nat -> io) (n i : nat) (s : t) : outcome t :=
  match n with
  | O => Done s
  | S n => s ← run_background_cleanup _accuracy fuel true (e i) s; cleanups _accuracy fuel e n (S i) s
  end.

Section progress.
Context (_accuracy : spec_float) (accuracy_positive : is_positive _accuracy = true).
Context (fuel : nat) (Hfuel : fuel_enough fuel).
Context (e : nat -> io) (Hlively : forall i, lively (e i)).
(** The length of the path, that of the stack, the request and its type. *)
Context (len max : Z) (request : Z) (Hrequest : 0 < request) (type : ThoroughCleanupType).
#[local] Abbreviation run i s := (run_background_cleanup _accuracy fuel true (e i) s).

(** * What is reached within a number of calls *)

(** After one call, unless the stack is too short. *)
Definition next (P : t -> Prop) (i : nat) (s : t) : Prop :=
  match run i s with Done s' => P s' | Undefined => max + 1 < len | OutOfFuel => False end.

Inductive within (P : t -> Prop) : nat -> nat -> t -> Prop :=
| within_now n i s : P s -> within P n i s
| within_next n i s s' : run i s = Done s' -> within P n (S i) s' -> within P (S n) i s
| within_full n i s : run i s = Undefined -> max + 1 < len -> within P (S n) i s.

Lemma within_more P n m i s : within P n i s -> (n <= m)%nat -> within P m i s.
Proof.
  intros Hw. revert m. induction Hw as [|n i s s' E Hw IH|n i s E Hl]; intros m Hm; [by constructor| |];
    (destruct m as [|m]; [lia|]).
  - apply (within_next P m i s s' E), IH. lia.
  - by apply within_full.
Qed.

Lemma within_trans P Q n m i s : within P n i s -> (forall i s, P s -> within Q m i s) -> within Q (n + m) i s.
Proof.
  intros Hw Hq. induction Hw as [n i s Hp|n i s s' E Hw IH|n i s E Hl].
  - apply (within_more _ m); [by apply Hq|lia].
  - by apply (within_next Q (n + m) i s s').
  - by apply within_full.
Qed.

Lemma within_weaken P Q n i s : (forall s, P s -> Q s) -> within P n i s -> within Q n i s.
Proof. intros Hpq. induction 1; [by constructor; auto|by eapply within_next|by apply within_full]. Qed.

Lemma within_one P n i s : next (within P n (S i)) i s -> within P (S n) i s.
Proof. unfold next. intros H. destruct (run i s) eqn:E; [by eapply within_next|by apply within_full|done]. Qed.

Lemma next_mono (P Q : t -> Prop) i s : next P i s -> (forall s, P s -> Q s) -> next Q i s.
Proof. unfold next. intros H Hpq. destruct (run i s); auto. Qed.

(** As long as each call that does not reach [Q] makes the measure less. *)
Lemma within_measure (P Q : t -> Prop) (measure : t -> Z) (bound : nat) :
  (forall s, P s -> 0 <= measure s < Z.of_nat bound) ->
  (forall i s, P s -> next (fun s' => Q s' \/ P s' /\ measure s' < measure s) i s) ->
  forall i s, P s -> within Q bound i s.
Proof.
  intros Hb Hstep.
  assert (Hn : forall n i s, P s -> measure s < Z.of_nat n -> within Q n i s).
  { induction n as [|n IH]; intros i s Hp Hm; [pose proof (Hb s Hp); lia|].
    apply within_one. eapply next_mono; [by apply Hstep|]. intros s' [Hq|[Hp' Hlt]]; [by constructor|].
    apply IH; [done|lia]. }
  intros i s Hp. apply Hn; [done|by apply Hb].
Qed.

Lemma within_cleanups P n i s : within P n i s -> exists k, (k <= n)%nat /\
  match cleanups _accuracy fuel e k i s with
  | Done s' => P s' | Undefined => max + 1 < len | OutOfFuel => False
  end.
Proof.
  induction 1 as [n i s Hp|n i s s' E Hw (k & Hk & IH)|n i s E Hl]; [by exists O; split; [lia|]| |].
  - exists (S k). split; [lia|]. cbn [cleanups]. by rewrite E.
  - exists 1%nat. split; [lia|]. cbn [cleanups]. by rewrite E.
Qed.

(** * A request that is not fulfilled yet *)

Record cleaning (pending : option (Z * Z)) (s : t) : Prop := {
  cl_inv : sinv _accuracy s pending;
  cl_path : zlen (_path s) = len;
  cl_stack : stack_max (_simplify s) = max;
  cl_active : _active s = true;
  cl_count : 0 < _path_points_count s;
  cl_request : _thorough_clean_request_ms s = request;
  cl_open : _thorough_clean_complete_ms s <> request;
  cl_type : _thorough_clean_type s = type
}.

Definition cleaned (s : t) : Prop := _thorough_clean_request_ms s = request /\ _thorough_clean_complete_ms s = request.

Lemma cleaning_none pending s : cleaning pending s -> cleaning None s.
Proof. intros []. constructor; try done. by apply (sinv_none _ _ pending). Qed.

(** What a call starts from. *)
Definition begun (s : t) : t := set_limit s SMARTRTL_POINTS_MAX.

Lemma begun_cleaning s : cleaning None s ->
  cleaning (Some (_path_points_count s, _path_points_completed_limit s)) (begun s).
Proof.
  intros []. constructor; try done. destruct cl_inv0. constructor; try done.
  - intros _. apply si_completed. by left.
  - by intros c l [= <- <-].
Qed.

(** A call is a call of [thorough_cleanup]. *)
Lemma run_cleaning i s : cleaning None s -> run i s =
  ('(ok, s') ← thorough_cleanup _accuracy fuel (e i) (_path_points_count s) type (begun s);
   if ok : bool then Done (set_request s' (_thorough_clean_request_ms s') (_thorough_clean_request_ms s')
                             (_thorough_clean_type s'))
   else Done s').
Proof.
  intros []. unfold run_background_cleanup, background_begin. rewrite cl_active0. cbn [negb].
  unfold background_work. cbn [_thorough_clean_request_ms _thorough_clean_complete_ms _thorough_clean_type set_limit].
  rewrite cl_request0, (proj2 (Z.gtb_lt _ _)), (proj2 (Z.eqb_neq _ _)) by done. cbn [negb].
  rewrite cl_type0. done.
Qed.

(** * Simplification *)

Lemma remaining_range path q : inv _accuracy false path q -> 0 <= remaining q < 1001.
Proof.
  intros [Hc _]. unfold remaining. destruct (_ =? 0) eqn:Hz; [lia|]. apply Z.eqb_neq in Hz.
  pose proof (work_nonneg (pending q)). pose proof (core_count _ _ _ _ Hc) as Hn. unfold SMARTRTL_POINTS_MAX in Hn.
  destruct (core_pending _ _ _ _ Hc) as [|[(lo & hi & Hch%chain_work & Hlo & Hhi & _)|(a & b & Heq & Hle)]]; [done|lia|].
  rewrite Heq in *. unfold work, weight in *. simpl in *. lia.
Qed.

(** One call of [detect_simplifications]. *)
Lemma simplify_step i s pending : cleaning pending s -> s_complete (_simplify s) = false ->
  match run_detect_simplifications _accuracy fuel (micros (e i)) s with
  | Done s' => exists q, s' = set_simplify s q /\ cleaning pending s' /\ s_points_count q = s_points_count (_simplify s) /\
      (s_complete q = true \/ remaining q < remaining (_simplify s))
  | Undefined => max + 1 < len
  | OutOfFuel => False
  end.
Proof.
  intros Hcl Hc. pose proof (detect_simplifications_safe _accuracy accuracy_positive fuel Hfuel (micros (e i)) s pending
    (cl_inv _ _ Hcl) Hc) as Hsafe. pose proof (cl_path _ _ Hcl) as Hp. pose proof (cl_stack _ _ Hcl) as Hm.
  unfold run_detect_simplifications in *.
  destruct (detect_simplifications _ _ _ _ _) as [q| |] eqn:E; cbn [mbind outcome_bind safe] in *; [|lia|done].
  destruct Hsafe as (Hi & _ & Hmax). exists q. split; [done|]. split.
  { destruct Hcl. constructor; try done. cbn. cbn in Hmax. lia. }
  destruct (decide (s_points_count (_simplify s) < 3)) as [Hlt|Hge].
  - unfold detect_simplifications in E. rewrite (proj2 (Z.ltb_lt _ _)) in E by lia. injection E as <-. split; [done|by left].
  - pose proof (detect_simplifications_spec _accuracy false (epsilon_ok _accuracy accuracy_positive) fuel (micros (e i)) (_path s)
      (_simplify s) (si_simplify _ _ _ (cl_inv _ _ Hcl) Hc) Hc ltac:(lia)) as Hd.
    unfold fuel_enough in Hfuel. specialize (Hd ltac:(lia)). rewrite E in Hd. destruct Hd as (Ha & _ & _ & Hless).
    split; [apply Ha|]. apply Hless, Hlively.
Qed.

Lemma cleaning_same pending s s' : cleaning pending s -> _path s' = _path s -> _path_points_count s' = _path_points_count s ->
  _simplify s' = _simplify s -> _prune s' = _prune s -> _active s' = _active s ->
  _thorough_clean_request_ms s' = _thorough_clean_request_ms s ->
  _thorough_clean_complete_ms s' = _thorough_clean_complete_ms s -> _thorough_clean_type s' = _thorough_clean_type s ->
  cleaning pending s'.
Proof.
  intros [] E1 E2 E3 E4 E5 E6 E7 E8. constructor; rewrite ?E1, ?E2, ?E3, ?E5, ?E6, ?E7, ?E8; try done.
  apply (sinv_path _ s); rewrite ?E1, ?E2, ?E5; try done. apply cl_inv0.
Qed.

(** Between two calls: what has been simplified, of [n] points. *)
Record simplifying (complete : bool) (count n : Z) (s : t) : Prop := {
  sg_cleaning : cleaning None s;
  sg_count : _path_points_count s = count;
  sg_points : s_points_count (_simplify s) = n;
  sg_complete : s_complete (_simplify s) = complete
}.

Section both.
Hypothesis Hsimplify : is_prune_only type = false.

(** The work of a call on the simplification [q], which may be one that just started. *)
Lemma simplify_round i s q count : cleaning None s -> _path_points_count s = count ->
  cleaning (Some (count, _path_points_completed_limit s)) (set_simplify (begun s) q) ->
  (if s_complete (_simplify s) then restart_simplify_if_new_points count (_simplify s) else Done (_simplify s)) = Done q ->
  s_complete q = false ->
  next (fun s' => exists b, simplifying b count (s_points_count q) s' /\
    (b = true \/ remaining (_simplify s') < remaining q)) i s.
Proof.
  intros Hcl <- Hcl' Eq Hc. unfold next. rewrite run_cleaning by done. unfold thorough_cleanup. rewrite Hsimplify.
  cbn [_simplify begun set_limit]. rewrite Eq. cbn [mbind outcome_bind _simplify set_simplify]. rewrite Hc. cbn [negb].
  pose proof (simplify_step i _ _ Hcl' Hc) as Hs. change (set_limit s SMARTRTL_POINTS_MAX) with (begun s) in *.
  match goal with |- context [run_detect_simplifications ?a ?f ?m ?x] => destruct (run_detect_simplifications a f m x) as [s'| |] end;
    cbn [mbind outcome_bind]; [|done|done].
  destruct Hs as (q' & -> & Hcl2 & Hn & Hless). exists (s_complete q'). split; [|exact Hless].
  constructor; try done. by apply (cleaning_none _ _ Hcl2).
Qed.

Lemma simplify_on i s count n : simplifying false count n s -> next (fun s' => simplifying true count n s' \/
  simplifying false count n s' /\ remaining (_simplify s') < remaining (_simplify s)) i s.
Proof.
  intros [Hcl Hn Hp Hc]. eapply next_mono.
  - apply (simplify_round i s (_simplify s) count); try done; [|by rewrite Hc]. subst count.
    by apply (cleaning_same _ (begun s)); [apply begun_cleaning|..].
  - intros s' (b & Hs & Hless). rewrite Hp in Hs. destruct b; [by left|right]. destruct Hless; done.
Qed.

Lemma simplify_ends i s count n : simplifying false count n s -> within (simplifying true count n) 1001 i s.
Proof.
  apply (within_measure _ _ (fun s => remaining (_simplify s))).
  - intros s' [Hcl _ _ Hc]. apply (remaining_range (_path s')), (si_simplify _ _ _ (cl_inv _ _ Hcl)), Hc.
  - intros i' s'. apply simplify_on.
Qed.

(** A simplification of other points is started again. *)
Lemma simplify_again i s count n : simplifying true count n s -> within (simplifying true count count) 1002 i s.
Proof.
  intros [Hcl Hn Hp Hc]. destruct (decide (n = count)) as [->|Hne]; [by constructor; constructor|].
  pose proof (begun_cleaning s Hcl) as Hb. pose proof (cl_inv _ _ Hb) as Hi. pose proof (si_path _ _ _ Hi) as Hpath.
  pose proof (si_count _ _ _ Hi) as Hcount. cbn in Hpath, Hcount.
  destruct (restart_inv _accuracy (_path s) count (_simplify s)) as (q & E & Hiq & Hq & Hq2 & Hq3 & Hq4 & Hq5);
    [apply Hi|apply Hi|lia|lia|].
  apply within_one. eapply next_mono.
  - apply (simplify_round i s q count); try done.
    + rewrite <- Hn. destruct Hb. constructor; try done; [|cbn; by rewrite Hq4].
      apply sinv_simplify; rewrite ?Hq, ?Hq4, ?Hq5; try done; [apply Hiq|apply Hi|cbn; lia| |left; cbn; lia].
      intros _. by apply inv_weaken.
    + rewrite Hc. unfold restart_simplify_if_new_points. rewrite (proj2 (Z.eqb_neq _ _)) by lia. exact E.
  - intros s' (b & Hs & _). rewrite Hq in Hs. destruct b; [by constructor|by apply simplify_ends].
Qed.

(** The marked points are removed. *)
Lemma remove_step s pending : cleaning pending s -> s_complete (_simplify s) = true ->
  s_points_count (_simplify s) = _path_points_count s ->
  exists s', remove_points_by_simplify_bitmask true s = Done s' /\ cleaning pending s' /\
    s_complete (_simplify s') = true /\ s_points_count (_simplify s') = _path_points_count s' /\
    removal_required (_simplify s') = false.
Proof.
  intros Hcl Hc Hn. pose proof (cl_inv _ _ Hcl) as Hi. pose proof (cl_count _ _ Hcl) as Hpos.
  pose proof (remove_simplified_safe _accuracy true s pending Hi Hc) as Hsafe.
  pose proof (si_path _ _ _ Hi) as Hp. pose proof (si_count _ _ _ Hi) as Hcount. unfold SMARTRTL_POINTS_MAX in Hp.
  unfold remove_points_by_simplify_bitmask in *. cbn [negb] in *.
  destruct (compact_spec (bitmask (_simplify s)) (Z.to_nat (_path_points_count s - 1)) (si_marks _ _ _ Hi) 1 1 0 (_path s))
    as (path' & E & Hl & _); try (unfold SMARTRTL_POINTS_MAX; lia).
  rewrite E in *. cbn [mbind outcome_bind] in *. rewrite setall_spec in * by apply Hi. cbn [access mbind outcome_bind] in *.
  match type of E with _ = Done (_, ?x) => set (removed := x) in * end.
  assert (Hr : removed < _path_points_count s) by (unfold removed; lia).
  rewrite Hn in *. rewrite (proj2 (Z.gtb_lt _ _)) in * by done. cbn [andb] in *.
  destruct Hsafe as (Hsafe & _). eexists. split; [reflexivity|]. split; [|done].
  destruct Hcl. constructor; try done; cbn; [by rewrite Hl|lia].
Qed.

Record simplified (s : t) : Prop := {
  sp_simplifying : exists n, simplifying true n n s;
  sp_removed : removal_required (_simplify s) = false
}.

Lemma remove_round i s n : simplifying true n n s -> within simplified 1 i s.
Proof.
  intros Hs. pose proof Hs as [Hcl Hn Hp Hc]. destruct (removal_required (_simplify s)) eqn:Hr.
  2:{ constructor. by split; [exists n|]. }
  apply within_one. unfold next. rewrite run_cleaning by done. unfold thorough_cleanup. rewrite Hsimplify.
  cbn [_simplify begun set_limit]. rewrite Hc. unfold restart_simplify_if_new_points.
  rewrite (proj2 (Z.eqb_eq _ _)) by lia. cbn [negb mbind outcome_bind _simplify set_simplify]. rewrite Hc, Hr. cbn [negb].
  destruct (Hlively i) as [-> _].
  match goal with |- context [remove_points_by_simplify_bitmask true ?x] =>
    destruct (remove_step x (Some (_path_points_count s, _path_points_completed_limit s))) as (s' & -> & Hcl' & Hc' & Hn' & Hr') end;
    [by apply (cleaning_same _ (begun s)); [apply begun_cleaning|..]|done|cbn; lia|].
  cbn [mbind outcome_bind]. constructor. split; [|done]. exists (_path_points_count s'). constructor; try done.
  by apply (cleaning_none _ _ Hcl').
Qed.

Lemma simplified_soon i s : cleaning None s -> within simplified 2004 i s.
Proof.
  intros Hcl. apply (within_trans (fun s => exists n, simplifying true n n s) _ 2003 1).
  2:{ intros i' s' [n Hs]. by apply (remove_round i' s' n). }
  apply (within_trans (fun s => exists c n, simplifying true c n s) _ 1001 1002).
  2:{ intros i' s' (c & n & Hs). eapply (within_weaken (simplifying true c c)); [by eexists|by apply (simplify_again i' s' c n)]. }
  destruct (s_complete (_simplify s)) eqn:Hc; [constructor; by do 2 eexists|].
  apply (within_weaken (simplifying true (_path_points_count s) (s_points_count (_simplify s)))); [by do 2 eexists|].
  by apply simplify_ends.
Qed.

(** What a call does then. *)
Lemma run_simplified i s : simplified s -> thorough_cleanup _accuracy fuel (e i) (_path_points_count s) type (begun s) =
  thorough_prune _accuracy fuel (e i) type (set_simplify (begun s) (_simplify s)).
Proof.
  intros [[n [_ Hn Hp Hc]] Hr]. unfold thorough_cleanup. rewrite Hsimplify. cbn [_simplify begun set_limit].
  rewrite Hc. unfold restart_simplify_if_new_points. rewrite (proj2 (Z.eqb_eq _ _)) by lia.
  cbn [negb mbind outcome_bind _simplify set_simplify]. by rewrite Hc, Hr.
Qed.
End both.

(** * Pruning *)

Definition ready (s : t) : Prop := cleaning None s /\ (is_prune_only type = true \/ simplified s).

Lemma ready_soon i s : cleaning None s -> within ready 2004 i s.
Proof.
  intros Hcl. destruct (is_prune_only type) eqn:Ht; [constructor; split; auto|].
  apply (within_weaken simplified); [|by apply simplified_soon]. intros s' Hs. split; [|by right].
  destruct Hs as [[n Hs] _]. apply Hs.
Qed.

Lemma ready_same s s' : ready s -> cleaning None s' -> _path_points_count s' = _path_points_count s ->
  _simplify s' = _simplify s -> ready s'.
Proof.
  intros [_ Hor] Hcl Hc Hq. split; [done|]. destruct Hor as [|[[n [_ H1 H2 H3]] Hr]]; [by left|right].
  split; [exists n; constructor; congruence|congruence].
Qed.

(** The work of a call on the loops. *)
Lemma run_ready i s : ready s -> exists s1,
  cleaning (Some (_path_points_count s, _path_points_completed_limit s)) s1 /\
  _path_points_count s1 = _path_points_count s /\ _simplify s1 = _simplify s /\ _prune s1 = _prune s /\
  run i s = ('(ok, s') ← thorough_prune _accuracy fuel (e i) type s1;
    if ok : bool then Done (set_request s' (_thorough_clean_request_ms s') (_thorough_clean_request_ms s')
                              (_thorough_clean_type s'))
    else Done s').
Proof.
  intros [Hcl Hor]. pose proof (begun_cleaning s Hcl) as Hb. rewrite (run_cleaning i s Hcl).
  destruct (is_prune_only type) eqn:Ht.
  - exists (begun s). unfold thorough_cleanup. by rewrite Ht.
  - destruct Hor as [|Hs]; [done|]. rewrite (run_simplified Ht i s Hs).
    exists (set_simplify (begun s) (_simplify s)). split; [by apply (cleaning_same _ (begun s))|done].
Qed.

Record pruning (complete : bool) (n : Z) (s : t) : Prop := {
  pg_ready : ready s;
  pg_points : p_points_count (_prune s) = n;
  pg_complete : p_complete (_prune s) = complete
}.

Section prune.
Hypothesis Hprune : is_simplify_only type = false.

(** A search that goes on, or that just started with [p]. *)
Lemma prune_round i s : ready s ->
  let p := if p_complete (_prune s) then _prune (restart_pruning_if_new_points s) else _prune s in
  p_complete p = false ->
  next (fun s' => _simplify s' = _simplify s /\ exists b, pruning b (p_points_count p) s' /\
    (b = true \/ 4 <= p_points_count p /\ steps (_prune s') < steps p)) i s.
Proof.
  intros Hr. destruct (run_ready i s Hr) as (s1 & Hcl & Hc1 & Hq1 & Hp1 & E). unfold next. rewrite E. clear E.
  unfold thorough_prune. rewrite Hprune.
  set (s2 := if p_complete (_prune s1) then _ else _).
  assert (Hs2 : cleaning (Some (_path_points_count s, _path_points_completed_limit s)) s2 /\
    _path_points_count s2 = _path_points_count s /\ _simplify s2 = _simplify s /\
    _prune s2 = if p_complete (_prune s) then _prune (restart_pruning_if_new_points s) else _prune s).
  { unfold s2. clear s2. rewrite Hp1. destruct (p_complete (_prune s)); [|done].
    assert (Hre : sinv _accuracy (restart_pruning_if_new_points s1) (Some (_path_points_count s, _path_points_completed_limit s)))
      by (apply (restart_pruning_safe _ s1); [apply Hcl|done]).
    revert Hre. unfold restart_pruning_if_new_points. rewrite Hp1, Hq1. destruct (negb _); [|done].
    intros Hre. split; [|done]. destruct Hcl. by constructor. }
  clearbody s2. destruct Hs2 as (Hcl2 & Hc2 & Hq2 & <-). cbn zeta. intros Hpc. rewrite Hpc. cbn [negb].
  pose proof (cl_inv _ _ Hcl2) as Hi. pose proof (si_path _ _ _ Hi) as Hpath. unfold SMARTRTL_POINTS_MAX in Hpath.
  pose proof (detect_loops_safe _accuracy fuel Hfuel (micros (e i)) s2 _ Hi Hpc) as Hsafe.
  destruct (detect_loops_spec _accuracy false fuel (micros (e i)) (_path s2) (zlen (_path s2)) (_prune s2)) as
    (p' & Ep & _ & Hn & _ & _ & _ & Hless); try apply Hi; try done; try (unfold SMARTRTL_POINTS_MAX; lia).
  unfold run_detect_loops in *. rewrite Ep in *. cbn [mbind outcome_bind safe] in *. destruct Hsafe as (Hsafe & _).
  split; [done|]. exists (p_complete p'). split.
  - split; [|done..]. apply (ready_same s); [done| |done|done]. eapply cleaning_none. destruct Hcl2. by constructor.
  - destruct (Z.ltb_spec (p_points_count (_prune s2)) 4) as [Hlt|Hge].
    + left. unfold detect_loops in Ep. rewrite (proj2 (Z.ltb_lt _ _)) in Ep by done. by injection Ep as <-.
    + destruct (Hless (proj2 (proj2 (Hlively i)))); auto.
Qed.

Lemma steps_range s : pruning false (p_points_count (_prune s)) s -> 4 <= p_points_count (_prune s) ->
  0 <= steps (_prune s) < 2 ^ 18.
Proof.
  intros [[Hcl _] _ Hc] Hn. pose proof (cl_inv _ _ Hcl) as Hi. pose proof (si_path _ _ _ Hi) as Hp.
  pose proof (si_search _ _ _ Hi Hc Hn). unfold search_at, steps, SMARTRTL_POINTS_MAX in *. lia.
Qed.

Definition same_completed (n : Z) (s : t) : Prop := s_points_completed (_simplify s) = n.

Lemma prune_ends i s n m : pruning false n s -> same_completed m s ->
  within (fun s' => pruning true n s' /\ same_completed m s') (Z.to_nat (2 ^ 18)) i s.
Proof.
  intros Hs Hm.
  assert (Hon : forall i s, pruning false n s -> same_completed m s -> next (fun s' =>
    (pruning true n s' /\ same_completed m s') \/
    (pruning false n s' /\ same_completed m s' /\ 4 <= n /\ steps (_prune s') < steps (_prune s))) i s).
  { intros i' s' [Hr Hp Hc] Hm'. eapply next_mono.
    - apply prune_round; [done|]. by rewrite Hc.
    - cbn beta zeta. rewrite Hc, Hp. intros s2 (Hq & b & Hs2 & Hless). unfold same_completed in *. rewrite Hq.
      destruct b; [by left|right]. destruct Hless as [|Hless]; [done|by split]. }
  destruct (Z.ltb_spec n 4) as [Hlt|Hge].
  - destruct (Z.to_nat (2 ^ 18)) as [|k] eqn:Ek; [lia|]. apply within_one. eapply next_mono; [by apply Hon|].
    intros s' [H|(_ & _ & H & _)]; [by constructor|lia].
  - apply (within_measure (fun s => pruning false n s /\ same_completed m s) _ (fun s => steps (_prune s))); [| |done].
    + intros s' [Hp' _]. pose proof Hp' as [_ En _]. rewrite <- En in Hp'.
      pose proof (steps_range s' Hp' ltac:(lia)). lia.
    + intros i' s' [Hp' Hm']. eapply next_mono; [by apply Hon|]. intros s2 [H|(H1 & H2 & _ & H4)]; auto.
Qed.

(** A search up to another point is started again. *)
Lemma prune_again i s n m : pruning true n s -> same_completed m s ->
  within (fun s' => pruning true m s' /\ same_completed m s') (S (Z.to_nat (2 ^ 18))) i s.
Proof.
  intros [Hr Hp Hc] Hm. destruct (decide (n = m)) as [->|Hne]; [by constructor|].
  assert (E : _prune (restart_pruning_if_new_points s) = restart_pruning m (_prune s)).
  { unfold restart_pruning_if_new_points. unfold same_completed in Hm. by rewrite Hm, Hp, (proj2 (Z.eqb_neq _ _)). }
  apply within_one. eapply next_mono; [apply prune_round; [done|by rewrite Hc, E]|].
  cbn beta zeta. rewrite Hc, E. intros s' (Hq & b & Hs & _). cbn [p_points_count restart_pruning] in Hs.
  assert (Hm' : same_completed m s') by (unfold same_completed in *; by rewrite Hq).
  destruct b; [by constructor|by apply prune_ends].
Qed.

Lemma remove_loops_request i : forall num removed s s', remove_loops i num removed s = Done s' ->
  _thorough_clean_request_ms s' = _thorough_clean_request_ms s.
Proof.
  induction i as [|i IH]; intros num removed s s'; cbn [remove_loops]; [by intros [= <-]|].
  destruct (_ <? _); [|by intros [= <-]]. destruct (arr_get _ _) as [l|]; [|done]. cbn [access mbind outcome_bind].
  destruct (remove_one _ _ _) as [path| |]; [|done|done]. cbn [mbind outcome_bind].
  destruct (_ >? _); [by intros ?%IH|by intros [= <-]].
Qed.

(** The recorded loops are removed, and the request is fulfilled. *)
Lemma prune_done i s n : pruning true n s -> same_completed n s -> within cleaned 1 i s.
Proof.
  intros [Hr Hp Hc] Hm. destruct (run_ready i s Hr) as (s1 & Hcl & _ & Hq1 & Hp1 & E). apply within_one. unfold next.
  rewrite E. unfold thorough_prune. rewrite Hprune, Hp1, Hc. unfold restart_pruning_if_new_points, same_completed in *.
  rewrite Hp1, Hq1, (proj2 (Z.eqb_eq _ _)) by congruence. cbn [negb]. rewrite Hp1, Hc. cbn [negb].
  destruct (Hlively i) as [-> _].
  destruct (remove_loops_by_safe _accuracy true SMARTRTL_POINTS_MAX s1 _ (cl_inv _ _ Hcl)) as (r & s' & Es & _).
  rewrite Es. cbn [mbind outcome_bind]. unfold remove_points_by_loops in Es. cbn [negb] in Es.
  assert (Hrq : r = true /\ _thorough_clean_request_ms s' = request).
  { rewrite <- (cl_request _ _ Hcl). destruct (_ =? 0); [by injection Es as <- <-|].
    destruct (remove_loops _ _ _ _) as [s2| |] eqn:E2; [|done|done]. cbn in Es. injection Es as <- <-.
    split; [done|]. by apply remove_loops_request in E2. }
  destruct Hrq as [-> Hrq]. constructor. by split.
Qed.
End prune.

Definition calls_enough : nat := 2004 + (Z.to_nat (2 ^ 18) + (S (Z.to_nat (2 ^ 18)) + 1)).

Lemma ready_cleaned i s : ready s -> within cleaned (Z.to_nat (2 ^ 18) + (S (Z.to_nat (2 ^ 18)) + 1)) i s.
Proof.
  intros Hr. destruct (is_simplify_only type) eqn:Ht.
  - destruct (run_ready i s Hr) as (s1 & Hcl & _ & _ & _ & E). apply (within_more _ 1); [|lia]. apply within_one.
    unfold next. rewrite E. unfold thorough_prune. rewrite Ht. cbn. constructor. split; apply Hcl.
  - set (n := p_points_count (_prune s)). set (m := s_points_completed (_simplify s)).
    apply (within_trans (fun s' => pruning true n s' /\ same_completed m s')).
    + destruct (p_complete (_prune s)) eqn:Hc; [by constructor|by apply prune_ends].
    + intros i' s' [Hs Hm]. apply (within_trans (fun s' => pruning true m s' /\ same_completed m s')); [by apply (prune_again Ht i' s' n)|].
      intros i2 s2 [Hs2 Hm2]. by apply (prune_done Ht i2 s2 m).
Qed.

Lemma cleaning_cleaned i s : cleaning None s -> within cleaned calls_enough i s.
Proof. intros Hcl. apply (within_trans ready); [by apply ready_soon|intros i' s'; apply ready_cleaned]. Qed.
End progress.

Lemma calls_few : Z.of_nat calls_enough <= 2 ^ 20.
Proof. unfold calls_enough. lia. Qed.

(** A call of the thread is two steps of the run. *)
Lemma cleanup_safe a fuel x s : is_positive a = true -> fuel_enough fuel -> sinv a s None ->
  safe a s None (run_background_cleanup a fuel true x s).
Proof.
  intros Ha Hf Hs. pose proof (run_steps_safe a Ha fuel [Begin true; Work x] Hf s None Hs) as Hr. revert Hr.
  cbn [run_steps run_step]. unfold run_background_cleanup.
  destruct (background_begin true s) as [[[c l]|] s1]; cbn [mbind outcome_bind run_step]; [|done].
  by destruct (background_work _ _ _ _ _ _).
Qed.

(** Calls that are undefined end in one for which the stack is too short. *)
Lemma cleanups_overflow a fuel e : is_positive a = true -> fuel_enough fuel -> forall k i s, sinv a s None ->
  cleanups a fuel e k i s = Undefined ->
  exists j s1, (j < k)%nat /\ cleanups a fuel e j i s = Done s1 /\
    overflows (run_background_cleanup a fuel true (e (i + j)%nat)) s1.
Proof.
  intros Ha Hf. induction k as [|k IH]; intros i s Hs; [done|]. cbn [cleanups].
  pose proof (cleanup_safe a fuel (e i) s Ha Hf Hs) as Hx.
  destruct (run_background_cleanup a fuel true (e i) s) as [s1| |] eqn:E; [|intros _|done]; cbn [mbind outcome_bind].
  - intros (j & s2 & Hj & Hrun & Ho)%IH; [|apply Hx]. exists (S j), s2. split; [lia|].
    cbn [cleanups]. rewrite E, Nat.add_succ_r. by split.
  - exists O, s. split; [lia|]. split; [done|]. rewrite Nat.add_0_r. split; [done|]. intros ext Hlen Hmax.
    pose proof (cleanup_safe a fuel (e i) _ Ha Hf (sinv_longer a ext s None Hs Hmax)) as Hx'.
    destruct (run_background_cleanup a fuel true (e i) (longer_stack ext s)) as [r| |]; [by eexists| |done]. exfalso.
    cbn [safe] in Hx'. rewrite longer_stack_max in Hx'. cbn [longer_stack _path set_simplify] in Hx'. lia.
Qed.

(** The request of [s] is fulfilled in [s'], and the vehicle is told so. *)
Definition fulfilled (s s' : t) : Prop :=
  _thorough_clean_request_ms s' = _thorough_clean_request_ms s /\
  _thorough_clean_complete_ms s' = _thorough_clean_request_ms s /\
  forall now type, _active s' = true -> (request_thorough_cleanup now type s').1 = true.

Lemma cleanups_fulfil a fuel e s : is_positive a = true -> fuel_enough fuel -> (forall i, lively (e i)) ->
  sinv a s None -> _active s = true -> 0 < _path_points_count s -> 0 < _thorough_clean_request_ms s ->
  exists k, Z.of_nat k <= 2 ^ 20 /\
    match cleanups a fuel e k 0 s with
    | Done s' => fulfilled s s'
    | Undefined => stack_max (_simplify s) + 1 < zlen (_path s)
    | OutOfFuel => False
    end.
Proof.
  intros Hpos Hf Hl Hs Ha Hn Hr.
  assert (Hw : within a fuel e (zlen (_path s)) (stack_max (_simplify s)) (cleaned (_thorough_clean_request_ms s)) calls_enough 0 s).
  { destruct (decide (_thorough_clean_complete_ms s = _thorough_clean_request_ms s)) as [Heq|Hne]; [by constructor; split|].
    by apply (cleaning_cleaned a Hpos fuel Hf e Hl _ _ _ Hr (_thorough_clean_type s)). }
  apply within_cleanups in Hw as (k & Hk & Hc). exists k. pose proof calls_few. split; [lia|].
  destruct (cleanups _ _ _ _ _ _) as [s'| |]; [|done|done]. destruct Hc as [H1 H2]. split; [done|]. split; [done|].
  intros now type Ha'. unfold request_thorough_cleanup. rewrite Ha', H1, H2. cbn [negb].
  by rewrite (proj2 (Z.eqb_neq _ 0)), Z.eqb_refl by lia.
Qed.


(** * Examples *)

(** The flight with a corner, up to the request. *)
Definition demo_requested : t :=
  match run_steps demo_delta demo_fuel (take 7 demo_flight) (demo_start, None) with Done (s, _) => s | _ => demo_start end.


(** It takes six calls, and the corner is left. *)
Example demo_calls_taken :
  map (fun k => match cleanups demo_delta demo_fuel (fun _ => no_wait) k 0 demo_requested with
                | Done s => (length (places s), _thorough_clean_complete_ms s) | _ => (0%nat, 0) end) (seq 0 7)
  = [(6%nat, 0); (6%nat, 0); (6%nat, 0); (3%nat, 0); (3%nat, 0); (3%nat, 0); (3%nat, 200)].
Proof. by vm_compute. Qed.
